(* ===== verification/_CoqProject ===== *)
-Q . S2P
Prelude.v
PyVal.v
PySort.v
PyState.v
PyNumerals.v
PyFloat.v
ReplicationCommands.v
RoomVersionTable.v
Identifiers.v
PyEncoding.v
Events.v
WheelTimer.v
PresenceState.v
PresenceQueue.v
PresenceQueueProps.v
PresenceHandler.v
PresenceSafety.v
PresenceInvariant.v
PresenceProps.v
PresenceSaved.v
PresenceWorker.v
PresenceJoins.v
EventAuthLevels.v
SetkaChannels.v
EventAuthPower.v
EventAuthMembership.v
EventAuth.v
EventAuthTotal.v
Samples.v
EventAuthPowerSafety.v
EventAuthMembershipSafety.v
EventAuthSafety.v
EventAuthFrame.v
Redaction.v
RedactionAuth.v
StateV1.v
StateV1Safety.v
TopoSort.v
StateV2.v
StateV2Safety.v
StateV2Chains.v
StateV2Mainline.v
StateV2Total.v
StateV2Props.v
StreamIds.v
StreamSafety.v
StreamInvariant.v
StreamProps.v
StreamProgress.v
StreamTokens.v
StreamTokensOrder.v
StreamTokensText.v
StreamTokensProps.v
StreamChangeCache.v
PresenceEvents.v
StateFilter.v
Visibility.v
VisibilityProps.v
LinkedList.v
TreeCache.v
LruCache.v
LruEntries.v
LruCacheProps.v
SetkaDb.v
SetkaPlusPlans.v
SetkaPlusState.v
SetkaPlusSubscription.v
SetkaPlusVouchers.v
SetkaPlusCheckout.v
SetkaPlusPayanyway.v
SetkaPlusStickers.v
SetkaPlusConfig.v
SetkaPlusFrame.v
SetkaPlusVoucherProps.v
SetkaPlusProps.v
SetkaFeed.v
SetkaRegistry.v
SetkaSafety.v
SetkaListing.v
SetkaFeedSafety.v
