(* ===== verification/Prelude.v ===== *)
(** * Verification of the Setka Matrix homeserver (a Synapse fork)

    This library models the core of the homeserver under src/: who may send what into a room
    (event authorization), how the states of a forked room are merged (state resolution,
    versions 1, 2 and 2.1), and the data both work on (events, identifiers, room versions);
    what is left of an event when it is redacted, hashed or signed; how the workers of a
    deployment number the rows they write so that readers miss none (stream IDs and stream
    tokens), and the cache that tells readers which entities changed; the caches of the
    workers, which forget what was used least recently; which state a request
    asks for (state filters); which events a client or a server may see (visibility); who is
    online (presence, with the timers, the replication commands and the queue that carry it);
    the fork's own broadcast channels, with their registry and feed; and the fork's paid
    subscriptions (Setka Plus), with payments, vouchers and sticker packs.

    ** How the parts interact

    A room is a directed acyclic graph of events.  Each event names the auth events that allow
    it.  [check_state_independent_auth_rules] checks that list once;
    [check_state_dependent_auth_rules] then decides against a map from (type, state key) to
    events, of which it reads only the keys [auth_types_for_event] selects.  When the graph
    forks, a room has several states (maps from (type, state key) to event IDs); state
    resolution merges them, calling the auth rules on each conflicting event in an order
    computed from the auth graph.  A [StateFilter] names a part of such a state.

    Accepted events are written to a stream by one of several workers.  A worker takes the
    number of a row from a sequence all of them share, and tells the others over replication
    when the row is written; its [MultiWriterIdGenerator] gives the position up to which all
    rows are.  A [StreamToken] holds such positions for every stream of the server, and
    travels to clients as a string.  Beside a stream, a [StreamChangeCache] remembers the last
    change of each room or user, so that a query "what changed since this position" often
    needs no database.  Other caches are [LruCache]s: their entries are on linked lists, one
    per cache for the order of use and one for all entries that may expire.

    Before events go to a client they pass the filter of Visibility, which looks at the state
    after each of them through a [StateFilter] and prunes the events of erased senders.

    One process writes presence.  It keeps a state and the devices of each user, and a
    [WheelTimer] tells it whom to look at; the other workers count the syncs they serve and
    tell it by commands, and follow the states it publishes on a stream.  Changes for other
    servers go through the [PresenceFederationQueue], from which the process that sends
    catches up; those for clients are found through a [StreamChangeCache].

    The channels of the fork hook into the auth rules at one place, the level required to
    send, and into the third-party rules, where an event that is about to be sent publishes
    its room in the registry and its content in the feed.

    Setka Plus keeps a user's subscription, payments and sticker packs in his account data,
    and vouchers in two tables.  A payment service reports a payment to a URL of the server; a
    report with the right signature, or a voucher, activates the subscription, which
    lengthens it.  Clients write account data through an API of its own.

    ** The files, and the code they model

    - Prelude, PyVal: Python.  [result] is the value or the exception of a call; the
      exceptions carry the message template of the source.  [json] is a decoded JSON value
      with Python's [==], truthiness, [int()], [in] and indexing; a dict is an association
      list without duplicate keys in insertion order ([dget], [dset], [ddel], [dupdate]);
      strings are lists of bytes, the UTF-8 encoding, with codepoint counts where the source
      counts codepoints.  A set is a duplicate-free list, and a place of the source that
      iterates over a set uses [SetOrder], an arbitrary permutation.
    - PyState: the methods of an object that changes, as computations [St S A] over its state.
    - PySort, PyNumerals, PyFloat, PyEncoding: Python's comparison and [sorted]; numerals and
      separators read back; doubles, with division, printing and parsing; [hashlib.sha1],
      base64, UTF-8, URLs and markup.
    - RoomVersionTable: api/room_versions.py, the record [RoomVersion] and the table of all
      versions; api/constants.py and api/errors.py as far as used.
    - Identifiers: util/stringutils.py and the identifier classes of types/__init__.py.
    - Events: events/__init__.py, the event classes and their properties by event format.
    - EventAuthLevels, EventAuthPower, EventAuthMembership, EventAuth: event_auth.py,
      function by function; one definition per function, and one per branch or loop body
      where a function is long.
    - Redaction: [prune_event_dict] and [prune_event] of events/utils.py, and the hashes and
      signatures of crypto/event_signing.py, which are made of pruned events.
    - StateV1: state/v1.py.  StateV2 (Module [V2]): state/v2.py, [event_map] threaded as the
      source mutates it.  TopoSort: [lexicographical_topological_sort] of state/v2.py, and
      util/iterutils.py.
    - StreamIds: storage/util/id_generators.py and sequence.py, the record [IdGen] for the
      attributes of a [MultiWriterIdGenerator], a definition per method, and one per stretch
      of a method under the lock where the lock is released in between; and the
      workers, their threads and the replication between them, as a step relation.
    - StreamTokens (Modules [Abstract], [Room], [MultiWriter], [Stream], [SlidingSync],
      [ThreadSubscriptions]): the token classes of types/__init__.py, and the table of worker
      numbers of storage/databases/main/stream.py.
    - StreamChangeCache: util/caches/stream_change_cache.py, the attributes of the class as a
      record and a definition per method.
    - LinkedList: util/linked_list.py, nodes in a store that refer to each other.  TreeCache:
      util/caches/treecache.py, and the class [CacheType] of what can back a cache, a tree or
      a dict, with the laws [CacheTypeLaws] that both keep.  LruCache:
      util/caches/lrucache.py, the entries and the caches of a [Process], a definition per
      function inside [LruCache.__init__], and the job that expires entries.
    - StateFilter: types/state.py.
    - Visibility: visibility.py, and the fetching of states of storage/controllers/state.py.
    - WheelTimer: util/wheel_timer.py.
    - PresenceState: api/presence.py and the functions of handlers/presence.py on one user's
      state; events/presence_router.py.  PresenceHandler: the writer's handler with its table.
      PresenceWorker: the other workers' handler, and what the writer does with their
      commands.  PresenceQueue: the queue for other servers, and the catch-up of
      replication/tcp/handler.py.  PresenceJoins: the writer's reaction to joins, and what a
      read of states returns.  PresenceEvents: the source of a client's presence.
      PresenceInvariant: the interleavings of the writer's methods, and of
      [set_presence_for_users] of module_api/__init__.py, which is in PresenceHandler.
    - ReplicationCommands: replication/tcp/commands.py, with the encoder of util/json.py.
    - SetkaChannels: the pure parts of handlers/setka_channels.py, the topic convention, the
      thread test, the send-level override, the posting rule.  SetkaDb: the SQL tables of the
      fork.  SetkaRegistry, SetkaFeed: the methods of handlers/setka_channels.py and
      handlers/setka_feed.py over these tables.
    - SetkaPlusPlans: the functions of handlers/setka_plus.py that clean untrusted values, and
      the plans.  SetkaPlusState: what the handler keeps.  SetkaPlusSubscription:
      subscriptions and payments, and the account data API (rest/client/account_data.py).
      SetkaPlusVouchers, SetkaPlusCheckout, SetkaPlusPayanyway, SetkaPlusStickers,
      SetkaPlusConfig: its methods by theme, the settings and the start of the handler in the
      last.
    - Samples, and the ends of StreamProgress, StreamTokensProps, LruCacheProps,
      SetkaFeedSafety, SetkaPlusProps and others: the values on which the theorems are
      applied.

    ** What the theorems show

    - EventAuthPowerSafety: the power-levels check gives no one a level above what the sender
      and the user already had, leaves peers alone, and does not depend on set order.
    - EventAuthMembershipSafety: the membership check is the set of rules the Matrix
      specification lists (an inductive relation), and what follows for bans, kicks and joins.
    - EventAuthSafety, EventAuthFrame: what an accepted event guarantees, the exact content
      of the state-independent rules and of the size limits, and that the verdict depends
      only on the auth events selected for the event.  EventAuthTotal: no rule runs out of
      fuel.
    - Redaction: pruning keeps exactly the protected fields of the room version, pruning
      twice is pruning once, and an event and its redacted form have the same signature
      subject.  RedactionAuth: redacting the state of a room changes no verdict of the auth
      rules, in the versions with the updated redaction rules.
    - StateV1Safety: the partition into agreed and conflicting keys, who wins a conflict,
      and that the result keeps what is agreed and contains nothing else than what it was
      given.
    - TopoSort: the sort terminates, permutes the nodes, respects the edges, and equals
      a greedy specification that does not mention dictionaries or heaps.
    - StateV2Safety, StateV2Chains, StateV2Mainline, StateV2Props: the same promises for
      version 2 and its parts: the partition, the auth chain difference, the power sort, the
      iterative checks and the mainline sort.  StateV2Total: on an acyclic auth graph the
      whole resolution has one result.
    - StreamSafety, StreamInvariant, StreamProps: however the workers' steps interleave, no
      position passes a write that is not over, and none moves back.  StreamProgress: the
      workers can always catch up.
    - StreamTokensOrder: tokens are ordered by the positions of all workers, and advancing one
      is the join of this order.  StreamTokensText: printing and reading a token are inverse.
      StreamTokensProps: a token a worker makes of its generator misses no write; what a
      client sends is a well-formed token or one error.
    - StreamChangeCache: the cache never says that an entity is unchanged when the history
      of the stream has a change of it, it lists the changed ones, and it keeps its bound.
      Marking all entities as changed at a position before recorded changes loses these; the
      theorems say from which position on the cache is right again.
    - LruEntries: the specification of a cache, [lru_step], in which a cache is a list of
      items, and what the stores of a process hold.  LruCacheProps: every request of a process
      is a step of the specification, a cache never gets larger than it may, and the job that
      expires entries takes out exactly those not used lately.  The length of the keys of a
      cache, and the caches whose index is used, are parameters: for the latter a value is
      only replaced by one with the same index key.
    - StateFilter: the difference of two filters is the least right one; filters are
      canonical; their lists of types read back; the bound on the entries they match.
    - VisibilityProps: the rules of history visibility as propositions; the filter for a
      client decides them, with one exception for erased senders, and the filter for many
      clients agrees with it.
    - WheelTimer: when an object of the timer comes back.  PresenceInvariant, PresenceProps,
      PresenceSaved: what holds of the writer in every interleaving, who goes offline and who
      does not (a user whom a module put online), and that a shutdown stores every state,
      given that no call raised after changing one.  PresenceQueueProps: a worker that
      catches up gets every row that is kept.  PresenceWorker: the writer knows which
      devices sync on a worker, as long as it does not take the worker for gone.  PresenceJoins, PresenceEvents: who is told what.
      ReplicationCommands: commands are read back as they were sent, or cannot be sent.
    - SetkaSafety, SetkaListing, SetkaFeedSafety: the invariant of the tables under every
      call, hidden channels, the pages of the directory and of the feed, the rebuild, likes
      and views.
    - SetkaPlusPlans: the plans are in shape whatever they are read from.  SetkaPlusFrame: what
      each method leaves alone.  SetkaPlusVoucherProps: every call is a sequence of steps of an
      abstract ledger of vouchers.  SetkaPlusProps: base64 and the tokens of links read back;
      the shape of a subscription, what an activation adds, what redeeming a
      voucher does, that unsigned reports give nothing where a signature is asked for, and
      what replayed reports and the account data API do give.

    ** Parameters

    Code outside the repository is a parameter: [Netaddr] (IP address parsing), [PyRepr]
    (Python's [str()] of floats and nested values), [CanonicalJson] (the size of an encoded
    event), [SignedJson] (signature verification), [SetOrder] (set iteration), [SortedInts]
    (the sorted collections of stream IDs), [SortedDicts] (sorted dictionaries), the encoder,
    hash and signing functions that Redaction's definitions take as arguments, [SqlEngine]
    and [PyRandom] (the database engine's operators and Python's shuffle).
    [StateResolutionStore], a protocol class of the source, is the database behind state
    resolution, [Homeserver] what the channels read of the rest of the server, [PresenceEnv]
    what presence reads of it, and [VisibilityEnv] what visibility does; [EventMetadata] and
    the last decision for a server are code of an extension module.  [JsonCodec] is the JSON
    encoder of the replication lines and of the tokens of sticker packs, [PlusEnv] the clock,
    the random numbers and the digests of Setka Plus, and [PyUnicode] Python's tables beyond
    ASCII, also for the searches of channels and posts.  [LruEnv] is the clock and the memory that the caches look at, [LruClock] says
    that the clock does not go back.  What a payment service answers is an argument, and so is the
    answer of the presence writer's HTTP endpoint.
    [StoreLaws], [StableStore], [SortedIntsLaws], [SortedDictsLaws], [JsonCodecLaws],
    [JsonText], [HmacDigest], [PlusClock] and [LruClock] state what the code relies on.

    ** Fuel

    [while] loops over graphs take fuel.  The theorems that need it say how much is enough:
    the lexicographic sort uses the number of nodes and needs no more; the mainline walks
    need more than the rank of the events they start from; the searches of the auth chain
    difference have a bound that exists for every acyclic graph.  Eviction takes one step per
    entry of the cache, and the job that expires entries one per list node.

    ** Not modelled

    The rest of the database layer, federation, replication's connections, the REST and
    HTTP servers, media, push, sync, registration, encryption keys, configuration,
    logging and metrics: they are input/output around the core.  Of the fork, the handlers of
    login codes, privacy, bots, profiles and analytics are not modelled, nor, of the
    channels, the statements that create their tables and the analytics record.  The calls of
    Setka Plus run one after another; the text of the XML requests to PayAnyWay, the
    parsing of its answers, and the paths of the files are left out, and a float is a
    double without the sign of zero.  Of presence, the
    metrics, the linearizer and the flag that keeps [notify_new_event] from running twice at a
    time are left out.  Of the caches, the metrics, the tracking of memory and callbacks that
    call back into a cache are left out; eviction because of memory and the pauses of the job
    that expires entries are defined, but the theorem about the job is for expiry by time,
    with no request during a pause.  Within the modelled functions, logging and the pauses that yield to
    the reactor are left out. *)
From stdpp Require Export base tactics option list numbers strings gmap.
From Stdlib Require Export ZArith Lia.
From Stdlib Require Import Ascii.

(** ** Python exceptions *)

(** The exceptions the modelled code raises.  [AuthError] and
    [UnstableSpecAuthError] are subclasses of [SynapseError], and
    [UnstableSpecAuthError] of [AuthError] (api/errors.py); the message is the
    constant template of the source, before [%] or f-string substitution. *)
Inductive exc :=
  | AuthError (code : Z) (msg : string)
  | UnstableSpecAuthError (code : Z) (msg : string) (errcode : string)
  | EventSizeError (msg : string) (unpersistable : bool)
  | SynapseError (code : Z) (msg : string) (errcode : string)
  | KeyError
  | IndexError
  | AttributeError
  | TypeError
  | ValueError
  | OverflowError
  | AssertionError
  | SignatureVerifyException
  | RuntimeError (msg : string)
  | StopIteration
  | UnboundLocalError
  | NameError
  | PyException (msg : string)
  | OutOfFuel.

#[global] Instance exc_eq_dec : EqDecision exc.
Proof. solve_decision. Defined.

(** [isinstance(e, AuthError)]: what an [except AuthError] clause catches. *)
Definition is_auth_error (e : exc) : bool :=
  match e with AuthError _ _ | UnstableSpecAuthError _ _ _ => true | _ => false end.

(** ** The error monad *)

Inductive result (A : Type) :=
  | Ok (a : A)
  | Err (e : exc).
Arguments Ok {A} a.
Arguments Err {A} e.

#[global] Instance result_eq_dec `{EqDecision A} : EqDecision (result A).
Proof. solve_decision. Defined.

Definition rbind {A B} (c : result A) (k : A -> result B) : result B :=
  match c with Ok a => k a | Err e => Err e end.

Declare Scope py_scope.
Delimit Scope py_scope with py.

Notation "'let*' x ':=' c 'in' k" := (rbind c (fun x => k))
  (at level 10, x pattern, c at level 200, k at level 200) : py_scope.
Notation "c ';;;' k" := (rbind c (fun _ => k))
  (at level 100, k at level 200, right associativity) : py_scope.
Notation "'raise_if' b 'with' e" := (if b then Err e else Ok tt)
  (at level 99, b at level 99, e at level 99) : py_scope.

Open Scope py_scope.

Definition is_ok {A} (r : result A) : bool :=
  match r with Ok _ => true | Err _ => false end.

Fixpoint rmap {A B} (f : A -> result B) (l : list A) : result (list B) :=
  match l with
  | [] => Ok []
  | x :: l => let* y := f x in let* ys := rmap f l in Ok (y :: ys)
  end.

(** A Python [for] loop whose body can raise: the state is threaded. *)
Fixpoint rfold {A S} (f : S -> A -> result S) (s : S) (l : list A) : result S :=
  match l with
  | [] => Ok s
  | x :: l => let* s' := f s x in rfold f s' l
  end.

(** A Python [for] loop that only checks. *)
Fixpoint rforall {A} (f : A -> result unit) (l : list A) : result unit :=
  match l with
  | [] => Ok tt
  | x :: l => f x ;;; rforall f l
  end.

(** [any(...)] and [all(...)] over a generator whose test can raise: they stop at the
    first decisive element. *)
Fixpoint rexists {A} (f : A -> result bool) (l : list A) : result bool :=
  match l with
  | [] => Ok false
  | x :: l => let* b := f x in if b then Ok true else rexists f l
  end.

(** ** Inversion of monadic computations *)

Create HintDb py discriminated.

Lemma rbind_ok {A B} (c : result A) (k : A -> result B) b :
  rbind c k = Ok b <-> exists a, c = Ok a /\ k a = Ok b.
Proof.
  destruct c; simpl; naive_solver.
Qed.

Lemma rbind_err {A B} (c : result A) (k : A -> result B) e :
  rbind c k = Err e <-> c = Err e \/ exists a, c = Ok a /\ k a = Err e.
Proof.
  destruct c; simpl; naive_solver.
Qed.

Lemma raise_if_ok (b : bool) e : (raise_if b with e) = Ok tt <-> b = false.
Proof. by destruct b. Qed.

Lemma rbind_assoc {A B C} (c : result A) (f : A -> result B) (g : B -> result C) :
  rbind (rbind c f) g = rbind c (fun a => rbind (f a) g).
Proof. by destruct c. Qed.

Lemma rbind_ext {A B} (c : result A) (f g : A -> result B) :
  (forall a, c = Ok a -> f a = g a) -> rbind c f = rbind c g.
Proof. intros H. destruct c; simpl; auto. Qed.

Lemma is_ok_spec {A} (r : result A) : is_ok r = true <-> exists a, r = Ok a.
Proof. destruct r; simpl; naive_solver. Qed.

Lemma Ok_inj {A} (a b : A) : Ok a = Ok b -> a = b.
Proof. by intros [= ->]. Qed.

(** [ok_inv]: turn every hypothesis "this computation returned" into the facts that
    its steps returned. *)
Ltac ok_inv :=
  repeat match goal with
  | H : rbind _ _ = Ok _ |- _ =>
      let a := fresh "v" in let H1 := fresh H in
      apply rbind_ok in H as (a & H1 & H)
  | H : Ok _ = Ok _ |- _ => apply Ok_inj in H; try subst
  | H : Err _ = Ok _ |- _ => discriminate H
  | H : Ok _ = Err _ |- _ => discriminate H
  | H : (raise_if ?b with _) = Ok ?u |- _ =>
      destruct b eqn:?; [discriminate H | clear H]; try clear u
  end.

(** [split_if]: case analysis on the conditionals of the goal or of a hypothesis, in the
    order the program evaluates them. *)
Ltac split_if_in H :=
  repeat match type of H with
  | (if ?b then _ else _) = _ => let E := fresh "Hb" in destruct b eqn:E
  | match ?b with _ => _ end = _ => let E := fresh "Hm" in destruct b eqn:E
  end.

(** Boolean tests to propositions. *)
Ltac boolify :=
  repeat match goal with
  | H : context [bool_decide _ = true] |- _ => rewrite bool_decide_eq_true in H
  | H : context [bool_decide _ = false] |- _ => rewrite bool_decide_eq_false in H
  | H : context [negb _ = true] |- _ => rewrite negb_true_iff in H
  | H : context [negb _ = false] |- _ => rewrite negb_false_iff in H
  | H : context [andb _ _ = true] |- _ => rewrite andb_true_iff in H
  | H : context [orb _ _ = true] |- _ => rewrite orb_true_iff in H
  | H : context [orb _ _ = false] |- _ => rewrite orb_false_iff in H
  | H : context [andb _ _ = false] |- _ => rewrite andb_false_iff in H
  | H : context [Z.ltb _ _ = true] |- _ => rewrite Z.ltb_lt in H
  | H : context [Z.ltb _ _ = false] |- _ => rewrite Z.ltb_ge in H
  | H : context [Z.leb _ _ = true] |- _ => rewrite Z.leb_le in H
  | H : context [Z.leb _ _ = false] |- _ => rewrite Z.leb_gt in H
  | H : context [Z.eqb _ _ = true] |- _ => rewrite Z.eqb_eq in H
  | H : context [Z.eqb _ _ = false] |- _ => rewrite Z.eqb_neq in H
  end.

(** ** Loops *)

Lemma rforall_ok {A} (f : A -> result unit) l :
  rforall f l = Ok tt <-> Forall (fun x => f x = Ok tt) l.
Proof.
  induction l as [|x l IH]; simpl; [by split; constructor|].
  rewrite rbind_ok, Forall_cons, <- IH. split.
  - intros ([] & ? & ?); done.
  - intros [? ?]; by exists tt.
Qed.

Lemma rmap_ok {A B} (f : A -> result B) l ys :
  rmap f l = Ok ys <-> Forall2 (fun x y => f x = Ok y) l ys.
Proof.
  revert ys. induction l as [|x l IH]; intros ys; simpl.
  - split; [intros; ok_inv; constructor | by inversion 1].
  - split.
    + intros; ok_inv. constructor; [done|]. by apply IH.
    + inversion 1 as [|? y ? ys' Hx Hl]; subst. rewrite Hx; simpl.
      apply IH in Hl. by rewrite Hl.
Qed.

Lemma rfold_app {A S} (f : S -> A -> result S) s l1 l2 :
  rfold f s (l1 ++ l2) = let* s' := rfold f s l1 in rfold f s' l2.
Proof.
  revert s; induction l1 as [|x l1 IH]; intros s; simpl; [done|].
  rewrite rbind_assoc. apply rbind_ext; intros; apply IH.
Qed.

(** The loop invariant rule. *)
Lemma rfold_inv {A S} (P : S -> Prop) (f : S -> A -> result S) l s s' :
  (forall s x s1, x ∈ l -> P s -> f s x = Ok s1 -> P s1) ->
  P s -> rfold f s l = Ok s' -> P s'.
Proof.
  revert s; induction l as [|x l IH]; simpl; intros s Hf Hs H; ok_inv; [done|].
  eapply IH; [|by eapply Hf; [left|..] |done].
  intros; eapply Hf; [by right|..]; eauto.
Qed.

#[export] Hint Resolve rbind_assoc : py.

(** [o is not None] *)
Definition is_Some_b {A} (o : option A) : bool := match o with Some _ => true | None => false end.

(** ** Membership in the Standard Library's lists *)

Lemma in_map_b {A B} (f : A -> B) l y : y ∈ map f l <-> exists x, y = f x /\ x ∈ l.
Proof. apply list_elem_of_fmap. Qed.

Lemma in_filter_b {A} (p : A -> bool) l x : x ∈ List.filter p l <-> x ∈ l /\ p x = true.
Proof. rewrite !list_elem_of_In. apply filter_In. Qed.

Lemma in_flat_map_b {A B} (f : A -> list B) l y : y ∈ flat_map f l <-> exists x, x ∈ l /\ y ∈ f x.
Proof.
  rewrite list_elem_of_In, in_flat_map. split; intros (x & ? & ?); exists x; by rewrite ?list_elem_of_In in *.
Qed.

(** The iteration order of a set with the given elements. *)
Class SetOrder := {
  set_iter : forall {A}, list A -> list A;
  set_iter_perm : forall {A} (l : list A), set_iter l ≡ₚ l
}.
