(* ===== verification/PyVal.v ===== *)
(** * PyVal: the Python values the code computes with

    JSON values as [json.loads] produces them, and the operations of the language the
    modelled code applies to them: [==], truth value, [int(x)], [x in c], [c\[k\]],
    [c.get(k, d)], [list(x)], [set(x)], each with the exception it raises on a value of the
    wrong type.  Strings are [String.string] holding UTF-8; [utf8_len] is [len(s)]
    (codepoints) and [str_len] is [len(s.encode("utf-8"))]. *)
From S2P Require Import Prelude.
From Stdlib Require Import Ascii String.
Open Scope string_scope.
Open Scope list_scope.
Open Scope Z_scope.
Open Scope py_scope.

(** ** Strings *)

Definition str_len (s : string) : Z := Z.of_nat (String.length s).

(** A byte that starts a codepoint (not of the form 10xxxxxx). *)
Definition utf8_lead (a : ascii) : bool :=
  negb (Z.of_N (N_of_ascii a) / 64 =? 2).

Fixpoint utf8_len (s : string) : Z :=
  match s with
  | EmptyString => 0
  | String a s => (if utf8_lead a then 1 else 0) + utf8_len s
  end.

(** [s.startswith(p)] *)
Fixpoint startswith (p s : string) : bool :=
  match p, s with
  | EmptyString, _ => true
  | String a p, String b s => if Ascii.eqb a b then startswith p s else false
  | _, EmptyString => false
  end.

(** [s.split(c, 1)] when [c] occurs in [s]: the parts around its first occurrence. *)
Fixpoint split_once (c : ascii) (s : string) : option (string * string) :=
  match s with
  | EmptyString => None
  | String a s =>
      if Ascii.eqb a c then Some ("", s)
      else match split_once c s with
           | Some (l, r) => Some (String a l, r)
           | None => None
           end
  end.

(** [s.rsplit(c, 1)] when [c] occurs in [s]: the parts around its last occurrence. *)
Fixpoint rsplit_once (c : ascii) (s : string) : option (string * string) :=
  match s with
  | EmptyString => None
  | String a s =>
      match rsplit_once c s with
      | Some (l, r) => Some (String a l, r)
      | None => if Ascii.eqb a c then Some ("", s) else None
      end
  end.

(** [s.split(c)]: all the parts between occurrences of [c]. *)
Fixpoint split_all (c : ascii) (s : string) : list string :=
  match s with
  | EmptyString => [""]
  | String a s =>
      if Ascii.eqb a c then "" :: split_all c s
      else match split_all c s with
           | p :: ps => String a p :: ps
           | [] => [String a ""]
           end
  end.

(** [c.join(l)] *)
Fixpoint str_join (c : string) (l : list string) : string :=
  match l with
  | [] => ""
  | [s] => s
  | s :: l => (s ++ c ++ str_join c l)%string
  end.

Fixpoint str_all (p : ascii -> bool) (s : string) : bool :=
  match s with EmptyString => true | String a s => p a && str_all p s end.

(** [s\[-1\]] *)
Fixpoint str_last (s : string) : option ascii :=
  match s with
  | EmptyString => None
  | String a EmptyString => Some a
  | String _ s => str_last s
  end.

(** [s\[:-1\]] *)
Fixpoint str_droplast (s : string) : string :=
  match s with
  | EmptyString => ""
  | String _ EmptyString => ""
  | String a s => String a (str_droplast s)
  end.

(** [s\[1:\]] when the first character is one byte *)
Definition str_tail (s : string) : string :=
  match s with EmptyString => "" | String _ s => s end.

Definition str_head (s : string) : option ascii :=
  match s with EmptyString => None | String a _ => Some a end.

Definition chr_code (a : ascii) : Z := Z.of_N (N_of_ascii a).
Definition is_digit (a : ascii) : bool := (48 <=? chr_code a) && (chr_code a <=? 57).
Definition is_upper (a : ascii) : bool := (65 <=? chr_code a) && (chr_code a <=? 90).
Definition is_lower (a : ascii) : bool := (97 <=? chr_code a) && (chr_code a <=? 122).
Definition is_alnum (a : ascii) : bool := is_digit a || is_upper a || is_lower a.

(** ASCII whitespace of [str.strip] and [int]: \t \n \v \f \r, 0x1c-0x1f and space. *)
Definition is_space (a : ascii) : bool :=
  ((9 <=? chr_code a) && (chr_code a <=? 13)) || ((28 <=? chr_code a) && (chr_code a <=? 32)).

(** The whitespace codepoints outside ASCII, as their two or three UTF-8 bytes: U+0085,
    U+00A0; U+1680, U+2000-200A, U+2028, U+2029, U+202F, U+205F, U+3000. *)
Definition is_space2 (a b : ascii) : bool :=
  (chr_code a =? 194) && ((chr_code b =? 133) || (chr_code b =? 160)).
Definition is_space3 (a b c : ascii) : bool :=
  let a := chr_code a in let b := chr_code b in let c := chr_code c in
  ((a =? 225) && (b =? 154) && (c =? 128))
  || ((a =? 226) && (b =? 128) && (((128 <=? c) && (c <=? 138)) || (c =? 168) || (c =? 169) || (c =? 175)))
  || ((a =? 226) && (b =? 129) && (c =? 159))
  || ((a =? 227) && (b =? 128) && (c =? 128)).

Fixpoint str_rev_app (s acc : string) : string :=
  match s with EmptyString => acc | String a s => str_rev_app s (String a acc) end.
Definition str_rev (s : string) : string := str_rev_app s "".

(** Drop leading whitespace; [back] says that [s] is a reversed string. *)
Fixpoint lstrip_aux (back : bool) (s : string) : string :=
  match s with
  | EmptyString => ""
  | String a s1 =>
      if is_space a then lstrip_aux back s1
      else match s1 with
      | EmptyString => s
      | String b s2 =>
          if (if back then is_space2 b a else is_space2 a b) then lstrip_aux back s2
          else match s2 with
          | EmptyString => s
          | String c s3 =>
              if (if back then is_space3 c b a else is_space3 a b c) then lstrip_aux back s3 else s
          end
      end
  end.

(** [s.strip()] *)
Definition strip (s : string) : string :=
  str_rev (lstrip_aux true (str_rev (lstrip_aux false s))).

Definition ascii_lower (a : ascii) : ascii :=
  if is_upper a then ascii_of_N (N_of_ascii a + 32) else a.

(** [s.lower()], on the ASCII letters and on the Kelvin sign U+212A (E2 84 AA), the only
    other codepoint whose lower case is a single ASCII letter. *)
Fixpoint lower (s : string) : string :=
  match s with
  | EmptyString => ""
  | String "226" (String "132" (String "170" s)) => String "k" (lower s)
  | String a s => String (ascii_lower a) (lower s)
  end.

Definition ascii_upper (a : ascii) : ascii :=
  if is_lower a then ascii_of_N (N_of_ascii a - 32) else a.

(** [str.upper] of ASCII text *)
Fixpoint upper (s : string) : string :=
  match s with EmptyString => "" | String a s => String (ascii_upper a) (upper s) end.

(** Python's Unicode tables, which are only known on ASCII text: [str.lower], [str.upper] and
    [str.isalnum], which is asked about one character at a time.  [lower] above stands for
    [py_lower] where the result is only compared with ASCII text. *)
Class PyUnicode := {
  py_lower : string -> string;
  py_upper : string -> string;
  py_isalnum : string -> bool;
  py_lower_ascii s : str_all (fun a => chr_code a <? 128) s = true -> py_lower s = lower s;
  py_upper_ascii s : str_all (fun a => chr_code a <? 128) s = true -> py_upper s = upper s;
  py_isalnum_ascii a : chr_code a < 128 -> py_isalnum (String a "") = is_alnum a
}.

(** Unicode where all text is ASCII. *)
Definition ascii_unicode : PyUnicode.
Proof.
  refine {| py_lower := lower; py_upper := upper;
            py_isalnum s := match s with String a "" => is_alnum a | _ => false end |}; done.
Defined.

(** ** Decimal numerals: [int(s)] and [str(n)] *)

(** Digits of [int(s)] after the first one: single underscores may separate digits. *)
Fixpoint parse_digits (acc : Z) (s : string) : option Z :=
  match s with
  | EmptyString => Some acc
  | String a s' =>
      if is_digit a then parse_digits (10 * acc + (chr_code a - 48)) s'
      else if Ascii.eqb a "_" then
        match s' with
        | String b s'' =>
            if is_digit b then parse_digits (10 * acc + (chr_code b - 48)) s'' else None
        | EmptyString => None
        end
      else None
  end.

Definition parse_nat (s : string) : option Z :=
  match s with
  | String a s' => if is_digit a then parse_digits (chr_code a - 48) s' else None
  | EmptyString => None
  end.

(** [int(s)] for a string: surrounding whitespace, an optional sign, ASCII decimal digits.
    Python also reads the decimal digits of other scripts, and refuses numerals of more than
    4300 digits; neither is modelled. *)
Definition int_of_str (s : string) : result Z :=
  let s := strip s in
  match
    match s with
    | String "-" s' => match parse_nat s' with Some n => Some (- n) | None => None end
    | String "+" s' => parse_nat s'
    | _ => parse_nat s
    end
  with
  | Some n => Ok n
  | None => Err ValueError
  end.

(** The decimal digits of a positive number, most significant first; the fuel is the
    number of binary digits. *)
Fixpoint digits_aux (fuel : nat) (n : Z) (acc : string) : string :=
  match fuel with
  | O => acc
  | S fuel =>
      let acc := String (ascii_of_N (Z.to_N (48 + n mod 10))) acc in
      if n / 10 =? 0 then acc else digits_aux fuel (n / 10) acc
  end.

(** [str(n)] for an int *)
Definition str_of_int (n : Z) : string :=
  let d m := digits_aux (S (Z.to_nat (Z.log2 m))) m "" in
  if n <? 0 then String "-" (d (- n)) else d n.

(** ** JSON values *)

(** A float is [m * 2^e], an infinity or a NaN. *)
Inductive pyfloat := FFin (m e : Z) | FInf (neg : bool) | FNaN.

Inductive json :=
  | JNull
  | JBool (b : bool)
  | JInt (n : Z)
  | JFloat (f : pyfloat)
  | JStr (s : string)
  | JList (l : list json)
  | JObj (kvs : list (string * json)).

(** A JSON object: its items in order, without duplicate keys. *)
Abbreviation obj := (list (string * json)).

(** ** Dictionaries: insertion-ordered, unique keys *)

Section dict.
Context {K V : Type} `{EqDecision K}.

(** [d.get(k)] *)
Fixpoint dget (k : K) (d : list (K * V)) : option V :=
  match d with
  | [] => None
  | (k', v) :: d => if decide (k = k') then Some v else dget k d
  end.

(** [d\[k\] = v]: in place when the key is present, else at the end. *)
Fixpoint dset (k : K) (v : V) (d : list (K * V)) : list (K * V) :=
  match d with
  | [] => [(k, v)]
  | (k', v') :: d => if decide (k = k') then (k', v) :: d else (k', v') :: dset k v d
  end.

(** [d.pop(k, None)] *)
Definition ddel (k : K) (d : list (K * V)) : list (K * V) :=
  filter (fun p => p.1 <> k) d.

(** [d.update(d')] *)
Definition dupdate (d d' : list (K * V)) : list (K * V) :=
  fold_left (fun d p => dset p.1 p.2 d) d' d.

(** [k in d] *)
Definition dmem (k : K) (d : list (K * V)) : bool :=
  match dget k d with Some _ => true | None => false end.

Definition dkeys (d : list (K * V)) : list K := map fst d.
Definition dvals (d : list (K * V)) : list V := map snd d.
End dict.

(** Every key occurs once. *)
Definition dict_wf {K V} (d : list (K * V)) : Prop := NoDup (map fst d).

Section dict_lemmas.
Context {K V : Type} `{EqDecision K}.
Implicit Types d : list (K * V).

Lemma dget_dset k k' v d :
  dget k (dset k' v d) = if decide (k = k') then Some v else dget k d.
Proof.
  induction d as [|[k2 v2] d IH]; simpl; repeat (case_decide; simplify_eq/=); auto.
Qed.

Lemma dget_dset_eq k v d : dget k (dset k v d) = Some v.
Proof. rewrite dget_dset. by rewrite decide_True. Qed.

Lemma dget_dset_ne k k' v d : k <> k' -> dget k (dset k' v d) = dget k d.
Proof. intros. rewrite dget_dset. by rewrite decide_False. Qed.

Lemma dget_ddel k k' d : dget k (ddel k' d) = if decide (k = k') then None else dget k d.
Proof.
  unfold ddel. induction d as [|[k2 v2] d IH]; simpl; [by case_decide|].
  rewrite filter_cons; simpl. repeat (case_decide; simplify_eq/=); auto.
Qed.

Lemma dget_in k v d : dget k d = Some v -> (k, v) ∈ d.
Proof.
  induction d as [|[k2 v2] d IH]; simpl; [done|].
  case_decide; [intros [= <-]; subst; by left | intros; right; auto].
Qed.

Lemma dget_none k d : dget k d = None <-> k ∉ map fst d.
Proof.
  induction d as [|[k2 v2] d IH]; simpl; [split; [intros _ []%elem_of_nil | done]|].
  rewrite not_elem_of_cons. case_decide; [naive_solver|]. rewrite IH. naive_solver.
Qed.

Lemma dget_some_iff k v d : dict_wf d -> dget k d = Some v <-> (k, v) ∈ d.
Proof.
  intros Hwf. split; [apply dget_in|].
  induction d as [|[k2 v2] d IH]; simpl; [by intros ?%elem_of_nil|].
  inversion Hwf as [|? ? Hn Hd]; subst. intros [[= -> ->]|Hin]%elem_of_cons.
  - by rewrite decide_True.
  - rewrite decide_False; [by apply IH|]. intros ->. apply Hn.
    apply list_elem_of_fmap. by exists (k2, v).
Qed.

Lemma dmem_true k d : dmem k d = true <-> k ∈ map fst d.
Proof.
  unfold dmem. destruct (dget k d) eqn:E.
  - apply dget_in in E. split; [intros _|done]. apply list_elem_of_fmap. by exists (k, v).
  - apply dget_none in E. naive_solver.
Qed.

Lemma dkeys_dset_in k v d : k ∈ map fst d -> map fst (dset k v d) = map fst d.
Proof.
  induction d as [|[k2 v2] d IH]; simpl; [by intros ?%elem_of_nil|].
  intros Hin. case_decide; subst; simpl; [done|]. f_equal. apply IH.
  by apply elem_of_cons in Hin as [?|?].
Qed.

Lemma dkeys_dset_notin k v d : k ∉ map fst d -> map fst (dset k v d) = map fst d ++ [k].
Proof.
  induction d as [|[k2 v2] d IH]; simpl; [done|]. rewrite not_elem_of_cons. intros [? ?].
  case_decide; [done|]. simpl. f_equal. by apply IH.
Qed.

Lemma dset_notin k v d : k ∉ map fst d -> dset k v d = d ++ [(k, v)].
Proof.
  induction d as [|[k2 v2] d IH]; simpl; [done|]. rewrite not_elem_of_cons. intros [? ?].
  case_decide; [done|]. by rewrite IH.
Qed.

Lemma dset_wf k v d : dict_wf d -> dict_wf (dset k v d).
Proof.
  unfold dict_wf. intros Hwf. destruct (decide (k ∈ map fst d)).
  - by rewrite dkeys_dset_in.
  - rewrite dkeys_dset_notin by done.
    apply NoDup_app. repeat split; [done| |apply NoDup_singleton].
    intros x Hx ->%list_elem_of_singleton. done.
Qed.

Lemma ddel_wf k d : dict_wf d -> dict_wf (ddel k d).
Proof.
  unfold dict_wf, ddel. induction d as [|[k2 v2] d IH]; simpl; [done|].
  rewrite NoDup_cons. intros [Hn Hd]. rewrite filter_cons. case_decide; simpl; [|auto].
  apply NoDup_cons; split; [|auto]. intros Hin. apply Hn.
  apply list_elem_of_fmap in Hin as ([k3 v3] & -> & Hf).
  apply list_elem_of_filter in Hf as [_ Hf]. apply list_elem_of_fmap. by exists (k3, v3).
Qed.

Lemma dget_dupdate k d d' :
  dict_wf d' ->
  dget k (dupdate d d') = match dget k d' with Some v => Some v | None => dget k d end.
Proof.
  unfold dupdate. revert d. induction d' as [|[k2 v2] d' IH]; intros d Hwf; simpl; [done|].
  inversion Hwf as [|? ? Hn Hd]; subst. rewrite IH by done. rewrite dget_dset.
  case_decide; subst; [|done]. apply dget_none in Hn. by rewrite Hn.
Qed.

Lemma dupdate_wf d d' : dict_wf d -> dict_wf (dupdate d d').
Proof.
  unfold dupdate. revert d. induction d' as [|[k2 v2] d' IH]; intros d Hwf; simpl; [done|].
  apply IH. by apply dset_wf.
Qed.

Lemma dict_wf_nil : dict_wf (@nil (K * V)).
Proof. constructor. Qed.
End dict_lemmas.

#[export] Hint Resolve dset_wf ddel_wf dupdate_wf dict_wf_nil : py.

(** ** Operations on values *)

(** The numeric value of an int, a bool or a finite float, as [m * 2^e]. *)
Definition num_of (j : json) : option (Z * Z) :=
  match j with
  | JBool b => Some (if b then 1 else 0, 0)
  | JInt n => Some (n, 0)
  | JFloat (FFin m e) => Some (m, e)
  | _ => None
  end.

Definition num_eqb (x y : Z * Z) : bool :=
  if x.2 <=? y.2 then x.1 =? y.1 * 2 ^ (y.2 - x.2) else x.1 * 2 ^ (x.2 - y.2) =? y.1.

(** [a == b] *)
Fixpoint py_eqb (a b : json) {struct a} : bool :=
  match a, b with
  | JNull, JNull => true
  | JStr s, JStr t => bool_decide (s = t)
  | JList l, JList m =>
      (fix go (l m : list json) : bool :=
         match l, m with
         | [], [] => true
         | x :: l, y :: m => py_eqb x y && go l m
         | _, _ => false
         end) l m
  | JObj k1, JObj k2 =>
      Nat.eqb (Datatypes.length k1) (Datatypes.length k2) &&
      (fix go (l : obj) : bool :=
         match l with
         | [] => true
         | (k, v) :: l => match dget k k2 with Some w => py_eqb v w | None => false end && go l
         end) k1
  | JFloat (FInf s), JFloat (FInf t) => Bool.eqb s t
  | _, _ =>
      match num_of a, num_of b with Some x, Some y => num_eqb x y | _, _ => false end
  end.

(** [j == s] for a string constant [s] *)
Definition jeqs (j : json) (s : string) : bool :=
  match j with JStr t => bool_decide (t = s) | _ => false end.

(** [bool(j)] *)
Definition truthy (j : json) : bool :=
  match j with
  | JNull => false
  | JBool b => b
  | JInt n => negb (n =? 0)
  | JFloat (FFin m _) => negb (m =? 0)
  | JFloat _ => true
  | JStr s => negb (String.eqb s "")
  | JList l => match l with [] => false | _ => true end
  | JObj l => match l with [] => false | _ => true end
  end.

(** [j is None] *)
Definition is_none (j : json) : bool := match j with JNull => true | _ => false end.

(** [int(j)] *)
Definition py_int (j : json) : result Z :=
  match j with
  | JBool b => Ok (if b then 1 else 0)
  | JInt n => Ok n
  | JFloat (FFin m e) => Ok (if 0 <=? e then m * 2 ^ e else Z.quot m (2 ^ (- e)))
  | JFloat (FInf _) => Err OverflowError
  | JFloat FNaN => Err ValueError
  | JStr s => int_of_str s
  | JNull | JList _ | JObj _ => Err TypeError
  end.

(** Only lists and dictionaries are unhashable. *)
Definition hashable (j : json) : bool :=
  match j with JList _ | JObj _ => false | _ => true end.

(** The characters of a string, as one-codepoint strings. *)
Fixpoint utf8_chars (s : string) : list string :=
  match s with
  | EmptyString => []
  | String a s' =>
      let cs := utf8_chars s' in
      let glue := match str_head s' with Some b => negb (utf8_lead b) | None => false end in
      match cs with
      | c :: cs' => if glue then String a c :: cs' else String a "" :: cs
      | [] => [String a ""]
      end
  end.

(** [list(j)] *)
Definition py_list (j : json) : result (list json) :=
  match j with
  | JList l => Ok l
  | JObj kvs => Ok (map (fun p => JStr p.1) kvs)
  | JStr s => Ok (map JStr (utf8_chars s))
  | _ => Err TypeError
  end.

(** Remove duplicates, by [==], keeping the first occurrence. *)
Fixpoint dedup (l : list json) : list json :=
  match l with
  | [] => []
  | x :: l => x :: filter (fun y => py_eqb x y = false) (dedup l)
  end.

(** [set(l)] of a list of values *)
Definition py_set (l : list json) : result (list json) :=
  if forallb hashable l then Ok (dedup l) else Err TypeError.

Fixpoint has_substring (p s : string) : bool :=
  startswith p s || match s with EmptyString => false | String _ s => has_substring p s end.

(** [k in c] *)
Definition py_in (k c : json) : result bool :=
  match c with
  | JObj kvs =>
      if hashable k then Ok (match k with JStr s => dmem s kvs | _ => false end)
      else Err TypeError
  | JList l => Ok (existsb (py_eqb k) l)
  | JStr s => match k with JStr p => Ok (has_substring p s) | _ => Err TypeError end
  | _ => Err TypeError
  end.

(** [l\[i\]] for a list or a string's characters *)
Definition py_index {A} (l : list A) (i : Z) : result A :=
  let n := Z.of_nat (Datatypes.length l) in
  let i := if i <? 0 then i + n else i in
  if (0 <=? i) && (i <? n) then
    match l !! Z.to_nat i with Some x => Ok x | None => Err IndexError end
  else Err IndexError.

(** [c\[k\]] *)
Definition py_getitem (c k : json) : result json :=
  match c with
  | JObj kvs =>
      if hashable k then
        match k with
        | JStr s => match dget s kvs with Some v => Ok v | None => Err KeyError end
        | _ => Err KeyError
        end
      else Err TypeError
  | JList l =>
      match k with
      | JInt i => py_index l i
      | JBool b => py_index l (if b then 1 else 0)
      | _ => Err TypeError
      end
  | JStr s =>
      match k with
      | JInt i => let* c := py_index (utf8_chars s) i in Ok (JStr c)
      | JBool b => let* c := py_index (utf8_chars s) (if b then 1 else 0) in Ok (JStr c)
      | _ => Err TypeError
      end
  | _ => Err TypeError
  end.

(** [isinstance(j, collections.abc.Mapping)] *)
Definition as_mapping (j : json) : option obj :=
  match j with JObj kvs => Some kvs | _ => None end.

(** [o.get(k, d)] on a dictionary *)
Definition oget (o : obj) (k : string) (d : json) : json :=
  match dget k o with Some v => v | None => d end.

(** [o\[k\]] on a dictionary *)
Definition ogetitem (o : obj) (k : string) : result json :=
  match dget k o with Some v => Ok v | None => Err KeyError end.

(** [j.get(k, d)] and [j.items()] on any value *)
Definition jget (j : json) (k : string) (d : json) : result json :=
  match j with JObj kvs => Ok (oget kvs k d) | _ => Err AttributeError end.
Definition jitems (j : json) : result obj :=
  match j with JObj kvs => Ok kvs | _ => Err AttributeError end.

(** A string method called on [j] (AttributeError on anything else). *)
Definition jstr_attr (j : json) : result string :=
  match j with JStr s => Ok s | _ => Err AttributeError end.

(** ** Examples *)

Example int_of_str_ex : map int_of_str ["50"; " -7 "; "+1_000"; "1__0"; "_1"; "5a"; ""] =
  [Ok 50; Ok (-7); Ok 1000; Err ValueError; Err ValueError; Err ValueError; Err ValueError].
Proof. vm_compute. reflexivity. Qed.

Example str_of_int_ex : map str_of_int [0; 7; 10; -305; 123456] = ["0"; "7"; "10"; "-305"; "123456"].
Proof. vm_compute. reflexivity. Qed.

Example strip_lower_ex : lower (strip "  Set-KA ") = "set-ka".
Proof. vm_compute. reflexivity. Qed.

Example py_eqb_ex :
  py_eqb (JList [JInt 1; JBool false]) (JList [JFloat (FFin 2 (-1)); JInt 0]) = true.
Proof. vm_compute. reflexivity. Qed.

Example py_in_list_ex : py_in (JStr "b") (JStr "abc") = Ok true.
Proof. vm_compute. reflexivity. Qed.

Example py_int_float_ex : py_int (JFloat (FFin (-15) (-2))) = Ok (-3).
Proof. vm_compute. reflexivity. Qed.

(** ** [str(x)] *)

(** The [repr] of a value that is not a string (Python's rendering of numbers and
    containers, which no modelled code inspects beyond its first characters). *)
Class PyRepr := py_repr : json -> string.

Definition py_str `{PyRepr} (j : json) : string :=
  match j with JStr s => s | _ => py_repr j end.

(** [a or b] *)
Definition py_or (a b : json) : json := if truthy a then a else b.

(** [s\[n:\]], in codepoints *)
Definition utf8_drop (n : nat) (s : string) : string := str_join "" (drop n (utf8_chars s)).
