(* ===== verification/PySort.v ===== *)
(** * PySort: Python's ordering and [sorted]

    [PyOrd] is the interface of an ordered type: a boolean [<=] that is a total order.
    Integers, strings (by codepoint, which for UTF-8 is by byte) and tuples (lexicographic)
    implement it.  [sorted_by key l] is [sorted(l, key=key)]: stable, so that elements with
    equal keys keep their order. *)
From S2P Require Import Prelude PyVal.
From Stdlib Require Import Ascii String.
From Stdlib Require Export Sorted.
Open Scope string_scope.
Open Scope list_scope.
Open Scope Z_scope.

(** ** Ordered types *)

Class PyOrd (K : Type) := {
  py_leb : K -> K -> bool;
  py_leb_total : forall a b, py_leb a b = true \/ py_leb b a = true;
  py_leb_trans : forall a b c, py_leb a b = true -> py_leb b c = true -> py_leb a c = true;
  py_leb_antisym : forall a b, py_leb a b = true -> py_leb b a = true -> a = b
}.

Lemma py_leb_refl `{PyOrd K} a : py_leb a a = true.
Proof. by destruct (py_leb_total a a). Qed.

#[refine, export] Instance Z_ord : PyOrd Z := {| py_leb := Z.leb |}.
Proof. all: intros; rewrite ?Z.leb_le in *; lia. Defined.

Fixpoint str_leb (s t : string) : bool :=
  match s, t with
  | EmptyString, _ => true
  | String _ _, EmptyString => false
  | String a s, String b t =>
      if chr_code a =? chr_code b then str_leb s t else chr_code a <? chr_code b
  end.

Lemma chr_code_inj a b : chr_code a = chr_code b -> a = b.
Proof.
  unfold chr_code. intros Hc%N2Z.inj. rewrite <- (ascii_N_embedding a), <- (ascii_N_embedding b).
  by rewrite Hc.
Qed.

#[refine, export] Instance string_ord : PyOrd string := {| py_leb := str_leb |}.
Proof.
  - induction a as [|x a IH]; intros [|y b]; simpl; auto.
    rewrite (Z.eqb_sym (chr_code y)). destruct (Z.eqb_spec (chr_code x) (chr_code y)); [apply IH|].
    rewrite !Z.ltb_lt. lia.
  - induction a as [|x a IH]; intros [|y b] [|z c]; simpl; try done.
    destruct (Z.eqb_spec (chr_code x) (chr_code y)), (Z.eqb_spec (chr_code y) (chr_code z)),
      (Z.eqb_spec (chr_code x) (chr_code z)); rewrite ?Z.ltb_lt; try lia; apply IH.
  - induction a as [|x a IH]; intros [|y b]; simpl; try done.
    rewrite (Z.eqb_sym (chr_code y)). destruct (Z.eqb_spec (chr_code x) (chr_code y)) as [Hc|].
    + intros. apply chr_code_inj in Hc as ->. f_equal. auto.
    + rewrite !Z.ltb_lt. lia.
Defined.

(** Tuples compare by their first components, then by the second. *)
Definition pair_leb `{PyOrd A, PyOrd B} (p q : A * B) : bool :=
  if py_leb p.1 q.1 then (if py_leb q.1 p.1 then py_leb p.2 q.2 else true) else false.

#[refine, export] Instance pair_ord `{PyOrd A, PyOrd B} : PyOrd (A * B) := {| py_leb := pair_leb |}.
Proof.
  - intros [a b] [a' b']. unfold pair_leb; simpl.
    destruct (py_leb_total a a') as [Ha|Ha], (py_leb a a') eqn:H1, (py_leb a' a) eqn:H2;
      try congruence; auto using py_leb_total.
  - intros [a1 b1] [a2 b2] [a3 b3]. unfold pair_leb; simpl.
    destruct (py_leb a1 a2) eqn:H12; [|done]. destruct (py_leb a2 a3) eqn:H23; [|done].
    rewrite (py_leb_trans a1 a2 a3) by done.
    destruct (py_leb a2 a1) eqn:H21, (py_leb a3 a2) eqn:H32, (py_leb a3 a1) eqn:H31; try done.
    + apply py_leb_trans.
    + assert (py_leb a3 a2 = true) by (eapply py_leb_trans; [|exact H12]; done). congruence.
    + assert (py_leb a2 a1 = true) by (eapply py_leb_trans; [exact H23|]; done). congruence.
    + assert (py_leb a2 a1 = true) by (eapply py_leb_trans; [exact H23|]; done). congruence.
  - intros [a b] [a' b']. unfold pair_leb; simpl.
    destruct (py_leb a a') eqn:H1, (py_leb a' a) eqn:H2; try done.
    intros. f_equal; by apply py_leb_antisym.
Defined.

(** ** [sorted] *)

Section sorted.
Context {A K : Type} `{PyOrd K} (key : A -> K).

Fixpoint insert_by (x : A) (l : list A) : list A :=
  match l with
  | [] => [x]
  | y :: l => if py_leb (key x) (key y) then x :: y :: l else y :: insert_by x l
  end.

Fixpoint sorted_by (l : list A) : list A :=
  match l with [] => [] | x :: l => insert_by x (sorted_by l) end.

(** [x] comes no later than [y]. *)
Definition le_by (x y : A) : Prop := py_leb (key x) (key y) = true.

#[export] Instance le_by_trans : Transitive le_by.
Proof. intros x y z. apply py_leb_trans. Qed.

Lemma insert_by_perm x l : insert_by x l ≡ₚ x :: l.
Proof.
  induction l as [|y l IH]; simpl; [done|]. destruct (py_leb _ _); [done|].
  rewrite IH. apply Permutation_swap.
Qed.

Lemma sorted_by_perm l : sorted_by l ≡ₚ l.
Proof. induction l as [|x l IH]; simpl; [done|]. by rewrite insert_by_perm, IH. Qed.

Lemma insert_by_sorted x l : StronglySorted le_by l -> StronglySorted le_by (insert_by x l).
Proof.
  induction l as [|y l IH]; simpl; intros Hl; [by repeat constructor|].
  inversion Hl as [|? ? Hs Hf]; subst. destruct (py_leb (key x) (key y)) eqn:Hxy.
  - constructor; [done|]. constructor; [done|].
    eapply Forall_impl; [exact Hf|]. intros z Hz. by eapply py_leb_trans.
  - constructor; [auto|]. rewrite insert_by_perm. constructor; [|done].
    unfold le_by. destruct (py_leb_total (key x) (key y)); congruence.
Qed.

Lemma sorted_by_sorted l : StronglySorted le_by (sorted_by l).
Proof. induction l; simpl; [constructor|]. by apply insert_by_sorted. Qed.

(** With distinct keys the sorted list is determined by the elements: the order they came in
    does not matter. *)
Lemma sorted_unique l1 l2 :
  l1 ≡ₚ l2 -> NoDup (map key l1) -> StronglySorted le_by l1 -> StronglySorted le_by l2 -> l1 = l2.
Proof.
  revert l2. induction l1 as [|x l1 IH]; intros l2 Hp Hn H1 H2.
  - by apply Permutation_nil in Hp.
  - destruct l2 as [|y l2]; [by apply Permutation_sym, Permutation_nil in Hp|].
    inversion H1 as [|? ? Hs1 Hf1]; inversion H2 as [|? ? Hs2 Hf2]; subst.
    simpl in Hn. apply NoDup_cons in Hn as [Hx Hn].
    assert (x = y) as ->.
    { assert (Hy : y ∈ x :: l1) by (rewrite Hp; left).
      assert (Hx' : x ∈ y :: l2) by (rewrite <- Hp; left).
      apply elem_of_cons in Hy as [->|Hy]; [done|]. apply elem_of_cons in Hx' as [->|Hx']; [done|].
      rewrite Forall_forall in Hf1, Hf2. exfalso. apply Hx.
      rewrite (py_leb_antisym (key x) (key y) (Hf1 y Hy) (Hf2 x Hx')).
      apply list_elem_of_fmap. eauto. }
    f_equal. apply IH; try done. by eapply Permutation_cons_inv.
Qed.

Lemma sorted_by_unique l1 l2 :
  l1 ≡ₚ l2 -> NoDup (map key l1) -> sorted_by l1 = sorted_by l2.
Proof.
  intros Hp Hn. apply sorted_unique; [by rewrite !sorted_by_perm| |apply sorted_by_sorted..].
  by rewrite sorted_by_perm.
Qed.

Lemma sorted_by_head x l l' : sorted_by l = x :: l' -> forall y, y ∈ l -> le_by x y.
Proof.
  intros Hs y Hy. pose proof (sorted_by_sorted l) as Hl. rewrite Hs in Hl.
  inversion Hl as [|? ? _ Hf]; subst. rewrite <- (sorted_by_perm l), Hs in Hy.
  apply elem_of_cons in Hy as [->|Hy]; [apply py_leb_refl|].
  rewrite Forall_forall in Hf. by apply Hf.
Qed.
End sorted.

Example sorted_ex :
  sorted_by (fun p : Z * string => p) [(2, "a"); (1, "b"); (1, "a"); (-3, "z")]
  = [(-3, "z"); (1, "a"); (1, "b"); (2, "a")].
Proof. reflexivity. Qed.
