(* ===== verification/PyState.v ===== *)
(** * PyState: methods of an object as state-passing computations

    A method reads and changes the state of its object and may raise; what it changed before
    it raised stays changed.  [St S A] is such a computation over the state [S]. *)
From S2P Require Import Prelude.

Definition St (S A : Type) : Type := S -> result A * S.

Section state.
Context {S : Type}.

Definition st_ret {A} (a : A) : St S A := fun s => (Ok a, s).
Definition st_raise {A} (e : exc) : St S A := fun s => (Err e, s).
Definition st_lift {A} (r : result A) : St S A := fun s => (r, s).
Definition st_bind {A B} (c : St S A) (k : A -> St S B) : St S B :=
  fun s => match c s with
           | (Ok a, s) => k a s
           | (Err e, s) => (Err e, s)
           end.
(** A read of the state, and a change of it. *)
Definition st_read {A} (f : S -> A) : St S A := fun s => (Ok (f s), s).
Definition st_modify (f : S -> S) : St S unit := fun s => (Ok tt, f s).
(** [try: c finally: f] where [f] raises nothing. *)
Definition st_finally {A} (c : St S A) (f : S -> S) : St S A :=
  fun s => let (r, s) := c s in (r, f s).
End state.

Declare Scope st_scope.
Delimit Scope st_scope with st.
Notation "'let!' x ':=' c 'in' k" := (st_bind c (fun x => k))
  (at level 10, x pattern, c at level 200, k at level 200) : st_scope.
Notation "c ';;!' k" := (st_bind c (fun _ => k))
  (at level 100, k at level 200, right associativity) : st_scope.

(** A [for] loop over a list. *)
Fixpoint st_for {S A} (body : A -> St S unit) (l : list A) : St S unit :=
  match l with
  | [] => st_ret tt
  | x :: l => st_bind (body x) (fun _ => st_for body l)
  end.

(** A [for] loop that carries a local variable. *)
Fixpoint st_fold {S A B} (body : B -> A -> St S B) (acc : B) (l : list A) : St S B :=
  match l with
  | [] => st_ret acc
  | x :: l => st_bind (body acc x) (fun acc => st_fold body acc l)
  end.

(** [try: c except Exception: raise e] *)
Definition st_except {S A} (c : St S A) (e : exc) : St S A :=
  fun s => match c s with
           | (Ok a, s) => (Ok a, s)
           | (Err _, s) => (Err e, s)
           end.

(** [try: c except Exception: pass] *)
Definition st_ignore {S A} (c : St S A) : St S unit := fun s => (Ok tt, snd (c s)).

(** A computation of a part of the state. *)
Definition st_zoom {S P A} (get : S -> P) (set : P -> S -> S) (c : St P A) : St S A :=
  fun s => let (r, p) := c (get s) in (r, set p s).

Lemma st_result {S A} (c : St S A) s a : (c s).1 = Ok a -> c s = (Ok a, (c s).2).
Proof. intros <-. by destruct (c s). Qed.

(** One step of a computation. *)
Lemma st_bind_run {S A B} (c : St S A) (k : A -> St S B) s a s1 : c s = (Ok a, s1) -> st_bind c k s = k a s1.
Proof. intros E. unfold st_bind. by rewrite E. Qed.
Lemma st_read_run {S A B} (f : S -> A) (k : A -> St S B) s : st_bind (st_read f) k s = k (f s) s.
Proof. done. Qed.
Lemma st_modify_run {S B} (f : S -> S) (k : unit -> St S B) s : st_bind (st_modify f) k s = k tt (f s).
Proof. done. Qed.
Ltac run E := rewrite (st_bind_run _ _ _ _ _ E).

Lemma st_bind_ok {S A B} (c : St S A) (k : A -> St S B) s b s' :
  st_bind c k s = (Ok b, s') -> exists a s1, c s = (Ok a, s1) /\ k a s1 = (Ok b, s').
Proof. unfold st_bind. destruct (c s) as [[a|e] s1]; [eauto|done]. Qed.

(** ** Computations that keep an invariant *)

(** Whether the computation raises or not. *)
Definition preserves {S} (I : S -> Prop) {A} (c : St S A) : Prop :=
  forall s, I s -> I (snd (c s)).

Section preserves.
Context {S : Type} (I : S -> Prop).

Lemma keeps_ret {A} (a : A) : preserves I (st_ret a).
Proof. by intros s. Qed.
Lemma keeps_raise {A} e : preserves I (@st_raise S A e).
Proof. by intros s. Qed.
Lemma keeps_lift {A} (r : result A) : preserves I (st_lift r).
Proof. by intros s. Qed.
Lemma keeps_read {A} (f : S -> A) : preserves I (st_read f).
Proof. by intros s. Qed.

Lemma keeps_bind {A B} (c : St S A) (k : A -> St S B) :
  preserves I c -> (forall a, preserves I (k a)) -> preserves I (st_bind c k).
Proof.
  intros Hc Hk s Hs. unfold st_bind. specialize (Hc s Hs).
  destruct (c s) as [[a|e] s']; simpl in *; [by apply Hk|done].
Qed.

Lemma keeps_finally {A} (c : St S A) f :
  preserves I c -> (forall s, I s -> I (f s)) -> preserves I (st_finally c f).
Proof. intros Hc Hf s Hs. unfold st_finally. specialize (Hc s Hs). destruct (c s). by apply Hf. Qed.

Lemma keeps_ignore {A} (c : St S A) : preserves I c -> preserves I (st_ignore c).
Proof. intros Hc s Hs. by apply Hc. Qed.

Lemma keeps_fold {A B} (body : B -> A -> St S B) acc l :
  (forall b x, x ∈ l -> preserves I (body b x)) -> preserves I (st_fold body acc l).
Proof.
  revert acc. induction l as [|x l IH]; intros acc Hb; [apply keeps_ret|]. simpl.
  apply keeps_bind; [apply Hb; left|]. intros b. apply IH. intros b' y Hy. apply Hb. by right.
Qed.

Lemma keeps_for {A} (body : A -> St S unit) l :
  (forall x, x ∈ l -> preserves I (body x)) -> preserves I (st_for body l).
Proof.
  induction l as [|x l IH]; intros Hb; [apply keeps_ret|]. simpl.
  apply keeps_bind; [apply Hb; left|]. intros _. apply IH. intros y Hy. apply Hb. by right.
Qed.
End preserves.

Create HintDb keeps discriminated.
#[export] Hint Resolve keeps_ret keeps_raise keeps_lift keeps_read : keeps.

Ltac keeps_step :=
  match goal with
  | |- forall _, _ => intros ?
  | |- preserves _ (st_bind _ _) => apply keeps_bind; [|intros ?]
  | |- preserves _ (match ?x with _ => _ end) => destruct x
  | |- preserves _ _ => solve [eauto with keeps]
  end.
Ltac keeps_auto := repeat (cbn beta zeta; keeps_step).

(** ** Computations that keep an invariant when they return *)

Definition preserves_ok {S} (I : S -> Prop) {A} (c : St S A) : Prop :=
  forall s a s', I s -> c s = (Ok a, s') -> I s'.

Section preserves_ok.
Context {S : Type} (I : S -> Prop).

Lemma preserves_preserves_ok {A} (c : St S A) : preserves I c -> preserves_ok I c.
Proof. intros Hc s a s' Hs E. specialize (Hc s Hs). by rewrite E in Hc. Qed.

Lemma okeeps_bind {A B} (c : St S A) (k : A -> St S B) :
  preserves_ok I c -> (forall a, preserves_ok I (k a)) -> preserves_ok I (st_bind c k).
Proof. intros Hc Hk s b s' Hs (a & s1 & E1 & E2)%st_bind_ok. eapply Hk, E2. by eapply Hc. Qed.

Lemma okeeps_ret {A} (a : A) : preserves_ok I (st_ret a).
Proof. by intros s b s' Hs [= <- <-]. Qed.
Lemma okeeps_raise {A} e : preserves_ok I (@st_raise S A e).
Proof. by intros s b s' Hs [= ]. Qed.
Lemma okeeps_lift {A} (r : result A) : preserves_ok I (st_lift r).
Proof. by intros s b s' Hs [= _ <-]. Qed.
Lemma okeeps_read {A} (f : S -> A) : preserves_ok I (st_read f).
Proof. by intros s b s' Hs [= <- <-]. Qed.
Lemma okeeps_modify f : (forall s, I s -> I (f s)) -> preserves_ok I (st_modify f).
Proof. intros Hf s b s' Hs [= <- <-]. by apply Hf. Qed.

Lemma okeeps_for {A} (body : A -> St S unit) l :
  (forall x, preserves_ok I (body x)) -> preserves_ok I (st_for body l).
Proof.
  intros Hb. induction l as [|x l IH]; [apply okeeps_ret|]. simpl. apply okeeps_bind; [apply Hb|done].
Qed.

Lemma okeeps_fold {A B} (body : B -> A -> St S B) acc l :
  (forall b x, preserves_ok I (body b x)) -> preserves_ok I (st_fold body acc l).
Proof.
  intros Hb. revert acc. induction l as [|x l IH]; intros acc; [apply okeeps_ret|]. simpl.
  apply okeeps_bind; [apply Hb|done].
Qed.
End preserves_ok.

Create HintDb okeeps discriminated.
#[export] Hint Resolve okeeps_ret okeeps_raise okeeps_lift okeeps_read : okeeps.

Ltac okeeps_step :=
  match goal with
  | |- forall _, _ => intros ?
  | |- preserves_ok _ (st_bind _ _) => apply okeeps_bind; [|intros ?]
  | |- preserves_ok _ (match ?x with _ => _ end) => destruct x
  | |- preserves_ok _ (st_for _ _) => apply okeeps_for
  | |- preserves_ok _ (st_fold _ _ _) => apply okeeps_fold
  | |- preserves_ok _ _ => solve [eauto with okeeps]
  end.
Ltac okeeps_auto := repeat (cbn beta zeta; okeeps_step).
