(* ===== verification/PyNumerals.v ===== *)
(** * PyNumerals: strings that are printed and read back

    [int(str(n))] is [n], and [c.join(l).split(c)] is [l] when no part holds the separator:
    what the tokens and identifiers of the server rely on when they come back from a
    client. *)
From S2P Require Import Prelude PyVal.
From Stdlib Require Import Ascii String.
Open Scope string_scope.
Open Scope list_scope.
Open Scope Z_scope.

(** [c not in s] for a character [c] *)
Definition without (c : ascii) (s : string) : bool := str_all (fun a => negb (Ascii.eqb a c)) s.

Definition is_sign_or_digit (a : ascii) : bool := is_digit a || Ascii.eqb a "-".
(** ASCII and not a space *)
Definition is_plain (a : ascii) : bool := (chr_code a <? 128) && negb (is_space a).

(** ** Strings all of whose characters pass a test *)

Lemma app_cons_str a s t : (String a s ++ t = String a (s ++ t))%string.
Proof. done. Qed.

Lemma str_all_app p s t : str_all p (s ++ t)%string = str_all p s && str_all p t.
Proof. induction s as [|a s IH]; simpl; [done|]. by rewrite IH, andb_assoc. Qed.

Lemma str_all_impl (p q : ascii -> bool) s :
  (forall a, p a = true -> q a = true) -> str_all p s = true -> str_all q s = true.
Proof.
  intros Hpq. induction s as [|a s IH]; simpl; [done|].
  rewrite !andb_true_iff. intros [? ?]. auto.
Qed.

Lemma app_nil_r_str (s : string) : (s ++ "" = s)%string.
Proof. induction s as [|a s IH]; [done|]. by rewrite app_cons_str, IH. Qed.
Lemma app_assoc_str (s t u : string) : ((s ++ t) ++ u = s ++ (t ++ u))%string.
Proof. induction s as [|a s IH]; [done|]. by rewrite !app_cons_str, IH. Qed.

Lemma str_rev_app_spec s acc : str_rev_app s acc = (str_rev s ++ acc)%string.
Proof.
  unfold str_rev. revert acc. induction s as [|a s IH]; intros acc; simpl; [done|].
  rewrite (IH (String a acc)), (IH (String a "")). by rewrite app_assoc_str.
Qed.

Lemma str_rev_cons a s : str_rev (String a s) = (str_rev s ++ String a "")%string.
Proof. unfold str_rev at 1. simpl. apply str_rev_app_spec. Qed.
Lemma str_rev_snoc s a : str_rev (s ++ String a "")%string = String a (str_rev s).
Proof. induction s as [|b s IH]; [done|]. by rewrite app_cons_str, !str_rev_cons, IH. Qed.
Lemma str_rev_involutive s : str_rev (str_rev s) = s.
Proof. induction s as [|a s IH]; [done|]. by rewrite str_rev_cons, str_rev_snoc, IH. Qed.
Lemma str_all_rev p s : str_all p (str_rev s) = str_all p s.
Proof.
  induction s as [|a s IH]; [done|]. rewrite str_rev_cons, str_all_app, IH. simpl.
  destruct (p a), (str_all p s); done.
Qed.

Lemma lstrip_plain back s : str_all is_plain s = true -> lstrip_aux back s = s.
Proof.
  assert (H2 : forall a b, is_plain a = true -> is_plain b = true -> is_space2 a b = false).
  { unfold is_plain, is_space2. intros. destruct (Z.eqb_spec (chr_code a) 194); [lia|done]. }
  assert (H3 : forall a b c, is_plain a = true -> is_space3 a b c = false).
  { unfold is_plain, is_space3. intros. cbv zeta.
    destruct (Z.eqb_spec (chr_code a) 225), (Z.eqb_spec (chr_code a) 226),
      (Z.eqb_spec (chr_code a) 227); simpl; done || lia. }
  assert (H1 : forall a, is_plain a = true -> is_space a = false).
  { unfold is_plain. intros a. destruct (is_space a); [by rewrite andb_false_r|done]. }
  destruct s as [|a [|b [|c s]]]; cbn [lstrip_aux str_all]; rewrite ?andb_true_iff; [done|..].
  - intros [Ha _]. by rewrite H1.
  - intros (Ha & Hb & _). rewrite H1 by done. destruct back; by rewrite H2.
  - intros (Ha & Hb & Hc & _). rewrite H1 by done. destruct back; by rewrite H2, H3.
Qed.

Lemma strip_plain s : str_all is_plain s = true -> strip s = s.
Proof.
  intros Hp. unfold strip. rewrite (lstrip_plain false) by done.
  rewrite lstrip_plain by (by rewrite str_all_rev). apply str_rev_involutive.
Qed.

(** ** Numerals *)

Lemma digit_plain a : is_digit a = true -> is_plain a = true.
Proof. unfold is_digit, is_plain, is_space. lia. Qed.
Lemma sign_plain a : is_sign_or_digit a = true -> is_plain a = true.
Proof.
  unfold is_sign_or_digit. rewrite orb_true_iff. intros [?|He]; [by apply digit_plain|].
  apply Ascii.eqb_eq in He. by subst.
Qed.
Lemma digit_sign a : is_digit a = true -> is_sign_or_digit a = true.
Proof. unfold is_sign_or_digit. by intros ->. Qed.

Lemma digit_char d : 0 <= d < 10 ->
  chr_code (ascii_of_N (Z.to_N (48 + d))) = 48 + d /\
  is_digit (ascii_of_N (Z.to_N (48 + d))) = true.
Proof.
  intros Hd. assert (Hc : chr_code (ascii_of_N (Z.to_N (48 + d))) = 48 + d).
  { unfold chr_code. rewrite N_ascii_embedding by lia. lia. }
  split; [done|]. unfold is_digit. rewrite Hc. lia.
Qed.

Lemma digits_all fuel n acc :
  0 <= n -> str_all is_digit acc = true -> str_all is_digit (digits_aux fuel n acc) = true.
Proof.
  revert n acc. induction fuel as [|fuel IH]; intros n acc Hn Ha; [done|]. cbn [digits_aux].
  destruct (digit_char (n mod 10)) as [_ Hd]; [by apply Z.mod_pos_bound|].
  assert (Ha' : str_all is_digit (String (ascii_of_N (Z.to_N (48 + n mod 10))) acc) = true)
    by (cbn [str_all]; by rewrite Hd, Ha).
  destruct (n / 10 =? 0); [done|]. apply IH; [by apply Z.div_pos|done].
Qed.

Lemma digits_nonempty fuel n acc : exists a s, digits_aux (S fuel) n acc = String a s.
Proof.
  revert n acc. induction fuel as [|fuel IH]; intros n acc; cbn [digits_aux];
    (destruct (n / 10 =? 0); [eauto|]); [eauto|apply IH].
Qed.

Lemma parse_digits_cons acc a s :
  is_digit a = true -> parse_digits acc (String a s) = parse_digits (10 * acc + (chr_code a - 48)) s.
Proof. simpl. by intros ->. Qed.

Lemma parse_digits_aux fuel n acc :
  0 <= n < 2 ^ Z.of_nat fuel -> parse_digits 0 (digits_aux fuel n acc) = parse_digits n acc.
Proof.
  revert n acc. induction fuel as [|fuel IH]; intros n acc Hn.
  - replace n with 0 by (change (2 ^ Z.of_nat 0) with 1 in Hn; lia). done.
  - cbn [digits_aux]. destruct (digit_char (n mod 10)) as [Hc Hd]; [by apply Z.mod_pos_bound|].
    set (c := ascii_of_N _) in *. rewrite Nat2Z.inj_succ, Z.pow_succ_r in Hn by lia.
    assert (Hdm := Z.div_mod n 10 ltac:(lia)).
    assert (0 <= n mod 10 < 10) by (by apply Z.mod_pos_bound).
    destruct (Z.eqb_spec (n / 10) 0) as [H0|H0].
    + rewrite parse_digits_cons, Hc by done. f_equal. lia.
    + rewrite IH by lia. rewrite parse_digits_cons, Hc by done. f_equal. lia.
Qed.

Lemma log2_fuel n : 0 <= n -> n < 2 ^ Z.of_nat (S (Z.to_nat (Z.log2 n))).
Proof.
  intros Hn. rewrite Nat2Z.inj_succ, Z2Nat.id by apply Z.log2_nonneg.
  destruct (Z.eq_dec n 0) as [->|Hne]; [done|]. apply Z.log2_spec. lia.
Qed.

Lemma parse_nat_digits n : 0 <= n ->
  parse_nat (digits_aux (S (Z.to_nat (Z.log2 n))) n "") = Some n.
Proof.
  intros Hn. destruct (digits_nonempty (Z.to_nat (Z.log2 n)) n "") as (a & s & He).
  assert (Ha := digits_all (S (Z.to_nat (Z.log2 n))) n "" Hn eq_refl).
  assert (Hp := parse_digits_aux (S (Z.to_nat (Z.log2 n))) n "" (conj Hn (log2_fuel n Hn))).
  rewrite He in *. simpl in Ha. apply andb_true_iff in Ha as [Ha _].
  rewrite parse_digits_cons in Hp by done. simpl. rewrite Ha.
  replace (chr_code a - 48) with (10 * 0 + (chr_code a - 48)) by lia. done.
Qed.

Lemma str_of_nat_digits n : 0 <= n -> str_all is_digit (str_of_int n) = true.
Proof.
  intros Hn. unfold str_of_int. destruct (Z.ltb_spec n 0); [lia|]. by apply digits_all.
Qed.

Lemma str_of_int_chars n : str_all is_sign_or_digit (str_of_int n) = true.
Proof.
  destruct (Z.ltb_spec n 0) as [Hn|Hn].
  - unfold str_of_int. destruct (Z.ltb_spec n 0); [|lia]. cbn [str_all].
    apply (str_all_impl is_digit); [apply digit_sign|apply digits_all; [lia|done]].
  - apply (str_all_impl is_digit); [apply digit_sign|by apply str_of_nat_digits].
Qed.

(** A numeral is not empty; one without a minus sign starts with a digit. *)
Lemma str_of_int_cons n : exists a s, str_of_int n = String a s /\ (0 <= n -> is_digit a = true).
Proof.
  destruct (Z.ltb_spec n 0) as [Hn|Hn].
  - unfold str_of_int. destruct (Z.ltb_spec n 0); [|lia]. do 2 eexists. split; [done|lia].
  - assert (Ha := str_of_nat_digits n Hn). unfold str_of_int in *.
    destruct (Z.ltb_spec n 0); [lia|].
    destruct (digits_nonempty (Z.to_nat (Z.log2 n)) n "") as (a & s & He). rewrite He in *.
    exists a, s. split; [done|]. simpl in Ha. by apply andb_true_iff in Ha as [? _].
Qed.

(** [int(str(n)) == n] *)
Lemma int_of_str_of_int n : int_of_str (str_of_int n) = Ok n.
Proof.
  unfold int_of_str. rewrite strip_plain
    by (apply (str_all_impl is_sign_or_digit); [apply sign_plain|apply str_of_int_chars]).
  destruct (str_of_int_cons n) as (a & s & He & Hd). unfold str_of_int in *.
  destruct (Z.ltb_spec n 0) as [Hn|Hn].
  - rewrite parse_nat_digits by lia. f_equal. lia.
  - specialize (Hd Hn). assert (Hp := parse_nat_digits n Hn). cbv zeta in He. rewrite He in Hp |- *.
    destruct a as [[] [] [] [] [] [] [] []]; try done; by rewrite Hp.
Qed.

(** ** Splitting and joining *)

Lemma without_sign c s :
  is_sign_or_digit c = false -> str_all is_sign_or_digit s = true -> without c s = true.
Proof.
  intros Hc. apply str_all_impl. intros a Ha. destruct (Ascii.eqb_spec a c) as [->|]; [congruence|done].
Qed.
Lemma without_digit c s :
  is_digit c = false -> str_all is_digit s = true -> without c s = true.
Proof.
  intros Hc. apply str_all_impl. intros a Ha. destruct (Ascii.eqb_spec a c) as [->|]; [congruence|done].
Qed.

Lemma without_int c n : is_sign_or_digit c = false -> without c (str_of_int n) = true.
Proof. intros Hc. by apply without_sign, str_of_int_chars. Qed.

Lemma without_app c s t : without c (s ++ t)%string = without c s && without c t.
Proof. apply str_all_app. Qed.

Lemma without_join c d l :
  c <> d -> Forall (fun s => without c s = true) l ->
  without c (str_join (String d "") l) = true.
Proof.
  intros Hcd. assert (Hd : without c (String d "") = true).
  { unfold without. simpl. destruct (Ascii.eqb_spec d c); [congruence|done]. }
  induction 1 as [|s l Hs Hl IH]; [done|]. destruct l as [|s' l]; [done|].
  change (str_join _ (s :: s' :: l)) with (s ++ String d "" ++ str_join (String d "") (s' :: l))%string.
  by rewrite !without_app, Hs, Hd, IH.
Qed.

Lemma split_once_app c s t : without c s = true -> split_once c (s ++ String c t)%string = Some (s, t).
Proof.
  unfold without. induction s as [|a s IH]; simpl; [by rewrite Ascii.eqb_refl|].
  rewrite andb_true_iff, negb_true_iff. intros [-> Hs]. by rewrite IH.
Qed.

Lemma split_all_without c s : without c s = true -> split_all c s = [s].
Proof.
  unfold without. induction s as [|a s IH]; simpl; [done|].
  rewrite andb_true_iff, negb_true_iff. intros [-> Hs]. by rewrite IH.
Qed.

Lemma split_all_app c s t :
  without c s = true -> split_all c (s ++ String c t)%string = s :: split_all c t.
Proof.
  unfold without. induction s as [|a s IH]; simpl; [by rewrite Ascii.eqb_refl|].
  rewrite andb_true_iff, negb_true_iff. intros [-> Hs]. by rewrite IH.
Qed.

(** [c.join(l).split(c) == l] *)
Lemma split_all_join c l :
  l <> [] -> Forall (fun s => without c s = true) l -> split_all c (str_join (String c "") l) = l.
Proof.
  intros Hne. induction 1 as [|s l Hs Hl IH]; [done|]. destruct l as [|s' l].
  - by apply split_all_without.
  - change (str_join _ (s :: s' :: l)) with (s ++ String c (str_join (String c "") (s' :: l)))%string.
    by rewrite split_all_app, IH.
Qed.
