(* ===== verification/PyFloat.v ===== *)
(** * PyFloat: floats

    First [int(a / b)] on integers; then doubles, their printing and their parsing.

    Python's [/] on two integers gives the float nearest to the quotient, ties to the even
    significand; [int] truncates it.  The significand has 53 bits; quotients from 2^1024 on,
    where Python raises, are left out. *)
From S2P Require Import Prelude PyVal.
From Stdlib Require Import Ascii String.
Open Scope Z_scope.

(** The integer nearest to [n / d]. *)
Definition round_half_even (n d : Z) : Z :=
  let q := n / d in
  let r := n mod d in
  if 2 * r <? d then q else if d <? 2 * r then q + 1 else if Z.even q then q else q + 1.

(** [a * 2^s / b], as a fraction of integers. *)
Definition scaled_num (a s : Z) : Z := a * 2 ^ (Z.max 0 s).
Definition scaled_den (b s : Z) : Z := b * 2 ^ (Z.max 0 (- s)).

(** The scaling that brings the quotient into [2^52, 2^53). *)
Definition scaling (a b : Z) : Z :=
  let s := 52 - (Z.log2 a - Z.log2 b) in
  if scaled_num a s <? 2 ^ 52 * scaled_den b s then s + 1 else s.

Definition div_pos (a b : Z) : Z :=
  let s := scaling a b in
  Z.shiftr (round_half_even (scaled_num a s) (scaled_den b s)) s.

(** [int(a / b)] for a positive [b]. *)
Definition int_truediv (a b : Z) : Z :=
  if a =? 0 then 0 else if a <? 0 then - div_pos (- a) b else div_pos a b.

Example int_truediv_ex :
  map (fun p => int_truediv p.1 p.2)
    [(1700000004999, 5000); (-7, 2); (2 ^ 60 - 1, 1); (4999, 5000); (0, 3)] =
  [340000000; -3; 2 ^ 60; 0; 0].
Proof. vm_compute. reflexivity. Qed.

(** ** Rounding *)

Lemma round_half_even_bounds n d : 0 < d ->
  2 * d * round_half_even n d <= 2 * n + d /\ 2 * n - d <= 2 * d * round_half_even n d.
Proof.
  intros Hd. unfold round_half_even. pose proof (Z.div_mod n d ltac:(lia)) as Hn.
  pose proof (Z.mod_pos_bound n d Hd).
  destruct (Z.ltb_spec (2 * (n mod d)) d); [nia|].
  destruct (Z.ltb_spec d (2 * (n mod d))); [nia|]. destruct (Z.even _); nia.
Qed.

(** An integer below the fraction is below its rounding, and the same above. *)
Lemma round_half_even_ge n d k : 0 < d -> k * d <= n -> k <= round_half_even n d.
Proof.
  intros Hd Hk. assert (Hq : k <= n / d) by (apply Z.div_le_lower_bound; lia).
  unfold round_half_even. repeat case_match; lia.
Qed.

Lemma round_half_even_le n d k : 0 < d -> n <= k * d -> round_half_even n d <= k.
Proof.
  intros Hd Hk. unfold round_half_even. pose proof (Z.div_mod n d ltac:(lia)) as Hn.
  pose proof (Z.mod_pos_bound n d Hd).
  assert (n / d <= k) by (apply Z.div_le_upper_bound; lia).
  destruct (decide (n / d = k)) as [Heq|]; [|repeat case_match; lia].
  assert (n mod d = 0) as -> by nia. destruct (Z.ltb_spec (2 * 0) d); lia.
Qed.

Lemma round_half_even_mono n n' d : 0 < d -> n <= n' -> round_half_even n d <= round_half_even n' d.
Proof.
  intros Hd Hn. unfold round_half_even.
  pose proof (Z.div_mod n d ltac:(lia)). pose proof (Z.mod_pos_bound n d Hd).
  pose proof (Z.div_mod n' d ltac:(lia)). pose proof (Z.mod_pos_bound n' d Hd).
  assert (n / d <= n' / d) by (apply Z.div_le_mono; lia).
  destruct (decide (n / d = n' / d)) as [Heq|].
  - rewrite <- Heq. assert (n mod d <= n' mod d) by nia. repeat case_match; lia.
  - assert (n / d + 1 <= n' / d) by lia. repeat case_match; lia.
Qed.

(** ** Scaling *)

Lemma pow2_pos k : 0 < 2 ^ k \/ k < 0.
Proof. destruct (Z.lt_ge_cases k 0); [by right|left; by apply Z.pow_pos_nonneg]. Qed.

Lemma scaled_den_pos b s : 0 < b -> 0 < scaled_den b s.
Proof. intros. unfold scaled_den. destruct (pow2_pos (Z.max 0 (- s))); [nia|lia]. Qed.

(** Both sides of the fraction times the same power of two. *)
Lemma scaled_at a b s K : Z.max 0 (- s) <= K ->
  scaled_num a s * 2 ^ (K - Z.max 0 (- s)) = a * 2 ^ (s + K) /\
  scaled_den b s * 2 ^ (K - Z.max 0 (- s)) = b * 2 ^ K.
Proof.
  intros HK. unfold scaled_num, scaled_den. rewrite <- !Z.mul_assoc, <- !Z.pow_add_r by lia.
  split; do 2 f_equal; lia.
Qed.

(** [scaling] does what it is for. *)
Definition in_binade (a b s : Z) : Prop :=
  2 ^ 52 * scaled_den b s <= scaled_num a s /\ scaled_num a s < 2 ^ 53 * scaled_den b s.

Lemma in_binade_at a b s K : Z.max 0 (- s) <= K -> in_binade a b s ->
  2 ^ 52 * (b * 2 ^ K) <= a * 2 ^ (s + K) /\ a * 2 ^ (s + K) < 2 ^ 53 * (b * 2 ^ K).
Proof.
  intros HK [H1 H2]. destruct (scaled_at a b s K HK) as [<- <-].
  assert (0 < 2 ^ (K - Z.max 0 (- s))) by (apply Z.pow_pos_nonneg; lia). split; nia.
Qed.

Lemma in_binade_of a b s K : Z.max 0 (- s) <= K ->
  2 ^ 52 * (b * 2 ^ K) <= a * 2 ^ (s + K) -> a * 2 ^ (s + K) < 2 ^ 53 * (b * 2 ^ K) ->
  in_binade a b s.
Proof.
  intros HK. destruct (scaled_at a b s K HK) as [<- <-].
  assert (0 < 2 ^ (K - Z.max 0 (- s))) by (apply Z.pow_pos_nonneg; lia).
  unfold in_binade. split; nia.
Qed.

Lemma scaling_binade a b : 0 < a -> 0 < b -> in_binade a b (scaling a b).
Proof.
  intros Ha Hb. unfold scaling. set (s := 52 - (Z.log2 a - Z.log2 b)).
  pose proof (Z.log2_spec a Ha) as [Ha1 Ha2]. pose proof (Z.log2_spec b Hb) as [Hb1 Hb2].
  pose proof (Z.log2_nonneg a). pose proof (Z.log2_nonneg b).
  assert (Hs : 2 ^ 51 * scaled_den b s < scaled_num a s /\ scaled_num a s < 2 ^ 53 * scaled_den b s).
  { set (K := Z.max 0 (- s)). destruct (scaled_at a b s K ltac:(lia)) as [Hn Hd].
    replace (K - Z.max 0 (- s)) with 0 in Hn, Hd by lia. rewrite Z.pow_0_r, Z.mul_1_r in Hn, Hd.
    rewrite Hn, Hd. set (x := Z.log2 a) in *. set (y := Z.log2 b) in *.
    assert (E : 2 ^ (x + (s + K)) = 2 ^ 52 * 2 ^ (y + K)) by (rewrite <- Z.pow_add_r by lia; f_equal; lia).
    rewrite Z.pow_add_r in E by lia. rewrite (Z.pow_add_r 2 y K) in E by lia.
    rewrite Z.pow_succ_r in Ha2 by lia. rewrite Z.pow_succ_r in Hb2 by lia.
    assert (0 < 2 ^ (s + K)) by (apply Z.pow_pos_nonneg; lia).
    assert (0 < 2 ^ K) by (apply Z.pow_pos_nonneg; lia).
    set (p := 2 ^ (s + K)) in *. set (q := 2 ^ K) in *. clearbody p q. split; nia. }
  destruct Hs as [Hs1 Hs2]. destruct (Z.ltb_spec (scaled_num a s) (2 ^ 52 * scaled_den b s)) as [Hlt|Hge];
    [|done].
  set (K := Z.max 0 (- s)). apply (in_binade_of a b (s + 1) K); [lia|..].
  all: destruct (scaled_at a b s K ltac:(lia)) as [Hn Hd].
  all: replace (K - Z.max 0 (- s)) with 0 in Hn, Hd by lia; rewrite Z.pow_0_r, Z.mul_1_r in Hn, Hd.
  all: replace (s + 1 + K) with (1 + (s + K)) by lia; rewrite Z.pow_add_r, Z.pow_1_r by lia; lia.
Qed.

(** ** Monotonicity *)

Lemma shiftr_mono m m' s : m <= m' -> Z.shiftr m s <= Z.shiftr m' s.
Proof.
  intros H. destruct (Z.le_gt_cases 0 s) as [Hs|Hs].
  - rewrite !Z.shiftr_div_pow2 by done. apply Z.div_le_mono; [|done]. by apply Z.pow_pos_nonneg.
  - rewrite !Z.shiftr_mul_pow2 by lia. assert (0 < 2 ^ (- s)) by (apply Z.pow_pos_nonneg; lia). nia.
Qed.

Lemma shiftr_antitone m s s' : 0 <= m -> s <= s' -> Z.shiftr m s' <= Z.shiftr m s.
Proof.
  intros Hm Hs. replace s' with (s + (s' - s)) by lia. rewrite <- Z.shiftr_shiftr by lia.
  rewrite (Z.shiftr_div_pow2 _ (s' - s)) by lia. apply Z.div_le_upper_bound.
  - apply Z.pow_pos_nonneg; lia.
  - assert (0 < 2 ^ (s' - s)) by (apply Z.pow_pos_nonneg; lia).
    assert (0 <= Z.shiftr m s) by (by apply Z.shiftr_nonneg). nia.
Qed.

Lemma div_pos_mono a a' b : 0 < a -> a <= a' -> 0 < b -> div_pos a b <= div_pos a' b.
Proof.
  intros Ha Haa Hb. unfold div_pos.
  pose proof (scaling_binade a b Ha Hb) as H1. pose proof (scaling_binade a' b ltac:(lia) Hb) as H2.
  set (s := scaling a b) in *. set (s' := scaling a' b) in *. clearbody s s'.
  pose proof (scaled_den_pos b s Hb). pose proof (scaled_den_pos b s' Hb).
  destruct (Z.lt_trichotomy s s') as [Hlt|[->|Hgt]].
  - exfalso. set (K := Z.max 0 (- s)).
    destruct (in_binade_at a b s K ltac:(lia) H1) as [Hl _].
    destruct (in_binade_at a' b s' K ltac:(lia) H2) as [_ Hu].
    replace (s' + K) with ((s + K) + (s' - s)) in Hu by lia. rewrite Z.pow_add_r in Hu by lia.
    assert (2 <= 2 ^ (s' - s)) by (apply (Z.pow_le_mono_r 2 1); lia).
    assert (0 < 2 ^ (s + K)) by (apply Z.pow_pos_nonneg; lia).
    assert (a * (2 ^ (s + K) * 2) <= a' * (2 ^ (s + K) * 2 ^ (s' - s))).
    { apply Z.mul_le_mono_nonneg; [lia|lia|nia|]. apply Z.mul_le_mono_nonneg_l; lia. }
    lia.
  - apply shiftr_mono, round_half_even_mono; [done|]. unfold scaled_num.
    assert (0 < 2 ^ (Z.max 0 s')) by (apply Z.pow_pos_nonneg; lia). nia.
  - destruct H1 as [_ H1], H2 as [H2 _].
    transitivity (Z.shiftr (2 ^ 53) s); [apply shiftr_mono, round_half_even_le; lia|].
    transitivity (Z.shiftr (2 ^ 52) s'); [|apply shiftr_mono, round_half_even_ge; lia].
    replace (Z.shiftr (2 ^ 53) s) with (Z.shiftr (2 ^ 52) (s - 1));
      [apply shiftr_antitone; lia|].
    replace (2 ^ 53) with (Z.shiftl (2 ^ 52) 1) by reflexivity.
    rewrite Z.shiftr_shiftl_l by lia. rewrite <- (Z.shiftl_opp_r _ (s - 1)). f_equal; lia.
Qed.

Lemma div_pos_nonneg a b : 0 < a -> 0 < b -> 0 <= div_pos a b.
Proof.
  intros Ha Hb. unfold div_pos. apply Z.shiftr_nonneg, round_half_even_ge.
  - by apply scaled_den_pos.
  - unfold scaled_num. assert (0 < 2 ^ (Z.max 0 (scaling a b))) by (apply Z.pow_pos_nonneg; lia). nia.
Qed.

Lemma int_truediv_mono a a' b : 0 < b -> a <= a' -> int_truediv a b <= int_truediv a' b.
Proof.
  intros Hb H. unfold int_truediv.
  destruct (Z.eqb_spec a 0), (Z.eqb_spec a' 0); [lia|..].
  - destruct (Z.ltb_spec a' 0); [lia|]. apply div_pos_nonneg; lia.
  - destruct (Z.ltb_spec a 0); [|lia]. pose proof (div_pos_nonneg (- a) b). lia.
  - destruct (Z.ltb_spec a 0), (Z.ltb_spec a' 0).
    + pose proof (div_pos_mono (- a') (- a) b). lia.
    + pose proof (div_pos_nonneg (- a) b). pose proof (div_pos_nonneg a' b). lia.
    + lia.
    + apply div_pos_mono; lia.
Qed.

(** ** Exactness: below 2^53 rounding does not reach the next integer *)

Lemma div_pos_exact a b : 0 < a < 2 ^ 53 -> 0 < b -> div_pos a b = a / b.
Proof.
  intros Ha Hb. unfold div_pos.
  assert (Hs : Z.log2 b <= scaling a b).
  { assert (Z.log2 a <= 52) by (apply Z.lt_succ_r, Z.log2_lt_pow2; lia).
    unfold scaling. case_match; lia. }
  set (s := scaling a b) in *. clearbody s. pose proof (Z.log2_nonneg b).
  pose proof (Z.log2_spec b Hb) as [_ Hlog]. unfold scaled_num, scaled_den.
  rewrite (Z.max_r 0 s), (Z.max_l 0 (- s)), Z.pow_0_r, Z.mul_1_r by lia.
  assert (Hp : 2 ^ Z.succ (Z.log2 b) <= 2 * 2 ^ s).
  { rewrite Z.pow_succ_r by lia. apply Z.mul_le_mono_nonneg_l; [lia|]. by apply Z.pow_le_mono_r. }
  rewrite Z.shiftr_div_pow2 by lia. set (p := 2 ^ s) in *.
  assert (0 < p) by (apply Z.pow_pos_nonneg; lia).
  pose proof (Z.div_mod a b ltac:(lia)). pose proof (Z.mod_pos_bound a b Hb).
  symmetry. apply (Z.div_unique _ _ _ (round_half_even (a * p) b - p * (a / b))); [left|lia].
  assert (p * (a / b) <= round_half_even (a * p) b) by (apply round_half_even_ge; nia).
  pose proof (round_half_even_bounds (a * p) b Hb) as [Hu _].
  destruct (Z.lt_ge_cases (round_half_even (a * p) b - p * (a / b)) p) as [|Hge]; [lia|]. exfalso.
  set (k := a / b) in *. set (r := a mod b) in *.
  assert (HL : 2 * b * (p * (k + 1)) <= 2 * b * round_half_even (a * p) b)
    by (apply Z.mul_le_mono_nonneg_l; lia).
  assert (HM : p * 1 <= p * (b - r)) by (apply Z.mul_le_mono_nonneg_l; lia).
  assert (a * p = b * k * p + r * p) by lia. lia.
Qed.

Lemma int_truediv_exact a b : Z.abs a < 2 ^ 53 -> 0 < b -> int_truediv a b = Z.quot a b.
Proof.
  intros Ha Hb. unfold int_truediv. destruct (Z.eqb_spec a 0) as [->|].
  { by rewrite Z.quot_0_l by lia. }
  destruct (Z.ltb_spec a 0).
  - rewrite div_pos_exact by lia. rewrite <- (Z.opp_involutive a) at 2.
    rewrite Z.quot_opp_l by lia. f_equal. symmetry. apply Z.quot_div_nonneg; lia.
  - rewrite div_pos_exact by lia. symmetry. apply Z.quot_div_nonneg; lia.
Qed.

(** ** Growth *)

Lemma div_pos_pow2 a b j : 0 <= j -> 0 < b -> 2 ^ j * b <= a -> 2 ^ j <= div_pos a b.
Proof.
  intros Hj Hb Ha. assert (0 < 2 ^ j) by (by apply Z.pow_pos_nonneg).
  assert (Ha0 : 0 < a) by nia. unfold div_pos.
  pose proof (scaling_binade a b Ha0 Hb) as Hbin. set (s := scaling a b) in *. clearbody s.
  pose proof (scaled_den_pos b s Hb) as Hd.
  destruct (Z.le_gt_cases 0 (j + s)) as [Hjs|Hjs].
  - replace (2 ^ j) with (Z.shiftr (2 ^ (j + s)) s).
    + apply shiftr_mono, round_half_even_ge; [done|]. set (K := Z.max 0 (- s)).
      destruct (scaled_at a b s K ltac:(lia)) as [Hn Hdn].
      replace (K - Z.max 0 (- s)) with 0 in Hn, Hdn by lia. rewrite Z.pow_0_r, Z.mul_1_r in Hn, Hdn.
      rewrite Hn, Hdn. replace (2 ^ (j + s) * (b * 2 ^ K)) with (2 ^ j * b * 2 ^ (s + K)).
      * assert (0 < 2 ^ (s + K)) by (apply Z.pow_pos_nonneg; lia). nia.
      * assert (E : 2 ^ j * 2 ^ (s + K) = 2 ^ (j + s) * 2 ^ K)
          by (rewrite <- !Z.pow_add_r by lia; f_equal; lia).
        replace (2 ^ j * b * 2 ^ (s + K)) with (b * (2 ^ j * 2 ^ (s + K))) by ring. rewrite E. ring.
    + destruct (Z.le_gt_cases 0 s).
      * rewrite Z.shiftr_div_pow2, Z.pow_add_r by lia. apply Z.div_mul.
        assert (0 < 2 ^ s) by (by apply Z.pow_pos_nonneg). lia.
      * rewrite Z.shiftr_mul_pow2, <- Z.pow_add_r by lia. f_equal. lia.
  - rewrite Z.shiftr_mul_pow2 by lia.
    assert (2 ^ 52 <= round_half_even (scaled_num a s) (scaled_den b s))
      by (apply round_half_even_ge; [done|]; apply Hbin).
    assert (2 ^ j <= 2 ^ (- s)) by (apply Z.pow_le_mono_r; lia). nia.
Qed.

Lemma int_truediv_unbounded b K : 0 < b -> exists T, forall a, T <= a -> K <= int_truediv a b.
Proof.
  intros Hb. set (j := Z.log2 (Z.max 1 K) + 1). pose proof (Z.log2_nonneg (Z.max 1 K)).
  pose proof (Z.log2_spec (Z.max 1 K) ltac:(lia)) as [_ Hj].
  assert (0 < 2 ^ j) by (apply Z.pow_pos_nonneg; lia).
  exists (2 ^ j * b). intros a Ha. assert (0 < a) by nia. unfold int_truediv.
  destruct (Z.eqb_spec a 0), (Z.ltb_spec a 0); try lia.
  pose proof (div_pos_pow2 a b j ltac:(lia) Hb Ha). unfold j, Z.succ in *. lia.
Qed.

(** * Python's floats

    A float is a double: the conversions, the rounding to two decimals and the printing that
    the payments of the fork use.  A finite float is [FFin m e], the value [m * 2^e]; the
    sign of a zero is not kept. *)
Open Scope string_scope.
Open Scope list_scope.
Open Scope Z_scope.
Open Scope py_scope.

(** ** The double nearest to a fraction *)

(** For positive [n] and [d]; [None] from 2^1024 on.  The exponent of the last place of a
    double is at least -1074. *)
Definition nearest (n d : Z) : option (Z * Z) :=
  let s := Z.min (scaling n d) 1074 in
  let m := round_half_even (scaled_num n s) (scaled_den d s) in
  let '(m, e) := if m =? 2 ^ 53 then (2 ^ 52, 1 - s) else (m, - s) in
  if 971 <? e then None else Some (m, e).

Definition float_of_frac (n d : Z) : pyfloat :=
  if n =? 0 then FFin 0 0
  else match nearest (Z.abs n) d with
       | Some (m, e) => if m =? 0 then FFin 0 0 else FFin (Z.sgn n * m) e
       | None => FInf (n <? 0)
       end.

(** The value of [FFin m e] is the fraction [fnum m e / fden e]. *)
Definition fnum (m e : Z) : Z := m * 2 ^ (Z.max 0 e).
Definition fden (e : Z) : Z := 2 ^ (Z.max 0 (- e)).

(** [float(n)] *)
Definition float_of_int (n : Z) : result pyfloat :=
  match float_of_frac n 1 with FInf _ => Err OverflowError | f => Ok f end.

Definition fpos (f : pyfloat) : bool :=
  match f with FFin m _ => 0 <? m | FInf neg => negb neg | FNaN => false end.

Definition finite (f : pyfloat) : bool := match f with FFin _ _ => true | _ => false end.

(** [x * y] of a float and a positive finite one *)
Definition fmul (x y : pyfloat) : pyfloat :=
  match x, y with
  | FFin m e, FFin m' e' => float_of_frac (fnum (m * m') (e + e')) (fden (e + e'))
  | _, _ => x
  end.

(** ** Two decimals *)

(** Hundredths, the nearest integer to them. *)
Definition hundredths (m e : Z) : Z := Z.sgn m * round_half_even (100 * Z.abs (fnum m e)) (fden e).

(** [round(f, 2)] *)
Definition round2 (f : pyfloat) : pyfloat :=
  match f with FFin m e => float_of_frac (hundredths m e) 100 | _ => f end.

Definition two_digits (n : Z) : string :=
  if n <? 10 then ("0" ++ str_of_int n)%string else str_of_int n.

(** [f"{f:.2f}"] *)
Definition format2 (f : pyfloat) : string :=
  match f with
  | FFin m e =>
      let h := Z.abs (hundredths m e) in
      ((if (m <? 0)%Z then "-" else "") ++ str_of_int (h / 100) ++ "." ++ two_digits (h mod 100))%string
  | FInf neg => if neg then "-inf" else "inf"
  | FNaN => "nan"
  end.

(** ** [float(s)] *)

(** The digits at the front, as a number with their count, and the rest; an underscore may
    stand between two digits. *)
Fixpoint float_digits (acc n : Z) (s : string) : Z * Z * string :=
  match s with
  | String a s' =>
      if is_digit a then float_digits (10 * acc + (chr_code a - 48)) (n + 1) s'
      else match a, s' with
           | "_"%char, String b s'' =>
               if (0 <? n) && is_digit b then float_digits (10 * acc + (chr_code b - 48)) (n + 1) s''
               else (acc, n, s)
           | _, _ => (acc, n, s)
           end
  | EmptyString => (acc, n, s)
  end.

(** The exponent after the digits. *)
Definition float_exponent (s : string) : option Z :=
  match s with
  | EmptyString => Some 0
  | String a s =>
      if negb (Ascii.eqb a "e" || Ascii.eqb a "E") then None
      else
        let '(neg, s) := match s with
                         | String "-" s => (true, s)
                         | String "+" s => (false, s)
                         | _ => (false, s)
                         end in
        let '(n, k, rest) := float_digits 0 0 s in
        if (k =? 0) || negb (String.eqb rest "") then None else Some (if neg then - n else n)
  end.

(** [acc] times a power of ten; [digits] is at least the number of digits of [acc]. *)
Definition scale10 (acc digits k : Z) : pyfloat :=
  if acc =? 0 then FFin 0 0
  else if 400 <? k then FInf false
  else if digits + k <? -400 then FFin 0 0
  else if 0 <=? k then float_of_frac (acc * 10 ^ k) 1 else float_of_frac acc (10 ^ (- k)).

Definition fneg (f : pyfloat) : pyfloat :=
  match f with FFin m e => FFin (- m) e | FInf neg => FInf (negb neg) | FNaN => FNaN end.

Definition unsigned_float (s : string) : option pyfloat :=
  let l := lower s in
  if bool_decide (l = "inf" \/ l = "infinity") then Some (FInf false)
  else if bool_decide (l = "nan") then Some FNaN
  else
    let '(whole, n, rest) := float_digits 0 0 s in
    let '(acc, k, rest) := match rest with
                           | String "." rest =>
                               (* digits after the point may not begin with an underscore *)
                               let '(frac, k, rest) := float_digits 0 0 rest in
                               (whole * 10 ^ k + frac, k, rest)
                           | _ => (whole, 0, rest)
                           end in
    if n + k =? 0 then None
    else match float_exponent rest with
         | Some e => Some (scale10 acc (n + k) (e - k))
         | None => None
         end.

Definition float_of_str (s : string) : result pyfloat :=
  let s := strip s in
  match (match s with
         | String "-" s => fneg <$> unsigned_float s
         | String "+" s => unsigned_float s
         | _ => unsigned_float s
         end) with
  | Some f => Ok f
  | None => Err ValueError
  end.

Example float_of_str_ex :
  map (fun s => match float_of_str s with Ok f => format2 f | Err _ => "error" end)
    ["299"; " 299.005 "; "1e3"; ".5"; "5."; "."; "1_0.2_5"; "1__0"; "-2.675"; "1e400"; "nan"; "0x1"; "1e-5"; "_1"; "1_"; "1e1_0"]
  = ["299.00"; "299.00"; "1000.00"; "0.50"; "5.00"; "error"; "10.25"; "error"; "-2.67"; "inf"; "nan"; "error";
     "0.00"; "error"; "error"; "10000000000.00"].
Proof. vm_compute. reflexivity. Qed.

Example round2_ex :
  map (fun s => match float_of_str s with Ok f => round2 f | Err _ => FNaN end) ["299"; "2.675"; "0.125"; "1e400"]
  = map (fun s => match float_of_str s with Ok f => f | Err _ => FNaN end) ["299"; "2.67"; "0.12"; "inf"].
Proof. vm_compute. reflexivity. Qed.

(** 269.1 is [round(299.0 * 0.9, 2)]. *)
Example fmul_ex : round2 (fmul (float_of_frac 299 1) (float_of_frac 9 10)) = float_of_frac 2691 10.
Proof. vm_compute. reflexivity. Qed.
