(* ===== verification/ReplicationCommands.v ===== *)
(** * ReplicationCommands: commands between the processes (replication/tcp/commands.py)

    A command is sent as a line, its name before its arguments.  The JSON codec of the standard
    library is the class [JsonCodec]; the server's encoder and decoder (util/json.py) refuse
    the numbers JSON does not have. *)
From S2P Require Import Prelude PyVal PyNumerals.
From Stdlib Require Import Ascii String.
Open Scope string_scope.
Open Scope list_scope.
Open Scope Z_scope.
Open Scope py_scope.

Class JsonCodec := {
  json_encode : json -> string;
  json_decode : string -> result json
}.

(** What is encoded is decoded to itself. *)
Class JsonCodecLaws `{JsonCodec} := json_decode_encode j : json_decode (json_encode j) = Ok j.

(** No [NaN] and no infinity. *)
Fixpoint json_finite (j : json) : bool :=
  match j with
  | JFloat (FInf _) | JFloat FNaN => false
  | JList l => forallb json_finite l
  | JObj kvs => forallb (fun kv => json_finite kv.2) kvs
  | _ => true
  end.

Section util_json.
Context `{JsonCodec}.

(** [json_encoder.encode], with [allow_nan=False] *)
Definition json_encoder_encode (j : json) : result string :=
  if json_finite j then Ok (json_encode j) else Err ValueError.

(** [json_decoder.decode], with [parse_constant=_reject_invalid_json] *)
Definition json_decoder_decode (s : string) : result json :=
  let* j := json_decode s in if json_finite j then Ok j else Err ValueError.

Lemma decoder_encoder `{!JsonCodecLaws} j s : json_encoder_encode j = Ok s -> json_decoder_decode s = Ok j.
Proof.
  unfold json_encoder_encode, json_decoder_decode. destruct (json_finite j) eqn:E; [|done]. intros [= <-].
  rewrite json_decode_encode. simpl. by rewrite E.
Qed.
End util_json.

(** What a row, an IP or a lock's name is after decoding is not checked. *)
Inductive command :=
  | ServerCommand (data : string)
  | RdataCommand (stream_name instance_name : string) (token : option Z) (row : json)
  | PositionCommand (stream_name instance_name : string) (prev_token new_token : Z)
  | ErrorCommand (data : string)
  | PingCommand (data : string)
  | NameCommand (data : string)
  | ReplicateCommand
  | UserSyncCommand (instance_id user_id : string) (device_id : option string) (is_syncing : bool)
      (last_sync_ms : Z)
  | FederationAckCommand (instance_name : string) (token : Z)
  | UserIpCommand (user_id : string) (access_token ip user_agent device_id last_seen : json)
  | RemoteServerUpCommand (data : string)
  | ClearUserSyncsCommand (instance_id : string)
  | LockReleasedCommand (instance_name lock_name lock_key : json)
  | NewActiveTaskCommand (data : string).

Definition command_name (c : command) : string :=
  match c with
  | ServerCommand _ => "SERVER"
  | RdataCommand _ _ _ _ => "RDATA"
  | PositionCommand _ _ _ _ => "POSITION"
  | ErrorCommand _ => "ERROR"
  | PingCommand _ => "PING"
  | NameCommand _ => "NAME"
  | ReplicateCommand => "REPLICATE"
  | UserSyncCommand _ _ _ _ _ => "USER_SYNC"
  | FederationAckCommand _ _ => "FEDERATION_ACK"
  | UserIpCommand _ _ _ _ _ _ => "USER_IP"
  | RemoteServerUpCommand _ => "REMOTE_SERVER_UP"
  | ClearUserSyncsCommand _ => "CLEAR_USER_SYNC"
  | LockReleasedCommand _ _ _ => "LOCK_RELEASED"
  | NewActiveTaskCommand _ => "NEW_ACTIVE_TASK"
  end.

Definition VALID_SERVER_COMMANDS : list string :=
  ["SERVER"; "RDATA"; "POSITION"; "ERROR"; "PING"; "REMOTE_SERVER_UP"; "LOCK_RELEASED"].
Definition VALID_CLIENT_COMMANDS : list string :=
  ["NAME"; "REPLICATE"; "PING"; "USER_SYNC"; "CLEAR_USER_SYNC"; "FEDERATION_ACK"; "USER_IP"; "ERROR";
   "REMOTE_SERVER_UP"; "LOCK_RELEASED"].

(** [s.split(c, n)] *)
Fixpoint split_max (c : ascii) (n : nat) (s : string) : list string :=
  match n with
  | O => [s]
  | S n => match split_once c s with
           | Some (a, rest) => a :: split_max c n rest
           | None => [s]
           end
  end.

(** [a, b, ... = value] for a JSON value: its items, if there are [n]. *)
Definition json_unpack (n : nat) (j : json) : result (list json) :=
  let check l := if (List.length l =? n)%nat then Ok l else Err ValueError in
  match j with
  | JList l => check l
  | JStr s => check (map (fun a => JStr (String a "")) (list_ascii_of_string s))
  | JObj o => check (map (fun kv => JStr kv.1) o)
  | _ => Err TypeError
  end.

Section codec.
Context `{JsonCodec}.

Definition to_line (c : command) : result string :=
  match c with
  | ServerCommand data | ErrorCommand data | PingCommand data | NameCommand data
  | RemoteServerUpCommand data | NewActiveTaskCommand data => Ok data
  | RdataCommand stream_name instance_name token row =>
      let* row_json := json_encoder_encode row in
      Ok (str_join " " [stream_name; instance_name;
                        match token with Some n => str_of_int n | None => "batch" end; row_json])
  | PositionCommand stream_name instance_name prev_token new_token =>
      Ok (str_join " " [stream_name; instance_name; str_of_int prev_token; str_of_int new_token])
  | ReplicateCommand => Ok ""
  | UserSyncCommand instance_id user_id device_id is_syncing last_sync_ms =>
      Ok (str_join " " [instance_id; user_id; match device_id with Some d => d | None => "None" end;
                        if is_syncing then "start" else "end"; str_of_int last_sync_ms])
  | FederationAckCommand instance_name token => Ok (str_join " " [instance_name; str_of_int token])
  | UserIpCommand user_id access_token ip user_agent device_id last_seen =>
      let* jsn := json_encoder_encode (JList [access_token; ip; user_agent; device_id; last_seen]) in
      Ok (str_join " " [user_id; jsn])
  | ClearUserSyncsCommand instance_id => Ok instance_id
  | LockReleasedCommand instance_name lock_name lock_key =>
      json_encoder_encode (JList [instance_name; lock_name; lock_key])
  end.

(** The line on the wire (replication/tcp/redis.py and protocol.py). *)
Definition command_line (c : command) : result string :=
  let* line := to_line c in Ok (command_name c ++ String " " line)%string.

Definition rdata_from_line (line : string) : result command :=
  match split_max " " 3 line with
  | [stream_name; instance_name; token; row_json] =>
      let* token := if bool_decide (token = "batch") then Ok None
                    else let* n := int_of_str token in Ok (Some n) in
      let* row := json_decoder_decode row_json in
      Ok (RdataCommand stream_name instance_name token row)
  | _ => Err ValueError
  end.

Definition position_from_line (line : string) : result command :=
  match split_max " " 3 line with
  | [stream_name; instance_name; prev_token; new_token] =>
      let* prev_token := int_of_str prev_token in
      let* new_token := int_of_str new_token in
      Ok (PositionCommand stream_name instance_name prev_token new_token)
  | _ => Err ValueError
  end.

Definition user_sync_from_line (line : string) : result command :=
  match split_max " " 4 line with
  | [instance_id; user_id; device_id; state; last_sync_ms] =>
      let device_id := if bool_decide (device_id = "None") then None else Some device_id in
      if negb (bool_decide (state ∈ ["start"; "end"])) then
        Err (PyException "Invalid USER_SYNC state")
      else
        let* last_sync_ms := int_of_str last_sync_ms in
        Ok (UserSyncCommand instance_id user_id device_id (bool_decide (state = "start")) last_sync_ms)
  | _ => Err ValueError
  end.

Definition federation_ack_from_line (line : string) : result command :=
  match split_all " " line with
  | [instance_name; token] =>
      let* token := int_of_str token in Ok (FederationAckCommand instance_name token)
  | _ => Err ValueError
  end.

Definition user_ip_from_line (line : string) : result command :=
  match split_max " " 1 line with
  | [user_id; jsn] =>
      let* decoded := json_decoder_decode jsn in
      let* fields := json_unpack 5 decoded in
      match fields with
      | [access_token; ip; user_agent; device_id; last_seen] =>
          Ok (UserIpCommand user_id access_token ip user_agent device_id last_seen)
      | _ => Err ValueError
      end
  | _ => Err ValueError
  end.

Definition lock_released_from_line (line : string) : result command :=
  let* decoded := json_decoder_decode line in
  let* fields := json_unpack 3 decoded in
  match fields with
  | [instance_name; lock_name; lock_key] => Ok (LockReleasedCommand instance_name lock_name lock_key)
  | _ => Err ValueError
  end.

(** [COMMAND_MAP\[name\].from_line(line)] *)
Definition from_line (name line : string) : result command :=
  if bool_decide (name = "SERVER") then Ok (ServerCommand line)
  else if bool_decide (name = "RDATA") then rdata_from_line line
  else if bool_decide (name = "POSITION") then position_from_line line
  else if bool_decide (name = "ERROR") then Ok (ErrorCommand line)
  else if bool_decide (name = "PING") then Ok (PingCommand line)
  else if bool_decide (name = "NAME") then Ok (NameCommand line)
  else if bool_decide (name = "REPLICATE") then Ok ReplicateCommand
  else if bool_decide (name = "USER_SYNC") then user_sync_from_line line
  else if bool_decide (name = "FEDERATION_ACK") then federation_ack_from_line line
  else if bool_decide (name = "USER_IP") then user_ip_from_line line
  else if bool_decide (name = "REMOTE_SERVER_UP") then Ok (RemoteServerUpCommand line)
  else if bool_decide (name = "CLEAR_USER_SYNC") then Ok (ClearUserSyncsCommand line)
  else if bool_decide (name = "LOCK_RELEASED") then lock_released_from_line line
  else if bool_decide (name = "NEW_ACTIVE_TASK") then Ok (NewActiveTaskCommand line)
  else Err KeyError.

Definition parse_command_from_line (line : string) : result command :=
  match split_once " " line with
  | Some (cmd_name, rest_of_line) => from_line cmd_name rest_of_line
  | None => from_line line ""
  end.
End codec.

(** * A command comes through as it was sent *)

Lemma str_join_cons c s l : l <> [] ->
  str_join (String c "") (s :: l) = (s ++ String c (str_join (String c "") l))%string.
Proof. by destruct l. Qed.

(** Parts of which all but the last hold no separator. *)
Lemma split_max_join c l last :
  Forall (fun s => without c s = true) l ->
  split_max c (List.length l) (str_join (String c "") (l ++ [last])) = l ++ [last].
Proof.
  induction 1 as [|s l Hs Hl IH]; [done|]. cbn [List.length split_max app].
  rewrite str_join_cons by (by destruct l). rewrite split_once_app by done. by rewrite IH.
Qed.

Lemma split_max_parts c n front last l :
  l = front ++ [last] -> n = List.length front -> Forall (fun s => without c s = true) front ->
  split_max c n (str_join (String c "") l) = l.
Proof. intros -> ->. apply split_max_join. Qed.

(** ** Commands that the wire can carry *)

Abbreviation spaceless s := (without " " s = true).

(** Names and IDs hold no space; a device is not called [None]. *)
Definition sendable (c : command) : Prop :=
  match c with
  | RdataCommand stream_name instance_name _ _ => spaceless stream_name /\ spaceless instance_name
  | PositionCommand stream_name instance_name _ _ => spaceless stream_name /\ spaceless instance_name
  | UserSyncCommand instance_id user_id device_id _ _ =>
      spaceless instance_id /\ spaceless user_id /\
      match device_id with Some d => spaceless d /\ d <> "None" | None => True end
  | FederationAckCommand instance_name _ => spaceless instance_name
  | UserIpCommand user_id _ _ _ _ _ => spaceless user_id
  | _ => True
  end.

Lemma int_spaceless n : spaceless (str_of_int n).
Proof. by apply without_int. Qed.

Lemma int_not_batch n : str_of_int n <> "batch".
Proof. intros E. pose proof (str_of_int_chars n) as Hc. rewrite E in Hc. by vm_compute in Hc. Qed.

Section codec.
Context `{JsonCodecLaws}.

Lemma rdata_roundtrip stream_name instance_name token row line :
  spaceless stream_name -> spaceless instance_name ->
  to_line (RdataCommand stream_name instance_name token row) = Ok line ->
  rdata_from_line line = Ok (RdataCommand stream_name instance_name token row).
Proof.
  intros H1 H2. unfold rdata_from_line, to_line. destruct (json_encoder_encode row) as [row_json|] eqn:Er; [|done].
  apply decoder_encoder in Er. cbn [rbind]. intros <-%Ok_inj. set (t := match token with Some n => _ | None => _ end).
  assert (Ht : spaceless t) by (subst t; destruct token; [apply int_spaceless|done]).
  rewrite (split_max_parts _ _ [stream_name; instance_name; t] row_json) by (done || by repeat constructor).
  subst t. destruct token as [n|].
  - rewrite bool_decide_eq_false_2 by apply int_not_batch. rewrite int_of_str_of_int. cbn [rbind].
    by rewrite Er.
  - rewrite bool_decide_eq_true_2 by done. cbn [rbind]. by rewrite Er.
Qed.

Lemma position_roundtrip stream_name instance_name prev_token new_token line :
  spaceless stream_name -> spaceless instance_name ->
  to_line (PositionCommand stream_name instance_name prev_token new_token) = Ok line ->
  position_from_line line = Ok (PositionCommand stream_name instance_name prev_token new_token).
Proof.
  intros H1 H2. unfold position_from_line, to_line. intros <-%Ok_inj.
  rewrite (split_max_parts _ _ [stream_name; instance_name; str_of_int prev_token] (str_of_int new_token))
    by (done || (repeat constructor; [done|done|apply int_spaceless])). by rewrite !int_of_str_of_int.
Qed.

Lemma user_sync_roundtrip instance_id user_id device_id is_syncing last_sync_ms line :
  spaceless instance_id -> spaceless user_id ->
  match device_id with Some d => spaceless d /\ d <> "None" | None => True end ->
  to_line (UserSyncCommand instance_id user_id device_id is_syncing last_sync_ms) = Ok line ->
  user_sync_from_line line = Ok (UserSyncCommand instance_id user_id device_id is_syncing last_sync_ms).
Proof.
  intros H1 H2 H3. unfold user_sync_from_line, to_line. intros <-%Ok_inj.
  set (d := match device_id with Some d => d | None => "None" end).
  assert (Hd : spaceless d) by (subst d; destruct device_id; [apply H3|done]).
  set (b := if is_syncing then "start" else "end").
  assert (Hb : spaceless b) by (subst b; by destruct is_syncing).
  rewrite (split_max_parts _ _ [instance_id; user_id; d; b] (str_of_int last_sync_ms)) by (done || by repeat constructor).
  rewrite bool_decide_eq_true_2 by (subst b; destruct is_syncing; set_solver). simpl.
  rewrite int_of_str_of_int. simpl. subst b d. f_equal. f_equal.
  - destruct device_id as [d|]; [|done]. by rewrite bool_decide_eq_false_2 by apply H3.
  - by destruct is_syncing.
Qed.

Lemma federation_ack_roundtrip instance_name token line : spaceless instance_name ->
  to_line (FederationAckCommand instance_name token) = Ok line ->
  federation_ack_from_line line = Ok (FederationAckCommand instance_name token).
Proof.
  intros H1. unfold federation_ack_from_line, to_line. intros <-%Ok_inj.
  rewrite split_all_join; [|done|by repeat constructor; [|apply int_spaceless]].
  by rewrite int_of_str_of_int.
Qed.

Lemma user_ip_roundtrip user_id access_token ip user_agent device_id last_seen line : spaceless user_id ->
  to_line (UserIpCommand user_id access_token ip user_agent device_id last_seen) = Ok line ->
  user_ip_from_line line = Ok (UserIpCommand user_id access_token ip user_agent device_id last_seen).
Proof.
  intros H1. unfold user_ip_from_line, to_line. destruct (json_encoder_encode _) as [jsn|] eqn:Ej; [|done].
  apply decoder_encoder in Ej. cbn [rbind]. intros <-%Ok_inj.
  rewrite (split_max_parts _ _ [user_id] jsn) by (done || by repeat constructor). by rewrite Ej.
Qed.

Lemma from_line_to_line c line : sendable c -> to_line c = Ok line -> from_line (command_name c) line = Ok c.
Proof.
  intros Hc Hl. destruct c; unfold sendable in Hc; cbn [command_name];
    try (apply Ok_inj in Hl as <-; reflexivity);
    [apply rdata_roundtrip; [apply Hc|apply Hc|done] | apply position_roundtrip; [apply Hc|apply Hc|done]
    | apply user_sync_roundtrip; [apply Hc|apply Hc|apply Hc|done]
    | by apply federation_ack_roundtrip | by apply user_ip_roundtrip |].
  cbv [from_line]. simpl. unfold lock_released_from_line. by rewrite (decoder_encoder _ _ Hl).
Qed.

(** The values a command holds. *)
Definition values_of (c : command) : list json :=
  match c with
  | RdataCommand _ _ _ row => [row]
  | UserIpCommand _ access_token ip user_agent device_id last_seen =>
      [access_token; ip; user_agent; device_id; last_seen]
  | LockReleasedCommand instance_name lock_name lock_key => [instance_name; lock_name; lock_key]
  | _ => []
  end.

Lemma to_line_spec c :
  if forallb json_finite (values_of c) then is_ok (to_line c) = true else to_line c = Err ValueError.
Proof.
  destruct c; try done; cbn [to_line values_of]; unfold json_encoder_encode; cbn [json_finite forallb].
  - by destruct (json_finite row).
  - by destruct (_ && _).
  - by destruct (_ && _).
Qed.

(** C40: a command that is sent as a line is read back as it was, as long as its names and IDs hold
    no space and no device is called "None"; so no two such commands have the same line.  A
    command that holds a number JSON does not have is not sent. *)
Theorem command_roundtrip c : sendable c ->
  if forallb json_finite (values_of c)
  then exists line, command_line c = Ok line /\ parse_command_from_line line = Ok c
  else command_line c = Err ValueError.
Proof.
  intros Hc. unfold command_line. pose proof (to_line_spec c) as Ht.
  destruct (forallb json_finite (values_of c)); [|by rewrite Ht].
  destruct (to_line c) as [line|] eqn:El; [|done]. eexists. split; [reflexivity|].
  unfold parse_command_from_line. rewrite split_once_app by (by destruct c). by apply from_line_to_line.
Qed.
End codec.

(** ** A codec that has the law: a JSON value as a numeral *)

Abbreviation leaf := (Z * (Z * string))%type.

Fixpoint tree_of_json (j : json) : gen_tree leaf :=
  match j with
  | JNull => GenLeaf (0, (0, ""))
  | JBool b => GenLeaf (1, (if b then 1 else 0, ""))
  | JInt n => GenLeaf (2, (n, ""))
  | JFloat (FFin m e) => GenNode 1 [GenLeaf (0, (m, "")); GenLeaf (0, (e, ""))]
  | JFloat (FInf b) => GenLeaf (3, (if b then 1 else 0, ""))
  | JFloat FNaN => GenLeaf (4, (0, ""))
  | JStr s => GenLeaf (5, (0, s))
  | JList l => GenNode 2 (map tree_of_json l)
  | JObj kvs => GenNode 3 (map (fun kv => GenNode 4 [GenLeaf (5, (0, kv.1)); tree_of_json kv.2]) kvs)
  end.

Fixpoint json_of_tree (t : gen_tree leaf) : json :=
  match t with
  | GenLeaf (k, (n, s)) =>
      if k =? 1 then JBool (n =? 1) else if k =? 2 then JInt n
      else if k =? 3 then JFloat (FInf (n =? 1)) else if k =? 4 then JFloat FNaN
      else if k =? 5 then JStr s else JNull
  | GenNode 1%nat [GenLeaf (_, (m, _)); GenLeaf (_, (e, _))] => JFloat (FFin m e)
  | GenNode 2%nat l => JList (map json_of_tree l)
  | GenNode 3%nat l => JObj (map (fun t => match t with
                                        | GenNode _ [GenLeaf (_, (_, k)); v] => (k, json_of_tree v)
                                        | _ => ("", JNull)
                                        end) l)
  | GenNode _ _ => JNull
  end.

Lemma json_tree : forall j, json_of_tree (tree_of_json j) = j.
Proof.
  fix IH 1. intros [|[]|n|[m e|[]|]|s|l|kvs]; simpl; try done; f_equal.
  - induction l as [|j l IHl]; simpl; [done|]. by rewrite IH, IHl.
  - induction kvs as [|[k v] kvs IHl]; simpl; [done|]. by rewrite IH, IHl.
Qed.

#[local] Instance numeral_codec : JsonCodec := {|
  json_encode j := str_of_int (Z.pos (encode (tree_of_json j)));
  json_decode s :=
    let* n := int_of_str s in
    match n with
    | Z.pos p => match decode p with Some t => Ok (json_of_tree t) | None => Err ValueError end
    | _ => Err ValueError
    end
|}.

#[local] Instance numeral_codec_laws : JsonCodecLaws.
Proof. intros j. simpl. rewrite int_of_str_of_int. simpl. by rewrite decode_encode, json_tree. Qed.

Lemma command_roundtrip_witness :
  parse_command_from_line "USER_SYNC worker1 @a:h D start 1700000000000"
    = Ok (UserSyncCommand "worker1" "@a:h" (Some "D") true 1700000000000) /\
  (exists line, command_line (RdataCommand "presence" "w" None (JList [JStr "@a:h"])) = Ok line /\
    parse_command_from_line line = Ok (RdataCommand "presence" "w" None (JList [JStr "@a:h"]))) /\
  command_line (RdataCommand "presence" "w" (Some 3) (JList [JFloat FNaN])) = Err ValueError.
Proof.
  split; [vm_compute; reflexivity|]. split.
  - apply (command_roundtrip (RdataCommand "presence" "w" None (JList [JStr "@a:h"]))). split; reflexivity.
  - apply (command_roundtrip (RdataCommand "presence" "w" (Some 3) (JList [JFloat FNaN]))). split; reflexivity.
Defined.

(** A device that is called "None" is taken for no device. *)
Example device_called_none :
  rbind (command_line (UserSyncCommand "w" "@a:h" (Some "None") true 5)) parse_command_from_line
    = Ok (UserSyncCommand "w" "@a:h" None true 5).
Proof. vm_compute. reflexivity. Qed.
