(* ===== verification/RoomVersionTable.v ===== *)
(** * RoomVersionTable: the room version table (api/room_versions.py)

    The record of a room version's attributes, the table of every version the server
    defines, and [KNOWN_ROOM_VERSIONS], the dictionary of those it accepts. *)
From S2P Require Import Prelude PyVal.
Open Scope string_scope.
Open Scope list_scope.
Open Scope Z_scope.

(** ** [class EventFormatVersions], [class StateResolutionVersions] *)

Module EventFormatVersions.
Definition ROOM_V1_V2 : Z := 1.
Definition ROOM_V3 : Z := 2.
Definition ROOM_V4_PLUS : Z := 3.
Definition ROOM_V11_HYDRA_PLUS : Z := 4.
End EventFormatVersions.

Module StateResolutionVersions.
Definition V1 : Z := 1.
Definition V2 : Z := 2.
Definition V2_1 : Z := 3.
End StateResolutionVersions.

Definition KNOWN_EVENT_FORMAT_VERSIONS : list Z :=
  [EventFormatVersions.ROOM_V1_V2; EventFormatVersions.ROOM_V3;
   EventFormatVersions.ROOM_V4_PLUS; EventFormatVersions.ROOM_V11_HYDRA_PLUS].

Module RoomDisposition.
Definition STABLE : string := "stable".
Definition UNSTABLE : string := "unstable".
End RoomDisposition.

Module PushRuleRoomFlag.
Definition EXTENSIBLE_EVENTS : string := "org.matrix.msc3932.extensible_events".
End PushRuleRoomFlag.

(** ** [class RoomVersion] *)
Record RoomVersion := {
  identifier : string;
  disposition : string;
  event_format : Z;
  state_res : Z;
  enforce_key_validity : bool;
  special_case_aliases_auth : bool;
  strict_canonicaljson : bool;
  limit_notifications_power_levels : bool;
  implicit_room_creator : bool;
  updated_redaction_rules : bool;
  restricted_join_rule : bool;
  restricted_join_rule_fix : bool;
  knock_join_rule : bool;
  msc3389_relation_redactions : bool;
  knock_restricted_join_rule : bool;
  enforce_int_power_levels : bool;
  msc3931_push_features : list string;
  msc3757_enabled : bool;
  msc4289_creator_power_enabled : bool;
  msc4291_room_ids_as_hashes : bool
}.

#[global] Instance RoomVersion_eq_dec : EqDecision RoomVersion.
Proof. solve_decision. Defined.

(** ** [class RoomVersions] *)
Module RoomVersions.
Definition V1 : RoomVersion := {|
  identifier := "1";
  disposition := RoomDisposition.STABLE;
  event_format := EventFormatVersions.ROOM_V1_V2;
  state_res := StateResolutionVersions.V1;
  enforce_key_validity := false;
  special_case_aliases_auth := true;
  strict_canonicaljson := false;
  limit_notifications_power_levels := false;
  implicit_room_creator := false;
  updated_redaction_rules := false;
  restricted_join_rule := false;
  restricted_join_rule_fix := false;
  knock_join_rule := false;
  msc3389_relation_redactions := false;
  knock_restricted_join_rule := false;
  enforce_int_power_levels := false;
  msc3931_push_features := [];
  msc3757_enabled := false;
  msc4289_creator_power_enabled := false;
  msc4291_room_ids_as_hashes := false |}.

Definition V2 : RoomVersion := {|
  identifier := "2";
  disposition := RoomDisposition.STABLE;
  event_format := EventFormatVersions.ROOM_V1_V2;
  state_res := StateResolutionVersions.V2;
  enforce_key_validity := false;
  special_case_aliases_auth := true;
  strict_canonicaljson := false;
  limit_notifications_power_levels := false;
  implicit_room_creator := false;
  updated_redaction_rules := false;
  restricted_join_rule := false;
  restricted_join_rule_fix := false;
  knock_join_rule := false;
  msc3389_relation_redactions := false;
  knock_restricted_join_rule := false;
  enforce_int_power_levels := false;
  msc3931_push_features := [];
  msc3757_enabled := false;
  msc4289_creator_power_enabled := false;
  msc4291_room_ids_as_hashes := false |}.

Definition V3 : RoomVersion := {|
  identifier := "3";
  disposition := RoomDisposition.STABLE;
  event_format := EventFormatVersions.ROOM_V3;
  state_res := StateResolutionVersions.V2;
  enforce_key_validity := false;
  special_case_aliases_auth := true;
  strict_canonicaljson := false;
  limit_notifications_power_levels := false;
  implicit_room_creator := false;
  updated_redaction_rules := false;
  restricted_join_rule := false;
  restricted_join_rule_fix := false;
  knock_join_rule := false;
  msc3389_relation_redactions := false;
  knock_restricted_join_rule := false;
  enforce_int_power_levels := false;
  msc3931_push_features := [];
  msc3757_enabled := false;
  msc4289_creator_power_enabled := false;
  msc4291_room_ids_as_hashes := false |}.

Definition V4 : RoomVersion := {|
  identifier := "4";
  disposition := RoomDisposition.STABLE;
  event_format := EventFormatVersions.ROOM_V4_PLUS;
  state_res := StateResolutionVersions.V2;
  enforce_key_validity := false;
  special_case_aliases_auth := true;
  strict_canonicaljson := false;
  limit_notifications_power_levels := false;
  implicit_room_creator := false;
  updated_redaction_rules := false;
  restricted_join_rule := false;
  restricted_join_rule_fix := false;
  knock_join_rule := false;
  msc3389_relation_redactions := false;
  knock_restricted_join_rule := false;
  enforce_int_power_levels := false;
  msc3931_push_features := [];
  msc3757_enabled := false;
  msc4289_creator_power_enabled := false;
  msc4291_room_ids_as_hashes := false |}.

Definition V5 : RoomVersion := {|
  identifier := "5";
  disposition := RoomDisposition.STABLE;
  event_format := EventFormatVersions.ROOM_V4_PLUS;
  state_res := StateResolutionVersions.V2;
  enforce_key_validity := true;
  special_case_aliases_auth := true;
  strict_canonicaljson := false;
  limit_notifications_power_levels := false;
  implicit_room_creator := false;
  updated_redaction_rules := false;
  restricted_join_rule := false;
  restricted_join_rule_fix := false;
  knock_join_rule := false;
  msc3389_relation_redactions := false;
  knock_restricted_join_rule := false;
  enforce_int_power_levels := false;
  msc3931_push_features := [];
  msc3757_enabled := false;
  msc4289_creator_power_enabled := false;
  msc4291_room_ids_as_hashes := false |}.

Definition V6 : RoomVersion := {|
  identifier := "6";
  disposition := RoomDisposition.STABLE;
  event_format := EventFormatVersions.ROOM_V4_PLUS;
  state_res := StateResolutionVersions.V2;
  enforce_key_validity := true;
  special_case_aliases_auth := false;
  strict_canonicaljson := true;
  limit_notifications_power_levels := true;
  implicit_room_creator := false;
  updated_redaction_rules := false;
  restricted_join_rule := false;
  restricted_join_rule_fix := false;
  knock_join_rule := false;
  msc3389_relation_redactions := false;
  knock_restricted_join_rule := false;
  enforce_int_power_levels := false;
  msc3931_push_features := [];
  msc3757_enabled := false;
  msc4289_creator_power_enabled := false;
  msc4291_room_ids_as_hashes := false |}.

Definition V7 : RoomVersion := {|
  identifier := "7";
  disposition := RoomDisposition.STABLE;
  event_format := EventFormatVersions.ROOM_V4_PLUS;
  state_res := StateResolutionVersions.V2;
  enforce_key_validity := true;
  special_case_aliases_auth := false;
  strict_canonicaljson := true;
  limit_notifications_power_levels := true;
  implicit_room_creator := false;
  updated_redaction_rules := false;
  restricted_join_rule := false;
  restricted_join_rule_fix := false;
  knock_join_rule := true;
  msc3389_relation_redactions := false;
  knock_restricted_join_rule := false;
  enforce_int_power_levels := false;
  msc3931_push_features := [];
  msc3757_enabled := false;
  msc4289_creator_power_enabled := false;
  msc4291_room_ids_as_hashes := false |}.

Definition V8 : RoomVersion := {|
  identifier := "8";
  disposition := RoomDisposition.STABLE;
  event_format := EventFormatVersions.ROOM_V4_PLUS;
  state_res := StateResolutionVersions.V2;
  enforce_key_validity := true;
  special_case_aliases_auth := false;
  strict_canonicaljson := true;
  limit_notifications_power_levels := true;
  implicit_room_creator := false;
  updated_redaction_rules := false;
  restricted_join_rule := true;
  restricted_join_rule_fix := false;
  knock_join_rule := true;
  msc3389_relation_redactions := false;
  knock_restricted_join_rule := false;
  enforce_int_power_levels := false;
  msc3931_push_features := [];
  msc3757_enabled := false;
  msc4289_creator_power_enabled := false;
  msc4291_room_ids_as_hashes := false |}.

Definition V9 : RoomVersion := {|
  identifier := "9";
  disposition := RoomDisposition.STABLE;
  event_format := EventFormatVersions.ROOM_V4_PLUS;
  state_res := StateResolutionVersions.V2;
  enforce_key_validity := true;
  special_case_aliases_auth := false;
  strict_canonicaljson := true;
  limit_notifications_power_levels := true;
  implicit_room_creator := false;
  updated_redaction_rules := false;
  restricted_join_rule := true;
  restricted_join_rule_fix := true;
  knock_join_rule := true;
  msc3389_relation_redactions := false;
  knock_restricted_join_rule := false;
  enforce_int_power_levels := false;
  msc3931_push_features := [];
  msc3757_enabled := false;
  msc4289_creator_power_enabled := false;
  msc4291_room_ids_as_hashes := false |}.

Definition V10 : RoomVersion := {|
  identifier := "10";
  disposition := RoomDisposition.STABLE;
  event_format := EventFormatVersions.ROOM_V4_PLUS;
  state_res := StateResolutionVersions.V2;
  enforce_key_validity := true;
  special_case_aliases_auth := false;
  strict_canonicaljson := true;
  limit_notifications_power_levels := true;
  implicit_room_creator := false;
  updated_redaction_rules := false;
  restricted_join_rule := true;
  restricted_join_rule_fix := true;
  knock_join_rule := true;
  msc3389_relation_redactions := false;
  knock_restricted_join_rule := true;
  enforce_int_power_levels := true;
  msc3931_push_features := [];
  msc3757_enabled := false;
  msc4289_creator_power_enabled := false;
  msc4291_room_ids_as_hashes := false |}.

Definition MSC1767v10 : RoomVersion := {|
  identifier := "org.matrix.msc1767.10";
  disposition := RoomDisposition.UNSTABLE;
  event_format := EventFormatVersions.ROOM_V4_PLUS;
  state_res := StateResolutionVersions.V2;
  enforce_key_validity := true;
  special_case_aliases_auth := false;
  strict_canonicaljson := true;
  limit_notifications_power_levels := true;
  implicit_room_creator := false;
  updated_redaction_rules := false;
  restricted_join_rule := true;
  restricted_join_rule_fix := true;
  knock_join_rule := true;
  msc3389_relation_redactions := false;
  knock_restricted_join_rule := true;
  enforce_int_power_levels := true;
  msc3931_push_features := [PushRuleRoomFlag.EXTENSIBLE_EVENTS];
  msc3757_enabled := false;
  msc4289_creator_power_enabled := false;
  msc4291_room_ids_as_hashes := false |}.

Definition MSC3757v10 : RoomVersion := {|
  identifier := "org.matrix.msc3757.10";
  disposition := RoomDisposition.UNSTABLE;
  event_format := EventFormatVersions.ROOM_V4_PLUS;
  state_res := StateResolutionVersions.V2;
  enforce_key_validity := true;
  special_case_aliases_auth := false;
  strict_canonicaljson := true;
  limit_notifications_power_levels := true;
  implicit_room_creator := false;
  updated_redaction_rules := false;
  restricted_join_rule := true;
  restricted_join_rule_fix := true;
  knock_join_rule := true;
  msc3389_relation_redactions := false;
  knock_restricted_join_rule := true;
  enforce_int_power_levels := true;
  msc3931_push_features := [];
  msc3757_enabled := true;
  msc4289_creator_power_enabled := false;
  msc4291_room_ids_as_hashes := false |}.

Definition V11 : RoomVersion := {|
  identifier := "11";
  disposition := RoomDisposition.STABLE;
  event_format := EventFormatVersions.ROOM_V4_PLUS;
  state_res := StateResolutionVersions.V2;
  enforce_key_validity := true;
  special_case_aliases_auth := false;
  strict_canonicaljson := true;
  limit_notifications_power_levels := true;
  implicit_room_creator := true;
  updated_redaction_rules := true;
  restricted_join_rule := true;
  restricted_join_rule_fix := true;
  knock_join_rule := true;
  msc3389_relation_redactions := false;
  knock_restricted_join_rule := true;
  enforce_int_power_levels := true;
  msc3931_push_features := [];
  msc3757_enabled := false;
  msc4289_creator_power_enabled := false;
  msc4291_room_ids_as_hashes := false |}.

Definition MSC3757v11 : RoomVersion := {|
  identifier := "org.matrix.msc3757.11";
  disposition := RoomDisposition.UNSTABLE;
  event_format := EventFormatVersions.ROOM_V4_PLUS;
  state_res := StateResolutionVersions.V2;
  enforce_key_validity := true;
  special_case_aliases_auth := false;
  strict_canonicaljson := true;
  limit_notifications_power_levels := true;
  implicit_room_creator := true;
  updated_redaction_rules := true;
  restricted_join_rule := true;
  restricted_join_rule_fix := true;
  knock_join_rule := true;
  msc3389_relation_redactions := false;
  knock_restricted_join_rule := true;
  enforce_int_power_levels := true;
  msc3931_push_features := [];
  msc3757_enabled := true;
  msc4289_creator_power_enabled := false;
  msc4291_room_ids_as_hashes := false |}.

Definition HydraV11 : RoomVersion := {|
  identifier := "org.matrix.hydra.11";
  disposition := RoomDisposition.UNSTABLE;
  event_format := EventFormatVersions.ROOM_V11_HYDRA_PLUS;
  state_res := StateResolutionVersions.V2_1;
  enforce_key_validity := true;
  special_case_aliases_auth := false;
  strict_canonicaljson := true;
  limit_notifications_power_levels := true;
  implicit_room_creator := true;
  updated_redaction_rules := true;
  restricted_join_rule := true;
  restricted_join_rule_fix := true;
  knock_join_rule := true;
  msc3389_relation_redactions := false;
  knock_restricted_join_rule := true;
  enforce_int_power_levels := true;
  msc3931_push_features := [];
  msc3757_enabled := false;
  msc4289_creator_power_enabled := true;
  msc4291_room_ids_as_hashes := true |}.

Definition V12 : RoomVersion := {|
  identifier := "12";
  disposition := RoomDisposition.STABLE;
  event_format := EventFormatVersions.ROOM_V11_HYDRA_PLUS;
  state_res := StateResolutionVersions.V2_1;
  enforce_key_validity := true;
  special_case_aliases_auth := false;
  strict_canonicaljson := true;
  limit_notifications_power_levels := true;
  implicit_room_creator := true;
  updated_redaction_rules := true;
  restricted_join_rule := true;
  restricted_join_rule_fix := true;
  knock_join_rule := true;
  msc3389_relation_redactions := false;
  knock_restricted_join_rule := true;
  enforce_int_power_levels := true;
  msc3931_push_features := [];
  msc3757_enabled := false;
  msc4289_creator_power_enabled := true;
  msc4291_room_ids_as_hashes := true |}.

End RoomVersions.

(** ** [KNOWN_ROOM_VERSIONS] *)
Definition KNOWN_ROOM_VERSIONS : list (string * RoomVersion) :=
  map (fun v => (identifier v, v))
    [RoomVersions.V1;
     RoomVersions.V2;
     RoomVersions.V3;
     RoomVersions.V4;
     RoomVersions.V5;
     RoomVersions.V6;
     RoomVersions.V7;
     RoomVersions.V8;
     RoomVersions.V9;
     RoomVersions.V10;
     RoomVersions.V11;
     RoomVersions.V12;
     RoomVersions.MSC3757v10;
     RoomVersions.MSC3757v11;
     RoomVersions.HydraV11].

(** ** [MSC3244_CAPABILITIES] *)
Record RoomVersionCapability := {
  cap_identifier : string;
  preferred_version : option RoomVersion;
  support_check_lambda : RoomVersion -> bool
}.

(** The value of each capability: its preferred version and the versions that support it. *)
Record CapabilityInfo := { preferred : option string; support : list string }.

Definition capability_info (cap : RoomVersionCapability) : string * CapabilityInfo :=
  (cap_identifier cap,
   {| preferred := identifier <$> preferred_version cap;
      support := map identifier
                   (filter (fun v => support_check_lambda cap v = true)
                      (dvals KNOWN_ROOM_VERSIONS)) |}).

Definition MSC3244_CAPABILITIES : list (string * CapabilityInfo) :=
  map capability_info
    [ {| cap_identifier := "knock"; preferred_version := Some RoomVersions.V7;
         support_check_lambda := knock_join_rule |};
      {| cap_identifier := "restricted"; preferred_version := Some RoomVersions.V9;
         support_check_lambda := restricted_join_rule |} ].
