(* ===== verification/Identifiers.v ===== *)
(** * Identifiers: Matrix identifiers and server names

    [types/__init__.py] (domain-specific strings, room IDs, MXID localparts) and the
    parsing helpers of [util/stringutils.py] they rest on.  [valid_ipv6] of the netaddr
    package is a parameter. *)
From S2P Require Import Prelude PyVal.
From Stdlib Require Import Ascii String.
Open Scope string_scope.
Open Scope list_scope.
Open Scope Z_scope.
Open Scope py_scope.

(** netaddr: [valid_ipv6(addr)] for a non-empty address. *)
Class Netaddr := valid_ipv6 : string -> bool.

(** ** util/stringutils.py *)

(** Does the string split as one or more labels of [\[0-9a-zA-Z-\]+] joined by dots?
    [VALID_HOST_REGEX]. *)
Definition is_host_char (a : ascii) : bool := is_alnum a || Ascii.eqb a "-".

Definition valid_host (s : string) : bool :=
  forallb (fun l => negb (String.eqb l "") && str_all is_host_char l) (split_all "." s).

(** The end anchor [$] of Python's [re] also matches before one final newline. *)
Definition strip_final_newline (s : string) : string :=
  match str_last s with
  | Some a => if Ascii.eqb a "010" then str_droplast s else s
  | None => s
  end.

(** [re.match("^C{lo,hi}$", s)] for a character class [C] without the newline. *)
Definition matches_class (p : ascii -> bool) (lo : Z) (hi : option Z) (s : string) : bool :=
  let t := strip_final_newline s in
  str_all p t && (lo <=? str_len t) && match hi with Some h => str_len t <=? h | None => true end.

Definition is_ascii (s : string) : bool := str_all (fun a => chr_code a <? 128) s.

Definition is_namedspaced_grammar (s : string) : bool :=
  let t := strip_final_newline s in
  match t with
  | String a t' =>
      is_lower a
      && str_all (fun c => is_lower c || is_digit c || Ascii.eqb c "_" || Ascii.eqb c "."
                           || Ascii.eqb c "-") t'
      && (str_len t' <=? 254)
  | EmptyString => false
  end.

Definition assert_valid_client_secret (client_secret : string) : result unit :=
  if (utf8_len client_secret <=? 0) || (255 <? utf8_len client_secret)
     || negb (matches_class
                (fun c => is_alnum c || Ascii.eqb c "." || Ascii.eqb c "=" || Ascii.eqb c "_"
                          || Ascii.eqb c "-") 1 None client_secret)
  then Err (SynapseError 400 "Invalid client_secret parameter" "M_INVALID_PARAM")
  else Ok tt.

Definition parse_server_name (server_name : string) : result (string * option Z) :=
  match str_last server_name with
  | Some "]"%char => Ok (server_name, None)
  | _ =>
      match rsplit_once ":" server_name with
      | None => Ok (server_name, None)
      | Some (domain, port) =>
          match int_of_str port with
          | Ok port => Ok (domain, Some port)
          | Err _ => Err ValueError
          end
      end
  end.

Definition parse_and_validate_server_name `{Netaddr} (server_name : string)
    : result (string * option Z) :=
  let* (host, port) := parse_server_name server_name in
  match str_head host with
  | Some "["%char =>
      match str_last host with
      | Some "]"%char =>
          let ipv6_address := str_droplast (str_tail host) in
          if String.eqb ipv6_address "" || negb (valid_ipv6 ipv6_address) then Err ValueError
          else Ok (host, port)
      | _ => Err ValueError
      end
  | _ => if negb (valid_host host) then Err ValueError else Ok (host, port)
  end.

Definition valid_id_server_location `{Netaddr} (id_server : string) : bool :=
  let '(host, path) :=
    match split_once "/" id_server with
    | Some (h, p) => (h, Some p)
    | None => (id_server, None)
    end in
  match parse_and_validate_server_name host with
  | Err ValueError => false
  | Err _ => false
  | Ok _ =>
      match path with
      | None => true
      | Some path => negb (has_substring "#" path) && negb (has_substring "?" path)
      end
  end.

Definition strtobool (val : string) : result bool :=
  let val := lower val in
  if bool_decide (val ∈ ["y"; "yes"; "t"; "true"; "on"; "1"]) then Ok true
  else if bool_decide (val ∈ ["n"; "no"; "f"; "false"; "off"; "0"]) then Ok false
  else Err ValueError.

Definition _BASE62 : string := "0123456789ABCDEFGHIJKLMNOPQRSTUVWXYZabcdefghijklmnopqrstuvwxyz".

(** The loop of [base62_encode]; the fuel bounds the number of digits. *)
Fixpoint base62_loop (fuel : nat) (num : Z) (res : string) : result string :=
  if num =? 0 then Ok res
  else match fuel with
  | O => Err OutOfFuel
  | S fuel =>
      match String.get (Z.to_nat (num mod 62)) _BASE62 with
      | Some c => base62_loop fuel (num / 62) (String c res)
      | None => Err IndexError
      end
  end.

Fixpoint str_repeat (c : ascii) (n : nat) : string :=
  match n with O => "" | S n => String c (str_repeat c n) end.

Definition base62_encode (num minwidth : Z) : result string :=
  let* res := base62_loop (S (Z.to_nat (Z.log2 num))) num "" in
  Ok (str_repeat "0" (Z.to_nat (minwidth - str_len res)) ++ res)%string.

(** ** types/__init__.py: domains and domain-specific strings *)

Definition get_domain_from_id (s : string) : result string :=
  match split_once ":" s with
  | None => Err (SynapseError 400 "Invalid ID: %r" "M_UNKNOWN")
  | Some (_, domain) => Ok domain
  end.

(** [string\[1:idx\]] where [idx] is the first colon. *)
Definition get_localpart_from_id (s : string) : result string :=
  match split_once ":" s with
  | None => Err (SynapseError 400 "Invalid ID: %r" "M_UNKNOWN")
  | Some (l, _) => Ok (utf8_drop 1 l)
  end.

Record DomainSpecificString := { localpart : string; domain : string }.

#[global] Instance DomainSpecificString_eq_dec : EqDecision DomainSpecificString.
Proof. solve_decision. Defined.

Module DomainSpecific.

Definition from_string (SIGIL : ascii) (s : string) : result DomainSpecificString :=
  match s with
  | EmptyString =>
      Err (SynapseError 400 "Expected %s string to start with '%s'" "M_INVALID_PARAM")
  | String a rest =>
      if negb (Ascii.eqb a SIGIL) then
        Err (SynapseError 400 "Expected %s string to start with '%s'" "M_INVALID_PARAM")
      else match split_once ":" rest with
      | None => Err (SynapseError 400 "Expected %s of the form '%slocalname:domain'" "M_INVALID_PARAM")
      | Some (l, d) => Ok {| localpart := l; domain := d |}
      end
  end.

Definition to_string (SIGIL : ascii) (o : DomainSpecificString) : string :=
  String SIGIL (localpart o ++ String ":" (domain o))%string.

Definition is_valid `{Netaddr} (SIGIL : ascii) (s : string) : bool :=
  match from_string SIGIL s with
  | Ok o => is_ok (parse_and_validate_server_name (domain o))
  | Err _ => false
  end.

End DomainSpecific.

Module UserID.
Definition SIGIL : ascii := "@".
Definition from_string := DomainSpecific.from_string SIGIL.
Definition to_string := DomainSpecific.to_string SIGIL.
Definition is_valid `{Netaddr} := DomainSpecific.is_valid SIGIL.
End UserID.

(** [ROOM_ID_PATTERN_DOMAINLESS.match(val)] *)
Definition room_id_domainless (val : string) : bool :=
  matches_class (fun c => is_alnum c || Ascii.eqb c "-" || Ascii.eqb c "_") 43 (Some 43) val.

Module RoomID.

Record t := { id : string; room_id_with_domain : option DomainSpecificString }.

Definition SIGIL : ascii := "!".

Definition from_string (s : string) : result t :=
  match s with
  | EmptyString =>
      Err (SynapseError 400 "Expected %s string to start with '%s'" "M_INVALID_PARAM")
  | String a val =>
      if negb (Ascii.eqb a SIGIL) then
        Err (SynapseError 400 "Expected %s string to start with '%s'" "M_INVALID_PARAM")
      else if has_substring ":" s then
        let* d := DomainSpecific.from_string SIGIL s in
        Ok {| id := s; room_id_with_domain := Some d |}
      else if negb (room_id_domainless val) then
        Err (SynapseError 400 "Expected %s string to be valid urlsafe unpadded base64 '%s'"
               "M_INVALID_PARAM")
      else Ok {| id := s; room_id_with_domain := None |}
  end.

Definition is_valid `{Netaddr} (s : string) : bool :=
  if has_substring ":" s then DomainSpecific.is_valid SIGIL s else is_ok (from_string s).

Definition get_domain (r : t) : option string := domain <$> room_id_with_domain r.

Definition to_string (r : t) : string :=
  match room_id_with_domain r with
  | Some d => DomainSpecific.to_string SIGIL d
  | None => id r
  end.

End RoomID.

(** ** types/__init__.py: MXID localparts *)

(** [c in MXID_LOCALPART_ALLOWED_CHARACTERS] *)
Definition mxid_char (c : ascii) : bool :=
  Ascii.eqb c "_" || Ascii.eqb c "-" || Ascii.eqb c "." || Ascii.eqb c "/" || Ascii.eqb c "="
  || Ascii.eqb c "+" || is_lower c || is_digit c.

Definition contains_invalid_mxid_characters (localpart : string) : bool :=
  negb (str_all mxid_char localpart).

(** [b"=%02x" % c] *)
Definition hex_digit (n : Z) : ascii :=
  ascii_of_N (Z.to_N (if n <? 10 then 48 + n else 87 + n)).
Definition hex_escape (c : ascii) : string :=
  String "=" (String (hex_digit (chr_code c / 16)) (String (hex_digit (chr_code c mod 16)) "")).

(** [p.sub(f, s)] for a pattern that matches single bytes *)
Fixpoint sub_bytes (p : ascii -> bool) (f : ascii -> string) (s : string) : string :=
  match s with
  | EmptyString => ""
  | String a s => ((if p a then f a else String a "") ++ sub_bytes p f s)%string
  end.

(** The argument is the UTF-8 encoding of the username. *)
Definition map_username_to_mxid_localpart (username : string) (case_sensitive : bool) : string :=
  let username :=
    if case_sensitive then
      sub_bytes (fun a => is_upper a || Ascii.eqb a "_")
        (fun a => String "_" (String (ascii_lower a) "")) username
    else sub_bytes is_upper (fun a => String (ascii_lower a) "") username in
  let username :=
    sub_bytes (fun a => negb (mxid_char a) || Ascii.eqb a "=") hex_escape username in
  match username with
  | String "_" rest => ("=5f" ++ rest)%string
  | _ => username
  end.

(** ** Examples *)

Example map_username_ex :
  (map_username_to_mxid_localpart "_Foo Bar" true, map_username_to_mxid_localpart "_Foo Bar" false,
   map_username_to_mxid_localpart "a=B" true) =
  ("=5f__foo=20_bar", "=5ffoo=20bar", "a=3d_b").
Proof. vm_compute. reflexivity. Qed.

Example base62_ex : (base62_encode 0 1, base62_encode 61 1, base62_encode 62 3) = (Ok "0", Ok "z", Ok "010").
Proof. vm_compute. reflexivity. Qed.
