(* ===== verification/PyEncoding.v ===== *)
(** * PyEncoding: SHA-1, base64, UTF-8, URLs and markup

    First [hashlib.sha1(data).hexdigest()].

    The standard library's SHA-1 (RFC 3174), on 32-bit words as integers modulo 2^32, with
    the test vectors of the RFC.  State resolution orders events by it. *)
From S2P Require Import Prelude PyVal Identifiers.
From Stdlib Require Import Ascii String.
Open Scope string_scope.
Open Scope list_scope.
Open Scope Z_scope.

Definition w32 (z : Z) : Z := Z.land z 4294967295.
Definition rotl (n x : Z) : Z := w32 (Z.lor (Z.shiftl x n) (Z.shiftr x (32 - n))).
Definition not32 (x : Z) : Z := Z.lxor x 4294967295.

Fixpoint bytes_of (s : string) : list Z :=
  match s with EmptyString => [] | String a s => chr_code a :: bytes_of s end.

(** The big-endian bytes of [z], [n] of them. *)
Fixpoint be_bytes (n : nat) (z : Z) : list Z :=
  match n with O => [] | S n => be_bytes n (Z.shiftr z 8) ++ [Z.land z 255] end.

Definition be_word (l : list Z) : Z := fold_left (fun a b => a * 256 + b) l 0.

Definition padded (s : string) : list Z :=
  let data := bytes_of s in
  let len := Z.of_nat (List.length data) in
  data ++ [128] ++ repeat 0 (Z.to_nat ((55 - len) mod 64)) ++ be_bytes 8 (8 * len).

(** Splits a list into pieces of [n]; the list is at most [fuel] pieces long. *)
Fixpoint pieces {A} (fuel n : nat) (l : list A) : list (list A) :=
  match fuel with
  | O => []
  | S fuel => match l with [] => [] | _ => take n l :: pieces fuel n (drop n l) end
  end.

Definition words_of (block : list Z) : list Z := map be_word (pieces 16 4 block).

(** The message schedule, newest word first. *)
Fixpoint schedule (n : nat) (ws : list Z) : list Z :=
  match n with
  | O => ws
  | S n =>
      let at_ i := nth i ws 0 in
      schedule n (rotl 1 (Z.lxor (Z.lxor (at_ 2%nat) (at_ 7%nat))
                                 (Z.lxor (at_ 13%nat) (at_ 15%nat))) :: ws)
  end.

Record digest := { da : Z; db : Z; dc : Z; dd : Z; de : Z }.

Definition round_fk (t : nat) (d : digest) : Z * Z :=
  if (t <? 20)%nat then
    (Z.lor (Z.land (db d) (dc d)) (Z.land (not32 (db d)) (dd d)), 1518500249)
  else if (t <? 40)%nat then (Z.lxor (Z.lxor (db d) (dc d)) (dd d), 1859775393)
  else if (t <? 60)%nat then
    (Z.lor (Z.lor (Z.land (db d) (dc d)) (Z.land (db d) (dd d))) (Z.land (dc d) (dd d)),
     2400959708)
  else (Z.lxor (Z.lxor (db d) (dc d)) (dd d), 3395469782).

Definition round (d : digest) (tw : nat * Z) : digest :=
  let (f, k) := round_fk tw.1 d in
  {| da := w32 (rotl 5 (da d) + f + de d + k + tw.2); db := da d; dc := rotl 30 (db d);
     dd := dc d; de := dd d |}.

Definition add_digest (x y : digest) : digest :=
  {| da := w32 (da x + da y); db := w32 (db x + db y); dc := w32 (dc x + dc y);
     dd := w32 (dd x + dd y); de := w32 (de x + de y) |}.

Definition block_step (d : digest) (block : list Z) : digest :=
  let ws := rev (schedule 64 (rev (words_of block))) in
  add_digest d (fold_left round (combine (seq 0 80) ws) d).

Definition initial : digest :=
  {| da := 1732584193; db := 4023233417; dc := 2562383102; dd := 271733878; de := 3285377520 |}.

Definition sha1_digest (s : string) : digest :=
  let p := padded s in
  fold_left block_step (pieces (List.length p) 64 p) initial.

Definition hex_char (n : Z) : ascii :=
  ascii_of_N (Z.to_N (if n <? 10 then 48 + n else 87 + n)).

Definition hex_byte (b : Z) : string :=
  String (hex_char (Z.shiftr b 4)) (String (hex_char (Z.land b 15)) EmptyString).

Definition hex_word (w : Z) : string := str_join "" (map hex_byte (be_bytes 4 w)).

Definition sha1_hexdigest (s : string) : string :=
  let d := sha1_digest s in
  str_join "" (map hex_word [da d; db d; dc d; dd d; de d]).

Example sha1_vectors :
  map sha1_hexdigest
    [""; "abc"; "abcdbcdecdefdefgefghfghighijhijkijkljklmklmnlmnomnopnopq"] =
  ["da39a3ee5e6b4b0d3255bfef95601890afd80709"; "a9993e364706816aba3e25717850c26c9cd0d89d";
   "84983e441c3bd26ebaae4aa1f95129e5e54670f1"].
Proof. vm_compute. reflexivity. Qed.

(** * Base64, URLs and markup in Python's standard library

    [base64.urlsafe_b64encode] without its padding, and [base64.urlsafe_b64decode] with the
    padding put back; [urllib.parse.urlencode]; [html.escape] and [xml.sax.saxutils.escape].
    Strings are their UTF-8 bytes. *)
Open Scope string_scope.
Open Scope list_scope.
Open Scope Z_scope.
Open Scope py_scope.

Definition byte (n : Z) : ascii := ascii_of_N (Z.to_N n).

(** ** Base64 *)

(** The URL-safe alphabet. *)
Definition b64_char (n : Z) : ascii :=
  if n <? 26 then byte (65 + n)
  else if n <? 52 then byte (71 + n)
  else if n <? 62 then byte (n - 4)
  else if n =? 62 then "-"%char
  else "_"%char.

(** The decoder translates the URL-safe alphabet to the other one, and so knows both. *)
Definition b64_value (a : ascii) : option Z :=
  let c := chr_code a in
  if is_upper a then Some (c - 65)
  else if is_lower a then Some (c - 71)
  else if is_digit a then Some (c + 4)
  else if (c =? 45) || (c =? 43) then Some 62
  else if (c =? 95) || (c =? 47) then Some 63
  else None.

(** [base64.urlsafe_b64encode(s).rstrip("=")] *)
Fixpoint b64encode (s : string) : string :=
  match s with
  | EmptyString => ""
  | String a EmptyString =>
      let a := chr_code a in
      String (b64_char (a / 4)) (String (b64_char (a mod 4 * 16)) "")
  | String a (String b EmptyString) =>
      let a := chr_code a in let b := chr_code b in
      String (b64_char (a / 4)) (String (b64_char (a mod 4 * 16 + b / 16))
        (String (b64_char (b mod 16 * 4)) ""))
  | String a (String b (String c s)) =>
      let a := chr_code a in let b := chr_code b in let c := chr_code c in
      String (b64_char (a / 4)) (String (b64_char (a mod 4 * 16 + b / 16))
        (String (b64_char (b mod 16 * 4 + c / 64)) (String (b64_char (c mod 64)) (b64encode s))))
  end.

(** [binascii.a2b_base64]: [quad] counts the characters of a group, of which [left] holds the
    bits that are not out yet; other characters are skipped, and enough padding ends the
    text.  A group that is not complete is an error. *)
Fixpoint a2b_base64 (quad : nat) (left : Z) (pads : nat) (s : string) : option string :=
  match s with
  | EmptyString => if (quad =? 0)%nat then Some "" else None
  | String a s =>
      if Ascii.eqb a "=" then
        if (2 <=? quad)%nat then
          if (4 <=? quad + S pads)%nat then Some "" else a2b_base64 quad left (S pads) s
        else a2b_base64 quad left pads s
      else match b64_value a with
      | None => a2b_base64 quad left pads s
      | Some v =>
          match quad with
          | 0%nat => a2b_base64 1 v 0 s
          | 1%nat => String (byte (left * 4 + v / 16)) <$> a2b_base64 2 (v mod 16) 0 s
          | 2%nat => String (byte (left * 16 + v / 4)) <$> a2b_base64 3 (v mod 4) 0 s
          | _ => String (byte (left * 64 + v)) <$> a2b_base64 0 0 0 s
          end
      end
  end.

Fixpoint str_repeat_eq (n : nat) : string :=
  match n with O => "" | S n => String "=" (str_repeat_eq n) end.

(** [base64.urlsafe_b64decode(s + "=" * (-len(s) % 4))], on text that has to be ASCII. *)
Definition b64decode (s : string) : result string :=
  if negb (is_ascii s) then Err ValueError
  else match a2b_base64 0 0 0 (s ++ str_repeat_eq (Z.to_nat ((- str_len s) mod 4)))%string with
       | Some r => Ok r
       | None => Err ValueError
       end.

(** ** UTF-8 *)

Definition is_cont (a : ascii) : bool := (128 <=? chr_code a) && (chr_code a <? 192).

(** [s.decode("utf-8")]: no surrogates, nothing longer than needed or beyond U+10FFFF. *)
Fixpoint utf8_valid (s : string) : bool :=
  match s with
  | EmptyString => true
  | String a s1 =>
      let c := chr_code a in
      if c <? 128 then utf8_valid s1
      else match s1 with
      | EmptyString => false
      | String b s2 =>
          if negb (is_cont b) then false
          else if (194 <=? c) && (c <? 224) then utf8_valid s2
          else match s2 with
          | EmptyString => false
          | String b2 s3 =>
              if negb (is_cont b2) then false
              else if (224 <=? c) && (c <? 240) then
                implb (c =? 224) (160 <=? chr_code b) && implb (c =? 237) (chr_code b <? 160) && utf8_valid s3
              else match s3 with
              | EmptyString => false
              | String b3 s4 =>
                  is_cont b3 && (240 <=? c) && (c <? 245)
                  && implb (c =? 240) (144 <=? chr_code b) && implb (c =? 244) (chr_code b <? 144)
                  && utf8_valid s4
              end
          end
      end
  end.

Definition utf8_decode (s : string) : result string := if utf8_valid s then Ok s else Err ValueError.

(** ** URLs and markup *)

Definition hex_upper (n : Z) : ascii := if n <? 10 then byte (48 + n) else byte (55 + n).
Definition percent (a : ascii) : string :=
  String "%" (String (hex_upper (chr_code a / 16)) (String (hex_upper (chr_code a mod 16)) "")).

Fixpoint replace_bytes (f : ascii -> string) (s : string) : string :=
  match s with EmptyString => "" | String a s => (f a ++ replace_bytes f s)%string end.

Definition quote_byte (plus : bool) (a : ascii) : string :=
  if is_alnum a || bool_decide (a ∈ ["_"; "."; "-"; "~"]%char) then String a ""
  else if plus && Ascii.eqb a " " then "+"
  else percent a.

(** [urlencode(d)], and with [quote_via=quote] *)
Definition urlencode_with (plus : bool) (d : list (string * string)) : string :=
  let q := replace_bytes (quote_byte plus) in
  str_join "&" (map (fun kv => (q kv.1 ++ "=" ++ q kv.2)%string) d).
Definition urlencode : list (string * string) -> string := urlencode_with true.

Definition html_escape : string -> string :=
  replace_bytes (fun a => match a with
                          | "&"%char => "&amp;" | "<"%char => "&lt;" | ">"%char => "&gt;"
                          | "034"%char => "&quot;" | "'"%char => "&#x27;" | _ => String a ""
                          end).
Definition xml_escape : string -> string :=
  replace_bytes (fun a => match a with
                          | "&"%char => "&amp;" | "<"%char => "&lt;" | ">"%char => "&gt;"
                          | _ => String a ""
                          end).

(** The double quote. *)
Definition dq : string := String "034" "".

Example b64_ex :
  map (fun s => b64decode (b64encode s)) [""; "a"; "ab"; "abc"; "@user:setka"; html_escape dq]
  = map Ok [""; "a"; "ab"; "abc"; "@user:setka"; "&quot;"].
Proof. vm_compute. reflexivity. Qed.

Example b64decode_ex : map b64decode ["QUJD"; "QUI"; "Q"; "QU*JD"; "Q UI="; "QQ==QQ=="] =
  [Ok "ABC"; Ok "AB"; Err ValueError; Ok "ABC"; Ok "AB"; Ok "A"].
Proof. vm_compute. reflexivity. Qed.

Example urlencode_ex : urlencode [("user_id", "@a:b"); ("x y", "1&2")] = "user_id=%40a%3Ab&x+y=1%262".
Proof. vm_compute. reflexivity. Qed.
