(* ===== verification/Events.v ===== *)
(** * Events: constants, the event object and its accessors

    [api/constants.py] (the names the auth rules use) and [events/__init__.py]: the
    [EventBase] object and its four format-specific subclasses.

    An [event] holds the parsed fields of the event dictionary with the Python types
    [EventBase] declares for them; [content] is an arbitrary JSON object.  Values computed
    from other modules' cryptography (the reference hash) are fields; the event ID, the room
    ID and the auth event IDs are computed from them as each subclass does. *)
From S2P Require Import Prelude PyVal RoomVersionTable.
From Stdlib Require Import Ascii String.
Open Scope string_scope.
Open Scope list_scope.
Open Scope Z_scope.
Open Scope py_scope.

(** ** api/constants.py *)

Definition MAX_PDU_SIZE : Z := 65536.
Definition CREATOR_POWER_LEVEL : Z := 2 ^ 53.

Module Membership.
Definition INVITE := "invite".
Definition JOIN := "join".
Definition KNOCK := "knock".
Definition LEAVE := "leave".
Definition BAN := "ban".
End Membership.

Module JoinRules.
Definition PUBLIC := "public".
Definition KNOCK := "knock".
Definition INVITE := "invite".
Definition PRIVATE := "private".
Definition RESTRICTED := "restricted".
Definition KNOCK_RESTRICTED := "knock_restricted".
End JoinRules.

Module EventTypes.
Definition Member := "m.room.member".
Definition Create := "m.room.create".
Definition Tombstone := "m.room.tombstone".
Definition JoinRules := "m.room.join_rules".
Definition PowerLevels := "m.room.power_levels".
Definition Aliases := "m.room.aliases".
Definition Redaction := "m.room.redaction".
Definition ThirdPartyInvite := "m.room.third_party_invite".
Definition Topic := "m.room.topic".
Definition RoomHistoryVisibility := "m.room.history_visibility".
End EventTypes.

Module EventContentFields.
Definition FEDERATE := "m.federate".
Definition ROOM_CREATOR := "creator".
Definition ADDITIONAL_CREATORS := "additional_creators".
Definition AUTHORISING_USER := "join_authorised_via_users_server".
End EventContentFields.

Module RelationTypes.
Definition ANNOTATION := "m.annotation".
Definition THREAD := "m.thread".
End RelationTypes.

Module Codes.
Definition UNKNOWN := "M_UNKNOWN".
Definition BAD_JSON := "M_BAD_JSON".
Definition INSUFFICIENT_POWER := "ORG.MATRIX.MSC3848.INSUFFICIENT_POWER".
Definition ALREADY_JOINED := "ORG.MATRIX.MSC3848.ALREADY_JOINED".
Definition NOT_JOINED := "ORG.MATRIX.MSC3848.NOT_JOINED".
End Codes.

(** ** [class EventBase] *)

Record event := {
  room_version : RoomVersion;
  (** [_dict\["event_id"\]], format 1 only *)
  event_id_field : string;
  (** the base64 of the reference hash, in the alphabet of the event's format *)
  reference_hash : string;
  type : string;
  sender : string;
  (** [_dict.get("state_key")] *)
  state_key_field : option string;
  (** [_dict.get("room_id")] *)
  room_id_field : option string;
  content : obj;
  (** the event IDs of [_dict\["prev_events"\]] and [_dict\["auth_events"\]] *)
  prev_events : list string;
  auth_events_field : list string;
  (** [_dict.get("redacts")] *)
  redacts_field : json;
  depth : Z;
  origin_server_ts : Z;
  (** server name to (key name to signature) *)
  signatures : list (string * list (string * string));
  rejected_reason : option string
}.

(** [user_id] is another name of the [sender] property. *)
Definition user_id (e : event) : string := sender e.

(** [EventBase.__init__] asserts that the format is that of the room version. *)
Definition format_version (e : event) : Z := event_format (room_version e).

Definition get_state_key (e : event) : option string := state_key_field e.

Definition is_state (e : event) : bool :=
  match get_state_key e with Some _ => true | None => false end.

(** The [state_key] property raises AttributeError on a message event. *)
Definition state_key (e : event) : result string :=
  match state_key_field e with Some k => Ok k | None => Err AttributeError end.

(** [e.membership] *)
Definition membership (e : event) : result json := ogetitem (content e) "membership".

(** [e.redacts] *)
Definition redacts (e : event) : json :=
  if updated_redaction_rules (room_version e) then oget (content e) "redacts" JNull
  else redacts_field e.

(** [FrozenEvent.event_id], [FrozenEventV2.event_id], [FrozenEventV3.event_id] *)
Definition event_id (e : event) : string :=
  if format_version e =? EventFormatVersions.ROOM_V1_V2 then event_id_field e
  else ("$" ++ reference_hash e)%string.

(** [FrozenEvent.room_id] and [FrozenEventV2.room_id] *)
Definition room_id_of_dict (e : event) : result string :=
  match room_id_field e with Some r => Ok r | None => Err KeyError end.

(** [FrozenEventV4.room_id]: the create event's room ID is its reference hash. *)
Definition is_create_event (e : event) : bool :=
  bool_decide (type e = EventTypes.Create) && bool_decide (get_state_key e = Some "").

Definition room_id_v4 (e : event) : result string :=
  if negb (is_create_event e) then room_id_of_dict e
  else Ok ("!" ++ reference_hash e)%string.

Definition room_id (e : event) : result string :=
  if format_version e =? EventFormatVersions.ROOM_V11_HYDRA_PLUS then room_id_v4 e
  else room_id_of_dict e.

Definition prev_event_ids (e : event) : list string := prev_events e.

(** [FrozenEventV4.auth_event_ids]: the create event is implied. *)
Definition auth_event_ids_v4 (e : event) : result (list string) :=
  let* r := room_id e in
  let create_event_id := ("$" ++ utf8_drop 1 r)%string in
  if bool_decide (create_event_id ∈ auth_events_field e) then Err AssertionError
  else if is_create_event e then Ok (auth_events_field e)
  else Ok (auth_events_field e ++ [create_event_id]).

Definition auth_event_ids (e : event) : result (list string) :=
  if format_version e =? EventFormatVersions.ROOM_V11_HYDRA_PLUS then auth_event_ids_v4 e
  else Ok (auth_events_field e).

(** ** State maps: [(type, state_key)] to a value *)

Abbreviation StateKey := (string * string)%type.
Abbreviation StateMap V := (list ((string * string) * V)).

Definition CREATE_KEY : StateKey := (EventTypes.Create, "").
Definition POWER_KEY : StateKey := (EventTypes.PowerLevels, "").

(** [(e.type, e.state_key)] *)
Definition event_key (e : event) : result StateKey :=
  let* k := state_key e in Ok (type e, k).

(** ** [is_creator] *)

(** Is the string a member of [set(j)]? *)
Definition in_json_set (s : string) (j : json) : result bool :=
  let* l := py_list j in
  let* l := py_set l in
  Ok (existsb (fun x => jeqs x s) l).

Definition is_creator (create : event) (user : string) : result bool :=
  if negb (bool_decide (type create = EventTypes.Create)) then Err AssertionError
  else if bool_decide (sender create = user) then Ok true
  else if msc4289_creator_power_enabled (room_version create) then
    in_json_set user (oget (content create) EventContentFields.ADDITIONAL_CREATORS (JList []))
  else Ok false.

(** ** [relation_from_event] *)

Record _EventRelation := {
  parent_id : string;
  rel_type : string;
  aggregation_key : option string
}.

Definition as_str (j : json) : option string := match j with JStr s => Some s | _ => None end.

Definition relation_from_event (e : event) : option _EventRelation :=
  match oget (content e) "m.relates_to" JNull with
  | JObj ((_ :: _) as relation) =>
      match as_str (oget relation "rel_type" JNull) with
      | None => None
      | Some rel_type =>
          match as_str (oget relation "event_id" JNull) with
          | None => None
          | Some parent_id =>
              Some {| parent_id := parent_id; rel_type := rel_type;
                      aggregation_key :=
                        if bool_decide (rel_type = RelationTypes.ANNOTATION)
                        then as_str (oget relation "key" JNull) else None |}
          end
      end
  | _ => None
  end.

(** ** Lemmas *)

Lemma event_key_ok e t k : event_key e = Ok (t, k) <-> type e = t /\ state_key_field e = Some k.
Proof.
  unfold event_key, state_key. destruct (state_key_field e); simpl; naive_solver.
Qed.

Lemma is_state_true e : is_state e = true <-> exists k, state_key_field e = Some k.
Proof. unfold is_state, get_state_key. destruct (state_key_field e); naive_solver. Qed.
