(* ===== verification/WheelTimer.v ===== *)
(** * WheelTimer: objects that come back when their time is over (util/wheel_timer.py)

    Time is cut into buckets of [bucket_size] milliseconds; [entries] are the buckets that are
    not over, without gaps, each with the objects due when it is.  The warning about a timer
    that nobody reads is left out.  [timer_at] is what the wheel stands for: which object is
    due at which bucket. *)
From S2P Require Import Prelude PyVal PyFloat.
From Stdlib Require Import String.
Open Scope list_scope.
Open Scope Z_scope.
Open Scope py_scope.

Section wheel.
Context {T : Type} `{Countable T}.

Record _Entry := { end_key : Z; entry_elements : gset T }.
Record WheelTimer := { bucket_size : Z; entries : list _Entry }.

Definition new_wheel (bucket_size : Z) : WheelTimer :=
  {| bucket_size := bucket_size; entries := [] |}.

Definition set_entries (w : WheelTimer) (l : list _Entry) : WheelTimer :=
  {| bucket_size := bucket_size w; entries := l |}.

(** [entries\[i\].elements.add(obj)] for an index that is not negative. *)
Definition add_at (l : list _Entry) (i : Z) (obj : T) : result (list _Entry) :=
  match l !! Z.to_nat i with
  | Some e =>
      Ok (<[Z.to_nat i := {| end_key := end_key e; entry_elements := {[obj]} ∪ entry_elements e |}]> l)
  | None => Err IndexError
  end.

(** The branch that adds buckets: those from [last_key] to [then_key], the object in the
    last of all. *)
Definition empty_entries (last_key then_key : Z) : list _Entry :=
  map (fun i => {| end_key := last_key + Z.of_nat i; entry_elements := ∅ |})
    (seq 0 (Z.to_nat (then_key + 1 - last_key))).

Definition extend_and_add (w : WheelTimer) (now_key then_key : Z) (obj : T) : result WheelTimer :=
  let last_key := match last (entries w) with Some e => end_key e + 1 | None => now_key + 1 end in
  let then_key := Z.max last_key then_key in
  let l := entries w ++ empty_entries last_key then_key in
  let* l := add_at l (Z.of_nat (List.length l) - 1) obj in
  Ok (set_entries w l).

Definition insert (w : WheelTimer) (now : Z) (obj : T) (thn : Z) : result WheelTimer :=
  let then_key := int_truediv thn (bucket_size w) + 1 in
  let now_key := int_truediv now (bucket_size w) in
  match head (entries w), last (entries w) with
  | Some first, Some last =>
      let min_key := end_key first in
      if then_key <=? end_key last then
        let* l := add_at (entries w) (Z.max min_key then_key - min_key) obj in
        Ok (set_entries w l)
      else extend_and_add w now_key then_key obj
  | _, _ => extend_and_add w now_key then_key obj
  end.

Fixpoint fetch_loop `{SetOrder} (now_key : Z) (l : list _Entry) : list T * list _Entry :=
  match l with
  | e :: l' =>
      if end_key e <=? now_key then
        let (ret, rest) := fetch_loop now_key l' in (set_iter (elements (entry_elements e)) ++ ret, rest)
      else ([], l)
  | [] => ([], [])
  end.

Definition fetch `{SetOrder} (w : WheelTimer) (now : Z) : list T * WheelTimer :=
  let (ret, l) := fetch_loop (int_truediv now (bucket_size w)) (entries w) in
  (ret, set_entries w l).

Definition wheel_len (w : WheelTimer) : Z :=
  fold_left (fun n e => n + Z.of_nat (size (entry_elements e))) (entries w) 0.

(** ** What the wheel stands for *)

Definition timer_at (w : WheelTimer) (x : T) (k : Z) : Prop :=
  exists e, e ∈ entries w /\ end_key e = k /\ x ∈ entry_elements e.

(** Buckets without gaps. *)
Definition contiguous (l : list _Entry) : Prop :=
  forall i j e e', l !! i = Some e -> l !! j = Some e' ->
    end_key e' = end_key e + (Z.of_nat j - Z.of_nat i).

(** The bucket after which an object inserted now with the time [thn] is due. *)
Definition first_key (w : WheelTimer) (now : Z) : Z :=
  match head (entries w) with
  | Some e => end_key e
  | None => int_truediv now (bucket_size w) + 1
  end.
Definition due_key (w : WheelTimer) (now thn : Z) : Z :=
  Z.max (int_truediv thn (bucket_size w) + 1) (first_key w now).

Lemma contiguous_nil : contiguous [].
Proof. intros i j e e' Hi. by rewrite lookup_nil in Hi. Qed.

Lemma contiguous_tail e l : contiguous (e :: l) -> contiguous l.
Proof.
  intros Hc i j e1 e2 H1 H2. rewrite (Hc (S i) (S j) e1 e2 H1 H2). lia.
Qed.

Lemma contiguous_head e l e' : contiguous (e :: l) -> e' ∈ l -> end_key e < end_key e'.
Proof.
  intros Hc (j & Hj)%list_elem_of_lookup. rewrite (Hc 0%nat (S j) e e' eq_refl Hj). lia.
Qed.

(** Keys alone decide whether there are gaps. *)
Lemma contiguous_keys l l' : map end_key l = map end_key l' -> contiguous l -> contiguous l'.
Proof.
  intros Heq Hc i j e e' H1 H2.
  assert (Hl : forall i e, l' !! i = Some e -> exists e0, l !! i = Some e0 /\ end_key e0 = end_key e).
  { clear - Heq. intros i e He.
    assert (map end_key l !! i = Some (end_key e)) as Hk by (by rewrite Heq, list_lookup_fmap, He).
    rewrite list_lookup_fmap in Hk. destruct (l !! i) as [e0|]; [|done].
    exists e0. split; [done|]. by simplify_eq/=. }
  destruct (Hl i e H1) as (e0 & ? & <-), (Hl j e' H2) as (e0' & ? & <-). by apply Hc.
Qed.

Lemma add_at_ok l i x e : l !! i = Some e ->
  exists l', add_at l (Z.of_nat i) x = Ok l' /\ map end_key l' = map end_key l /\
    forall y k, (exists e', e' ∈ l' /\ end_key e' = k /\ y ∈ entry_elements e') <->
      (exists e', e' ∈ l /\ end_key e' = k /\ y ∈ entry_elements e') \/ (y = x /\ k = end_key e).
Proof.
  intros He. unfold add_at. rewrite Nat2Z.id, He. eexists. split; [done|]. split.
  - apply list_eq. intros j. rewrite !list_lookup_fmap. destruct (decide (i = j)) as [<-|].
    + rewrite list_lookup_insert_eq by (by apply lookup_lt_Some in He). by rewrite He.
    + by rewrite list_lookup_insert_ne.
  - intros y k. assert (i < List.length l)%nat as Hlt by (by apply lookup_lt_Some in He).
    split.
    + intros (e' & (j & Hj)%list_elem_of_lookup & <- & Hy). destruct (decide (i = j)) as [<-|Hne].
      * rewrite list_lookup_insert_eq in Hj by done. simplify_eq/=.
        apply elem_of_union in Hy as [->%elem_of_singleton|Hy]; [by right|].
        left. exists e. split; [by eapply list_elem_of_lookup_2|done].
      * rewrite list_lookup_insert_ne in Hj by done. left. exists e'.
        split; [by eapply list_elem_of_lookup_2|done].
    + intros [(e' & (j & Hj)%list_elem_of_lookup & <- & Hy)|[-> ->]].
      * destruct (decide (i = j)) as [<-|Hne].
        -- simplify_eq. eexists. split; [by eapply list_elem_of_lookup_2, list_lookup_insert_eq|].
           simpl. split; [done|set_solver].
        -- exists e'. split; [|done]. eapply (list_elem_of_lookup_2 _ j).
           by rewrite list_lookup_insert_ne.
      * eexists. split; [by eapply list_elem_of_lookup_2, list_lookup_insert_eq|].
        simpl. split; [done|set_solver].
Qed.

Lemma last_is_lookup (l : list _Entry) e : last l = Some e ->
  l !! (List.length l - 1)%nat = Some e /\ (0 < List.length l)%nat.
Proof.
  intros Hl. split; [by rewrite last_lookup, <- Nat.sub_1_r in Hl|].
  destruct l; [done|simpl; lia].
Qed.

Lemma empty_entries_lookup a b i e : empty_entries a b !! i = Some e ->
  end_key e = a + Z.of_nat i /\ entry_elements e = ∅.
Proof.
  unfold empty_entries. rewrite list_lookup_fmap. intros (j & Hj & ->)%fmap_Some.
  apply lookup_seq in Hj as [-> _]. done.
Qed.

Lemma empty_entries_length a b : List.length (empty_entries a b) = Z.to_nat (b + 1 - a).
Proof. unfold empty_entries. by rewrite length_map, length_seq. Qed.

Lemma contiguous_extend l a b :
  contiguous l -> (forall e, last l = Some e -> a = end_key e + 1) ->
  contiguous (l ++ empty_entries a b).
Proof.
  intros Hc Ha.
  assert (Hnew : forall i j e e', l !! i = Some e -> empty_entries a b !! j = Some e' ->
    end_key e' = end_key e + (Z.of_nat (List.length l + j) - Z.of_nat i)).
  { intros i j e e' H1 H2. apply empty_entries_lookup in H2 as [-> _].
    destruct (last l) as [el|] eqn:Hl; [|by apply last_None in Hl as ->].
    rewrite (Ha el eq_refl). destruct (last_is_lookup l el Hl) as [Hk ?].
    rewrite (Hc _ _ _ _ H1 Hk). lia. }
  intros i j e e' H1 H2.
  apply lookup_app_Some in H1 as [H1|[Hi H1]]; apply lookup_app_Some in H2 as [H2|[Hj H2]].
  - by apply Hc.
  - rewrite (Hnew _ _ _ _ H1 H2). lia.
  - pose proof (Hnew _ _ _ _ H2 H1). lia.
  - apply empty_entries_lookup in H1 as [-> _], H2 as [-> _]. lia.
Qed.

Lemma timer_in_extended l a b y k :
  (exists e, e ∈ l ++ empty_entries a b /\ end_key e = k /\ y ∈ entry_elements e) <->
  (exists e, e ∈ l /\ end_key e = k /\ y ∈ entry_elements e).
Proof.
  split; intros (e & He & Hk & Hy); exists e; [|by rewrite elem_of_app; auto].
  apply elem_of_app in He as [He|(i & Hi)%list_elem_of_lookup]; [done|].
  apply empty_entries_lookup in Hi as [_ Hi]. set_solver.
Qed.

(** What an insertion that succeeds does. *)
Definition inserted (w : WheelTimer) (now : Z) (x : T) (thn : Z) (w' : WheelTimer) : Prop :=
  bucket_size w' = bucket_size w /\ contiguous (entries w') /\ entries w' <> [] /\
  (forall t, first_key w' t = first_key w now) /\
  forall y k, timer_at w' y k <-> timer_at w y k \/ (y = x /\ k = due_key w now thn).

Lemma add_at_inserted w now x thn l i e :
  contiguous l -> l !! i = Some e -> end_key e = due_key w now thn ->
  (exists e0, l !! 0%nat = Some e0 /\ end_key e0 = first_key w now) ->
  (forall y k, (exists e', e' ∈ l /\ end_key e' = k /\ y ∈ entry_elements e') <-> timer_at w y k) ->
  exists l', add_at l (Z.of_nat i) x = Ok l' /\ inserted w now x thn (set_entries w l').
Proof.
  intros Hc Hi Hdue (e0 & He0 & Hfirst) Hold.
  destruct (add_at_ok l i x e Hi) as (l' & Hadd & Hkeys & Hin). exists l'. split; [done|].
  assert (Hhead : exists e0', head l' = Some e0' /\ end_key e0' = end_key e0).
  { destruct l, l'; simplify_eq/=. eauto. }
  destruct Hhead as (e0' & Hh & Hk). split_and!; simpl.
  - done.
  - by eapply contiguous_keys.
  - by intros ->.
  - intros t. rewrite <- Hfirst, <- Hk. unfold first_key. simpl. by rewrite Hh.
  - intros y k. rewrite <- Hold, <- Hdue. apply Hin.
Qed.

Lemma extend_and_add_spec w now x thn :
  contiguous (entries w) ->
  (forall e, last (entries w) = Some e -> end_key e < int_truediv thn (bucket_size w) + 1) ->
  exists w', extend_and_add w (int_truediv now (bucket_size w)) (int_truediv thn (bucket_size w) + 1) x
    = Ok w' /\ inserted w now x thn w'.
Proof.
  intros Hc Hlast. unfold extend_and_add.
  set (last_key := match last (entries w) with Some e => _ | None => _ end).
  set (then_key := Z.max last_key _). set (l := entries w ++ empty_entries last_key then_key).
  assert (Hlen : List.length l = (List.length (entries w) + Z.to_nat (then_key + 1 - last_key))%nat)
    by (unfold l; by rewrite length_app, empty_entries_length).
  assert (Hle : last_key <= then_key) by (unfold then_key; lia).
  assert (Hc' : contiguous l).
  { apply contiguous_extend; [done|]. intros e He. unfold last_key. by rewrite He. }
  destruct (lookup_lt_is_Some_2 l (List.length l - 1)%nat ltac:(lia)) as [e He].
  assert (Hkey : end_key e = then_key).
  { rewrite Hlen in He. unfold l in He. rewrite lookup_app_r in He by lia.
    apply empty_entries_lookup in He as [-> _]. lia. }
  replace (Z.of_nat (List.length l) - 1) with (Z.of_nat (List.length l - 1)) by lia.
  destruct (lookup_lt_is_Some_2 l 0%nat ltac:(lia)) as [e0 He0].
  assert (Hfirst : end_key e0 = first_key w now).
  { unfold first_key. unfold l in He0. destruct (entries w) as [|e1 l1] eqn:El; simpl in *.
    - apply empty_entries_lookup in He0 as [-> _]. unfold last_key. simpl. lia.
    - by simplify_eq. }
  destruct (add_at_inserted w now x thn l (List.length l - 1) e) as (l' & Hl' & Hins); try done.
  - rewrite Hkey. unfold due_key, then_key, last_key. unfold first_key in *.
    destruct (entries w) as [|e1 l1] eqn:El; simpl; [lia|].
    destruct (last (e1 :: l1)) as [el|] eqn:Hel; [|by apply last_None in Hel].
    specialize (Hlast el eq_refl). destruct (last_is_lookup _ _ Hel) as [Hk _].
    rewrite (Hc 0%nat _ e1 el eq_refl Hk) in *. simpl in *. lia.
  - by exists e0.
  - intros y k. apply timer_in_extended.
  - rewrite Hl'. simpl. eauto.
Qed.

(** An insertion never fails on buckets without gaps. *)
Lemma insert_spec w now x thn :
  contiguous (entries w) -> exists w', insert w now x thn = Ok w' /\ inserted w now x thn w'.
Proof.
  intros Hc. unfold insert.
  destruct (head (entries w)) as [e0|] eqn:Hh.
  2: { apply extend_and_add_spec; [done|]. destruct (entries w); [|done]. by intros e He. }
  destruct (last (entries w)) as [el|] eqn:Hl.
  2: { apply last_None in Hl. by rewrite Hl in Hh. }
  destruct (Z.leb_spec (int_truediv thn (bucket_size w) + 1) (end_key el)) as [Hle|Hgt].
  2: { apply extend_and_add_spec; [done|]. intros e He. by simplify_eq. }
  set (then_key := int_truediv thn (bucket_size w) + 1) in *.
  destruct (last_is_lookup _ _ Hl) as [Hk Hpos].
  assert (H0 : entries w !! 0%nat = Some e0) by (destruct (entries w); by simplify_eq/=).
  pose proof (Hc _ _ _ _ H0 Hk) as Hlen.
  destruct (lookup_lt_is_Some_2 (entries w) (Z.to_nat (Z.max (end_key e0) then_key - end_key e0)))
    as [e He]; [lia|].
  destruct (add_at_inserted w now x thn (entries w) (Z.to_nat (Z.max (end_key e0) then_key - end_key e0)) e)
    as (l' & Hl' & Hins); try done.
  - rewrite (Hc _ _ _ _ H0 He). unfold due_key, first_key. rewrite Hh. fold then_key. lia.
  - exists e0. unfold first_key. by rewrite Hh.
  - rewrite Z2Nat.id in Hl' by lia. rewrite Hl'. simpl. eauto.
Qed.

Lemma fetch_loop_spec `{SetOrder} now_key l ret rest :
  contiguous l -> fetch_loop now_key l = (ret, rest) ->
  contiguous rest /\
  (forall x, x ∈ ret <-> exists e, e ∈ l /\ end_key e <= now_key /\ x ∈ entry_elements e) /\
  (forall e, e ∈ rest <-> e ∈ l /\ now_key < end_key e) /\
  (rest = [] \/ exists e e', head l = Some e /\ head rest = Some e' /\
    end_key e' = Z.max (end_key e) (now_key + 1)).
Proof.
  revert ret rest. induction l as [|e l IH]; intros ret rest Hc; simpl; [intros; simplify_eq|].
  { split_and!; [done|set_solver|set_solver|by left]. }
  destruct (Z.leb_spec (end_key e) now_key) as [Hle|Hgt].
  - destruct (fetch_loop now_key l) as [ret1 rest1] eqn:Hf. intros; simplify_eq.
    destruct (IH _ _ (contiguous_tail _ _ Hc) eq_refl) as (Hc1 & Hret & Hrest & Hhead).
    split_and!; [done|..].
    + intros x. rewrite elem_of_app, set_iter_perm, elem_of_elements, Hret. set_solver.
    + intros e'. rewrite Hrest, elem_of_cons. split; [naive_solver|].
      intros [[->|] ?]; [lia|done].
    + destruct Hhead as [->|(e1 & e' & He1 & He' & Hk)]; [by left|]. right. exists e, e'.
      split_and!; [done..|]. destruct l as [|e2 l]; simplify_eq/=.
      rewrite Hk. pose proof (Hc 0%nat 1%nat e e1 eq_refl eq_refl). lia.
  - intros; simplify_eq. split_and!; [done|..].
    + intros x. split; [by intros ?%elem_of_nil|]. intros (e' & He' & Hk & _).
      apply elem_of_cons in He' as [->|He']; [lia|]. pose proof (contiguous_head _ _ _ Hc He'). lia.
    + intros e'. split; [|naive_solver]. intros He'. split; [done|].
      apply elem_of_cons in He' as [->|He']; [lia|]. pose proof (contiguous_head _ _ _ Hc He'). lia.
    + right. exists e, e. simpl. split_and!; [done..|lia].
Qed.

Lemma fetch_spec `{SetOrder} w now ret w' :
  contiguous (entries w) -> fetch w now = (ret, w') ->
  bucket_size w' = bucket_size w /\ contiguous (entries w') /\
  (forall x, x ∈ ret <-> exists k, timer_at w x k /\ k <= int_truediv now (bucket_size w)) /\
  (forall x k, timer_at w' x k <-> timer_at w x k /\ int_truediv now (bucket_size w) < k) /\
  (forall t, entries w' = [] \/
    first_key w' t = Z.max (first_key w t) (int_truediv now (bucket_size w) + 1)).
Proof.
  intros Hc. unfold fetch. destruct (fetch_loop _ _) as [r l] eqn:Hf. intros; simplify_eq/=.
  destruct (fetch_loop_spec _ _ _ _ Hc Hf) as (Hc' & Hret & Hrest & Hhead).
  split_and!; [done|done|..].
  - intros x. rewrite Hret. unfold timer_at. naive_solver.
  - intros x k. unfold timer_at. simpl. setoid_rewrite Hrest. naive_solver.
  - intros t. destruct Hhead as [->|(e & e' & He & He' & Hk)]; [by left|]. right.
    unfold first_key. simpl. by rewrite He, He'.
Qed.
End wheel.

(** * When objects come back

    A wheel that is used at times that do not go back gives an object back strictly after its
    time, and within a bucket's length of it. *)
Open Scope string_scope.
Open Scope list_scope.
Open Scope Z_scope.
Open Scope py_scope.

Section accuracy.
Context {T : Type} `{Countable T} `{SetOrder}.

(** The wheels there are at the time [c]. *)
Inductive wheel_at : WheelTimer (T := T) -> Z -> Prop :=
  | wheel_new size c : 0 < size -> wheel_at (new_wheel size) c
  | wheel_insert w c now x thn w' :
      wheel_at w c -> c <= now -> insert w now x thn = Ok w' -> wheel_at w' now
  | wheel_fetch w c now : wheel_at w c -> c <= now -> wheel_at (fetch w now).2 now.

Lemma wheel_at_inv w c : wheel_at w c ->
  0 < bucket_size w /\ contiguous (entries w) /\
  forall e, head (entries w) = Some e -> end_key e <= int_truediv c (bucket_size w) + 1.
Proof.
  induction 1 as [size c Hs|w c now x thn w' _ IH Hle Hi|w c now _ IH Hle].
  - split_and!; [done|apply contiguous_nil|done].
  - destruct IH as (Hb & Hc & Hf). pose proof (int_truediv_mono c now (bucket_size w) Hb Hle).
    destruct (insert_spec w now x thn Hc) as (w1 & E & Eb & Hc1 & _ & Hfirst & _).
    rewrite E in Hi. simplify_eq. rewrite Eb. split_and!; [done|done|]. intros e He.
    specialize (Hfirst now). unfold first_key in Hfirst. rewrite He in Hfirst. rewrite Hfirst.
    destruct (head (entries w)) as [e0|] eqn:E0; [|lia]. specialize (Hf e0 eq_refl). lia.
  - destruct IH as (Hb & Hc & Hf). pose proof (int_truediv_mono c now (bucket_size w) Hb Hle).
    destruct (fetch w now) as [ret w'] eqn:E.
    destruct (fetch_spec w now ret w' Hc E) as (Eb & Hc' & _ & _ & Hfirst). simpl. rewrite Eb.
    split_and!; [done|done|]. intros e He. destruct (Hfirst now) as [He'|Hk]; [by rewrite He' in He|].
    unfold first_key in Hk. rewrite He in Hk. rewrite Hk.
    destruct (head (entries w)) as [e0|] eqn:E0; [|lia]. specialize (Hf e0 eq_refl). lia.
Qed.

(** C31: an object that is put into the wheel never fails to get in; it is not given back until
    its time is strictly over; it is given back by whoever asks a bucket's length after its
    time, or after the moment it was put in if its time was over then; and the other objects
    come back as they would have. *)
Theorem wheel_timer_accuracy w c now x thn :
  wheel_at w c -> c <= now ->
  exists w', insert w now x thn = Ok w' /\ wheel_at w' now /\
    (forall t, t <= thn -> x ∈ (fetch w' t).1 -> x ∈ (fetch w t).1) /\
    (forall t, 0 <= Z.max thn now -> Z.max thn now + bucket_size w <= t -> t < 2 ^ 53 -> x ∈ (fetch w' t).1) /\
    (forall t y, y <> x -> y ∈ (fetch w' t).1 <-> y ∈ (fetch w t).1).
Proof.
  intros Hw Hle. destruct (wheel_at_inv w c Hw) as (Hb & Hc & Hf).
  destruct (insert_spec w now x thn Hc) as (w' & E & Eb & Hc' & _ & Hfirst & Ht).
  assert (Hin : forall t y, y ∈ (fetch w' t).1 <-> y ∈ (fetch w t).1 \/
    (y = x /\ due_key w now thn <= int_truediv t (bucket_size w))).
  { intros t y. destruct (fetch w' t) as [r' v'] eqn:E'. destruct (fetch w t) as [r v] eqn:E1.
    destruct (fetch_spec w' t r' v' Hc' E') as (_ & _ & Hr' & _).
    destruct (fetch_spec w t r v Hc E1) as (_ & _ & Hr & _). simpl. rewrite Hr', Hr, Eb.
    setoid_rewrite Ht. naive_solver. }
  exists w'. split_and!; [done|by eapply wheel_insert|..].
  - intros t Hlt [?|[_ Hk]]%Hin; [done|]. unfold due_key in Hk.
    pose proof (int_truediv_mono t thn (bucket_size w) Hb Hlt). lia.
  - intros t H0' H1 H2. apply Hin. right. split; [done|].
    assert (Hmono : int_truediv thn (bucket_size w) <= int_truediv (Z.max thn now) (bucket_size w))
      by (apply int_truediv_mono; lia).
    assert (Hmono2 : int_truediv now (bucket_size w) <= int_truediv (Z.max thn now) (bucket_size w))
      by (apply int_truediv_mono; lia).
    assert (Hstep : int_truediv (Z.max thn now) (bucket_size w) + 1 <= int_truediv t (bucket_size w)).
    { rewrite !int_truediv_exact by lia. rewrite !Z.quot_div_nonneg by lia.
      replace (Z.max thn now / bucket_size w + 1) with ((Z.max thn now + 1 * bucket_size w) / bucket_size w)
        by (rewrite Z.div_add; lia).
      apply Z.div_le_mono; lia. }
    unfold due_key, first_key. pose proof (int_truediv_mono c now (bucket_size w) Hb Hle).
    destruct (head (entries w)) as [e|] eqn:Eh; [specialize (Hf e eq_refl)|]; lia.
  - intros t y Hne. rewrite Hin. naive_solver.
Qed.
End accuracy.

#[local] Instance wheel_order : SetOrder :=
  {| set_iter := fun _ l => l; set_iter_perm := fun _ l => reflexivity l |}.

Lemma wheel_timer_accuracy_witness :
  let w := (fetch (T := string) (new_wheel 5000) 7000).2 in
  exists w', insert w 8000 "a" 12000 = Ok w' /\ wheel_at w' 8000 /\
    (forall t, t <= 12000 -> "a" ∈ (fetch w' t).1 -> "a" ∈ (fetch w t).1) /\
    (forall t, 0 <= Z.max 12000 8000 -> Z.max 12000 8000 + bucket_size w <= t -> t < 2 ^ 53 ->
       "a" ∈ (fetch w' t).1) /\
    (forall t y, y <> "a" -> y ∈ (fetch w' t).1 <-> y ∈ (fetch w t).1).
Proof.
  apply (wheel_timer_accuracy (T := string) _ 7000 8000 "a" 12000); [|lia].
  apply (wheel_fetch _ 0); [apply wheel_new; lia|lia].
Defined.
