(* ===== verification/PresenceState.v ===== *)
(** * PresenceState: presence states and their timeouts (api/presence.py, handlers/presence.py)

    The state of a user and of each of his devices, and the functions that decide what a new
    state or the passing of time changes.  Times are milliseconds.  Metrics are left out. *)
From S2P Require Import Prelude PyVal PySort PyState WheelTimer.
From Stdlib Require Import String.
Open Scope string_scope.
Open Scope list_scope.
Open Scope Z_scope.
Open Scope py_scope.
Open Scope st_scope.

Module PresenceState.
Definition OFFLINE := "offline".
Definition UNAVAILABLE := "unavailable".
Definition ONLINE := "online".
Definition BUSY := "org.matrix.msc3026.busy".
End PresenceState.

Definition LAST_ACTIVE_GRANULARITY : Z := 60 * 1000.
Definition SYNC_ONLINE_TIMEOUT : Z := 30 * 1000.
Definition BUSY_ONLINE_TIMEOUT : Z := 60 * 60 * 1000.
Definition IDLE_TIMER : Z := 5 * 60 * 1000.
Definition FEDERATION_TIMEOUT : Z := 30 * 60 * 1000.
Definition FEDERATION_PING_INTERVAL : Z := 25 * 60 * 1000.
Definition EXTERNAL_PROCESS_EXPIRY : Z := 5 * 60 * 1000.
Definition UPDATE_SYNCING_USERS : Z := 10 * 1000.

(** ** The states *)

(** The key of a device in a user's dictionary, [None] for the pseudo-device. *)
Abbreviation device_id := (option string).

Record UserDevicePresenceState := {
  dev_user_id : string;
  dev_device_id : device_id;
  dev_state : string;
  dev_last_active_ts : Z;
  dev_last_sync_ts : Z
}.

Record UserPresenceState := {
  user_id : string;
  state : string;
  last_active_ts : Z;
  last_federation_update_ts : Z;
  last_user_sync_ts : Z;
  status_msg : option string;
  currently_active : bool
}.

#[global] Instance UserPresenceState_eq_dec : EqDecision UserPresenceState.
Proof. solve_decision. Defined.

Abbreviation devices := (list (device_id * UserDevicePresenceState)).

Definition default_device (user_id : string) (d : device_id) : UserDevicePresenceState :=
  {| dev_user_id := user_id; dev_device_id := d; dev_state := PresenceState.OFFLINE;
     dev_last_active_ts := 0; dev_last_sync_ts := 0 |}.

Definition default_presence (user_id : string) : UserPresenceState :=
  {| user_id := user_id; state := PresenceState.OFFLINE; last_active_ts := 0;
     last_federation_update_ts := 0; last_user_sync_ts := 0; status_msg := None;
     currently_active := false |}.

(** [copy_and_replace], by the field replaced. *)
Definition with_state (v : string) (s : UserPresenceState) : UserPresenceState :=
  {| user_id := user_id s; state := v; last_active_ts := last_active_ts s;
     last_federation_update_ts := last_federation_update_ts s;
     last_user_sync_ts := last_user_sync_ts s; status_msg := status_msg s;
     currently_active := currently_active s |}.
Definition with_last_active_ts (v : Z) (s : UserPresenceState) : UserPresenceState :=
  {| user_id := user_id s; state := state s; last_active_ts := v;
     last_federation_update_ts := last_federation_update_ts s;
     last_user_sync_ts := last_user_sync_ts s; status_msg := status_msg s;
     currently_active := currently_active s |}.
Definition with_last_federation_update_ts (v : Z) (s : UserPresenceState) : UserPresenceState :=
  {| user_id := user_id s; state := state s; last_active_ts := last_active_ts s;
     last_federation_update_ts := v;
     last_user_sync_ts := last_user_sync_ts s; status_msg := status_msg s;
     currently_active := currently_active s |}.
Definition with_last_user_sync_ts (v : Z) (s : UserPresenceState) : UserPresenceState :=
  {| user_id := user_id s; state := state s; last_active_ts := last_active_ts s;
     last_federation_update_ts := last_federation_update_ts s;
     last_user_sync_ts := v; status_msg := status_msg s;
     currently_active := currently_active s |}.
Definition with_status_msg (v : option string) (s : UserPresenceState) : UserPresenceState :=
  {| user_id := user_id s; state := state s; last_active_ts := last_active_ts s;
     last_federation_update_ts := last_federation_update_ts s;
     last_user_sync_ts := last_user_sync_ts s; status_msg := v;
     currently_active := currently_active s |}.
Definition with_currently_active (v : bool) (s : UserPresenceState) : UserPresenceState :=
  {| user_id := user_id s; state := state s; last_active_ts := last_active_ts s;
     last_federation_update_ts := last_federation_update_ts s;
     last_user_sync_ts := last_user_sync_ts s; status_msg := status_msg s;
     currently_active := v |}.

(** Assignments to the fields of a device. *)
Definition set_dev_state (v : string) (d : UserDevicePresenceState) : UserDevicePresenceState :=
  {| dev_user_id := dev_user_id d; dev_device_id := dev_device_id d; dev_state := v;
     dev_last_active_ts := dev_last_active_ts d; dev_last_sync_ts := dev_last_sync_ts d |}.
Definition set_dev_last_active_ts (v : Z) (d : UserDevicePresenceState) : UserDevicePresenceState :=
  {| dev_user_id := dev_user_id d; dev_device_id := dev_device_id d; dev_state := dev_state d;
     dev_last_active_ts := v; dev_last_sync_ts := dev_last_sync_ts d |}.
Definition set_dev_last_sync_ts (v : Z) (d : UserDevicePresenceState) : UserDevicePresenceState :=
  {| dev_user_id := dev_user_id d; dev_device_id := dev_device_id d; dev_state := dev_state d;
     dev_last_active_ts := dev_last_active_ts d; dev_last_sync_ts := v |}.

(** ** [should_notify] *)

Definition should_notify (old_state new_state : UserPresenceState) : bool :=
  if bool_decide (old_state = new_state) then false
  else if negb (bool_decide (status_msg old_state = status_msg new_state)) then true
  else if negb (bool_decide (state old_state = state new_state)) then true
  else if bool_decide (state old_state = PresenceState.ONLINE) then
    if negb (Bool.eqb (currently_active new_state) (currently_active old_state)) then true
    else (LAST_ACTIVE_GRANULARITY <? last_active_ts new_state - last_active_ts old_state)
         && negb (currently_active new_state)
  else LAST_ACTIVE_GRANULARITY <? last_active_ts new_state - last_active_ts old_state.

(** ** [_combine_device_states] *)

(** [PRESENCE_BY_PRIORITY\[s\]] *)
Definition PRESENCE_BY_PRIORITY (s : string) : result Z :=
  if bool_decide (s = PresenceState.BUSY) then Ok 4
  else if bool_decide (s = PresenceState.ONLINE) then Ok 3
  else if bool_decide (s = PresenceState.UNAVAILABLE) then Ok 2
  else if bool_decide (s = PresenceState.OFFLINE) then Ok 1
  else Err KeyError.

Definition combine_step (acc : string * Z) (d : UserDevicePresenceState) : result (string * Z) :=
  let* p := PRESENCE_BY_PRIORITY (dev_state d) in
  let* q := PRESENCE_BY_PRIORITY acc.1 in
  Ok (if (q <? p) || ((q =? p) && (acc.2 <? dev_last_active_ts d))
      then (dev_state d, dev_last_active_ts d) else acc).

Definition _combine_device_states (ds : list UserDevicePresenceState) : result string :=
  let* r := rfold combine_step (PresenceState.OFFLINE, -1) ds in Ok r.1.

(** ** [handle_timeout] *)

(** The loop over a user's devices: the device after its turn, whether it changed, and whether
    it is to be dropped. *)
Definition timeout_device (user_id : string) (syncing_device_ids : gset (string * device_id))
    (now : Z) (d : device_id * UserDevicePresenceState) : UserDevicePresenceState * bool * bool :=
  let device_state := d.2 in
  let idle := bool_decide (dev_state device_state = PresenceState.ONLINE)
              && (IDLE_TIMER <? now - dev_last_active_ts device_state) in
  let device_state := if idle then set_dev_state PresenceState.UNAVAILABLE device_state
                      else device_state in
  let sync_or_active := Z.max (dev_last_sync_ts device_state) (dev_last_active_ts device_state) in
  let online_timeout := if bool_decide (dev_state device_state = PresenceState.BUSY)
                        then BUSY_ONLINE_TIMEOUT else SYNC_ONLINE_TIMEOUT in
  let offline := negb (bool_decide ((user_id, d.1) ∈ syncing_device_ids))
                 && (online_timeout <? now - sync_or_active) in
  (device_state, idle || offline, offline).

Definition timeout_devices (user_id : string) (syncing_device_ids : gset (string * device_id))
    (now : Z) (ds : devices) : devices * bool :=
  let turns := map (fun d => (d.1, timeout_device user_id syncing_device_ids now d)) ds in
  (map (fun t => (t.1, t.2.1.1)) (List.filter (fun t => negb t.2.2) turns),
   existsb (fun t => t.2.1.2) turns).

(** The state to store, if any, and the user's devices, which are changed in place. *)
Definition handle_timeout (st : UserPresenceState) (is_mine : bool)
    (syncing_device_ids : gset (string * device_id)) (user_devices : devices) (now : Z)
    : result (option UserPresenceState) * devices :=
  if bool_decide (state st = PresenceState.OFFLINE) then (Ok None, user_devices)
  else if is_mine then
    let (user_devices, device_changed) :=
      timeout_devices (user_id st) syncing_device_ids now user_devices in
    let combined :=
      if device_changed then
        let* new_presence := _combine_device_states (dvals user_devices) in
        if bool_decide (new_presence = state st) then Ok (st, false)
        else Ok (with_state new_presence st, true)
      else Ok (st, false) in
    (let* (st, changed) := combined in
     let changed := changed || (LAST_ACTIVE_GRANULARITY <? now - last_active_ts st) in
     let changed := changed || (FEDERATION_PING_INTERVAL <? now - last_federation_update_ts st) in
     Ok (if changed then Some st else None), user_devices)
  else if FEDERATION_TIMEOUT <? now - last_federation_update_ts st then
    (Ok (Some (with_state PresenceState.OFFLINE st)), user_devices)
  else (Ok None, user_devices).

(** The devices of all users; what a user without devices gets is thrown away. *)
Definition timeout_user (is_mine_fn : string -> bool)
    (syncing_user_devices : gset (string * device_id)) (now : Z)
    (changes : list (string * UserPresenceState)) (st : UserPresenceState)
    : St (gmap string devices) (list (string * UserPresenceState)) := fun user_to_devices =>
  let (r, ds) := handle_timeout st (is_mine_fn (user_id st)) syncing_user_devices
                   (default [] (user_to_devices !! user_id st)) now in
  (let* new_state := r in
   Ok (match new_state with Some s => dset (user_id st) s changes | None => changes end),
   match user_to_devices !! user_id st with
   | Some _ => <[user_id st := ds]> user_to_devices
   | None => user_to_devices
   end).

Definition handle_timeouts (user_states : list UserPresenceState) (is_mine_fn : string -> bool)
    (syncing_user_devices : gset (string * device_id)) (now : Z)
    : St (gmap string devices) (list UserPresenceState) :=
  let! changes := st_fold (timeout_user is_mine_fn syncing_user_devices now) [] user_states in
  st_ret (dvals changes).

(** ** [handle_update] *)

Definition wheel_insert (now : Z) (obj : string) (thn : Z) : St (WheelTimer (T := string)) unit :=
  fun w => match insert w now obj thn with
           | Ok w => (Ok tt, w)
           | Err e => (Err e, w)
           end.

Definition insert_unless (persist : bool) (now : Z) (obj : string) (thn : Z)
    : St (WheelTimer (T := string)) unit :=
  if persist then st_ret tt else wheel_insert now obj thn.

Definition update_mine (new_state : UserPresenceState) (now : Z) (persist : bool)
    : St (WheelTimer (T := string)) (UserPresenceState * bool) :=
  let user_id := user_id new_state in
  let! new_state :=
    (if bool_decide (state new_state = PresenceState.ONLINE) then
       insert_unless persist now user_id (last_active_ts new_state + IDLE_TIMER) ;;!
       let active := now - last_active_ts new_state <? LAST_ACTIVE_GRANULARITY in
       let new_state := with_currently_active active new_state in
       (if active then
          insert_unless persist now user_id (last_active_ts new_state + LAST_ACTIVE_GRANULARITY)
        else st_ret tt) ;;!
       st_ret new_state
     else st_ret new_state) in
  let! (new_state, federation_ping) :=
    (if bool_decide (state new_state = PresenceState.OFFLINE) then st_ret (new_state, false)
     else
       insert_unless persist now user_id (last_user_sync_ts new_state + SYNC_ONLINE_TIMEOUT) ;;!
       (if FEDERATION_PING_INTERVAL <? now - last_federation_update_ts new_state
        then st_ret (with_last_federation_update_ts now new_state, true)
        else st_ret (new_state, false))) in
  (if bool_decide (state new_state = PresenceState.BUSY) then
     insert_unless persist now user_id (last_user_sync_ts new_state + BUSY_ONLINE_TIMEOUT)
   else st_ret tt) ;;!
  st_ret (new_state, federation_ping).

Definition handle_update (prev_state new_state : UserPresenceState) (is_mine : bool) (now : Z)
    (persist : bool) : St (WheelTimer (T := string)) (UserPresenceState * bool * bool) :=
  let! (new_state, federation_ping) :=
    (if is_mine then update_mine new_state now persist
     else
       insert_unless persist now (user_id new_state)
         (last_federation_update_ts new_state + FEDERATION_TIMEOUT) ;;!
       st_ret (new_state, false)) in
  if should_notify prev_state new_state
  then st_ret (with_last_federation_update_ts now new_state, true, federation_ping)
  else st_ret (new_state, false, federation_ping).

(** ** [format_user_presence_state] *)

Definition format_user_presence_state (s : UserPresenceState) (now : Z) (include_user_id : bool)
    : obj :=
  let content := [("presence", JStr (state s))] in
  let content := if include_user_id then dset "user_id" (JStr (user_id s)) content else content in
  let content := if last_active_ts s =? 0 then content
                 else dset "last_active_ago" (JInt (now - last_active_ts s)) content in
  let content := match status_msg s with
                 | Some m => if bool_decide (m = "") then content else dset "status_msg" (JStr m) content
                 | None => content
                 end in
  if bool_decide (state s = PresenceState.ONLINE)
  then dset "currently_active" (JBool (currently_active s)) content else content.

(** * Modules that route presence (events/presence_router.py)

    Modules may send presence further than to the users who share a room.  What a module's
    callback does is an argument: it may raise, return something of a wrong type, or answer.
    Cancellation and logging are left out. *)
Open Scope string_scope.
Open Scope list_scope.
Open Scope py_scope.

Inductive answer (A : Type) :=
  | Raised
  | WrongType
  | Answered (a : A).
Arguments Raised {A}.
Arguments WrongType {A}.
Arguments Answered {A} a.

(** A dictionary of sets, [None] for an entry that is not a set. *)
Abbreviation routed := (answer (list (string * option (list UserPresenceState)))).

(** A set of users, or [ALL_USERS]. *)
Inductive interest := ALL_USERS | SomeUsers (users : gset string).

Record PresenceRouter := {
  _get_users_for_states_callbacks : list (list UserPresenceState -> routed);
  _get_interested_users_callbacks : list (string -> answer interest)
}.

Definition new_router : PresenceRouter :=
  {| _get_users_for_states_callbacks := []; _get_interested_users_callbacks := [] |}.

(** Both callbacks or neither. *)
Definition register_presence_router_callbacks
    (get_users_for_states : option (list UserPresenceState -> routed))
    (get_interested_users : option (string -> answer interest)) (r : PresenceRouter)
    : result PresenceRouter :=
  match get_users_for_states, get_interested_users with
  | Some f, Some g =>
      Ok {| _get_users_for_states_callbacks := _get_users_for_states_callbacks r ++ [f];
            _get_interested_users_callbacks := _get_interested_users_callbacks r ++ [g] |}
  | None, None => Ok r
  | _, _ => Err (RuntimeError "PresenceRouter modules must register neither or both of the paired callbacks: [get_users_for_states, get_interested_users]")
  end.

(** The entries up to the first that is not a set. *)
Fixpoint add_routed (users_for_states : list (string * list UserPresenceState))
    (items : list (string * option (list UserPresenceState)))
    : list (string * list UserPresenceState) :=
  match items with
  | (key, Some new_entries) :: items =>
      add_routed (dset key (remove_dups (default [] (dget key users_for_states) ++ new_entries))
                    users_for_states) items
  | (_, None) :: _ | [] => users_for_states
  end.

Definition router_users_for_states (r : PresenceRouter) (state_updates : list UserPresenceState)
    : list (string * list UserPresenceState) :=
  fold_left (fun d callback => match callback state_updates with
                               | Answered items => add_routed d items
                               | Raised | WrongType => d
                               end) (_get_users_for_states_callbacks r) [].

Fixpoint ask_callbacks (user_id : string) (callbacks : list (string -> answer interest))
    (interested_users : gset string) : interest :=
  match callbacks with
  | [] => SomeUsers interested_users
  | callback :: callbacks =>
      match callback user_id with
      | Answered ALL_USERS => ALL_USERS
      | Answered (SomeUsers users) => ask_callbacks user_id callbacks (interested_users ∪ users)
      | Raised | WrongType => ask_callbacks user_id callbacks interested_users
      end
  end.

Definition get_interested_users (r : PresenceRouter) (user_id : string) : interest :=
  ask_callbacks user_id (_get_interested_users_callbacks r) ∅.
