(* ===== verification/PresenceQueue.v ===== *)
(** * PresenceQueue: presence sent to particular servers (handlers/presence.py,
    replication/tcp/streams/_base.py, replication/tcp/handler.py)

    [PresenceFederationQueue] keeps the presence that was to be sent to given servers for some
    minutes, so that the workers that talk to these servers can fetch what they missed.  A
    worker fetches in several calls, each with a limited number of rows.  What the sender in
    the process itself is given is recorded in [_federation]. *)
From S2P Require Import Prelude PyVal PyState PresenceState.
From Stdlib Require Import String.
Open Scope string_scope.
Open Scope list_scope.
Open Scope Z_scope.
Open Scope py_scope.
Open Scope st_scope.

(** ** [bisect] *)

(** [bisect_right]: the index before which [x] is to be inserted, found by halving; [lt] says
    whether [x] is less than an item. *)
Fixpoint bisect_loop {A} (lt : A -> bool) (l : list A) (fuel : nat) (lo hi : nat) : result nat :=
  match fuel with
  | O => Err OutOfFuel
  | S fuel =>
      if (lo <? hi)%nat then
        let mid := ((lo + hi) / 2)%nat in
        match l !! mid with
        | Some a => if lt a then bisect_loop lt l fuel lo mid else bisect_loop lt l fuel (S mid) hi
        | None => Err IndexError
        end
      else Ok lo
  end.

(** Every turn shrinks the interval. *)
Definition bisect {A} (lt : A -> bool) (l : list A) : result nat :=
  bisect_loop lt l (S (List.length l)) 0 (List.length l).

(** [l\[i:\]] *)
Definition py_slice_from {A} (l : list A) (i : Z) : list A :=
  drop (Z.to_nat (if i <? 0 then Z.max 0 (Z.of_nat (List.length l) + i) else i)) l.

(** ** The queue *)

Definition _KEEP_ITEMS_IN_QUEUE_FOR_MS : Z := 5 * 60 * 1000.

Record queued := {
  q_timestamp : Z;
  q_stream_id : Z;
  q_destinations : list string;
  q_user_ids : list string
}.

(** What a federation sender was given, in order. *)
Abbreviation sent := (list (list UserPresenceState * list string)).

Record PresenceFederationQueue := {
  _instance_name : string;
  _queue_presence_updates : bool;
  _presence_writer : bool;
  _federation : option sent;
  _queue : list queued;
  _next_id : Z;
  _current_tokens : gmap string Z
}.

Definition set_queue (l : list queued) (q : PresenceFederationQueue) : PresenceFederationQueue :=
  {| _instance_name := _instance_name q; _queue_presence_updates := _queue_presence_updates q;
     _presence_writer := _presence_writer q; _federation := _federation q; _queue := l;
     _next_id := _next_id q; _current_tokens := _current_tokens q |}.
Definition set_next_id (n : Z) (q : PresenceFederationQueue) : PresenceFederationQueue :=
  {| _instance_name := _instance_name q; _queue_presence_updates := _queue_presence_updates q;
     _presence_writer := _presence_writer q; _federation := _federation q; _queue := _queue q;
     _next_id := n; _current_tokens := _current_tokens q |}.
Definition set_current_token (i : string) (n : Z) (q : PresenceFederationQueue)
    : PresenceFederationQueue :=
  {| _instance_name := _instance_name q; _queue_presence_updates := _queue_presence_updates q;
     _presence_writer := _presence_writer q; _federation := _federation q; _queue := _queue q;
     _next_id := _next_id q; _current_tokens := <[i := n]> (_current_tokens q) |}.
Definition federation_send (states : list UserPresenceState) (destinations : list string)
    (q : PresenceFederationQueue) : PresenceFederationQueue :=
  {| _instance_name := _instance_name q; _queue_presence_updates := _queue_presence_updates q;
     _presence_writer := _presence_writer q;
     _federation := (fun s => s ++ [(states, destinations)]) <$> _federation q;
     _queue := _queue q; _next_id := _next_id q; _current_tokens := _current_tokens q |}.

(** [__init__]; [instances] are those that send to federation. *)
Definition new_queue (instance_name : string) (presence_writer should_send_federation : bool)
    (instances : list string) : PresenceFederationQueue :=
  {| _instance_name := instance_name;
     _queue_presence_updates :=
       negb (should_send_federation && bool_decide (instances = [instance_name]));
     _presence_writer := presence_writer;
     _federation := if should_send_federation then Some [] else None;
     _queue := []; _next_id := 1; _current_tokens := ∅ |}.

(** The tuple [(clear_before,)] is less than the entries from that time on. *)
Definition _clear_queue (now : Z) : St PresenceFederationQueue unit :=
  let clear_before := now - _KEEP_ITEMS_IN_QUEUE_FOR_MS in
  let! q := st_read _queue in
  let! index := st_lift (bisect (fun e => clear_before <=? q_timestamp e) q) in
  st_modify (set_queue (drop index q)).

Definition send_presence_to_destinations (now : Z) (states : list UserPresenceState)
    (destinations : list string) : St PresenceFederationQueue unit :=
  let! writer := st_read _presence_writer in
  if negb writer then st_raise AssertionError
  else match states, destinations with
  | [], _ | _, [] => st_ret tt
  | _, _ =>
      st_modify (federation_send states destinations) ;;!
      let! keep := st_read _queue_presence_updates in
      if negb keep then st_ret tt
      else
        let! stream_id := st_read _next_id in
        st_modify (set_next_id (stream_id + 1)) ;;!
        let! q := st_read _queue in
        st_modify (set_queue (q ++ [{| q_timestamp := now; q_stream_id := stream_id;
          q_destinations := destinations;
          q_user_ids := remove_dups (map user_id states) |}]))
  end.

Definition queue_current_token (instance_name : string) (q : PresenceFederationQueue) : Z :=
  if bool_decide (instance_name = _instance_name q) then _next_id q - 1
  else default 0 (_current_tokens q !! instance_name).

Section rows.
Context `{SetOrder}.

(** The rows of an entry: [(stream_id, (destination, user_id))]. *)
Definition entry_rows (e : queued) : list (Z * (string * string)) :=
  flat_map (fun destination => map (fun user_id => (q_stream_id e, (destination, user_id)))
                                   (set_iter (q_user_ids e)))
    (q_destinations e).

Fixpoint rows_loop (from_token upto_token target_row_count : Z) (l : list queued)
    (to_send : list (Z * (string * string))) (new_id : Z)
    : list (Z * (string * string)) * Z * bool :=
  match l with
  | [] => (to_send, new_id, false)
  | e :: l =>
      if q_stream_id e <=? from_token then
        rows_loop from_token upto_token target_row_count l to_send new_id
      else if upto_token <? q_stream_id e then (to_send, new_id, false)
      else
        let new_id := q_stream_id e in
        let to_send := to_send ++ entry_rows e in
        if target_row_count <? Z.of_nat (List.length to_send) then (to_send, new_id, true)
        else rows_loop from_token upto_token target_row_count l to_send new_id
  end.

(** [repl_client] asks another instance. *)
Definition get_replication_rows
    (repl_client : string -> Z -> Z -> list (Z * (string * string)) * Z * bool)
    (instance_name : string) (from_token upto_token target_row_count : Z)
    (q : PresenceFederationQueue) : list (Z * (string * string)) * Z * bool :=
  if negb (bool_decide (instance_name = _instance_name q)) then
    repl_client instance_name from_token upto_token
  else if from_token =? _next_id q - 1 then ([], upto_token, false)
  else
    let start_idx := Z.max (from_token + 1 - _next_id q) (- Z.of_nat (List.length (_queue q))) in
    rows_loop from_token upto_token target_row_count (py_slice_from (_queue q) start_idx) []
      upto_token.
End rows.

(** ** Fetching what was missed *)

Definition _STREAM_UPDATE_TARGET_ROW_COUNT : Z := 100.

(** [Stream.get_updates_since] of a stream with the given [update_function]. *)
Definition get_updates_since {R} (update_function : Z -> Z -> Z -> list (Z * R) * Z * bool)
    (from_token upto_token : Z) : list (Z * R) * Z * bool :=
  if from_token =? upto_token then ([], upto_token, false)
  else update_function from_token upto_token _STREAM_UPDATE_TARGET_ROW_COUNT.

(** [_batch_updates]: the rows of one token together. *)
Fixpoint update_batches {R} (current_batch_token : Z) (current_batch : list R) (updates : list (Z * R))
    : list (Z * list R) :=
  match updates with
  | [] => [(current_batch_token, current_batch)]
  | (token, row) :: updates =>
      if token =? current_batch_token
      then update_batches current_batch_token (current_batch ++ [row]) updates
      else (current_batch_token, current_batch) :: update_batches token [row] updates
  end.

Definition _batch_updates {R} (updates : list (Z * R)) : list (Z * list R) :=
  match updates with
  | [] => []
  | (token, row) :: updates => update_batches token [row] updates
  end.

(** The loop of [_process_position]: the batches that are handed to [on_rdata], and the
    position reached. *)
Fixpoint catch_up {R} (since : Z -> Z -> list (Z * R) * Z * bool) (fuel : nat)
    (current_token new_token : Z) : result (list (Z * list R) * Z) :=
  match fuel with
  | O => Err OutOfFuel
  | S fuel =>
      match since current_token new_token with
      | (updates, current_token, missing_updates) =>
          if missing_updates then
            let* (batches, token) := catch_up since fuel current_token new_token in
            Ok (_batch_updates updates ++ batches, token)
          else Ok (_batch_updates updates, current_token)
      end
  end.

Definition process_position {R} (since : Z -> Z -> list (Z * R) * Z * bool) (fuel : nat)
    (current_token prev_token new_token : Z) : result (list (Z * list R) * Z) :=
  if (prev_token <=? current_token) && (current_token <=? new_token) then Ok ([], current_token)
  else catch_up since fuel current_token new_token.
