(* ===== verification/PresenceQueueProps.v ===== *)
(** * PresenceQueueProps: fetching presence to send, in pieces

    The abstract object is the history of all that was ever put into the queue.  A worker that
    fetches from its position up to a later one gets the rows of exactly the entries in
    between, in order, but for those that were dropped; what is dropped is old. *)
From S2P Require Import Prelude PyVal PyState PresenceState PresenceQueue.
From Stdlib Require Import String.
Open Scope string_scope.
Open Scope list_scope.
Open Scope Z_scope.
Open Scope py_scope.
Open Scope st_scope.

(** ** [bisect] *)

(** [lt] holds from some index on. *)
Definition cut_by {A} (lt : A -> bool) (l : list A) : Prop :=
  forall i j a b, (i <= j)%nat -> l !! i = Some a -> l !! j = Some b -> lt a = true -> lt b = true.

Lemma bisect_loop_ok {A} (lt : A -> bool) l fuel lo hi :
  cut_by lt l -> (lo <= hi)%nat -> (hi <= List.length l)%nat -> (hi - lo < fuel)%nat ->
  (forall j a, (j < lo)%nat -> l !! j = Some a -> lt a = false) ->
  (forall j a, (hi <= j)%nat -> l !! j = Some a -> lt a = true) ->
  exists i, bisect_loop lt l fuel lo hi = Ok i /\
    (forall j a, (j < i)%nat -> l !! j = Some a -> lt a = false) /\
    (forall j a, (i <= j)%nat -> l !! j = Some a -> lt a = true).
Proof.
  intros Hcut. revert lo hi. induction fuel as [|fuel IH]; intros lo hi Hlo Hhi Hf Hl Hr; [lia|]. simpl.
  destruct (Nat.ltb_spec lo hi) as [Hlt|Hge]; [|exists lo; replace hi with lo in * by lia; auto].
  assert (Hmid : (lo <= (lo + hi) / 2 < hi)%nat).
  { split; [apply Nat.div_le_lower_bound; lia|apply Nat.Div0.div_lt_upper_bound; lia]. }
  change (fst (Nat.divmod (lo + hi) 1 0 1)) with ((lo + hi) / 2)%nat.
  set (mid := ((lo + hi) / 2)%nat) in *. clearbody mid.
  destruct (lookup_lt_is_Some_2 l mid ltac:(lia)) as [a Ha]. rewrite Ha.
  destruct (lt a) eqn:E; apply IH; try lia; try done.
  - intros j b Hj Hb. by apply (Hcut mid j a b).
  - intros j b Hj Hb. destruct (lt b) eqn:Eb; [|done].
    rewrite (Hcut j mid b a ltac:(lia) Hb Ha Eb) in E. done.
Qed.

Lemma bisect_ok {A} (lt : A -> bool) l : cut_by lt l ->
  exists i, bisect lt l = Ok i /\ (forall j a, (j < i)%nat -> l !! j = Some a -> lt a = false) /\
    (forall j a, (i <= j)%nat -> l !! j = Some a -> lt a = true).
Proof.
  intros Hc. apply bisect_loop_ok; [done|lia|lia|lia|by intros ? ? ?%Nat.nlt_0_r|].
  intros j a Hj Ha. apply lookup_lt_Some in Ha. lia.
Qed.

(** ** The history of a queue *)

Definition new_entry (now stream_id : Z) (states : list UserPresenceState) (destinations : list string)
    : queued :=
  {| q_timestamp := now; q_stream_id := stream_id; q_destinations := destinations;
     q_user_ids := remove_dups (map user_id states) |}.

Inductive queue_at : PresenceFederationQueue -> list queued -> Z -> Prop :=
  | queue_new instance send instances c :
      _queue_presence_updates (new_queue instance true send instances) = true ->
      queue_at (new_queue instance true send instances) [] c
  | queue_send q h c now states destinations :
      queue_at q h c -> c <= now -> states <> [] -> destinations <> [] ->
      queue_at (send_presence_to_destinations now states destinations q).2
        (h ++ [new_entry now (_next_id q) states destinations]) now
  | queue_clear q h c now :
      queue_at q h c -> c <= now -> queue_at (_clear_queue now q).2 h now.

Record queue_ok (q : PresenceFederationQueue) (h : list queued) (c : Z) : Prop := {
  qo_writer : _presence_writer q = true;
  qo_keep : _queue_presence_updates q = true;
  qo_next : _next_id q = Z.of_nat (List.length h) + 1;
  qo_ids : forall i e, h !! i = Some e -> q_stream_id e = Z.of_nat i + 1;
  qo_times : forall i j e e', (i <= j)%nat -> h !! i = Some e -> h !! j = Some e' ->
    q_timestamp e <= q_timestamp e' <= c;
  (** What was dropped is old. *)
  qo_queue : exists k, _queue q = drop k h /\
    forall e, e ∈ take k h -> q_timestamp e < c - _KEEP_ITEMS_IN_QUEUE_FOR_MS
}.

Lemma queue_at_ok q h c : queue_at q h c -> queue_ok q h c.
Proof.
  induction 1 as [instance send instances c Hk|q h c now states dests _ IH Hle Hs Hd|q h c now _ IH Hle].
  - split; try done. exists 0%nat. split; [done|by intros e ?%elem_of_nil].
  - destruct IH as [I1 I2 I3 I4 I5 (k & I6 & I7)]. unfold send_presence_to_destinations, st_bind, st_read.
    rewrite I1. simpl. destruct states as [|s0 states], dests as [|d0 dests]; [done..|]. simpl.
    rewrite I2. simpl.
    assert (Hlook : forall i e, (h ++ [new_entry now (_next_id q) (s0 :: states) (d0 :: dests)]) !! i = Some e ->
      h !! i = Some e \/ (i = List.length h /\ e = new_entry now (_next_id q) (s0 :: states) (d0 :: dests))).
    { intros i e [?|[Hi He]]%lookup_app_Some; [by left|right].
      assert (i - List.length h = 0)%nat as E by (apply lookup_lt_Some in He; simpl in He; lia).
      rewrite E in He. simpl in He. simplify_eq. split; [lia|done]. }
    split; simpl.
    + done.
    + done.
    + rewrite length_app. simpl. lia.
    + intros i e [?|[-> ->]]%Hlook; [by apply I4|]. simpl. lia.
    + intros i j e e' Hij He He'.
      destruct (Hlook i e He) as [Hi|[-> ->]], (Hlook j e' He') as [Hj|[-> ->]]; simpl.
      * pose proof (I5 i j e e' Hij Hi Hj). lia.
      * pose proof (I5 i i e e (Nat.le_refl _) Hi Hi). lia.
      * apply lookup_lt_Some in Hj. lia.
      * lia.
    + exists (Nat.min k (List.length h)). split.
      * rewrite drop_app_le by lia. rewrite I6. f_equal.
        destruct (Nat.le_gt_cases k (List.length h)); [by rewrite Nat.min_l by lia|].
        rewrite Nat.min_r by lia. rewrite !drop_ge by lia. done.
      * intros e He. rewrite take_app_le in He by lia.
        assert (He' : e ∈ take k h).
        { destruct (Nat.le_gt_cases k (List.length h)); [by rewrite Nat.min_l in He by lia|].
          rewrite Nat.min_r in He by lia. rewrite take_ge in * by lia. done. }
        specialize (I7 e He'). lia.
  - destruct IH as [I1 I2 I3 I4 I5 (k & I6 & I7)]. unfold _clear_queue, st_bind, st_read, st_lift.
    set (lt := fun e => now - _KEEP_ITEMS_IN_QUEUE_FOR_MS <=? q_timestamp e).
    destruct (bisect_ok lt (_queue q)) as (i & E & Hold & _).
    { intros i j a b Hij Ha Hb. unfold lt. rewrite !Z.leb_le. rewrite I6, lookup_drop in Ha, Hb.
      pose proof (I5 (k + i)%nat (k + j)%nat a b ltac:(lia) Ha Hb). lia. }
    rewrite E. simpl. split; simpl; try done.
    + intros i' j e e' Hij Hi Hj. pose proof (I5 i' j e e' Hij Hi Hj). lia.
    + exists (k + i)%nat. split; [by rewrite I6, drop_drop|].
      intros e (j & Hj)%list_elem_of_lookup. apply lookup_take_Some in Hj as [Hj Hlt].
      destruct (Nat.le_gt_cases k j) as [Hk|Hk].
      * assert (Hold' := Hold (j - k)%nat e ltac:(lia)). rewrite I6, lookup_drop in Hold'.
        replace (k + (j - k))%nat with j in Hold' by lia. specialize (Hold' Hj). unfold lt in Hold'. boolify. lia.
      * assert (q_timestamp e < c - _KEEP_ITEMS_IN_QUEUE_FOR_MS); [|lia]. apply I7.
        apply list_elem_of_lookup. exists j. by apply lookup_take_Some.
Qed.

(** ** The rows between two positions *)

Section rows.
Context `{SetOrder}.

Definition between (from upto : Z) (l : list queued) : list queued :=
  List.filter (fun e => (from <? q_stream_id e) && (q_stream_id e <=? upto)) l.
Arguments between _ _ _ : simpl never.

Definition rows_of (l : list queued) : list (Z * (string * string)) := flat_map entry_rows l.

(** IDs grow by one along the list. *)
Definition numbered (l : list queued) : Prop :=
  forall i e e', l !! i = Some e -> l !! S i = Some e' -> q_stream_id e' = q_stream_id e + 1.

Lemma numbered_tail e l : numbered (e :: l) -> numbered l.
Proof. intros Hn i a b. apply (Hn (S i)). Qed.

Lemma numbered_head e l e' : numbered (e :: l) -> e' ∈ l -> q_stream_id e < q_stream_id e'.
Proof.
  revert e. induction l as [|e1 l IH]; intros e Hn; [by intros ?%elem_of_nil|].
  pose proof (Hn 0%nat e e1 eq_refl eq_refl) as H1. intros [->|He']%elem_of_cons; [lia|].
  pose proof (IH e1 (numbered_tail _ _ Hn) He'). lia.
Qed.

Lemma between_app from upto a b : between from upto (a ++ b) = between from upto a ++ between from upto b.
Proof. apply List.filter_app. Qed.

Lemma between_none from upto l : (forall e, e ∈ l -> q_stream_id e <= from \/ upto < q_stream_id e) ->
  between from upto l = [].
Proof.
  intros Hl. unfold between. induction l as [|e l IH]; [done|]. simpl.
  destruct (Hl e) as [Hle|Hgt]; [by left|..].
  - replace (from <? q_stream_id e) with false by (symmetry; apply Z.ltb_ge; lia). simpl. apply IH. set_solver.
  - replace (q_stream_id e <=? upto) with false by (symmetry; apply Z.leb_gt; lia). rewrite andb_false_r.
    apply IH. set_solver.
Qed.

Lemma between_split from mid upto l : numbered l -> from <= mid <= upto ->
  between from upto l = between from mid l ++ between mid upto l.
Proof.
  intros Hn Hm. induction l as [|e l IH]; [done|]. specialize (IH (numbered_tail _ _ Hn)).
  destruct (Z.le_gt_cases (q_stream_id e) mid) as [Hle|Hgt].
  - unfold between in *. simpl.
    replace (mid <? q_stream_id e) with false by (symmetry; apply Z.ltb_ge; lia).
    replace (q_stream_id e <=? upto) with true by (symmetry; apply Z.leb_le; lia).
    replace (q_stream_id e <=? mid) with true by (symmetry; apply Z.leb_le; lia).
    simpl. rewrite !andb_true_r, IH. by destruct (_ <? _).
  - rewrite (between_none from mid (e :: l)).
    + rewrite app_nil_l. apply List.filter_ext_in. intros e' He'%list_elem_of_In.
      assert (q_stream_id e <= q_stream_id e') as Hge.
      { apply elem_of_cons in He' as [->|He']; [lia|]. pose proof (numbered_head _ _ _ Hn He'). lia. }
      assert ((from <? q_stream_id e') = true) as -> by (apply Z.ltb_lt; lia).
      assert ((mid <? q_stream_id e') = true) as -> by (apply Z.ltb_lt; lia). done.
    + intros e' He'. right. apply elem_of_cons in He' as [->|He']; [done|].
      pose proof (numbered_head _ _ _ Hn He'). lia.
Qed.

(** The list is empty or its last ID is [n]. *)
Definition ends_at (n : Z) (l : list queued) : Prop :=
  l = [] \/ exists e, last l = Some e /\ q_stream_id e = n.

Lemma ends_at_tail n e l : ends_at n (e :: l) -> ends_at n l.
Proof.
  intros [?|(e' & He & Hn)]; [done|]. destruct l as [|e1 l]; [by left|right; exists e'].
  by rewrite last_cons_cons in He.
Qed.

(** An entry after which nothing is in between is the last one asked for. *)
Lemma between_end n from upto e l : numbered (e :: l) -> ends_at n (e :: l) -> upto <= n ->
  from < q_stream_id e <= upto -> between from upto l = [] -> q_stream_id e = upto.
Proof.
  intros Hn [?|(e' & He & Hid)] Hup Hle Hb; [done|]. destruct l as [|e1 l].
  - simpl in He. simplify_eq. lia.
  - pose proof (Hn 0%nat e e1 eq_refl eq_refl) as H1. unfold between in Hb. simpl in Hb.
    destruct ((from <? q_stream_id e1) && (q_stream_id e1 <=? upto)) eqn:E; [done|].
    apply andb_false_iff in E as [E|E]; boolify; lia.
Qed.

Lemma rows_loop_ok n from upto target l to_send new_id :
  numbered l -> ends_at n l -> upto <= n ->
  exists rows id limited, rows_loop from upto target l to_send new_id = (rows, id, limited) /\
    (limited = true -> from < id <= upto /\ (exists e, e ∈ l /\ q_stream_id e = id) /\
       rows = to_send ++ rows_of (between from id l)) /\
    (limited = false -> rows = to_send ++ rows_of (between from upto l) /\
       id = if bool_decide (between from upto l = []) then new_id else upto).
Proof.
  intros Hn Hends Hle. revert to_send new_id.
  induction l as [|e l IH]; intros to_send new_id.
  { do 3 eexists. split; [done|]. split; [done|]. intros _. simpl. by rewrite app_nil_r. }
  specialize (IH (numbered_tail _ _ Hn) (ends_at_tail _ _ _ Hends)). simpl.
  assert (Hafter : forall e', e' ∈ l -> q_stream_id e < q_stream_id e') by (intros; by eapply numbered_head).
  destruct (Z.leb_spec (q_stream_id e) from) as [Hfrom|Hfrom].
  - destruct (IH to_send new_id) as (rows & id & limited & E & Ht & Hf).
    assert (Hskip : forall u, between from u (e :: l) = between from u l).
    { intros u. unfold between. simpl. by replace (from <? q_stream_id e) with false by (symmetry; apply Z.ltb_ge; lia). }
    exists rows, id, limited. rewrite !Hskip. split; [done|]. split; [|done].
    intros Hl. destruct (Ht Hl) as (Hid & (e' & He' & Hid') & Hrows). split; [done|].
    split; [|done]. exists e'. split; [set_solver|done].
  - destruct (Z.ltb_spec upto (q_stream_id e)) as [Hup|Hup].
    { do 3 eexists. split; [done|]. split; [done|]. intros _.
      rewrite between_none; [simpl; by rewrite app_nil_r|].
      intros e' [->|He']%elem_of_cons; [by right|right]. specialize (Hafter e' He'). lia. }
    assert (Hcons : forall u, q_stream_id e <= u -> between from u (e :: l) = e :: between from u l).
    { intros u Hu. unfold between. simpl.
      replace (from <? q_stream_id e) with true by (symmetry; apply Z.ltb_lt; lia).
      by replace (q_stream_id e <=? u) with true by (symmetry; apply Z.leb_le; lia). }
    destruct (target <? _).
    + do 3 eexists. split; [done|]. split; [|done]. intros _. split; [lia|]. split; [set_solver|].
      rewrite Hcons by lia. rewrite (between_none from (q_stream_id e) l).
      * simpl. by rewrite app_nil_r.
      * intros e' He'. right. by apply Hafter.
    + destruct (IH (to_send ++ entry_rows e) (q_stream_id e)) as (rows & id & limited & E & Ht & Hf).
      exists rows, id, limited. split; [done|]. split.
      * intros Hl. destruct (Ht Hl) as (Hid & (e' & He' & Hid') & ->). specialize (Hafter e' He').
        split; [lia|]. split; [exists e'; split; [set_solver|done]|].
        rewrite Hcons by lia. simpl. by rewrite app_assoc.
      * intros Hl. destruct (Hf Hl) as [-> ->]. rewrite Hcons by done. simpl. rewrite app_assoc. split; [done|].
        case_bool_decide as Hb; [|done]. by apply (between_end n from upto e l).
Qed.

(** ** The part of the queue a call looks at *)

Record queue_shape (l : list queued) (k next : Z) : Prop := {
  qs_first : 0 <= k;
  qs_ids : forall j e, l !! j = Some e -> q_stream_id e = k + Z.of_nat j + 1;
  qs_next : l <> [] -> next = k + Z.of_nat (List.length l) + 1
}.

Lemma shape_numbered l k next : queue_shape l k next -> numbered l.
Proof. intros [_ Hi _] i e e' He He'. apply Hi in He, He'. lia. Qed.

Lemma shape_ends l k next : queue_shape l k next -> ends_at (next - 1) l.
Proof.
  intros [_ Hi Hn]. destruct (decide (l = [])) as [->|Hne]; [by left|]. right. specialize (Hn Hne).
  destruct (last l) as [e|] eqn:E; [|by apply last_None in E]. exists e. split; [done|].
  rewrite last_lookup in E. apply Hi in E. assert (List.length l <> 0)%nat by (by destruct l). lia.
Qed.

Lemma shape_drop l k next n : queue_shape l k next -> queue_shape (drop n l) (k + Z.of_nat n) next.
Proof.
  intros [H0 Hi Hn]. split; [lia|..].
  - intros j e He. rewrite lookup_drop in He. apply Hi in He. lia.
  - intros Hne. assert (n < List.length l)%nat.
    { destruct (Nat.lt_ge_cases n (List.length l)); [done|]. by rewrite drop_ge in Hne. }
    rewrite length_drop. rewrite Hn; [lia|]. intros ->. simpl in *. lia.
Qed.

(** The slice leaves out only entries from before the position. *)
Lemma slice_between l k next from : queue_shape l k next -> from + 1 < next ->
  exists n, py_slice_from l (Z.max (from + 1 - next) (- Z.of_nat (List.length l))) = drop n l /\
    forall upto, between from upto (drop n l) = between from upto l.
Proof.
  intros Hs Hlt. eexists. split; [done|]. intros upto. set (n := Z.to_nat _). rewrite <- (take_drop n l) at 2.
  rewrite between_app, (between_none _ _ (take n l)); [done|].
  intros e (j & Hj)%list_elem_of_lookup. apply lookup_take_Some in Hj as [Hj Hlt'].
  pose proof (qs_ids _ _ _ Hs _ _ Hj) as Hid. pose proof (lookup_lt_Some _ _ _ Hj) as Hlen.
  assert (l <> []) as Hne by (by intros ->). pose proof (qs_next _ _ _ Hs Hne). left. subst n.
  destruct (Z.ltb_spec (Z.max (from + 1 - next) (- Z.of_nat (List.length l))) 0); lia.
Qed.

Lemma queue_ok_shape q h c : queue_ok q h c -> exists k,
  _queue q = drop k h /\ (forall e, e ∈ take k h -> q_timestamp e < c - _KEEP_ITEMS_IN_QUEUE_FOR_MS) /\
  queue_shape (_queue q) (Z.of_nat k) (_next_id q).
Proof.
  intros [_ _ Hnext Hids _ (k & Hq & Hold)]. exists k. split_and!; [done..|]. rewrite Hq.
  change (Z.of_nat k) with (0 + Z.of_nat k). apply shape_drop. split; [done|..].
  - intros j e ->%Hids. lia.
  - intros _. lia.
Qed.

(** ** Catching up *)

Lemma batch_loop_rows {R} token (batch : list R) updates :
  flat_map (fun b => map (pair b.1) b.2) (update_batches token batch updates)
  = map (pair token) batch ++ updates.
Proof.
  revert token batch. induction updates as [|[t r] updates IH]; intros token batch; simpl.
  - done.
  - destruct (Z.eqb_spec t token) as [->|_]; simpl; rewrite IH; [|done].
    by rewrite map_app, <- app_assoc.
Qed.

(** The rows of the batches, each with its token. *)
Definition unbatch {R} (batches : list (Z * list R)) : list (Z * R) :=
  flat_map (fun b => map (pair b.1) b.2) batches.

Lemma unbatch_batch {R} (updates : list (Z * R)) : unbatch (_batch_updates updates) = updates.
Proof. destruct updates as [|[t r] updates]; [done|]. unfold unbatch. simpl. by rewrite batch_loop_rows. Qed.

Lemma unbatch_app {R} (a b : list (Z * list R)) : unbatch (a ++ b) = unbatch a ++ unbatch b.
Proof. apply flat_map_app. Qed.

Lemma rows_of_app a b : rows_of (a ++ b) = rows_of a ++ rows_of b.
Proof. apply flat_map_app. Qed.

(** What a worker asks the instance of the queue. *)
Definition presence_since (repl_client : string -> Z -> Z -> list (Z * (string * string)) * Z * bool)
    (q : PresenceFederationQueue) (from_token upto_token : Z)
    : list (Z * (string * string)) * Z * bool :=
  get_updates_since (fun from upto target =>
    get_replication_rows repl_client (_instance_name q) from upto target q) from_token upto_token.

Lemma presence_since_ok repl_client q k from upto :
  queue_shape (_queue q) k (_next_id q) -> from <= upto < _next_id q ->
  exists rows id limited, presence_since repl_client q from upto = (rows, id, limited) /\
    (limited = true -> from < id <= upto /\ rows = rows_of (between from id (_queue q))) /\
    (limited = false -> id = upto /\ rows = rows_of (between from upto (_queue q))).
Proof.
  intros Hs Hle. unfold presence_since, get_updates_since.
  destruct (Z.eqb_spec from upto) as [<-|Hne].
  { do 3 eexists. split_and!; [done..|]. intros _. split; [done|]. rewrite between_none; [done|]. intros; lia. }
  unfold get_replication_rows. rewrite bool_decide_true by done. simpl.
  replace (from =? _next_id q - 1) with false by (symmetry; apply Z.eqb_neq; lia).
  destruct (slice_between (_queue q) k (_next_id q) from Hs) as (n & -> & Hb); [lia|].
  pose proof (shape_drop _ _ _ n Hs) as Hs'.
  destruct (rows_loop_ok (_next_id q - 1) from upto _STREAM_UPDATE_TARGET_ROW_COUNT
    (drop n (_queue q)) [] upto (shape_numbered _ _ _ Hs') (shape_ends _ _ _ Hs')) as
    (rows & id & limited & E & Ht & Hf); [lia|].
  exists rows, id, limited. split_and!; [done|..].
  - intros Hl. destruct (Ht Hl) as (? & _ & ->). by rewrite Hb.
  - intros Hl. destruct (Hf Hl) as [-> ->]. split; [by destruct (bool_decide _)|].
    by rewrite Hb.
Qed.

Lemma catch_up_ok repl_client q k fuel from upto :
  queue_shape (_queue q) k (_next_id q) -> from <= upto < _next_id q -> upto - from < Z.of_nat fuel ->
  exists batches, catch_up (presence_since repl_client q) fuel from upto = Ok (batches, upto) /\
    unbatch batches = rows_of (between from upto (_queue q)).
Proof.
  intros Hs. revert from. induction fuel as [|fuel IH]; intros from Hle Hf; [lia|]. simpl.
  destruct (presence_since_ok repl_client q k from upto Hs Hle) as (rows & id & limited & -> & Ht & Hl).
  destruct limited.
  - destruct (Ht eq_refl) as [Hid ->]. destruct (IH id) as (batches & -> & Hb); [lia..|]. simpl.
    eexists. split; [done|]. rewrite unbatch_app, unbatch_batch, Hb, <- rows_of_app.
    by rewrite (between_split from id upto) by first [by eapply shape_numbered | lia].
  - destruct (Hl eq_refl) as [-> ->]. eexists. split; [done|]. apply unbatch_batch.
Qed.

(** C35: A worker that fetches from one position up to a later one, in as many calls of a bounded
    number of rows as it takes, ends at the position it wanted, with the rows of exactly the
    entries between the two, each once, in order and under the token of its entry.  All that
    is missing was dropped, and only entries older than five minutes were.  It needs no more
    calls than there are positions in between. *)
Theorem presence_queue_catch_up repl_client q h c from upto fuel :
  queue_at q h c -> from <= upto < _next_id q -> upto - from < Z.of_nat fuel ->
  exists dropped kept batches, h = dropped ++ kept /\
    (forall e, e ∈ dropped -> q_timestamp e < c - _KEEP_ITEMS_IN_QUEUE_FOR_MS) /\
    catch_up (presence_since repl_client q) fuel from upto = Ok (batches, upto) /\
    unbatch batches = rows_of (between from upto kept).
Proof.
  intros Hq Hle Hf. destruct (queue_ok_shape _ _ _ (queue_at_ok _ _ _ Hq)) as (k & Hk & Hold & Hs).
  destruct (catch_up_ok repl_client q (Z.of_nat k) fuel from upto Hs Hle Hf) as (batches & E & Hb).
  exists (take k h), (drop k h), batches. rewrite take_drop, <- Hk. done.
Qed.
End rows.

(** ** A queue whose first entry was dropped *)

Definition offline (users : list string) : list UserPresenceState := map default_presence users.

Definition dropped_queue : PresenceFederationQueue :=
  (send_presence_to_destinations 400000 (offline ["@b:s"; "@c:s"]) ["y"; "z"]
    (send_presence_to_destinations 390000 (offline ["@a:s"]) ["x"]
      (_clear_queue 380000
        (send_presence_to_destinations 1000 (offline ["@a:s"]) ["x"]
          (new_queue "w" true false [])).2).2).2).2.

#[local] Instance queue_order : SetOrder :=
  {| set_iter := fun _ l => l; set_iter_perm := fun _ l => reflexivity l |}.

Lemma dropped_queue_at : exists h, queue_at dropped_queue h 400000 /\ List.length h = 3%nat.
Proof.
  eexists. split.
  - apply queue_send with (c := 390000); [|done..]. apply queue_send with (c := 380000); [|done..].
    apply queue_clear with (c := 1000); [|done]. apply queue_send with (c := 0); [|done..].
    by apply queue_new.
  - done.
Qed.

Definition dropped_queue_rows : list (Z * list (string * string)) :=
  [(2, [("x", "@a:s")]); (3, [("y", "@b:s"); ("y", "@c:s"); ("z", "@b:s"); ("z", "@c:s")])].

Lemma presence_queue_catch_up_witness :
  catch_up (presence_since (fun _ _ _ => ([], 0, false)) dropped_queue) 4 0 3
    = Ok (dropped_queue_rows, 3) /\
  exists h dropped kept batches, queue_at dropped_queue h 400000 /\ h = dropped ++ kept /\
    (forall e, e ∈ dropped -> q_timestamp e < 100000) /\
    catch_up (presence_since (fun _ _ _ => ([], 0, false)) dropped_queue) 4 0 3 = Ok (batches, 3) /\
    unbatch batches = rows_of (between 0 3 kept).
Proof.
  split; [by vm_compute|]. destruct dropped_queue_at as (h & Hq & _). exists h.
  destruct (@presence_queue_catch_up queue_order (fun _ _ _ => ([], 0, false)) dropped_queue h 400000 0 3 4 Hq)
    as (dropped & kept & batches & H1 & H2 & H3 & H4); [by vm_compute; split|lia|].
  by exists dropped, kept, batches.
Defined.
