(* ===== verification/PresenceHandler.v ===== *)
(** * PresenceHandler: the presence of all users (handlers/presence.py)

    [PresenceHandler] keeps the state of every user and device, the timers after which they
    are looked at again, and the syncs under way in this process and in others.  Methods that
    wait for the database give way to others; where a method waits and then acts on what it
    read, the part before the wait and the part after it are definitions of their own.  A
    method takes the times its reads of the clock give.  What the handler reads of the rest of
    the server is the class [PresenceEnv]; of the table [presence_stream] (one row a user)
    [presence_table] is the content; [notified] lists the rooms and users the notifier was
    told.  Metrics and logging are left out. *)
From S2P Require Import Prelude PyVal PySort PyState Identifiers Events WheelTimer.
From S2P Require Import PresenceState PresenceQueue.
From Stdlib Require Import Ascii String.
Open Scope string_scope.
Open Scope list_scope.
Open Scope Z_scope.
Open Scope py_scope.
Open Scope st_scope.

Abbreviation user_device := (string * device_id)%type.
(** What a module wants the users' presence to be: the text is not checked. *)
Abbreviation module_presence := (list (string * (string * option string))).

Class PresenceEnv := {
  hostname : string;
  _presence_enabled : bool;
  _track_presence : bool;
  msc3026_enabled : bool;
  get_rooms_for_user : string -> list string;
  get_current_hosts_in_room : string -> list string;
  get_users_in_room : string -> list string;
  get_event : string -> option event;
  presence_router : PresenceRouter
}.

Record PresenceHandler := {
  user_to_current_state : gmap string UserPresenceState;
  wheel_timer : WheelTimer (T := string);
  user_to_devices : gmap string devices;
  unpersisted_users_changes : gset string;
  num_current_syncs : gmap user_device Z;
  external_syncs : gmap string (gset user_device);
  external_last_updated : gmap string Z;
  federation_queue : PresenceFederationQueue;
  presence_table : gmap string UserPresenceState;
  notified : list (list string * list string);
  event_pos : Z
}.

(** Assignments to the attributes. *)
Definition set_current_state (f : gmap string UserPresenceState -> gmap string UserPresenceState)
    (h : PresenceHandler) : PresenceHandler :=
  {| user_to_current_state := f (user_to_current_state h); wheel_timer := wheel_timer h;
     user_to_devices := user_to_devices h; unpersisted_users_changes := unpersisted_users_changes h;
     num_current_syncs := num_current_syncs h; external_syncs := external_syncs h;
     external_last_updated := external_last_updated h; federation_queue := federation_queue h;
     presence_table := presence_table h; notified := notified h; event_pos := event_pos h |}.
Definition set_wheel_timer (w : WheelTimer (T := string)) (h : PresenceHandler) : PresenceHandler :=
  {| user_to_current_state := user_to_current_state h; wheel_timer := w;
     user_to_devices := user_to_devices h; unpersisted_users_changes := unpersisted_users_changes h;
     num_current_syncs := num_current_syncs h; external_syncs := external_syncs h;
     external_last_updated := external_last_updated h; federation_queue := federation_queue h;
     presence_table := presence_table h; notified := notified h; event_pos := event_pos h |}.
Definition set_user_devices (m : gmap string devices) (h : PresenceHandler) : PresenceHandler :=
  {| user_to_current_state := user_to_current_state h; wheel_timer := wheel_timer h;
     user_to_devices := m; unpersisted_users_changes := unpersisted_users_changes h;
     num_current_syncs := num_current_syncs h; external_syncs := external_syncs h;
     external_last_updated := external_last_updated h; federation_queue := federation_queue h;
     presence_table := presence_table h; notified := notified h; event_pos := event_pos h |}.
Definition set_unpersisted (f : gset string -> gset string) (h : PresenceHandler) : PresenceHandler :=
  {| user_to_current_state := user_to_current_state h; wheel_timer := wheel_timer h;
     user_to_devices := user_to_devices h;
     unpersisted_users_changes := f (unpersisted_users_changes h);
     num_current_syncs := num_current_syncs h; external_syncs := external_syncs h;
     external_last_updated := external_last_updated h; federation_queue := federation_queue h;
     presence_table := presence_table h; notified := notified h; event_pos := event_pos h |}.
Definition set_num_syncs (f : gmap user_device Z -> gmap user_device Z) (h : PresenceHandler)
    : PresenceHandler :=
  {| user_to_current_state := user_to_current_state h; wheel_timer := wheel_timer h;
     user_to_devices := user_to_devices h; unpersisted_users_changes := unpersisted_users_changes h;
     num_current_syncs := f (num_current_syncs h); external_syncs := external_syncs h;
     external_last_updated := external_last_updated h; federation_queue := federation_queue h;
     presence_table := presence_table h; notified := notified h; event_pos := event_pos h |}.
Definition set_external_syncs (f : gmap string (gset user_device) -> gmap string (gset user_device))
    (h : PresenceHandler) : PresenceHandler :=
  {| user_to_current_state := user_to_current_state h; wheel_timer := wheel_timer h;
     user_to_devices := user_to_devices h; unpersisted_users_changes := unpersisted_users_changes h;
     num_current_syncs := num_current_syncs h; external_syncs := f (external_syncs h);
     external_last_updated := external_last_updated h; federation_queue := federation_queue h;
     presence_table := presence_table h; notified := notified h; event_pos := event_pos h |}.
Definition set_external_updated (f : gmap string Z -> gmap string Z) (h : PresenceHandler)
    : PresenceHandler :=
  {| user_to_current_state := user_to_current_state h; wheel_timer := wheel_timer h;
     user_to_devices := user_to_devices h; unpersisted_users_changes := unpersisted_users_changes h;
     num_current_syncs := num_current_syncs h; external_syncs := external_syncs h;
     external_last_updated := f (external_last_updated h); federation_queue := federation_queue h;
     presence_table := presence_table h; notified := notified h; event_pos := event_pos h |}.
Definition set_federation_queue (q : PresenceFederationQueue) (h : PresenceHandler)
    : PresenceHandler :=
  {| user_to_current_state := user_to_current_state h; wheel_timer := wheel_timer h;
     user_to_devices := user_to_devices h; unpersisted_users_changes := unpersisted_users_changes h;
     num_current_syncs := num_current_syncs h; external_syncs := external_syncs h;
     external_last_updated := external_last_updated h; federation_queue := q;
     presence_table := presence_table h; notified := notified h; event_pos := event_pos h |}.
Definition set_table (f : gmap string UserPresenceState -> gmap string UserPresenceState)
    (h : PresenceHandler) : PresenceHandler :=
  {| user_to_current_state := user_to_current_state h; wheel_timer := wheel_timer h;
     user_to_devices := user_to_devices h; unpersisted_users_changes := unpersisted_users_changes h;
     num_current_syncs := num_current_syncs h; external_syncs := external_syncs h;
     external_last_updated := external_last_updated h; federation_queue := federation_queue h;
     presence_table := f (presence_table h); notified := notified h; event_pos := event_pos h |}.
Definition add_notified (rooms users : list string) (h : PresenceHandler) : PresenceHandler :=
  {| user_to_current_state := user_to_current_state h; wheel_timer := wheel_timer h;
     user_to_devices := user_to_devices h; unpersisted_users_changes := unpersisted_users_changes h;
     num_current_syncs := num_current_syncs h; external_syncs := external_syncs h;
     external_last_updated := external_last_updated h; federation_queue := federation_queue h;
     presence_table := presence_table h; notified := notified h ++ [(rooms, users)];
     event_pos := event_pos h |}.
Definition set_event_pos (p : Z) (h : PresenceHandler) : PresenceHandler :=
  {| user_to_current_state := user_to_current_state h; wheel_timer := wheel_timer h;
     user_to_devices := user_to_devices h; unpersisted_users_changes := unpersisted_users_changes h;
     num_current_syncs := num_current_syncs h; external_syncs := external_syncs h;
     external_last_updated := external_last_updated h; federation_queue := federation_queue h;
     presence_table := presence_table h; notified := notified h; event_pos := p |}.

Definition on_wheel {A} : St (WheelTimer (T := string)) A -> St PresenceHandler A :=
  st_zoom wheel_timer set_wheel_timer.
Definition on_devices {A} : St (gmap string devices) A -> St PresenceHandler A :=
  st_zoom user_to_devices set_user_devices.
Definition on_queue {A} : St PresenceFederationQueue A -> St PresenceHandler A :=
  st_zoom federation_queue set_federation_queue.

Section handler.
Context `{PresenceEnv, SetOrder}.

(** [hs.is_mine_id] (server.py) *)
Definition is_mine_id (user_id : string) : bool :=
  match split_once ":"%char user_id with
  | Some (_, d) => bool_decide (d = hostname)
  | None => false
  end.

Definition VALID_PRESENCE : list string :=
  [PresenceState.ONLINE; PresenceState.UNAVAILABLE; PresenceState.OFFLINE]
  ++ (if msc3026_enabled then [PresenceState.BUSY] else []).

(** ** [__init__] *)

(** A state that was not offline when the server stopped: a pseudo-device, and timers. *)
Definition start_user (now : Z) (s : UserPresenceState) : St PresenceHandler unit :=
  st_modify (fun h => set_user_devices (<[user_id s := [(None,
    {| dev_user_id := user_id s; dev_device_id := None; dev_state := state s;
       dev_last_active_ts := last_active_ts s; dev_last_sync_ts := last_user_sync_ts s |})]]>
    (user_to_devices h)) h) ;;!
  on_wheel (wheel_insert now (user_id s) (last_active_ts s + IDLE_TIMER)) ;;!
  on_wheel (wheel_insert now (user_id s) (last_user_sync_ts s + SYNC_ONLINE_TIMEOUT)) ;;!
  on_wheel (wheel_insert now (user_id s)
    (last_federation_update_ts s
     + (if is_mine_id (user_id s) then FEDERATION_PING_INTERVAL else FEDERATION_TIMEOUT))).

(** [_get_active_presence]: the rows that are not offline. *)
Definition _get_active_presence (table : gmap string UserPresenceState) : gmap string UserPresenceState :=
  filter (fun us => state us.2 <> PresenceState.OFFLINE) table.

Definition new_handler (now : Z) (table : gmap string UserPresenceState)
    (queue : PresenceFederationQueue) (room_max_stream_ordering : Z) : result unit * PresenceHandler :=
  let active := _get_active_presence table in
  (if _track_presence then st_for (start_user now) (map snd (map_to_list active)) else st_ret tt)
    {| user_to_current_state := active; wheel_timer := new_wheel 5000; user_to_devices := ∅;
       unpersisted_users_changes := ∅; num_current_syncs := ∅; external_syncs := ∅;
       external_last_updated := ∅; federation_queue := queue; presence_table := table;
       notified := []; event_pos := room_max_stream_ordering |}.

(** ** The table (storage/databases/main/presence.py) *)

Definition update_presence (states : list UserPresenceState) : St PresenceHandler unit :=
  st_modify (set_table (fun t => fold_left (fun t s => <[user_id s := s]> t) states t)).

(** The rows found, in any order. *)
Definition get_presence_for_users (user_ids : list string) (h : PresenceHandler)
    : list (string * UserPresenceState) :=
  set_iter (omap (fun u => (fun s => (u, s)) <$> presence_table h !! u) (remove_dups user_ids)).

(** ** Current states *)

Definition current_state_for_users (user_ids : list string)
    : St PresenceHandler (list (string * UserPresenceState)) :=
  let! known := st_read user_to_current_state in
  let states := fold_left (fun states u => match known !! u with
                                           | Some s => dset u s states
                                           | None => states end) user_ids [] in
  let missing := List.filter (fun u => bool_decide (known !! u = None)) user_ids in
  match missing with
  | [] => st_ret states
  | _ =>
      let! res := st_read (get_presence_for_users missing) in
      st_fold (fun states u =>
          match dget u res with
          | Some _ => st_ret states
          | None =>
              st_modify (set_current_state (<[u := default_presence u]>)) ;;!
              st_ret (dset u (default_presence u) states)
          end)
        (dupdate states res) missing
  end.

Definition current_state_for_user (user_id : string) : St PresenceHandler UserPresenceState :=
  let! res := current_state_for_users [user_id] in
  match dget user_id res with Some s => st_ret s | None => st_raise KeyError end.

Definition get_states (target_user_ids : list string) : St PresenceHandler (list UserPresenceState) :=
  let! updates_d := current_state_for_users target_user_ids in
  let updates := dvals updates_d in
  let rest := List.filter (fun u => negb (bool_decide (u ∈ map user_id updates)))
                (remove_dups target_user_ids) in
  st_ret (updates ++ map default_presence (set_iter rest)).

Definition get_state (target_user : string) : St PresenceHandler UserPresenceState :=
  let! results := get_states [target_user] in st_lift (py_index results 0).

(** ** Who is interested *)

Definition get_users_for_states (states : list UserPresenceState)
    : list (string * list UserPresenceState) :=
  router_users_for_states presence_router states.

(** [d.setdefault(k, \[\]).append(v)] and [.extend(vs)] *)
Definition append_to {V} (k : string) (vs : list V) (d : list (string * list V))
    : list (string * list V) :=
  dset k (default [] (dget k d) ++ vs) d.

Definition get_interested_parties (states : list UserPresenceState)
    : list (string * list UserPresenceState) * list (string * list UserPresenceState) :=
  let '(room_ids_to_states, users_to_states) :=
    fold_left (fun '(rooms, users) s =>
        (fold_left (fun rooms r => append_to r [s] rooms) (set_iter (get_rooms_for_user (user_id s)))
           rooms, append_to (user_id s) [s] users)) states ([], []) in
  (room_ids_to_states,
   fold_left (fun users us => append_to us.1 (set_iter us.2) users) (get_users_for_states states)
     users_to_states).

Definition get_interested_remotes (states : list UserPresenceState)
    : result (list (list string * list UserPresenceState)) :=
  let hosts_and_states :=
    map (fun s => (remove_dups (flat_map get_current_hosts_in_room (get_rooms_for_user (user_id s))),
                   [s])) states in
  let* additional := rmap (fun us => let* host := get_domain_from_id us.1 in Ok ([host], us.2))
                       (get_users_for_states states) in
  Ok (hosts_and_states ++ additional).

(** ** Telling others *)

Definition maybe_send_presence_to_interested_destinations (states : list UserPresenceState)
    : St PresenceHandler unit :=
  let! sender := st_read (fun h => _federation (federation_queue h)) in
  match sender with
  | None => st_ret tt
  | Some _ =>
      match List.filter (fun s => is_mine_id (user_id s)) states with
      | [] => st_ret tt
      | states =>
          let! hosts_to_states := st_lift (get_interested_remotes states) in
          st_for (fun hs => on_queue (st_modify (federation_send hs.2 hs.1))) hosts_to_states
      end
  end.

Definition _persist_and_notify (states : list UserPresenceState) : St PresenceHandler unit :=
  update_presence states ;;!
  let (room_ids_to_states, users_to_states) := get_interested_parties states in
  st_lift (rmap UserID.from_string (dkeys users_to_states)) ;;!
  st_modify (add_notified (dkeys room_ids_to_states) (dkeys users_to_states)) ;;!
  maybe_send_presence_to_interested_destinations states.

(** ** [_update_states] *)

Abbreviation updates := (list (string * UserPresenceState)).

(** One new state: what is to be told, and what is to be sent as a keep-alive. *)
Definition update_one (now : Z) (force_notify : bool) (acc : updates * updates)
    (new_state : UserPresenceState) : St PresenceHandler (updates * updates) :=
  let u := user_id new_state in
  let! known := st_read user_to_current_state in
  let prev_state := default (default_presence u) (known !! u) in
  let! (new_state, should_notify, should_ping) :=
    on_wheel (handle_update prev_state new_state (is_mine_id u) now (negb _track_presence)) in
  st_modify (set_current_state (<[u := new_state]>)) ;;!
  st_ret (if should_notify || force_notify then (dset u new_state acc.1, acc.2)
          else if should_ping : bool then (acc.1, dset u new_state acc.2) else acc).

(** The part without a wait: only the last state of each user counts. *)
Definition update_core (now : Z) (new_states : list UserPresenceState) (force_notify : bool)
    : St PresenceHandler (updates * updates * list string) :=
  let new_states := dvals (fold_left (fun d s => dset (user_id s) s d) new_states []) in
  let! (to_notify, to_federation_ping) := st_fold (update_one now force_notify) ([], []) new_states in
  st_ret (to_notify, to_federation_ping, map user_id new_states).

(** The rest: [now] is the time of the keep-alives. *)
Definition update_rest (now : Z) (plan : updates * updates * list string) : St PresenceHandler unit :=
  let '(to_notify, to_federation_ping, users) := plan in
  match to_notify with
  | [] => st_ret tt
  | _ => _persist_and_notify (dvals to_notify)
  end ;;!
  st_modify (set_unpersisted (fun s => (s ∪ list_to_set users) ∖ list_to_set (dkeys to_notify))) ;;!
  match List.filter (fun us => negb (dmem us.1 to_notify)) to_federation_ping with
  | [] => st_ret tt
  | to_federation_ping =>
      let! hosts_to_states := st_lift (get_interested_remotes (dvals to_federation_ping)) in
      st_for (fun hs => on_queue (send_presence_to_destinations now hs.2 hs.1)) hosts_to_states
  end.

Definition _update_states (now now2 : Z) (new_states : list UserPresenceState) (force_notify : bool)
    : St PresenceHandler unit :=
  if negb _presence_enabled then st_ret tt
  else let! plan := update_core now new_states force_notify in update_rest now2 plan.

(** ** Persisting *)

(** [\[self.user_to_current_state\[u\] for u in users\]] *)
Definition current_states (users : list string) (h : PresenceHandler)
    : result (list UserPresenceState) :=
  rmap (fun u => match user_to_current_state h !! u with Some s => Ok s | None => Err KeyError end)
    users.

Definition _persist_unpersisted_changes : St PresenceHandler unit :=
  let! unpersisted := st_read unpersisted_users_changes in
  st_modify (set_unpersisted (fun _ => ∅)) ;;!
  if bool_decide (unpersisted = ∅) then st_ret tt
  else
    let! r := st_read (current_states (set_iter (elements unpersisted))) in
    let! states := st_lift r in update_presence states.

(** [is_running] says whether the database still takes updates. *)
Definition _on_shutdown (is_running : bool) : St PresenceHandler unit :=
  if negb is_running then st_ret tt
  else
    let! unpersisted := st_read unpersisted_users_changes in
    if bool_decide (unpersisted = ∅) then st_ret tt
    else
      let! r := st_read (current_states (set_iter (elements unpersisted))) in
      let! states := st_lift r in update_presence states.

(** ** [_handle_timeouts] *)

Definition expire_process (users : list string) (process_id : string)
    : St PresenceHandler (list string) :=
  let! syncs := st_read (fun h => default ∅ (external_syncs h !! process_id)) in
  st_modify (set_external_syncs (delete process_id)) ;;!
  st_modify (set_external_updated (delete process_id)) ;;!
  st_ret (users ++ map fst (elements syncs)).

Definition expired_process_ids (now : Z) (h : PresenceHandler) : list string :=
  map fst (List.filter (fun p => EXTERNAL_PROCESS_EXPIRY <? now - p.2)
             (map_to_list (external_last_updated h))).

Definition syncing_user_devices (h : PresenceHandler) : gset user_device :=
  list_to_set (map fst (List.filter (fun p => negb (p.2 =? 0)) (map_to_list (num_current_syncs h))))
  ∪ ⋃ (map snd (map_to_list (external_syncs h))).

Definition _handle_timeouts (now now2 now3 : Z) : St PresenceHandler unit :=
  let! fetched := on_wheel (fun w => let (l, w) := fetch w now in (Ok l, w)) in
  let! expired := st_read (expired_process_ids now) in
  let! users_to_check := st_fold expire_process fetched expired in
  let! known := st_read user_to_current_state in
  let states := map (fun u => default (default_presence u) (known !! u))
                  (set_iter (remove_dups users_to_check)) in
  let! syncing := st_read syncing_user_devices in
  let! changes := on_devices (handle_timeouts states is_mine_id syncing now) in
  _update_states now2 now3 changes false.

(** ** Activity *)

(** [self._user_to_device_to_current_state.setdefault(user_id, \{\}).setdefault(device_id,
    default)], changed by [f]. *)
Definition touch_device (user_id : string) (d : device_id)
    (f : UserDevicePresenceState -> UserDevicePresenceState) : St PresenceHandler unit :=
  on_devices (st_modify (fun m =>
    let ds := default [] (m !! user_id) in
    <[user_id := dset d (f (default (default_device user_id d) (dget d ds))) ds]> m)).

Definition combined_state (user_id : string) : St PresenceHandler string :=
  let! m := st_read user_to_devices in
  st_lift (_combine_device_states (dvals (default [] (m !! user_id)))).

Definition bump_device (user_id : string) (d : device_id) (now : Z) : St PresenceHandler unit :=
  touch_device user_id d (fun device_state =>
    let device_state := set_dev_last_active_ts now device_state in
    if bool_decide (dev_state device_state = PresenceState.UNAVAILABLE)
    then set_dev_state PresenceState.ONLINE device_state else device_state).

(** After [prev_state] was read. *)
Definition bump_user (user_id : string) (prev_state : UserPresenceState) (now now2 now3 : Z)
    : St PresenceHandler unit :=
  let! combined := combined_state user_id in
  _update_states now2 now3 [with_state combined (with_last_active_ts now prev_state)] false.

Definition bump_presence_active_time (user_id : string) (d : device_id) (now now2 now3 : Z)
    : St PresenceHandler unit :=
  if negb _track_presence then st_ret tt
  else
    bump_device user_id d now ;;!
    let! prev_state := current_state_for_user user_id in
    bump_user user_id prev_state now now2 now3.

(** [set_state] after [prev_state] was read. *)
Definition set_state_of (user_id : string) (d : device_id) (presence : string)
    (status_msg : option string) (force_notify is_sync : bool) (prev_state : UserPresenceState)
    (now now2 now3 : Z) : St PresenceHandler unit :=
  let presence := if bool_decide (state prev_state = PresenceState.BUSY) && is_sync
                  then PresenceState.BUSY else presence in
  touch_device user_id d (fun device_state =>
    let device_state := set_dev_last_active_ts now (set_dev_state presence device_state) in
    if is_sync then set_dev_last_sync_ts now device_state else device_state) ;;!
  let! presence := combined_state user_id in
  let new_state := with_state presence prev_state in
  let new_state :=
    if bool_decide (presence = PresenceState.ONLINE) || bool_decide (presence = PresenceState.BUSY)
    then with_last_active_ts now new_state else new_state in
  let new_state := if is_sync then with_last_user_sync_ts now new_state
                   else with_status_msg status_msg new_state in
  _update_states now2 now3 [new_state] force_notify.

(** [st] is the dictionary of the new presence; [prev_state] is read after [now]. *)
Definition set_state (user_id : string) (d : device_id) (st : list (string * option string))
    (force_notify is_sync : bool) (now now2 now3 : Z) : St PresenceHandler unit :=
  let status_msg := default None (dget "status_msg" st) in
  match dget "presence" st with
  | None => st_raise KeyError
  | Some presence =>
      match presence with
      | Some presence =>
          if negb (bool_decide (presence ∈ VALID_PRESENCE)) then
            st_raise (SynapseError 400 "Invalid presence state" "M_UNKNOWN")
          else if negb _track_presence then st_ret tt
          else
            let! prev_state := current_state_for_user user_id in
            set_state_of user_id d presence status_msg force_notify is_sync prev_state now now2 now3
      | None => st_raise (SynapseError 400 "Invalid presence state" "M_UNKNOWN")
      end
  end.

(** The users to whom [user_ids] marks are added in another table, [mark]ed as a whole. *)
Definition send_full_presence_to_users (user_ids : list string) (mark : St PresenceHandler unit)
    (now now2 now3 : Z) : St PresenceHandler unit :=
  match set_iter user_ids with
  | [] => st_raise (PyException "send_full_presence_to_users must be called with at least one user")
  | user_id :: _ =>
      mark ;;!
      let! current_presence_state := get_state user_id in
      set_state user_id None
        [("presence", Some (state current_presence_state));
         ("status_message", status_msg current_presence_state)] true false now now2 now3
  end.

(** ** Syncs in this process *)

Definition user_syncing (user_id : string) (d : device_id) (affect_presence : bool)
    (presence_state : string) (now now2 now3 : Z) : St PresenceHandler unit :=
  if negb affect_presence || negb _track_presence then st_ret tt
  else
    st_modify (set_num_syncs (fun m => <[(user_id, d) := default 0 (m !! (user_id, d)) + 1]> m)) ;;!
    set_state user_id d [("presence", Some presence_state)] false true now now2 now3.

Definition count_down (user_id : string) (d : device_id) : St PresenceHandler unit :=
  let! m := st_read num_current_syncs in
  match m !! (user_id, d) with
  | Some n => st_modify (set_num_syncs (<[(user_id, d) := n - 1]>))
  | None => st_raise KeyError
  end.

Definition end_of_user (prev_state : UserPresenceState) (now now2 now3 : Z) : St PresenceHandler unit :=
  _update_states now2 now3 [with_last_user_sync_ts now prev_state] false.

(** What runs when the context manager of [user_syncing] is left. *)
Definition _end (user_id : string) (d : device_id) (now now2 now3 : Z) : St PresenceHandler unit :=
  st_ignore
    (count_down user_id d ;;!
     let! prev_state := current_state_for_user user_id in
     end_of_user prev_state now now2 now3).

(** ** Syncs in other processes *)

(** A change of the set of syncs of a process, which [setdefault] puts there. *)
Definition set_process (process_id : string) (f : gset user_device -> gset user_device)
    : St PresenceHandler unit :=
  st_modify (set_external_syncs (fun m => <[process_id := f (default ∅ (m !! process_id))]> m)).

(** After [prev_state] was read. *)
Definition external_sync_row (process_id user_id : string) (d : device_id) (is_syncing : bool)
    (sync_time_msec : Z) (prev_state : UserPresenceState) (now now2 now3 : Z)
    : St PresenceHandler unit :=
  set_process process_id (fun s => s) ;;!
  let! m := st_read external_syncs in
  let here := bool_decide ((user_id, d) ∈ default ∅ (m !! process_id)) in
  (if is_syncing && negb here then set_process process_id (fun s => {[(user_id, d)]} ∪ s)
   else if negb is_syncing && here then
     touch_device user_id d (set_dev_last_sync_ts sync_time_msec) ;;!
     _update_states now now2 [with_last_user_sync_ts sync_time_msec prev_state] false ;;!
     set_process process_id (fun s => s ∖ {[(user_id, d)]})
   else st_ret tt) ;;!
  st_modify (set_external_updated (<[process_id := now3]>)).

Definition update_external_syncs_row (process_id user_id : string) (d : device_id)
    (is_syncing : bool) (sync_time_msec now now2 now3 : Z) : St PresenceHandler unit :=
  let! prev_state := current_state_for_user user_id in
  external_sync_row process_id user_id d is_syncing sync_time_msec prev_state now now2 now3.

Definition stop_process (process_id : string) (time_now_ms : Z) : St PresenceHandler (list string) :=
  let! m := st_read external_syncs in
  st_modify (set_external_syncs (delete process_id)) ;;!
  let process_presence := set_iter (elements (default ∅ (m !! process_id))) in
  st_for (fun ud => touch_device ud.1 ud.2 (set_dev_last_sync_ts time_now_ms)) process_presence ;;!
  st_ret (set_iter (remove_dups (map fst process_presence))).

Definition update_external_syncs_clear (process_id : string) (time_now_ms now2 now3 : Z)
    : St PresenceHandler unit :=
  let! updated_users := stop_process process_id time_now_ms in
  let! prev_states := current_state_for_users updated_users in
  _update_states now2 now3 (map (with_last_user_sync_ts time_now_ms) (dvals prev_states)) false ;;!
  st_modify (set_external_updated (delete process_id)).

(** ** Presence of remote users *)

(** An entry of an EDU, with the types of the specification; the code does not check them. *)
Record push := {
  push_user_id : option string;
  push_presence : option string;
  push_last_active_ago : option Z;
  push_status_msg : option string;
  push_currently_active : option bool
}.

Definition push_fields (p : push) (presence_state : string) (now : Z) (prev_state : UserPresenceState)
    : UserPresenceState :=
  let s := with_last_federation_update_ts now (with_state presence_state prev_state) in
  let s := match push_last_active_ago p with Some n => with_last_active_ts (now - n) s | None => s end in
  with_currently_active (default false (push_currently_active p)) (with_status_msg (push_status_msg p) s).

Definition truthy_text (s : option string) : option string :=
  match s with Some "" => None | _ => s end.

Definition incoming_push (origin : string) (now : Z) (l : list UserPresenceState) (p : push)
    : St PresenceHandler (list UserPresenceState) :=
  match truthy_text (push_user_id p) with
  | None => st_ret l
  | Some user_id =>
      let! d := st_lift (get_domain_from_id user_id) in
      if negb (bool_decide (d = origin)) then st_ret l
      else match truthy_text (push_presence p) with
           | None => st_ret l
           | Some presence_state =>
               let! prev_state := current_state_for_user user_id in
               st_ret (l ++ [push_fields p presence_state now prev_state])
           end
  end.

Definition incoming_presence (origin : string) (pushes : list push) (now now2 now3 : Z)
    : St PresenceHandler unit :=
  if negb _track_presence then st_ret tt
  else
    let! states := st_fold (incoming_push origin now) [] pushes in
    match states with [] => st_ret tt | _ => _update_states now2 now3 states false end.

(** ** [set_presence_for_users] (module_api/__init__.py) *)

(** The new states, made of those that were read. *)
Definition module_states (states : list (string * UserPresenceState)) (users : module_presence)
    : list UserPresenceState :=
  dvals (fold_left (fun states '(u, (presence, status_msg)) =>
    dset u (with_status_msg status_msg (with_state presence (default (default_presence u) (dget u states)))) states)
    users states).

Definition set_presence_for_users (users : module_presence) (now now2 : Z) : St PresenceHandler unit :=
  let! states := current_state_for_users (dkeys users) in
  _update_states now now2 (module_states states users) true.

(** ** [is_visible] *)

Definition is_visible (observed_user observer_user : string) : bool :=
  existsb (fun r => bool_decide (r ∈ get_rooms_for_user observed_user))
    (get_rooms_for_user observer_user).
End handler.
