(* ===== verification/PresenceSafety.v ===== *)
(** * PresenceSafety: timers and timeouts of presence

    What [handle_update], [handle_timeouts] and [_update_states] do to the state of a user, his
    devices and the wheel of timers.  From this follow the invariants of the handler: a local
    user who is online is always looked at again, and one who is not offline has a device. *)
From S2P Require Import Prelude PyVal PySort PyState PyFloat Identifiers WheelTimer.
From S2P Require Import PresenceState PresenceQueue PresenceHandler.
From Stdlib Require Import String.
Open Scope string_scope.
Open Scope list_scope.
Open Scope Z_scope.
Open Scope py_scope.
Open Scope st_scope.

(** ** The wheel only gains timers *)

Abbreviation wheel := (WheelTimer (T := string)).

Definition grows (w w' : wheel) : Prop :=
  bucket_size w' = bucket_size w /\ contiguous (entries w') /\
  forall x k, timer_at w x k -> timer_at w' x k.

#[export] Instance grows_trans : Transitive grows.
Proof. intros w1 w2 w3 (Hb & ? & H12) (Hb' & ? & H23). split_and!; [congruence|done|auto]. Qed.

Lemma grows_refl w : contiguous (entries w) -> grows w w.
Proof. done. Qed.

(** [u] is looked at again, not before the time [thn] is over. *)
Definition looked_at_after (w : wheel) (u : string) (thn : Z) : Prop :=
  exists k, timer_at w u k /\ int_truediv thn (bucket_size w) < k.

Lemma looked_at_grows w w' u thn : grows w w' -> looked_at_after w u thn -> looked_at_after w' u thn.
Proof. intros (Hb & _ & Ht) (k & ? & ?). exists k. rewrite Hb. auto. Qed.

Lemma wheel_insert_run w now x thn : contiguous (entries w) ->
  exists w', wheel_insert now x thn w = (Ok tt, w') /\ grows w w' /\ looked_at_after w' x thn /\
    (forall y k, timer_at w' y k -> timer_at w y k \/ (y = x /\ k = due_key w now thn)).
Proof.
  intros Hc. destruct (insert_spec w now x thn Hc) as (w' & Hi & Hb & Hc' & _ & _ & Ht).
  exists w'. unfold wheel_insert. rewrite Hi. split_and!; [done|..].
  - split_and!; [done|done|]. intros y k Hy. apply Ht. by left.
  - exists (due_key w now thn). split; [apply Ht; by right|]. rewrite Hb. unfold due_key. lia.
  - intros y k. apply Ht.
Qed.

Lemma insert_unless_run persist w now x thn : contiguous (entries w) ->
  exists w', insert_unless persist now x thn w = (Ok tt, w') /\ grows w w' /\
    (persist = false -> looked_at_after w' x thn).
Proof.
  intros Hc. destruct persist; simpl; [by exists w|].
  destruct (wheel_insert_run w now x thn Hc) as (w' & ? & ? & ? & _). by exists w'.
Qed.

(** ** [handle_update] *)

(** What [handle_update] leaves of a state. *)
Definition same_core (s s' : UserPresenceState) : Prop :=
  user_id s' = user_id s /\ state s' = state s /\ last_active_ts s' = last_active_ts s /\
  last_user_sync_ts s' = last_user_sync_ts s /\ status_msg s' = status_msg s.

Lemma same_core_refl s : same_core s s.
Proof. done. Qed.

#[export] Instance same_core_trans : Transitive same_core.
Proof. intros s1 s2 s3. unfold same_core. intuition congruence. Qed.

Lemma update_mine_run s now persist w : contiguous (entries w) ->
  exists s' ping w', update_mine s now persist w = (Ok (s', ping), w') /\ grows w w' /\
    same_core s s' /\
    (persist = false -> state s = PresenceState.ONLINE ->
     looked_at_after w' (user_id s) (last_active_ts s + IDLE_TIMER)).
Proof.
  intros Hc. unfold update_mine.
  assert (H1 : exists s1 w1,
    (if bool_decide (state s = PresenceState.ONLINE) then
       insert_unless persist now (user_id s) (last_active_ts s + IDLE_TIMER) ;;!
       (if now - last_active_ts s <? LAST_ACTIVE_GRANULARITY then
          insert_unless persist now (user_id s) (last_active_ts s + LAST_ACTIVE_GRANULARITY)
        else st_ret tt) ;;!
       st_ret (with_currently_active (now - last_active_ts s <? LAST_ACTIVE_GRANULARITY) s)
     else st_ret s) w = (Ok s1, w1) /\ grows w w1 /\ same_core s s1 /\
    (persist = false -> state s = PresenceState.ONLINE ->
     looked_at_after w1 (user_id s) (last_active_ts s + IDLE_TIMER))).
  { destruct (bool_decide_reflect (state s = PresenceState.ONLINE)) as [Ho|Ho].
    - destruct (insert_unless_run persist w now (user_id s) (last_active_ts s + IDLE_TIMER) Hc)
        as (w1 & E1 & G1 & L1).
      rewrite (st_bind_run _ _ _ _ _ E1). destruct (_ <? _) eqn:Ha.
      + destruct (insert_unless_run persist w1 now (user_id s)
          (last_active_ts s + LAST_ACTIVE_GRANULARITY)) as (w2 & E2 & G2 & _); [apply G1|].
        rewrite (st_bind_run _ _ _ _ _ E2). do 2 eexists. split; [done|].
        split_and!; [by transitivity w1|done|]. intros Hp _. by apply (looked_at_grows w1), L1.
      + do 2 eexists. split; [done|]. split_and!; [done|done|]. auto.
    - do 2 eexists. split; [done|]. split_and!; [by apply grows_refl|done|]. by intros _ ?. }
  destruct H1 as (s1 & w1 & E1 & G1 & C1 & L1). rewrite (st_bind_run _ _ _ _ _ E1). clear E1.
  assert (H2 : exists s2 ping w2,
    (if bool_decide (state s1 = PresenceState.OFFLINE) then st_ret (s1, false)
     else
       insert_unless persist now (user_id s) (last_user_sync_ts s1 + SYNC_ONLINE_TIMEOUT) ;;!
       (if FEDERATION_PING_INTERVAL <? now - last_federation_update_ts s1
        then st_ret (with_last_federation_update_ts now s1, true)
        else st_ret (s1, false))) w1 = (Ok (s2, ping), w2) /\ grows w1 w2 /\ same_core s1 s2).
  { destruct (bool_decide _).
    - do 3 eexists. split; [done|]. split; [apply grows_refl, G1|done].
    - destruct (insert_unless_run persist w1 now (user_id s) (last_user_sync_ts s1 + SYNC_ONLINE_TIMEOUT))
        as (w2 & E2 & G2 & _); [apply G1|].
      rewrite (st_bind_run _ _ _ _ _ E2). destruct (_ <? _); do 3 eexists; (split; [done|]); done. }
  destruct H2 as (s2 & ping & w2 & E2 & G2 & C2). rewrite (st_bind_run _ _ _ _ _ E2). clear E2.
  destruct (bool_decide (state s2 = PresenceState.BUSY)).
  - destruct (insert_unless_run persist w2 now (user_id s) (last_user_sync_ts s2 + BUSY_ONLINE_TIMEOUT))
      as (w3 & E3 & G3 & _); [apply G2|].
    rewrite (st_bind_run _ _ _ _ _ E3). do 3 eexists. split; [done|].
    split_and!; [by transitivity w1; [|transitivity w2]|by transitivity s1|].
    intros Hp Ho. apply (looked_at_grows w1); [by transitivity w2|auto].
  - do 3 eexists. split; [done|]. split_and!; [by transitivity w1|by transitivity s1|].
    intros Hp Ho. apply (looked_at_grows w1); auto.
Qed.

Lemma handle_update_run prev s mine now persist w : contiguous (entries w) ->
  exists s' notify ping w', handle_update prev s mine now persist w = (Ok (s', notify, ping), w') /\
    grows w w' /\ same_core s s' /\
    (mine = true -> persist = false -> state s = PresenceState.ONLINE ->
     looked_at_after w' (user_id s) (last_active_ts s + IDLE_TIMER)).
Proof.
  intros Hc. unfold handle_update.
  assert (H1 : exists s1 ping w1,
    (if mine then update_mine s now persist
     else insert_unless persist now (user_id s) (last_federation_update_ts s + FEDERATION_TIMEOUT) ;;!
          st_ret (s, false)) w = (Ok (s1, ping), w1) /\ grows w w1 /\ same_core s s1 /\
    (mine = true -> persist = false -> state s = PresenceState.ONLINE ->
     looked_at_after w1 (user_id s) (last_active_ts s + IDLE_TIMER))).
  { destruct mine.
    - destruct (update_mine_run s now persist w Hc) as (s1 & p & w1 & ? & ? & ? & ?).
      exists s1, p, w1. auto.
    - destruct (insert_unless_run persist w now (user_id s)
        (last_federation_update_ts s + FEDERATION_TIMEOUT) Hc) as (w1 & E1 & G1 & _).
      rewrite (st_bind_run _ _ _ _ _ E1). do 3 eexists. split; [done|]. by split_and!. }
  destruct H1 as (s1 & ping & w1 & E1 & G1 & C1 & L1). rewrite (st_bind_run _ _ _ _ _ E1).
  destruct (should_notify prev s1); do 4 eexists; (split; [done|]); by split_and!.
Qed.

(** ** [_update_states] *)

Section update.
Context `{PresenceEnv, SetOrder}.

#[local] Abbreviation updates := (list (string * UserPresenceState)).

(** Everything but the current states and the timers. *)
Definition same_rest (h h' : PresenceHandler) : Prop :=
  h' = set_wheel_timer (wheel_timer h') (set_current_state (fun _ => user_to_current_state h') h).

Lemma same_rest_refl h : same_rest h h.
Proof. by destruct h. Qed.

#[export] Instance same_rest_trans : Transitive same_rest.
Proof. intros h1 h2 h3 H1 H2. unfold same_rest in *. rewrite H2, H1. by destruct h3. Qed.

(** What storing a new state [s] as [s'] guarantees. *)
Definition stored_as (w : wheel) (s s' : UserPresenceState) : Prop :=
  same_core s s' /\
  (is_mine_id (user_id s) = true -> _track_presence = true -> state s = PresenceState.ONLINE ->
   looked_at_after w (user_id s) (last_active_ts s + IDLE_TIMER)).

Lemma stored_as_grows w w' s s' : grows w w' -> stored_as w s s' -> stored_as w' s s'.
Proof. intros Hg [? Hl]. split; [done|]. intros. apply (looked_at_grows w); auto. Qed.

Lemma update_one_run now force acc s h :
  contiguous (entries (wheel_timer h)) ->
  exists s' acc' h', update_one now force acc s h = (Ok acc', h') /\
    grows (wheel_timer h) (wheel_timer h') /\ same_rest h h' /\
    user_to_current_state h' = <[user_id s := s']> (user_to_current_state h) /\
    stored_as (wheel_timer h') s s' /\
    (acc' = acc \/ acc' = (dset (user_id s) s' acc.1, acc.2) \/ acc' = (acc.1, dset (user_id s) s' acc.2)) /\
    (force = true -> acc' = (dset (user_id s) s' acc.1, acc.2)).
Proof.
  intros Hc. unfold update_one. cbn [st_bind st_read].
  set (prev := default _ _).
  destruct (handle_update_run prev s (is_mine_id (user_id s)) now (negb _track_presence)
    (wheel_timer h) Hc) as (s' & notify & ping & w' & Hu & Hg & Hcore & Hl).
  unfold st_bind, st_read, on_wheel, st_zoom, st_modify. fold prev. rewrite Hu. cbn.
  exists s'. do 2 eexists. split; [done|]. split_and!.
  - done.
  - by destruct h.
  - done.
  - split; [done|]. intros ? Ht ?. apply Hl; [done|by rewrite Ht|done].
  - destruct notify, force, ping; auto.
  - intros ->. by rewrite orb_true_r.
Qed.

(** The users of [l] get new states, the others keep theirs. *)
Definition updated (l : list UserPresenceState) (h h' : PresenceHandler) : Prop :=
  grows (wheel_timer h) (wheel_timer h') /\ same_rest h h' /\
  forall u,
    (u ∉ map user_id l -> user_to_current_state h' !! u = user_to_current_state h !! u) /\
    (u ∈ map user_id l -> exists s s', s ∈ l /\ user_id s = u /\
       user_to_current_state h' !! u = Some s' /\ stored_as (wheel_timer h') s s').

Lemma updated_nil h : contiguous (entries (wheel_timer h)) -> updated [] h h.
Proof.
  intros. split_and!; [done|apply same_rest_refl|]. intros u. split; [done|]. by intros ?%elem_of_nil.
Qed.

Lemma updated_cons s l h h1 h2 : updated [s] h h1 -> updated l h1 h2 -> updated (s :: l) h h2.
Proof.
  intros (G1 & R1 & U1) (G2 & R2 & U2). split_and!; [by etransitivity|by etransitivity|].
  intros u. destruct (U1 u) as [N1 Y1], (U2 u) as [N2 Y2]. simpl in *. split.
  - intros [? ?]%not_elem_of_cons. rewrite N2, N1; set_solver.
  - intros Hu. destruct (decide (u ∈ map user_id l)) as [Hl|Hl].
    + destruct (Y2 Hl) as (s2 & s' & ? & ? & ? & ?). exists s2, s'. split_and!; [by right|done..].
    + apply elem_of_cons in Hu as [Hu|]; [|done].
      destruct Y1 as (s1 & s' & Hs1 & ? & E & Hs'); [set_solver|].
      exists s1, s'. split_and!; [set_solver|done|by rewrite N2|by eapply stored_as_grows].
Qed.

(** What was planned to be told is what is stored. *)
Definition planned (acc : updates * updates) (h : PresenceHandler) : Prop :=
  forall u s, dget u acc.1 = Some s \/ dget u acc.2 = Some s -> user_to_current_state h !! u = Some s.

Lemma update_fold_run now force l acc h :
  contiguous (entries (wheel_timer h)) -> NoDup (map user_id l) ->
  (forall u, u ∈ map user_id l -> u ∉ map fst acc.1 /\ u ∉ map fst acc.2) -> planned acc h ->
  exists acc' h', st_fold (update_one now force) acc l h = (Ok acc', h') /\
    updated l h h' /\ planned acc' h' /\
    (forall u, u ∈ map fst acc'.1 -> u ∈ map fst acc.1 \/ u ∈ map user_id l) /\
    (forall u, u ∈ map fst acc'.2 -> u ∈ map fst acc.2 \/ u ∈ map user_id l).
Proof.
  revert acc h. induction l as [|s l IH]; intros acc h Hc Hnd Hdis Hplan; simpl.
  { exists acc, h. split_and!; [done|by apply updated_nil|done|by left|by left]. }
  destruct (update_one_run now force acc s h Hc) as (s' & acc1 & h1 & E & G & R & Hm & Hst & Hacc & _).
  apply NoDup_cons in Hnd as [Hni Hnd].
  assert (Hu1 : updated [s] h h1).
  { split_and!; [done|done|]. intros u. rewrite Hm. split.
    - intros Hne. rewrite lookup_insert_ne; [done|]. set_solver.
    - intros Hu. assert (u = user_id s) as -> by set_solver. exists s, s'.
      split_and!; [by left|done|by rewrite lookup_insert_eq|done]. }
  destruct (Hdis (user_id s)) as [Hd1 Hd2]; [by left|].
  assert (Hplan1 : planned acc1 h1).
  { intros u t Ht. rewrite Hm. destruct (decide (u = user_id s)) as [->|Hne].
    - rewrite lookup_insert_eq. apply dget_none in Hd1, Hd2.
      destruct Hacc as [->|[->| ->]]; simpl in Ht; rewrite ?dget_dset_eq in Ht; naive_solver.
    - rewrite lookup_insert_ne by done. apply Hplan.
      destruct Hacc as [->|[->| ->]]; simpl in Ht; rewrite ?dget_dset_ne in Ht by done; naive_solver. }
  assert (Hkeys : forall u, u <> user_id s ->
    (u ∈ map fst acc1.1 -> u ∈ map fst acc.1) /\ (u ∈ map fst acc1.2 -> u ∈ map fst acc.2)).
  { intros u Hne. destruct Hacc as [->|[->| ->]]; simpl; split; try done.
    all: intros Hu; rewrite dkeys_dset_notin in Hu by done; set_solver. }
  destruct (IH acc1 h1) as (acc' & h' & E' & Hu' & Hp' & K1 & K2); [apply G|done| |done|].
  { intros u Hu. assert (u <> user_id s) as Hne by (by intros ->).
    destruct (Hkeys u Hne), (Hdis u); [by right|]. naive_solver. }
  exists acc', h'. rewrite (st_bind_run _ _ _ _ _ E). split_and!; [done|by eapply updated_cons|done|..].
  - intros u [Hu|?]%K1; [|by right; right]. destruct (decide (u = user_id s)) as [->|Hne]; [by right; left|].
    left. by apply (Hkeys u Hne).
  - intros u [Hu|?]%K2; [|by right; right]. destruct (decide (u = user_id s)) as [->|Hne]; [by right; left|].
    left. by apply (Hkeys u Hne).
Qed.

(** The last new state of each user. *)
Lemma last_states_keys l (d : list (string * UserPresenceState)) :
  dict_wf d -> (forall k s, (k, s) ∈ d -> k = user_id s) ->
  let d' := fold_left (fun d s => dset (user_id s) s d) l d in
  dict_wf d' /\ (forall k s, (k, s) ∈ d' -> k = user_id s /\ (s ∈ l \/ (k, s) ∈ d)) /\
  (forall k, k ∈ map fst d' <-> k ∈ map fst d \/ k ∈ map user_id l).
Proof.
  revert d. induction l as [|s l IH]; intros d Hwf Hk; simpl.
  { split_and!; [done| |set_solver]. intros k s Hs. split; [by eapply Hk|by right]. }
  assert (Hin : forall k t, (k, t) ∈ dset (user_id s) s d -> (k, t) = (user_id s, s) \/ (k, t) ∈ d).
  { intros k t Ht%dget_some_iff; [|by apply dset_wf]. destruct (decide (k = user_id s)) as [->|Hne].
    - rewrite dget_dset_eq in Ht. left. congruence.
    - rewrite dget_dset_ne in Ht by done. right. by apply dget_in. }
  destruct (IH (dset (user_id s) s d)) as (Hwf' & Hs' & Hd').
  { by apply dset_wf. }
  { intros k t [|]%Hin; [congruence|by eapply Hk]. }
  split_and!; [done|..].
  - intros k t Ht. destruct (Hs' k t Ht) as [? [?|Hi]]; split; [done|left; by right|done|].
    apply Hin in Hi as [[= -> ->]|]; [left; by left|by right].
  - intros k. rewrite Hd'. destruct (decide (user_id s ∈ map fst d)) as [Hi|Hi].
    + rewrite dkeys_dset_in by done. set_solver.
    + rewrite dkeys_dset_notin by done. set_solver.
Qed.

Lemma last_states_nodup l :
  let l' := dvals (fold_left (fun d s => dset (user_id s) s d) l []) in
  NoDup (map user_id l') /\ (forall s, s ∈ l' -> s ∈ l) /\
  (forall u, u ∈ map user_id l' <-> u ∈ map user_id l).
Proof.
  destruct (last_states_keys l [] dict_wf_nil) as (Hwf & Hin & Hkeys); [by intros ?? ?%elem_of_nil|].
  simpl. set (d := fold_left _ l []) in *.
  assert (Heq : map user_id (dvals d) = map fst d).
  { unfold dvals. rewrite map_map. apply map_ext_in. intros [k s] Hs%list_elem_of_In.
    simpl. symmetry. by eapply Hin. }
  split_and!.
  - by rewrite Heq.
  - intros s (ks & -> & Hks)%in_map_b. destruct ks as [k s]. destruct (Hin k s Hks) as [_ [|]]; [done|].
    by apply elem_of_nil in H1.
  - intros u. rewrite Heq, Hkeys. simpl. set_solver.
Qed.

Lemma update_core_run now l force h :
  contiguous (entries (wheel_timer h)) ->
  exists tn tp users h', update_core now l force h = (Ok (tn, tp, users), h') /\
    updated l h h' /\ planned (tn, tp) h' /\
    (forall u, u ∈ users <-> u ∈ map user_id l) /\
    (forall u, u ∈ map fst tn -> u ∈ map user_id l).
Proof.
  intros Hc. unfold update_core. destruct (last_states_nodup l) as (Hnd & Hin & Hu).
  set (l' := dvals _) in *.
  destruct (update_fold_run now force l' ([], []) h) as (acc' & h' & E & Hup & Hp & K1 & _);
    [done|done|by intros u _; split; intros ?%elem_of_nil|by intros u s [?|?]|].
  rewrite (st_bind_run _ _ _ _ _ E). destruct acc' as [tn tp].
  exists tn, tp, (map user_id l'), h'. split_and!; [done| |done|done|].
  - destruct Hup as (G & R & U). split_and!; [done|done|]. intros u. rewrite <- Hu.
    destruct (U u) as [N Y]. split; [done|]. intros Hul. destruct (Y Hul) as (s & s' & ? & ?).
    exists s, s'. split; [by apply Hin|done].
  - intros u [Hn|?]%K1; [by apply elem_of_nil in Hn|by apply Hu].
Qed.
End update.

(** ** Combining the states of devices *)

Definition valid_state (s : string) : Prop := exists p, PRESENCE_BY_PRIORITY s = Ok p.
Definition valid_devices (ds : devices) : Prop := forall d, d ∈ dvals ds -> valid_state (dev_state d).

Lemma valid_state_iff s : valid_state s <->
  s ∈ [PresenceState.BUSY; PresenceState.ONLINE; PresenceState.UNAVAILABLE; PresenceState.OFFLINE].
Proof.
  unfold valid_state, PRESENCE_BY_PRIORITY. repeat case_bool_decide; subst.
  all: split; [set_solver|eauto]. intros Hs. set_solver.
Qed.

(** As a total function. *)
Definition priority (s : string) : Z := match PRESENCE_BY_PRIORITY s with Ok p => p | Err _ => 0 end.

Lemma priority_ok s : valid_state s -> PRESENCE_BY_PRIORITY s = Ok (priority s).
Proof. intros [p Hp]. unfold priority. by rewrite Hp. Qed.

Lemma priority_inj s t : valid_state s -> valid_state t -> priority s = priority t -> s = t.
Proof.
  intros Hs%valid_state_iff Ht%valid_state_iff. unfold priority, PRESENCE_BY_PRIORITY.
  repeat case_bool_decide; subst; try done; set_solver.
Qed.

(** [s] is the state the devices combine to: none has a higher one, and one has it. *)
Definition combines (ds : list UserDevicePresenceState) (s : string) : Prop :=
  valid_state s /\ (forall d, d ∈ ds -> priority (dev_state d) <= priority s) /\
  (s = PresenceState.OFFLINE \/ exists d, d ∈ ds /\ dev_state d = s).

Lemma combine_fold (ds dn : list UserDevicePresenceState) acc :
  (forall d, d ∈ ds -> valid_state (dev_state d)) -> combines dn acc.1 ->
  exists acc', rfold combine_step acc ds = Ok acc' /\ combines (dn ++ ds) acc'.1.
Proof.
  revert dn acc. induction ds as [|d ds IH]; intros dn acc Hv Hc; simpl.
  { exists acc. by rewrite app_nil_r. }
  assert (Hd : valid_state (dev_state d)) by (apply Hv; by left).
  destruct Hc as (Hva & Hmax & Hwit). unfold combine_step at 1.
  rewrite (priority_ok _ Hd), (priority_ok _ Hva). cbn [rbind].
  match goal with |- context [rfold combine_step ?a _] => set (acc1 := a) end.
  assert (Hc1 : combines (dn ++ [d]) acc1.1).
  { subst acc1. destruct (_ || _) eqn:E; split_and!; simpl.
    - done.
    - intros d' [Hd'|Hd']%elem_of_app; [specialize (Hmax d' Hd')|set_solver].
      apply orb_true_iff in E as [E|[E _]%andb_true_iff]; boolify; lia.
    - right. exists d. set_solver.
    - done.
    - intros d' [Hd'|Hd']%elem_of_app; [by apply Hmax|].
      assert (d' = d) as -> by set_solver. apply orb_false_iff in E as [E _]. boolify. lia.
    - destruct Hwit as [|(d' & ? & ?)]; [by left|right]. exists d'. set_solver. }
  destruct (IH (dn ++ [d]) acc1) as (acc' & ? & ?); [|done|].
  { intros d' ?. apply Hv. by right. }
  exists acc'. by rewrite <- app_assoc in *.
Qed.

Lemma combine_ok (ds : list UserDevicePresenceState) : (forall d, d ∈ ds -> valid_state (dev_state d)) ->
  exists s, _combine_device_states ds = Ok s /\ combines ds s.
Proof.
  intros Hv. destruct (combine_fold ds [] (PresenceState.OFFLINE, -1) Hv) as (acc & E & Hc).
  { split_and!; [by exists 1|by intros ? ?%elem_of_nil|by left]. }
  exists acc.1. unfold _combine_device_states. by rewrite E.
Qed.

Lemma combines_nil s : combines [] s -> s = PresenceState.OFFLINE.
Proof. intros (_ & _ & [|(d & Hd & _)]); [done|by apply elem_of_nil in Hd]. Qed.

Lemma combines_not_offline ds d s :
  combines ds s -> d ∈ ds -> valid_state (dev_state d) -> dev_state d <> PresenceState.OFFLINE ->
  s <> PresenceState.OFFLINE.
Proof.
  intros (_ & Hmax & _) Hd Hv Hne ->. specialize (Hmax d Hd). apply Hne, priority_inj; [done|by exists 1|].
  apply valid_state_iff in Hv. unfold priority, PRESENCE_BY_PRIORITY in *.
  repeat (case_bool_decide; subst; try done). all: simpl in *; try lia; set_solver.
Qed.

(** ** [handle_timeout] *)

(** A device after the loop, if it stays. *)
Definition kept_device (u : string) (syncing : gset user_device) (now : Z)
    (d d' : device_id * UserDevicePresenceState) : Prop :=
  d'.1 = d.1 /\ d'.2 = (timeout_device u syncing now d).1.1 /\
  (timeout_device u syncing now d).2 = false.

Lemma timeout_devices_in u syncing now ds d' :
  d' ∈ (timeout_devices u syncing now ds).1 <-> exists d, d ∈ ds /\ kept_device u syncing now d d'.
Proof.
  unfold timeout_devices. cbn [fst snd]. rewrite in_map_b. split.
  - intros (t & -> & (Ht & Hf)%in_filter_b). apply in_map_b in Ht as (d & -> & Hd).
    exists d. cbn [fst snd] in *. apply negb_true_iff in Hf. done.
  - intros (d & Hd & H1 & H2 & H3). exists (d.1, timeout_device u syncing now d).
    split; [destruct d'; cbn [fst snd] in *; congruence|]. apply in_filter_b.
    cbn [fst snd]. rewrite H3. split; [|done].
    apply in_map_b. by exists d.
Qed.

Lemma timeout_device_unchanged u syncing now d :
  (timeout_device u syncing now d).1.2 = false ->
  timeout_device u syncing now d = (d.2, false, false).
Proof.
  unfold timeout_device. cbn [fst snd].
  intros [Hidle Hoff]%orb_false_iff. rewrite Hidle in *. by rewrite Hoff.
Qed.

Lemma timeout_devices_unchanged u syncing now ds :
  (timeout_devices u syncing now ds).2 = false -> (timeout_devices u syncing now ds).1 = ds.
Proof.
  unfold timeout_devices. cbn [fst snd]. induction ds as [|[k d] ds IH]; [done|].
  cbn [map existsb fst snd]. intros [H1 H2]%orb_false_iff.
  apply timeout_device_unchanged in H1. rewrite H1. cbn [List.filter fst snd negb map].
  by rewrite IH.
Qed.

Lemma timeout_device_valid u syncing now d :
  valid_state (dev_state d.2) -> valid_state (dev_state (timeout_device u syncing now d).1.1).
Proof.
  intros Hv. unfold timeout_device. simpl. destruct (_ && _) eqn:E; simpl; [by exists 2|].
  by destruct (bool_decide _).
Qed.

Lemma timeout_devices_valid u syncing now ds :
  valid_devices ds -> valid_devices (timeout_devices u syncing now ds).1.
Proof.
  intros Hv d (kd & -> & Hkd)%in_map_b.
  apply timeout_devices_in in Hkd as (kd0 & Hin & _ & -> & _).
  apply timeout_device_valid, Hv. apply in_map_b. by exists kd0.
Qed.

(** Only [state] may change. *)
Definition same_but_state (s s' : UserPresenceState) : Prop := s' = with_state (state s') s.

Lemma handle_timeout_mine st syncing ds now :
  valid_devices ds ->
  exists o ds', handle_timeout st true syncing ds now = (Ok o, ds') /\ valid_devices ds' /\
    (forall s', o = Some s' -> same_but_state st s' /\ (ds <> [] -> state s' <> PresenceState.OFFLINE -> ds' <> [])) /\
    (o = None -> state st <> PresenceState.OFFLINE ->
       (ds <> [] -> ds' <> []) /\ now - last_active_ts st <= LAST_ACTIVE_GRANULARITY).
Proof.
  intros Hv. unfold handle_timeout.
  destruct (bool_decide_reflect (state st = PresenceState.OFFLINE)) as [Ho|Ho].
  { exists None, ds. by split_and!. }
  pose proof (timeout_devices_valid (user_id st) syncing now ds Hv) as Hv'.
  pose proof (timeout_devices_unchanged (user_id st) syncing now ds) as Hun.
  destruct (timeout_devices (user_id st) syncing now ds) as [ds' changed]. simpl in *.
  assert (Hc : exists s1 ch, (if changed then
        let* new_presence := _combine_device_states (dvals ds') in
        if bool_decide (new_presence = state st) then Ok (st, false)
        else Ok (with_state new_presence st, true)
      else Ok (st, false)) = Ok (s1, ch) /\ same_but_state st s1 /\
      (ds <> [] -> state s1 <> PresenceState.OFFLINE -> ds' <> []) /\
      (ch = false -> s1 = st)).
  { destruct changed.
    - destruct (combine_ok (dvals ds')) as (np & E & Hcomb); [done|].
      assert (Hn : np <> PresenceState.OFFLINE -> ds' <> []).
      { intros ? ->. by apply combines_nil in Hcomb. }
      rewrite E. simpl. case_bool_decide as Hs.
      + do 2 eexists. split; [done|]. split_and!; [by destruct st| |done]. intros _. by rewrite <- Hs.
      + do 2 eexists. split; [done|]. by split_and!.
    - do 2 eexists. split; [done|]. split_and!; [by destruct st| |done]. by rewrite Hun. }
  destruct Hc as (s1 & ch & -> & Hsame & Hne1 & Hst). simpl.
  do 2 eexists. split; [done|]. split_and!; [done|..].
  - intros s'. destruct (_ || _); [|done]. by intros [= <-].
  - destruct (_ || _) eqn:E; [done|]. intros _ _.
    apply orb_false_iff in E as [[-> E]%orb_false_iff _]. boolify.
    rewrite (Hst eq_refl) in *. split; [intros Hd; by apply Hne1|lia].
Qed.

Lemma handle_timeout_other st syncing ds now :
  exists o, handle_timeout st false syncing ds now = (Ok o, ds) /\
    forall s', o = Some s' -> same_but_state st s'.
Proof.
  unfold handle_timeout. destruct (bool_decide _); [by exists None|].
  destruct (_ <? _); eexists; (split; [done|]); [by intros s' [= <-]|done].
Qed.
