(* ===== verification/PresenceInvariant.v ===== *)
(** * PresenceInvariant: what holds of presence in every state

    The handler as a system: its methods are cut where they wait for the database, and a step
    is one stretch between two waits, of any method, at any time.  A stretch that goes on after
    a wait uses a state that was read before it: a state still held in memory, or an offline
    one (states that are not in memory are offline). *)
From S2P Require Import Prelude PyVal PySort PyState PyFloat Identifiers WheelTimer.
From S2P Require Import PresenceState PresenceQueue PresenceHandler PresenceSafety.
From Stdlib Require Import String.
Open Scope string_scope.
Open Scope list_scope.
Open Scope Z_scope.
Open Scope py_scope.
Open Scope st_scope.

Section invariant.
Context `{PresenceEnv, SetOrder}.

(** ** [handle_timeouts] on all users *)

Section timeouts.
Context (syncing : gset user_device) (now : Z).

Definition timeout_of (m : gmap string devices) (st : UserPresenceState)
    : result (option UserPresenceState) * devices :=
  handle_timeout st (is_mine_id (user_id st)) syncing (default [] (m !! user_id st)) now.

Lemma timeout_user_run m ch st o ds :
  timeout_of m st = (Ok o, ds) ->
  timeout_user is_mine_id syncing now ch st m =
  (Ok (match o with Some s => dset (user_id st) s ch | None => ch end),
   match m !! user_id st with Some _ => <[user_id st := ds]> m | None => m end).
Proof. unfold timeout_of, timeout_user. by intros ->. Qed.

(** Each user is looked at on his own. *)
Lemma timeouts_run l ch m :
  NoDup (map user_id l) ->
  (forall st, st ∈ l -> exists o, (timeout_of m st).1 = Ok o) ->
  exists ch' m', st_fold (timeout_user is_mine_id syncing now) ch l m = (Ok ch', m') /\
    (dict_wf ch -> dict_wf ch') /\
    (forall u, u ∉ map user_id l -> dget u ch' = dget u ch /\ m' !! u = m !! u) /\
    (forall st, st ∈ l ->
       m' !! user_id st = (fun _ => (timeout_of m st).2) <$> m !! user_id st /\
       forall o, (timeout_of m st).1 = Ok o ->
       dget (user_id st) ch' = match o with Some s => Some s | None => dget (user_id st) ch end).
Proof.
  revert ch m. induction l as [|st l IH]; intros ch m Hnd Hok.
  { exists ch, m. split_and!; [done|done|done|]. by intros st ?%elem_of_nil. }
  simpl in Hnd. apply NoDup_cons in Hnd as [Hni Hnd].
  destruct (Hok st) as [o Ho]; [by left|]. destruct (timeout_of m st) as [r ds] eqn:E.
  simpl in Ho. subst r. pose proof (timeout_user_run m ch st o ds E) as Hrun.
  set (m1 := match m !! user_id st with Some _ => _ | None => _ end) in Hrun.
  set (ch1 := match o with Some s => _ | None => _ end) in Hrun.
  assert (Hm1 : forall u, u <> user_id st -> m1 !! u = m !! u).
  { intros u Hne. subst m1. destruct (m !! user_id st); [|done]. by rewrite lookup_insert_ne. }
  assert (Hne : forall s, s ∈ l -> user_id s <> user_id st).
  { intros s Hs Heq. apply Hni. rewrite <- Heq. apply in_map_b. eauto. }
  assert (Hsame : forall s, s ∈ l -> timeout_of m1 s = timeout_of m s).
  { intros s Hs. unfold timeout_of. rewrite Hm1; [done|by apply Hne]. }
  destruct (IH ch1 m1 Hnd) as (ch' & m' & E' & Hwf & Hout & Hin).
  { intros s Hs. rewrite Hsame by done. apply Hok. by right. }
  exists ch', m'. cbn [st_fold]. rewrite (st_bind_run _ _ _ _ _ Hrun). split_and!; [done|..].
  - intros Hch. apply Hwf. subst ch1. destruct o; [by apply dset_wf|done].
  - intros u Hu. simpl in Hu. apply not_elem_of_cons in Hu as [Hu1 Hu2].
    destruct (Hout u Hu2) as [-> ->]. rewrite Hm1 by done. split; [|done].
    subst ch1. destruct o; [|done]. by rewrite dget_dset_ne.
  - intros s [->|Hs]%elem_of_cons.
    + destruct (Hout (user_id st) Hni) as [Hd Hm]. rewrite Hd, Hm, E. simpl. split.
      * subst m1. destruct (m !! user_id st) eqn:Em; simpl; [|by rewrite Em].
        by rewrite lookup_insert_eq.
      * intros o' [= <-]. subst ch1. destruct o; [|done]. by rewrite dget_dset_eq.
    + destruct (Hin s Hs) as [Hm Hd]. rewrite Hsame, Hm1 in * by auto. split; [done|].
      intros o' Ho'. rewrite (Hd o' Ho'). destruct o'; [done|]. subst ch1.
      destruct o; [|done]. rewrite dget_dset_ne; [done|by apply Hne].
Qed.
End timeouts.

(** ** The invariant *)

(** [T] are the users whose state was set without regard to their devices. *)
Record pres_inv (T : gset string) (h : PresenceHandler) : Prop := {
  pi_size : bucket_size (wheel_timer h) = 5000;
  pi_contiguous : contiguous (entries (wheel_timer h));
  pi_users : forall u s, user_to_current_state h !! u = Some s -> user_id s = u;
  pi_devices : forall u ds, user_to_devices h !! u = Some ds -> is_mine_id u = true ->
    valid_devices ds;
  (** Another local user who is not offline has a device. *)
  pi_online : forall u s, u ∉ T -> user_to_current_state h !! u = Some s -> is_mine_id u = true ->
    state s <> PresenceState.OFFLINE ->
    exists ds, user_to_devices h !! u = Some ds /\ ds <> [];
  (** A local user who is online is looked at again once he has idled. *)
  pi_timer : _track_presence = true ->
    forall u s, user_to_current_state h !! u = Some s -> is_mine_id u = true ->
    state s = PresenceState.ONLINE ->
    looked_at_after (wheel_timer h) u (last_active_ts s + IDLE_TIMER)
}.

(** The fields the invariant reads. *)
Lemma pres_inv_more T T' h : T ⊆ T' -> pres_inv T h -> pres_inv T' h.
Proof. intros Hs [I1 I2 I3 I4 I5 I6]. split; [done..| |done]. intros u s Hu. apply I5. set_solver. Qed.

Lemma pres_inv_same T h h' :
  wheel_timer h' = wheel_timer h -> user_to_current_state h' = user_to_current_state h ->
  user_to_devices h' = user_to_devices h -> pres_inv T h -> pres_inv T h'.
Proof. intros E1 E2 E3 [I1 I2 I3 I4 I5 I6]. split; rewrite ?E1, ?E2, ?E3; auto. Qed.

(** A new state of a user may be stored. *)
Definition storable (T : gset string) (h : PresenceHandler) (s : UserPresenceState) : Prop :=
  user_id s ∉ T -> is_mine_id (user_id s) = true -> state s <> PresenceState.OFFLINE ->
  exists ds, user_to_devices h !! user_id s = Some ds /\ ds <> [].

Lemma updated_inv T l h h' :
  pres_inv T h -> (forall s, s ∈ l -> storable T h s) -> updated l h h' -> pres_inv T h'.
Proof.
  intros [I1 I2 I3 I4 I5 I6] Hl (G & R & U).
  assert (Hdev : user_to_devices h' = user_to_devices h) by (rewrite R; done).
  assert (Hcase : forall u s', user_to_current_state h' !! u = Some s' ->
    user_to_current_state h !! u = Some s' /\ u ∉ map user_id l \/
    exists s, s ∈ l /\ user_id s = u /\ stored_as (wheel_timer h') s s').
  { intros u s' Hs'. destruct (U u) as [N Y]. destruct (decide (u ∈ map user_id l)) as [Hu|Hu].
    - right. destruct (Y Hu) as (s & s1 & ? & ? & ? & ?). exists s. split_and!; [done|done|]. congruence.
    - left. by rewrite <- N. }
  split.
  - destruct G as (-> & _). done.
  - apply G.
  - intros u s' [[? _]|(s & _ & <- & (? & _) & _)]%Hcase; [auto|congruence].
  - rewrite Hdev. apply I4.
  - rewrite Hdev. intros u s' Hu [[? _]|(s & Hs & <- & (? & Hst & _) & _)]%Hcase Hm Hne; [eauto|].
    apply (Hl s Hs); [done|done|congruence].
  - intros Ht u s' [[? _]|(s & Hs & <- & (? & Hst & Hla & _) & Hlook)]%Hcase Hm Ho.
    + apply (looked_at_grows (wheel_timer h)); [done|]. by apply I6.
    + rewrite Hla. apply Hlook; [done|done|congruence].
Qed.

(** ** [update_rest] is about other fields *)

(** The computation leaves states, devices and timers alone. *)
Definition aside {A} (c : St PresenceHandler A) : Prop :=
  forall h, wheel_timer (c h).2 = wheel_timer h /\
    user_to_current_state (c h).2 = user_to_current_state h /\
    user_to_devices (c h).2 = user_to_devices h /\ num_current_syncs (c h).2 = num_current_syncs h /\
    external_syncs (c h).2 = external_syncs h.

Lemma aside_ret {A} (a : A) : aside (st_ret a).
Proof. done. Qed.
Lemma aside_lift {A} (r : result A) : aside (st_lift r).
Proof. done. Qed.
Lemma aside_read {A} (f : PresenceHandler -> A) : aside (st_read f).
Proof. done. Qed.
Lemma aside_bind {A B} (c : St PresenceHandler A) (k : A -> St PresenceHandler B) :
  aside c -> (forall a, aside (k a)) -> aside (st_bind c k).
Proof.
  intros Hc Hk h. unfold st_bind. specialize (Hc h). destruct (c h) as [[a|e] h1]; [|done].
  specialize (Hk a h1). simpl in *. intuition congruence.
Qed.
Lemma aside_for {A} (f : A -> St PresenceHandler unit) l : (forall a, aside (f a)) -> aside (st_for f l).
Proof. intros Hf. induction l as [|a l IH]; [done|]. by apply aside_bind. Qed.
Lemma aside_queue {A} (c : St PresenceFederationQueue A) : aside (on_queue c).
Proof. intros h. unfold on_queue, st_zoom. by destruct (c _). Qed.
Lemma aside_table f : aside (st_modify (set_table f)).
Proof. done. Qed.
Lemma aside_unpersisted f : aside (st_modify (set_unpersisted f)).
Proof. done. Qed.
Lemma aside_notified r u : aside (st_modify (add_notified r u)).
Proof. done. Qed.

Ltac aside_auto :=
  repeat first
    [ apply aside_bind; [|intros ?]
    | apply aside_ret | apply aside_lift | apply aside_read | apply aside_queue
    | apply aside_table | apply aside_unpersisted | apply aside_notified
    | apply aside_for; intros ?
    | match goal with |- aside (match ?x with _ => _ end) => destruct x end ].

Lemma maybe_send_aside l : aside (maybe_send_presence_to_interested_destinations l).
Proof. unfold maybe_send_presence_to_interested_destinations. aside_auto. Qed.

Lemma persist_and_notify_aside l : aside (_persist_and_notify l).
Proof.
  unfold _persist_and_notify, update_presence. apply aside_bind; [apply aside_table|intros _].
  destruct (get_interested_parties l). aside_auto.
Qed.

Lemma update_rest_aside now plan : aside (update_rest now plan).
Proof.
  unfold update_rest. destruct plan as [[tn tp] us]. apply aside_bind.
  { destruct tn; [apply aside_ret|apply persist_and_notify_aside]. }
  intros _. aside_auto.
Qed.

Lemma aside_inv {A} (c : St PresenceHandler A) T h : aside c -> pres_inv T h -> pres_inv T (c h).2.
Proof. intros Hc. destruct (Hc h) as (E1 & E2 & E3 & _). by apply pres_inv_same. Qed.

(** What [_update_states] does to states, devices and timers, whether it raises or not. *)
Lemma update_states_run now now2 l force h :
  contiguous (entries (wheel_timer h)) -> _presence_enabled = true ->
  exists h1, updated l h h1 /\
    let h' := (_update_states now now2 l force h).2 in
    wheel_timer h' = wheel_timer h1 /\ user_to_current_state h' = user_to_current_state h1 /\
    user_to_devices h' = user_to_devices h1.
Proof.
  intros Hc He. unfold _update_states. rewrite He. simpl.
  destruct (update_core_run now l force h Hc) as (tn & tp & us & h1 & E & Hu & _).
  exists h1. split; [done|]. rewrite (st_bind_run _ _ _ _ _ E).
  destruct (update_rest_aside now2 (tn, tp, us) h1) as (-> & -> & -> & _). done.
Qed.

Lemma update_states_inv T now now2 l force h :
  pres_inv T h -> (forall s, s ∈ l -> storable T h s) -> pres_inv T (_update_states now now2 l force h).2.
Proof.
  intros Hi Hl. destruct _presence_enabled eqn:He.
  - destruct (update_states_run now now2 l force h (pi_contiguous T h Hi) He) as (h1 & Hu & E1 & E2 & E3).
    eapply (pres_inv_same T h1); [done..|]. by eapply updated_inv.
  - unfold _update_states. by rewrite He.
Qed.

(** ** Devices *)

Lemma touch_device_run u d f h :
  exists ds, (touch_device u d f h) = (Ok tt, set_user_devices (<[u := ds]> (user_to_devices h)) h) /\
    ds <> [] /\
    ((forall d', valid_state (dev_state d') -> valid_state (dev_state (f d'))) ->
     valid_devices (default [] (user_to_devices h !! u)) -> valid_devices ds).
Proof.
  unfold touch_device, on_devices, st_zoom, st_modify. cbn zeta.
  set (ds0 := default [] (user_to_devices h !! u)).
  exists (dset d (f (default (default_device u d) (dget d ds0))) ds0). split; [done|]. split.
  - destruct ds0 as [|[]]; simpl; [done|]. by case_decide.
  - intros Hf Hv dev (kd & -> & Hkd)%in_map_b.
    assert (Hin : forall (l : devices) v, kd ∈ dset d v l -> kd = (d, v) \/ kd ∈ l).
    { induction l as [|[k' v'] l IH]; intros v; simpl.
      - intros ->%list_elem_of_singleton. by left.
      - case_decide as Hd; intros [->|Hk]%elem_of_cons.
        + by left; subst.
        + right. by right.
        + right. by left.
        + destruct (IH v Hk); [by left|right; by right]. }
    destruct (Hin _ _ Hkd) as [->|Hin']; simpl.
    + apply Hf. destruct (dget d ds0) as [v|] eqn:E; simpl; [|by exists 1].
      apply Hv. apply in_map_b. exists (d, v). split; [done|]. by apply dget_in.
    + apply Hv. apply in_map_b. by exists kd.
Qed.

Lemma devices_inv T u ds h :
  pres_inv T h -> ds <> [] -> (is_mine_id u = true -> valid_devices ds) ->
  pres_inv T (set_user_devices (<[u := ds]> (user_to_devices h)) h).
Proof.
  intros [I1 I2 I3 I4 I5 I6] Hne Hv. split; simpl; auto.
  - intros u' ds'. destruct (decide (u' = u)) as [->|]; [|rewrite lookup_insert_ne by done; apply I4].
    rewrite lookup_insert_eq. intros [= <-]. done.
  - intros u' s Hu Hs Hm Hst. destruct (decide (u' = u)) as [->|].
    + exists ds. by rewrite lookup_insert_eq.
    + rewrite lookup_insert_ne by done. by apply (I5 u' s).
Qed.

Lemma devices_valid T u h : pres_inv T h -> is_mine_id u = true ->
  valid_devices (default [] (user_to_devices h !! u)).
Proof.
  intros Hi Hm. destruct (user_to_devices h !! u) as [ds|] eqn:E; simpl; [by eapply pi_devices|].
  by intros d ?%elem_of_nil.
Qed.

Lemma touch_device_inv T u d f h :
  pres_inv T h -> (forall d', valid_state (dev_state d') -> valid_state (dev_state (f d'))) ->
  exists h1, touch_device u d f h = (Ok tt, h1) /\ pres_inv T h1 /\
    user_to_current_state h1 = user_to_current_state h /\
    (exists ds, user_to_devices h1 !! u = Some ds /\ ds <> []).
Proof.
  intros Hi Hf. destruct (touch_device_run u d f h) as (ds & -> & Hne & Hv).
  eexists. split; [done|]. split_and!; simpl; [|done|exists ds; by rewrite lookup_insert_eq].
  apply devices_inv; [done|done|]. intros Hm. apply Hv; [done|by apply (devices_valid T)].
Qed.

(** ** The stretches *)

(** A state that was read before the last wait. *)
Definition fetched (h : PresenceHandler) (s : UserPresenceState) : Prop :=
  user_to_current_state h !! user_id s = Some s \/ state s = PresenceState.OFFLINE.

Lemma fetched_storable T h s s' :
  pres_inv T h -> (user_id s ∉ T -> fetched h s) -> user_id s' = user_id s -> state s' = state s -> storable T h s'.
Proof.
  intros Hi Hf Hu Hst HT Hm Hne. rewrite Hu in HT. destruct (Hf HT) as [Hs|Ho]; [|congruence]. rewrite Hu in *. eapply pi_online; [done..|congruence].
Qed.

(** The users whose states a stretch sets without regard to their devices: those a module
    speaks of, and, when the syncs of a process end together, those whose states changed
    while others were read from the table. *)
Inductive stretch (h : PresenceHandler) : gset string -> St PresenceHandler unit -> Prop :=
  | str_default u : stretch h ∅ (st_modify (set_current_state (<[u := default_presence u]>)))
  | str_set_state u d presence m force is_sync prev now now2 now3 :
      presence ∈ VALID_PRESENCE -> user_id prev = u -> fetched h prev ->
      stretch h ∅ (set_state_of u d presence m force is_sync prev now now2 now3)
  | str_bump_device u d now : stretch h ∅ (bump_device u d now)
  | str_bump_user u prev now now2 now3 : user_id prev = u -> stretch h ∅ (bump_user u prev now now2 now3)
  | str_sync u d : stretch h ∅ (st_modify (set_num_syncs
      (fun m => <[(u, d) := default 0 (m !! (u, d)) + 1]> m)))
  | str_count_down u d : stretch h ∅ (count_down u d)
  | str_end prev now now2 now3 : fetched h prev -> stretch h ∅ (end_of_user prev now now2 now3)
  | str_external_row p u d is_syncing t prev now now2 now3 : user_id prev = u -> fetched h prev ->
      stretch h ∅ (external_sync_row p u d is_syncing t prev now now2 now3)
  | str_stop_process p now : stretch h ∅ (stop_process p now ;;! st_ret tt)
  | str_clear T l t now2 now3 : (forall s, s ∈ l -> user_id s ∉ T -> fetched h s) ->
      stretch h T (_update_states now2 now3 (map (with_last_user_sync_ts t) l) false)
  | str_forget_process p : stretch h ∅ (st_modify (set_external_updated (delete p)))
  | str_incoming l now now2 : (forall s, s ∈ l -> is_mine_id (user_id s) = false) ->
      stretch h ∅ (_update_states now now2 l false)
  | str_module states users now now2 :
      stretch h (list_to_set (map user_id (module_states states users)))
        (_update_states now now2 (module_states states users) true)
  | str_timeouts now now2 now3 : stretch h ∅ (_handle_timeouts now now2 now3)
  | str_persist : stretch h ∅ _persist_unpersisted_changes
  | str_shutdown b : stretch h ∅ (_on_shutdown b)
  | str_clear_queue now : stretch h ∅ (on_queue (_clear_queue now)).

Definition handler_step (h : PresenceHandler) (T : gset string) (h' : PresenceHandler) : Prop :=
  exists c, stretch h T c /\ h' = (c h).2.

Lemma combined_state_run u h :
  (exists e, combined_state u h = (Err e, h)) \/
  (exists s, combined_state u h = (Ok s, h) /\
     (s <> PresenceState.OFFLINE -> exists ds, user_to_devices h !! u = Some ds /\ ds <> [])).
Proof.
  unfold combined_state, st_bind, st_read, st_lift.
  destruct (_combine_device_states _) as [s|e] eqn:E; [right|left; eauto]. exists s. split; [done|].
  intros Hs. destruct (user_to_devices h !! u) as [[|d ds]|]; simpl in E; [|eauto|];
    unfold _combine_device_states in E; simpl in E; congruence.
Qed.

Lemma set_state_of_inv T u d presence m force is_sync prev now now2 now3 h :
  pres_inv T h -> presence ∈ VALID_PRESENCE -> user_id prev = u ->
  pres_inv T (set_state_of u d presence m force is_sync prev now now2 now3 h).2.
Proof.
  intros Hi Hp Hu. unfold set_state_of. set (p := if _ && _ then PresenceState.BUSY else presence).
  assert (Hv : valid_state p).
  { apply valid_state_iff. unfold p. destruct (_ && _); [by left|].
    unfold VALID_PRESENCE in Hp. destruct msc3026_enabled; set_solver. }
  match goal with |- context [touch_device u d ?f] =>
    destruct (touch_device_inv T u d f h) as (h1 & E1 & Hi1 & _ & Hd) end; [done|by destruct is_sync|].
  rewrite (st_bind_run _ _ _ _ _ E1).
  destruct (combined_state_run u h1) as [[e E2]|(s & E2 & _)].
  { unfold st_bind at 1. by rewrite E2. }
  rewrite (st_bind_run _ _ _ _ _ E2). apply update_states_inv; [done|].
  intros s' ->%list_elem_of_singleton _ _. by destruct is_sync, (_ || _); simpl; rewrite Hu.
Qed.

Lemma bump_user_inv T u prev now now2 now3 h :
  pres_inv T h -> user_id prev = u -> pres_inv T (bump_user u prev now now2 now3 h).2.
Proof.
  intros Hi Hu. unfold bump_user.
  destruct (combined_state_run u h) as [[e E2]|(s & E2 & Hd)].
  { unfold st_bind at 1. by rewrite E2. }
  rewrite (st_bind_run _ _ _ _ _ E2). apply update_states_inv; [done|].
  intros s' ->%list_elem_of_singleton _ Hne. simpl in *. rewrite Hu. by apply Hd.
Qed.

Lemma external_inv T f h : pres_inv T h -> pres_inv T (set_external_syncs f h).
Proof. by apply pres_inv_same. Qed.

Lemma external_sync_row_inv T p u d is_syncing t prev now now2 now3 h :
  pres_inv T h -> user_id prev = u -> fetched h prev ->
  pres_inv T (external_sync_row p u d is_syncing t prev now now2 now3 h).2.
Proof.
  intros Hi Hu Hf. unfold external_sync_row, set_process. cbn [st_bind st_modify].
  set (h1 := set_external_syncs _ h). unfold st_bind at 1. simpl.
  assert (Hi1 : pres_inv T h1) by (by apply external_inv).
  unfold st_bind at 1. simpl. set (here := bool_decide _).
  unfold st_bind at 1. destruct (is_syncing && negb here); [by apply (pres_inv_same T h1)|].
  destruct (negb is_syncing && here); [|by apply (pres_inv_same T h1)].
  destruct (touch_device_inv T u d (set_dev_last_sync_ts t) h1) as (h2 & E2 & Hi2 & Em & Hd); [done|done|].
  unfold st_bind at 1. rewrite E2.
  assert (Hi3 : pres_inv T (_update_states now now2 [with_last_user_sync_ts t prev] false h2).2).
  { apply update_states_inv; [done|]. intros s' ->%list_elem_of_singleton _ _. simpl. by rewrite Hu. }
  destruct (_update_states _ _ _ _ h2) as [[[]|e] h3]; [|done].
  simpl. by apply (pres_inv_same T h3).
Qed.

Lemma touches_inv T t l h :
  pres_inv T h ->
  pres_inv T (st_for (fun ud : user_device => touch_device ud.1 ud.2 (set_dev_last_sync_ts t)) l h).2.
Proof.
  revert h. induction l as [|ud l IH]; intros h Hi; [done|]. simpl.
  destruct (touch_device_inv T ud.1 ud.2 (set_dev_last_sync_ts t) h) as (h1 & E & Hi1 & _); [done|done|].
  rewrite (st_bind_run _ _ _ _ _ E). by apply IH.
Qed.

(** ** [_handle_timeouts] *)

(** The current state of a user, the default one if there is none. *)
Definition current (h : PresenceHandler) (u : string) : UserPresenceState :=
  default (default_presence u) (user_to_current_state h !! u).

Lemma current_user T h u : pres_inv T h -> user_id (current h u) = u.
Proof.
  intros Hi. unfold current. destruct (user_to_current_state h !! u) eqn:E; [|done].
  by eapply pi_users.
Qed.

Lemma expire_run ids users h :
  exists users' h', st_fold expire_process users ids h = (Ok users', h') /\
    (forall u, u ∈ users -> u ∈ users') /\
    wheel_timer h' = wheel_timer h /\ user_to_current_state h' = user_to_current_state h /\
    user_to_devices h' = user_to_devices h /\ num_current_syncs h' = num_current_syncs h /\
    (forall p s, external_syncs h' !! p = Some s -> external_syncs h !! p = Some s) /\
    (forall p, p ∉ ids -> external_syncs h' !! p = external_syncs h !! p).
Proof.
  revert users h. induction ids as [|p ids IH]; intros users h.
  { exists users, h. by split_and!. }
  simpl. unfold st_bind at 1. cbn.
  match goal with |- context [st_fold expire_process ?us ids ?h1] =>
    destruct (IH us h1) as (users' & h' & E & Hin & E1 & E2 & E3 & E4 & Hex & Hkeep) end.
  exists users', h'. split_and!; [done|..]; try done.
  - intros u Hu. apply Hin, elem_of_app. by left.
  - intros p' s Hs. apply Hex in Hs. simpl in Hs. by apply lookup_delete_Some in Hs as [_ ?].
  - intros p' [? ?]%not_elem_of_cons. rewrite Hkeep by done. simpl. by rewrite lookup_delete_ne.
Qed.

(** The handler after the processes that say nothing any more were dropped. *)
Definition timeouts_syncing (now : Z) (h : PresenceHandler) (syncing : gset user_device) : Prop :=
  exists h1, syncing = syncing_user_devices h1 /\ num_current_syncs h1 = num_current_syncs h /\
    (forall p s, external_syncs h1 !! p = Some s -> external_syncs h !! p = Some s) /\
    (forall p, p ∉ expired_process_ids now h -> external_syncs h1 !! p = external_syncs h !! p).

(** What the timers do to a user. *)
Definition timed_out (now : Z) (syncing : gset user_device) (h h' : PresenceHandler) (u : string)
    : Prop :=
  user_to_devices h' !! u =
    (fun _ => (timeout_of syncing now (user_to_devices h) (current h u)).2) <$> user_to_devices h !! u /\
  exists o, (timeout_of syncing now (user_to_devices h) (current h u)).1 = Ok o /\
    match o with
    | Some s => exists s', user_to_current_state h' !! u = Some s' /\ stored_as (wheel_timer h') s s'
    | None => user_to_current_state h' !! u = user_to_current_state h !! u
    end.

Lemma timeout_of_ok T syncing now h u :
  pres_inv T h -> exists o, (timeout_of syncing now (user_to_devices h) (current h u)).1 = Ok o.
Proof.
  intros Hi. unfold timeout_of. rewrite (current_user T) by done.
  destruct (is_mine_id u) eqn:Hm.
  - destruct (handle_timeout_mine (current h u) syncing (default [] (user_to_devices h !! u)) now)
      as (o & ds & -> & _); [by apply (devices_valid T)|by exists o].
  - destruct (handle_timeout_other (current h u) syncing (default [] (user_to_devices h !! u)) now)
      as (o & -> & _). by exists o.
Qed.

Lemma timeout_of_user T syncing now h u s :
  pres_inv T h -> (timeout_of syncing now (user_to_devices h) (current h u)).1 = Ok (Some s) ->
  same_but_state (current h u) s.
Proof.
  intros Hi. unfold timeout_of. rewrite (current_user T) by done.
  destruct (is_mine_id u) eqn:Hm.
  - destruct (handle_timeout_mine (current h u) syncing (default [] (user_to_devices h !! u)) now)
      as (o & ds & -> & _ & Ho & _); [by apply (devices_valid T)|].
    simpl. intros [= ->]. by apply Ho.
  - destruct (handle_timeout_other (current h u) syncing (default [] (user_to_devices h !! u)) now)
      as (o & -> & Ho). simpl. intros [= ->]. by apply Ho.
Qed.

Lemma handle_timeouts_run T now now2 now3 h :
  pres_inv T h -> _presence_enabled = true ->
  exists (users : list string) (syncing : gset user_device),
    let h' := (_handle_timeouts now now2 now3 h).2 in
    timeouts_syncing now h syncing /\
    (forall u k, timer_at (wheel_timer h) u k -> k <= int_truediv now 5000 -> u ∈ users) /\
    (forall u, u ∈ users -> timed_out now syncing h h' u) /\
    (forall u, u ∉ users -> user_to_devices h' !! u = user_to_devices h !! u /\
       user_to_current_state h' !! u = user_to_current_state h !! u) /\
    bucket_size (wheel_timer h') = 5000 /\ contiguous (entries (wheel_timer h')) /\
    (forall u k, timer_at (wheel_timer h) u k -> int_truediv now 5000 < k -> timer_at (wheel_timer h') u k).
Proof.
  intros Hi He. remember (_handle_timeouts now now2 now3 h) as res eqn:Eres.
  unfold _handle_timeouts, on_wheel, st_zoom in Eres. unfold st_bind at 1 in Eres.
  destruct (fetch (wheel_timer h) now) as [fetched_users w1] eqn:Ef.
  destruct (fetch_spec _ _ _ _ (pi_contiguous T h Hi) Ef) as (Hb & Hc1 & Hret & Hrest & _).
  rewrite (pi_size T h Hi) in *.
  set (h1 := set_wheel_timer w1 h) in Eres. unfold st_bind at 1 in Eres. cbn [st_read] in Eres.
  destruct (expire_run (expired_process_ids now h1) fetched_users h1)
    as (users & h2 & E2 & Hsub & Ew & Em & Ed & En & Hex & Hkeep).
  change (user_to_current_state h1) with (user_to_current_state h) in Em.
  change (user_to_devices h1) with (user_to_devices h) in Ed.
  rewrite (st_bind_run _ _ _ _ _ E2) in Eres. unfold st_bind at 1 in Eres. cbn [st_read] in Eres.
  set (states := map _ (set_iter (remove_dups users))) in Eres.
  assert (Hstates : map user_id states = set_iter (remove_dups users)).
  { unfold states. rewrite map_map. rewrite <- (map_id (set_iter (remove_dups users))) at 2.
    apply map_ext. intros u. rewrite Em. apply (current_user T h u Hi). }
  assert (Hin : forall st, st ∈ states <-> exists u, u ∈ users /\ st = current h u).
  { intros st. unfold states. rewrite in_map_b. split.
    - intros (u & -> & Hu). exists u. rewrite set_iter_perm, elem_of_remove_dups in Hu.
      split; [done|]. unfold current. by rewrite Em.
    - intros (u & Hu & ->). exists u. rewrite set_iter_perm, elem_of_remove_dups. split; [|done]. unfold current. by rewrite Em. }
  unfold st_bind at 1 in Eres. cbn [st_read] in Eres.
  set (syncing := syncing_user_devices h2) in Eres.
  destruct (timeouts_run syncing now states [] (user_to_devices h2)) as (ch & m' & E3 & Hwf & Hout & Hres).
  { rewrite Hstates, set_iter_perm. apply NoDup_remove_dups. }
  { intros st (u & Hu & ->)%Hin. rewrite Ed. by apply (timeout_of_ok T). }
  unfold st_bind at 1 in Eres. unfold on_devices, st_zoom, handle_timeouts in Eres.
  rewrite (st_bind_run _ _ _ _ _ E3) in Eres. cbn [st_ret] in Eres.
  set (h3 := set_user_devices m' h2) in Eres.
  destruct (update_states_run now2 now3 (dvals ch) false h3) as (h4 & (G & R & U) & F1 & F2 & F3).
  { simpl. by rewrite Ew. }
  { done. }
  rewrite <- Eres in F1, F2, F3. clear Eres.
  assert (Hchin : forall u s, dget u ch = Some s <-> u ∈ users /\
    (timeout_of syncing now (user_to_devices h) (current h u)).1 = Ok (Some s)).
  { intros u s. destruct (decide (u ∈ users)) as [Hu|Hu].
    - destruct (Hres (current h u)) as [_ Hd]; [apply Hin; eauto|]. rewrite (current_user T h u Hi) in Hd.
      rewrite Ed in Hd. destruct (timeout_of_ok T syncing now h u Hi) as [o Ho].
      rewrite Ho in *. rewrite (Hd o eq_refl). destruct o; simpl; naive_solver.
    - destruct (Hout u) as [-> _]; [|naive_solver].
      by rewrite Hstates, set_iter_perm, elem_of_remove_dups. }
  assert (Hchid : forall s, s ∈ dvals ch -> dget (user_id s) ch = Some s).
  { intros s ([u s'] & -> & Hus)%in_map_b. simpl. apply dget_some_iff in Hus; [|apply Hwf, dict_wf_nil].
    pose proof Hus as [_ Ht]%Hchin. apply (timeout_of_user _ _ _ _ _ _ Hi) in Ht. rewrite Ht.
    simpl. rewrite (current_user T h u Hi). rewrite Hus. by rewrite <- Ht. }
  exists users, syncing. cbn zeta. split_and!.
  - exists h2. by split_and!.
  - intros u k Ht Hk. apply Hsub, Hret. eauto.
  - intros u Hu. split.
    + rewrite F3, R. simpl. destruct (Hres (current h u)) as [Hm _]; [apply Hin; eauto|].
      rewrite (current_user T h u Hi) in Hm. by rewrite Hm, Ed.
    + destruct (timeout_of_ok T syncing now h u Hi) as [o Ho]. exists o. split; [done|].
      rewrite F2, F1. destruct (U u) as [N Y]. destruct o as [s|].
      * assert (Hd : dget u ch = Some s) by (by apply Hchin).
        destruct Y as (s0 & s' & Hs0 & Hid & Hm & Hst).
        { apply in_map_b. exists s. split.
          - rewrite (timeout_of_user _ _ _ _ _ _ Hi Ho). simpl. by rewrite (current_user T h u Hi).
          - apply in_map_b. exists (u, s). split; [done|]. by apply dget_in. }
        apply Hchid in Hs0. rewrite Hid, Hd in Hs0. simplify_eq. eauto.
      * rewrite N; [by rewrite <- Em|]. intros (s & -> & Hs)%in_map_b.
        apply Hchid, Hchin in Hs as [_ Hs]. congruence.
  - intros u Hu. rewrite F3, R, F2. split.
    + simpl. destruct (Hout u) as [_ ->]; [|by rewrite Ed]. by rewrite Hstates, set_iter_perm, elem_of_remove_dups.
    + simpl. destruct (U u) as [-> _]; [by rewrite <- Em|]. intros (s & -> & Hs)%in_map_b.
      apply Hchid, Hchin in Hs as [Hs _]. done.
  - rewrite F1. destruct G as (-> & _). simpl. by rewrite Ew.
  - rewrite F1. apply G.
  - intros u k Ht Hk. rewrite F1. apply G. simpl. rewrite Ew. by apply Hrest.
Qed.

(** What [handle_timeout] gives for a local user, in the terms of the invariant. *)
Lemma timeout_of_mine T syncing now h u o :
  pres_inv T h -> is_mine_id u = true ->
  (timeout_of syncing now (user_to_devices h) (current h u)).1 = Ok o ->
  valid_devices (timeout_of syncing now (user_to_devices h) (current h u)).2 /\
  match o with
  | Some s => same_but_state (current h u) s /\ user_to_current_state h !! u = Some (current h u) /\
      (default [] (user_to_devices h !! u) <> [] -> state s <> PresenceState.OFFLINE ->
       (timeout_of syncing now (user_to_devices h) (current h u)).2 <> [])
  | None => state (current h u) <> PresenceState.OFFLINE ->
      (default [] (user_to_devices h !! u) <> [] ->
       (timeout_of syncing now (user_to_devices h) (current h u)).2 <> []) /\
      now - last_active_ts (current h u) <= LAST_ACTIVE_GRANULARITY
  end.
Proof.
  intros Hi Hm. unfold timeout_of. rewrite (current_user T), Hm by done.
  assert (Hne : state (current h u) <> PresenceState.OFFLINE ->
    user_to_current_state h !! u = Some (current h u)).
  { unfold current. by destruct (user_to_current_state h !! u). }
  destruct (handle_timeout_mine (current h u) syncing (default [] (user_to_devices h !! u)) now)
    as (o' & ds & E & Hv & Hs & Hn); [by apply (devices_valid T)|].
  rewrite E. simpl. intros [= ->]. split; [done|]. destruct o as [s|]; [|by apply Hn].
  destruct (Hs s eq_refl) as [Hsame Hds]. split_and!; [done| |done]. apply Hne. intros Ho.
  unfold handle_timeout in E. by rewrite bool_decide_eq_true_2 in E.
Qed.

(** A timer that has gone off says that its time is over. *)
Lemma timer_over now t k : int_truediv t 5000 < k -> k <= int_truediv now 5000 -> t < now.
Proof.
  intros H1 H2. destruct (Z.lt_ge_cases t now); [done|].
  pose proof (int_truediv_mono now t 5000 ltac:(lia) ltac:(lia)). lia.
Qed.

Lemma handle_timeouts_inv T now now2 now3 h :
  pres_inv T h -> _presence_enabled = true -> pres_inv T (_handle_timeouts now now2 now3 h).2.
Proof.
  intros Hi He. destruct (handle_timeouts_run T now now2 now3 h Hi He)
    as (users & syncing & _ & Hdue & Hin & Hout & Hb & Hc & Hkeep).
  set (h' := (_handle_timeouts now now2 now3 h).2) in *.
  assert (Hdev : forall u ds, user_to_devices h' !! u = Some ds -> u ∈ users ->
    ds = (timeout_of syncing now (user_to_devices h) (current h u)).2).
  { intros u ds E Hu. destruct (Hin u Hu) as [Hd _]. rewrite E in Hd.
    destruct (user_to_devices h !! u); by simplify_eq/=. }
  split; [done|done|..].
  - intros u s Hs. destruct (decide (u ∈ users)) as [Hu|Hu].
    + destruct (Hin u Hu) as (_ & [s0|] & Ho & Hm).
      * destruct Hm as (s' & E & (Hid & _) & _). rewrite E in Hs. simplify_eq.
        rewrite Hid, (timeout_of_user _ _ _ _ _ _ Hi Ho). by apply (current_user T).
      * rewrite Hm in Hs. by eapply pi_users.
    + destruct (Hout u Hu) as [_ E]. rewrite E in Hs. by eapply pi_users.
  - intros u ds E Hm. destruct (decide (u ∈ users)) as [Hu|Hu].
    + rewrite (Hdev u ds E Hu). destruct (timeout_of_ok T syncing now h u Hi) as [o Ho].
      by apply (timeout_of_mine T _ _ _ _ o).
    + destruct (Hout u Hu) as [E' _]. rewrite E' in E. by eapply pi_devices.
  - intros u s HT Hs Hm Hne. destruct (decide (u ∈ users)) as [Hu|Hu].
    + destruct (Hin u Hu) as (Hd & o & Ho & Hs').
      assert (Hhas : forall s0, user_to_current_state h !! u = Some s0 -> state s0 <> PresenceState.OFFLINE ->
        default [] (user_to_devices h !! u) <> []).
      { intros s0 E0 Hn. by destruct (pi_online T h Hi u s0 HT E0 Hm Hn) as (ds0 & -> & ?). }
      pose proof (timeout_of_mine _ _ _ _ _ o Hi Hm Ho) as [_ Hcase].
      set (ds := (timeout_of _ _ _ _).2) in *.
      assert (Hhad : forall s0, user_to_current_state h !! u = Some s0 ->
        state s0 <> PresenceState.OFFLINE -> ds <> [] -> exists ds, user_to_devices h' !! u = Some ds /\ ds <> []).
      { intros s0 E0 Hn ?. destruct (pi_online T h Hi u s0 HT E0 Hm Hn) as (ds0 & E1 & _).
        rewrite E1 in Hd. exists ds. by rewrite Hd. }
      destruct o as [s0|].
      * destruct Hs' as (s' & E & (_ & Hst & _) & _). rewrite E in Hs. simplify_eq.
        destruct Hcase as (Hsame & Hcur & Hds). assert (Hoff : state (current h u) <> PresenceState.OFFLINE); [|apply (Hhad (current h u)); [done|done|apply Hds; [by apply (Hhas _ Hcur)|congruence]]].
        intros Hoff. unfold timeout_of, handle_timeout in Ho. rewrite Hoff in Ho. done.
      * rewrite Hs' in Hs. apply (Hhad s Hs Hne).
        assert (Hcu : current h u = s) by (unfold current; by rewrite Hs). rewrite Hcu in Hcase.
        apply Hcase; [done|by apply (Hhas s)].
    + destruct (Hout u Hu) as [Ed Em]. rewrite Ed, Em in *. by apply (pi_online T h Hi u s).
  - intros Ht u s Hs Hm Hon.
    assert (Hold : user_to_current_state h !! u = Some s ->
      (forall k, timer_at (wheel_timer h) u k -> int_truediv (last_active_ts s + IDLE_TIMER) 5000 < k ->
       int_truediv now 5000 < k) ->
      looked_at_after (wheel_timer h') u (last_active_ts s + IDLE_TIMER)).
    { intros E Hk. destruct (pi_timer T h Hi Ht u s E Hm Hon) as (k & Hk1 & Hk2).
      rewrite (pi_size T h Hi) in Hk2. exists k. rewrite Hb. split; [|done]. apply Hkeep; [done|by apply Hk]. }
    destruct (decide (u ∈ users)) as [Hu|Hu].
    + destruct (Hin u Hu) as (Hd & o & Ho & Hs'). destruct o as [s0|].
      * destruct Hs' as (s' & E & (Hid & Hst & Hla & _) & Hlook). rewrite E in Hs. simplify_eq.
        assert (Hid0 : user_id s0 = u).
        { rewrite (timeout_of_user _ _ _ _ _ _ Hi Ho). by apply (current_user T). }
        rewrite Hla. rewrite Hid0 in Hlook. apply Hlook; [done|done|congruence].
      * rewrite Hs' in Hs. apply Hold; [done|]. intros k Hk1 Hk2.
        pose proof (timeout_of_mine _ _ _ _ _ None Hi Hm Ho) as [_ Hcase].
        assert (Hcu : current h u = s) by (unfold current; by rewrite Hs). rewrite Hcu in Hcase.
        destruct Hcase as [_ Hact]; [by rewrite Hon|].
        destruct (Z.lt_ge_cases (int_truediv now 5000) k) as [|Hle]; [done|].
        pose proof (timer_over _ _ _ Hk2 Hle). unfold IDLE_TIMER, LAST_ACTIVE_GRANULARITY in *. lia.
    + destruct (Hout u Hu) as [_ Em]. rewrite Em in Hs. apply Hold; [done|]. intros k Hk1 Hk2.
      destruct (Z.lt_ge_cases (int_truediv now 5000) k) as [|Hle]; [done|].
      by destruct Hu; eapply Hdue.
Qed.

(** ** Every stretch keeps the invariant *)

Lemma stop_process_inv T p now h : pres_inv T h -> pres_inv T (stop_process p now h).2.
Proof.
  intros Hi. unfold stop_process. unfold st_bind at 1. cbn [st_read]. unfold st_bind at 1. cbn [st_modify].
  set (l := set_iter _).
  pose proof (touches_inv T now l (set_external_syncs (delete p) h) (external_inv _ _ _ Hi)) as Hi'.
  unfold st_bind. destruct (st_for _ l _) as [[[]|e] h1]; done.
Qed.

Theorem step_inv T T' h h' :
  _presence_enabled = true -> pres_inv T h -> handler_step h T' h' -> pres_inv (T ∪ T') h'.
Proof.
  intros He Hi (c & Hc & ->). apply (pres_inv_more T (T ∪ T')) in Hi; [|set_solver].
  assert (HT : T' ⊆ T ∪ T') by set_solver. set (T0 := T ∪ T') in *. clearbody T0. clear T.
  destruct Hc.
  - simpl. destruct Hi as [I1 I2 I3 I4 I5 I6]. split; simpl; auto; intros.
    + destruct (decide (u0 = u)) as [->|Hne]; [|rewrite lookup_insert_ne in * by done; eauto].
      rewrite lookup_insert_eq in *. by simplify_eq.
    + destruct (decide (u0 = u)) as [->|Hne]; [|rewrite lookup_insert_ne in * by done; eauto].
      rewrite lookup_insert_eq in *. by simplify_eq.
    + destruct (decide (u0 = u)) as [->|Hne]; [|rewrite lookup_insert_ne in * by done; eauto].
      rewrite lookup_insert_eq in *. by simplify_eq.
  - by apply set_state_of_inv.
  - unfold bump_device. match goal with |- context [touch_device u d ?f] =>
      destruct (touch_device_inv T0 u d f h Hi) as (h1 & -> & Hi1 & _) end; [|done].
    intros d' Hv. cbn zeta. case_bool_decide; [by exists 3|done].
  - by apply bump_user_inv.
  - by apply (pres_inv_same T0 h).
  - unfold count_down, st_bind, st_read. by destruct (_ !! _); [apply (pres_inv_same T0 h)|].
  - apply update_states_inv; [done|]. intros s ->%list_elem_of_singleton. by eapply fetched_storable.
  - by apply external_sync_row_inv.
  - unfold st_bind. pose proof (stop_process_inv _ p now h Hi). by destruct (stop_process p now h) as [[]].
  - apply update_states_inv; [done|]. intros s (s0 & -> & Hs0)%in_map_b.
    apply (fetched_storable T0 h s0); [done| |done|done]. intros Hu. apply H1; [done|]. by intros ?%HT.
  - by apply (pres_inv_same T0 h).
  - apply update_states_inv; [done|]. intros s Hs _ Hm. by rewrite H1 in Hm.
  - apply update_states_inv; [done|]. intros s Hs Hu. destruct Hu. apply HT, elem_of_list_to_set, in_map_b. eauto.
  - by apply handle_timeouts_inv.
  - apply aside_inv; [|done]. unfold _persist_unpersisted_changes, update_presence. aside_auto.
  - apply aside_inv; [|done]. unfold _on_shutdown, update_presence. aside_auto.
  - apply aside_inv; [apply aside_queue|done].
Qed.
End invariant.
