(* ===== verification/PresenceProps.v ===== *)
(** * PresenceProps: who is shown online, and for how long

    The theorems about presence: the invariant of the handler in every state its stretches
    reach; users who stay away go offline; users who sync do not. *)
From S2P Require Import Prelude PyVal PySort PyState PyFloat Identifiers WheelTimer.
From S2P Require Import PresenceState PresenceQueue PresenceHandler PresenceSafety.
From S2P Require Import PresenceInvariant.
From Stdlib Require Import String.
Open Scope string_scope.
Open Scope list_scope.
Open Scope Z_scope.
Open Scope py_scope.
Open Scope st_scope.

Section start.
Context `{PresenceEnv, SetOrder}.

(** ** The start *)

(** The rows of the table: one a user, and a state of the specification for local users. *)
Definition table_ok (table : gmap string UserPresenceState) : Prop :=
  forall u s, table !! u = Some s ->
    user_id s = u /\ (is_mine_id u = true -> valid_state (state s)).

Lemma on_wheel_insert_run now u t h : contiguous (entries (wheel_timer h)) ->
  exists w', on_wheel (wheel_insert now u t) h = (Ok tt, set_wheel_timer w' h) /\
    grows (wheel_timer h) w' /\ looked_at_after w' u t.
Proof.
  intros Hc. destruct (wheel_insert_run (wheel_timer h) now u t Hc) as (w' & E & G & L & _).
  exists w'. unfold on_wheel, st_zoom. by rewrite E.
Qed.

Lemma start_user_run now s h : contiguous (entries (wheel_timer h)) ->
  exists h', start_user now s h = (Ok tt, h') /\ grows (wheel_timer h) (wheel_timer h') /\
    looked_at_after (wheel_timer h') (user_id s) (last_active_ts s + IDLE_TIMER) /\
    user_to_current_state h' = user_to_current_state h /\
    exists d, dev_state d = state s /\
      user_to_devices h' = <[user_id s := [(None, d)]]> (user_to_devices h).
Proof.
  intros Hc. unfold start_user. unfold st_bind at 1. cbn [st_modify].
  match goal with |- context [st_bind (on_wheel _) _ ?h0] => set (h1 := h0) end.
  destruct (on_wheel_insert_run now (user_id s) (last_active_ts s + IDLE_TIMER) h1 Hc) as (w1 & E1 & G1 & L1).
  rewrite (st_bind_run _ _ _ _ _ E1).
  destruct (on_wheel_insert_run now (user_id s) (last_user_sync_ts s + SYNC_ONLINE_TIMEOUT)
    (set_wheel_timer w1 h1)) as (w2 & E2 & G2 & _); [apply G1|].
  rewrite (st_bind_run _ _ _ _ _ E2).
  match goal with |- context [wheel_insert now (user_id s) ?t] =>
    destruct (on_wheel_insert_run now (user_id s) t (set_wheel_timer w2 (set_wheel_timer w1 h1)))
      as (w3 & E3 & G3 & _); [apply G2|] end.
  rewrite E3. eexists. split; [done|]. simpl. split_and!.
  - transitivity w1; [done|]. by transitivity w2.
  - apply (looked_at_grows w1); [|done]. by transitivity w2.
  - done.
  - eexists. split; [|done]. done.
Qed.

Lemma start_users_run now l h : contiguous (entries (wheel_timer h)) -> NoDup (map user_id l) ->
  exists h', st_for (start_user now) l h = (Ok tt, h') /\ grows (wheel_timer h) (wheel_timer h') /\
    user_to_current_state h' = user_to_current_state h /\
    (forall s, s ∈ l -> looked_at_after (wheel_timer h') (user_id s) (last_active_ts s + IDLE_TIMER) /\
       exists d, dev_state d = state s /\ user_to_devices h' !! user_id s = Some [(None, d)]) /\
    (forall u, u ∉ map user_id l -> user_to_devices h' !! u = user_to_devices h !! u).
Proof.
  revert h. induction l as [|s l IH]; intros h Hc Hnd.
  { exists h. split_and!; [done|done|done| |done]. by intros s ?%elem_of_nil. }
  simpl in Hnd. apply NoDup_cons in Hnd as [Hni Hnd].
  destruct (start_user_run now s h Hc) as (h1 & E1 & G1 & L1 & M1 & d & Hd & D1).
  destruct (IH h1) as (h' & E' & G' & M' & Hin & Hout); [apply G1|done|].
  exists h'. simpl. rewrite (st_bind_run _ _ _ _ _ E1). split_and!; [done|by etransitivity|congruence|..].
  - intros s' [->|Hs']%elem_of_cons; [|by apply Hin]. split; [by apply (looked_at_grows (wheel_timer h1))|].
    exists d. split; [done|]. by rewrite Hout, D1, lookup_insert_eq.
  - intros u [? ?]%not_elem_of_cons. rewrite Hout, D1 by done. by rewrite lookup_insert_ne.
Qed.

Lemma active_users table : table_ok table ->
  NoDup (map user_id (map snd (map_to_list (_get_active_presence table)))).
Proof.
  intros Ht. rewrite map_map.
  assert (Heq : map (fun x => user_id x.2) (map_to_list (_get_active_presence table)) =
    map fst (map_to_list (_get_active_presence table))).
  { apply map_ext_in. intros [u s] Hus%list_elem_of_In. simpl.
    apply elem_of_map_to_list, map_lookup_filter_Some in Hus as [Hus _]. by apply Ht in Hus as [? _]. }
  rewrite Heq. apply NoDup_fst_map_to_list.
Qed.

Lemma new_handler_inv now table queue pos :
  _track_presence = true -> table_ok table -> pres_inv ∅ (new_handler now table queue pos).2.
Proof.
  intros Htr Ht. unfold new_handler. rewrite Htr.
  match goal with |- context [st_for _ ?l0 ?h0] => set (l := l0); set (h := h0) end.
  destruct (start_users_run now l h) as (h' & E & G & M & Hin & Hout); [by apply contiguous_nil|by apply active_users|].
  rewrite E. simpl.
  assert (Hl : forall u s, user_to_current_state h' !! u = Some s -> s ∈ l /\ user_id s = u).
  { intros u s Hs. rewrite M in Hs. simpl in Hs. split.
    - apply in_map_b. exists (u, s). split; [done|]. by apply elem_of_map_to_list.
    - apply map_lookup_filter_Some in Hs as [Hs _]. by apply Ht in Hs as [? _]. }
  split.
  - by destruct G as (-> & _).
  - apply G.
  - intros u s Hs. by apply Hl.
  - intros u ds Hds Hm. destruct (decide (u ∈ map user_id l)) as [Hu|Hu].
    + apply in_map_b in Hu as (s & -> & Hs). destruct (Hin s Hs) as [_ (d & Hd & E1)].
      rewrite E1 in Hds. simplify_eq. intros d' ->%list_elem_of_singleton. simpl. rewrite Hd.
      apply in_map_b in Hs as ([u0 s0] & -> & Hs). simpl in *.
      apply elem_of_map_to_list, map_lookup_filter_Some in Hs as [Hs _].
      apply Ht in Hs as [<- Hv]. by apply Hv.
    + rewrite Hout in Hds by done. done.
  - intros u s _ Hs _ _. destruct (Hl u s Hs) as [Hsl <-]. destruct (Hin s Hsl) as [_ (d & _ & E1)]. eauto.
  - intros _ u s Hs _ _. destruct (Hl u s Hs) as [Hsl <-]. by apply Hin.
Qed.

(** The states the stretches reach, from any start, and the users whose states were set
    without regard to their devices on the way. *)
Inductive reachable : gset string -> PresenceHandler -> Prop :=
  | reach_start now table queue pos :
      table_ok table -> reachable ∅ (new_handler now table queue pos).2
  | reach_step T T' h h' : reachable T h -> handler_step h T' h' -> reachable (T ∪ T') h'.

Lemma reachable_inv T h :
  _presence_enabled = true -> _track_presence = true -> reachable T h -> pres_inv T h.
Proof.
  intros He Ht. induction 1 as [|T T' h h' _ IH Hs]; [by apply new_handler_inv|by eapply step_inv].
Qed.
End start.

Section theorems.
Context `{PresenceEnv, SetOrder}.

(** C32: where presence is tracked, in every state the handler reaches, however its stretches
    interleave, a local user who is online has a timer that goes off after his last activity
    is [IDLE_TIMER] old, not before; and one who is not offline has a device, unless a module
    set his presence, or the syncs of a process ended together and his state changed while
    the states of others were read from the table. *)
Theorem presence_invariant T h u s :
  _presence_enabled = true -> _track_presence = true -> reachable T h ->
  user_to_current_state h !! u = Some s -> is_mine_id u = true ->
  (u ∉ T -> state s <> PresenceState.OFFLINE -> exists ds, user_to_devices h !! u = Some ds /\ ds <> []) /\
  (state s = PresenceState.ONLINE ->
   exists k, timer_at (wheel_timer h) u k /\ int_truediv (last_active_ts s + IDLE_TIMER) 5000 < k).
Proof.
  intros He Ht Hr Hs Hm. pose proof (reachable_inv T h He Ht Hr) as Hi. split.
  - intros Hu. by apply (pi_online T h Hi).
  - intros Ho. destruct (pi_timer T h Hi Ht u s Hs Hm Ho) as (k & ? & Hk).
    rewrite (pi_size T h Hi) in Hk. eauto.
Qed.

(** ** Who stays away goes offline *)

(** Nothing was heard of the device for longer than its timeout. *)
Definition silent (now : Z) (d : UserDevicePresenceState) : Prop :=
  (if decide (dev_state d = PresenceState.BUSY) then BUSY_ONLINE_TIMEOUT else SYNC_ONLINE_TIMEOUT)
  < now - Z.max (dev_last_sync_ts d) (dev_last_active_ts d).

Lemma silent_dropped u syncing now d : silent now d.2 -> (u, d.1) ∉ syncing ->
  (timeout_device u syncing now d).2 = true.
Proof.
  unfold silent, timeout_device. cbn zeta. cbn [snd]. intros Hs Hd.
  rewrite bool_decide_eq_false_2 by done. cbn [negb andb].
  destruct (bool_decide (dev_state d.2 = PresenceState.ONLINE) && _) eqn:Hi; simpl; apply Z.ltb_lt.
  - apply andb_true_iff in Hi as [Ho _]. boolify. by rewrite Ho in Hs.
  - destruct (decide (dev_state d.2 = PresenceState.BUSY)) as [Hb|Hb].
    + by rewrite bool_decide_eq_true_2.
    + by rewrite bool_decide_eq_false_2.
Qed.

Lemma timeout_all_gone st syncing ds now :
  state st <> PresenceState.OFFLINE -> ds <> [] ->
  (forall d, d ∈ ds -> silent now d.2 /\ (user_id st, d.1) ∉ syncing) ->
  handle_timeout st true syncing ds now = (Ok (Some (with_state PresenceState.OFFLINE st)), []).
Proof.
  intros Hst Hne Hall. unfold handle_timeout. rewrite bool_decide_eq_false_2 by done.
  destruct (timeout_devices (user_id st) syncing now ds) as [ds' ch] eqn:E.
  assert (ds' = []) as ->.
  { destruct ds' as [|d' ds']; [done|].
    assert (Hd : d' ∈ (timeout_devices (user_id st) syncing now ds).1) by (rewrite E; by left).
    apply timeout_devices_in in Hd as (d & Hd & _ & _ & Hf). destruct (Hall d Hd).
    by rewrite silent_dropped in Hf. }
  assert (ch = true) as ->.
  { destruct ch; [done|]. pose proof (timeout_devices_unchanged (user_id st) syncing now ds) as Hu.
    rewrite E in Hu. by destruct Hne; rewrite <- Hu. }
  unfold _combine_device_states. simpl. by rewrite bool_decide_eq_false_2.
Qed.

Lemma timers_bounded (w : WheelTimer (T := string)) : exists K, forall u k, timer_at w u k -> k <= K.
Proof.
  unfold timer_at. induction (entries w) as [|e l [K IH]].
  { exists 0. by intros u k (e & ?%elem_of_nil & _). }
  exists (Z.max K (end_key e)). intros u k (e' & [->|He']%elem_of_cons & Hk & Hu); [lia|].
  specialize (IH u k (ex_intro _ e' (conj He' (conj Hk Hu)))). lia.
Qed.

Lemma devices_silent (ds : devices) : exists T, forall now, T <= now -> forall d, d ∈ ds -> silent now d.2.
Proof.
  induction ds as [|d ds [T IH]].
  { exists 0. by intros now _ d ?%elem_of_nil. }
  exists (Z.max T (Z.max (dev_last_sync_ts d.2) (dev_last_active_ts d.2) + BUSY_ONLINE_TIMEOUT + 1)).
  intros now Hnow d' [->|Hd']%elem_of_cons; [|apply IH; [lia|done]].
  unfold silent, BUSY_ONLINE_TIMEOUT, SYNC_ONLINE_TIMEOUT in *. case_decide; lia.
Qed.

(** The devices still syncing when the timers are looked at were syncing before. *)
Lemma timeouts_syncing_sub now h syncing ud :
  timeouts_syncing now h syncing -> ud ∈ syncing -> ud ∈ syncing_user_devices h.
Proof.
  intros (h1 & -> & En & Hex & _). unfold syncing_user_devices. rewrite En.
  rewrite !elem_of_union, !elem_of_union_list. intros [?|(s & Hs & Hud)]; [by left|right].
  apply in_map_b in Hs as ([p s0] & -> & Hps). apply elem_of_map_to_list, Hex in Hps.
  exists s0. split; [|done]. apply in_map_b. exists (p, s0). split; [done|]. by apply elem_of_map_to_list.
Qed.

(** C33: where presence is tracked, a local user who is online, none of whose devices is syncing
    and whose state was always set with regard to his devices (by no module, and not when the
    syncs of a process ended together, from a state that had changed) goes offline: from
    some time on, the next look at the timers makes him so and drops his devices. *)
Theorem idle_user_goes_offline T h u s :
  _presence_enabled = true -> _track_presence = true -> reachable T h -> u ∉ T ->
  user_to_current_state h !! u = Some s -> is_mine_id u = true -> state s = PresenceState.ONLINE ->
  (forall d, (u, d) ∉ syncing_user_devices h) ->
  exists t, forall now now2 now3, t <= now ->
    let h' := (_handle_timeouts now now2 now3 h).2 in
    (exists s', user_to_current_state h' !! u = Some s' /\ state s' = PresenceState.OFFLINE) /\
    user_to_devices h' !! u = Some [].
Proof.
  intros He Ht Hr HT Hs Hm Ho Hsync. pose proof (reachable_inv T h He Ht Hr) as Hi.
  destruct (pi_online T h Hi u s HT Hs Hm) as (ds & Hds & Hne); [by rewrite Ho|].
  destruct (pi_timer T h Hi Ht u s Hs Hm Ho) as (k & Hk & _).
  destruct (timers_bounded (wheel_timer h)) as [K HK].
  destruct (int_truediv_unbounded 5000 K ltac:(lia)) as [T1 HT1].
  destruct (devices_silent ds) as [T2 HT2].
  exists (Z.max T1 T2). intros now now2 now3 Hnow.
  destruct (handle_timeouts_run T now now2 now3 h Hi He) as (users & syncing & Hsy & Hdue & Hin & _).
  assert (Hu : u ∈ users).
  { apply (Hdue u k Hk). specialize (HK u k Hk). specialize (HT1 now ltac:(lia)). lia. }
  destruct (Hin u Hu) as [Hd (o & Hto & Hcase)].
  assert (Hcur : current h u = s) by (unfold current; by rewrite Hs).
  assert (Hid : user_id s = u) by (by apply (pi_users T h Hi)).
  assert (E : timeout_of syncing now (user_to_devices h) (current h u) =
    (Ok (Some (with_state PresenceState.OFFLINE s)), [])).
  { unfold timeout_of. rewrite Hcur, Hid, Hm, Hds. simpl. apply timeout_all_gone; [by rewrite Ho|done|].
    intros d Hdin. split; [apply HT2; [lia|done]|]. rewrite Hid. intros Hd1.
    by apply (Hsync d.1), (timeouts_syncing_sub now h syncing). }
  rewrite E in *. simpl in *. simplify_eq. rewrite Hd, Hds. split; [|done].
  destruct Hcase as (s' & E' & (_ & Hst & _) & _). exists s'. done.
Qed.

(** ** Who has no device never goes offline *)

(** A user who is not offline but has no device, as a module can make him, stays as he is
    whatever time passes: the look at the timers only asks devices. *)
Theorem user_without_device_stays T h u s now now2 now3 :
  _presence_enabled = true -> _track_presence = true -> reachable T h ->
  user_to_current_state h !! u = Some s -> is_mine_id u = true ->
  user_to_devices h !! u = None ->
  let h' := (_handle_timeouts now now2 now3 h).2 in
  user_to_devices h' !! u = None /\ exists s', user_to_current_state h' !! u = Some s' /\ state s' = state s.
Proof.
  intros He Ht Hr Hs Hm Hd. pose proof (reachable_inv T h He Ht Hr) as Hi.
  destruct (handle_timeouts_run T now now2 now3 h Hi He) as (users & syncing & _ & _ & Hin & Hout & _). cbn zeta.
  destruct (decide (u ∈ users)) as [Hu|Hu]; [|destruct (Hout u Hu) as [-> ->]; eauto].
  destruct (Hin u Hu) as [-> (o & Hto & Hcase)]. rewrite Hd. split; [done|].
  assert (Hcur : current h u = s) by (unfold current; by rewrite Hs).
  assert (Hid : user_id s = u) by (by apply (pi_users T h Hi)).
  unfold timeout_of in Hto. rewrite Hcur, Hid, Hm, Hd in Hto. unfold handle_timeout in Hto.
  destruct (bool_decide (state s = PresenceState.OFFLINE)); simpl in Hto; [injection Hto as <-; rewrite Hcase; eauto|].
  destruct (_ || _) in Hto; injection Hto as <-; [|rewrite Hcase; eauto].
  destruct Hcase as (s' & E & (_ & Hst & _) & _). eauto.
Qed.

(** ** Who syncs stays *)

(** [(u, d)] has a sync under way, in this process or in one that was heard of lately. *)
Definition is_syncing (now : Z) (h : PresenceHandler) (ud : user_device) : Prop :=
  (exists n, num_current_syncs h !! ud = Some n /\ n <> 0) \/
  (exists p s t, external_syncs h !! p = Some s /\ ud ∈ s /\ external_last_updated h !! p = Some t /\
    now - t <= EXTERNAL_PROCESS_EXPIRY).

Lemma is_syncing_kept now h syncing ud :
  timeouts_syncing now h syncing -> is_syncing now h ud -> ud ∈ syncing.
Proof.
  intros (h1 & -> & En & _ & Hkeep) Hud. unfold syncing_user_devices. apply elem_of_union.
  destruct Hud as [(n & Hn & Hne)|(p & s & t & Hs & Hud & Ht & Hnow)].
  - left. apply elem_of_list_to_set, in_map_b. exists (ud, n). split; [done|]. apply in_filter_b.
    split; [by apply elem_of_map_to_list; rewrite En|]. simpl. apply negb_true_iff. by apply Z.eqb_neq.
  - right. apply elem_of_union_list. exists s. split; [|done]. apply in_map_b. exists (p, s).
    split; [done|]. apply elem_of_map_to_list. rewrite Hkeep; [done|].
    unfold expired_process_ids. intros ([p' t'] & Hp & Hin)%in_map_b. simpl in Hp. subst p'.
    apply in_filter_b in Hin as [Hin Hlt]. apply elem_of_map_to_list in Hin. simpl in Hlt.
    apply Z.ltb_lt in Hlt. rewrite Ht in Hin. simplify_eq. lia.
Qed.

(** The look at the timers does not make a local user offline while one of his devices
    syncs and is not offline itself: while the sync runs the device is kept, and is never made
    less than unavailable. *)
Theorem syncing_user_stays T h u s ds d dev now now2 now3 :
  _presence_enabled = true -> _track_presence = true -> reachable T h ->
  user_to_current_state h !! u = Some s -> is_mine_id u = true -> state s <> PresenceState.OFFLINE ->
  user_to_devices h !! u = Some ds -> (d, dev) ∈ ds -> dev_state dev <> PresenceState.OFFLINE ->
  is_syncing now h (u, d) ->
  let h' := (_handle_timeouts now now2 now3 h).2 in
  (exists s', user_to_current_state h' !! u = Some s' /\ state s' <> PresenceState.OFFLINE) /\
  (exists ds' dev', user_to_devices h' !! u = Some ds' /\ (d, dev') ∈ ds' /\
     dev_state dev' <> PresenceState.OFFLINE).
Proof.
  intros He Ht Hr Hs Hm Hne Hds Hdev Hdst Hsync. pose proof (reachable_inv T h He Ht Hr) as Hi.
  destruct (handle_timeouts_run T now now2 now3 h Hi He) as (users & syncing & Hsy & _ & Hin & Hout & _).
  pose proof (is_syncing_kept _ _ _ _ Hsy Hsync) as Hkept. cbn zeta.
  destruct (decide (u ∈ users)) as [Hu|Hu].
  2: { destruct (Hout u Hu) as [-> ->]. split; [eauto|]. exists ds, dev. done. }
  destruct (Hin u Hu) as [Hd (o & Hto & Hcase)].
  assert (Hcur : current h u = s) by (unfold current; by rewrite Hs).
  assert (Hid : user_id s = u) by (by apply (pi_users T h Hi)).
  rewrite Hds in Hd. simpl in Hd.
  unfold timeout_of in Hd, Hto. rewrite Hcur, Hid, Hm, Hds in Hd, Hto. simpl in Hd, Hto.
  pose proof (pi_devices T h Hi u ds Hds Hm) as Hv.
  set (dev' := (timeout_device u syncing now (d, dev)).1.1).
  assert (Hdev' : (d, dev') ∈ (timeout_devices u syncing now ds).1 /\ dev_state dev' <> PresenceState.OFFLINE).
  { split.
    - apply timeout_devices_in. exists (d, dev). split; [done|].
      split; [done|]. split; [done|].
      unfold timeout_device. simpl. by rewrite bool_decide_eq_true_2.
    - unfold dev', timeout_device. simpl. by destruct (_ && _). }
  unfold handle_timeout in Hd, Hto. rewrite bool_decide_eq_false_2 in Hd, Hto by done.
  rewrite Hid in Hd, Hto.
  pose proof (timeout_devices_valid u syncing now ds Hv) as Hv'.
  destruct (timeout_devices u syncing now ds) as [ds' ch]. simpl in *. destruct Hdev' as [Hdin Hd'].
  split; [|exists ds', dev'; by rewrite Hd].
  assert (Hstate : forall o, o = Some s \/ (exists np, _combine_device_states (dvals ds') = Ok np /\
      o = Some (with_state np s)) \/ o = None ->
    match o with
    | Some s0 => exists s', user_to_current_state (_handle_timeouts now now2 now3 h).2 !! u = Some s' /\
        stored_as (wheel_timer (_handle_timeouts now now2 now3 h).2) s0 s'
    | None => user_to_current_state (_handle_timeouts now now2 now3 h).2 !! u = user_to_current_state h !! u
    end ->
    exists s', user_to_current_state (_handle_timeouts now now2 now3 h).2 !! u = Some s' /\
      state s' <> PresenceState.OFFLINE).
  { intros o0 [->|[(np & Hnp & ->)| ->]].
    - intros (s' & ? & (_ & Hst & _) & _). exists s'. by rewrite Hst.
    - intros (s' & ? & (_ & Hst & _) & _). exists s'. split; [done|]. rewrite Hst. simpl.
      destruct (combine_ok (dvals ds')) as (np' & Hnp' & Hc); [done|]. assert (np' = np) as -> by congruence.
      assert (Hin' : dev' ∈ dvals ds') by (apply in_map_b; by exists (d, dev')).
      apply (combines_not_offline _ dev' _ Hc Hin'); [by apply Hv'|done].
    - intros E. exists s. by rewrite E. }
  apply (Hstate o); [|done].
  destruct ch; simpl in Hto.
  - destruct (combine_ok (dvals ds')) as (np & Hnp & _); [done|]. rewrite Hnp in Hto. simpl in Hto.
    case_bool_decide; simpl in Hto; [destruct (_ || _) in Hto|]; simplify_eq; eauto 6.
  - destruct (_ || _) in Hto; simplify_eq; eauto.
Qed.
End theorems.
