(* ===== verification/PresenceSaved.v ===== *)
(** * PresenceSaved: what is stored of presence

    Not every change is written to the table at once: those nobody is told of wait in
    [unpersisted_users_changes].  Methods that run one after another lose none. *)
From S2P Require Import Prelude PyVal PySort PyState PyFloat Identifiers WheelTimer.
From S2P Require Import PresenceState PresenceQueue PresenceHandler PresenceSafety.
From S2P Require Import PresenceInvariant PresenceProps.
From Stdlib Require Import String.
Open Scope string_scope.
Open Scope list_scope.
Open Scope Z_scope.
Open Scope py_scope.
Open Scope st_scope.

Section saved.
Context `{PresenceEnv, SetOrder}.

(** Every current state is the stored one, or waits to be stored. *)
Definition saved (h : PresenceHandler) : Prop :=
  forall u s, user_to_current_state h !! u = Some s ->
    u ∈ unpersisted_users_changes h \/ default (default_presence u) (presence_table h !! u) = s.

Record saved_inv (h : PresenceHandler) : Prop := {
  sv_contiguous : contiguous (entries (wheel_timer h));
  sv_users : forall u s, user_to_current_state h !! u = Some s -> user_id s = u;
  sv_saved : saved h
}.

Lemma saved_same h h' :
  wheel_timer h' = wheel_timer h -> user_to_current_state h' = user_to_current_state h ->
  unpersisted_users_changes h' = unpersisted_users_changes h ->
  presence_table h' = presence_table h -> saved_inv h -> saved_inv h'.
Proof. intros E1 E2 E3 E4 [I1 I2 I3]. split; unfold saved; rewrite ?E1, ?E2, ?E3, ?E4; auto. Qed.

Lemma saved_modify f :
  (forall h, wheel_timer (f h) = wheel_timer h /\ user_to_current_state (f h) = user_to_current_state h /\
    unpersisted_users_changes (f h) = unpersisted_users_changes h /\
    presence_table (f h) = presence_table h) -> preserves_ok saved_inv (st_modify f).
Proof. intros Hf. apply okeeps_modify. intros h. destruct (Hf h) as (? & ? & ? & ?). by apply saved_same. Qed.

Lemma saved_devices {A} (c : St (gmap string devices) A) : preserves_ok saved_inv (on_devices c).
Proof.
  intros h a h' Hi. unfold on_devices, st_zoom. destruct (c _) as [r m]. intros [= _ <-].
  by apply (saved_same h).
Qed.

Lemma saved_queue {A} (c : St PresenceFederationQueue A) : preserves_ok saved_inv (on_queue c).
Proof.
  intros h a h' Hi. unfold on_queue, st_zoom. destruct (c _) as [r m]. intros [= _ <-].
  by apply (saved_same h).
Qed.

#[local] Hint Resolve saved_devices saved_queue : okeeps.
#[local] Hint Extern 3 (preserves_ok saved_inv (st_modify _)) => apply saved_modify; done : okeeps.

(** ** [_update_states] *)

(** The rows written. *)
Lemma stored_rows (tn : list (string * UserPresenceState)) (t : gmap string UserPresenceState) u :
  dict_wf tn -> (forall k s, dget k tn = Some s -> user_id s = k) ->
  fold_left (fun t s => <[user_id s := s]> t) (dvals tn) t !! u =
  match dget u tn with Some s => Some s | None => t !! u end.
Proof.
  revert t. induction tn as [|[k s] tn IH]; intros t Hwf Hk; [done|]. simpl in *.
  apply NoDup_cons in Hwf as [Hni Hwf].
  assert (Hid : user_id s = k) by (specialize (Hk k s); rewrite decide_True in Hk by done; auto).
  rewrite IH; [|done|].
  - case_decide as Hu.
    + subst u. assert (dget k tn = None) as -> by (by apply dget_none). by rewrite Hid, lookup_insert_eq.
    + destruct (dget u tn); [done|]. rewrite Hid, lookup_insert_ne; [done|congruence].
  - intros k' s' Hs'. apply Hk. rewrite decide_False; [done|]. intros ->.
    apply Hni. change (map fst tn) with (dkeys tn). apply in_map_b. exists (k, s').
    split; [done|]. by apply dget_in.
Qed.

(** The table and the waiting users after [update_rest] returned. *)
Lemma persist_and_notify_table l h h' :
  _persist_and_notify l h = (Ok tt, h') ->
  presence_table h' = fold_left (fun t s => <[user_id s := s]> t) l (presence_table h) /\
  unpersisted_users_changes h' = unpersisted_users_changes h.
Proof.
  unfold _persist_and_notify, update_presence. unfold st_bind at 1. cbn [st_modify].
  destruct (get_interested_parties l) as [rooms users].
  intros (? & h1 & E1 & E2)%st_bind_ok. unfold st_lift in E1. injection E1 as _ <-.
  apply st_bind_ok in E2 as (? & h2 & E2 & E3). injection E2 as _ <-.
  unfold maybe_send_presence_to_interested_destinations in E3.
  apply st_bind_ok in E3 as (sender & h3 & E3 & E4). injection E3 as <- <-.
  set (h2 := add_notified _ _ _) in *.
  assert (Hx : presence_table h' = presence_table h2 /\
    unpersisted_users_changes h' = unpersisted_users_changes h2); [|by destruct Hx as [-> ->]].
  destruct (_federation _); [|by injection E4 as <-].
  destruct (List.filter _ l) as [|s9 l9]; [by injection E4 as <-|].
  apply st_bind_ok in E4 as (hs & h4 & E4 & E5). unfold st_lift in E4. injection E4 as _ <-.
  clearbody h2. revert h2 E5. induction hs as [|hd0 hs IH]; intros h2 E5.
  - by injection E5 as <-.
  - simpl in E5. apply st_bind_ok in E5 as (? & h5 & E5 & E6). apply IH in E6 as [-> ->].
    injection E5 as _ <-. done.
Qed.

Lemma update_one_wf now force acc s h acc' h' :
  update_one now force acc s h = (Ok acc', h') -> dict_wf acc.1 -> dict_wf acc'.1.
Proof.
  unfold update_one. intros (known & h1 & E1 & E2)%st_bind_ok Hwf. injection E1 as <- <-.
  apply st_bind_ok in E2 as ([[ns n] p] & h2 & E2 & E3).
  apply st_bind_ok in E3 as (? & h3 & E3 & E4). injection E4 as <- <-.
  destruct (_ || _); simpl; [by apply dset_wf|]. by destruct p.
Qed.

Lemma update_core_wf now l force h tn tp us h' :
  update_core now l force h = (Ok (tn, tp, us), h') -> dict_wf tn.
Proof.
  unfold update_core. intros (acc & h1 & E1 & E2)%st_bind_ok. destruct acc as [a b].
  injection E2 as <- <- <- <-.
  cut (forall l acc h acc' h', st_fold (update_one now force) acc l h = (Ok acc', h') ->
    dict_wf acc.1 -> dict_wf acc'.1).
  { intros Hf. by apply (Hf _ _ _ _ _ E1), dict_wf_nil. }
  clear. intros l. induction l as [|s l IH]; intros acc h acc' h' E Hwf; [by injection E as <- <-|].
  simpl in E. apply st_bind_ok in E as (acc1 & h1 & E1 & E2). eapply IH; [exact E2|].
  by eapply update_one_wf.
Qed.

Lemma update_rest_table now tn tp us h h' :
  update_rest now (tn, tp, us) h = (Ok tt, h') ->
  presence_table h' = fold_left (fun t s => <[user_id s := s]> t) (dvals tn) (presence_table h) /\
  unpersisted_users_changes h' =
    (unpersisted_users_changes h ∪ list_to_set us) ∖ list_to_set (dkeys tn).
Proof.
  unfold update_rest. intros ([] & h1 & E1 & E2)%st_bind_ok.
  assert (H1 : presence_table h1 = fold_left (fun t s => <[user_id s := s]> t) (dvals tn) (presence_table h) /\
    unpersisted_users_changes h1 = unpersisted_users_changes h).
  { destruct tn as [|x tn]; [by injection E1 as <-|]. by apply persist_and_notify_table. }
  apply st_bind_ok in E2 as (? & h2 & E2 & E3). injection E2 as _ <-.
  destruct H1 as [H1 H2]. set (h2 := set_unpersisted _ h1) in *.
  assert (Hx : presence_table h' = presence_table h2 /\
    unpersisted_users_changes h' = unpersisted_users_changes h2).
  2: { destruct Hx as [-> ->]. simpl. by rewrite H2. }
  destruct (List.filter _ tp) as [|y l]; [by injection E3 as <-|].
  apply st_bind_ok in E3 as (hs & h3 & E3 & E4). unfold st_lift in E3. injection E3 as _ <-.
  clearbody h2. clear H1 H2. revert h2 E4. induction hs as [|hd0 hs IH]; intros h2 E4.
  - by injection E4 as <-.
  - simpl in E4. apply st_bind_ok in E4 as (? & h5 & E5 & E6). apply IH in E6 as [-> ->].
    unfold on_queue, st_zoom in E5. destruct (send_presence_to_destinations _ _ _ _). by injection E5 as _ <-.
Qed.

Lemma update_states_saved now now2 l force :
  _presence_enabled = true -> preserves_ok saved_inv (_update_states now now2 l force).
Proof.
  intros He h [] h' [I1 I2 I3]. unfold _update_states. rewrite He. simpl.
  intros (plan & h1 & E1 & E2)%st_bind_ok.
  destruct (update_core_run now l force h I1) as (tn & tp & us & h1' & E & Hu & Hp & Hus & Htn).
  rewrite E in E1. injection E1 as <- <-.
  pose proof (update_core_wf _ _ _ _ _ _ _ _ E) as Hwf.
  destruct (update_rest_table now2 tn tp us h1' h' E2) as [Etab Eun].
  pose proof (update_rest_aside now2 (tn, tp, us) h1') as (Ew & Em & _). rewrite E2 in Ew, Em. simpl in Ew, Em.
  destruct Hu as (G & R & U).
  assert (Hids : forall u s, user_to_current_state h1' !! u = Some s -> user_id s = u).
  { intros u s Hs. destruct (U u) as [N Y]. destruct (decide (u ∈ map user_id l)) as [Hul|Hul].
    - destruct (Y Hul) as (s0 & s' & _ & Hid & E' & (Hid' & _) & _). congruence.
    - rewrite N in Hs by done. eauto. }
  assert (Ht1 : presence_table h1' = presence_table h) by (rewrite R; done).
  assert (Hn1 : unpersisted_users_changes h1' = unpersisted_users_changes h) by (rewrite R; done).
  split.
  - rewrite Ew. apply G.
  - rewrite Em. done.
  - intros u s. rewrite Em, Etab, Eun, Ht1, Hn1. intros Hs.
    rewrite stored_rows; [|done|intros k s0 Hk; apply Hids, Hp; by left].
    destruct (dget u tn) as [s0|] eqn:Ed.
    + right. simpl. assert (Hs0 : user_to_current_state h1' !! u = Some s0) by (apply Hp; by left). congruence.
    + assert (Hni : u ∉ map fst tn) by (by apply dget_none).
      destruct (decide (u ∈ map user_id l)) as [Hul|Hul].
      * left. apply Hus in Hul. unfold dkeys. set_solver.
      * destruct (U u) as [N _]. rewrite N in Hs by done.
        destruct (I3 u s Hs) as [Hin|Hin]; [left|by right]. unfold dkeys. set_solver.
Qed.

(** ** The other parts *)

Lemma saved_wheel_fetch now :
  preserves_ok saved_inv (on_wheel (fun w => let (l, w) := fetch w now in (Ok l, w))).
Proof.
  intros h a h' [I1 I2 I3]. unfold on_wheel, st_zoom. destruct (fetch _ now) as [l w] eqn:E.
  intros [= _ <-]. split; [|done|done]. by apply (fetch_spec _ _ _ _ I1) in E as (_ & ? & _).
Qed.

Lemma saved_current_states us : preserves_ok saved_inv (current_state_for_users us).
Proof.
  unfold current_state_for_users. intros h a h' Hi (known & h1 & E1 & E2)%st_bind_ok.
  injection E1 as <- <-. set (missing := List.filter _ us) in *.
  assert (Hmiss : forall u, u ∈ missing -> user_to_current_state h !! u = None).
  { intros u [_ Hu]%in_filter_b. by boolify. }
  destruct missing as [|m0 ml] eqn:Em; [by injection E2 as _ <-|]. rewrite <- Em in *. clear Em.
  apply st_bind_ok in E2 as (res & h2 & E2 & E3). injection E2 as <- <-.
  assert (Hres : forall u, u ∈ missing -> dget u (get_presence_for_users missing h) = None ->
    presence_table h !! u = None).
  { intros u Hu Hd. apply dget_none in Hd. destruct (presence_table h !! u) as [s|] eqn:Es; [|done].
    destruct Hd. apply in_map_b. exists (u, s). split; [done|]. unfold get_presence_for_users.
    rewrite set_iter_perm. apply list_elem_of_omap. exists u. rewrite elem_of_remove_dups, Es. done. }
  set (res := get_presence_for_users missing h) in *. clearbody res. set (acc := dupdate _ res) in *. clearbody acc.
  assert (Hgo : forall l, (forall u, u ∈ l -> u ∈ missing) -> forall h0 acc a h',
    presence_table h0 = presence_table h -> saved_inv h0 ->
    st_fold (fun states u => match dget u res with
      | Some _ => st_ret states
      | None => st_modify (set_current_state (<[u := default_presence u]>)) ;;!
          st_ret (dset u (default_presence u) states) end) acc l h0 = (Ok a, h') -> saved_inv h').
  2: { by eapply (Hgo missing (fun u Hu => Hu) h acc a h' eq_refl Hi). }
  clear E3 acc a h'. induction l as [|u l IH]; intros Hl h0 acc a h' Ht Hi0 E; [by injection E as _ <-|].
  simpl in E. apply st_bind_ok in E as (acc1 & h1 & E1 & E2).
  assert (Hl' : forall u, u ∈ l -> u ∈ missing) by (intros; apply Hl; by right).
  destruct (dget u res) eqn:Ed; [injection E1 as _ <-; by eapply (IH Hl' h0)|].
  unfold st_bind, st_modify in E1. injection E1 as _ <-. eapply (IH Hl'); [|idtac|exact E2].
  - done.
  - destruct Hi0 as [I1 I2 I3]. split; simpl; [done|..].
    + intros u' s'. destruct (decide (u' = u)) as [->|]; [rewrite lookup_insert_eq; by intros [= <-]|].
      rewrite lookup_insert_ne by done. apply I2.
    + intros u' s'. simpl. destruct (decide (u' = u)) as [->|]; [|rewrite lookup_insert_ne by done; apply I3].
      rewrite lookup_insert_eq. intros [= <-]. right. rewrite Ht, Hres; [done|apply Hl; by left|done].
Qed.

Lemma saved_expire acc p : preserves_ok saved_inv (expire_process acc p).
Proof. unfold expire_process. okeeps_auto. Qed.

#[local] Hint Resolve saved_wheel_fetch saved_current_states saved_expire : okeeps.

(** ** The calls, one after another *)

Inductive call :=
  | CallSetState (u : string) (d : device_id) (st : list (string * option string))
      (force_notify is_sync : bool)
  | CallBump (u : string) (d : device_id)
  | CallSync (u : string) (d : device_id) (affect_presence : bool) (presence_state : string)
  | CallEnd (u : string) (d : device_id)
  | CallExternalRow (p u : string) (d : device_id) (is_syncing : bool) (sync_time : Z)
  | CallExternalClear (p : string)
  | CallIncoming (origin : string) (pushes : list push)
  | CallFullPresence (us : list string)
  | CallModule (users : module_presence)
  | CallGetStates (us : list string)
  | CallTimeouts
  | CallPersist.

(** The three times are those of the clock during the call.  Of [_end] it is the part whose
    errors are swallowed. *)
Definition run_call (c : call) (now now2 now3 : Z) : St PresenceHandler unit :=
  match c with
  | CallSetState u d st f i => set_state u d st f i now now2 now3
  | CallBump u d => bump_presence_active_time u d now now2 now3
  | CallSync u d a st => user_syncing u d a st now now2 now3
  | CallEnd u d =>
      count_down u d ;;!
      let! prev_state := current_state_for_user u in
      end_of_user prev_state now now2 now3
  | CallExternalRow p u d i t => update_external_syncs_row p u d i t now now2 now3
  | CallExternalClear p => update_external_syncs_clear p now now2 now3
  | CallIncoming o l => incoming_presence o l now now2 now3
  | CallFullPresence us => send_full_presence_to_users us (st_ret tt) now now2 now3
  | CallModule users => set_presence_for_users users now now2
  | CallGetStates us => get_states us ;;! st_ret tt
  | CallTimeouts => _handle_timeouts now now2 now3
  | CallPersist => _persist_unpersisted_changes
  end.

Context (Henabled : _presence_enabled = true).

#[local] Hint Extern 2 (preserves_ok saved_inv (_update_states _ _ _ _)) =>
  apply update_states_saved, Henabled : okeeps.

Lemma saved_current_state u : preserves_ok saved_inv (current_state_for_user u).
Proof. unfold current_state_for_user. okeeps_auto. Qed.
#[local] Hint Resolve saved_current_state : okeeps.

Lemma saved_get_states us : preserves_ok saved_inv (get_states us).
Proof. unfold get_states. okeeps_auto. Qed.
#[local] Hint Resolve saved_get_states : okeeps.

Lemma saved_touch u d f : preserves_ok saved_inv (touch_device u d f).
Proof. apply saved_devices. Qed.
#[local] Hint Resolve saved_touch : okeeps.

Lemma saved_set_state_of u d p m f i prev now now2 now3 :
  preserves_ok saved_inv (set_state_of u d p m f i prev now now2 now3).
Proof. unfold set_state_of, combined_state. okeeps_auto. Qed.
#[local] Hint Resolve saved_set_state_of : okeeps.

Lemma saved_set_state u d st f i now now2 now3 :
  preserves_ok saved_inv (set_state u d st f i now now2 now3).
Proof. unfold set_state. okeeps_auto. Qed.
#[local] Hint Resolve saved_set_state : okeeps.

Lemma saved_external_row p u d i t prev now now2 now3 :
  preserves_ok saved_inv (external_sync_row p u d i t prev now now2 now3).
Proof. unfold external_sync_row, set_process. okeeps_auto. Qed.
#[local] Hint Resolve saved_external_row : okeeps.

Lemma saved_incoming_push origin now l p : preserves_ok saved_inv (incoming_push origin now l p).
Proof. unfold incoming_push. okeeps_auto. Qed.
#[local] Hint Resolve saved_incoming_push : okeeps.

(** The rows written for a set of users. *)
Lemma current_states_ok us h l : current_states us h = Ok l ->
  Forall2 (fun u s => user_to_current_state h !! u = Some s) us l.
Proof.
  intros Hl%rmap_ok. eapply Forall2_impl; [exact Hl|]. intros u s. simpl.
  destruct (user_to_current_state h !! u); [by intros [= ->]|done].
Qed.

Lemma rows_of h us l (t : gmap string UserPresenceState) u :
  (forall u s, user_to_current_state h !! u = Some s -> user_id s = u) ->
  Forall2 (fun u s => user_to_current_state h !! u = Some s) us l ->
  fold_left (fun t s => <[user_id s := s]> t) l t !! u =
  if decide (u ∈ us) then user_to_current_state h !! u else t !! u.
Proof.
  intros Hid Hl. revert t. induction Hl as [|u0 s0 us l Hs Hl IH]; intros t; simpl.
  { done. }
  rewrite IH, (Hid _ _ Hs).
  destruct (decide (u ∈ us)) as [Hu|Hu], (decide (u ∈ u0 :: us)) as [Hu'|Hu']; try done.
  - set_solver.
  - assert (u = u0) as -> by set_solver. by rewrite lookup_insert_eq, Hs.
  - rewrite lookup_insert_ne; [done|set_solver].
Qed.

Lemma unpersisted_rows h l : saved_inv h ->
  current_states (set_iter (elements (unpersisted_users_changes h))) h = Ok l ->
  forall u s, user_to_current_state h !! u = Some s ->
  default (default_presence u) (fold_left (fun t s => <[user_id s := s]> t) l (presence_table h) !! u) = s.
Proof.
  intros [I1 I2 I3] Hl%current_states_ok u s Hs. rewrite (rows_of h _ l _ u I2 Hl).
  destruct (decide _) as [Hu|Hu]; [by rewrite Hs|].
  destruct (I3 u s Hs) as [Hin|?]; [|done].
  destruct Hu. by rewrite set_iter_perm, elem_of_elements.
Qed.

Lemma saved_persist : preserves_ok saved_inv _persist_unpersisted_changes.
Proof.
  unfold _persist_unpersisted_changes. intros h a h' Hi (un & h1 & E1 & E2)%st_bind_ok.
  injection E1 as <- <-. apply st_bind_ok in E2 as (? & h1 & E1 & E2). injection E1 as _ <-.
  case_bool_decide as Hempty.
  - injection E2 as _ <-. destruct Hi as [I1 I2 I3]. split; [done|done|].
    intros u s Hs. destruct (I3 u s Hs) as [Hin|]; [set_solver|by right].
  - apply st_bind_ok in E2 as (r & h2 & E1 & E2). injection E1 as <- <-.
    apply st_bind_ok in E2 as (l & h2 & E1 & E2). unfold st_lift in E1. injection E1 as E1 <-.
    injection E2 as _ <-. pose proof (unpersisted_rows h l Hi E1) as Hrows.
    destruct Hi as [I1 I2 I3]. split; [done|done|]. intros u s Hs. right. by apply Hrows.
Qed.
#[local] Hint Resolve saved_persist : okeeps.

Lemma saved_timeouts now now2 now3 : preserves_ok saved_inv (_handle_timeouts now now2 now3).
Proof. unfold _handle_timeouts. okeeps_auto. Qed.
#[local] Hint Resolve saved_timeouts : okeeps.

Lemma saved_call c now now2 now3 : preserves_ok saved_inv (run_call c now now2 now3).
Proof.
  destruct c; simpl;
    unfold bump_presence_active_time, bump_device, bump_user, combined_state, user_syncing, count_down,
      end_of_user, update_external_syncs_row, update_external_syncs_clear, stop_process,
      incoming_presence, send_full_presence_to_users, get_state, set_presence_for_users; okeeps_auto.
Qed.

(** The calls, each with its times; the next comes whether or not one raised. *)
Definition run_calls (l : list (call * (Z * Z * Z))) (h : PresenceHandler) : PresenceHandler :=
  fold_left (fun h '(c, (n1, n2, n3)) => (run_call c n1 n2 n3 h).2) l h.

(** Nothing was changed that is stored or makes changes. *)
Definition unmoved (h h' : PresenceHandler) : Prop :=
  wheel_timer h' = wheel_timer h /\ user_to_current_state h' = user_to_current_state h /\
  unpersisted_users_changes h' = unpersisted_users_changes h /\ presence_table h' = presence_table h.

(** A call that raises does so before it changes the presence of anybody. *)
Fixpoint raise_early (l : list (call * (Z * Z * Z))) (h : PresenceHandler) : Prop :=
  match l with
  | [] => True
  | (c, (n1, n2, n3)) :: l =>
      (is_ok (run_call c n1 n2 n3 h).1 = false -> unmoved h (run_call c n1 n2 n3 h).2) /\
      raise_early l (run_call c n1 n2 n3 h).2
  end.

Lemma saved_calls l h : raise_early l h -> saved_inv h -> saved_inv (run_calls l h).
Proof.
  revert h. induction l as [|[c [[n1 n2] n3]] l IH]; intros h Hr Hi; simpl in *; [done|].
  destruct Hr as [He Hr]. apply IH; [done|]. pose proof (saved_call c n1 n2 n3 h) as Hok.
  destruct (run_call c n1 n2 n3 h) as [[a|e] h1]; simpl in *; [by eapply Hok|].
  destruct (He eq_refl) as (? & ? & ? & ?). by apply (saved_same h).
Qed.

Lemma saved_wheel_insert now u t : preserves_ok saved_inv (on_wheel (wheel_insert now u t)).
Proof.
  intros h a h' [I1 I2 I3] E. destruct (on_wheel_insert_run now u t h I1) as (w' & E1 & G & _).
  rewrite E1 in E. injection E as _ <-. split; [apply G|done|done].
Qed.
#[local] Hint Resolve saved_wheel_insert : okeeps.

Lemma new_handler_saved now table queue pos : table_ok table -> _track_presence = true ->
  saved_inv (new_handler now table queue pos).2.
Proof.
  intros Ht Htr. unfold new_handler. rewrite Htr.
  match goal with |- context [st_for _ ?l0 ?h0] => set (l := l0); set (h := h0) end.
  assert (Hi : saved_inv h).
  { split; simpl; [apply contiguous_nil|..].
    - intros u s [Hs _]%map_lookup_filter_Some. by destruct (Ht u s Hs).
    - intros u s Hs. right. simpl in *. apply map_lookup_filter_Some in Hs as [-> _]. done. }
  destruct (start_users_run now l h (sv_contiguous h Hi)) as (h' & E & _); [by apply active_users|].
  assert (Hk : preserves_ok saved_inv (st_for (start_user now) l)).
  { unfold start_user. okeeps_auto. }
  rewrite E. by apply (Hk h tt h').
Qed.
End saved.

(** C34: where presence is tracked, calls that run one after another lose nothing, as long as those
    that raise do so before they change anybody's presence (see [raising_call_loses_change]
    for one that does not): after any such calls, and a shutdown that returns, the table
    holds the current state of every user (a user without a row being offline, as by
    default). *)
Theorem shutdown_stores_all `{PresenceEnv, SetOrder} now table queue pos l h2 :
  _presence_enabled = true -> _track_presence = true -> table_ok table ->
  let h := (new_handler now table queue pos).2 in
  raise_early l h -> _on_shutdown true (run_calls l h) = (Ok tt, h2) ->
  forall u s, user_to_current_state h2 !! u = Some s ->
  default (default_presence u) (presence_table h2 !! u) = s.
Proof.
  intros He Htr Ht h0 E1 E2. pose proof (new_handler_saved now table queue pos Ht Htr) as Hi.
  apply (saved_calls He l) in Hi; [|done]. fold h0 in Hi. set (h1 := run_calls l h0) in *. rename Hi into Hi1.
  unfold _on_shutdown in E2. simpl in E2. apply st_bind_ok in E2 as (un & h & E2 & E3).
  injection E2 as <- <-. case_bool_decide as Hempty.
  - injection E3 as <-. intros u s Hs. destruct (sv_saved h1 Hi1 u s Hs); [set_solver|done].
  - apply st_bind_ok in E3 as (r & h & E3 & E4). injection E3 as <- <-.
    apply st_bind_ok in E4 as (rows & h & E4 & E5). unfold st_lift in E4. injection E4 as E4 <-.
    injection E5 as <-. simpl. intros u s Hs. by eapply unpersisted_rows.
Qed.

(** ** Sending full presence *)

(** Sending the full presence to users, which is to copy the state of the first of them to
    the tip of the stream, clears his status message: the state is passed on under the key
    ["status_message"], and [set_state] reads ["status_msg"]. *)
Theorem full_presence_clears_status `{PresenceEnv, SetOrder} T h us u s now now2 now3 :
  _presence_enabled = true -> _track_presence = true -> pres_inv T h ->
  head (set_iter us) = Some u -> user_to_current_state h !! u = Some s ->
  state s ∈ VALID_PRESENCE -> is_mine_id u = true ->
  exists s', user_to_current_state
      (send_full_presence_to_users us (st_ret tt) now now2 now3 h).2 !! u = Some s' /\
    status_msg s' = None.
Proof.
  intros He Ht Hi Hus Hs Hv Hm. unfold send_full_presence_to_users.
  destruct (set_iter us) as [|u' l]; [done|]. simpl in Hus. injection Hus as ->.
  assert (Hid : user_id s = u) by (by apply (pi_users T h Hi)).
  assert (E1 : get_state u h = (Ok s, h)).
  { unfold get_state, get_states, current_state_for_users. unfold st_bind at 1 2 3. cbn [st_read fold_left List.filter].
    rewrite Hs. rewrite bool_decide_eq_false_2 by done. cbn. by rewrite Hid. }
  unfold st_bind at 1. cbn [st_ret]. rewrite (st_bind_run _ _ _ _ _ E1).
  unfold set_state. cbn [dget]. rewrite !decide_True by done.
  rewrite bool_decide_eq_true_2 by done. rewrite Ht. cbn [negb].
  assert (E2 : current_state_for_user u h = (Ok s, h)).
  { unfold current_state_for_user, current_state_for_users. unfold st_bind at 1 2. cbn [st_read fold_left List.filter].
    rewrite Hs. rewrite bool_decide_eq_false_2 by done. cbn. by rewrite decide_True. }
  rewrite (st_bind_run _ _ _ _ _ E2). unfold set_state_of.
  match goal with |- context [touch_device u None ?f] =>
    destruct (touch_device_inv T u None f h) as (h1 & E3 & Hi1 & Hm1 & _) end; [done| |].
  { intros d' _. cbn. apply valid_state_iff. destruct (_ && _); [by left|].
    unfold VALID_PRESENCE in Hv. destruct msc3026_enabled; set_solver. }
  rewrite (st_bind_run _ _ _ _ _ E3).
  destruct (combined_state_run u h1) as [[e E4]|(c & E4 & _)].
  { exfalso. unfold combined_state, st_bind, st_read, st_lift in E4.
    destruct (combine_ok (dvals (default [] (user_to_devices h1 !! u)))) as (c & E5 & _);
      [by apply (devices_valid T)|]. by rewrite E5 in E4. }
  rewrite (st_bind_run _ _ _ _ _ E4). cbv iota.
  match goal with |- context [_update_states now2 now3 [?ns] true h1] =>
    destruct (update_states_run now2 now3 [ns] true h1 (pi_contiguous T h1 Hi1) He) as (h2 & (_ & _ & U) & _ & E5 & _);
    assert (Hns : user_id ns = u /\ status_msg ns = None) by (by destruct (_ || _)); set (n := ns) in * end.
  rewrite E5. destruct (U u) as [_ Y]. destruct Y as (s0 & s' & Hs0 & _ & E6 & (_ & _ & _ & _ & Hst) & _).
  { apply in_map_b. exists n. split; [by destruct Hns|by left]. }
  apply list_elem_of_singleton in Hs0 as ->. exists s'. split; [done|]. rewrite Hst. apply Hns.
Qed.

(** ** Handlers without timers *)

(** A handler whose wheel is empty, and to which no other process reports, looks at nobody. *)
Lemma no_timers_no_change `{PresenceEnv, SetOrder} h now now2 now3 :
  entries (wheel_timer h) = [] -> external_last_updated h = ∅ -> set_iter (@nil string) = [] ->
  (_handle_timeouts now now2 now3 h).2 = h.
Proof.
  intros Hw Hx Hnil. unfold _handle_timeouts, on_wheel, st_zoom. unfold st_bind at 1.
  unfold fetch. rewrite Hw. simpl fetch_loop. cbn iota.
  set (h1 := set_wheel_timer _ h). assert (h1 = h) as ->.
  { subst h1. destruct h as [? [? ?]]. simpl in Hw. by subst. }
  unfold st_bind at 1. cbn [st_read]. unfold expired_process_ids. rewrite Hx, map_to_list_empty. simpl map.
  unfold st_bind at 1. cbn [st_fold st_ret]. unfold st_bind at 1. cbn [st_read].
  simpl remove_dups. rewrite Hnil. simpl map. unfold st_bind at 1. cbn [st_read].
  unfold st_bind at 1, on_devices, st_zoom, handle_timeouts. unfold st_bind at 1. cbn [st_fold st_ret].
  set (h1 := set_user_devices _ h). assert (h1 = h) as -> by (subst h1; by destruct h).
  unfold _update_states. destruct (negb _); [done|]. unfold st_bind at 1, update_core. simpl.
  destruct h; unfold set_unpersisted; simpl. f_equal. set_solver.
Qed.

(** ** Samples *)

#[export] Instance sample_presence : PresenceEnv := {|
  hostname := "h"; _presence_enabled := true; _track_presence := true; msc3026_enabled := true;
  get_rooms_for_user := fun _ => ["!r"]; get_current_hosts_in_room := fun _ => ["h"; "other"];
  get_users_in_room := fun _ => ["@a:h"]; get_event := fun _ => None;
  presence_router := new_router |}.

#[export] Instance presence_order : SetOrder :=
  {| set_iter := fun _ l => l; set_iter_perm := fun _ l => reflexivity l |}.

Definition sample_queue : PresenceFederationQueue := new_queue "main" true true ["main"; "sender"].

Definition sample_row : UserPresenceState :=
  {| user_id := "@a:h"; state := PresenceState.ONLINE; last_active_ts := 1000;
     last_federation_update_ts := 0; last_user_sync_ts := 1000; status_msg := Some "hi";
     currently_active := true |}.

Definition empty_start : PresenceHandler := (new_handler 0 ∅ sample_queue 0).2.
Definition sample_start : PresenceHandler := (new_handler 2000 {["@a:h" := sample_row]} sample_queue 0).2.

Lemma sample_table_ok : table_ok {["@a:h" := sample_row]}.
Proof.
  intros u s [<- <-]%lookup_singleton_Some. split; [done|]. intros _. by exists 3.
Qed.

Lemma empty_table_ok : table_ok ∅.
Proof. intros u s Hs. by rewrite lookup_empty in Hs. Qed.

(** A user who says that he is busy and does not sync is busy for ever, once ten seconds
    have passed: the timers of the busy state count from his last sync, so they go off at
    once, and the look at them finds that he was just active and sets no other. *)
Theorem busy_user_stuck (l : list (Z * Z * Z)) :
  let t := 1000000000000 in
  let h1 := (set_state "@a:h" (Some "D") [("presence", Some PresenceState.BUSY)] false false t t t
               empty_start).2 in
  let h2 := (_handle_timeouts (t + 10000) (t + 10000) (t + 10000) h1).2 in
  let h3 := fold_left (fun h ts => (_handle_timeouts ts.1.1 ts.1.2 ts.2 h).2) l h2 in
  exists s, user_to_current_state h3 !! "@a:h" = Some s /\ state s = PresenceState.BUSY.
Proof.
  intros t h1 h2.
  assert (Hw : bool_decide (map end_key (entries (wheel_timer h2)) = []) = true) by (vm_compute; reflexivity).
  assert (Hx : bool_decide (map_to_list (external_last_updated h2) = []) = true) by (vm_compute; reflexivity).
  assert (Hs : (state <$> (user_to_current_state h2 !! "@a:h")) = Some PresenceState.BUSY) by (vm_compute; reflexivity).
  clearbody h2. clear h1. apply bool_decide_eq_true in Hw, Hx. apply map_to_list_empty_iff in Hx.
  assert (Hw' : entries (wheel_timer h2) = []) by (by destruct (entries (wheel_timer h2))).
  assert (Hl : fold_left (fun h ts => (_handle_timeouts ts.1.1 ts.1.2 ts.2 h).2) l h2 = h2).
  { induction l as [|ts l IH]; [done|]. simpl. by rewrite no_timers_no_change. }
  cbn zeta. rewrite Hl. destruct (user_to_current_state h2 !! "@a:h") as [s|]; [|done].
  exists s. by simplify_eq/=.
Qed.

(** A module puts a user online who has no device; by [user_without_device_stays], no look at
    the timers ends that. *)
Definition module_online : PresenceHandler :=
  (set_presence_for_users [("@a:h", (PresenceState.ONLINE, None))] 1000 1000 empty_start).2.

Example module_user_has_no_device :
  state <$> user_to_current_state module_online !! "@a:h" = Some PresenceState.ONLINE /\
  user_to_devices module_online !! "@a:h" = None.
Proof. by vm_compute. Qed.

(** A report of presence that names something else than a user raises when the users are to be
    told, before the other changes are noted: the later time at which "@b:evil" was active is
    in memory only, and the shutdown does not store it. *)
Definition push_of (u : string) (ago : Z) : push :=
  {| push_user_id := Some u; push_presence := Some PresenceState.ONLINE; push_last_active_ago := Some ago;
     push_status_msg := None; push_currently_active := Some true |}.
Definition told_once : PresenceHandler := (incoming_presence "evil" [push_of "@b:evil" 0] 1000 1000 1000 empty_start).2.
Definition told_twice : result unit * PresenceHandler :=
  incoming_presence "evil" [push_of "x:evil" 0; push_of "@b:evil" 0] 2000 2000 2000 told_once.

Example raising_call_loses_change :
  is_ok told_twice.1 = false /\
  last_active_ts <$> user_to_current_state (_on_shutdown true told_twice.2).2 !! "@b:evil" = Some 2000 /\
  last_active_ts <$> presence_table (_on_shutdown true told_twice.2).2 !! "@b:evil" = Some 1000.
Proof. by vm_compute. Qed.

(** The second call raises. *)
Definition sample_calls : list (call * (Z * Z * Z)) :=
  [(CallSync "@a:h" (Some "D") true PresenceState.ONLINE, (3000, 3001, 3002));
   (CallSetState "@a:h" (Some "D") [("presence", Some "away")] false false, (4000, 4001, 4002));
   (CallEnd "@a:h" (Some "D"), (9000, 9001, 9002));
   (CallTimeouts, (400000, 400000, 400000))].
Definition sample_run : PresenceHandler := run_calls sample_calls sample_start.

Lemma sample_calls_early : raise_early sample_calls sample_start.
Proof.
  cbn [raise_early sample_calls]. repeat apply conj; try exact I; intros He; try (vm_compute in He; discriminate He);
    split_and!; vm_compute; reflexivity.
Qed.

Lemma shutdown_stores_all_witness :
  exists s, user_to_current_state (_on_shutdown true sample_run).2 !! "@a:h" = Some s /\
  default (default_presence "@a:h") (presence_table (_on_shutdown true sample_run).2 !! "@a:h") = s.
Proof.
  eexists. split; [vm_compute; reflexivity|].
  refine (@shutdown_stores_all sample_presence presence_order 2000 {["@a:h" := sample_row]} sample_queue 0
    sample_calls (_on_shutdown true sample_run).2 eq_refl eq_refl sample_table_ok _ _ _ _ _).
  - exact sample_calls_early.
  - apply (st_result (_on_shutdown true)). vm_compute. reflexivity.
  - vm_compute. reflexivity.
Defined.

Lemma full_presence_clears_status_witness :
  exists s', user_to_current_state
    (send_full_presence_to_users ["@a:h"] (st_ret tt) 3000 3000 3000 sample_start).2 !! "@a:h" = Some s' /\
    status_msg s' = None.
Proof.
  apply (@full_presence_clears_status sample_presence presence_order ∅ sample_start ["@a:h"] "@a:h" sample_row 3000 3000 3000 eq_refl eq_refl).
  - apply new_handler_inv; [reflexivity|apply sample_table_ok].
  - reflexivity.
  - vm_compute. reflexivity.
  - apply (bool_decide_unpack _). vm_compute. exact I.
  - reflexivity.
Defined.

Lemma sample_start_reachable : reachable ∅ sample_start.
Proof. apply reach_start, sample_table_ok. Qed.

Lemma presence_invariant_witness :
  (exists ds, user_to_devices sample_start !! "@a:h" = Some ds /\ ds <> []) /\
  exists k, timer_at (wheel_timer sample_start) "@a:h" k /\ int_truediv (1000 + IDLE_TIMER) 5000 < k.
Proof.
  destruct (@presence_invariant sample_presence presence_order ∅ sample_start "@a:h" sample_row
    eq_refl eq_refl sample_start_reachable) as [H1 H2];
    [vm_compute; reflexivity|vm_compute; reflexivity|].
  split; [apply H1; [apply not_elem_of_empty|discriminate]|apply H2; reflexivity].
Defined.

Lemma idle_user_goes_offline_witness : exists T, forall now, T <= now ->
  user_to_devices (_handle_timeouts now now now sample_start).2 !! "@a:h" = Some [].
Proof.
  destruct (@idle_user_goes_offline sample_presence presence_order ∅ sample_start "@a:h" sample_row
    eq_refl eq_refl sample_start_reachable (not_elem_of_empty _)) as [T HT];
    [vm_compute; reflexivity|vm_compute; reflexivity|reflexivity| |].
  - intros d. apply (bool_decide_unpack _). destruct d; vm_compute; exact I.
  - exists T. intros now Hn. by destruct (HT now now now Hn) as [_ ?].
Defined.

(** One of his devices begins to sync. *)
Definition syncing_start : PresenceHandler :=
  (st_modify (set_num_syncs (fun m => <[("@a:h", None) := default 0 (m !! ("@a:h", None)) + 1]> m))
     sample_start).2.

Lemma syncing_start_reachable : reachable (∅ ∪ ∅) syncing_start.
Proof. eapply reach_step; [apply sample_start_reachable|]. eexists. split; [apply str_sync|done]. Qed.

Lemma syncing_user_stays_witness :
  exists s', user_to_current_state (_handle_timeouts 900000 900000 900000 syncing_start).2 !! "@a:h" = Some s' /\
    state s' <> PresenceState.OFFLINE.
Proof.
  destruct (@syncing_user_stays sample_presence presence_order (∅ ∪ ∅) syncing_start "@a:h" sample_row
    (default [] (user_to_devices syncing_start !! "@a:h")) None
    (default (default_device "@a:h" None) (dget None (default [] (user_to_devices syncing_start !! "@a:h"))))
    900000 900000 900000 eq_refl eq_refl syncing_start_reachable) as [H1 _];
    [vm_compute; reflexivity|vm_compute; reflexivity|discriminate|vm_compute; reflexivity
    | apply dget_in; vm_compute; reflexivity | vm_compute; discriminate
    | left; exists 1; split; [vm_compute; reflexivity|discriminate] | exact H1].
Defined.
