(* ===== verification/PresenceWorker.v ===== *)
(** * PresenceWorker: presence on the other workers (handlers/presence.py,
    replication/tcp/handler.py)

    A worker that does not write presence counts the syncs it serves and tells the writer, by
    [USER_SYNC] commands, which devices start and stop to sync; it follows the presence stream
    in memory, and asks the writer to change states.  [base] holds the attributes of the base
    class, those that only the writer has staying empty; [commands] is what was sent, and
    [requests] what the writer was asked. *)
From S2P Require Import Prelude PyVal PySort PyState ReplicationCommands Identifiers.
From S2P Require Import WheelTimer PresenceState PresenceQueue PresenceHandler PresenceSafety.
From S2P Require Import PresenceInvariant PresenceProps PresenceSaved.
From Stdlib Require Import String.
Open Scope string_scope.
Open Scope list_scope.
Open Scope Z_scope.
Open Scope py_scope.
Open Scope st_scope.

Inductive request :=
  | SetStateRequest (user_id : string) (d : device_id) (st : list (string * option string))
      (force_notify is_sync : bool)
  | BumpRequest (user_id : string) (d : device_id).

Record WorkerPresenceHandler := {
  base : PresenceHandler;
  instance_id : string;
  worker_syncs : list (user_device * Z);
  going_offline : list (user_device * Z);
  commands : list command;
  requests : list request
}.

Definition set_base (b : PresenceHandler) (w : WorkerPresenceHandler) : WorkerPresenceHandler :=
  {| base := b; instance_id := instance_id w; worker_syncs := worker_syncs w;
     going_offline := going_offline w; commands := commands w; requests := requests w |}.
Definition set_worker_syncs (l : list (user_device * Z)) (w : WorkerPresenceHandler)
    : WorkerPresenceHandler :=
  {| base := base w; instance_id := instance_id w; worker_syncs := l;
     going_offline := going_offline w; commands := commands w; requests := requests w |}.
Definition set_going_offline (l : list (user_device * Z)) (w : WorkerPresenceHandler)
    : WorkerPresenceHandler :=
  {| base := base w; instance_id := instance_id w; worker_syncs := worker_syncs w;
     going_offline := l; commands := commands w; requests := requests w |}.
Definition send_command (c : command) (w : WorkerPresenceHandler) : WorkerPresenceHandler :=
  {| base := base w; instance_id := instance_id w; worker_syncs := worker_syncs w;
     going_offline := going_offline w; commands := commands w ++ [c]; requests := requests w |}.
Definition send_request (r : request) (w : WorkerPresenceHandler) : WorkerPresenceHandler :=
  {| base := base w; instance_id := instance_id w; worker_syncs := worker_syncs w;
     going_offline := going_offline w; commands := commands w; requests := requests w ++ [r] |}.

Definition on_base {A} : St PresenceHandler A -> St WorkerPresenceHandler A := st_zoom base set_base.

Section worker.
Context `{PresenceEnv, SetOrder}.

Definition new_worker (instance_id : string) (active_presence : list UserPresenceState)
    (table : gmap string UserPresenceState) (queue : PresenceFederationQueue) : WorkerPresenceHandler :=
  {| base := {| user_to_current_state :=
                  fold_left (fun m s => <[user_id s := s]> m) active_presence ∅;
                wheel_timer := new_wheel 5000; user_to_devices := ∅;
                unpersisted_users_changes := ∅; num_current_syncs := ∅; external_syncs := ∅;
                external_last_updated := ∅; federation_queue := queue; presence_table := table;
                notified := []; event_pos := 0 |};
     instance_id := instance_id; worker_syncs := []; going_offline := []; commands := [];
     requests := [] |}.

(** ** Telling the writer who syncs *)

Definition worker_on_shutdown (w : WorkerPresenceHandler) : WorkerPresenceHandler :=
  if _track_presence then send_command (ClearUserSyncsCommand (instance_id w)) w else w.

Definition send_user_sync (ud : user_device) (is_syncing : bool) (last_sync_ms : Z)
    (w : WorkerPresenceHandler) : WorkerPresenceHandler :=
  if _track_presence
  then send_command (UserSyncCommand (instance_id w) ud.1 ud.2 is_syncing last_sync_ms) w else w.

(** A time of zero counts as none. *)
Definition mark_as_coming_online (ud : user_device) (now : Z) (w : WorkerPresenceHandler)
    : WorkerPresenceHandler :=
  let popped := default 0 (dget ud (going_offline w)) in
  let w := set_going_offline (ddel ud (going_offline w)) w in
  if popped =? 0 then send_user_sync ud true now w else w.

Definition mark_as_going_offline (ud : user_device) (now : Z) (w : WorkerPresenceHandler)
    : WorkerPresenceHandler :=
  set_going_offline (dset ud now (going_offline w)) w.

(** The loop goes over a copy of the dictionary. *)
Definition send_stop_syncing (now : Z) (w : WorkerPresenceHandler) : WorkerPresenceHandler :=
  fold_left (fun w uds =>
      if UPDATE_SYNCING_USERS <? now - uds.2
      then send_user_sync uds.1 false uds.2 (set_going_offline (ddel uds.1 (going_offline w)) w)
      else w)
    (going_offline w) w.

(** [set_state]: the writer is asked, and its [answer] awaited. *)
Definition worker_set_state (user_id : string) (d : device_id) (st : list (string * option string))
    (force_notify is_sync : bool) (answer : result unit) : St WorkerPresenceHandler unit :=
  match dget "presence" st with
  | None => st_raise KeyError
  | Some presence =>
      if negb (match presence with Some p => bool_decide (p ∈ VALID_PRESENCE) | None => false end)
      then st_raise (SynapseError 400 "Invalid presence state" "M_UNKNOWN")
      else if negb _track_presence then st_ret tt
      else
        st_modify (send_request (SetStateRequest user_id d st force_notify is_sync)) ;;!
        st_lift answer
  end.

Definition worker_bump_presence_active_time (user_id : string) (d : device_id) (answer : result unit)
    : St WorkerPresenceHandler unit :=
  if negb _track_presence then st_ret tt
  else st_modify (send_request (BumpRequest user_id d)) ;;! st_lift answer.

(** [user_syncing] once the state is set; what the context manager runs when it is left. *)
Definition sync_begins (ud : user_device) (now : Z) (w : WorkerPresenceHandler)
    : WorkerPresenceHandler :=
  let curr_sync := default 0 (dget ud (worker_syncs w)) in
  let w := set_worker_syncs (dset ud (curr_sync + 1) (worker_syncs w)) w in
  if curr_sync + 1 =? 1 then mark_as_coming_online ud now w else w.

Definition sync_ends (ud : user_device) (now : Z) (w : WorkerPresenceHandler)
    : WorkerPresenceHandler :=
  match dget ud (worker_syncs w) with
  | Some n =>
      let w := set_worker_syncs (dset ud (n - 1) (worker_syncs w)) w in
      if n - 1 =? 0 then mark_as_going_offline ud now w else w
  | None => w
  end.

Definition worker_user_syncing (user_id : string) (d : device_id) (affect_presence : bool)
    (presence_state : string) (answer : result unit) (now : Z) : St WorkerPresenceHandler unit :=
  if negb affect_presence || negb _track_presence then st_ret tt
  else
    worker_set_state user_id d [("presence", Some presence_state)] false true answer ;;!
    st_modify (sync_begins (user_id, d) now).

Definition worker_currently_syncing_users (w : WorkerPresenceHandler) : list user_device :=
  map fst (List.filter (fun c => 0 <? c.2) (worker_syncs w)).

(** ** The streams *)

Definition PRESENCE_STREAM := "presence".
Definition PRESENCE_FEDERATION_STREAM := "presence_federation".

(** [PresenceFederationQueue.process_replication_rows]: the users to send to each host. *)
Definition hosts_to_users (rows : list (string * string)) : list (string * list string) :=
  fold_left (fun d row => dset row.1 (remove_dups (default [] (dget row.1 d) ++ [row.2])) d) rows [].

Definition queue_replication_rows (stream_name instance_name : string) (token : Z)
    (rows : list (string * string)) : St PresenceHandler unit :=
  if negb (bool_decide (stream_name = PRESENCE_FEDERATION_STREAM)) then st_ret tt
  else
    on_queue (st_modify (set_current_token instance_name token)) ;;!
    let! sender := st_read (fun h => _federation (federation_queue h)) in
    match sender with
    | None => st_ret tt
    | Some _ =>
        st_for (fun hu =>
            let! states := current_state_for_users (set_iter hu.2) in
            on_queue (st_modify (federation_send (dvals states) [hu.1])))
          (hosts_to_users rows)
    end.

Definition notify_from_replication (states : list UserPresenceState) : St PresenceHandler unit :=
  let (room_ids_to_states, users_to_states) := get_interested_parties states in
  st_modify (add_notified (dkeys room_ids_to_states) (dkeys users_to_states)).

(** One row of the presence stream: whether the change is to be told. *)
Definition follow_row (state_to_notify : list UserPresenceState) (new_state : UserPresenceState)
    : St PresenceHandler (list UserPresenceState) :=
  let! known := st_read user_to_current_state in
  st_modify (set_current_state (<[user_id new_state := new_state]>)) ;;!
  st_ret (match known !! user_id new_state with
          | Some old_state => if should_notify old_state new_state
                              then state_to_notify ++ [new_state] else state_to_notify
          | None => state_to_notify ++ [new_state]
          end).

(** [process_replication_rows]: the rows are those of the stream named. *)
Definition process_presence_rows (stream_name : string) (rows : list UserPresenceState)
    : St PresenceHandler unit :=
  if negb (bool_decide (stream_name = PRESENCE_STREAM)) then st_ret tt
  else
    let! state_to_notify := st_fold follow_row [] rows in
    notify_from_replication state_to_notify ;;!
    maybe_send_presence_to_interested_destinations state_to_notify.

(** ** The writer's side *)

(** [on_USER_SYNC] and [on_CLEAR_USER_SYNC]; the other commands are not about presence. *)
Definition on_USER_SYNC (c : command) (now now2 now3 : Z) : St PresenceHandler unit :=
  match c with
  | UserSyncCommand i u d is_syncing last_sync_ms =>
      update_external_syncs_row i u d is_syncing last_sync_ms now now2 now3
  | ClearUserSyncsCommand i => update_external_syncs_clear i now now2 now3
  | _ => st_ret tt
  end.
End worker.

(** * The writer knows who syncs at a worker

    What a worker counts and what the writer keeps are two views of one thing: once the
    writer has handled the commands a worker sent, the devices it has for the worker are those
    with a sync in flight there and those whose end the worker still holds back. *)

Section worker.
Context `{PresenceEnv, SetOrder}.

(** ** A worker and the syncs in flight *)

(** The states of a worker, with the devices of the context managers that are open. *)
Inductive worker_at (i : string) : WorkerPresenceHandler -> list user_device -> Prop :=
  | worker_start active table queue : worker_at i (new_worker i active table queue) []
  | worker_begins w open ud now :
      worker_at i w open -> worker_at i (sync_begins ud now w) (ud :: open)
  | worker_ends w open1 open2 ud now :
      worker_at i w (open1 ++ ud :: open2) -> worker_at i (sync_ends ud now w) (open1 ++ open2)
  | worker_ticks w open now : worker_at i w open -> worker_at i (send_stop_syncing now w) open.

(** The set a writer keeps for a worker, after a command. *)
Definition told (s : gset user_device) (c : command) : gset user_device :=
  match c with
  | UserSyncCommand _ u d true _ => {[(u, d)]} ∪ s
  | UserSyncCommand _ u d false _ => s ∖ {[(u, d)]}
  | ClearUserSyncsCommand _ => ∅
  | _ => s
  end.

Definition all_told (w : WorkerPresenceHandler) : gset user_device := fold_left told (commands w) ∅.

Definition of_worker (i : string) (c : command) : Prop :=
  match c with UserSyncCommand i' _ _ _ _ => i' = i | _ => False end.

(** How often a device is in a list. *)
Definition times (ud : user_device) (l : list user_device) : nat :=
  List.length (List.filter (fun x => bool_decide (x = ud)) l).

Lemma times_cons ud x l : times ud (x :: l) = ((if decide (x = ud) then 1 else 0) + times ud l)%nat.
Proof. unfold times. simpl. case_decide; [rewrite bool_decide_true by done|rewrite bool_decide_false by done]; done. Qed.

Lemma times_app ud a b : times ud (a ++ b) = (times ud a + times ud b)%nat.
Proof. unfold times. by rewrite List.filter_app, length_app. Qed.

Lemma times_in ud l : ud ∈ l <-> (times ud l <> 0)%nat.
Proof.
  induction l as [|x l IH]; [set_solver|]. rewrite elem_of_cons, times_cons, IH. case_decide; naive_solver lia.
Qed.

Record worker_ok (i : string) (w : WorkerPresenceHandler) (open : list user_device) : Prop := {
  wo_id : instance_id w = i;
  wo_syncs : forall ud, default 0 (dget ud (worker_syncs w)) = Z.of_nat (times ud open);
  wo_wf : dict_wf (going_offline w);
  wo_offline : forall ud, ud ∈ dkeys (going_offline w) -> ud ∉ open;
  wo_told : forall ud, ud ∈ all_told w <-> ud ∈ open \/ ud ∈ dkeys (going_offline w);
  wo_commands : Forall (of_worker i) (commands w)
}.

Lemma all_told_send c w : all_told (send_command c w) = told (all_told w) c.
Proof. unfold all_told. simpl. by rewrite fold_left_app. Qed.

Lemma dkeys_ddel ud x (d : list (user_device * Z)) : x ∈ dkeys (ddel ud d) <-> x <> ud /\ x ∈ dkeys d.
Proof.
  unfold dkeys. rewrite <- !dmem_true. unfold dmem. rewrite dget_ddel. case_decide; [naive_solver|].
  destruct (dget x d); naive_solver.
Qed.

Lemma dkeys_dset ud x v (d : list (user_device * Z)) : x ∈ dkeys (dset ud v d) <-> x = ud \/ x ∈ dkeys d.
Proof.
  unfold dkeys. rewrite <- !dmem_true. unfold dmem. rewrite dget_dset. case_decide; [naive_solver|].
  destruct (dget x d); naive_solver.
Qed.

Lemma pop_told i w open ud z now :
  _track_presence = true -> worker_ok i w open -> (ud, z) ∈ going_offline w ->
  worker_ok i (send_user_sync ud false now (set_going_offline (ddel ud (going_offline w)) w)) open.
Proof.
  intros Ht [I1 I2 I3 I4 I5 I6] Hin. unfold send_user_sync. rewrite Ht.
  assert (Hud : ud ∈ dkeys (going_offline w)) by (unfold dkeys; apply in_map_b; by exists (ud, z)).
  split; simpl.
  - done.
  - done.
  - by apply ddel_wf.
  - intros x [_ Hx]%dkeys_ddel. by apply I4.
  - intros x. rewrite all_told_send. simpl.
    change (all_told (set_going_offline _ w)) with (all_told w). rewrite dkeys_ddel.
    rewrite elem_of_difference, not_elem_of_singleton, I5. specialize (I4 x). destruct ud; naive_solver.
  - apply Forall_app. by split; [|repeat constructor].
Qed.

Lemma stop_ok i open now l w : _track_presence = true -> worker_ok i w open -> NoDup (map fst l) ->
  (forall x, x ∈ l -> x ∈ going_offline w) ->
  worker_ok i (fold_left (fun w uds =>
      if UPDATE_SYNCING_USERS <? now - uds.2
      then send_user_sync uds.1 false uds.2 (set_going_offline (ddel uds.1 (going_offline w)) w)
      else w) l w) open.
Proof.
  intros Ht. revert w. induction l as [|[ud z] l IH]; intros w Hw Hnd Hl; [done|]. simpl in *.
  apply NoDup_cons in Hnd as [Hni Hnd]. apply IH; [|done|].
  - destruct (_ <? _); [|done]. eapply pop_told; [done..|]. apply Hl. by left.
  - intros [ud' z'] Hx. assert (Hin : (ud', z') ∈ going_offline w) by (apply Hl; by right).
    destruct (_ <? _); [|done]. unfold send_user_sync. rewrite Ht. simpl.
    apply dget_some_iff; [apply ddel_wf, Hw|]. rewrite dget_ddel. case_decide as Hd.
    + subst. destruct Hni. apply in_map_b. by exists (ud, z').
    + apply dget_some_iff; [apply Hw|done].
Qed.

Lemma worker_at_ok i w open : _track_presence = true -> worker_at i w open -> worker_ok i w open.
Proof.
  intros Ht. induction 1 as [active table queue|w open ud now _ IH|w open1 open2 ud now _ IH|w open now _ IH].
  - split; simpl; [done|done|apply dict_wf_nil|set_solver|set_solver|constructor].
  - destruct IH as [I1 I2 I3 I4 I5 I6]. unfold sync_begins. rewrite I2.
    set (w1 := set_worker_syncs _ w).
    assert (Hsyncs : forall x, default 0 (dget x (worker_syncs w1)) = Z.of_nat (times x (ud :: open))).
    { intros x. simpl. rewrite dget_dset, times_cons. destruct (decide (x = ud)) as [->|Hne].
      - rewrite decide_True by done. simpl. lia.
      - rewrite decide_False by done. rewrite I2. lia. }
    destruct (Z.eqb_spec (Z.of_nat (times ud open) + 1) 1) as [Hz|Hnz].
    + assert (Hnot : ud ∉ open) by (rewrite times_in; lia).
      unfold mark_as_coming_online. set (w2 := set_going_offline _ w1).
      assert (H2 : forall x, x ∈ dkeys (going_offline w2) <-> x <> ud /\ x ∈ dkeys (going_offline w)).
      { intros x. apply dkeys_ddel. }
      destruct (Z.eqb_spec (default 0 (dget ud (going_offline w1))) 0) as [Hg|Hg].
      * unfold send_user_sync. rewrite Ht. split; simpl.
        -- done.
        -- apply Hsyncs.
        -- by apply ddel_wf.
        -- intros x Hx. apply H2 in Hx as [Hne Hx]. rewrite not_elem_of_cons. split; [done|by apply I4].
        -- intros x. rewrite all_told_send. simpl. change (all_told w2) with (all_told w).
           rewrite elem_of_union, elem_of_singleton, elem_of_cons, I5.
           specialize (H2 x). simpl in H2. rewrite H2. replace (ud.1, ud.2) with ud by (by destruct ud).
           destruct (decide (x = ud)); naive_solver.
        -- apply Forall_app. by split; [|repeat constructor].
      * assert (Hin : ud ∈ dkeys (going_offline w)).
        { unfold dkeys. apply dmem_true. unfold dmem. simpl in Hg. by destruct (dget ud _). }
        split; simpl; [done|apply Hsyncs|by apply ddel_wf| |..].
        -- intros x Hx. apply H2 in Hx as [Hne Hx]. rewrite not_elem_of_cons. split; [done|by apply I4].
        -- intros x. change (all_told w2) with (all_told w). rewrite I5, elem_of_cons.
           specialize (H2 x). simpl in H2. rewrite H2. destruct (decide (x = ud)); naive_solver.
        -- done.
    + assert (Hin : ud ∈ open) by (rewrite times_in; lia).
      split; simpl; [done|apply Hsyncs|done| |..].
      * intros x Hx. rewrite not_elem_of_cons. split; [|by apply I4]. intros ->. by apply (I4 ud).
      * intros x. change (all_told w1) with (all_told w). rewrite I5, elem_of_cons. naive_solver.
      * done.
  - destruct IH as [I1 I2 I3 I4 I5 I6]. unfold sync_ends.
    assert (Ho : forall x, x ∈ open1 ++ ud :: open2 <-> x = ud \/ x ∈ open1 ++ open2) by set_solver.
    assert (Hn : forall x, times x (open1 ++ ud :: open2) =
      ((if decide (ud = x) then 1 else 0) + times x (open1 ++ open2))%nat).
    { intros x. rewrite !times_app, times_cons. lia. }
    pose proof (I2 ud) as Hud. rewrite Hn, decide_True in Hud by done.
    destruct (dget ud (worker_syncs w)) as [n|]; simpl in Hud; [|lia].
    set (w1 := set_worker_syncs _ w).
    assert (Hsyncs : forall x, default 0 (dget x (worker_syncs w1)) = Z.of_nat (times x (open1 ++ open2))).
    { intros x. simpl. rewrite dget_dset. specialize (Hn x). destruct (decide (x = ud)) as [->|Hne].
      - simpl. lia.
      - rewrite decide_False in Hn by done. rewrite I2, Hn. lia. }
    destruct (Z.eqb_spec (n - 1) 0) as [Hz|Hnz].
    + assert (Hnot : ud ∉ open1 ++ open2) by (rewrite times_in; lia).
      split; simpl; [done|apply Hsyncs|by apply dset_wf| |..].
      * intros x [->|Hx]%dkeys_dset; [done|]. specialize (I4 x Hx). rewrite Ho in I4. naive_solver.
      * intros x. change (all_told _) with (all_told w). rewrite I5, Ho, dkeys_dset. naive_solver.
      * done.
    + assert (Hin : ud ∈ open1 ++ open2) by (rewrite times_in; lia).
      split; simpl; [done|apply Hsyncs|done| |..].
      * intros x Hx. specialize (I4 x Hx). rewrite Ho in I4. naive_solver.
      * intros x. change (all_told w1) with (all_told w). rewrite I5, Ho. naive_solver.
      * done.
  - unfold send_stop_syncing. apply stop_ok; [done..|apply IH|done].
Qed.

(** ** The writer's side *)

(** The computation leaves the syncs of other processes alone. *)
Definition same_external {A} (c : St PresenceHandler A) : Prop :=
  forall m, preserves (fun h => external_syncs h = m) c.

Lemma same_ret {A} (a : A) : same_external (st_ret a).
Proof. by intros m h. Qed.
Lemma same_raise {A} e : same_external (st_raise e : St PresenceHandler A).
Proof. by intros m h. Qed.
Lemma same_lift {A} (r : result A) : same_external (st_lift r).
Proof. by intros m h. Qed.
Lemma same_read {A} (f : PresenceHandler -> A) : same_external (st_read f).
Proof. by intros m h. Qed.
Lemma same_bind {A B} (c : St PresenceHandler A) (k : A -> St PresenceHandler B) :
  same_external c -> (forall a, same_external (k a)) -> same_external (st_bind c k).
Proof. intros Hc Hk m. apply keeps_bind; [apply Hc|]. intros a. apply Hk. Qed.
Lemma same_fold {A B} (f : B -> A -> St PresenceHandler B) acc l :
  (forall b a, same_external (f b a)) -> same_external (st_fold f acc l).
Proof. intros Hf m. apply keeps_fold. intros b a _. apply Hf. Qed.
Lemma same_state f : same_external (st_modify (set_current_state f)).
Proof. by intros m h. Qed.
Lemma same_wheel {A} (c : St (WheelTimer (T := string)) A) : same_external (on_wheel c).
Proof. intros m h. unfold on_wheel, st_zoom. by destruct (c _). Qed.
Lemma same_devices {A} (c : St (gmap string devices) A) : same_external (on_devices c).
Proof. intros m h. unfold on_devices, st_zoom. by destruct (c _). Qed.
Lemma same_aside {A} (c : St PresenceHandler A) : aside c -> same_external c.
Proof. intros Hc m h <-. apply Hc. Qed.

Ltac same_auto :=
  repeat first
    [ apply same_bind; [|intros ?] | apply same_ret | apply same_raise | apply same_lift | apply same_read
    | apply same_state | apply same_wheel | apply same_devices | apply same_fold; intros ? ?
    | match goal with |- same_external (match ?x with _ => _ end) => destruct x end ].

Lemma current_state_same u : same_external (current_state_for_user u).
Proof. unfold current_state_for_user, current_state_for_users. same_auto. Qed.

Lemma update_states_same now now2 l b : same_external (_update_states now now2 l b).
Proof.
  unfold _update_states. destruct (negb _); [apply same_ret|]. apply same_bind.
  - unfold update_core, update_one. same_auto.
  - intros plan. apply same_aside, update_rest_aside.
Qed.

Lemma same_run {A} (c : St PresenceHandler A) h a h' :
  same_external c -> c h = (Ok a, h') -> external_syncs h' = external_syncs h.
Proof. intros Hc E. specialize (Hc (external_syncs h) h eq_refl). by rewrite E in Hc. Qed.

Definition process_syncs (i : string) (h : PresenceHandler) : gset user_device :=
  default ∅ (external_syncs h !! i).

Lemma row_told i u d b t now now2 now3 h h' :
  update_external_syncs_row i u d b t now now2 now3 h = (Ok tt, h') ->
  process_syncs i h' = told (process_syncs i h) (UserSyncCommand i u d b t).
Proof.
  intros (prev & h1 & E1 & E)%st_bind_ok. pose proof (same_run _ _ _ _ (current_state_same u) E1) as X1.
  unfold external_sync_row in E. apply st_bind_ok in E as ([] & h2 & E2 & E). injection E2 as E2.
  assert (X2 : process_syncs i h2 = process_syncs i h).
  { subst h2. unfold process_syncs. simpl. rewrite lookup_insert_eq. simpl. by rewrite X1. }
  clear E1 E2 X1. apply st_bind_ok in E as (m & h3 & E3 & E). injection E3 as <- <-.
  apply st_bind_ok in E as ([] & h4 & E4 & E5). injection E5 as <-.
  change (process_syncs i (set_external_updated _ h4)) with (process_syncs i h4).
  fold (process_syncs i h2) in E4. rewrite <- X2. destruct b; simpl in E4.
  - case_bool_decide as Hin; simpl in E4; injection E4 as <-.
    + unfold told. set_solver.
    + unfold process_syncs. simpl. by rewrite lookup_insert_eq.
  - case_bool_decide as Hin; simpl in E4; [|injection E4 as <-; unfold told; set_solver].
    apply st_bind_ok in E4 as ([] & h3 & E3 & E4). apply st_bind_ok in E4 as ([] & h5 & E6 & E4).
    apply (same_run _ _ _ _ (same_devices _)) in E3.
    apply (same_run _ _ _ _ (update_states_same _ _ _ _)) in E6. injection E4 as <-.
    unfold process_syncs. simpl. rewrite lookup_insert_eq. simpl. by rewrite E6, E3.
Qed.

(** ** The writer drops a worker it has not heard of *)

(** The look at the timers, at [now], takes the worker for gone. *)
Definition drops (i : string) (now : Z) (h : PresenceHandler) : bool :=
  match external_last_updated h !! i with
  | Some t => EXTERNAL_PROCESS_EXPIRY <? now - t
  | None => false
  end.

Lemma drops_expired i now h : drops i now h = true <-> i ∈ expired_process_ids now h.
Proof.
  unfold drops, expired_process_ids. rewrite in_map_b. split.
  - destruct (external_last_updated h !! i) as [t|] eqn:E; [|done]. intros Ht. exists (i, t).
    split; [done|]. apply in_filter_b. split; [by apply elem_of_map_to_list|done].
  - intros ([i' t] & -> & [Hin Ht]%in_filter_b). apply elem_of_map_to_list in Hin. simpl in *. by rewrite Hin.
Qed.

Lemma expire_syncs ids users h : exists users' h', st_fold expire_process users ids h = (Ok users', h') /\
  forall p, external_syncs h' !! p = if decide (p ∈ ids) then None else external_syncs h !! p.
Proof.
  revert users h. induction ids as [|p ids IH]; intros users h; [by exists users, h|].
  simpl. unfold st_bind at 1. cbn.
  match goal with |- context [st_fold expire_process ?us ids ?h1] => destruct (IH us h1) as (users' & h' & E & Hx) end.
  exists users', h'. split; [done|]. intros q. rewrite Hx. simpl.
  destruct (decide (q ∈ ids)), (decide (q ∈ p :: ids)); try set_solver.
  - assert (q = p) as -> by set_solver. by rewrite lookup_delete_eq.
  - rewrite lookup_delete_ne; [done|set_solver].
Qed.

Lemma look_syncs i now now2 now3 h :
  process_syncs i (_handle_timeouts now now2 now3 h).2 = if drops i now h then ∅ else process_syncs i h.
Proof.
  unfold _handle_timeouts, on_wheel, st_zoom. unfold st_bind at 1. destruct (fetch (wheel_timer h) now) as [us w1].
  set (h1 := set_wheel_timer w1 h). unfold st_bind at 1. cbn [st_read].
  destruct (expire_syncs (expired_process_ids now h1) us h1) as (users & h2 & E & Hx). rewrite (st_bind_run _ _ _ _ _ E).
  match goal with |- process_syncs i (?c h2).2 = _ => assert (Hc : same_external c) end.
  { same_auto. apply update_states_same. }
  specialize (Hc (external_syncs h2) h2 eq_refl). simpl in Hc. unfold process_syncs. rewrite Hc, Hx.
  change (expired_process_ids now h1) with (expired_process_ids now h).
  destruct (decide _) as [Hd%drops_expired|Hd]; [by rewrite Hd|].
  rewrite <- drops_expired in Hd. by destruct (drops i now h).
Qed.

(** The writer handles the commands of the worker [i], in order, looks at its timers, and does
    other things in between that do not touch what it has for the worker.  The flag says
    whether it took the worker for gone on the way. *)
Inductive writer_at (i : string) : list command -> bool -> PresenceHandler -> Prop :=
  | writer_start h : external_syncs h !! i = None -> writer_at i [] false h
  | writer_told cs b h c now now2 now3 h' : writer_at i cs b h -> of_worker i c ->
      on_USER_SYNC c now now2 now3 h = (Ok tt, h') -> writer_at i (cs ++ [c]) b h'
  | writer_looks cs b h now now2 now3 : writer_at i cs b h ->
      writer_at i cs (b || drops i now h) (_handle_timeouts now now2 now3 h).2
  | writer_other cs b h h' : writer_at i cs b h -> external_syncs h' !! i = external_syncs h !! i ->
      writer_at i cs b h'.

Lemma told_mono s s' c : s ⊆ s' -> told s c ⊆ told s' c.
Proof. destruct c as [| | | | | | |? ? ? []| | | | | |]; simpl; set_solver. Qed.

Lemma writer_at_told i cs b h : writer_at i cs b h ->
  process_syncs i h ⊆ fold_left told cs ∅ /\ (b = false -> process_syncs i h = fold_left told cs ∅).
Proof.
  induction 1 as [h Hi|cs b h c now now2 now3 h' _ [IH1 IH2] Hc E|cs b h now now2 now3 _ [IH1 IH2]|cs b h h' _ IH Hh].
  - unfold process_syncs. by rewrite Hi.
  - destruct c as [| | | | | | |i' u d is_syncing t| | | | | |]; try done. simpl in Hc. subst i'.
    rewrite (row_told i u d is_syncing t now now2 now3 h h') by exact E. rewrite fold_left_app. simpl.
    split; [exact (told_mono _ _ (UserSyncCommand i u d is_syncing t) IH1)|]. intros Hb. by rewrite IH2.
  - rewrite look_syncs. destruct (drops i now h); [split; [set_solver|by rewrite orb_true_r]|]. by rewrite orb_false_r.
  - unfold process_syncs in *. by rewrite Hh.
Qed.

End worker.

(** ** Two devices, one of which comes back in time *)

Definition sample_worker : WorkerPresenceHandler :=
  sync_begins ("@a:h", Some "D") 15000
    (sync_ends ("@a:h", Some "D") 12000
      (sync_begins ("@b:h", None) 11000
        (sync_begins ("@a:h", Some "D") 10000 (new_worker "w1" [] ∅ sample_queue)))).

Lemma sample_worker_at : worker_at "w1" sample_worker [("@a:h", Some "D"); ("@b:h", None)].
Proof.
  apply worker_begins, (worker_ends _ _ [("@b:h", None)] []), worker_begins, worker_begins, worker_start.
Qed.

(** The writer handles the commands and looks at its timers at [now]. *)
Definition told_handler : PresenceHandler :=
  fold_left (fun h c => (on_USER_SYNC c 20000 20001 20002 h).2) (commands sample_worker) sample_start.
Definition looked_handler (now : Z) : PresenceHandler := (_handle_timeouts now now now told_handler).2.

Lemma told_handler_at : writer_at "w1" (commands sample_worker) false told_handler.
Proof.
  eapply (writer_told _ [_] _ _ _ 20000 20001 20002); [|done|apply st_result; vm_compute; reflexivity].
  eapply (writer_told _ [] _ _ _ 20000 20001 20002); [|done|apply st_result; vm_compute; reflexivity].
  by apply writer_start.
Qed.

