(* ===== verification/PresenceJoins.v ===== *)
(** * PresenceJoins: reading the current states of users, and joins that make new readers

    [current_state_for_users] gives each user asked for his state in memory, in the table, or
    the offline one, and changes no answer that anyone gets later. *)
From S2P Require Import Prelude PyVal PySort PyState RoomVersionTable Identifiers Events.
From S2P Require Import WheelTimer PresenceState PresenceQueue PresenceHandler PresenceSafety.
From S2P Require Import PresenceSaved.
From Stdlib Require Import String.
Open Scope string_scope.
Open Scope list_scope.
Open Scope Z_scope.
Open Scope py_scope.
Open Scope st_scope.

Section lookup.
Context `{PresenceEnv, SetOrder}.

(** The state of a user: that in memory, or in the table, or offline. *)
Definition known_state (h : PresenceHandler) (u : string) : UserPresenceState :=
  default (default (default_presence u) (presence_table h !! u)) (user_to_current_state h !! u).

(** ** [current_state_for_users] *)

Lemma known_fold (known : gmap string UserPresenceState) us d :
  dict_wf d ->
  let d' := fold_left (fun states u => match known !! u with
                                       | Some s => dset u s states
                                       | None => states end) us d in
  dict_wf d' /\ forall u, dget u d' = if bool_decide (u ∈ us) then
    match known !! u with Some s => Some s | None => dget u d end else dget u d.
Proof.
  revert d. induction us as [|u us IH]; intros d Hwf; [done|]. cbn zeta. simpl.
  destruct (IH (match known !! u with Some s => dset u s d | None => d end)) as [H1' H2'].
  { destruct (known !! u); [by apply dset_wf|done]. }
  split; [done|]. intros v. rewrite H2'. destruct (decide (v = u)) as [->|Hne].
  - rewrite (bool_decide_eq_true_2 (u ∈ u :: us)) by left. case_bool_decide; destruct (known !! u) eqn:E; rewrite ?E; try done.
    by rewrite dget_dset_eq.
  - rewrite (bool_decide_ext (v ∈ u :: us) (v ∈ us)) by set_solver.
    assert (dget v (match known !! u with Some s => dset u s d | None => d end) = dget v d) as ->.
    { destruct (known !! u); [by rewrite dget_dset_ne|done]. }
    done.
Qed.

Lemma rows_found h us :
  dict_wf (get_presence_for_users us h) /\
  forall u, dget u (get_presence_for_users us h) =
    if bool_decide (u ∈ us) then presence_table h !! u else None.
Proof.
  unfold get_presence_for_users.
  set (l := omap (fun u => (fun s => (u, s)) <$> presence_table h !! u) (remove_dups us)).
  assert (Hin : forall u s, (u, s) ∈ l <-> u ∈ us /\ presence_table h !! u = Some s).
  { intros u s. unfold l. rewrite list_elem_of_omap. setoid_rewrite elem_of_remove_dups. split.
    - intros (u' & Hu & (s' & Hs & [= -> ->])%fmap_Some). done.
    - intros [Hu Hs]. exists u. by rewrite Hs. }
  assert (Hnd : NoDup (map fst l)).
  { unfold l. clear. pose proof (NoDup_remove_dups us) as Hnd.
    induction (remove_dups us) as [|u r IH]; [constructor|]. apply NoDup_cons in Hnd as [Hn Hnd]. simpl.
    destruct (presence_table h !! u); simpl; [|by apply IH]. constructor; [|by apply IH].
    intros ([u' s'] & Hu & Hin)%in_map_b. simpl in Hu. subst u'. apply list_elem_of_omap in Hin as (v & Hv & E).
    apply fmap_Some in E as (? & _ & [= -> ->]). done. }
  assert (Hwf : dict_wf (set_iter l)) by (unfold dict_wf; by rewrite set_iter_perm).
  split; [done|]. intros u. destruct (dget u (set_iter l)) as [s|] eqn:E.
  - apply dget_in in E. rewrite set_iter_perm in E. apply Hin in E as [Hu Hs]. by rewrite bool_decide_eq_true_2, Hs.
  - case_bool_decide as Hu; [|done]. destruct (presence_table h !! u) as [s|] eqn:Es; [|done].
    apply dget_none in E. destruct E. apply in_map_b. exists (u, s). split; [done|].
    rewrite set_iter_perm. by apply Hin.
Qed.

Lemma defaults_fold (res : list (string * UserPresenceState)) us states h :
  dict_wf states ->
  exists states' h', st_fold (fun states u =>
      match dget u res with
      | Some _ => st_ret states
      | None =>
          st_modify (set_current_state (<[u := default_presence u]>)) ;;!
          st_ret (dset u (default_presence u) states)
      end) states us h = (Ok states', h') /\ dict_wf states' /\
    (forall u, dget u states' = if bool_decide (u ∈ us /\ dget u res = None)
                                then Some (default_presence u) else dget u states) /\
    federation_queue h' = federation_queue h /\ presence_table h' = presence_table h /\
    forall u, user_to_current_state h' !! u = if bool_decide (u ∈ us /\ dget u res = None)
      then Some (default_presence u) else user_to_current_state h !! u.
Proof.
  revert states h. induction us as [|u us IH]; intros states h Hwf.
  { exists states, h. split_and!; [done..| | | |]; try done; intros u; (rewrite bool_decide_eq_false_2; [done|set_solver]). }
  simpl. destruct (dget u res) as [s|] eqn:E.
  - destruct (IH states h Hwf) as (states' & h' & E' & Hwf' & Hd & Hq & Ht & Hm). exists states', h'.
    assert (Hb : forall v, bool_decide (v ∈ u :: us /\ dget v res = None) = bool_decide (v ∈ us /\ dget v res = None)).
    { intros v. apply bool_decide_ext. rewrite elem_of_cons. naive_solver. }
    split_and!; [done|done| |done|done|]; intros v; rewrite Hb; [apply Hd|apply Hm].
  - destruct (IH (dset u (default_presence u) states) (set_current_state (<[u := default_presence u]>) h))
      as (states' & h' & E' & Hwf' & Hd & Hq & Ht & Hm); [by apply dset_wf|]. exists states', h'.
    assert (Hb : forall v, v <> u -> bool_decide (v ∈ u :: us /\ dget v res = None) = bool_decide (v ∈ us /\ dget v res = None)).
    { intros v Hne. apply bool_decide_ext. rewrite elem_of_cons. naive_solver. }
    split_and!; [done|done| |done|done|]; intros v; (destruct (decide (v = u)) as [->|Hne];
      [rewrite (bool_decide_eq_true_2 (u ∈ u :: us /\ _)) by (split; [left|done])|rewrite Hb by done]).
    + rewrite Hd, dget_dset_eq. by case_bool_decide.
    + by rewrite Hd, dget_dset_ne.
    + rewrite Hm. simpl. rewrite lookup_insert_eq. by case_bool_decide.
    + rewrite Hm. simpl. by rewrite lookup_insert_ne.
Qed.

Lemma current_states_run us h : exists states h', current_state_for_users us h = (Ok states, h') /\
  dict_wf states /\
  (forall u, dget u states = if bool_decide (u ∈ us) then Some (known_state h u) else None) /\
  federation_queue h' = federation_queue h /\ (forall v, known_state h' v = known_state h v).
Proof.
  unfold current_state_for_users. set (known := user_to_current_state h). unfold st_bind at 1. cbn [st_read].
  fold known. destruct (known_fold known us [] dict_wf_nil) as [Hwf Hd].
  set (states := fold_left _ us []) in *. set (missing := List.filter _ us).
  assert (Hm : forall u, u ∈ missing <-> u ∈ us /\ known !! u = None).
  { intros u. unfold missing. rewrite in_filter_b, bool_decide_eq_true. naive_solver. }
  assert (Hdone : missing = [] -> forall u, dget u states =
    if bool_decide (u ∈ us) then Some (known_state h u) else None).
  { intros E u. rewrite Hd. case_bool_decide as Hu; [|done]. unfold known_state. fold known.
    destruct (known !! u) eqn:Ek; [done|]. exfalso. assert (u ∈ missing) as Hin by (by apply Hm).
    rewrite E in Hin. by apply elem_of_nil in Hin. }
  destruct missing as [|u0 missing'] eqn:Em; [exists states, h; eauto 8|]. rewrite <- Em in *. clear Hdone.
  unfold st_bind at 1. cbn [st_read]. destruct (rows_found h missing) as [Hwfr Hr].
  set (res := get_presence_for_users missing h) in *.
  destruct (defaults_fold res missing (dupdate states res) h) as (states' & h' & E & Hwf' & Hd' & Hq & Ht & Hmem);
    [by apply dupdate_wf|].
  exists states', h'. split_and!; [done|done| |done|].
  2: { intros v. unfold known_state. rewrite Ht, Hmem, Hr. case_bool_decide as Hv; [|done]. destruct Hv as [Hv Hn].
    rewrite bool_decide_eq_true_2 in Hn by done. apply Hm in Hv as [_ Hv]. fold known. by rewrite Hv, Hn. }
  intros u. rewrite Hd', dget_dupdate, Hr, Hd by done.
  unfold known_state. fold known. specialize (Hm u).
  destruct (decide (u ∈ us)) as [Hu|Hu]; [destruct (known !! u) as [s|] eqn:Ek|].
  - rewrite !(bool_decide_eq_false_2 (u ∈ missing)) by (rewrite Hm; naive_solver).
    rewrite bool_decide_eq_false_2 by (rewrite Hm; naive_solver). by rewrite bool_decide_eq_true_2.
  - rewrite !(bool_decide_eq_true_2 (u ∈ missing)) by (by apply Hm). rewrite !(bool_decide_eq_true_2 (u ∈ us)) by done.
    simpl. destruct (presence_table h !! u) as [s|]; simpl.
    + by rewrite bool_decide_eq_false_2 by naive_solver.
    + rewrite bool_decide_eq_true_2; [done|]. split; [by apply Hm|done].
  - rewrite !(bool_decide_eq_false_2 (u ∈ missing)) by (rewrite Hm; naive_solver).
    rewrite bool_decide_eq_false_2 by (rewrite Hm; naive_solver). by rewrite bool_decide_eq_false_2.
Qed.

Lemma states_of us h states h' : current_state_for_users us h = (Ok states, h') ->
  forall s, s ∈ dvals states <-> exists u, u ∈ us /\ s = known_state h u.
Proof.
  intros E. destruct (current_states_run us h) as (states1 & h1 & E1 & Hwf & Hd & _).
  rewrite E1 in E. injection E as -> ->. intros s. unfold dvals. rewrite in_map_b. split.
  - intros ([u s'] & -> & Hin). apply dget_some_iff in Hin; [|done]. rewrite Hd in Hin.
    case_bool_decide; [|done]. simplify_eq. eauto.
  - intros (u & Hu & ->). exists (u, known_state h u). split; [done|]. apply dget_some_iff; [done|].
    rewrite Hd. by rewrite bool_decide_eq_true_2.
Qed.
End lookup.

(** * Users and servers that join rooms (handlers/presence.py)

    The presence writer follows the changes of room states: a server that is new to a room is
    sent the presence of the local users there, and the presence of a local user who joins is
    sent to all servers in the room.  What the stream of changes gives is an argument. *)
Open Scope string_scope.
Open Scope list_scope.
Open Scope Z_scope.
Open Scope py_scope.
Open Scope st_scope.

Record StateDelta := {
  delta_room_id : string;
  delta_event_type : string;
  delta_state_key : string;
  delta_event_id : option string;
  delta_prev_event_id : option string
}.

Section joins.
Context `{PresenceEnv, SetOrder}.

(** [event and event.content.get("membership") == Membership.JOIN] *)
Definition joins (e : option event) : bool :=
  match e with
  | Some e => jeqs (oget (content e) "membership" JNull) Membership.JOIN
  | None => false
  end.

(** A membership event that joins where the one before did not. *)
Definition newly_joins (delta : StateDelta) : bool :=
  bool_decide (delta_event_type delta = EventTypes.Member)
  && match delta_event_id delta with
     | None => false
     | Some event_id =>
         joins (get_event event_id)
         && negb (match truthy_text (delta_prev_event_id delta) with
                  | Some prev => joins (get_event prev)
                  | None => false
                  end)
     end.

Definition newly_joined_users (room_id : string) (deltas : list StateDelta) : result (list string) :=
  rfold (fun users delta =>
    if negb (bool_decide (room_id = delta_room_id delta)) then Err AssertionError
    else Ok (if newly_joins delta then remove_dups (users ++ [delta_state_key delta]) else users))
    [] deltas.

(** The local users among some, and the hosts of the others but for those known. *)
Definition split_users (known_hosts : gset string) (users : list string)
    : result (list string * gset string) :=
  rfold (fun '(local, hosts) user_id =>
    if is_mine_id user_id then Ok (local ++ [user_id], hosts)
    else
      let* host := get_domain_from_id user_id in
      Ok (local, if bool_decide (host ∈ known_hosts) then hosts else {[host]} ∪ hosts))
    ([], ∅) (set_iter users).

(** An offline state of the last week or with a message, or another state. *)
Definition worth_sending (now : Z) (s : UserPresenceState) : bool :=
  negb (bool_decide (state s = PresenceState.OFFLINE))
  || (now - last_active_ts s <? 7 * 24 * 60 * 60 * 1000)
  || negb (bool_decide (status_msg s = None)).

(** [if users and hosts:] send the states of the users to the hosts. *)
Definition send_local (now : Z) (keep : UserPresenceState -> bool) (users : list string)
    (hosts : gset string) : St PresenceHandler unit :=
  match users with
  | [] => st_ret tt
  | _ =>
      if bool_decide (hosts = ∅) then st_ret tt
      else
        let! local_states := current_state_for_users users in
        on_queue (send_presence_to_destinations now (List.filter keep (dvals local_states))
                    (set_iter (elements hosts)))
  end.

(** [now] is the time states are judged by, and [now2] and [now3] those they are queued at. *)
Definition _handle_state_delta (now now2 now3 : Z) (room_id : string) (deltas : list StateDelta)
    : St PresenceHandler unit :=
  let! joined := st_lift (newly_joined_users room_id deltas) in
  match joined with
  | [] => st_ret tt
  | _ =>
      let prev_users := List.filter (fun u => negb (bool_decide (u ∈ joined)))
                          (remove_dups (get_users_in_room room_id)) in
      let! (prev_local_users, prev_remote_hosts) := st_lift (split_users ∅ prev_users) in
      let! (newly_joined_local_users, newly_joined_remote_hosts) :=
        st_lift (split_users prev_remote_hosts joined) in
      send_local now2 (worth_sending now) prev_local_users newly_joined_remote_hosts ;;!
      send_local now3 (fun _ => true) newly_joined_local_users
        (prev_remote_hosts ∪ newly_joined_remote_hosts)
  end.

Section process.
Context (get_current_state_deltas : Z -> Z -> Z * list StateDelta).

(** [deltas_by_room] *)
Definition by_room (deltas : list StateDelta) : list (string * list StateDelta) :=
  fold_left (fun d delta => append_to (delta_room_id delta) [delta] d) deltas [].

(** The newest position each turn of the loop reads is given; the clock stands still. *)
Fixpoint _unsafe_process (now : Z) (newest : list Z) : St PresenceHandler unit :=
  match newest with
  | [] => st_raise OutOfFuel
  | room_max_stream_ordering :: newest =>
      let! pos := st_read event_pos in
      if room_max_stream_ordering <=? pos then st_ret tt
      else
        let (max_pos, deltas) := get_current_state_deltas pos room_max_stream_ordering in
        st_for (fun rd => _handle_state_delta now now now rd.1 rd.2) (by_room deltas) ;;!
        st_modify (set_event_pos max_pos) ;;!
        _unsafe_process now newest
  end.
End process.

(** ** What a change of a room sends *)

(** The presence the queue hands to the sender of this process. *)
Definition sent_pairs (h : PresenceHandler) : list (UserPresenceState * string) :=
  flat_map (fun sd => flat_map (fun s => map (fun d => (s, d)) sd.2) sd.1)
    (default [] (_federation (federation_queue h))).
End joins.

(** * Who is sent what when somebody joins *)

Section joins.
Context `{PresenceEnv, SetOrder}.

(** ** The users of a room, local and not *)

Definition remote_at (u host : string) : Prop := is_mine_id u = false /\ get_domain_from_id u = Ok host.

Lemma split_fold (known : gset string) us local (hosts : gset string) local' (hosts' : gset string) :
  rfold (fun '(local, hosts) user_id =>
    if is_mine_id user_id then Ok (local ++ [user_id], hosts)
    else
      let* host := get_domain_from_id user_id in
      Ok (local, if bool_decide (host ∈ known) then hosts else {[host]} ∪ hosts))
    (local, hosts) us = Ok (local', hosts') ->
  (forall u, u ∈ local' <-> u ∈ local \/ (u ∈ us /\ is_mine_id u = true)) /\
  (forall x, (x ∈ hosts' <-> x ∈ hosts \/ ((x ∉ known) /\ exists u, u ∈ us /\ remote_at u x))).
Proof.
  revert local hosts. induction us as [|u us IH]; intros local hosts; simpl.
  { intros [= -> ->]. split; set_solver. }
  destruct (is_mine_id u) eqn:Em; cbn [rbind].
  - intros [Hl Hh]%IH. split.
    + intros v. rewrite Hl, elem_of_app, list_elem_of_singleton, elem_of_cons. split.
      * intros [[?| ->]|[? ?]]; auto.
      * intros [?|[[->|?] ?]]; auto.
    + intros x. rewrite Hh. unfold remote_at. setoid_rewrite elem_of_cons. split.
      * intros [?|(? & v & ? & ?)]; [by left|right; split; [done|exists v; auto]].
      * intros [?|(? & v & [->|?] & Hm & ?)]; [by left|congruence|right; split; [done|by exists v]].
  - destruct (get_domain_from_id u) as [host|] eqn:Ed; cbn [rbind]; [|done]. intros [Hl Hh]%IH. split.
    + intros v. rewrite Hl, elem_of_cons. split; [intros [?|[? ?]]; auto|].
      intros [?|[[->|?] ?]]; [by left|congruence|by right].
    + intros x. rewrite Hh. unfold remote_at. setoid_rewrite elem_of_cons. case_bool_decide as Hk; split.
      * intros [?|(? & v & ? & ?)]; [by left|right; split; [done|exists v; auto]].
      * intros [?|(Hn & v & [->|?] & Hm & Hd)]; [by left| |right; split; [done|by exists v]].
        rewrite Ed in Hd. injection Hd as ->. done.
      * rewrite elem_of_union, elem_of_singleton. intros [[->|?]|(? & v & ? & ?)];
          [right; split; [done|exists u; auto]|by left|right; split; [done|exists v; auto]].
      * rewrite elem_of_union, elem_of_singleton.
        intros [?|(? & v & [->|?] & Hm & Hd)]; [by left; right|left; left; congruence|right; split; [done|by exists v]].
Qed.

Lemma split_users_spec known us local hosts : split_users known us = Ok (local, hosts) ->
  (forall u, u ∈ local <-> u ∈ us /\ is_mine_id u = true) /\
  (forall x, x ∈ hosts <-> (x ∉ known) /\ exists u, u ∈ us /\ remote_at u x).
Proof.
  intros [Hl Hh]%split_fold. split.
  - intros u. rewrite Hl, set_iter_perm. set_solver.
  - intros x. rewrite Hh. setoid_rewrite set_iter_perm. set_solver.
Qed.

(** ** Sending *)

Lemma send_sent now states destinations q q' log :
  send_presence_to_destinations now states destinations q = (Ok tt, q') -> _federation q = Some log ->
  exists log', _federation q' = Some (log ++ log') /\
    flat_map (fun sd => flat_map (fun s => map (fun d => (s, d)) sd.2) sd.1) log'
    = flat_map (fun s => map (fun d => (s, d)) destinations) states.
Proof.
  unfold send_presence_to_destinations, st_bind, st_read. intros E Hq.
  destruct (_presence_writer q); simpl in E; [|done].
  destruct states as [|s states], destinations as [|d destinations]; simpl in E.
  - injection E as <-. exists []. by rewrite app_nil_r.
  - injection E as <-. exists []. by rewrite app_nil_r.
  - injection E as <-. exists []. rewrite app_nil_r. split; [done|]. simpl. by induction states.
  - exists [(s :: states, d :: destinations)]. split; [|simpl; by rewrite app_nil_r].
    destruct (_queue_presence_updates q); simpl in E; injection E as <-; simpl; by rewrite Hq.
Qed.

(** What was sent, and that later reads of states see no change. *)
Definition sends (h h' : PresenceHandler) (new : UserPresenceState -> string -> Prop) : Prop :=
  is_Some (_federation (federation_queue h')) /\ (forall v, known_state h' v = known_state h v) /\
  exists l, sent_pairs h' = sent_pairs h ++ l /\ forall s x, (s, x) ∈ l <-> new s x.

Lemma sends_nothing h new : is_Some (_federation (federation_queue h)) -> (forall s x, ~ new s x) ->
  sends h h new.
Proof.
  intros Hf Hn. split_and!; [done|done|]. exists []. rewrite app_nil_r. split; [done|].
  intros s x. split; [by intros ?%elem_of_nil|]. intros Hs. by destruct (Hn s x).
Qed.

Lemma send_local_run now keep users hosts h h' :
  send_local now keep users hosts h = (Ok tt, h') -> is_Some (_federation (federation_queue h)) ->
  sends h h' (fun s x => x ∈ hosts /\ keep s = true /\ exists v, v ∈ users /\ s = known_state h v).
Proof.
  intros E Hf. unfold send_local in E. destruct users as [|u users].
  { injection E as <-. apply sends_nothing; [done|]. intros s x (_ & _ & v & ?%elem_of_nil & _). done. }
  set (us := u :: users) in *. case_bool_decide as Hh.
  { injection E as <-. apply sends_nothing; [done|]. intros s x (? & _). set_solver. }
  apply st_bind_ok in E as (states & h1 & E1 & E2). pose proof (states_of _ _ _ _ E1) as Hs.
  destruct (current_states_run us h) as (states1 & h2 & E3 & _ & _ & Hq & Hk).
  rewrite E1 in E3. injection E3 as <- <-. rewrite <- Hq in Hf. destruct Hf as [log Hlog].
  unfold on_queue, st_zoom in E2.
  destruct (send_presence_to_destinations _ _ _ (federation_queue h1)) as [[[]|] q'] eqn:E3; [|done].
  injection E2 as <-. destruct (send_sent _ _ _ _ _ _ E3 Hlog) as (log' & Hq' & Hl). split_and!.
  - simpl. by rewrite Hq'.
  - intros v. rewrite <- Hk. done.
  - eexists. split.
    + unfold sent_pairs. simpl. rewrite Hq', <- Hq, Hlog. simpl. rewrite flat_map_app, Hl. reflexivity.
    + intros s x. rewrite list_elem_of_In, in_flat_map. setoid_rewrite <- list_elem_of_In.
      setoid_rewrite in_filter_b. setoid_rewrite Hs. setoid_rewrite in_map_b.
      setoid_rewrite set_iter_perm. setoid_rewrite elem_of_elements. split.
      * intros (s' & [(v & Hv & ->) Hk'] & d & [= -> ->] & Hd). split; [done|]. split; [done|]. by exists v.
      * intros (Hx & Hk' & v & Hv & ->). exists (known_state h v). split; [split; [by exists v|done]|]. by exists x.
Qed.

(** An event by which its state key is joined. *)
Definition is_join (i : option string) : Prop :=
  exists id e, i = Some id /\ get_event id = Some e /\ oget (content e) "membership" JNull = JStr Membership.JOIN.

(** The user joined by one of the changes, and was not joined by the event it replaces. *)
Definition has_joined (deltas : list StateDelta) (u : string) : Prop :=
  exists d, d ∈ deltas /\ delta_state_key d = u /\ delta_event_type d = EventTypes.Member /\
    is_join (delta_event_id d) /\ ~ (delta_prev_event_id d <> Some "" /\ is_join (delta_prev_event_id d)).

(** He is not away for a week without a message. *)
Definition told_of (now : Z) (s : UserPresenceState) : Prop :=
  state s <> PresenceState.OFFLINE \/ now - last_active_ts s < 7 * 24 * 60 * 60 * 1000 \/ status_msg s <> None.

Lemma worth_sending_ok now s : worth_sending now s = true <-> told_of now s.
Proof.
  unfold worth_sending, told_of.
  rewrite !orb_true_iff, !negb_true_iff, !bool_decide_eq_false, Z.ltb_lt. tauto.
Qed.

Lemma joins_ok i : joins (get_event i) = true <-> is_join (Some i).
Proof.
  unfold joins, is_join. destruct (get_event i) as [e|] eqn:E.
  - assert (Heq : forall j s, jeqs j s = true <-> j = JStr s).
    { intros j s. unfold jeqs. destruct j; simpl; try done. rewrite bool_decide_eq_true. split; congruence. }
    rewrite Heq. split; [by exists i, e|]. intros (i' & e' & [= <-] & E' & Hm). congruence.
  - split; [done|]. intros (i' & e' & [= <-] & E' & _). congruence.
Qed.

Lemma newly_joins_ok d : newly_joins d = true <->
  delta_event_type d = EventTypes.Member /\ is_join (delta_event_id d) /\
  ~ (delta_prev_event_id d <> Some "" /\ is_join (delta_prev_event_id d)).
Proof.
  unfold newly_joins. rewrite andb_true_iff, bool_decide_eq_true. apply and_iff_compat_l.
  destruct (delta_event_id d) as [i|].
  2: { split; [done|]. by intros [(? & ? & [=] & _) _]. }
  rewrite andb_true_iff, joins_ok, negb_true_iff. apply and_iff_compat_l.
  rewrite <- not_true_iff_false. apply not_iff_compat. unfold truthy_text.
  destruct (delta_prev_event_id d) as [[|c p]|].
  - split; [done|]. by intros [? _].
  - rewrite joins_ok. split; [|by intros [_ ?]]. by intros ?.
  - split; [done|]. by intros [_ (? & ? & [=] & _)].
Qed.

Lemma joined_users_ok room_id deltas joined : newly_joined_users room_id deltas = Ok joined ->
  forall u, u ∈ joined <-> has_joined deltas u.
Proof.
  unfold newly_joined_users. intros E.
  assert (Hgen : forall l acc, rfold (fun users delta =>
      if negb (bool_decide (room_id = delta_room_id delta)) then Err AssertionError
      else Ok (if newly_joins delta then remove_dups (users ++ [delta_state_key delta]) else users)) acc l = Ok joined ->
    forall u, u ∈ joined <-> u ∈ acc \/ has_joined l u).
  { clear E. unfold has_joined. induction l as [|d l IH]; intros acc.
    - intros [= <-] u. split; [by left|]. intros [?|(d & ?%elem_of_nil & _)]; done.
    - simpl. destruct (negb _); [done|]. cbn [rbind]. intros E u. rewrite (IH _ E). clear IH E.
      setoid_rewrite elem_of_cons.
      destruct (newly_joins d) eqn:En.
      + rewrite elem_of_remove_dups, elem_of_app, list_elem_of_singleton. apply newly_joins_ok in En. naive_solver.
      + assert (Hn : ~ (delta_event_type d = EventTypes.Member /\ is_join (delta_event_id d) /\
          ~ (delta_prev_event_id d <> Some "" /\ is_join (delta_prev_event_id d))))
          by (rewrite <- newly_joins_ok; congruence).
        split; [intros [?|(d' & ? & ?)]; [by left|right; exists d'; tauto]|].
        intros [?|(d' & [->|Hd'] & Hk & Hr)]; [by left|done|right; by exists d']. }
  intros u. rewrite (Hgen _ _ E). split; [|by right]. by intros [?%elem_of_nil|?].
Qed.

(** C39: when a room's state has changed, this is sent, and nothing else: the presence of every
    local user who was in the room to every server that is new to it because somebody joined,
    unless he is offline, has no message and was away for a week; and the presence of every
    local user who joined to every other server in the room. *)
Theorem joins_are_told now now2 now3 room_id deltas h h' :
  _handle_state_delta now now2 now3 room_id deltas h = (Ok tt, h') ->
  is_Some (_federation (federation_queue h)) ->
  let before u := u ∈ get_users_in_room room_id /\ ~ has_joined deltas u in
  let host_before x := exists u, before u /\ remote_at u x in
  let host_joins x := exists u, has_joined deltas u /\ remote_at u x in
  sends h h' (fun s x => exists v, s = known_state h v /\ is_mine_id v = true /\
    ((before v /\ told_of now s /\ host_joins x /\ ~ host_before x) \/
     (has_joined deltas v /\ (host_before x \/ host_joins x)))).
Proof.
  intros E Hf before host_before host_joins. unfold _handle_state_delta in E.
  apply st_bind_ok in E as (joined & h0 & Hj & E). injection Hj as Hj <-.
  assert (Hjoin : forall u, u ∈ joined <-> has_joined deltas u) by (by apply joined_users_ok with room_id).
  destruct joined as [|j joined].
  { injection E as <-. apply sends_nothing; [done|].
    assert (Hno : forall u, ~ has_joined deltas u) by (intros u Hu; by apply Hjoin, elem_of_nil in Hu).
    intros s x (v & _ & _ & [(_ & _ & (u & Hu & _) & _)|[Hu _]]); by apply (Hno _ Hu). }
  set (js := j :: joined) in *. set (prev := List.filter _ _) in E.
  assert (Hprev : forall u, u ∈ prev <-> before u).
  { intros u. unfold prev, before. rewrite in_filter_b, elem_of_remove_dups, negb_true_iff, bool_decide_eq_false, Hjoin. split; intros []; done. }
  apply st_bind_ok in E as ([local hosts] & h1 & E1 & E). injection E1 as E1 <-.
  apply st_bind_ok in E as ([jlocal jhosts] & h1 & E2 & E). injection E2 as E2 <-.
  apply split_users_spec in E1 as [Hlocal Hhosts]. apply split_users_spec in E2 as [Hjlocal Hjhosts].
  apply st_bind_ok in E as ([] & h1 & E3 & E4).
  destruct (send_local_run _ _ _ _ _ _ E3 Hf) as (Hf1 & Hk1 & l1 & Hl1 & Hin1).
  destruct (send_local_run _ _ _ _ _ _ E4 Hf1) as (Hf2 & Hk2 & l2 & Hl2 & Hin2).
  assert (Hb : forall x, x ∈ hosts <-> host_before x).
  { intros x. rewrite Hhosts. unfold host_before. setoid_rewrite Hprev. set_solver. }
  split_and!; [done|intros v; by rewrite Hk2, Hk1|]. exists (l1 ++ l2).
  rewrite Hl2, Hl1, app_assoc. split; [done|]. intros s x. rewrite elem_of_app, Hin1, Hin2.
  setoid_rewrite Hk1. rewrite elem_of_union. setoid_rewrite Hlocal. setoid_rewrite Hjlocal.
  setoid_rewrite Hprev. rewrite Hjhosts, Hb. setoid_rewrite <- worth_sending_ok. setoid_rewrite Hjoin.
  fold (host_joins x).
  assert (Hd : host_before x \/ ~ host_before x) by (rewrite <- Hb; destruct (decide (x ∈ hosts)); auto).
  split.
  - intros [((Hx & Hj') & Hkeep & v & (Hv & Hm) & Hs)|(Hx & _ & v & (Hv & Hm) & Hs)];
      exists v; (split_and!; [done|done|]); [by left|right]. split; [done|].
    destruct Hx as [?|[_ ?]]; [by left|by right].
  - intros (v & Hs & Hm & [(Hv & Hkeep & Hx & Hn)|(Hv & Hx)]); [left|right].
    + split; [done|]. split; [done|]. by exists v.
    + split; [destruct Hd, Hx; auto|]. split; [done|]. by exists v.
Qed.
End joins.

(** ** A remote server joins, and a local user *)

Definition join_event : event :=
  {| room_version := RoomVersions.V10; event_id_field := ""; reference_hash := "j"; type := EventTypes.Member;
     sender := "@c:far"; state_key_field := Some "@c:far"; room_id_field := Some "!r";
     content := [("membership", JStr "join")]; prev_events := []; auth_events_field := [];
     redacts_field := JNull; depth := 5; origin_server_ts := 0; signatures := []; rejected_reason := None |}.

#[local] Instance join_presence : PresenceEnv := {|
  hostname := "h"; _presence_enabled := true; _track_presence := true; msc3026_enabled := true;
  get_rooms_for_user := fun _ => ["!r"]; get_current_hosts_in_room := fun _ => ["h"; "other"];
  get_users_in_room := fun _ => ["@a:h"; "@b:other"; "@c:far"];
  get_event := fun i => if bool_decide (i = "$j") then Some join_event else None;
  presence_router := new_router |}.

Definition join_delta : StateDelta :=
  {| delta_room_id := "!r"; delta_event_type := EventTypes.Member; delta_state_key := "@c:far";
     delta_event_id := Some "$j"; delta_prev_event_id := None |}.

Definition joined_room : PresenceHandler :=
  (_handle_state_delta 3000 3000 3000 "!r" [join_delta] sample_start).2.

Lemma joins_are_told_witness :
  sent_pairs joined_room = [(sample_row, "far")] /\
  exists new, sends sample_start joined_room new /\ (new sample_row "far" <-> True).
Proof.
  split; [vm_compute; reflexivity|]. eexists. split.
  - apply (@joins_are_told join_presence presence_order 3000 3000 3000 "!r" [join_delta] sample_start joined_room).
    + apply (st_result (_handle_state_delta 3000 3000 3000 "!r" [join_delta])). vm_compute. reflexivity.
    + exists []. vm_compute. reflexivity.
  - split; [done|]. intros _. exists "@a:h". split; [vm_compute; reflexivity|].
    assert (Hc : @has_joined join_presence [join_delta] "@c:far").
    { exists join_delta. split; [left|]. split_and!; [done|done|exists "$j", join_event; done|].
      by intros [_ (? & ? & ? & _)]. }
    assert (Hall : forall u, @has_joined join_presence [join_delta] u -> u = "@c:far").
    { intros u (d & ->%list_elem_of_singleton & <- & _). done. }
    split; [vm_compute; reflexivity|]. left. split; [split; [left|]|].
    + intros ?%Hall. discriminate.
    + split; [by right; left|]. split.
      * exists "@c:far". split; [done|split; vm_compute; reflexivity].
      * intros (u & [Hu Hn] & _ & Hx). simpl in Hu.
        repeat (apply elem_of_cons in Hu as [->|Hu]; [vm_compute in Hx; try discriminate; by apply Hn|]).
        by apply elem_of_nil in Hu.
Defined.
