(* ===== verification/EventAuthLevels.v ===== *)
(** * EventAuthLevels: power levels (event_auth.py, lines 790-824 and 1069-1125)

    The readers of the power-levels event that every other auth rule is written with. *)
From S2P Require Import Prelude PyVal RoomVersionTable Events.
Open Scope string_scope.
Open Scope list_scope.
Open Scope Z_scope.
Open Scope py_scope.

Definition get_power_level_event (auth_events : StateMap event) : option event :=
  dget POWER_KEY auth_events.

Definition get_send_level (etype : string) (state_key : option string)
    (power_levels_event : option event) : result Z :=
  let power_levels_content :=
    match power_levels_event with Some e => content e | None => [] end in
  let* send_level := jget (oget power_levels_content "events" (JObj [])) etype JNull in
  let send_level :=
    if is_none send_level then
      match state_key with
      | Some _ => oget power_levels_content "state_default" (JInt 50)
      | None => oget power_levels_content "events_default" (JInt 0)
      end
    else send_level in
  py_int send_level.

Definition get_user_power_level (user_id : string) (auth_events : StateMap event) : result Z :=
  match dget CREATE_KEY auth_events with
  | None => Err AssertionError
  | Some create_event =>
      let* creator_power :=
        if msc4289_creator_power_enabled (room_version create_event)
        then is_creator create_event user_id else Ok false in
      if creator_power then Ok CREATOR_POWER_LEVEL
      else match get_power_level_event auth_events with
      | Some power_level_event =>
          let* level :=
            jget (oget (content power_level_event) "users" (JObj [])) user_id JNull in
          let level :=
            if is_none level then oget (content power_level_event) "users_default" (JInt 0)
            else level in
          if is_none level then Ok 0 else py_int level
      | None =>
          if implicit_room_creator (room_version create_event) then
            Ok (if bool_decide (sender create_event = user_id) then 100 else 0)
          else
            let* creator := ogetitem (content create_event) EventContentFields.ROOM_CREATOR in
            Ok (if jeqs creator user_id then 100 else 0)
      end
  end.

Definition get_named_level (auth_events : StateMap event) (name : string) (default : Z)
    : result Z :=
  match get_power_level_event auth_events with
  | None => Ok default
  | Some power_level_event =>
      let level := oget (content power_level_event) name JNull in
      if is_none level then Ok default else py_int level
  end.

(** ** What the readers read: the create event and the power-levels event *)

Lemma get_user_power_level_ext u auth auth' :
  dget CREATE_KEY auth = dget CREATE_KEY auth' ->
  dget POWER_KEY auth = dget POWER_KEY auth' ->
  get_user_power_level u auth = get_user_power_level u auth'.
Proof.
  intros Hc Hp. unfold get_user_power_level, get_power_level_event. by rewrite Hc, Hp.
Qed.

Lemma get_named_level_ext n d auth auth' :
  dget POWER_KEY auth = dget POWER_KEY auth' ->
  get_named_level auth n d = get_named_level auth' n d.
Proof. intros Hp. unfold get_named_level, get_power_level_event. by rewrite Hp. Qed.

(** A room creator's level in a version with creator power, whatever the power-levels
    event says. *)
Lemma get_user_power_level_creator u auth c :
  dget CREATE_KEY auth = Some c ->
  type c = EventTypes.Create -> sender c = u ->
  msc4289_creator_power_enabled (room_version c) = true ->
  get_user_power_level u auth = Ok CREATOR_POWER_LEVEL.
Proof.
  intros Hc Ht Hs Hv. unfold get_user_power_level, is_creator. rewrite Hc, Hv, Ht, Hs.
  rewrite !bool_decide_eq_true_2 by done. done.
Qed.
