(* ===== verification/SetkaChannels.v ===== *)
(** * SetkaChannels: broadcast channels (handlers/setka_channels.py)

    A room whose topic starts with [setka:channel] is a broadcast channel.  This file models
    the recognition of such rooms and of threaded content, the send-level override the event
    auth rules call, the third-party rule [check_event_allowed], and the pure parts of the
    channel directory.  Here [check_event_allowed] returns the registry and feed operations it
    attempts; SetkaRegistry runs them on the tables. *)
From S2P Require Import Prelude PyVal RoomVersionTable Events EventAuthLevels.
From Stdlib Require Import Ascii String.
Open Scope string_scope.
Open Scope list_scope.
Open Scope Z_scope.
Open Scope py_scope.

Definition CHANNEL_TOPIC_PREFIX : string := "setka:channel".
Definition MODERATOR_POWER_LEVEL : Z := 50.
Definition _FEED_EVENT_TYPES : list string := ["m.room.message"; "m.sticker"].
Definition _THREAD_REL_TYPES : list string := ["m.thread"; "io.element.thread"].

Definition is_feed_type (t : string) : bool := bool_decide (t ∈ _FEED_EVENT_TYPES).

Definition _topic_from_state `{PyRepr} (state : StateMap event) : string :=
  match dget (EventTypes.Topic, "") state with
  | None => ""
  | Some topic_event => py_str (py_or (oget (content topic_event) "topic" JNull) (JStr ""))
  end.

Definition has_channel_prefix (topic : string) : bool :=
  startswith (lower CHANNEL_TOPIC_PREFIX) (lower topic).

Definition _is_setka_channel_state `{PyRepr} (state : StateMap event) : bool :=
  has_channel_prefix (strip (_topic_from_state state)).

(** The characters that [\[a-z0-9_\]] matches under [re.IGNORECASE]: besides the ASCII
    letters, U+0130, U+0131, U+017F and U+212A. *)
Definition tag_char (c : string) : bool :=
  match c with
  | String a EmptyString => is_alnum a || Ascii.eqb a "_"
  | _ => bool_decide (c ∈ [String "196" (String "176" ""); String "196" (String "177" "");
                           String "197" (String "191" "");
                           String "226" (String "132" (String "170" ""))])
  end.

(** [_TAG_PATTERN.match(s)]: the group, for a string without a final newline. *)
Definition tag_pattern (s : string) : option string :=
  match utf8_chars s with
  | "#" :: cs =>
      if forallb tag_char cs && (3 <=? Z.of_nat (List.length cs)) && (Z.of_nat (List.length cs) <=? 32)
      then Some (str_join "" cs) else None
  | _ => None
  end.

Definition _parse_channel_tag (topic : string) : option string :=
  if negb (has_channel_prefix topic) then None
  else
    let remainder := strip (utf8_drop (String.length CHANNEL_TOPIC_PREFIX) (strip topic)) in
    if String.eqb remainder "" then None
    else
      let first := strip (match split_once " " remainder with
                          | Some (l, _) => l | None => remainder end) in
      lower <$> tag_pattern first.

(** [relates.get("rel_type") in _THREAD_REL_TYPES] raises TypeError on a list or object. *)
Definition in_thread_rel_types (j : json) : result bool :=
  if hashable j then Ok (existsb (jeqs j) _THREAD_REL_TYPES) else Err TypeError.

(** [m is not None and m.get("event_id")] for [m = _content_mapping(j)] *)
Definition has_event_id (j : json) : bool :=
  match as_mapping j with
  | Some m => truthy (oget m "event_id" JNull)
  | None => false
  end.

Definition _is_threaded_content (content : obj) : result bool :=
  let* from_relates :=
    match as_mapping (oget content "m.relates_to" JNull) with
    | None => Ok false
    | Some relates =>
        let rel_type := oget relates "rel_type" JNull in
        let* in_types := in_thread_rel_types rel_type in
        Ok (in_types
            || (truthy rel_type && truthy (oget relates "event_id" JNull))
            || has_event_id (oget relates "m.in_reply_to" JNull))
    end in
  Ok (from_relates || has_event_id (oget content "m.in_reply_to" JNull)).

Definition setka_channel_thread_comment_send_level `{PyRepr} (e : event)
    (auth_events : StateMap event) : result (option Z) :=
  if negb (is_feed_type (type e)) then Ok None
  else if negb (_is_setka_channel_state auth_events) then Ok None
  else
    let* threaded := _is_threaded_content (content e) in
    if threaded then Ok None
    else match dget POWER_KEY auth_events with
    | None => Ok (Some 0)
    | Some pl_event =>
        match py_int (py_or (oget (content pl_event) "users_default" JNull) (JInt 0)) with
        | Ok n => Ok (Some n)
        | Err TypeError | Err ValueError => Ok (Some 0)
        | Err e => Err e
        end
    end.

(** ** The channel directory *)

Record ChannelEntry := {
  ce_room_id : json; ce_name : json; ce_topic : string; ce_tag : json;
  ce_avatar_url : json; ce_num_joined_members : json; ce_canonical_alias : json;
  ce_aliases : json; ce_published_at : json; ce_hidden : bool
}.

Definition _room_entry_to_channel `{PyRepr} (room : obj) : option ChannelEntry :=
  let topic := py_str (py_or (oget room "topic" JNull) (JStr "")) in
  if negb (has_channel_prefix topic) then None
  else Some {|
    ce_room_id := oget room "room_id" JNull;
    ce_name := oget room "name" JNull;
    ce_topic := topic;
    ce_tag := py_or (oget room "tag" JNull)
                (match _parse_channel_tag topic with Some t => JStr t | None => JNull end);
    ce_avatar_url := oget room "avatar_url" JNull;
    ce_num_joined_members := oget room "num_joined_members" (JInt 0);
    ce_canonical_alias := oget room "canonical_alias" JNull;
    ce_aliases := py_or (oget room "aliases" JNull) (JList []);
    ce_published_at := oget room "published_at" JNull;
    ce_hidden := truthy (oget room "hidden" JNull) |}.

Definition _matches_search `{PyRepr, PyUnicode} (entry : ChannelEntry) (query : string) : bool :=
  let needle := py_lower (strip query) in
  let text j := py_lower (py_str (py_or j (JStr ""))) in
  if String.eqb needle "" then true
  else if startswith "#" needle then
    let tag := text (ce_tag entry) in
    has_substring (utf8_drop 1 needle) tag || String.eqb tag (utf8_drop 1 needle)
  else
    existsb (has_substring needle)
      [text (ce_name entry); text (JStr (ce_topic entry)); text (ce_canonical_alias entry);
       text (ce_tag entry)].

(** ** [SetkaChannelsHandler.check_event_allowed]

    The feed operations are attempted in order inside a [try] that swallows every
    exception; they do not change the answer. *)
Inductive feed_action :=
  | EnsureFeedRegistry (room_id : string) (tag : option string)
  | MaybeIngestEvent.

Definition feed_actions `{PyRepr} (e : event) (state : StateMap event) : list feed_action :=
  match room_id e with
  | Ok r => [EnsureFeedRegistry r (_parse_channel_tag (_topic_from_state state)); MaybeIngestEvent]
  | Err _ => []
  end.

Definition check_event_allowed `{PyRepr} (e : event) (state : StateMap event)
    : result (bool * list feed_action) :=
  if negb (is_feed_type (type e)) then Ok (true, [])
  else if negb (_is_setka_channel_state state) then Ok (true, [])
  else
    let* threaded := _is_threaded_content (content e) in
    if threaded then Ok (true, [])
    else
      let* level := get_user_power_level (sender e) state in
      if MODERATOR_POWER_LEVEL <=? level then Ok (true, feed_actions e state)
      else Ok (false, []).

(** ** Examples *)

Example parse_channel_tag_ex :
  map _parse_channel_tag ["setka:channel #News_1 more"; "SETKA:channel#abc"; "setka:channel #ab"; "other"] =
  [Some "news_1"; Some "abc"; None; None].
Proof. vm_compute. reflexivity. Qed.
