(* ===== verification/EventAuthPower.v ===== *)
(** * EventAuthPower: sending, redaction and power-level changes
    (event_auth.py, lines 827-1066)

    [_can_send_event], [check_redaction] and [_check_power_levels].  The three loops over
    Python sets run in an order the language does not fix: [SetOrder] stands for it, and
    every theorem holds for all orders. *)
From S2P Require Import Prelude PyVal RoomVersionTable Identifiers Events EventAuthLevels.
From S2P Require Import SetkaChannels.
From Stdlib Require Import Ascii String.
Open Scope string_scope.
Open Scope list_scope.
Open Scope Z_scope.
Open Scope py_scope.


(** ** [_can_send_event] *)

(** The user a state key belongs to under MSC3757: the state key up to the first underscore
    after the domain's colon; ValueError when there is no colon or no valid user ID. *)
Definition state_key_owner `{Netaddr} (state_key : string) : result string :=
  match split_once ":" state_key with
  | None => Err ValueError
  | Some (l, r) =>
      let state_key_user_id :=
        match split_once "_" r with
        | Some (r1, _) => (l ++ ":" ++ r1)%string
        | None => state_key
        end in
      if negb (UserID.is_valid state_key_user_id) then Err ValueError
      else Ok state_key_user_id
  end.

Definition _can_send_event `{Netaddr, PyRepr} (e : event) (auth_events : StateMap event)
    : result bool :=
  let state_key := get_state_key e in
  let power_levels_event := get_power_level_event auth_events in
  let* send_level := get_send_level (type e) state_key power_levels_event in
  let* user_level := get_user_power_level (user_id e) auth_events in
  let* send_level :=
    if user_level <? send_level then
      let* override := setka_channel_thread_comment_send_level e auth_events in
      Ok (match override with Some l => l | None => send_level end)
    else Ok send_level in
  if user_level <? send_level then
    Err (UnstableSpecAuthError 403
           "You don't have permission to post that to the room. user_level (%d) < send_level (%d)"
           Codes.INSUFFICIENT_POWER)
  else match state_key with
  | Some sk =>
      if startswith "@" sk && negb (bool_decide (sk = user_id e)) then
        let* allowed :=
          if msc3757_enabled (room_version e) then
            match state_key_owner sk with
            | Err _ =>
                Err (SynapseError 400
                       "State key neither equals a valid user ID, nor starts with one plus an underscore"
                       Codes.BAD_JSON)
            | Ok state_key_user_id =>
                if bool_decide (state_key_user_id = user_id e) then Ok true
                else
                  let* owner_level := get_user_power_level state_key_user_id auth_events in
                  Ok (owner_level <? user_level)
            end
          else Ok false in
        if (allowed : bool) then Ok true
        else Err (AuthError 403 "You are not allowed to set others state")
      else Ok true
  | None => Ok true
  end.

(** ** [check_redaction]

    The second component says whether the call sets
    [event.internal_metadata.recheck_redaction]. *)
Definition check_redaction (room_version_obj : RoomVersion) (e : event)
    (auth_events : StateMap event) : result (bool * bool) :=
  let* user_level := get_user_power_level (user_id e) auth_events in
  let* redact_level := get_named_level auth_events "redact" 50 in
  if redact_level <=? user_level then Ok (false, false)
  else if event_format room_version_obj =? EventFormatVersions.ROOM_V1_V2 then
    let* redacter_domain := get_domain_from_id (event_id e) in
    match redacts e with
    | JStr r =>
        let* redactee_domain := get_domain_from_id r in
        if bool_decide (redacter_domain = redactee_domain) then Ok (true, false)
        else Err (AuthError 403 "You don't have permission to redact events")
    | _ => Ok (false, false)
    end
  else Ok (true, true).

(** ** [_check_power_levels] *)

(** Lines 928-937: every key of [users] parses as a user ID, every value as an int. *)
Definition check_user_entry (kv : string * json) : result unit :=
  match UserID.from_string kv.1 with
  | Err _ => Err (SynapseError 400 "Not a valid user_id: %s" Codes.UNKNOWN)
  | Ok _ =>
      match py_int kv.2 with
      | Err _ => Err (SynapseError 400 "Not a valid power level: %s" Codes.UNKNOWN)
      | Ok _ => Ok tt
      end
  end.

(** Lines 939-963: with creator power, creators must not appear in [users]. *)
Definition check_creators_not_in_users (user_list : obj) (auth_events : StateMap event)
    : result unit :=
  match dget CREATE_KEY auth_events with
  | None => Err (SynapseError 400
                   "Cannot check power levels without a create event in auth_events" Codes.UNKNOWN)
  | Some create_event =>
      if dmem (sender create_event) user_list then
        Err (SynapseError 400 "Creator user %s must not appear in content.users" Codes.UNKNOWN)
      else
        let additional_creators :=
          oget (content create_event) EventContentFields.ADDITIONAL_CREATORS (JList []) in
        if truthy additional_creators then
          let* l := py_list additional_creators in
          let* creators := py_set l in
          if existsb (fun c => match c with JStr s => dmem s user_list | _ => false end) creators
          then Err (SynapseError 400
                      "Additional creators users must not appear in content.users" Codes.UNKNOWN)
          else Ok tt
        else Ok tt
  end.

Definition int_level_keys : list string :=
  ["users_default"; "events_default"; "state_default"; "ban"; "redact"; "kick"; "invite"].
Definition int_map_keys : list string := ["events"; "notifications"; "users"].

(** [type(v) is int]: a bool is not an int here. *)
Definition is_int (j : json) : bool := match j with JInt _ => true | _ => false end.

(** Lines 970-990, for one item of the content. *)
Definition check_int_levels (kv : string * json) : result unit :=
  let (k, v) := kv in
  (if bool_decide (k ∈ int_level_keys) && negb (is_int v)
   then Err (SynapseError 400 "{v!r} must be an integer." Codes.UNKNOWN) else Ok tt) ;;;
  (if bool_decide (k ∈ int_map_keys)
      && negb (match as_mapping v with
               | Some m => forallb (fun p => is_int p.2) m
               | None => false
               end)
   then Err (SynapseError 400 "{v!r} must be a dict wherein all the values are integers."
               Codes.UNKNOWN)
   else Ok tt).

(** [set(list(old_list) + list(new_list))], in iteration order. *)
Definition merged_keys `{SetOrder} (old_list new_list : json) : result (list json) :=
  let* l1 := py_list old_list in
  let* l2 := py_list new_list in
  let* s := py_set (l1 ++ l2) in
  Ok (set_iter s).

(** Lines 1001-1026: the levels to compare, each with its sub-dictionary. *)
Definition levels_to_check `{SetOrder} (room_version_obj : RoomVersion)
    (old_content new_content : obj) : result (list (json * option string)) :=
  let merged dir :=
    let* ks := merged_keys (oget old_content dir (JObj [])) (oget new_content dir (JObj [])) in
    Ok (map (fun k => (k, Some dir)) ks) in
  let* users := merged "users" in
  let* events := merged "events" in
  let* notifications :=
    if limit_notifications_power_levels room_version_obj then merged "notifications" else Ok [] in
  Ok (map (fun k => (JStr k, None)) int_level_keys ++ users ++ events ++ notifications).

(** [int(loc\[level\]) if level in loc else None] *)
Definition level_at (loc level : json) : result (option Z) :=
  let* present := py_in level loc in
  if present then
    let* v := py_getitem loc level in
    let* n := py_int v in
    Ok (Some n)
  else Ok None.

Definition sub_loc (content : obj) (dir : option string) : json :=
  match dir with Some d => oget content d (JObj []) | None => JObj content end.

Definition gtb_opt (o : option Z) (n : Z) : bool :=
  match o with Some m => n <? m | None => false end.

(** Lines 1031-1066: the body of the loop over [levels_to_check]. *)
Definition check_level_change (user : string) (user_level : Z) (old_content new_content : obj)
    (lc : json * option string) : result unit :=
  let (level, dir) := lc in
  let* old_level := level_at (sub_loc old_content dir) level in
  let* new_level := level_at (sub_loc new_content dir) level in
  if match old_level, new_level with Some o, Some n => n =? o | _, _ => false end then Ok tt
  else if bool_decide (dir = Some "users") && negb (jeqs level user)
          && bool_decide (old_level = Some user_level) then
    Err (AuthError 403 "You don't have permission to remove ops level equal to your own")
  else if gtb_opt old_level user_level || gtb_opt new_level user_level then
    Err (AuthError 403 "You don't have permission to add ops level greater than your own")
  else Ok tt.

Definition _check_power_levels `{SetOrder} (room_version_obj : RoomVersion) (e : event)
    (auth_events : StateMap event) : result unit :=
  let* user_list := jitems (oget (content e) "users" (JObj [])) in
  rforall check_user_entry user_list ;;;
  (if msc4289_creator_power_enabled room_version_obj
   then check_creators_not_in_users user_list auth_events else Ok tt) ;;;
  (if bool_decide (type e = EventTypes.PowerLevels) && enforce_int_power_levels room_version_obj
   then rforall check_int_levels (content e) else Ok tt) ;;;
  let* key := event_key e in
  match dget key auth_events with
  | None => Ok tt
  | Some current_state =>
      let* user_level := get_user_power_level (user_id e) auth_events in
      let* levels := levels_to_check room_version_obj (content current_state) (content e) in
      rforall (check_level_change (user_id e) user_level (content current_state) (content e)) levels
  end.
