(* ===== verification/EventAuthMembership.v ===== *)
(** * EventAuthMembership: membership changes (event_auth.py, lines 514-787 and 1128-1207)

    [_is_membership_change_allowed] and what it calls, third-party invites included.  The
    function is split at its own comments: the creator's first join, the facts about the
    caller and the target, the third-party invite, the presence check, and one definition
    per new membership.  Decoding keys and verifying signed JSON (signedjson,
    unpaddedbase64) is a parameter. *)
From S2P Require Import Prelude PyVal RoomVersionTable Identifiers Events EventAuthLevels.
Open Scope string_scope.
Open Scope list_scope.
Open Scope Z_scope.
Open Scope py_scope.

(** signedjson: decode the verify key [key_name] from the base64 [public_key] and check that
    [server] signed the JSON object with it. *)
Class SignedJson := verify_signed_json :
  forall (key_name : string) (public_key : json) (signed : obj) (server : string), result unit.

Definition _can_federate (auth_events : StateMap event) : bool :=
  match dget CREATE_KEY auth_events with
  | None => false
  | Some creation_event =>
      match oget (content creation_event) EventContentFields.FEDERATE (JBool true) with
      | JBool b => b
      | _ => false
      end
  end.

(** ** Presence in the room *)

Definition _check_joined_room (member : option event) : result unit :=
  match member with
  | None => Err (AuthError 403 "User %s not in room %s (%s)")
  | Some m =>
      let* ms := membership m in
      if jeqs ms Membership.JOIN then Ok tt
      else Err (AuthError 403 "User %s not in room %s (%s)")
  end.

Definition _check_event_sender_in_room (e : event) (auth_events : StateMap event)
    : result unit :=
  let member_event := dget (EventTypes.Member, user_id e) auth_events in
  let* _ := room_id e in
  _check_joined_room member_event.

(** ** Third-party invites *)

Definition get_public_keys (invite_event : event) : result (list json) :=
  let c := content invite_event in
  let own :=
    match dget "public_key" c with
    | None => []
    | Some pk =>
        [JObj (("public_key", pk) ::
               match dget "key_validity_url" c with
               | Some u => [("key_validity_url", u)]
               | None => []
               end)]
    end in
  let* others := py_list (oget c "public_keys" (JList [])) in
  Ok (own ++ others).

(** The body of the [try]: true when a signature was verified. *)
Definition verify_with_key `{SignedJson} (signed : obj) (public_key : json) : result bool :=
  let* sigs := ogetitem signed "signatures" in
  let* blocks := jitems sigs in
  rexists (fun '(server, signature_block) =>
    let* keys := jitems signature_block in
    rexists (fun '(key_name, _) =>
      if negb (startswith "ed25519:" key_name) then Ok false
      else
        let* _ := verify_signed_json key_name public_key signed server in
        Ok true) keys) blocks.

(** The loop over the invite's public keys: KeyError and SignatureVerifyException move on
    to the next key. *)
Fixpoint verify_with_keys `{SignedJson} (signed : obj) (public_keys : list json) : result bool :=
  match public_keys with
  | [] => Ok false
  | public_key_object :: public_keys =>
      let* public_key := py_getitem public_key_object (JStr "public_key") in
      match verify_with_key signed public_key with
      | Ok true => Ok true
      | Ok false | Err KeyError | Err SignatureVerifyException =>
          verify_with_keys signed public_keys
      | Err e => Err e
      end
  end.

(** [auth_events.get((etype, key))] for a key that is an arbitrary JSON value *)
Definition state_get_json (etype : string) (key : json) (auth_events : StateMap event)
    : result (option event) :=
  if hashable key then
    Ok (match key with JStr k => dget (etype, k) auth_events | _ => None end)
  else Err TypeError.

Definition _verify_third_party_invite `{SignedJson} (e : event) (auth_events : StateMap event)
    : result bool :=
  match dget "third_party_invite" (content e) with
  | Some (JObj third_party_invite) =>
      match dget "signed" third_party_invite with
      | Some (JObj signed) =>
          match dget "mxid" signed, dget "token" signed, dget "signatures" signed with
          | Some mxid, Some token, Some _ =>
              let* invite := state_get_json EventTypes.ThirdPartyInvite token auth_events in
              match invite with
              | None => Ok false
              | Some invite_event =>
                  if negb (bool_decide (sender invite_event = sender e)) then Ok false
                  else if negb (bool_decide (user_id e = user_id invite_event)) then Ok false
                  else
                    let* sk := state_key e in
                    if negb (jeqs mxid sk) then Ok false
                    else
                      let* public_keys := get_public_keys invite_event in
                      verify_with_keys signed public_keys
              end
          | _, _, _ => Ok false
          end
      | _ => Ok false
      end
  | _ => Ok false
  end.

(** ** [_is_membership_change_allowed] *)

(** Lines 539-550: the room creator's join, straight after the create event. *)
Definition is_creator_first_join (room_version : RoomVersion) (e : event) (ms : json)
    (auth_events : StateMap event) : result bool :=
  match prev_event_ids e with
  | [prev] =>
      if jeqs ms Membership.JOIN then
        match dget CREATE_KEY auth_events with
        | Some create =>
            if bool_decide (prev = event_id create) then
              let* creator :=
                if implicit_room_creator room_version then Ok (JStr (sender create))
                else ogetitem (content create) EventContentFields.ROOM_CREATOR in
              let* sk := state_key e in
              Ok (jeqs creator sk)
            else Ok false
        | None => Ok false
        end
      else Ok false
  | _ => Ok false
  end.

(** The local variables the branches test. *)
Record membership_context := {
  target_user_id : string;
  caller_in_room : bool;
  caller_invited : bool;
  caller_knocked : bool;
  target_in_room : bool;
  target_banned : bool;
  join_rule : json;
  user_level : Z;
  target_level : Z;
  invite_level : Z;
  ban_level : Z
}.

(** [m and m.membership], for [m] an event or None *)
Definition membership_of (m : option event) : result json :=
  match m with None => Ok JNull | Some m => membership m end.

(** Lines 552-612. *)
Definition get_membership_context (room_version : RoomVersion) (e : event)
    (auth_events : StateMap event) : result membership_context :=
  let* target_user_id := state_key e in
  match dget CREATE_KEY auth_events with
  | None => Err (AuthError 403 "Create event missing from auth_events")
  | Some create_event =>
      let* creating_domain := get_domain_from_id (sender create_event) in
      let* target_domain := get_domain_from_id target_user_id in
      if negb (bool_decide (creating_domain = target_domain)) && negb (_can_federate auth_events)
      then Err (AuthError 403 "This room has been marked as unfederatable.")
      else
        let* caller := membership_of (dget (EventTypes.Member, user_id e) auth_events) in
        let* target := membership_of (dget (EventTypes.Member, target_user_id) auth_events) in
        let join_rule :=
          match dget (EventTypes.JoinRules, "") auth_events with
          | Some j => oget (content j) "join_rule" (JStr JoinRules.INVITE)
          | None => JStr JoinRules.INVITE
          end in
        let* user_level := get_user_power_level (user_id e) auth_events in
        let* target_level := get_user_power_level target_user_id auth_events in
        let* invite_level := get_named_level auth_events "invite" 0 in
        let* ban_level := get_named_level auth_events "ban" 50 in
        Ok {| target_user_id := target_user_id;
              caller_in_room := jeqs caller Membership.JOIN;
              caller_invited := jeqs caller Membership.INVITE;
              caller_knocked := knock_join_rule room_version && jeqs caller Membership.KNOCK;
              target_in_room := jeqs target Membership.JOIN;
              target_banned := jeqs target Membership.BAN;
              join_rule := join_rule;
              user_level := user_level;
              target_level := target_level;
              invite_level := invite_level;
              ban_level := ban_level |}
  end.

(** Lines 641-660. *)
Definition check_invite (mc : membership_context) : result unit :=
  if target_banned mc then Err (AuthError 403 "%s is banned from the room")
  else if target_in_room mc then
    Err (UnstableSpecAuthError 403 "%s is already in the room." Codes.ALREADY_JOINED)
  else if user_level mc <? invite_level mc then
    Err (UnstableSpecAuthError 403 "You don't have permission to invite users"
           Codes.INSUFFICIENT_POWER)
  else Ok tt.

(** Lines 686-703: a restricted join names a joined user who could have invited. *)
Definition check_authorised_join (e : event) (auth_events : StateMap event)
    (mc : membership_context) : result unit :=
  let authorising_user := oget (content e) EventContentFields.AUTHORISING_USER JNull in
  if is_none authorising_user then
    Err (AuthError 403 "Join event is missing authorising user.")
  else
    let* member_event := state_get_json EventTypes.Member authorising_user auth_events in
    let* _ := room_id e in
    _check_joined_room member_event ;;;
    let* authorising_user := jstr_attr authorising_user in
    let* authorising_user_level := get_user_power_level authorising_user auth_events in
    if authorising_user_level <? invite_level mc then
      Err (AuthError 403 "Join event authorised by invalid server.")
    else Ok tt.

(** Lines 661-719. *)
Definition check_join (room_version : RoomVersion) (e : event) (auth_events : StateMap event)
    (mc : membership_context) : result unit :=
  let rule r := jeqs (join_rule mc) r in
  if negb (bool_decide (user_id e = target_user_id mc)) then
    Err (AuthError 403 "Cannot force another user to join.")
  else if target_banned mc then Err (AuthError 403 "You are banned from this room")
  else if rule JoinRules.PUBLIC then Ok tt
  else if (restricted_join_rule room_version && rule JoinRules.RESTRICTED)
       || (knock_restricted_join_rule room_version && rule JoinRules.KNOCK_RESTRICTED) then
    if negb (caller_in_room mc) && negb (caller_invited mc)
    then check_authorised_join e auth_events mc
    else Ok tt
  else if rule JoinRules.INVITE
       || (knock_join_rule room_version && rule JoinRules.KNOCK)
       || (knock_restricted_join_rule room_version && rule JoinRules.KNOCK_RESTRICTED) then
    if negb (caller_in_room mc || caller_invited mc) then
      Err (AuthError 403 "You are not invited to this room.")
    else Ok tt
  else Err (AuthError 403 "You are not allowed to join this room").

(** Lines 720-736. *)
Definition check_leave (e : event) (auth_events : StateMap event) (mc : membership_context)
    : result unit :=
  if target_banned mc && (user_level mc <? ban_level mc) then
    Err (UnstableSpecAuthError 403 "You cannot unban user %s." Codes.INSUFFICIENT_POWER)
  else if negb (bool_decide (target_user_id mc = user_id e)) then
    let* kick_level := get_named_level auth_events "kick" 50 in
    if (user_level mc <? kick_level) || (user_level mc <=? target_level mc) then
      Err (UnstableSpecAuthError 403 "You cannot kick user %s." Codes.INSUFFICIENT_POWER)
    else Ok tt
  else Ok tt.

(** Lines 737-749. *)
Definition check_ban (mc : membership_context) : result unit :=
  if user_level mc <? ban_level mc then
    Err (UnstableSpecAuthError 403 "You don't have permission to ban" Codes.INSUFFICIENT_POWER)
  else if user_level mc <=? target_level mc then
    Err (UnstableSpecAuthError 403 "You don't have permission to ban this user"
           Codes.INSUFFICIENT_POWER)
  else Ok tt.

(** Lines 750-767. *)
Definition check_knock (room_version : RoomVersion) (e : event) (mc : membership_context)
    : result unit :=
  let rule r := jeqs (join_rule mc) r in
  if negb (rule JoinRules.KNOCK)
     && (negb (knock_restricted_join_rule room_version) || negb (rule JoinRules.KNOCK_RESTRICTED))
  then Err (AuthError 403 "You don't have permission to knock")
  else if negb (bool_decide (target_user_id mc = user_id e)) then
    Err (AuthError 403 "You cannot knock for other users")
  else if target_in_room mc then
    Err (UnstableSpecAuthError 403 "You cannot knock on a room you are already in"
           Codes.ALREADY_JOINED)
  else if caller_invited mc then Err (AuthError 403 "You are already invited to this room")
  else if target_banned mc then Err (AuthError 403 "You are banned from this room")
  else Ok tt.

(** Lines 641-769: the branch on the new membership. *)
Definition check_membership_branch (room_version : RoomVersion) (e : event)
    (auth_events : StateMap event) (ms : json) (mc : membership_context) : result unit :=
  if jeqs ms Membership.INVITE then check_invite mc
  else if jeqs ms Membership.JOIN then check_join room_version e auth_events mc
  else if jeqs ms Membership.LEAVE then check_leave e auth_events mc
  else if jeqs ms Membership.BAN then check_ban mc
  else if knock_join_rule room_version && jeqs ms Membership.KNOCK
  then check_knock room_version e mc
  else Err (AuthError 500 "Unknown membership %s").

(** Lines 624-639: may the caller change a membership at all?  [true] is an early return. *)
Definition check_caller_present (e : event) (ms : json) (mc : membership_context)
    : result bool :=
  if negb (jeqs ms Membership.JOIN) && negb (jeqs ms Membership.KNOCK) then
    if (caller_invited mc || caller_knocked mc) && jeqs ms Membership.LEAVE
       && bool_decide (target_user_id mc = user_id e) then Ok true
    else if negb (caller_in_room mc) then
      let* _ := room_id e in
      Err (UnstableSpecAuthError 403 "%s not in room %s." Codes.NOT_JOINED)
    else Ok false
  else Ok false.

Definition _is_membership_change_allowed `{SignedJson} (room_version : RoomVersion)
    (e : event) (auth_events : StateMap event) : result unit :=
  let* ms := membership e in
  let* first_join := is_creator_first_join room_version e ms auth_events in
  if (first_join : bool) then Ok tt
  else
    let* mc := get_membership_context room_version e auth_events in
    if jeqs ms Membership.INVITE && dmem "third_party_invite" (content e) then
      let* verified := _verify_third_party_invite e auth_events in
      if negb verified then Err (AuthError 403 "You are not invited to this room.")
      else if target_banned mc then Err (AuthError 403 "%s is banned from the room")
      else Ok tt
    else
      let* done := check_caller_present e ms mc in
      if (done : bool) then Ok tt
      else check_membership_branch room_version e auth_events ms mc.
