(* ===== verification/EventAuth.v ===== *)
(** * EventAuth: the event authorization rules (event_auth.py)

    The entry points: the checks on a single event ([validate_event_for_room_version],
    [_check_size_limits], [_check_create]), the state-independent rules, the selection of
    auth events and the state-dependent rules. *)
From S2P Require Import Prelude PyVal RoomVersionTable Identifiers Events EventAuthLevels.
From S2P Require Import SetkaChannels EventAuthPower EventAuthMembership.
Open Scope string_scope.
Open Scope list_scope.
Open Scope Z_scope.
Open Scope py_scope.

(** canonicaljson: [len(encode_canonical_json(event.get_pdu_json()))]. *)
Class CanonicalJson := pdu_json_size : event -> Z.

(** ** Size limits and signatures *)

Definition LENIENT_EVENT_BYTE_LIMITS_ROOM_VERSIONS : list RoomVersion :=
  [RoomVersions.V1; RoomVersions.V2; RoomVersions.V3; RoomVersions.V4; RoomVersions.V5;
   RoomVersions.V6; RoomVersions.V7; RoomVersions.V8; RoomVersions.V9; RoomVersions.V10;
   RoomVersions.MSC1767v10; RoomVersions.MSC3757v10].

Definition size_check (size : Z) (msg : string) (unpersistable : bool) : result unit :=
  if 255 <? size then Err (EventSizeError msg unpersistable) else Ok tt.

Definition _check_size_limits `{CanonicalJson} (e : event) : result unit :=
  if MAX_PDU_SIZE <? pdu_json_size e then Err (EventSizeError "event too large" true)
  else
    let state_key_size len := match get_state_key e with Some k => len k | None => 0 end in
    size_check (utf8_len (user_id e)) "'user_id' too large" true ;;;
    let* r := room_id e in
    size_check (utf8_len r) "'room_id' too large" true ;;;
    size_check (state_key_size utf8_len) "'state_key' too large" true ;;;
    size_check (utf8_len (type e)) "'type' too large" true ;;;
    size_check (utf8_len (event_id e)) "'event_id' too large" true ;;;
    let strict_byte_limits :=
      negb (bool_decide (room_version e ∈ LENIENT_EVENT_BYTE_LIMITS_ROOM_VERSIONS)) in
    size_check (str_len (user_id e)) "'user_id' too large" strict_byte_limits ;;;
    size_check (str_len r) "'room_id' too large" strict_byte_limits ;;;
    size_check (state_key_size str_len) "'state_key' too large" strict_byte_limits ;;;
    size_check (str_len (type e)) "'type' too large" strict_byte_limits ;;;
    size_check (str_len (event_id e)) "'event_id' too large" strict_byte_limits.

(** [event.signatures.get(domain)] is neither None nor empty. *)
Definition signed_by (e : event) (domain : string) : bool :=
  match dget domain (signatures e) with Some (_ :: _) => true | _ => false end.

Definition has_membership (e : event) (ms : string) : result bool :=
  if bool_decide (type e = EventTypes.Member) then
    let* m := membership e in Ok (jeqs m ms)
  else Ok false.

Definition validate_event_for_room_version `{CanonicalJson} (e : event) : result unit :=
  _check_size_limits e ;;;
  let* _ := room_id e in
  let* sender_domain := get_domain_from_id (sender e) in
  let* is_invite := has_membership e Membership.INVITE in
  let is_invite_via_3pid := is_invite && dmem "third_party_invite" (content e) in
  (if negb (signed_by e sender_domain) && negb is_invite_via_3pid
   then Err (AuthError 403 "Event not signed by sender's server") else Ok tt) ;;;
  (if format_version e =? EventFormatVersions.ROOM_V1_V2 then
     let* event_id_domain := get_domain_from_id (event_id e) in
     if negb (signed_by e event_id_domain)
     then Err (AuthError 403 "Event not signed by sending server") else Ok tt
   else Ok tt) ;;;
  let* is_join :=
    if restricted_join_rule (room_version e) then has_membership e Membership.JOIN else Ok false in
  match dget EventContentFields.AUTHORISING_USER (content e) with
  | Some authoriser =>
      if (is_join : bool) then
        let* authoriser := jstr_attr authoriser in
        let* authoriser_domain := get_domain_from_id authoriser in
        if negb (signed_by e authoriser_domain)
        then Err (AuthError 403 "Event not signed by authorising server") else Ok tt
      else Ok tt
  | None => Ok tt
  end.

(** ** Create events *)

Definition check_valid_additional_creators `{Netaddr} (additional_creators : json) : result unit :=
  match additional_creators with
  | JList entries =>
      rforall (fun entry =>
        match entry with
        | JStr s =>
            if negb (UserID.is_valid s) then
              Err (AuthError 400 "entry in additional_creators is not a valid user ID")
            else if (255 <? utf8_len s) || (255 <? str_len s) then
              Err (AuthError 400 "entry in additional_creators too long")
            else Ok tt
        | _ => Err (AuthError 400 "entry in additional_creators is not a string")
        end) entries
  | _ => Err (AuthError 400 "additional_creators must be an array")
  end.

(** [room_version_prop in KNOWN_ROOM_VERSIONS] *)
Definition is_known_room_version (j : json) : result bool :=
  if hashable j then
    Ok (match j with JStr s => dmem s KNOWN_ROOM_VERSIONS | _ => false end)
  else Err TypeError.

Definition _check_create `{Netaddr} (e : event) : result unit :=
  if negb (bool_decide (type e = EventTypes.Create)) then Err AssertionError
  else if negb (bool_decide (prev_event_ids e = [])) then
    Err (AuthError 403 "Create event has prev events")
  else
    (if msc4291_room_ids_as_hashes (room_version e) then
       match room_id_field e with
       | Some _ => Err (AuthError 403 "Create event has a room_id")
       | None => Ok tt
       end
     else
       let* sender_domain := get_domain_from_id (sender e) in
       let* r := room_id e in
       let* room_id_domain := get_domain_from_id r in
       if negb (bool_decide (room_id_domain = sender_domain)) then
         Err (AuthError 403 "Creation event's room_id domain does not match sender's")
       else Ok tt) ;;;
    let* known := is_known_room_version (oget (content e) "room_version" (JStr "1")) in
    if negb known then Err (AuthError 403 "room appears to have unsupported version %s")
    else if negb (implicit_room_creator (room_version e))
            && negb (dmem EventContentFields.ROOM_CREATOR (content e)) then
      Err (AuthError 403 "Create event lacks a 'creator' property")
    else if msc4289_creator_power_enabled (room_version e) then
      match dget EventContentFields.ADDITIONAL_CREATORS (content e) with
      | Some creators => check_valid_additional_creators creators
      | None => Ok tt
      end
    else Ok tt.

(** ** The auth events selection

    The set of keys, as a list; a key whose second part is a hashable value other than a
    string equals no event's key and is left out. *)
Definition add_auth_type (etype : string) (key : json) (auth_types : list StateKey)
    : result (list StateKey) :=
  match key with
  | JStr k => Ok (auth_types ++ [(etype, k)])
  | _ => if hashable key then Ok auth_types else Err TypeError
  end.

Definition member_auth_types (room_version : RoomVersion) (e : event)
    (auth_types : list StateKey) : result (list StateKey) :=
  let* ms := membership e in
  let auth_types :=
    if existsb (jeqs ms) [Membership.JOIN; Membership.INVITE; Membership.KNOCK]
    then auth_types ++ [(EventTypes.JoinRules, "")] else auth_types in
  let* sk := state_key e in
  let auth_types := auth_types ++ [(EventTypes.Member, sk)] in
  let* auth_types :=
    match dget "third_party_invite" (content e) with
    | Some tpi =>
        if jeqs ms Membership.INVITE then
          let* signed := py_getitem tpi (JStr "signed") in
          let* token := py_getitem signed (JStr "token") in
          add_auth_type EventTypes.ThirdPartyInvite token auth_types
        else Ok auth_types
    | None => Ok auth_types
    end in
  match dget EventContentFields.AUTHORISING_USER (content e) with
  | Some authoriser =>
      if restricted_join_rule room_version && jeqs ms Membership.JOIN
      then add_auth_type EventTypes.Member authoriser auth_types
      else Ok auth_types
  | None => Ok auth_types
  end.

Definition auth_types_for_event (room_version : RoomVersion) (e : event)
    : result (list StateKey) :=
  if bool_decide (type e = EventTypes.Create) then Ok []
  else
    let auth_types :=
      [(EventTypes.PowerLevels, ""); (EventTypes.Member, sender e); (EventTypes.Create, "")] in
    if bool_decide (type e = EventTypes.Member)
    then member_auth_types room_version e auth_types
    else Ok auth_types.

(** ** State-independent rules

    [store id] is what [store.get_events] finds for an event ID; the ChainMap looks up the
    events fetched from the store before the batch's. *)
Definition find_auth_event (store : string -> option event)
    (batched_auth_events : list (string * event)) (id : string) : option event :=
  match batched_auth_events with
  | [] => store id
  | _ =>
      match dget id batched_auth_events with
      | Some ev => Some ev
      | None => store id
      end
  end.

(** The loop body of lines 223-271; the accumulator is [auth_dict]. *)
Definition check_auth_event (find : string -> option event) (room : string)
    (expected_auth_types : list StateKey) (auth_dict : StateMap string) (auth_event_id : string)
    : result (StateMap string) :=
  match find auth_event_id with
  | None => Err (RuntimeError "Event {event.event_id} has unknown auth event {auth_event_id}")
  | Some auth_event =>
      let* auth_room := room_id auth_event in
      if negb (bool_decide (auth_room = room)) then
        Err (AuthError 403
          "During auth for event %s in room %s, found event %s in the state which is in room %s")
      else
        let* k := event_key auth_event in
        if dmem k auth_dict then
          Err (AuthError 403
            "Event {event.event_id} has duplicate auth_events for {k}: {auth_dict[k]} and {auth_event_id}")
        else if negb (bool_decide (k ∈ expected_auth_types)) then
          Err (AuthError 403
            "Event {event.event_id} has unexpected auth_event for {k}: {auth_event_id}")
        else if match rejected_reason auth_event with
                | Some r => negb (String.eqb r "") | None => false end then
          Err (AuthError 403 "During auth for event %s: found rejected event %s in the state")
        else Ok (dset k auth_event_id auth_dict)
  end.

Definition check_state_independent_auth_rules `{Netaddr} (store : string -> option event)
    (e : event) (batched_auth_events : list (string * event)) : result unit :=
  if bool_decide (type e = EventTypes.Create) then _check_create e
  else
    let* ids := auth_event_ids e in
    let* room := room_id e in
    let* expected_auth_types := auth_types_for_event (room_version e) e in
    let* auth_dict :=
      rfold (check_auth_event (find_auth_event store batched_auth_events) room
               expected_auth_types) [] ids in
    match dget CREATE_KEY auth_dict with
    | Some creation_event =>
        if String.eqb creation_event "" then Err (AuthError 403 "No create event in auth events")
        else Ok tt
    | None => Err (AuthError 403 "No create event in auth events")
    end.

(** ** State-dependent rules *)

(** [{(e.type, e.state_key): e for e in auth_events}] *)
Definition make_auth_dict (auth_events : list event) : result (StateMap event) :=
  rfold (fun d a => let* k := event_key a in Ok (dset k a d)) [] auth_events.

(** Lines 326-346: [m.room.aliases] in the versions that special-case it. *)
Definition check_aliases (e : event) : result unit :=
  match get_state_key e with
  | None => Err (AuthError 403 "Alias event must be a state event")
  | Some sk =>
      if String.eqb sk "" then Err (AuthError 403 "Alias event must have non-empty state_key")
      else
        let* sender_domain := get_domain_from_id (sender e) in
        if negb (bool_decide (sk = sender_domain)) then
          Err (AuthError 403 "Alias event's state_key does not match sender's domain")
        else Ok tt
  end.

(** Lines 354-379: every other event, from a sender in the room.  The result is whether
    the event was marked for a later redaction check. *)
Definition check_sender_rules `{Netaddr, PyRepr, SetOrder} (e : event)
    (auth_dict : StateMap event) : result bool :=
  _check_event_sender_in_room e auth_dict ;;;
  if bool_decide (type e = EventTypes.ThirdPartyInvite) then
    let* user_level := get_user_power_level (user_id e) auth_dict in
    let* invite_level := get_named_level auth_dict "invite" 0 in
    if user_level <? invite_level then
      Err (UnstableSpecAuthError 403 "You don't have permission to invite users"
             Codes.INSUFFICIENT_POWER)
    else Ok false
  else
    let* _ := _can_send_event e auth_dict in
    (if bool_decide (type e = EventTypes.PowerLevels)
     then _check_power_levels (room_version e) e auth_dict else Ok tt) ;;;
    if bool_decide (type e = EventTypes.Redaction) then
      let* (_, recheck) := check_redaction (room_version e) e auth_dict in
      Ok recheck
    else Ok false.

(** The rules on the dictionary of auth events (lines 311-381). *)
Definition check_rules `{Netaddr, PyRepr, SetOrder, SignedJson} (e : event)
    (auth_dict : StateMap event) : result bool :=
  match dget CREATE_KEY auth_dict with
  | None => Err (AuthError 403 "Event {event.event_id} is missing a create event in auth_events.")
  | Some create_event =>
      let* creating_domain := get_domain_from_id (sender create_event) in
      let* originating_domain := get_domain_from_id (sender e) in
      if negb (bool_decide (creating_domain = originating_domain))
         && negb (_can_federate auth_dict) then
        Err (AuthError 403 "This room has been marked as unfederatable.")
      else if bool_decide (type e = EventTypes.Aliases)
              && special_case_aliases_auth (room_version e) then
        check_aliases e ;;; Ok false
      else if bool_decide (type e = EventTypes.Member) then
        _is_membership_change_allowed (room_version e) e auth_dict ;;; Ok false
      else check_sender_rules e auth_dict
  end.

Definition check_state_dependent_auth_rules `{Netaddr, PyRepr, SetOrder, SignedJson}
    (e : event) (auth_events : list event) : result bool :=
  if bool_decide (type e = EventTypes.Create) then Ok false
  else
    let* auth_dict := make_auth_dict auth_events in
    check_rules e auth_dict.
