(* ===== verification/EventAuthTotal.v ===== *)
(** * EventAuthTotal: the auth rules never run out of fuel

    [OutOfFuel] stands for a loop of the model that was cut off, not for a Python exception.
    The auth rules contain no such loop; the tactic [nofuel] shows it by walking through a
    definition, with the lemmas of the database [nofuel] for the functions it calls. *)
From S2P Require Import Prelude PyVal RoomVersionTable Identifiers Events EventAuthLevels.
From S2P Require Import SetkaChannels EventAuthPower EventAuthMembership EventAuth.
Open Scope string_scope.
Open Scope list_scope.
Open Scope Z_scope.
Open Scope py_scope.

Definition no_fuel {A} (r : result A) : Prop := r <> Err OutOfFuel.

(** ** The combinators *)

Lemma nf_ok {A} (a : A) : no_fuel (Ok a).
Proof. done. Qed.

Lemma nf_bind {A B} (c : result A) (k : A -> result B) :
  no_fuel c -> (forall a, no_fuel (k a)) -> no_fuel (rbind c k).
Proof. intros Hc Hk. destruct c as [a|e]; [apply Hk|]. by intros [= ->]. Qed.

Lemma nf_rfold {A S} (f : S -> A -> result S) l s :
  (forall s x, no_fuel (f s x)) -> no_fuel (rfold f s l).
Proof.
  intros Hf. revert s. induction l as [|x l IH]; intros s; [done|]. by apply nf_bind.
Qed.

Lemma nf_rmap {A B} (f : A -> result B) l : (forall x, no_fuel (f x)) -> no_fuel (rmap f l).
Proof.
  intros Hf. induction l as [|x l IH]; [done|]. apply nf_bind; [done|]. intros b.
  by apply nf_bind.
Qed.

Lemma nf_rforall {A} (f : A -> result unit) l : (forall x, no_fuel (f x)) -> no_fuel (rforall f l).
Proof. intros Hf. induction l as [|x l IH]; [done|]. by apply nf_bind. Qed.

Lemma nf_rexists {A} (f : A -> result bool) l : (forall x, no_fuel (f x)) -> no_fuel (rexists f l).
Proof.
  intros Hf. induction l as [|x l IH]; [done|]. apply nf_bind; [done|]. by intros [].
Qed.

Create HintDb nofuel discriminated.
#[export] Hint Resolve nf_ok nf_rfold nf_rmap nf_rforall nf_rexists : nofuel.

(** One step through a definition. *)
Ltac nofuel_step :=
  match goal with
  | |- forall _, _ => intros ?
  | |- no_fuel (Ok _) => apply nf_ok
  | |- no_fuel (Err _) => solve [intros [=]]
  | Hr : ?r = Err ?e |- no_fuel (Err ?e) =>
      let Hn := fresh in
      assert (Hn : no_fuel r) by (solve [eauto with nofuel]);
      intros [=]; subst; exact (Hn Hr)
  | |- no_fuel (rbind _ _) => apply nf_bind; [|intros ?]
  | |- no_fuel (rfold _ _ _) => apply nf_rfold
  | |- no_fuel (rmap _ _) => apply nf_rmap
  | |- no_fuel (rforall _ _) => apply nf_rforall
  | |- no_fuel (rexists _ _) => apply nf_rexists
  | |- no_fuel (match ?x with _ => _ end) => destruct x eqn:?
  | |- no_fuel (match ?x with _ => _ end _) => destruct x eqn:?
  | |- no_fuel _ => solve [eauto with nofuel]
  end.
Ltac nofuel := repeat (cbn beta zeta; nofuel_step).

(** ** Python values *)

Lemma nf_py_getitem c k : no_fuel (py_getitem c k).
Proof. unfold py_getitem, py_index. nofuel. Qed.
#[export] Hint Resolve nf_py_getitem : nofuel.

Lemma nf_py_int j : no_fuel (py_int j).
Proof. unfold py_int, int_of_str. nofuel. Qed.
#[export] Hint Resolve nf_py_int : nofuel.

Lemma nf_py_list j : no_fuel (py_list j).
Proof. unfold py_list. nofuel. Qed.
#[export] Hint Resolve nf_py_list : nofuel.

Lemma nf_py_set l : no_fuel (py_set l).
Proof. unfold py_set. nofuel. Qed.
#[export] Hint Resolve nf_py_set : nofuel.

Lemma nf_py_in k c : no_fuel (py_in k c).
Proof. unfold py_in. nofuel. Qed.
#[export] Hint Resolve nf_py_in : nofuel.

Lemma nf_jget j k d : no_fuel (jget j k d).
Proof. unfold jget. nofuel. Qed.
#[export] Hint Resolve nf_jget : nofuel.

Lemma nf_ogetitem o k : no_fuel (ogetitem o k).
Proof. unfold ogetitem. nofuel. Qed.
#[export] Hint Resolve nf_ogetitem : nofuel.

Lemma nf_jitems j : no_fuel (jitems j).
Proof. unfold jitems. nofuel. Qed.
#[export] Hint Resolve nf_jitems : nofuel.

Lemma nf_jstr_attr j : no_fuel (jstr_attr j).
Proof. unfold jstr_attr. nofuel. Qed.
#[export] Hint Resolve nf_jstr_attr : nofuel.

(** ** Events *)

Lemma nf_state_key e : no_fuel (state_key e).
Proof. unfold state_key. nofuel. Qed.
#[export] Hint Resolve nf_state_key : nofuel.

Lemma nf_event_key e : no_fuel (event_key e).
Proof. unfold event_key. nofuel. Qed.
#[export] Hint Resolve nf_event_key : nofuel.

Lemma nf_membership e : no_fuel (membership e).
Proof. unfold membership. nofuel. Qed.
#[export] Hint Resolve nf_membership : nofuel.

Lemma nf_room_id e : no_fuel (room_id e).
Proof. unfold room_id, room_id_v4, room_id_of_dict. nofuel. Qed.
#[export] Hint Resolve nf_room_id : nofuel.

Lemma nf_auth_event_ids e : no_fuel (auth_event_ids e).
Proof. unfold auth_event_ids, auth_event_ids_v4. nofuel. Qed.
#[export] Hint Resolve nf_auth_event_ids : nofuel.

Lemma nf_is_creator e u : no_fuel (is_creator e u).
Proof. unfold is_creator, in_json_set. nofuel. Qed.
#[export] Hint Resolve nf_is_creator : nofuel.

Lemma nf_get_domain_from_id s : no_fuel (get_domain_from_id s).
Proof. unfold get_domain_from_id. nofuel. Qed.
#[export] Hint Resolve nf_get_domain_from_id : nofuel.

(** ** Levels and power *)

Lemma nf_get_send_level t sk pl : no_fuel (get_send_level t sk pl).
Proof. unfold get_send_level. nofuel. Qed.
#[export] Hint Resolve nf_get_send_level : nofuel.

Lemma nf_get_user_power_level u st : no_fuel (get_user_power_level u st).
Proof. unfold get_user_power_level. nofuel. Qed.
#[export] Hint Resolve nf_get_user_power_level : nofuel.

Lemma nf_get_named_level st n d : no_fuel (get_named_level st n d).
Proof. unfold get_named_level. nofuel. Qed.
#[export] Hint Resolve nf_get_named_level : nofuel.

Lemma nf_threaded c : no_fuel (_is_threaded_content c).
Proof. unfold _is_threaded_content, in_thread_rel_types. nofuel. Qed.
#[export] Hint Resolve nf_threaded : nofuel.

Lemma nf_override `{PyRepr} e st : no_fuel (setka_channel_thread_comment_send_level e st).
Proof. unfold setka_channel_thread_comment_send_level. nofuel. Qed.
#[export] Hint Resolve nf_override : nofuel.

Lemma nf_state_key_owner `{Netaddr} s : no_fuel (state_key_owner s).
Proof. unfold state_key_owner. nofuel. Qed.
#[export] Hint Resolve nf_state_key_owner : nofuel.

Lemma nf_can_send_event `{Netaddr, PyRepr} e st : no_fuel (_can_send_event e st).
Proof. unfold _can_send_event. nofuel. Qed.
#[export] Hint Resolve nf_can_send_event : nofuel.

Lemma nf_check_redaction rv e st : no_fuel (check_redaction rv e st).
Proof. unfold check_redaction. nofuel. Qed.
#[export] Hint Resolve nf_check_redaction : nofuel.

Lemma nf_check_power_levels `{SetOrder} rv e st : no_fuel (_check_power_levels rv e st).
Proof.
  unfold _check_power_levels, check_creators_not_in_users, levels_to_check, merged_keys.
  nofuel; unfold check_user_entry, check_int_levels, check_level_change, level_at; nofuel.
Qed.
#[export] Hint Resolve nf_check_power_levels : nofuel.

(** ** Membership *)

(** The signature library raises its documented exceptions. *)
Class SignedJsonLaws `{SignedJson} := {
  verify_signed_json_raises : forall n k o s, verify_signed_json n k o s <> Err OutOfFuel
}.

Section membership.
Context `{Netaddr, PyRepr, SetOrder, SignedJsonLaws}.

Lemma nf_verify_with_key signed k : no_fuel (verify_with_key signed k).
Proof. unfold verify_with_key. nofuel. apply verify_signed_json_raises. Qed.
#[local] Hint Resolve nf_verify_with_key : nofuel.

Lemma nf_verify_with_keys signed ks : no_fuel (verify_with_keys signed ks).
Proof. induction ks as [|k ks IH]; simpl; nofuel. Qed.
#[local] Hint Resolve nf_verify_with_keys : nofuel.

Lemma nf_third_party e st : no_fuel (_verify_third_party_invite e st).
Proof. unfold _verify_third_party_invite, state_get_json, get_public_keys. nofuel. Qed.
#[local] Hint Resolve nf_third_party : nofuel.

Lemma nf_creator_first_join rv e ms st : no_fuel (is_creator_first_join rv e ms st).
Proof. unfold is_creator_first_join. nofuel. Qed.
#[local] Hint Resolve nf_creator_first_join : nofuel.

Lemma nf_membership_context rv e st : no_fuel (get_membership_context rv e st).
Proof. unfold get_membership_context, membership_of. nofuel. Qed.
#[local] Hint Resolve nf_membership_context : nofuel.

Lemma nf_joined_room m : no_fuel (_check_joined_room m).
Proof. unfold _check_joined_room. nofuel. Qed.
#[local] Hint Resolve nf_joined_room : nofuel.

Lemma nf_membership_branch rv e ms st mc : no_fuel (check_membership_branch rv e ms st mc).
Proof.
  unfold check_membership_branch, check_invite, check_join, check_leave, check_ban, check_knock,
    check_authorised_join, state_get_json. nofuel.
Qed.
#[local] Hint Resolve nf_membership_branch : nofuel.

Lemma nf_membership_change rv e st : no_fuel (_is_membership_change_allowed rv e st).
Proof. unfold _is_membership_change_allowed, check_caller_present. nofuel. Qed.
#[local] Hint Resolve nf_membership_change : nofuel.

(** ** The rules *)

Lemma nf_auth_types rv e : no_fuel (auth_types_for_event rv e).
Proof. unfold auth_types_for_event, member_auth_types, add_auth_type. nofuel. Qed.

Lemma nf_check_rules e st : no_fuel (check_rules e st).
Proof.
  unfold check_rules, check_aliases, check_sender_rules, _check_event_sender_in_room. nofuel.
Qed.
#[local] Hint Resolve nf_check_rules : nofuel.

Lemma nf_state_dependent e auth : no_fuel (check_state_dependent_auth_rules e auth).
Proof. unfold check_state_dependent_auth_rules, make_auth_dict. nofuel. Qed.
End membership.
#[export] Hint Resolve nf_auth_types nf_state_dependent : nofuel.
