(* ===== verification/Samples.v ===== *)
(** * Samples: instances and small rooms for the witnesses

    Concrete values for the parameters of the model, and builders for the rooms and events
    on which the theorems' hypotheses are shown to hold. *)
From S2P Require Import Prelude PyVal RoomVersionTable Identifiers Events EventAuthLevels.
From S2P Require Import SetkaChannels EventAuthPower EventAuthMembership EventAuth.
Open Scope string_scope.
Open Scope list_scope.
Open Scope Z_scope.

(** No IPv6 literal is valid; [repr] is empty; sets iterate in insertion order; every
    signature verifies; every event has 1000 bytes. *)
Definition sample_netaddr : Netaddr := fun _ => false.
Definition sample_repr : PyRepr := fun _ => "".
#[refine] Definition sample_order : SetOrder := {| set_iter := fun A l => l |}.
Proof. reflexivity. Defined.
Definition sample_signed : SignedJson := fun _ _ _ _ => Ok tt.
Definition sample_canonical : CanonicalJson := fun _ => 1000.

#[export] Existing Instances sample_netaddr sample_repr sample_order sample_signed sample_canonical.

(** An event of room version [rv] with the given ID, type, sender, state key and content. *)
Definition mk_event (rv : RoomVersion) (id ty snd : string) (sk : option string) (c : obj)
    (prevs auths : list string) : event := {|
  room_version := rv;
  event_id_field := id;
  reference_hash := id;
  type := ty;
  sender := snd;
  state_key_field := sk;
  room_id_field := Some "!r:a";
  content := c;
  prev_events := prevs;
  auth_events_field := auths;
  redacts_field := JNull;
  depth := 1;
  origin_server_ts := 1;
  signatures := [("a", [("ed25519:1", "sig")])];
  rejected_reason := None |}.

Definition rv11 := RoomVersions.V11.

Definition ev_create : event :=
  mk_event rv11 "create" EventTypes.Create "@admin:a" (Some "") [("room_version", JStr "11")] [] [].
Definition ev_member (u ms : string) : event :=
  mk_event rv11 ("m" ++ u) EventTypes.Member u (Some u) [("membership", JStr ms)] ["$x"] ["$create"].
Definition ev_power (id snd : string) (users : obj) : event :=
  mk_event rv11 id EventTypes.PowerLevels snd (Some "") [("users", JObj users)] ["$x"] ["$create"].
Definition ev_message (snd : string) (c : obj) : event :=
  mk_event rv11 "msg" "m.room.message" snd None c ["$x"] ["$create"].

Definition pl_old : event :=
  ev_power "pl1" "@admin:a" [("@admin:a", JInt 100); ("@mod:a", JInt 50)].

Definition state_of (l : list event) : StateMap event :=
  match make_auth_dict l with Ok d => d | Err _ => [] end.

Definition room1 : StateMap event :=
  state_of [ev_create; ev_member "@admin:a" "join"; ev_member "@mod:a" "join"; pl_old].
