(* ===== verification/EventAuthPowerSafety.v ===== *)
(** * EventAuthPowerSafety: power-level changes cannot escalate

    What [_check_power_levels] guarantees about the levels before and after the change,
    for every iteration order of the key sets. *)
From S2P Require Import Prelude PyVal RoomVersionTable Identifiers Events EventAuthLevels.
From S2P Require Import SetkaChannels EventAuthPower Samples.
Open Scope string_scope.
Open Scope list_scope.
Open Scope Z_scope.
Open Scope py_scope.

(** ** Sets of keys *)

Lemma py_eqb_str s j : py_eqb j (JStr s) = jeqs j s.
Proof. destruct j; simpl; try done. by destruct f. Qed.

Lemma dedup_str s l : JStr s ∈ l -> JStr s ∈ dedup l.
Proof.
  induction l as [|x l IH]; simpl; [done|]. intros [->|Hin]%elem_of_cons; [by left|].
  destruct (jeqs x s) eqn:Hx.
  - destruct x; try discriminate. simpl in Hx; boolify; subst. by left.
  - right. apply list_elem_of_filter; split; [|auto]. by rewrite py_eqb_str.
Qed.

Lemma merged_keys_mem `{SetOrder} o n od nd ks s :
  merged_keys o n = Ok ks -> o = JObj od -> n = JObj nd ->
  dmem s od = true \/ dmem s nd = true -> JStr s ∈ ks.
Proof.
  unfold merged_keys, py_set. intros Hm -> -> Hl. simpl in Hm.
  destruct (forallb _ _); [|done]. injection Hm as <-.
  rewrite set_iter_perm. apply dedup_str, elem_of_app.
  assert (Hd : forall d : obj, dmem s d = true -> JStr s ∈ map (fun p : string * json => JStr p.1) d).
  { intros d Hd%dmem_true. apply list_elem_of_fmap in Hd as (p & -> & Hp).
    apply list_elem_of_fmap. eauto. }
  destruct Hl; auto.
Qed.

(** ** One level *)

Definition le_opt (o : option Z) (n : Z) : Prop := match o with Some m => m <= n | None => True end.

(** The rule for one level of the power-levels event, before ([o]) and after ([n]): it is
    unchanged, or neither value is above the sender's level [lvl] and, for another user's
    level, the old value is not the sender's own. *)
Definition level_rule (lvl : Z) (is_peer : Prop) (o n : option Z) : Prop :=
  o = n \/ (le_opt o lvl /\ le_opt n lvl /\ (is_peer -> o <> Some lvl)).

Lemma gtb_opt_false o n : gtb_opt o n = false <-> le_opt o n.
Proof. destruct o; simpl; [rewrite Z.ltb_ge|]; naive_solver. Qed.

Lemma check_level_change_ok user lvl oc nc level dir :
  check_level_change user lvl oc nc (level, dir) = Ok tt <->
  exists o n, level_at (sub_loc oc dir) level = Ok o /\ level_at (sub_loc nc dir) level = Ok n /\
    level_rule lvl (dir = Some "users" /\ jeqs level user = false) o n.
Proof.
  unfold check_level_change, level_rule. destruct (level_at (sub_loc oc dir) level) as [o|]; simpl;
    [|naive_solver].
  destruct (level_at (sub_loc nc dir) level) as [n|]; simpl; [|naive_solver].
  destruct (match o, n with Some o, Some n => n =? o | _, _ => false end) eqn:Heq.
  - destruct o, n; try discriminate. boolify; subst. naive_solver.
  - assert (Hne : o = n -> o = None /\ n = None).
    { intros ->. destruct n; [|done]. by rewrite Z.eqb_refl in Heq. }
    destruct (bool_decide (dir = Some "users") && negb (jeqs level user)
              && bool_decide (o = Some lvl)) eqn:Hp.
    + boolify. split; [done|]. intros (? & ? & [= <-] & [= <-] & [?|(? & ? & Hpeer)]).
      * naive_solver.
      * exfalso. apply Hpeer; tauto.
    + destruct (gtb_opt o lvl || gtb_opt n lvl) eqn:Hbig.
      * split; [done|]. intros (? & ? & [= <-] & [= <-] & [Hon|(Ho & Hn & _)]).
        -- by destruct (Hne Hon) as [-> ->].
        -- apply gtb_opt_false in Ho, Hn. by rewrite Ho, Hn in Hbig.
      * boolify. rewrite !gtb_opt_false in Hbig. split; [intros _|done].
        exists o, n. split_and!; try done. right. split_and!; try tauto.
        intros [Hd Hj] ->. destruct Hp as [[?|?]|?]; congruence.
Qed.

(** ** The levels that are compared *)

Lemma levels_to_check_named `{SetOrder} rv oc nc levels k :
  levels_to_check rv oc nc = Ok levels -> k ∈ int_level_keys -> (JStr k, None) ∈ levels.
Proof.
  unfold levels_to_check. intros Hl Hk. ok_inv.
  apply elem_of_app; left. apply list_elem_of_fmap. eauto.
Qed.

Lemma levels_to_check_users `{SetOrder} rv oc nc levels :
  levels_to_check rv oc nc = Ok levels ->
  exists ks, merged_keys (oget oc "users" (JObj [])) (oget nc "users" (JObj [])) = Ok ks /\
    forall k, k ∈ ks -> (k, Some "users") ∈ levels.
Proof.
  unfold levels_to_check. intros Hl. apply rbind_ok in Hl as (users & Hu & Hl).
  apply rbind_ok in Hu as (ks & Hks & [= <-]). exists ks; split; [done|].
  intros k Hk. ok_inv.
  apply elem_of_app; right. apply elem_of_app; left. apply list_elem_of_fmap. eauto.
Qed.

(** Looking up one level of a dictionary of levels. *)
Lemma level_at_obj d k :
  level_at (JObj d) (JStr k) =
  match dget k d with Some v => let* n := py_int v in Ok (Some n) | None => Ok None end.
Proof. unfold level_at; simpl. unfold dmem. destruct (dget k d); simpl; [|done]. done. Qed.

Lemma level_at_present d k :
  dmem k d = true -> (exists o, level_at (JObj d) (JStr k) = Ok o) ->
  exists v, level_at (JObj d) (JStr k) = Ok (Some v).
Proof.
  rewrite level_at_obj. unfold dmem. destruct (dget k d) as [v|]; [|done].
  intros _ [o Ho]. destruct (py_int v); simpl in *; [eauto | done].
Qed.

(** ** The accepted change *)

Section accepted.
Context `{SetOrder}.
Context (rv : RoomVersion) (e : event) (auth : StateMap event) (cur : event) (lvl : Z).
Hypothesis Haccepted : _check_power_levels rv e auth = Ok tt.
Hypothesis Hkey : state_key_field e = Some "".
Hypothesis Htype : type e = EventTypes.PowerLevels.
Hypothesis Hcur : dget POWER_KEY auth = Some cur.
Hypothesis Hlvl : get_user_power_level (user_id e) auth = Ok lvl.

Definition users_before := oget (content cur) "users" (JObj []).
Definition users_after := oget (content e) "users" (JObj []).

(** What acceptance establishes, in one place. *)
Lemma accepted_facts :
  exists levels user_list,
    users_after = JObj user_list /\
    rforall check_user_entry user_list = Ok tt /\
    levels_to_check rv (content cur) (content e) = Ok levels /\
    rforall (check_level_change (user_id e) lvl (content cur) (content e)) levels = Ok tt.
Proof.
  unfold _check_power_levels in Haccepted.
  assert (Hk : event_key e = Ok POWER_KEY).
  { apply event_key_ok. by rewrite Hkey, Htype. }
  rewrite Hk, Hlvl in Haccepted. simpl in Haccepted. rewrite Hcur in Haccepted.
  fold users_after in Haccepted.
  destruct users_after as [| | | | | |user_list] eqn:Hu; simpl in Haccepted; try discriminate.
  apply rbind_ok in Haccepted as ([] & Husers & Ha). ok_inv. eauto 10.
Qed.

Lemma accepted_rule level dir levels :
  levels_to_check rv (content cur) (content e) = Ok levels -> (level, dir) ∈ levels ->
  exists o n, level_at (sub_loc (content cur) dir) level = Ok o /\
    level_at (sub_loc (content e) dir) level = Ok n /\
    level_rule lvl (dir = Some "users" /\ jeqs level (user_id e) = false) o n.
Proof.
  intros Hl Hin. destruct accepted_facts as (levels' & ul & _ & _ & Hl' & Hall).
  rewrite Hl in Hl'; injection Hl' as <-.
  apply rforall_ok in Hall. rewrite Forall_forall in Hall.
  by apply check_level_change_ok, Hall.
Qed.

(** The named levels ([ban], [kick], [users_default], ...) obey the rule. *)
Lemma accepted_named k :
  k ∈ int_level_keys ->
  exists o n, level_at (JObj (content cur)) (JStr k) = Ok o /\
    level_at (JObj (content e)) (JStr k) = Ok n /\ level_rule lvl False o n.
Proof.
  intros Hk. destruct accepted_facts as (levels & _ & _ & _ & Hl & _).
  destruct (accepted_rule (JStr k) None levels Hl) as (o & n & Ho & Hn & Hr).
  - by eapply levels_to_check_named.
  - exists o, n. split_and!; try done. unfold level_rule in *. naive_solver.
Qed.

(** Every listed user obeys the rule. *)
Lemma accepted_user u ud :
  users_before = JObj ud ->
  exists o n, level_at users_before (JStr u) = Ok o /\
    level_at users_after (JStr u) = Ok n /\ level_rule lvl (u <> user_id e) o n.
Proof.
  intros Hub. destruct accepted_facts as (levels & ul & Hua & _ & Hl & _).
  destruct (levels_to_check_users _ _ _ _ Hl) as (ks & Hks & Hin).
  destruct (dmem u ud || dmem u ul) eqn:Hd.
  - destruct (accepted_rule (JStr u) (Some "users") levels Hl) as (o & n & Ho & Hn & Hr).
    { apply Hin. eapply merged_keys_mem; eauto. by apply orb_true_iff in Hd. }
    exists o, n. split_and!; try done. unfold level_rule in *. simpl in Hr.
    destruct Hr as [?|(? & ? & Hp)]; [by left|right]. split_and!; try done.
    intros Hne. apply Hp. split; [done|]. by apply bool_decide_eq_false_2.
  - apply orb_false_iff in Hd as [Hd1 Hd2]. unfold dmem in *.
    exists None, None. rewrite Hub, Hua, !level_at_obj.
    destruct (dget u ud), (dget u ul); try done. by repeat split; left.
Qed.
End accepted.

(** ** Effective levels

    The level of a user who is not a creator, read from a power-levels content. *)
Definition effective_default (c : obj) : result Z :=
  let* o := level_at (JObj c) (JStr "users_default") in Ok (default 0 o).

Definition effective_level (c : obj) (u : string) : result Z :=
  let* o := level_at (oget c "users" (JObj [])) (JStr u) in
  match o with Some n => Ok n | None => effective_default c end.

Lemma effective_default_read c d :
  effective_default c = Ok d ->
  let j := oget c "users_default" (JInt 0) in is_none j = false /\ py_int j = Ok d.
Proof.
  unfold effective_default. rewrite level_at_obj. simpl. unfold oget.
  destruct (dget "users_default" c) as [v|] eqn:Hv; simpl.
  - intros H. ok_inv. simpl. by destruct v.
  - intros [= <-]. done.
Qed.

(** With a readable entry for the user and a readable default, [get_user_power_level] is
    the effective level. *)
Lemma get_user_power_level_effective u auth pl ud o d create :
  dget CREATE_KEY auth = Some create -> dget POWER_KEY auth = Some pl ->
  oget (content pl) "users" (JObj []) = JObj ud ->
  level_at (JObj ud) (JStr u) = Ok o -> effective_default (content pl) = Ok d ->
  (if msc4289_creator_power_enabled (room_version create) then is_creator create u else Ok false)
    = Ok false ->
  get_user_power_level u auth = Ok (match o with Some n => n | None => d end).
Proof.
  intros Hc Hp Hu Ho Hd Hcr. unfold get_user_power_level, get_power_level_event.
  rewrite Hc, Hcr, Hp, Hu. simpl. rewrite level_at_obj in Ho.
  change (oget ud u JNull) with (match dget u ud with Some v => v | None => JNull end).
  apply effective_default_read in Hd as [Hn Hd].
  destruct (dget u ud) as [v|]; simpl in *.
  - ok_inv. destruct v; try done.
  - ok_inv. by rewrite Hn, Hd.
Qed.

Lemma get_user_power_level_users u auth pl create old :
  dget CREATE_KEY auth = Some create -> dget POWER_KEY auth = Some pl ->
  get_user_power_level u auth = Ok old ->
  (if msc4289_creator_power_enabled (room_version create) then is_creator create u else Ok false)
    = Ok false ->
  exists ud, oget (content pl) "users" (JObj []) = JObj ud.
Proof.
  intros Hc Hp Ho Hcr. unfold get_user_power_level, get_power_level_event in Ho.
  rewrite Hc, Hcr, Hp in Ho. simpl in Ho. apply rbind_ok in Ho as (j & Hj & _).
  destruct (oget (content pl) "users" (JObj [])); try done. eauto.
Qed.

(** The level after an accepted change, by the rule for the user's entry and the rule for
    the default. *)
Definition escalation_bound (old lvl d : Z) : Z := Z.max old (Z.max lvl (Z.max 0 d)).

Lemma level_rule_bound lvl P1 P2 o n d d' :
  level_rule lvl P1 o n -> level_rule lvl P2 d d' ->
  match n with Some m => m | None => default 0 d' end <=
  escalation_bound (match o with Some m => m | None => default 0 d end) lvl (default 0 d).
Proof.
  unfold level_rule, escalation_bound. intros [->|(_ & Hn & _)] Hd.
  - destruct n; [lia|]. destruct Hd as [->|(_ & Hd & _)]; [lia|]. destruct d'; simpl in *; lia.
  - destruct n; simpl in *; [lia|]. destruct Hd as [->|(_ & Hd & _)]; [lia|].
    destruct d'; simpl in *; lia.
Qed.

Section escalation.
Context `{SetOrder}.
Context (rv : RoomVersion) (e : event) (auth : StateMap event) (cur : event) (lvl : Z).
Hypothesis Haccepted : _check_power_levels rv e auth = Ok tt.
Hypothesis Hkey : state_key_field e = Some "".
Hypothesis Htype : type e = EventTypes.PowerLevels.
Hypothesis Hcur : dget POWER_KEY auth = Some cur.
Hypothesis Hlvl : get_user_power_level (user_id e) auth = Ok lvl.

Lemma accepted_default :
  exists d d', effective_default (content cur) = Ok (default 0 d) /\
    effective_default (content e) = Ok (default 0 d') /\ level_rule lvl False d d'.
Proof.
  destruct (accepted_named rv e auth cur lvl) with (k := "users_default")
    as (d & d' & Hd & Hd' & Hr); try done; [by left|].
  exists d, d'. unfold effective_default. by rewrite Hd, Hd'.
Qed.

(** Before and after, for one user: either a creator's fixed level, or the two effective
    levels related by [level_rule]. *)
Lemma accepted_levels u old :
  get_user_power_level u auth = Ok old ->
  get_user_power_level u (dset POWER_KEY e auth) = Ok old \/
  exists ud o n d d',
    users_before cur = JObj ud /\ level_at (JObj ud) (JStr u) = Ok o /\
    level_rule lvl (u <> user_id e) o n /\ level_rule lvl False d d' /\
    effective_default (content cur) = Ok (default 0 d) /\
    old = match o with Some m => m | None => default 0 d end /\
    get_user_power_level u (dset POWER_KEY e auth) =
      Ok (match n with Some m => m | None => default 0 d' end).
Proof.
  intros Hold.
  destruct (dget CREATE_KEY auth) as [c|] eqn:Hc;
    [|unfold get_user_power_level in Hold; by rewrite Hc in Hold].
  destruct (if msc4289_creator_power_enabled (room_version c) then is_creator c u else Ok false)
    as [[]|] eqn:Hcr.
  - left. unfold get_user_power_level in *. rewrite dget_dset_ne by done.
    rewrite Hc, Hcr in *. done.
  - right. destruct accepted_default as (d & d' & Hd & Hd' & Hdr).
    destruct (get_user_power_level_users u auth cur c old) as [ud Hud]; try done.
    destruct (accepted_user rv e auth cur lvl) with (u := u) (ud := ud)
      as (o & n & Ho & Hn & Hr); try done.
    unfold users_before in Ho; rewrite Hud in Ho.
    destruct (accepted_facts rv e auth cur lvl) as (_ & ul & Hul & _); try done.
    rewrite Hul in Hn.
    exists ud, o, n, d, d'. split_and!; try done.
    + assert (Hold' : Ok old = Ok (match o with Some m => m | None => default 0 d end)).
      { rewrite <- Hold. by eapply get_user_power_level_effective. }
      by injection Hold'.
    + eapply get_user_power_level_effective; try done.
      * rewrite dget_dset_ne by done. done.
      * apply dget_dset_eq.
  - unfold get_user_power_level in Hold. by rewrite Hc, Hcr in Hold.
Qed.
End escalation.

(** C1: an accepted change of the power-levels event raises nobody above the sender: the new
    level of every user is at most the largest of his own old level, the sender's level, the
    old default and zero.  The new event is also readable for every user the old one was. *)
Theorem power_levels_no_escalation `{SetOrder} rv e auth cur lvl u old :
  _check_power_levels rv e auth = Ok tt ->
  state_key_field e = Some "" -> type e = EventTypes.PowerLevels ->
  dget POWER_KEY auth = Some cur ->
  get_user_power_level (user_id e) auth = Ok lvl -> get_user_power_level u auth = Ok old ->
  exists d new, effective_default (content cur) = Ok d /\
    get_user_power_level u (dset POWER_KEY e auth) = Ok new /\
    new <= escalation_bound old lvl d.
Proof.
  intros Ha Hk Ht Hc Hl Hold.
  destruct (accepted_levels rv e auth cur lvl) with (u := u) (old := old)
    as [Hn|(ud & o & n & d & d' & _ & _ & Hr & Hdr & Hd & -> & Hn)]; try done.
  - destruct (accepted_default rv e auth cur lvl) as (d & d' & Hd & _); try done.
    exists (default 0 d), old. split_and!; try done. unfold escalation_bound; lia.
  - eexists _, _. split_and!; try done. by eapply level_rule_bound.
Qed.

(** An accepted change leaves every other user who is listed at the sender's level or
    above exactly where he was. *)
Theorem power_levels_peers_kept `{SetOrder} rv e auth cur lvl u ud old :
  _check_power_levels rv e auth = Ok tt ->
  state_key_field e = Some "" -> type e = EventTypes.PowerLevels ->
  dget POWER_KEY auth = Some cur ->
  get_user_power_level (user_id e) auth = Ok lvl -> get_user_power_level u auth = Ok old ->
  oget (content cur) "users" (JObj []) = JObj ud -> dmem u ud = true ->
  lvl <= old -> u <> user_id e ->
  get_user_power_level u (dset POWER_KEY e auth) = Ok old.
Proof.
  intros Ha Hk Ht Hc Hl Hold Hud Hmem Hle Hne.
  destruct (accepted_levels rv e auth cur lvl) with (u := u) (old := old)
    as [Hn|(ud' & o & n & d & d' & Hub & Ho & Hr & _ & _ & -> & Hn)]; try done.
  unfold users_before in Hub. rewrite Hud in Hub. injection Hub as <-.
  destruct (level_at_present ud u) as [v Hv]; [done|eauto|].
  rewrite Hv in Ho. injection Ho as <-. rewrite Hn.
  destruct Hr as [<-|(Ho & _ & Hpeer)]; [done|]. simpl in Ho.
  assert (v = lvl) as -> by lia. by destruct (Hpeer Hne).
Qed.

(** ** The iteration order does not matter *)

Lemma merged_keys_perm (o1 o2 : SetOrder) o n :
  match @merged_keys o1 o n, @merged_keys o2 o n with
  | Ok l1, Ok l2 => l1 ≡ₚ l2
  | Err e1, Err e2 => e1 = e2
  | _, _ => False
  end.
Proof.
  unfold merged_keys. destruct (py_list o); simpl; [|done]. destruct (py_list n); simpl; [|done].
  destruct (py_set _); simpl; [|done]. by rewrite !set_iter_perm.
Qed.

Lemma levels_to_check_perm (o1 o2 : SetOrder) rv oc nc :
  match @levels_to_check o1 rv oc nc, @levels_to_check o2 rv oc nc with
  | Ok l1, Ok l2 => l1 ≡ₚ l2
  | Err e1, Err e2 => e1 = e2
  | _, _ => False
  end.
Proof.
  unfold levels_to_check.
  pose proof (fun d => merged_keys_perm o1 o2 (oget oc d (JObj [])) (oget nc d (JObj []))) as Hp.
  pose proof (Hp "users") as Hu; pose proof (Hp "events") as He;
    pose proof (Hp "notifications") as Hn; clear Hp.
  repeat match goal with
  | |- context [@merged_keys ?o ?a ?b] => destruct (@merged_keys o a b); simpl in *; try done
  | |- context [if ?b then _ else _] => destruct b; simpl
  end; try congruence; by rewrite ?Hu, ?He, ?Hn.
Qed.

Lemma rforall_perm {A} (f : A -> result unit) l1 l2 :
  l1 ≡ₚ l2 -> rforall f l1 = Ok tt -> rforall f l2 = Ok tt.
Proof. rewrite !rforall_ok. by intros ->. Qed.

(** Whether a power-levels event is accepted does not depend on the order in which
    Python iterates its sets. *)
Theorem check_power_levels_order (o1 o2 : SetOrder) rv e auth :
  @_check_power_levels o1 rv e auth = Ok tt <-> @_check_power_levels o2 rv e auth = Ok tt.
Proof.
  assert (Himp : forall o1 o2, @_check_power_levels o1 rv e auth = Ok tt ->
                               @_check_power_levels o2 rv e auth = Ok tt); [|split; apply Himp].
  clear o1 o2; intros o1 o2. unfold _check_power_levels.
  destruct (jitems _) as [ul|]; simpl; [|done].
  destruct (rforall check_user_entry ul) as [[]|]; simpl; [|done].
  destruct (if msc4289_creator_power_enabled rv then _ else _) as [[]|]; simpl; [|done].
  destruct (if bool_decide (type e = EventTypes.PowerLevels) && _ then _ else _) as [[]|]; simpl;
    [|done].
  destruct (event_key e) as [k|]; simpl; [|done]. destruct (dget k auth) as [cur|]; [|done].
  destruct (get_user_power_level (user_id e) auth) as [lvl|]; simpl; [|done].
  pose proof (levels_to_check_perm o1 o2 rv (content cur) (content e)) as Hp.
  destruct (@levels_to_check o1 _ _ _), (@levels_to_check o2 _ _ _); simpl; try done.
  by apply rforall_perm.
Qed.

(** ** Witnesses *)

Definition pl_new : event :=
  ev_power "pl2" "@admin:a" [("@admin:a", JInt 100); ("@mod:a", JInt 75)].
Definition pl_new_by_mod : event :=
  ev_power "pl2" "@mod:a" [("@admin:a", JInt 100); ("@mod:a", JInt 50); ("@new:a", JInt 50)].

Lemma power_levels_no_escalation_witness :
  _check_power_levels rv11 pl_new room1 = Ok tt /\
  exists d new, effective_default (content pl_old) = Ok d /\
    get_user_power_level "@mod:a" (dset POWER_KEY pl_new room1) = Ok new /\
    new <= escalation_bound 50 100 d.
Proof.
  split; [reflexivity|].
  apply (power_levels_no_escalation rv11 pl_new room1 pl_old 100 "@mod:a" 50); reflexivity.
Defined.

Lemma power_levels_peers_kept_witness :
  get_user_power_level "@admin:a" (dset POWER_KEY pl_new_by_mod room1) = Ok 100.
Proof.
  apply (power_levels_peers_kept rv11 pl_new_by_mod room1 pl_old 50 "@admin:a"
           [("@admin:a", JInt 100); ("@mod:a", JInt 50)] 100);
    try reflexivity; [lia | discriminate].
Defined.

(** A moderator may not take a peer's level away, nor grant more than his own. *)
Example power_levels_rejected :
  map (fun users => is_ok (_check_power_levels rv11 (ev_power "p" "@mod:a" users) room1))
    [[("@admin:a", JInt 100); ("@mod:a", JInt 51)]; [("@admin:a", JInt 0); ("@mod:a", JInt 50)];
     [("@admin:a", JInt 100); ("@mod:a", JInt 50); ("bad", JInt 0)];
     [("@admin:a", JInt 100)]] = [false; false; false; true].
Proof. vm_compute. reflexivity. Qed.
