(* ===== verification/EventAuthMembershipSafety.v ===== *)
(** * EventAuthMembershipSafety: who may change whose membership

    The rules of [_is_membership_change_allowed] as an inductive relation, the refinement
    theorem that the function decides it, and the safety properties read off from it. *)
From S2P Require Import Prelude PyVal RoomVersionTable Identifiers Events EventAuthLevels.
From S2P Require Import SetkaChannels EventAuthPower EventAuthMembership EventAuth Samples.
Open Scope string_scope.
Open Scope list_scope.
Open Scope Z_scope.
Open Scope py_scope.

Lemma jeqs_true j s : jeqs j s = true <-> j = JStr s.
Proof. destruct j; simpl; rewrite ?bool_decide_eq_true; naive_solver. Qed.

Lemma jeqs_refl s : jeqs (JStr s) s = true.
Proof. by apply jeqs_true. Qed.

(** ** The rules *)

Section rules.
Context `{SignedJson} (rv : RoomVersion) (e : event) (auth : StateMap event).

(** The join rules under which a user who is invited or already in the room may join. *)
Definition invited_suffices (r : json) : Prop :=
  (restricted_join_rule rv = true /\ r = JStr JoinRules.RESTRICTED) \/
  (knock_restricted_join_rule rv = true /\ r = JStr JoinRules.KNOCK_RESTRICTED) \/
  r = JStr JoinRules.INVITE \/ (knock_join_rule rv = true /\ r = JStr JoinRules.KNOCK).

(** The join rules under which a member of the room may vouch for the user. *)
Definition authorisation_suffices (r : json) : Prop :=
  (restricted_join_rule rv = true /\ r = JStr JoinRules.RESTRICTED) \/
  (knock_restricted_join_rule rv = true /\ r = JStr JoinRules.KNOCK_RESTRICTED).

(** A user of the room whose level allows inviting is named by the join event. *)
Definition authorised_by (mc : membership_context) (u : string) : Prop :=
  oget (content e) EventContentFields.AUTHORISING_USER JNull = JStr u /\
  (exists r, room_id e = Ok r) /\
  (exists m, dget (EventTypes.Member, u) auth = Some m /\
     membership m = Ok (JStr Membership.JOIN)) /\
  exists l, get_user_power_level u auth = Ok l /\ invite_level mc <= l.

Inductive may_join (mc : membership_context) : Prop :=
  | join_public : join_rule mc = JStr JoinRules.PUBLIC -> may_join mc
  | join_invited :
      invited_suffices (join_rule mc) ->
      caller_in_room mc = true \/ caller_invited mc = true -> may_join mc
  | join_authorised u :
      authorisation_suffices (join_rule mc) -> authorised_by mc u -> may_join mc.

(** The event is not the creator's first join, and its context is [mc]. *)
Definition ordinary (ms : string) (mc : membership_context) : Prop :=
  is_creator_first_join rv e (JStr ms) auth = Ok false /\
  get_membership_context rv e auth = Ok mc.

Definition to_self (mc : membership_context) : Prop := target_user_id mc = user_id e.

Inductive membership_rule : string -> Prop :=
  | rule_first_join :
      is_creator_first_join rv e (JStr Membership.JOIN) auth = Ok true ->
      membership_rule Membership.JOIN
  | rule_third_party mc :
      ordinary Membership.INVITE mc -> dmem "third_party_invite" (content e) = true ->
      _verify_third_party_invite e auth = Ok true -> target_banned mc = false ->
      membership_rule Membership.INVITE
  | rule_invite mc :
      ordinary Membership.INVITE mc -> dmem "third_party_invite" (content e) = false ->
      caller_in_room mc = true -> target_banned mc = false -> target_in_room mc = false ->
      invite_level mc <= user_level mc -> membership_rule Membership.INVITE
  | rule_join mc :
      ordinary Membership.JOIN mc -> to_self mc -> target_banned mc = false -> may_join mc ->
      membership_rule Membership.JOIN
  | rule_retract mc :
      ordinary Membership.LEAVE mc -> to_self mc ->
      caller_invited mc = true \/ caller_knocked mc = true -> membership_rule Membership.LEAVE
  | rule_leave mc :
      ordinary Membership.LEAVE mc -> to_self mc -> caller_in_room mc = true ->
      (target_banned mc = true -> ban_level mc <= user_level mc) ->
      membership_rule Membership.LEAVE
  | rule_kick mc kick_level :
      ordinary Membership.LEAVE mc -> ~ to_self mc -> caller_in_room mc = true ->
      (target_banned mc = true -> ban_level mc <= user_level mc) ->
      get_named_level auth "kick" 50 = Ok kick_level -> kick_level <= user_level mc ->
      target_level mc < user_level mc -> membership_rule Membership.LEAVE
  | rule_ban mc :
      ordinary Membership.BAN mc -> caller_in_room mc = true ->
      ban_level mc <= user_level mc -> target_level mc < user_level mc ->
      membership_rule Membership.BAN
  | rule_knock mc :
      ordinary Membership.KNOCK mc -> knock_join_rule rv = true ->
      join_rule mc = JStr JoinRules.KNOCK \/
        (knock_restricted_join_rule rv = true /\ join_rule mc = JStr JoinRules.KNOCK_RESTRICTED) ->
      to_self mc -> target_in_room mc = false -> caller_invited mc = false ->
      target_banned mc = false -> membership_rule Membership.KNOCK.

(** ** One branch at a time *)

Lemma check_invite_ok mc :
  check_invite mc = Ok tt <->
  target_banned mc = false /\ target_in_room mc = false /\ invite_level mc <= user_level mc.
Proof.
  unfold check_invite. destruct (target_banned mc), (target_in_room mc); try naive_solver.
  destruct (Z.ltb_spec (user_level mc) (invite_level mc)); naive_solver lia.
Qed.

Lemma check_ban_ok mc :
  check_ban mc = Ok tt <-> ban_level mc <= user_level mc /\ target_level mc < user_level mc.
Proof.
  unfold check_ban. destruct (Z.ltb_spec (user_level mc) (ban_level mc)); [naive_solver lia|].
  destruct (Z.leb_spec (user_level mc) (target_level mc)); naive_solver lia.
Qed.

Lemma check_leave_ok mc :
  check_leave e auth mc = Ok tt <->
  (target_banned mc = true -> ban_level mc <= user_level mc) /\
  (to_self mc \/ exists k, get_named_level auth "kick" 50 = Ok k /\
                   k <= user_level mc /\ target_level mc < user_level mc).
Proof.
  unfold check_leave, to_self.
  destruct (target_banned mc && (user_level mc <? ban_level mc)) eqn:Hb.
  - boolify. destruct Hb as [-> Hb]. split; [done|]. intros [? _]; exfalso. lia.
  - assert (target_banned mc = true -> ban_level mc <= user_level mc) as Hban.
    { boolify. destruct Hb; [congruence|done]. }
    destruct (bool_decide_reflect (target_user_id mc = user_id e)); simpl; [naive_solver|].
    destruct (get_named_level auth "kick" 50) as [k|]; simpl; [|naive_solver].
    destruct ((user_level mc <? k) || (user_level mc <=? target_level mc)) eqn:Hk; boolify.
    + split; [done|]. intros (_ & [?|(? & [= <-] & ? & ?)]); [done|lia].
    + split; [|done]. intros _. split; [done|]. right. exists k. naive_solver.
Qed.

Lemma check_knock_ok mc :
  check_knock rv e mc = Ok tt <->
  (join_rule mc = JStr JoinRules.KNOCK \/
    (knock_restricted_join_rule rv = true /\ join_rule mc = JStr JoinRules.KNOCK_RESTRICTED)) /\
  to_self mc /\ target_in_room mc = false /\ caller_invited mc = false /\
  target_banned mc = false.
Proof.
  unfold check_knock, to_self. rewrite <- !jeqs_true.
  destruct (jeqs (join_rule mc) JoinRules.KNOCK), (knock_restricted_join_rule rv),
    (jeqs (join_rule mc) JoinRules.KNOCK_RESTRICTED),
    (bool_decide_reflect (target_user_id mc = user_id e)),
    (target_in_room mc), (caller_invited mc), (target_banned mc); simpl;
  (split; [intros ?; first [done|split_and!; auto]|intros ([?|[? ?]] & ? & ? & ? & ?); done]).
Qed.

Lemma check_joined_room_ok m :
  _check_joined_room m = Ok tt <->
  exists ev, m = Some ev /\ membership ev = Ok (JStr Membership.JOIN).
Proof.
  unfold _check_joined_room. destruct m as [ev|]; [|naive_solver].
  destruct (membership ev) as [ms|] eqn:Hms; simpl;
    [|split; [done|intros (? & [= <-] & ?); congruence]].
  destruct (jeqs ms Membership.JOIN) eqn:Hj.
  - apply jeqs_true in Hj as ->. naive_solver.
  - split; [done|]. intros (? & [= <-] & Heq). rewrite Hms in Heq. injection Heq as ->.
    by rewrite jeqs_refl in Hj.
Qed.

Lemma check_authorised_join_ok mc :
  check_authorised_join e auth mc = Ok tt <-> exists u, authorised_by mc u.
Proof.
  unfold check_authorised_join, authorised_by.
  set (j := oget (content e) EventContentFields.AUTHORISING_USER JNull). clearbody j. split.
  - intros H0. destruct (is_none j); [done|]. apply rbind_ok in H0 as (m & Hm & H0).
    apply rbind_ok in H0 as (r & Hr & H0). apply rbind_ok in H0 as ([] & Hjoin & H0).
    apply rbind_ok in H0 as (u & Hu & H0). apply rbind_ok in H0 as (l & Hl & H0).
    destruct j as [| | | |s| |]; try done. injection Hu as ->. exists u.
    destruct (Z.ltb_spec l (invite_level mc)) as [|Hle]; [done|].
    unfold state_get_json in Hm. simpl in Hm. injection Hm as <-.
    apply check_joined_room_ok in Hjoin. split_and!; eauto.
  - intros (u & -> & (r & Hr) & Hjoin & l & Hl & Hle). simpl. unfold state_get_json. simpl.
    rewrite Hr. simpl.
    assert (_check_joined_room (dget (EventTypes.Member, u) auth) = Ok tt) as ->.
    { by apply check_joined_room_ok. }
    simpl. rewrite Hl. simpl. by apply Z.ltb_ge in Hle as ->.
Qed.

Lemma check_join_ok mc :
  check_join rv e auth mc = Ok tt <->
  to_self mc /\ target_banned mc = false /\ may_join mc.
Proof.
  unfold check_join, to_self.
  destruct (bool_decide_reflect (user_id e = target_user_id mc)) as [Hself|Hself]; simpl;
    [|naive_solver].
  rewrite Hself. destruct (target_banned mc); [naive_solver|].
  match goal with |- ?c = _ <-> _ =>
    enough (Hm : c = Ok tt <-> may_join mc) by (rewrite Hm; tauto) end.
  destruct (jeqs (join_rule mc) JoinRules.PUBLIC) eqn:Hp.
  { apply jeqs_true in Hp. split; [|done]. by intros; apply join_public. }
  assert (Hauth : authorisation_suffices (join_rule mc) <->
    (restricted_join_rule rv && jeqs (join_rule mc) JoinRules.RESTRICTED)
    || (knock_restricted_join_rule rv && jeqs (join_rule mc) JoinRules.KNOCK_RESTRICTED) = true).
  { unfold authorisation_suffices. rewrite orb_true_iff, !andb_true_iff, !jeqs_true. done. }
  destruct ((restricted_join_rule rv && _) || _) eqn:Hr.
  - assert (Hs : authorisation_suffices (join_rule mc)) by tauto.
    assert (Hi : invited_suffices (join_rule mc)).
    { unfold invited_suffices, authorisation_suffices in *. tauto. }
    destruct (caller_in_room mc) eqn:Hin; simpl.
    { split; [intros _|done]. apply join_invited; tauto. }
    destruct (caller_invited mc) eqn:Hinv; simpl.
    { split; [intros _|done]. apply join_invited; tauto. }
    rewrite check_authorised_join_ok. split.
    + intros [u Hu]. by eapply join_authorised.
    + inversion 1 as [Hpub|_ []|u _ Hu]; try congruence; [|eauto].
      by rewrite Hpub, jeqs_refl in Hp.
  - assert (Hns : ~ authorisation_suffices (join_rule mc)) by (rewrite Hauth; congruence).
    assert (Hi : invited_suffices (join_rule mc) <->
      jeqs (join_rule mc) JoinRules.INVITE
      || (knock_join_rule rv && jeqs (join_rule mc) JoinRules.KNOCK)
      || (knock_restricted_join_rule rv && jeqs (join_rule mc) JoinRules.KNOCK_RESTRICTED) = true).
    { rewrite !orb_true_iff, !andb_true_iff, !jeqs_true.
      unfold invited_suffices, authorisation_suffices in *. tauto. }
    assert (Hmay : may_join mc <-> invited_suffices (join_rule mc) /\
                   caller_in_room mc || caller_invited mc = true).
    { rewrite orb_true_iff. split.
      - inversion 1 as [Hpub| |]; [|tauto|tauto]. by rewrite Hpub, jeqs_refl in Hp.
      - intros []; by apply join_invited. }
    rewrite Hmay, Hi. destruct (jeqs (join_rule mc) JoinRules.INVITE || _ || _); [|naive_solver].
    destruct (caller_in_room mc || caller_invited mc); naive_solver.
Qed.

(** ** The whole function *)

Lemma first_join_is_join ms :
  is_creator_first_join rv e ms auth = Ok true -> ms = JStr Membership.JOIN.
Proof.
  unfold is_creator_first_join. destruct (prev_event_ids e) as [|p [|]]; try done.
  destruct (jeqs ms Membership.JOIN) eqn:Hj; [|done]. by apply jeqs_true in Hj.
Qed.

(** Lines 613-639 and the branches, for a membership that is a string. *)
Lemma caller_and_branch_ok s mc :
  (let* done := check_caller_present e (JStr s) mc in
   if (done : bool) then Ok tt else check_membership_branch rv e auth (JStr s) mc) = Ok tt <->
  (s = Membership.LEAVE /\ to_self mc /\ (caller_invited mc = true \/ caller_knocked mc = true)) \/
  (((s <> Membership.JOIN /\ s <> Membership.KNOCK) -> caller_in_room mc = true) /\
   check_membership_branch rv e auth (JStr s) mc = Ok tt).
Proof.
  unfold check_caller_present, to_self. simpl.
  destruct (bool_decide_reflect (s = Membership.JOIN)) as [->|Hj]; simpl.
  { split; [by intros; right; split; [intros []|]|]. intros [[? _]|[_ ?]]; done. }
  destruct (bool_decide_reflect (s = Membership.KNOCK)) as [->|Hk]; simpl.
  { split; [by intros; right; split; [intros []|]|]. intros [[? _]|[_ ?]]; done. }
  destruct ((caller_invited mc || caller_knocked mc) && bool_decide (s = Membership.LEAVE)
            && bool_decide (target_user_id mc = user_id e)) eqn:Hr; simpl.
  { boolify. tauto. }
  assert (~ (s = Membership.LEAVE /\ target_user_id mc = user_id e /\
             (caller_invited mc = true \/ caller_knocked mc = true))) as Hnr.
  { intros (Hs & Ht & Hi). rewrite (bool_decide_eq_true_2 _ Hs), (bool_decide_eq_true_2 _ Ht) in Hr.
    destruct Hi as [Hi|Hi]; rewrite Hi in Hr; by rewrite ?orb_true_r in Hr. }
  destruct (caller_in_room mc); simpl; [tauto|].
  split; [by destruct (room_id e)|]. intros [?|[Hf _]]; [tauto|]. discriminate Hf. tauto.
Qed.

Lemma membership_branch_ok s mc :
  check_membership_branch rv e auth (JStr s) mc = Ok tt <->
  (s = Membership.INVITE /\ check_invite mc = Ok tt) \/
  (s = Membership.JOIN /\ check_join rv e auth mc = Ok tt) \/
  (s = Membership.LEAVE /\ check_leave e auth mc = Ok tt) \/
  (s = Membership.BAN /\ check_ban mc = Ok tt) \/
  (s = Membership.KNOCK /\ knock_join_rule rv = true /\ check_knock rv e mc = Ok tt).
Proof.
  unfold check_membership_branch. simpl.
  repeat match goal with
  | |- context [bool_decide (s = ?m)] =>
      destruct (bool_decide_reflect (s = m)) as [->|?];
      [split; [tauto|]; intros Hc; repeat destruct Hc as [[? Hc]|Hc]; try done; by destruct Hc|]
  end.
  destruct (knock_join_rule rv); simpl; [|split; [done|intuition congruence]].
  destruct (bool_decide_reflect (s = Membership.KNOCK)); [tauto|].
  split; [done|intuition congruence].
Qed.

(** The function, unfolded once: the first join, then the third-party invite, then the
    caller and the branch. *)
Lemma membership_change_cases s :
  membership e = Ok (JStr s) ->
  _is_membership_change_allowed rv e auth = Ok tt <->
  is_creator_first_join rv e (JStr s) auth = Ok true \/
  exists mc, ordinary s mc /\
    if jeqs (JStr s) Membership.INVITE && dmem "third_party_invite" (content e)
    then _verify_third_party_invite e auth = Ok true /\ target_banned mc = false
    else (let* done := check_caller_present e (JStr s) mc in
          if (done : bool) then Ok tt
          else check_membership_branch rv e auth (JStr s) mc) = Ok tt.
Proof.
  intros Hms. unfold _is_membership_change_allowed, ordinary. rewrite Hms. cbn [rbind].
  destruct (is_creator_first_join rv e (JStr s) auth) as [[]|]; cbn [rbind].
  1: by split; auto. 2: by split; [done|]; intros [?|(mc & [? _] & _)].
  destruct (get_membership_context rv e auth) as [mc|]; cbn [rbind];
    [|by split; [done|]; intros [?|(mc & [_ ?] & _)]].
  assert (Hex : forall P : membership_context -> Prop,
    (Ok false = Ok true \/ exists mc', (Ok false = Ok false /\ Ok mc = Ok mc') /\ P mc') <-> P mc).
  { intros P. split; [|eauto]. intros [?|(mc' & [_ [= <-]] & Hp)]; done. }
  rewrite Hex. destruct (jeqs _ _ && _); [|done].
  destruct (_verify_third_party_invite e auth) as [[]|]; simpl; [|by split; [|intros [? _]]..].
  destruct (target_banned mc); [by split; [|intros [_ ?]]|tauto].
Qed.

Lemma rules_sound s :
  membership e = Ok (JStr s) -> _is_membership_change_allowed rv e auth = Ok tt ->
  membership_rule s.
Proof.
  intros Hms Ha. apply (membership_change_cases s Hms) in Ha as [Hf|(mc & Ho & Ha)].
  { pose proof (first_join_is_join _ Hf) as [= ->]. by apply rule_first_join. }
  destruct (jeqs (JStr s) Membership.INVITE && _) eqn:Htp.
  { simpl in Htp. boolify. destruct Htp as [-> Htp], Ha. by eapply rule_third_party. }
  apply caller_and_branch_ok in Ha as [(-> & Hs & Hi)|[Hroom Hb]].
  { by eapply rule_retract. }
  apply membership_branch_ok in Hb
    as [[-> Hb]|[[-> Hb]|[[-> Hb]|[[-> Hb]|(-> & Hk & Hb)]]]].
  - apply check_invite_ok in Hb as (? & ? & ?). rewrite jeqs_refl in Htp.
    eapply rule_invite; eauto.
  - apply check_join_ok in Hb as (? & ? & ?). by eapply rule_join.
  - apply check_leave_ok in Hb as [Hban Hb].
    destruct (decide (target_user_id mc = user_id e)) as [Hs|Hs].
    + eapply rule_leave; eauto.
    + destruct Hb as [|(k & Hk & ? & ?)]; [by destruct Hs|]. eapply rule_kick; eauto.
  - apply check_ban_ok in Hb as [? ?]. eapply rule_ban; eauto.
  - apply check_knock_ok in Hb as (? & ? & ? & ? & ?). by eapply rule_knock.
Qed.

Lemma rules_complete s :
  membership e = Ok (JStr s) -> membership_rule s ->
  _is_membership_change_allowed rv e auth = Ok tt.
Proof.
  intros Hms Hr. apply (membership_change_cases s Hms).
  destruct Hr as [Hf|mc Ho Htp Hv Hb|mc Ho Htp Hc Hb Ht Hl|mc Ho Hs Hb Hj|mc Ho Hs Hi
    |mc Ho Hs Hc Hb|mc k Ho Hs Hc Hb Hk Hl Ht|mc Ho Hc Hl Ht|mc Ho Hk Hj Hs Ht Hi Hb];
    [by left|right; exists mc; split; [done|]..].
  - rewrite Htp. by split.
  - rewrite Htp. apply (caller_and_branch_ok Membership.INVITE mc). right; split; [done|].
    apply membership_branch_ok. left; split; [done|]. by apply check_invite_ok.
  - apply (caller_and_branch_ok Membership.JOIN mc). right; split; [by intros []|].
    apply membership_branch_ok. right; left; split; [done|]. by apply check_join_ok.
  - apply (caller_and_branch_ok Membership.LEAVE mc). by left.
  - apply (caller_and_branch_ok Membership.LEAVE mc). right; split; [done|].
    apply membership_branch_ok. do 2 right; left; split; [done|]. apply check_leave_ok. tauto.
  - apply (caller_and_branch_ok Membership.LEAVE mc). right; split; [done|].
    apply membership_branch_ok. do 2 right; left; split; [done|]. apply check_leave_ok. eauto 10.
  - apply (caller_and_branch_ok Membership.BAN mc). right; split; [done|].
    apply membership_branch_ok. do 3 right; left; split; [done|]. by apply check_ban_ok.
  - apply (caller_and_branch_ok Membership.KNOCK mc). right; split; [by intros []|].
    apply membership_branch_ok. do 4 right; split_and!; [done..|]. by apply check_knock_ok.
Qed.

(** An accepted event's membership is a string. *)
Lemma accepted_membership :
  _is_membership_change_allowed rv e auth = Ok tt -> exists s, membership e = Ok (JStr s).
Proof.
  unfold _is_membership_change_allowed. intros Ha.
  apply rbind_ok in Ha as (ms & Hms & Ha). apply rbind_ok in Ha as ([] & Hf & Ha).
  { apply first_join_is_join in Hf as ->. eauto. }
  apply rbind_ok in Ha as (mc & _ & Ha). rewrite Hms.
  destruct ms as [| | | |s| |]; [| | | |by eauto| |]; exfalso; simpl in Ha;
    unfold check_caller_present, check_membership_branch in Ha; simpl in Ha;
    rewrite ?andb_false_r in Ha; simpl in Ha;
    destruct (caller_in_room mc), (room_id e); done.
Qed.

End rules.

(** C2: a membership change is accepted exactly when the rules of the Matrix specification,
    written as an inductive relation, derive it. *)
Theorem membership_change_refines `{SignedJson} rv e auth :
  _is_membership_change_allowed rv e auth = Ok tt <->
  exists s, membership e = Ok (JStr s) /\ membership_rule rv e auth s.
Proof.
  split.
  - intros Ha. destruct (accepted_membership rv e auth Ha) as [s Hs].
    exists s; split; [done|]. by apply rules_sound.
  - intros (s & Hs & Hr). by eapply rules_complete.
Qed.

(** ** Safety, read off from the rules *)

(** The state gives user [u] the membership [m]. *)
Definition in_state (auth : StateMap event) (u m : string) : Prop :=
  exists ev, dget (EventTypes.Member, u) auth = Some ev /\ membership ev = Ok (JStr m).

(** What the fields of the context are. *)
Lemma membership_context_ok rv e auth mc :
  get_membership_context rv e auth = Ok mc ->
  state_key e = Ok (target_user_id mc) /\
  get_user_power_level (user_id e) auth = Ok (user_level mc) /\
  get_user_power_level (target_user_id mc) auth = Ok (target_level mc) /\
  get_named_level auth "invite" 0 = Ok (invite_level mc) /\
  get_named_level auth "ban" 50 = Ok (ban_level mc).
Proof.
  unfold get_membership_context. intros Hmc. apply rbind_ok in Hmc as (t & Ht & Hmc).
  destruct (dget CREATE_KEY auth) as [c|]; [|done].
  apply rbind_ok in Hmc as (d1 & _ & Hmc). apply rbind_ok in Hmc as (d2 & _ & Hmc).
  destruct (negb _ && _); [done|]. ok_inv. simpl. auto.
Qed.

Lemma membership_of_in_state auth u m j :
  membership_of (dget (EventTypes.Member, u) auth) = Ok j ->
  jeqs j m = true <-> in_state auth u m.
Proof.
  unfold in_state. destruct (dget (EventTypes.Member, u) auth) as [ev|]; simpl.
  - intros Hj. rewrite jeqs_true. split; [intros ->; eauto|].
    intros (? & [= <-] & Hm). rewrite Hj in Hm. by injection Hm.
  - intros [= <-]. split; [done|]. by intros (? & ? & _).
Qed.

(** ... and what its flags say about the state. *)
Lemma membership_context_state rv e auth mc :
  get_membership_context rv e auth = Ok mc ->
  (caller_in_room mc = true <-> in_state auth (user_id e) Membership.JOIN) /\
  (caller_invited mc = true <-> in_state auth (user_id e) Membership.INVITE) /\
  (target_in_room mc = true <-> in_state auth (target_user_id mc) Membership.JOIN) /\
  (target_banned mc = true <-> in_state auth (target_user_id mc) Membership.BAN).
Proof.
  unfold get_membership_context. intros Hmc. apply rbind_ok in Hmc as (t & Ht & Hmc).
  destruct (dget CREATE_KEY auth) as [c|]; [|done].
  apply rbind_ok in Hmc as (d1 & _ & Hmc). apply rbind_ok in Hmc as (d2 & _ & Hmc).
  destruct (negb _ && _); [done|].
  apply rbind_ok in Hmc as (cm & Hcm & Hmc). apply rbind_ok in Hmc as (tm & Htm & Hmc).
  ok_inv. simpl. split_and!; by apply membership_of_in_state.
Qed.

Lemma joining_not_banned `{SignedJson} rv e auth s t :
  membership_rule rv e auth s -> s ∈ [Membership.INVITE; Membership.JOIN; Membership.KNOCK] ->
  is_creator_first_join rv e (JStr s) auth = Ok false -> state_key e = Ok t ->
  ~ in_state auth t Membership.BAN.
Proof.
  intros Hr Hs Hf Ht.
  assert (Hmc : exists mc, get_membership_context rv e auth = Ok mc /\ target_banned mc = false).
  { destruct Hr as [Hf'|mc []|mc []|mc []|mc []|mc []|mc k []|mc []|mc []]; eauto.
    - congruence.
    - by rewrite !elem_of_cons, elem_of_nil in Hs; destruct Hs as [?|[?|[?|[]]]].
    - by rewrite !elem_of_cons, elem_of_nil in Hs; destruct Hs as [?|[?|[?|[]]]].
    - by rewrite !elem_of_cons, elem_of_nil in Hs; destruct Hs as [?|[?|[?|[]]]].
    - by rewrite !elem_of_cons, elem_of_nil in Hs; destruct Hs as [?|[?|[?|[]]]]. }
  destruct Hmc as (mc & Hmc & Hb).
  destruct (membership_context_state rv e auth mc Hmc) as (_ & _ & _ & Hban).
  destruct (membership_context_ok rv e auth mc Hmc) as [Ht' _].
  rewrite Ht in Ht'; injection Ht' as ->. rewrite <- Hban, Hb. done.
Qed.

(** Nobody can bring a banned user back into the room: not by joining, inviting or
    knocking, whatever the join rule and the power levels.  (The creator's first join, which
    comes straight after the create event, is apart.) *)
Theorem banned_users_stay_out `{SignedJson} rv e auth s t :
  _is_membership_change_allowed rv e auth = Ok tt ->
  membership e = Ok (JStr s) -> state_key e = Ok t -> in_state auth t Membership.BAN ->
  is_creator_first_join rv e (JStr s) auth = Ok false ->
  s = Membership.LEAVE \/ s = Membership.BAN.
Proof.
  intros Ha Hs Ht Hb Hf. apply (rules_sound rv e auth s Hs) in Ha.
  destruct (decide (s ∈ [Membership.INVITE; Membership.JOIN; Membership.KNOCK])) as [Hin|Hin].
  - by destruct (joining_not_banned rv e auth s t Ha Hin Hf Ht).
  - rewrite !not_elem_of_cons in Hin. destruct Hin as (? & ? & ? & _).
    destruct Ha; auto; congruence.
Qed.

(** Removing somebody else from the room, by a kick, an unban or a ban, takes a sender who
    is joined, whose level is strictly above the target's and at least the level set for the
    operation. *)
Theorem removal_needs_power `{SignedJson} rv e auth s t :
  _is_membership_change_allowed rv e auth = Ok tt ->
  membership e = Ok (JStr s) -> s = Membership.LEAVE \/ s = Membership.BAN ->
  state_key e = Ok t -> t <> user_id e ->
  in_state auth (user_id e) Membership.JOIN /\
  exists lu lt needed,
    get_user_power_level (user_id e) auth = Ok lu /\ get_user_power_level t auth = Ok lt /\
    get_named_level auth (if bool_decide (s = Membership.BAN) then "ban" else "kick") 50
      = Ok needed /\
    lt < lu /\ needed <= lu /\
    (in_state auth t Membership.BAN ->
     exists ban, get_named_level auth "ban" 50 = Ok ban /\ ban <= lu).
Proof.
  intros Ha Hs Hlb Ht Hne. apply (rules_sound rv e auth s Hs) in Ha.
  assert (Hctx : forall mc, get_membership_context rv e auth = Ok mc -> t = target_user_id mc).
  { intros mc Hmc. apply membership_context_ok in Hmc as [Ht' _]. congruence. }
  destruct Ha as [Hf|mc []|mc []|mc []|mc [_ Hmc] Hself|mc [_ Hmc] Hself|mc k [_ Hmc]|mc [_ Hmc]|mc []];
    try (by destruct Hlb).
  1, 2: by destruct Hne; rewrite (Hctx mc Hmc).
  - pose proof (Hctx mc Hmc) as ->.
    destruct (membership_context_ok rv e auth mc Hmc) as (_ & Hu & Htl & _ & Hban).
    destruct (membership_context_state rv e auth mc Hmc) as (Hin & _ & _ & Hb).
    split; [tauto|]. exists (user_level mc), (target_level mc), k. split_and!; try done.
    intros Hbn. exists (ban_level mc). tauto.
  - pose proof (Hctx mc Hmc) as ->.
    destruct (membership_context_ok rv e auth mc Hmc) as (_ & Hu & Htl & _ & Hban).
    destruct (membership_context_state rv e auth mc Hmc) as (Hin & _ & _ & Hb).
    split; [tauto|]. exists (user_level mc), (target_level mc), (ban_level mc).
    split_and!; try done. eauto.
Qed.

(** The room's join rule: [invite] when there is no join-rules event or no rule in it. *)
Definition room_join_rule (auth : StateMap event) : json :=
  match dget (EventTypes.JoinRules, "") auth with
  | Some j => oget (content j) "join_rule" (JStr JoinRules.INVITE)
  | None => JStr JoinRules.INVITE
  end.

Lemma membership_context_rule rv e auth mc :
  get_membership_context rv e auth = Ok mc -> join_rule mc = room_join_rule auth.
Proof.
  unfold get_membership_context. intros Hmc. apply rbind_ok in Hmc as (t & Ht & Hmc).
  destruct (dget CREATE_KEY auth) as [c|]; [|done].
  apply rbind_ok in Hmc as (d1 & _ & Hmc). apply rbind_ok in Hmc as (d2 & _ & Hmc).
  destruct (negb _ && _); [done|]. ok_inv. done.
Qed.

(** An accepted join, other than the creator's first, is the sender's own, of a user who
    is not banned; and either the room is public, or the user is invited or already joined
    under a rule that lets invited users in, or a joined user who has the level to invite
    vouches for him under a restricted rule. *)
Theorem join_needs_permission `{SignedJson} rv e auth :
  _is_membership_change_allowed rv e auth = Ok tt ->
  membership e = Ok (JStr Membership.JOIN) ->
  is_creator_first_join rv e (JStr Membership.JOIN) auth = Ok false ->
  state_key e = Ok (user_id e) /\ ~ in_state auth (user_id e) Membership.BAN /\
  (room_join_rule auth = JStr JoinRules.PUBLIC \/
   (invited_suffices rv (room_join_rule auth) /\
    (in_state auth (user_id e) Membership.JOIN \/ in_state auth (user_id e) Membership.INVITE)) \/
   (authorisation_suffices rv (room_join_rule auth) /\
    exists u lu linv,
      oget (content e) EventContentFields.AUTHORISING_USER JNull = JStr u /\
      in_state auth u Membership.JOIN /\ get_user_power_level u auth = Ok lu /\
      get_named_level auth "invite" 0 = Ok linv /\ linv <= lu)).
Proof.
  intros Ha Hm Hf. apply (rules_sound rv e auth _ Hm) in Ha.
  assert (Hr : exists mc, get_membership_context rv e auth = Ok mc /\ target_user_id mc = user_id e /\
                 target_banned mc = false /\ may_join rv e auth mc).
  { inversion Ha as [| | |mc [_ Hmc]| | | | |]; [congruence|]. eauto. }
  destruct Hr as (mc & Hmc & Hself & Hb & Hj).
  destruct (membership_context_ok rv e auth mc Hmc) as (Ht & _ & _ & Hi & _).
  destruct (membership_context_state rv e auth mc Hmc) as (Hin & Hinv & _ & Hban).
  rewrite <- (membership_context_rule rv e auth mc Hmc). rewrite Hself in *.
  split_and!; [done|by rewrite <- Hban, Hb|].
  destruct Hj as [?|? [?|?]|u Hs (Hu & _ & Hjoined & l & Hl & Hle)]; [auto|tauto|tauto|].
  right; right. split; [done|]. exists u, l, (invite_level mc). auto.
Qed.

(** ** Witnesses *)

Definition ev_join_rules (r : string) : event :=
  mk_event rv11 "jr" EventTypes.JoinRules "@admin:a" (Some "") [("join_rule", JStr r)] ["$x"] [].
Definition ev_membership (snd target ms : string) : event :=
  mk_event rv11 "new" EventTypes.Member snd (Some target) [("membership", JStr ms)] ["$x"] [].

(** The admin and a moderator are joined, [@evil:a] is banned, [@guest:a] is invited. *)
Definition room2 : StateMap event :=
  state_of [ev_create; ev_member "@admin:a" "join"; ev_member "@mod:a" "join";
            ev_member "@evil:a" "ban"; ev_member "@guest:a" "invite"; pl_old;
            ev_join_rules "invite"].

Ltac in_state_tac := eexists; split; reflexivity.

Lemma banned_users_stay_out_witness :
  Membership.LEAVE = Membership.LEAVE \/ Membership.LEAVE = Membership.BAN.
Proof.
  apply (banned_users_stay_out rv11 (ev_membership "@admin:a" "@evil:a" "leave") room2
           Membership.LEAVE "@evil:a"); try reflexivity.
  in_state_tac.
Defined.

Lemma removal_needs_power_witness :
  _is_membership_change_allowed rv11 (ev_membership "@admin:a" "@mod:a" "leave") room2 = Ok tt /\
  in_state room2 "@admin:a" Membership.JOIN.
Proof.
  split; [reflexivity|].
  apply (removal_needs_power rv11 (ev_membership "@admin:a" "@mod:a" "leave") room2
           Membership.LEAVE "@mod:a"); try reflexivity; [by left|discriminate].
Defined.

Lemma join_needs_permission_witness :
  _is_membership_change_allowed rv11 (ev_membership "@guest:a" "@guest:a" "join") room2 = Ok tt /\
  ~ in_state room2 "@guest:a" Membership.BAN.
Proof.
  split; [reflexivity|].
  apply (join_needs_permission rv11 (ev_membership "@guest:a" "@guest:a" "join") room2);
    reflexivity.
Defined.

(** What the same room refuses. *)
Example membership_rejected :
  map (fun e => is_ok (_is_membership_change_allowed rv11 e room2))
    [ev_membership "@mod:a" "@admin:a" "ban"; ev_membership "@evil:a" "@evil:a" "join";
     ev_membership "@admin:a" "@evil:a" "invite"; ev_membership "@mod:a" "@guest:a" "join";
     ev_membership "@x:a" "@x:a" "join"; ev_membership "@guest:a" "@guest:a" "leave"]
  = [false; false; false; false; false; true].
Proof. vm_compute. reflexivity. Qed.
