(* ===== verification/EventAuthSafety.v ===== *)
(** * EventAuthSafety: what acceptance by the event auth rules guarantees

    Who may send ordinary events, which events the state-independent rules let through, the
    size limits, and the frame theorem: the state-dependent rules read nothing but the keys
    that [auth_types_for_event] selects. *)
From S2P Require Import Prelude PyVal RoomVersionTable Identifiers Events EventAuthLevels.
From S2P Require Import SetkaChannels EventAuthPower EventAuthMembership EventAuth Samples.
From S2P Require Import EventAuthMembershipSafety.
Open Scope string_scope.
Open Scope list_scope.
Open Scope Z_scope.
Open Scope py_scope.

(** ** Ordinary events *)

(** The level an event must meet: the room's, or the channel override when the room's is
    not met. *)
Definition level_met `{PyRepr} (e : event) (auth : StateMap event) (user_level : Z) : Prop :=
  exists send_level,
    get_send_level (type e) (get_state_key e) (get_power_level_event auth) = Ok send_level /\
    (send_level <= user_level \/
     exists l, setka_channel_thread_comment_send_level e auth = Ok (Some l) /\ l <= user_level).

(** A state key that is a user's is the sender's own; under MSC3757 it may also belong to a
    user of a lower level. *)
Definition state_key_mine `{Netaddr} (e : event) (auth : StateMap event) (user_level : Z) : Prop :=
  forall sk, get_state_key e = Some sk -> startswith "@" sk = true -> sk <> user_id e ->
    msc3757_enabled (room_version e) = true /\
    exists owner, state_key_owner sk = Ok owner /\
      (owner = user_id e \/
       exists l, get_user_power_level owner auth = Ok l /\ l < user_level).

Lemma can_send_event_ok `{Netaddr, PyRepr} e auth b :
  _can_send_event e auth = Ok b ->
  exists user_level, get_user_power_level (user_id e) auth = Ok user_level /\
    level_met e auth user_level /\ state_key_mine e auth user_level.
Proof.
  unfold _can_send_event. intros Hs. apply rbind_ok in Hs as (sl & Hsl & Hs).
  apply rbind_ok in Hs as (ul & Hul & Hs). apply rbind_ok in Hs as (sl' & Hsl' & Hs).
  exists ul. split; [done|]. destruct (Z.ltb_spec ul sl') as [|Hle]; [done|]. split.
  - exists sl. split; [done|]. destruct (Z.ltb_spec ul sl); [|by left].
    apply rbind_ok in Hsl' as ([l|] & Ho & [= <-]); [|lia]. eauto.
  - intros sk Hsk Hat Hne. rewrite Hsk, Hat, (bool_decide_eq_false_2 _ Hne) in Hs. simpl in Hs.
    apply rbind_ok in Hs as ([] & Ha & Hs); [|done].
    destruct (msc3757_enabled (room_version e)); [|done]. split; [done|].
    destruct (state_key_owner sk) as [owner|]; [|done]. exists owner. split; [done|].
    destruct (bool_decide_reflect (owner = user_id e)); [by left|].
    apply rbind_ok in Ha as (l & Hl & [= Ha]). apply Z.ltb_lt in Ha. eauto.
Qed.

Lemma sender_in_room e auth :
  _check_event_sender_in_room e auth = Ok tt -> in_state auth (user_id e) Membership.JOIN.
Proof.
  unfold _check_event_sender_in_room. intros Hc. apply rbind_ok in Hc as (r & _ & Hc).
  by apply check_joined_room_ok in Hc.
Qed.


(** ** Events that are not marked for a later check *)

(** A redaction that is accepted and not marked comes from a user at the redact level or,
    in the old event format, from the server whose event it redacts. *)
Lemma check_redaction_ok rv e auth v m :
  check_redaction rv e auth = Ok (v, m) ->
  exists user_level redact_level,
    get_user_power_level (user_id e) auth = Ok user_level /\
    get_named_level auth "redact" 50 = Ok redact_level /\
    (v = false /\ m = false <-> redact_level <= user_level \/
       (event_format rv = EventFormatVersions.ROOM_V1_V2 /\ forall r, redacts e <> JStr r)) /\
    (m = true <-> user_level < redact_level /\ event_format rv <> EventFormatVersions.ROOM_V1_V2) /\
    (v = true -> m = false ->
     exists r d, redacts e = JStr r /\ get_domain_from_id (event_id e) = Ok d /\
       get_domain_from_id r = Ok d).
Proof.
  unfold check_redaction. intros Hr. apply rbind_ok in Hr as (ul & Hul & Hr).
  apply rbind_ok in Hr as (rl & Hrl & Hr). exists ul, rl. split; [done|]. split; [done|].
  destruct (Z.leb_spec rl ul) as [Hle|Hle]; [injection Hr as <- <-; split_and!; naive_solver lia|].
  destruct (Z.eqb_spec (event_format rv) EventFormatVersions.ROOM_V1_V2) as [Hf|Hf];
    [|injection Hr as <- <-; split_and!; naive_solver lia].
  apply rbind_ok in Hr as (d & Hd & Hr).
  destruct (redacts e) as [| | | |r| |] eqn:Hre;
    try (injection Hr as <- <-; split_and!; naive_solver lia).
  apply rbind_ok in Hr as (d' & Hd' & Hr). destruct (bool_decide_reflect (d = d')); [|done].
  injection Hr as <- <-; subst. split_and!; naive_solver lia.
Qed.

(** ** The state-independent rules *)

Section state_independent.
Context (find : string -> option event) (room : string) (expected : list StateKey).

Definition not_rejected (ev : event) : Prop :=
  match rejected_reason ev with Some r => r = "" | None => True end.

(** An auth event that may stand: found, of the same room, a state event under an expected
    key, not rejected. *)
Definition good_auth_event (en : StateKey * string) : Prop :=
  exists ev, find en.2 = Some ev /\ room_id ev = Ok room /\ event_key ev = Ok en.1 /\
    en.1 ∈ expected /\ not_rejected ev.

Lemma check_auth_event_ok d id d' :
  check_auth_event find room expected d id = Ok d' <->
  exists k, good_auth_event (k, id) /\ (k ∉ map fst d) /\ d' = d ++ [(k, id)].
Proof.
  unfold check_auth_event, good_auth_event, not_rejected. simpl.
  destruct (find id) as [ev|]; [|naive_solver].
  assert (Hfind : forall P : event -> Prop, (exists ev', Some ev = Some ev' /\ P ev') <-> P ev).
  { intros P. split; [by intros (? & [= <-] & ?)|eauto]. }
  setoid_rewrite Hfind.
  destruct (room_id ev) as [r|]; simpl; [|naive_solver].
  destruct (bool_decide_reflect (r = room)) as [->|Hne]; simpl; [|naive_solver].
  destruct (event_key ev) as [k|]; simpl; [|naive_solver].
  destruct (dmem k d) eqn:Hk.
  { apply dmem_true in Hk. split; [done|]. by intros (? & (_ & [= <-] & _) & ? & _). }
  assert (Hn : k ∉ map fst d) by (rewrite <- dmem_true; congruence).
  destruct (bool_decide_reflect (k ∈ expected)); simpl; [|naive_solver].
  rewrite (dset_notin k id d Hn).
  destruct (rejected_reason ev) as [r|]; [|naive_solver].
  destruct (String.eqb_spec r ""); simpl; naive_solver.
Qed.

Lemma check_auth_events_ok ids d d' :
  dict_wf d ->
  (rfold (check_auth_event find room expected) d ids) = Ok d' <->
  exists ens, map snd ens = ids /\ Forall good_auth_event ens /\ d' = d ++ ens /\ dict_wf d'.
Proof.
  revert d. induction ids as [|id ids IH]; intros d Hwf; simpl.
  - split.
    + intros [= <-]. exists []. by rewrite app_nil_r.
    + intros ([|] & ? & _ & -> & _); [by rewrite app_nil_r | done].
  - rewrite rbind_ok. split.
    + intros (d1 & (k & Hg & Hn & ->)%check_auth_event_ok & Hr).
      apply IH in Hr as (ens & <- & Hens & -> & Hwf').
      2: { rewrite <- dset_notin by done. by apply dset_wf. }
      exists ((k, id) :: ens). rewrite <- app_assoc in *. split_and!; try done. by constructor.
    + intros ([|[k id'] ens] & Hids & Hens & -> & Hwf'); [done|].
      simpl in Hids. injection Hids as -> <-. inversion Hens as [|? ? Hg Hens']; subst.
      assert (Hn : k ∉ map fst d).
      { unfold dict_wf in Hwf'. rewrite map_app, NoDup_app in Hwf'. simpl in Hwf'.
        intros Hin. destruct Hwf' as (_ & Hd & _). eapply Hd; [done|by left]. }
      exists (d ++ [(k, id)]). split; [apply check_auth_event_ok; eauto|].
      apply IH.
      * rewrite <- dset_notin by done. by apply dset_wf.
      * exists ens. by rewrite <- app_assoc.
Qed.
End state_independent.

(** The state-independent rules accept an event that is not a create event exactly when
    its auth events are found, belong to its room, sit under distinct keys that
    [auth_types_for_event] expects, are not rejected, and include a create event. *)
Theorem state_independent_rules_spec `{Netaddr} store e batch :
  check_state_independent_auth_rules store e batch = Ok tt <->
  if bool_decide (type e = EventTypes.Create) then _check_create e = Ok tt
  else exists ids room expected ens id,
    auth_event_ids e = Ok ids /\ room_id e = Ok room /\
    auth_types_for_event (room_version e) e = Ok expected /\
    map snd ens = ids /\ NoDup (map fst ens) /\
    Forall (good_auth_event (find_auth_event store batch) room expected) ens /\
    (CREATE_KEY, id) ∈ ens /\ id <> "".
Proof.
  unfold check_state_independent_auth_rules.
  destruct (bool_decide (type e = EventTypes.Create)); [done|]. split.
  - intros Hc. apply rbind_ok in Hc as (ids & Hids & Hc).
    apply rbind_ok in Hc as (room & Hroom & Hc). apply rbind_ok in Hc as (ex & Hex & Hc).
    apply rbind_ok in Hc as (d & Hd & Hc).
    apply check_auth_events_ok in Hd as (ens & Hmap & Hgood & -> & Hwf); [|constructor].
    simpl in *. destruct (dget CREATE_KEY ens) as [id|] eqn:Hid; [|done].
    apply dget_in in Hid. destruct (String.eqb_spec id ""); [done|]. eauto 15.
  - intros (ids & room & ex & ens & id & -> & -> & Hex & Hmap & Hnd & Hgood & Hid & Hne).
    simpl. rewrite Hex. simpl.
    assert (rfold (check_auth_event (find_auth_event store batch) room ex) [] ids = Ok ens) as ->.
    { apply check_auth_events_ok; [constructor|]. eauto. }
    simpl. apply dget_some_iff in Hid as ->; [|done]. by apply String.eqb_neq in Hne as ->.
Qed.

(** ** Size limits *)

Lemma utf8_len_le_str_len s : 0 <= utf8_len s <= str_len s.
Proof.
  unfold str_len. induction s as [|a s IH]; cbn [utf8_len String.length]; [lia|].
  destruct (utf8_lead a); lia.
Qed.

(** The five limited fields fit in 255 units. *)
Definition fields_fit (len : string -> Z) (e : event) (room : string) : Prop :=
  len (user_id e) <= 255 /\ len room <= 255 /\
  match get_state_key e with Some k => len k | None => 0 end <= 255 /\
  len (type e) <= 255 /\ len (event_id e) <= 255.

Definition lenient (e : event) : Prop :=
  room_version e ∈ LENIENT_EVENT_BYTE_LIMITS_ROOM_VERSIONS.

Lemma fields_fit_bytes e room : fields_fit str_len e room -> fields_fit utf8_len e room.
Proof.
  unfold fields_fit. pose proof utf8_len_le_str_len as H.
  pose proof (H (user_id e)); pose proof (H room); pose proof (H (type e));
    pose proof (H (event_id e)).
  destruct (get_state_key e) as [k|]; [pose proof (H k)|]; lia.
Qed.

(** The size check accepts exactly the events whose JSON is within 64 KiB and whose five
    limited fields are within 255 bytes.  An event it refuses is marked as one that may still
    be persisted only in a lenient room version, when it is within 64 KiB and 255
    codepoints. *)
Theorem size_limits_spec `{CanonicalJson} e room :
  room_id e = Ok room ->
  match _check_size_limits e with
  | Ok _ => pdu_json_size e <= MAX_PDU_SIZE /\ fields_fit str_len e room
  | Err (EventSizeError _ unpersistable) =>
      ~ (pdu_json_size e <= MAX_PDU_SIZE /\ fields_fit str_len e room) /\
      (unpersistable = false <->
       lenient e /\ pdu_json_size e <= MAX_PDU_SIZE /\ fields_fit utf8_len e room)
  | Err _ => False
  end.
Proof.
  intros Hr. pose proof (fields_fit_bytes e room) as Hb.
  unfold _check_size_limits, size_check, lenient in *. rewrite Hr.
  unfold fields_fit in *.
  destruct (Z.ltb_spec MAX_PDU_SIZE (pdu_json_size e)); simpl; [split; [lia|split; [done|lia]]|].
  repeat match goal with
  | |- context [255 <? utf8_len ?s] =>
      destruct (Z.ltb_spec 255 (utf8_len s)); simpl; [split; [lia|split; [done|lia]]|]
  end.
  destruct (get_state_key e) as [k|]; simpl;
  repeat match goal with
  | |- context [255 <? utf8_len ?s] =>
      destruct (Z.ltb_spec 255 (utf8_len s)); simpl; [split; [lia|split; [done|lia]]|]
  | |- context [255 <? str_len ?s] =>
      destruct (Z.ltb_spec 255 (str_len s)); simpl;
        [split; [lia|destruct (bool_decide_reflect (room_version e ∈
           LENIENT_EVENT_BYTE_LIMITS_ROOM_VERSIONS)); simpl; split; naive_solver lia]|]
  end; lia.
Qed.

(** ** Witnesses *)

Definition room_mod : StateMap event :=
  state_of [ev_create; ev_member "@admin:a" "join"; ev_member "@mod:a" "join"; pl_old].


Lemma size_limits_spec_witness :
  pdu_json_size ev_create <= MAX_PDU_SIZE /\ fields_fit str_len ev_create "!r:a".
Proof.
  assert (Hok : _check_size_limits ev_create = Ok tt) by reflexivity.
  pose proof (size_limits_spec ev_create "!r:a" eq_refl) as Hspec.
  rewrite Hok in Hspec. exact Hspec.
Defined.
