(* ===== verification/EventAuthFrame.v ===== *)
(** * EventAuthFrame: the rules read only the selected auth events

    [auth_types_for_event] selects the state keys to attach to an event as its auth events.
    The frame theorem: on two states that agree on those keys, the state-dependent rules give
    the same answer, the same error included.  So nothing is lost by checking an event
    against its auth events in place of the whole room state. *)
From S2P Require Import Prelude PyVal RoomVersionTable Identifiers Events EventAuthLevels.
From S2P Require Import SetkaChannels EventAuthPower EventAuthMembership EventAuth Samples.
From S2P Require Import EventAuthMembershipSafety EventAuthSafety.
Open Scope string_scope.
Open Scope list_scope.
Open Scope Z_scope.
Open Scope py_scope.

(** Two states agree on a set of keys. *)
Definition agree (ks : list StateKey) (a a' : StateMap event) : Prop :=
  forall k, k ∈ ks -> dget k a = dget k a'.

#[global] Instance agree_equiv ks : Equivalence (agree ks).
Proof.
  split.
  - by intros a k _.
  - intros a b Hab k Hk. symmetry. by apply Hab.
  - intros a b c Hab Hbc k Hk. by rewrite (Hab k Hk), (Hbc k Hk).
Qed.

Lemma agree_mono ks ks' a a' : ks' ⊆ ks -> agree ks a a' -> agree ks' a a'.
Proof. intros Hs Ha k Hk. by apply Ha, Hs. Qed.

(** ** The selected keys *)

Lemma add_auth_type_ok etype key types types' :
  add_auth_type etype key types = Ok types' ->
  hashable key = true /\ types ⊆ types' /\ forall k, key = JStr k -> (etype, k) ∈ types'.
Proof.
  unfold add_auth_type. intros Ha.
  destruct key; simpl in *; injection Ha as <- || discriminate Ha;
    (split; [done|split; [set_solver|intros k [=]]]).
  subst. set_solver.
Qed.

(** What a member event's selection contains. *)
Lemma member_auth_types_ok rv e types types' :
  member_auth_types rv e types = Ok types' ->
  exists ms sk, membership e = Ok ms /\ state_key e = Ok sk /\ types ⊆ types' /\
    (EventTypes.Member, sk) ∈ types' /\
    (existsb (jeqs ms) [Membership.JOIN; Membership.INVITE; Membership.KNOCK] = true ->
     (EventTypes.JoinRules, "") ∈ types') /\
    (jeqs ms Membership.INVITE = true -> forall tpi,
     dget "third_party_invite" (content e) = Some tpi ->
     exists signed token, py_getitem tpi (JStr "signed") = Ok signed /\
       py_getitem signed (JStr "token") = Ok token /\
       forall k, token = JStr k -> (EventTypes.ThirdPartyInvite, k) ∈ types') /\
    (restricted_join_rule rv = true -> jeqs ms Membership.JOIN = true -> forall k,
     dget EventContentFields.AUTHORISING_USER (content e) = Some (JStr k) ->
     (EventTypes.Member, k) ∈ types').
Proof.
  unfold member_auth_types. intros Hm. apply rbind_ok in Hm as (ms & Hms & Hm).
  apply rbind_ok in Hm as (sk & Hsk & Hm). apply rbind_ok in Hm as (t2 & Ht2 & Hm).
  exists ms, sk. split; [done|]. split; [done|].
  set (t1 := if existsb _ _ then _ else _) in Ht2.
  assert (H1 : types ⊆ t1 /\ (existsb (jeqs ms) [Membership.JOIN; Membership.INVITE;
                 Membership.KNOCK] = true -> (EventTypes.JoinRules, "") ∈ t1)).
  { subst t1. destruct (existsb _ _); set_solver. }
  clearbody t1. destruct H1 as [Ht1 Hjr].
  assert (H2 : t1 ++ [(EventTypes.Member, sk)] ⊆ t2 /\
    (jeqs ms Membership.INVITE = true -> forall tpi,
     dget "third_party_invite" (content e) = Some tpi ->
     exists signed token, py_getitem tpi (JStr "signed") = Ok signed /\
       py_getitem signed (JStr "token") = Ok token /\
       forall k, token = JStr k -> (EventTypes.ThirdPartyInvite, k) ∈ t2)).
  { destruct (dget "third_party_invite" (content e)) as [tpi|];
      [|injection Ht2 as <-; split; [done|intros _ ? [=]]].
    destruct (jeqs ms Membership.INVITE); [|injection Ht2 as <-; split; [done|intros [=]]].
    apply rbind_ok in Ht2 as (sg & Hsg & Ht2). apply rbind_ok in Ht2 as (tok & Htok & Ht2).
    apply add_auth_type_ok in Ht2 as (_ & ? & ?). split; [done|].
    intros _ ? [= <-]. eauto. }
  destruct H2 as [Ht12 Htpi].
  assert (H3 : t2 ⊆ types' /\
    (restricted_join_rule rv = true -> jeqs ms Membership.JOIN = true -> forall k,
     dget EventContentFields.AUTHORISING_USER (content e) = Some (JStr k) ->
     (EventTypes.Member, k) ∈ types')).
  { destruct (dget EventContentFields.AUTHORISING_USER (content e)) as [a|];
      [|injection Hm as <-; split; [done|intros _ _ ? [=]]].
    destruct (restricted_join_rule rv && jeqs ms Membership.JOIN) eqn:Hb.
    - apply add_auth_type_ok in Hm as (_ & ? & Hk). split; [done|].
      intros _ _ k [= ->]. by apply Hk.
    - injection Hm as <-. split; [done|]. intros H1 H2. by rewrite H1, H2 in Hb. }
  destruct H3 as [Ht23 Hauth]. split_and!; try done; try set_solver.
Qed.

Lemma auth_types_common rv e types :
  auth_types_for_event rv e = Ok types -> type e <> EventTypes.Create ->
  CREATE_KEY ∈ types /\ POWER_KEY ∈ types /\ (EventTypes.Member, sender e) ∈ types /\
  (type e = EventTypes.Member ->
   member_auth_types rv e
     [(EventTypes.PowerLevels, ""); (EventTypes.Member, sender e); (EventTypes.Create, "")]
   = Ok types).
Proof.
  unfold auth_types_for_event. intros Ht Hc. rewrite (bool_decide_eq_false_2 _ Hc) in Ht.
  destruct (bool_decide_reflect (type e = EventTypes.Member)) as [Hm|Hm].
  - assert (Hs := Ht). apply member_auth_types_ok in Hs as (? & ? & _ & _ & Hs & _).
    unfold CREATE_KEY, POWER_KEY. set_solver.
  - injection Ht as <-. unfold CREATE_KEY, POWER_KEY. set_solver.
Qed.

(** ** Frames of the parts *)

(** The two events that levels are read from. *)
Definition agree_levels (a a' : StateMap event) : Prop := agree [CREATE_KEY; POWER_KEY] a a'.

Lemma agree_levels_get a a' :
  agree_levels a a' -> dget CREATE_KEY a = dget CREATE_KEY a' /\ dget POWER_KEY a = dget POWER_KEY a'.
Proof. intros Ha; split; apply Ha; set_solver. Qed.

Lemma user_level_frame u a a' :
  agree_levels a a' -> get_user_power_level u a = get_user_power_level u a'.
Proof. intros [? ?]%agree_levels_get. by apply get_user_power_level_ext. Qed.

Lemma named_level_frame n d a a' :
  agree_levels a a' -> get_named_level a n d = get_named_level a' n d.
Proof. intros [? ?]%agree_levels_get. by apply get_named_level_ext. Qed.

Lemma power_level_event_frame a a' :
  agree_levels a a' -> get_power_level_event a = get_power_level_event a'.
Proof. by intros [? ?]%agree_levels_get. Qed.

Lemma can_federate_frame a a' : agree_levels a a' -> _can_federate a = _can_federate a'.
Proof. intros [Hc _]%agree_levels_get. unfold _can_federate. by rewrite Hc. Qed.

Lemma sender_in_room_frame e a a' :
  agree [(EventTypes.Member, sender e)] a a' ->
  _check_event_sender_in_room e a = _check_event_sender_in_room e a'.
Proof.
  intros Ha. unfold _check_event_sender_in_room, user_id. rewrite (Ha (EventTypes.Member, sender e));
    [done|set_solver].
Qed.

Lemma override_frame `{PyRepr} e a a' :
  agree_levels a a' ->
  (is_feed_type (type e) = true -> _is_setka_channel_state a = _is_setka_channel_state a') ->
  setka_channel_thread_comment_send_level e a = setka_channel_thread_comment_send_level e a'.
Proof.
  intros [_ Hp]%agree_levels_get Ht. unfold setka_channel_thread_comment_send_level.
  destruct (is_feed_type (type e)); [|done]. simpl.
  by rewrite (Ht eq_refl), Hp.
Qed.

Lemma can_send_event_frame `{Netaddr, PyRepr} e a a' :
  agree_levels a a' ->
  (is_feed_type (type e) = true -> _is_setka_channel_state a = _is_setka_channel_state a') ->
  _can_send_event e a = _can_send_event e a'.
Proof.
  intros Ha Ht. unfold _can_send_event.
  rewrite (power_level_event_frame a a' Ha), (user_level_frame _ a a' Ha),
    (override_frame e a a' Ha Ht).
  repeat (apply rbind_ext; intros ? _). destruct (_ <? _); [done|].
  destruct (get_state_key e) as [sk|]; [|done]. destruct (startswith _ _ && _); [|done].
  f_equal. destruct (msc3757_enabled _); [|done]. destruct (state_key_owner sk) as [o|]; [|done].
  by rewrite (user_level_frame o a a' Ha).
Qed.

Lemma check_power_levels_frame `{SetOrder} rv e a a' :
  type e = EventTypes.PowerLevels -> state_key_field e = Some "" -> agree_levels a a' ->
  _check_power_levels rv e a = _check_power_levels rv e a'.
Proof.
  intros Hty Hsk Ha. destruct (agree_levels_get a a' Ha) as [Hc Hp].
  assert (Hk : event_key e = Ok POWER_KEY) by (apply event_key_ok; by rewrite Hty, Hsk).
  unfold _check_power_levels, check_creators_not_in_users. rewrite Hk. simpl.
  by rewrite Hc, Hp, (user_level_frame _ a a' Ha).
Qed.

Lemma check_redaction_frame rv e a a' :
  agree_levels a a' -> check_redaction rv e a = check_redaction rv e a'.
Proof.
  intros Ha. unfold check_redaction.
  by rewrite (user_level_frame _ a a' Ha), (named_level_frame _ _ a a' Ha).
Qed.

Lemma sender_rules_frame `{Netaddr, PyRepr, SetOrder} e a a' :
  agree_levels a a' -> agree [(EventTypes.Member, sender e)] a a' ->
  (is_feed_type (type e) = true -> _is_setka_channel_state a = _is_setka_channel_state a') ->
  (type e = EventTypes.PowerLevels -> state_key_field e = Some "") ->
  check_sender_rules e a = check_sender_rules e a'.
Proof.
  intros Ha Hm Ht Hpl. unfold check_sender_rules.
  rewrite (sender_in_room_frame e a a' Hm), (user_level_frame _ a a' Ha),
    (named_level_frame _ _ a a' Ha), (can_send_event_frame e a a' Ha Ht),
    (check_redaction_frame _ e a a' Ha).
  destruct (bool_decide_reflect (type e = EventTypes.PowerLevels)) as [Hp|]; [|done].
  by rewrite (check_power_levels_frame _ e a a' Hp (Hpl Hp) Ha).
Qed.

(** ** Frame of the membership rules *)

Definition set_join_rule (j : json) (mc : membership_context) : membership_context := {|
  target_user_id := target_user_id mc; caller_in_room := caller_in_room mc;
  caller_invited := caller_invited mc; caller_knocked := caller_knocked mc;
  target_in_room := target_in_room mc; target_banned := target_banned mc;
  join_rule := j; user_level := user_level mc; target_level := target_level mc;
  invite_level := invite_level mc; ban_level := ban_level mc |}.

Lemma set_join_rule_id mc : set_join_rule (join_rule mc) mc = mc.
Proof. by destruct mc. Qed.

Section member_frame.
Context `{SignedJson} (rv : RoomVersion) (e : event) (ms : json) (sk : string).
Context (types : list StateKey) (a a' : StateMap event).
Hypothesis Hms : membership e = Ok ms.
Hypothesis Hsk : state_key e = Ok sk.
Hypothesis Hlevels : agree_levels a a'.
Hypothesis Hagree : agree types a a'.
Hypothesis Hsender : (EventTypes.Member, user_id e) ∈ types.
Hypothesis Htarget : (EventTypes.Member, sk) ∈ types.

(** The context depends on the selected keys but for the join rule. *)
Lemma membership_context_frame :
  get_membership_context rv e a' =
  let* mc := get_membership_context rv e a in Ok (set_join_rule (room_join_rule a') mc).
Proof.
  unfold get_membership_context. rewrite Hsk. simpl.
  destruct (agree_levels_get a a' Hlevels) as [Hc _]. rewrite <- Hc.
  destruct (dget CREATE_KEY a) as [c|]; simpl; [|done].
  rewrite <- (can_federate_frame a a' Hlevels).
  rewrite <- (Hagree _ Hsender), <- (Hagree _ Htarget).
  rewrite <- !(user_level_frame _ a a' Hlevels), <- !(named_level_frame _ _ a a' Hlevels).
  destruct (get_domain_from_id (sender c)); simpl; [|done].
  destruct (get_domain_from_id sk); simpl; [|done]. destruct (negb _ && _); simpl; [done|].
  by repeat match goal with
  | |- rbind ?c _ = _ => destruct c; simpl; [|done]
  end.
Qed.

Lemma first_join_frame :
  is_creator_first_join rv e ms a = is_creator_first_join rv e ms a'.
Proof.
  destruct (agree_levels_get a a' Hlevels) as [Hc _]. unfold is_creator_first_join. by rewrite Hc.
Qed.

(** A third-party invite's token is a selected key. *)
Lemma third_party_frame :
  (forall tpi, dget "third_party_invite" (content e) = Some tpi ->
   exists signed token, py_getitem tpi (JStr "signed") = Ok signed /\
     py_getitem signed (JStr "token") = Ok token /\
     forall k, token = JStr k -> (EventTypes.ThirdPartyInvite, k) ∈ types) ->
  _verify_third_party_invite e a = _verify_third_party_invite e a'.
Proof.
  intros Htp. unfold _verify_third_party_invite.
  destruct (dget "third_party_invite" (content e)) as [[| | | | | |tpi]|]; try done.
  destruct (Htp _ eq_refl) as (sg & tok & Hsg & Htok & Hk). simpl in Hsg.
  destruct (dget "signed" tpi) as [sg'|]; [|done]. injection Hsg as ->.
  destruct sg as [| | | | | |sg]; try done. simpl in Htok.
  destruct (dget "mxid" sg); [|done]. destruct (dget "token" sg) as [tok'|]; [|done].
  injection Htok as ->. destruct (dget "signatures" sg); [|done].
  unfold state_get_json. destruct tok; simpl; try done. by rewrite (Hagree _ (Hk _ eq_refl)).
Qed.

Lemma authorised_join_frame mc :
  (forall k, dget EventContentFields.AUTHORISING_USER (content e) = Some (JStr k) ->
   (EventTypes.Member, k) ∈ types) ->
  check_authorised_join e a mc = check_authorised_join e a' mc.
Proof.
  intros Hk. unfold check_authorised_join, oget.
  destruct (dget EventContentFields.AUTHORISING_USER (content e)) as [j|]; [|done].
  destruct j as [| | | |k| |]; simpl; try done. unfold state_get_json. simpl.
  by rewrite (Hagree _ (Hk _ eq_refl)), (user_level_frame k a a' Hlevels).
Qed.

Lemma branch_frame mc :
  join_rule mc = room_join_rule a ->
  (existsb (jeqs ms) [Membership.JOIN; Membership.INVITE; Membership.KNOCK] = true ->
   (EventTypes.JoinRules, "") ∈ types) ->
  (jeqs ms Membership.JOIN = true ->
   (restricted_join_rule rv || knock_restricted_join_rule rv) = true ->
   forall k, dget EventContentFields.AUTHORISING_USER (content e) = Some (JStr k) ->
   (EventTypes.Member, k) ∈ types) ->
  check_membership_branch rv e a ms mc =
  check_membership_branch rv e a' ms (set_join_rule (room_join_rule a') mc).
Proof.
  intros Hj Hjr Hk. unfold check_membership_branch.
  assert (Hsame : existsb (jeqs ms) [Membership.JOIN; Membership.INVITE; Membership.KNOCK] = true ->
                  set_join_rule (room_join_rule a') mc = mc).
  { intros Hb. assert (room_join_rule a' = join_rule mc) as ->; [|apply set_join_rule_id].
    unfold room_join_rule in *. by rewrite Hj, (Hagree _ (Hjr Hb)). }
  simpl in Hsame.
  destruct (jeqs ms Membership.INVITE) eqn:Hinv; [by rewrite Hsame by (by rewrite orb_true_r)|].
  destruct (jeqs ms Membership.JOIN) eqn:Hjoin.
  { rewrite Hsame by done. unfold check_join.
    destruct (bool_decide (user_id e = _)); simpl; [|done]. destruct (target_banned mc); [done|].
    destruct (jeqs _ JoinRules.PUBLIC); [done|].
    destruct ((restricted_join_rule rv && _) || _) eqn:Hr; [|done].
    destruct (negb _ && _); [|done]. apply authorised_join_frame. apply Hk; [done|].
    boolify. rewrite orb_true_iff. tauto. }
  destruct (jeqs ms Membership.LEAVE).
  { unfold check_leave. simpl. by rewrite (named_level_frame _ _ a a' Hlevels). }
  destruct (jeqs ms Membership.BAN); [done|].
  destruct (jeqs ms Membership.KNOCK) eqn:Hkn; [|by rewrite !andb_false_r].
  by rewrite Hsame by (by rewrite !orb_true_r).
Qed.
End member_frame.

Lemma membership_frame `{SignedJson} rv e a a' types :
  (knock_restricted_join_rule rv = true -> restricted_join_rule rv = true) ->
  type e = EventTypes.Member -> auth_types_for_event rv e = Ok types -> agree types a a' ->
  _is_membership_change_allowed rv e a = _is_membership_change_allowed rv e a'.
Proof.
  intros Hrv Hm Ht Ha. destruct (auth_types_common rv e types Ht) as (Hc & Hp & Hs & Hmem).
  { by rewrite Hm. }
  destruct (member_auth_types_ok rv e _ _ (Hmem Hm)) as (ms & sk & Hms & Hsk & _ & Htarget & Hjr
    & Htpi & Hauth).
  assert (Hl : agree_levels a a'). { eapply agree_mono; [|done]. set_solver. }
  unfold _is_membership_change_allowed. rewrite Hms. cbn [rbind].
  rewrite <- (first_join_frame rv e ms a a' Hl). apply rbind_ext. intros [] _; [done|].
  rewrite (membership_context_frame rv e sk types a a') by done. rewrite rbind_assoc.
  destruct (get_membership_context rv e a) as [mc|] eqn:Hmc; cbn [rbind]; [|done].
  destruct (jeqs ms Membership.INVITE && dmem "third_party_invite" (content e)) eqn:Htp.
  { boolify. destruct Htp as [Hi _].
    rewrite (third_party_frame e types a a') by auto. done. }
  apply rbind_ext. intros [] _; [done|].
  apply (branch_frame rv e ms types); try done.
  - by apply membership_context_rule in Hmc.
  - intros Hj Hr. apply Hauth; [|done]. apply orb_true_iff in Hr as [|]; auto.
Qed.

Lemma known_knock_restricted :
  forallb (fun rv => implb (knock_restricted_join_rule rv) (restricted_join_rule rv))
    (dvals KNOWN_ROOM_VERSIONS) = true.
Proof. vm_compute. reflexivity. Qed.

(** C4: on two states that agree on the keys [auth_types_for_event] selects, the
    state-dependent rules answer alike, errors included: the selected auth events decide.
    It is about events other than creation events, in the versions that have restricted joins
    where they have knock-restricted ones, as all known versions do.  The two events the
    selection does not cover are excluded: a power-levels event under a state key of its own,
    and a message or sticker where the states do not agree on whether the room's topic makes
    it a broadcast channel. *)
Theorem auth_events_decide `{Netaddr, PyRepr, SetOrder, SignedJson} e a a' types :
  (knock_restricted_join_rule (room_version e) = true -> restricted_join_rule (room_version e) = true) ->
  type e <> EventTypes.Create ->
  auth_types_for_event (room_version e) e = Ok types -> agree types a a' ->
  (type e = EventTypes.PowerLevels -> state_key_field e = Some "") ->
  (is_feed_type (type e) = true -> _is_setka_channel_state a = _is_setka_channel_state a') ->
  check_rules e a = check_rules e a'.
Proof.
  intros Hrv Hc Ht Ha Hpl Htopic.
  destruct (auth_types_common _ e types Ht Hc) as (Hck & Hpk & Hs & _).
  assert (Hl : agree_levels a a'). { eapply agree_mono; [|done]. set_solver. }
  destruct (agree_levels_get a a' Hl) as [Hcreate _].
  unfold check_rules. rewrite <- Hcreate. destruct (dget CREATE_KEY a) as [c|]; [|done].
  rewrite <- (can_federate_frame a a' Hl). repeat (apply rbind_ext; intros ? _).
  destruct (negb _ && _); [done|]. destruct (bool_decide (type e = EventTypes.Aliases) && _); [done|].
  destruct (bool_decide_reflect (type e = EventTypes.Member)) as [Hm|Hm].
  - by rewrite (membership_frame _ e a a' types).
  - apply sender_rules_frame; try done. intros k ->%list_elem_of_singleton. by apply Ha.
Qed.

(** ** The broadcast-channel override never applies to the selected auth events

    The override looks at the room topic, which [auth_types_for_event] never selects. *)

Definition not_topic (k : StateKey) : Prop := k.1 <> EventTypes.Topic.

Lemma add_auth_type_topic ty j l l' :
  ty <> EventTypes.Topic -> add_auth_type ty j l = Ok l' ->
  Forall not_topic l -> Forall not_topic l'.
Proof.
  unfold add_auth_type. intros Hty Hj Hl.
  destruct j; simpl in Hj; try done; injection Hj as <-; try done.
  apply Forall_app; split; [done|]. by repeat constructor.
Qed.

Lemma member_auth_types_topic rv e l l' :
  member_auth_types rv e l = Ok l' -> Forall not_topic l -> Forall not_topic l'.
Proof.
  unfold member_auth_types. intros Hm Hl. apply rbind_ok in Hm as (ms & _ & Hm).
  apply rbind_ok in Hm as (sk & _ & Hm). apply rbind_ok in Hm as (l2 & Hl2 & Hm).
  assert (H1 : Forall not_topic ((if existsb (jeqs ms)
     [Membership.JOIN; Membership.INVITE; Membership.KNOCK]
     then l ++ [(EventTypes.JoinRules, "")] else l) ++ [(EventTypes.Member, sk)])).
  { apply Forall_app; split; [|by repeat constructor].
    destruct (existsb _ _); [|done]. apply Forall_app; split; [done|by repeat constructor]. }
  assert (H2 : Forall not_topic l2).
  { destruct (dget "third_party_invite" _); [|by injection Hl2 as <-].
    destruct (jeqs ms Membership.INVITE); [|by injection Hl2 as <-]. ok_inv.
    eapply add_auth_type_topic; [|done|done]. done. }
  destruct (dget EventContentFields.AUTHORISING_USER _); [|by injection Hm as <-].
  destruct (_ && _); [|by injection Hm as <-].
  eapply add_auth_type_topic; [|done|done]. done.
Qed.

Lemma auth_types_no_topic rv e types :
  auth_types_for_event rv e = Ok types -> (EventTypes.Topic, "") ∉ types.
Proof.
  unfold auth_types_for_event. intros Ht Hin.
  assert (Hall : Forall not_topic types).
  { destruct (bool_decide (type e = EventTypes.Create)); [by injection Ht as <-|].
    assert (Hb : Forall not_topic [(EventTypes.PowerLevels, ""); (EventTypes.Member, sender e);
                                   (EventTypes.Create, "")]) by (by repeat constructor).
    destruct (bool_decide (type e = EventTypes.Member)); [|by injection Ht as <-].
    by eapply member_auth_types_topic. }
  rewrite Forall_forall in Hall. by apply (Hall _ Hin).
Qed.

Lemma dget_make_auth_dict l d k :
  make_auth_dict l = Ok d -> (forall e, e ∈ l -> event_key e <> Ok k) -> dget k d = None.
Proof.
  unfold make_auth_dict. intros Hd Hl.
  refine (rfold_inv (fun d => dget k d = None) _ l [] d _ eq_refl Hd).
  intros d0 ev d1 Hin Hd0 Hs. apply rbind_ok in Hs as (k' & Hk' & [= <-]).
  rewrite dget_dset_ne; [done|]. intros <-. by eapply Hl.
Qed.

(** On auth events chosen as [auth_types_for_event] says, the broadcast-channel override
    of the send level does nothing: it needs the room topic, which is never among them. *)
Theorem channel_override_never_applies `{PyRepr} e rv types auth_events auth_dict :
  auth_types_for_event rv e = Ok types ->
  make_auth_dict auth_events = Ok auth_dict ->
  (forall a k, a ∈ auth_events -> event_key a = Ok k -> k ∈ types) ->
  setka_channel_thread_comment_send_level e auth_dict = Ok None.
Proof.
  intros Ht Hd Hin. unfold setka_channel_thread_comment_send_level.
  destruct (is_feed_type (type e)); [|done]. simpl.
  unfold _is_setka_channel_state, _topic_from_state.
  rewrite (dget_make_auth_dict auth_events auth_dict (EventTypes.Topic, "") Hd); [done|].
  intros a Ha Hk. apply (auth_types_no_topic rv e types Ht). by eapply Hin.
Qed.

(** ** Witnesses *)

(** The room of [room2] with one more state event, outside the selection. *)
Definition ev_topic (t : string) : event :=
  mk_event rv11 "topic" EventTypes.Topic "@admin:a" (Some "") [("topic", JStr t)] ["$x"] [].
Definition room3 : StateMap event := dset (EventTypes.Topic, "") (ev_topic "setka:channel #news") room2.

Definition guest_join : event := ev_membership "@guest:a" "@guest:a" "join".
Definition guest_join_types : list StateKey :=
  [POWER_KEY; (EventTypes.Member, "@guest:a"); CREATE_KEY; (EventTypes.JoinRules, "");
   (EventTypes.Member, "@guest:a")].

Lemma agree_dset_other ks k v a : k ∉ ks -> agree ks a (dset k v a).
Proof. intros Hk k' Hk'. symmetry. apply dget_dset_ne. by intros ->. Qed.

Lemma auth_events_decide_witness :
  check_rules guest_join room2 = Ok false /\
  check_rules guest_join room2 = check_rules guest_join room3.
Proof.
  split; [reflexivity|].
  apply (auth_events_decide guest_join room2 room3 guest_join_types); try reflexivity.
  - discriminate.
  - apply agree_dset_other. apply (bool_decide_unpack _). reflexivity.
  - discriminate.
  - discriminate.
Defined.

Definition mod_message : event := ev_message "@mod:a" [("body", JStr "hi")].

Lemma channel_override_never_applies_witness :
  setka_channel_thread_comment_send_level mod_message
    (state_of [ev_create; pl_old; ev_member "@mod:a" "join"]) = Ok None.
Proof.
  apply (channel_override_never_applies mod_message rv11
           [POWER_KEY; (EventTypes.Member, "@mod:a"); CREATE_KEY]
           [ev_create; pl_old; ev_member "@mod:a" "join"]); [reflexivity..|].
  intros a k Ha. rewrite !elem_of_cons, elem_of_nil in Ha.
  destruct Ha as [->|[->|[->|[]]]]; intros [= <-]; apply (bool_decide_unpack _); reflexivity.
Defined.

(** With the topic in the state, as the broadcast-channel rules assume, the override would
    apply: to a plain message of a joined user below the room's level. *)
Example override_with_topic :
  map (fun c => setka_channel_thread_comment_send_level (ev_message "@mod:a" c) room3)
    [[("body", JStr "hi")];
     [("m.relates_to", JObj [("rel_type", JStr "m.thread"); ("event_id", JStr "$root")])]]
  = [Ok (Some 0); Ok None].
Proof. vm_compute. reflexivity. Qed.
