(* ===== verification/Redaction.v ===== *)
(** * Redaction: pruning an event (events/utils.py, crypto/event_signing.py)

    A redacted event keeps the fields the room version protects and loses the rest.  What is
    hashed and signed of an event is its pruned form.  For a create event the code prunes
    into the event's own content instead of a new dictionary, so [prune_event_dict] gives the
    event dictionary as it leaves it, next to the pruned one. *)
From S2P Require Import Prelude PyVal RoomVersionTable Events.
From Stdlib Require Import String.
Open Scope string_scope.
Open Scope list_scope.
Open Scope Z_scope.
Open Scope py_scope.

(** ** [prune_event_dict] *)

(** [event_dict\["content"\]], if there is one, and [new_content]: [None] when it is the
    same object. *)
Record pruning := { old_content : option json; own_content : option json }.

Definition get_content (w : pruning) : result json :=
  match old_content w with Some c => Ok c | None => Err KeyError end.

Definition get_new_content (w : pruning) : result json :=
  match own_content w with Some c => Ok c | None => get_content w end.

(** [new_content\[k\] = v] *)
Definition set_new_content (k : string) (v : json) (w : pruning) : result pruning :=
  let* c := get_new_content w in
  match c with
  | JObj o =>
      let c := JObj (dset k v o) in
      Ok match own_content w with
         | Some _ => {| old_content := old_content w; own_content := Some c |}
         | None => {| old_content := Some c; own_content := None |}
         end
  | _ => Err TypeError
  end.

Definition add_field (w : pruning) (field : string) : result pruning :=
  let* c := get_content w in
  let* present := py_in (JStr field) c in
  if present then let* v := py_getitem c (JStr field) in set_new_content field v w else Ok w.

Definition add_fields (fields : list string) (w : pruning) : result pruning :=
  rfold add_field w fields.

(** The fields of a dictionary among the given ones. *)
Definition pick (fields : list string) (o : obj) : obj :=
  omap (fun field => (fun v => (field, v)) <$> dget field o) fields.

(** Lines 162-170. *)
Definition add_third_party_invite (w : pruning) : result pruning :=
  let* c := get_content w in
  let* third_party_invite := jget c "third_party_invite" JNull in
  match as_mapping third_party_invite with
  | Some o => set_new_content "third_party_invite" (JObj (pick ["signed"] o)) w
  | None => Ok w
  end.

(** Lines 209-219. *)
Definition add_relation (w : pruning) : result pruning :=
  let* c := get_content w in
  let* relates_to := jget c "m.relates_to" JNull in
  match as_mapping relates_to with
  | Some o =>
      match pick ["rel_type"; "event_id"] o with
      | [] => Ok w
      | new_relates_to => set_new_content "m.relates_to" (JObj new_relates_to) w
      end
  | None => Ok w
  end.

Definition POWER_LEVEL_FIELDS : list string :=
  ["users"; "users_default"; "events"; "events_default"; "state_default"; "ban"; "kick"; "redact"].

(** Lines 158-207; [w] has an empty content of its own. *)
Definition prune_by_type (rv : RoomVersion) (event_type : json) (w : pruning) : result pruning :=
  let of_type t := jeqs event_type t in
  if of_type EventTypes.Member then
    let* w := add_fields ["membership"] w in
    let* w := if restricted_join_rule_fix rv
              then add_fields [EventContentFields.AUTHORISING_USER] w else Ok w in
    if updated_redaction_rules rv then add_third_party_invite w else Ok w
  else if of_type EventTypes.Create then
    let* w :=
      if updated_redaction_rules rv then
        let* c := get_content w in Ok {| old_content := Some c; own_content := None |}
      else Ok w in
    if negb (implicit_room_creator rv) then add_fields ["creator"] w else Ok w
  else if of_type EventTypes.JoinRules then
    let* w := add_fields ["join_rule"] w in
    if restricted_join_rule rv then add_fields ["allow"] w else Ok w
  else if of_type EventTypes.PowerLevels then
    let* w := add_fields POWER_LEVEL_FIELDS w in
    if updated_redaction_rules rv then add_fields ["invite"] w else Ok w
  else if of_type EventTypes.Aliases && special_case_aliases_auth rv then add_fields ["aliases"] w
  else if of_type EventTypes.RoomHistoryVisibility then add_fields ["history_visibility"] w
  else if of_type EventTypes.Redaction && updated_redaction_rules rv then add_fields ["redacts"] w
  else Ok w.

(** The new content: lines 151-219. *)
Definition prune_content (rv : RoomVersion) (event_type : json) (content : option json)
    : result pruning :=
  let* w := prune_by_type rv event_type {| old_content := content; own_content := Some (JObj []) |} in
  if msc3389_relation_redactions rv then add_relation w else Ok w.

Definition allowed_keys (rv : RoomVersion) (event_type : json) : list string :=
  let keys :=
    ["event_id"; "sender"; "room_id"; "hashes"; "signatures"; "content"; "type"; "state_key";
     "depth"; "prev_events"; "auth_events"; "origin_server_ts"]
    ++ (if negb (updated_redaction_rules rv) then ["prev_state"; "membership"; "origin"] else []) in
  if jeqs event_type EventTypes.Create && msc4291_room_ids_as_hashes rv
  then List.filter (fun k => negb (String.eqb k "room_id")) keys else keys.

(** Lines 225-233. *)
Definition prune_unsigned (event_unsigned : json) : result obj :=
  rfold (fun unsigned k =>
    let* present := py_in (JStr k) event_unsigned in
    if present then let* v := py_getitem event_unsigned (JStr k) in Ok (dset k v unsigned)
    else Ok unsigned) [] ["age_ts"; "replaces_state"].

(** The pruned dictionary, and the event dictionary afterwards. *)
Definition prune_event_dict (rv : RoomVersion) (event_dict : obj) : result (obj * obj) :=
  let* event_type := ogetitem event_dict "type" in
  let* w := prune_content rv event_type (dget "content" event_dict) in
  let* new_content := get_new_content w in
  let event_dict :=
    match old_content w with Some c => dset "content" c event_dict | None => event_dict end in
  let keys := allowed_keys rv event_type in
  let allowed_fields := List.filter (fun kv => bool_decide (kv.1 ∈ keys)) event_dict in
  let allowed_fields := dset "content" new_content allowed_fields in
  let* unsigned := prune_unsigned (oget event_dict "unsigned" (JObj [])) in
  Ok (dset "unsigned" (JObj unsigned) allowed_fields, event_dict).

(** ** [prune_event]

    The pruned event object: its dictionary is the pruned one, its reference hash, computed
    from the pruned form, the same, and a reason for rejection is not
    passed on. *)
Definition prune_event (e : event) : result event :=
  let* w := prune_content (room_version e) (JStr (type e)) (Some (JObj (content e))) in
  let* c := get_new_content w in
  let keys := allowed_keys (room_version e) (JStr (type e)) in
  match c with
  | JObj c => Ok {|
      room_version := room_version e; event_id_field := event_id_field e;
      reference_hash := reference_hash e; type := type e; sender := sender e;
      state_key_field := state_key_field e;
      room_id_field := if bool_decide ("room_id" ∈ keys) then room_id_field e else None;
      content := c; prev_events := prev_events e; auth_events_field := auth_events_field e;
      redacts_field := JNull; depth := depth e; origin_server_ts := origin_server_ts e;
      signatures := signatures e; rejected_reason := None |}
  | _ => Err TypeError
  end.

(** ** Hashes and signatures (crypto/event_signing.py) *)

Section signing.
(** [encode_canonical_json] of the canonicaljson package, and [sign_json] of signedjson: the
    signatures of a JSON object. *)
Context (encode_canonical_json : obj -> string) (sign_json : obj -> json).

(** [hash_algorithm(...).digest()]; a dictionary stands for the event. *)
Definition compute_event_reference_hash (rv : RoomVersion) (event : obj)
    (hash_algorithm : string -> string) : result string :=
  let* (event_dict, _) := prune_event_dict rv event in
  let event_dict := ddel "unsigned" (ddel "age_ts" (ddel "signatures" event_dict)) in
  Ok (hash_algorithm (encode_canonical_json event_dict)).

Definition compute_event_signature (rv : RoomVersion) (event_dict : obj) : result json :=
  let* (redact_json, _) := prune_event_dict rv event_dict in
  let redact_json := ddel "unsigned" (ddel "age_ts" redact_json) in
  Ok (sign_json redact_json).

Definition compute_content_hash (event_dict : obj) (hash_algorithm : string -> string) : string :=
  let event_dict := fold_left (fun d k => ddel k d)
    ["age_ts"; "unsigned"; "signatures"; "hashes"; "outlier"; "destinations"] event_dict in
  hash_algorithm (encode_canonical_json event_dict).
End signing.

(** * What redaction keeps

    The specification of pruning is a list of protected fields, each with what is kept of its
    value.  Pruning is shown to select them, so that pruning twice is pruning once, and an
    event and its redacted form have the same hash and signatures. *)

#[local] Arguments pick : simpl never.

(** ** Protected fields *)

Abbreviation keeper := (string * (json -> option json))%type.

(** The protected fields of a dictionary, in the order of the list. *)
Definition select (ks : list keeper) (o : obj) : obj :=
  omap (fun kf => (fun v => (kf.1, v)) <$> (dget kf.1 o ≫= kf.2)) ks.

Definition keep_all (fields : list string) : list keeper := map (fun k => (k, Some)) fields.

(** Of a third-party invite the signed part, of a relation its type and its target. *)
Definition keep_invite (v : json) : option json :=
  (fun o => JObj (pick ["signed"] o)) <$> as_mapping v.
Definition keep_relation (v : json) : option json :=
  match as_mapping v with
  | Some o => match pick ["rel_type"; "event_id"] o with [] => None | r => Some (JObj r) end
  | None => None
  end.

Definition protected_fields (rv : RoomVersion) (event_type : json) : list keeper :=
  (if jeqs event_type EventTypes.Member then
     keep_all ["membership"]
     ++ (if restricted_join_rule_fix rv then keep_all [EventContentFields.AUTHORISING_USER] else [])
     ++ (if updated_redaction_rules rv then [("third_party_invite", keep_invite)] else [])
   else if jeqs event_type EventTypes.Create then
     if negb (implicit_room_creator rv) then keep_all ["creator"] else []
   else if jeqs event_type EventTypes.JoinRules then
     keep_all ["join_rule"] ++ (if restricted_join_rule rv then keep_all ["allow"] else [])
   else if jeqs event_type EventTypes.PowerLevels then
     keep_all POWER_LEVEL_FIELDS ++ (if updated_redaction_rules rv then keep_all ["invite"] else [])
   else if jeqs event_type EventTypes.Aliases && special_case_aliases_auth rv then
     keep_all ["aliases"]
   else if jeqs event_type EventTypes.RoomHistoryVisibility then keep_all ["history_visibility"]
   else if jeqs event_type EventTypes.Redaction && updated_redaction_rules rv then
     keep_all ["redacts"]
   else [])
  ++ (if msc3389_relation_redactions rv then [("m.relates_to", keep_relation)] else []).

(** Create events of the newer room versions keep their whole content. *)
Definition keeps_content (rv : RoomVersion) (event_type : json) : bool :=
  jeqs event_type EventTypes.Create && updated_redaction_rules rv.

(** ** Selecting *)

Lemma dset_same {K V} `{EqDecision K} (k : K) (v : V) d : dget k d = Some v -> dset k v d = d.
Proof.
  induction d as [|[k' v'] d IH]; simpl; [done|]. case_decide as Hk; [by intros [= ->]; subst|].
  intros Hd. by rewrite IH.
Qed.

Lemma select_app ks ks' o : select (ks ++ ks') o = select ks o ++ select ks' o.
Proof. unfold select. apply omap_app. Qed.

Lemma select_keys ks o k : k ∈ map fst (select ks o) -> k ∈ map fst ks.
Proof.
  unfold select. intros ([k' v] & -> & Hin)%in_map_b. apply list_elem_of_omap in Hin as (kf & Hkf & Hs).
  apply fmap_Some in Hs as (v' & _ & [= -> _]). apply in_map_b. by exists kf.
Qed.

Lemma dget_notin {V} k (d : list (string * V)) : k ∉ map fst d -> dget k d = None.
Proof. apply dget_none. Qed.

Lemma dget_select ks o k f :
  NoDup (map fst ks) -> (k, f) ∈ ks -> dget k (select ks o) = dget k o ≫= f.
Proof.
  induction ks as [|[k' f'] ks IH]; [by intros _ ?%elem_of_nil|]. simpl.
  intros [Hn Hnd]%NoDup_cons Hin. unfold select. cbn [omap list_omap fst snd].
  fold (select ks o). apply elem_of_cons in Hin as [[= <- <-]|Hin].
  - destruct (dget k o ≫= f) as [v|]; simpl; [by rewrite decide_True|].
    apply dget_notin. intros Hk. by apply Hn, (select_keys _ o).
  - assert (Hne : k <> k') by (intros ->; apply Hn, in_map_b; by exists (k', f)).
    destruct (dget k' o ≫= f') as [v|]; simpl; [rewrite decide_False by done|]; by apply IH.
Qed.

(** What is kept of a kept value is all of it. *)
Definition stable (f : json -> option json) : Prop := forall v w, f v = Some w -> f w = Some w.

Lemma select_twice ks o :
  NoDup (map fst ks) -> Forall (fun kf => stable kf.2) ks -> select ks (select ks o) = select ks o.
Proof.
  intros Hnd Hst. assert (Hall : forall kf, kf ∈ ks ->
    (dget kf.1 (select ks o) ≫= kf.2) = (dget kf.1 o ≫= kf.2)).
  { intros [k f] Hin. cbn [fst snd]. rewrite (dget_select ks o k f) by done.
    destruct (dget k o) as [v|]; simpl; [|done]. destruct (f v) as [w|] eqn:Hw; simpl; [|done].
    rewrite Forall_forall in Hst. exact (Hst _ Hin v w Hw). }
  clear Hnd Hst. revert Hall. generalize (select ks o) at 1 2. intros o'.
  unfold select. induction ks as [|kf ks IH]; intros Hall; [done|]. cbn [omap list_omap].
  rewrite (Hall kf) by (by left). rewrite IH by (intros; apply Hall; by right). done.
Qed.

Lemma pick_select fields o : pick fields o = select (keep_all fields) o.
Proof.
  unfold pick, select, keep_all. induction fields as [|k fields IH]; [done|].
  cbn [map omap list_omap fst snd]. rewrite IH. by destruct (dget k o).
Qed.

Lemma keep_all_keys fields : map fst (keep_all fields) = fields.
Proof. unfold keep_all. rewrite map_map. apply map_id. Qed.

Lemma keep_all_stable fields : Forall (fun kf => stable kf.2) (keep_all fields).
Proof. apply Forall_forall. intros kf (k & -> & _)%in_map_b. by intros v w [= ->]. Qed.

Lemma pick_twice fields o : NoDup fields -> pick fields (pick fields o) = pick fields o.
Proof.
  intros Hnd. rewrite !pick_select. apply select_twice; [by rewrite keep_all_keys|apply keep_all_stable].
Qed.

Lemma keep_invite_stable : stable keep_invite.
Proof.
  intros v w. unfold keep_invite. destruct v as [| | | | | |o]; simpl; try done. intros [= <-]. simpl.
  rewrite pick_twice; [done|]. apply NoDup_singleton.
Qed.

Lemma relation_fields_nodup : NoDup ["rel_type"; "event_id"].
Proof. by apply (bool_decide_unpack _). Qed.

Lemma keep_relation_stable : stable keep_relation.
Proof.
  intros v w. unfold keep_relation. destruct v as [| | | | | |o]; simpl; try done.
  destruct (pick _ o) as [|x r] eqn:Hp; [done|]. intros [= <-]. simpl.
  by rewrite <- Hp, pick_twice, Hp by apply relation_fields_nodup.
Qed.

Lemma protected_stable rv et : Forall (fun kf => stable kf.2) (protected_fields rv et).
Proof.
  unfold protected_fields. apply Forall_app. split.
  - repeat case_match; rewrite ?Forall_app; split_and?; try apply keep_all_stable; try apply Forall_nil_2.
    all: apply Forall_singleton, keep_invite_stable.
  - case_match; [|apply Forall_nil_2]. apply Forall_singleton, keep_relation_stable.
Qed.

Lemma protected_nodup rv et : NoDup (map fst (protected_fields rv et)).
Proof.
  unfold protected_fields. repeat case_match; by apply (bool_decide_unpack _).
Qed.

(** ** Pruning selects *)

(** The state of pruning [c] into a dictionary of its own. *)
Definition into (c n : obj) : pruning :=
  {| old_content := Some (JObj c); own_content := Some (JObj n) |}.

Lemma add_fields_into c n fields :
  NoDup (map fst n ++ fields) ->
  add_fields fields (into c n) = Ok (into c (n ++ select (keep_all fields) c)).
Proof.
  unfold add_fields. revert n. induction fields as [|k fields IH]; intros n Hnd.
  { simpl. by rewrite app_nil_r. }
  cbn [rfold]. unfold add_field at 1. cbn [get_content into old_content rbind py_in hashable py_getitem].
  unfold dmem. change (select (keep_all (k :: fields)) c)
    with (omap (fun kf : keeper => (fun v => (kf.1, v)) <$> (dget kf.1 c ≫= kf.2)) ((k, Some) :: keep_all fields)).
  cbn [omap list_omap fst snd]. fold (select (keep_all fields) c).
  assert (Hk : k ∉ map fst n).
  { apply NoDup_app in Hnd as (_ & Hd & _). intros Hin. by apply (Hd k Hin); left. }
  destruct (dget k c) as [v|] eqn:Hc; simpl.
  - unfold set_new_content, get_new_content. simpl. rewrite dset_notin by done.
    change {| old_content := Some (JObj c); own_content := Some (JObj (n ++ [(k, v)])) |}
      with (into c (n ++ [(k, v)])).
    rewrite IH; [by rewrite <- app_assoc|]. rewrite List.map_app, <- app_assoc. exact Hnd.
  - apply IH. apply NoDup_app in Hnd as (H1 & H2 & [_ H3]%NoDup_cons). apply NoDup_app.
    split_and!; [done| |done]. intros x Hx Hf. by apply (H2 x Hx); right.
Qed.

Lemma add_invite_into c n :
  "third_party_invite" ∉ map fst n ->
  add_third_party_invite (into c n) = Ok (into c (n ++ select [("third_party_invite", keep_invite)] c)).
Proof.
  intros Hn. unfold add_third_party_invite. cbn [get_content into old_content rbind jget].
  unfold select, oget, keep_invite. simpl.
  destruct (dget "third_party_invite" c) as [[| | | | | |o]|]; simpl; rewrite ?app_nil_r; try done.
  unfold set_new_content, get_new_content. simpl. by rewrite dset_notin.
Qed.

Lemma add_relation_into c n :
  "m.relates_to" ∉ map fst n ->
  add_relation (into c n) = Ok (into c (n ++ select [("m.relates_to", keep_relation)] c)).
Proof.
  intros Hn. unfold add_relation. cbn [get_content into old_content rbind jget].
  unfold select, oget, keep_relation. simpl.
  destruct (dget "m.relates_to" c) as [[| | | | | |o]|]; simpl; rewrite ?app_nil_r; try done.
  destruct (pick _ o) as [|x r]; simpl; [by rewrite app_nil_r|].
  unfold set_new_content, get_new_content. simpl. by rewrite dset_notin.
Qed.

(** The same, from a selection to a larger one. *)
Lemma select_keys_nodup ks c l : NoDup (map fst ks ++ l) -> NoDup (map fst (select ks c) ++ l).
Proof.
  intros (Hnd & Hd & Hl)%NoDup_app. apply NoDup_app. split_and!; [|by intros k ?%select_keys; apply Hd|done].
  clear Hd Hl. induction ks as [|kf ks IH]; [done|]. apply NoDup_cons in Hnd as [Hn Hnd].
  unfold select. cbn [omap list_omap]. fold (select ks c).
  destruct (dget kf.1 c ≫= kf.2); simpl; [|by apply IH]. apply NoDup_cons. split; [|by apply IH].
  by intros ?%select_keys.
Qed.

Lemma add_fields_select ks fields c :
  NoDup (map fst ks ++ fields) ->
  add_fields fields (into c (select ks c)) = Ok (into c (select (ks ++ keep_all fields) c)).
Proof.
  intros Hnd. rewrite add_fields_into by (by apply select_keys_nodup). by rewrite select_app.
Qed.

Lemma add_invite_select ks c :
  "third_party_invite" ∉ map fst ks ->
  add_third_party_invite (into c (select ks c)) =
  Ok (into c (select (ks ++ [("third_party_invite", keep_invite)]) c)).
Proof. intros Hn. rewrite add_invite_into, select_app; [done|]. by intros ?%select_keys. Qed.

Lemma add_relation_select ks c :
  "m.relates_to" ∉ map fst ks ->
  add_relation (into c (select ks c)) =
  Ok (into c (select (ks ++ [("m.relates_to", keep_relation)]) c)).
Proof. intros Hn. rewrite add_relation_into, select_app; [done|]. by intros ?%select_keys. Qed.

Ltac concrete := by apply (bool_decide_unpack _).

(** The content of a new dictionary is the selection of the protected fields. *)
Lemma prune_content_select rv et c :
  keeps_content rv et = false ->
  prune_content rv et (Some (JObj c)) = Ok (into c (select (protected_fields rv et) c)).
Proof.
  intros Hk. unfold prune_content, prune_by_type, protected_fields, keeps_content in *.
  change {| old_content := Some (JObj c); own_content := Some (JObj []) |} with (into c (select [] c)).
  repeat (case_match; try done);
    rewrite ?add_fields_select by concrete; cbn [rbind];
    rewrite ?add_fields_select by concrete; cbn [rbind];
    rewrite ?add_invite_select by concrete; cbn [rbind];
    rewrite ?add_relation_select by concrete; reflexivity.
Qed.

(** A create event that keeps its content: only a relation is pruned, in place. *)
Definition prune_in_place (rv : RoomVersion) (c : obj) : obj :=
  if msc3389_relation_redactions rv then
    match dget "m.relates_to" c ≫= keep_relation with
    | Some r => dset "m.relates_to" r c
    | None => c
    end
  else c.

Lemma prune_content_in_place rv et c :
  keeps_content rv et = true ->
  prune_content rv et (Some (JObj c)) =
  Ok {| old_content := Some (JObj (prune_in_place rv c)); own_content := None |}.
Proof.
  unfold keeps_content. intros [Het Hu]%andb_true_iff. unfold prune_content, prune_by_type, prune_in_place.
  assert (Hm : jeqs et EventTypes.Member = false).
  { destruct et; simpl in *; try done. apply bool_decide_eq_true in Het. by subst. }
  rewrite Hm, Het, Hu. cbn [get_content old_content rbind].
  set (w := {| old_content := Some (JObj c); own_content := None |}).
  assert (Hc : (if negb (implicit_room_creator rv) then add_fields ["creator"] w else Ok w) = Ok w).
  { destruct (implicit_room_creator rv); [done|]. cbn [negb]. unfold add_fields. cbn [rfold].
    unfold add_field. cbn [get_content old_content w rbind py_in hashable py_getitem]. unfold dmem.
    destruct (dget "creator" c) as [v|] eqn:Hv; [|done]. simpl.
    unfold set_new_content. simpl. by rewrite dset_same. }
  rewrite Hc. cbn [rbind]. destruct (msc3389_relation_redactions rv); [|done].
  unfold add_relation, keep_relation. simpl. unfold oget.
  destruct (dget "m.relates_to" c) as [[| | | | | |o]|]; try done. simpl.
  by destruct (pick _ o).
Qed.

Lemma prune_in_place_twice rv c : prune_in_place rv (prune_in_place rv c) = prune_in_place rv c.
Proof.
  unfold prune_in_place. destruct (msc3389_relation_redactions rv); [|done].
  destruct (dget "m.relates_to" c) as [v|] eqn:Hv; simpl; [|by rewrite Hv].
  destruct (keep_relation v) as [r|] eqn:Hr; simpl; [|by rewrite Hv; simpl; rewrite Hr].
  rewrite dget_dset_eq. simpl. rewrite (keep_relation_stable v r Hr). apply dset_same, dget_dset_eq.
Qed.

(** The content a pruned event has, and that of the event it was pruned from. *)
Definition pruned_content (rv : RoomVersion) (et : json) (c : obj) : obj :=
  if keeps_content rv et then prune_in_place rv c else select (protected_fields rv et) c.

Lemma pruned_content_twice rv et c :
  pruned_content rv et (pruned_content rv et c) = pruned_content rv et c.
Proof.
  unfold pruned_content. destruct (keeps_content rv et); [apply prune_in_place_twice|].
  apply select_twice; [apply protected_nodup|apply protected_stable].
Qed.

Lemma prune_content_ok rv et c :
  exists w, prune_content rv et (Some (JObj c)) = Ok w /\
    get_new_content w = Ok (JObj (pruned_content rv et c)) /\
    old_content w = Some (JObj (if keeps_content rv et then prune_in_place rv c else c)).
Proof.
  unfold pruned_content. destruct (keeps_content rv et) eqn:Hk.
  - eexists. split; [by apply prune_content_in_place|done].
  - eexists. split; [by apply prune_content_select|done].
Qed.

(** ** Pruned dictionaries *)

Lemma dget_filter_keys {V} (p : string -> bool) (d : list (string * V)) k :
  dget k (List.filter (fun kv => p kv.1) d) = if p k then dget k d else None.
Proof.
  induction d as [|[k' v] d IH]; simpl; [by destruct (p k)|].
  destruct (p k') eqn:Hp; simpl; rewrite IH; case_decide as Hk; subst; by rewrite ?Hp.
Qed.

Lemma dget_filter_allowed (keys : list string) (d : obj) k :
  dget k (List.filter (fun kv => bool_decide (kv.1 ∈ keys)) d) =
  if bool_decide (k ∈ keys) then dget k d else None.
Proof.
  set (p := fun k : string => bool_decide (k ∈ keys)).
  change (dget k (List.filter (fun kv => p kv.1) d) = if p k then dget k d else None).
  apply dget_filter_keys.
Qed.

Lemma filter_all {A} (p : A -> bool) l : (forall x, x ∈ l -> p x = true) -> List.filter p l = l.
Proof.
  induction l as [|x l IH]; intros Hall; [done|]. simpl. rewrite Hall by (by left).
  f_equal. apply IH. intros y Hy. apply Hall. by right.
Qed.

Definition UNSIGNED_FIELDS : list string := ["age_ts"; "replaces_state"].

Lemma prune_unsigned_pick o : prune_unsigned (JObj o) = Ok (pick UNSIGNED_FIELDS o).
Proof.
  unfold prune_unsigned, UNSIGNED_FIELDS, pick. cbn [rfold py_in py_getitem hashable omap list_omap].
  unfold dmem. destruct (dget "age_ts" o); simpl; by destruct (dget "replaces_state" o).
Qed.

Lemma unsigned_fields_nodup : NoDup UNSIGNED_FIELDS.
Proof. concrete. Qed.

Lemma allowed_has rv et k :
  k ∈ ["event_id"; "sender"; "hashes"; "signatures"; "content"; "type"; "state_key"; "depth";
       "prev_events"; "auth_events"; "origin_server_ts"] -> k ∈ allowed_keys rv et.
Proof.
  intros Hk. unfold allowed_keys. destruct (_ && _).
  - apply in_filter_b. split; [apply elem_of_app; left; set_solver|].
    rewrite negb_true_iff, String.eqb_neq. intros ->. revert Hk. apply (bool_decide_unpack _). done.
  - apply elem_of_app. left. set_solver.
Qed.

(** The keys an event keeps: always, unless its ID stands for the room's, and in the older
    room versions. *)
Definition key_kept (rv : RoomVersion) (et : json) (k : string) : bool :=
  bool_decide (k ∈ ["event_id"; "sender"; "hashes"; "signatures"; "content"; "type"; "state_key";
                    "depth"; "prev_events"; "auth_events"; "origin_server_ts"])
  || (String.eqb k "room_id" && negb (jeqs et EventTypes.Create && msc4291_room_ids_as_hashes rv))
  || (negb (updated_redaction_rules rv) && bool_decide (k ∈ ["prev_state"; "membership"; "origin"])).

Lemma allowed_key_kept rv et k : k ∈ allowed_keys rv et <-> key_kept rv et k = true.
Proof.
  unfold allowed_keys, key_kept. rewrite !orb_true_iff, !andb_true_iff, !bool_decide_eq_true, String.eqb_eq.
  destruct (jeqs et EventTypes.Create && msc4291_room_ids_as_hashes rv), (updated_redaction_rules rv);
    cbn [negb]; rewrite ?in_filter_b, ?negb_true_iff, ?String.eqb_neq, !elem_of_app; set_solver.
Qed.

Lemma allowed_not_unsigned rv et : "unsigned" ∉ allowed_keys rv et.
Proof. unfold allowed_keys. repeat case_match; concrete. Qed.

(** What an event dictionary is: it has a type, and its content and unsigned data are
    dictionaries. *)
Definition event_dict_ok (d : obj) (et : json) (c : obj) : Prop :=
  dget "type" d = Some et /\ dget "content" d = Some (JObj c) /\
  match dget "unsigned" d with None | Some (JObj _) => True | Some _ => False end.

Definition unsigned_of (d : obj) : obj :=
  match dget "unsigned" d with Some (JObj u) => u | _ => [] end.

(** The pruned dictionary: the allowed keys, the pruned content, and the unsigned fields. *)
Definition pruned_dict (rv : RoomVersion) (d : obj) (et : json) (c : obj) : obj :=
  let keys := allowed_keys rv et in
  dset "content" (JObj (pruned_content rv et c))
    (List.filter (fun kv => bool_decide (kv.1 ∈ keys)) d)
  ++ [("unsigned", JObj (pick UNSIGNED_FIELDS (unsigned_of d)))].

Lemma dset_content_filter (p : string -> bool) (v w : json) (d : obj) :
  dget "content" d <> None ->
  p "content" = true ->
  dset "content" v (List.filter (fun kv => p kv.1) (dset "content" w d)) =
  dset "content" v (List.filter (fun kv => p kv.1) d).
Proof.
  intros Hd Hp. induction d as [|[k u] d IH]; [done|]. simpl in *. case_decide as Hk.
  - subst. cbn [List.filter fst]. rewrite Hp. simpl. by repeat case_decide.
  - cbn [List.filter fst]. destruct (p k); simpl; [case_decide; [congruence|]; f_equal|]; by apply IH.
Qed.

Lemma pruned_head_keys rv d et c k :
  k ∈ map fst (dset "content" (JObj (pruned_content rv et c))
        (List.filter (fun kv => bool_decide (kv.1 ∈ allowed_keys rv et)) d)) -> k ∈ allowed_keys rv et.
Proof.
  intros Hk. destruct (decide (k = "content")) as [->|Hne]; [apply allowed_has; set_solver|].
  apply dmem_true in Hk. unfold dmem in Hk. rewrite dget_dset_ne in Hk by done.
  rewrite dget_filter_allowed in Hk.
  by destruct (bool_decide_reflect (k ∈ allowed_keys rv et)).
Qed.

Lemma prune_dict_ok rv d et c :
  event_dict_ok d et c ->
  prune_event_dict rv d =
  Ok (pruned_dict rv d et c,
      dset "content" (JObj (if keeps_content rv et then prune_in_place rv c else c)) d).
Proof.
  intros (Ht & Hc & Hu). unfold prune_event_dict, ogetitem. rewrite Ht, Hc. cbn [rbind].
  destruct (prune_content_ok rv et c) as (w & -> & Hn & Ho). cbn [rbind]. rewrite Hn. cbn [rbind].
  rewrite Ho. set (c1 := if keeps_content rv et then _ else _).
  assert (Hf := dset_content_filter (fun k => bool_decide (k ∈ allowed_keys rv et))
    (JObj (pruned_content rv et c)) (JObj c1) d). cbv beta in Hf. rewrite Hf; [clear Hf|congruence|].
  2:{ apply bool_decide_eq_true, allowed_has. set_solver. }
  assert (Hun : oget (dset "content" (JObj c1) d) "unsigned" (JObj []) = JObj (unsigned_of d)).
  { unfold oget, unsigned_of. rewrite dget_dset_ne by done.
    destruct (dget "unsigned" d) as [[]|]; done. }
  rewrite Hun, prune_unsigned_pick. cbn [rbind]. rewrite dset_notin; [done|].
  intros Hk%pruned_head_keys. by apply allowed_not_unsigned in Hk.
Qed.

Lemma pruned_dict_get rv d et c k :
  event_dict_ok d et c ->
  dget k (pruned_dict rv d et c) =
  if decide (k = "content") then Some (JObj (pruned_content rv et c))
  else if decide (k = "unsigned") then Some (JObj (pick UNSIGNED_FIELDS (unsigned_of d)))
  else if bool_decide (k ∈ allowed_keys rv et) then dget k d else None.
Proof.
  intros (Ht & Hc & _). unfold pruned_dict. set (head := dset _ _ _).
  assert (Happ : forall x y : obj, dget k (x ++ y) = match dget k x with Some v => Some v | None => dget k y end).
  { intros x y. induction x as [|[k' v] x IH]; simpl; [done|]. by case_decide. }
  assert (Hhead : dget k head = if decide (k = "content") then Some (JObj (pruned_content rv et c))
    else if bool_decide (k ∈ allowed_keys rv et) then dget k d else None).
  { unfold head. rewrite dget_dset. case_decide; [done|].
    by rewrite dget_filter_allowed. }
  rewrite Happ, Hhead. destruct (decide (k = "content")) as [|Hk]; [done|]. cbn [dget].
  destruct (decide (k = "unsigned")) as [->|Hk2].
  - rewrite bool_decide_eq_false_2 by apply allowed_not_unsigned. done.
  - destruct (bool_decide _); [|done]. by destruct (dget k d).
Qed.

Lemma pruned_dict_ok rv d et c :
  event_dict_ok d et c -> event_dict_ok (pruned_dict rv d et c) et (pruned_content rv et c).
Proof.
  intros Hd. split_and!; rewrite pruned_dict_get by done.
  - simpl. rewrite bool_decide_eq_true_2 by (apply allowed_has; set_solver). apply Hd.
  - done.
  - done.
Qed.

Lemma pruned_dict_twice rv d et c :
  event_dict_ok d et c ->
  pruned_dict rv (pruned_dict rv d et c) et (pruned_content rv et c) = pruned_dict rv d et c.
Proof.
  intros Hd. unfold pruned_dict at 1. rewrite pruned_content_twice.
  assert (Hu : unsigned_of (pruned_dict rv d et c) = pick UNSIGNED_FIELDS (unsigned_of d)).
  { unfold unsigned_of at 1. by rewrite pruned_dict_get. }
  rewrite Hu, pick_twice by apply unsigned_fields_nodup. unfold pruned_dict at 1.
  rewrite List.filter_app. set (head := dset "content" (JObj (pruned_content rv et c))
    (List.filter (fun kv : string * json => bool_decide (kv.1 ∈ allowed_keys rv et)) d)).
  assert (Hh : List.filter (fun kv : string * json => bool_decide (kv.1 ∈ allowed_keys rv et)) head = head).
  { apply filter_all. intros kv Hkv. apply bool_decide_eq_true, (pruned_head_keys rv d et c).
    apply in_map_b. by exists kv. }
  rewrite Hh. simpl. rewrite bool_decide_eq_false_2 by apply allowed_not_unsigned. rewrite app_nil_r.
  unfold pruned_dict. f_equal. apply dset_same. unfold head. apply dget_dset_eq.
Qed.

(** C28: pruning an event dictionary gives exactly this: its content is the selection of the
    protected fields (or the whole content, of a create event in the newer room versions),
    its unsigned data are at most [age_ts] and [replaces_state], and of the other keys the
    allowed ones stay as they are. *)
Theorem prune_event_dict_spec rv d et c :
  event_dict_ok d et c ->
  exists p d', prune_event_dict rv d = Ok (p, d') /\ forall k,
    dget k p =
    if decide (k = "content") then
      Some (JObj (if keeps_content rv et then prune_in_place rv c
                  else select (protected_fields rv et) c))
    else if decide (k = "unsigned") then Some (JObj (pick UNSIGNED_FIELDS (unsigned_of d)))
    else if key_kept rv et k then dget k d else None.
Proof.
  intros Hd. do 2 eexists. split; [by apply prune_dict_ok|]. intros k.
  rewrite pruned_dict_get by done. destruct (decide (k = "content")); [done|].
  destruct (decide (k = "unsigned")); [done|].
  destruct (bool_decide_reflect (k ∈ allowed_keys rv et)) as [Hk|Hk]; rewrite allowed_key_kept in Hk;
    by destruct (key_kept rv et k).
Qed.

(** C29: pruning what is pruned changes nothing, not even the order of the keys; so an event and
    its redacted form have the same reference hash, from which its ID is made, and the same
    signatures; and without relation redactions the event itself is left as it was. *)
Theorem redaction_idempotent rv d et c :
  event_dict_ok d et c ->
  exists p d', prune_event_dict rv d = Ok (p, d') /\ prune_event_dict rv p = Ok (p, p) /\
    (msc3389_relation_redactions rv = false -> d' = d) /\
    (forall encode hash, compute_event_reference_hash encode rv p hash =
       compute_event_reference_hash encode rv d hash) /\
    (forall sign, compute_event_signature sign rv p = compute_event_signature sign rv d).
Proof.
  intros Hd. pose proof (prune_dict_ok rv d et c Hd) as Hp.
  pose proof (prune_dict_ok rv _ et _ (pruned_dict_ok rv d et c Hd)) as Hpp.
  rewrite pruned_dict_twice in Hpp by done. do 2 eexists. split; [exact Hp|].
  assert (Hagain : prune_event_dict rv (pruned_dict rv d et c) =
    Ok (pruned_dict rv d et c, pruned_dict rv d et c)).
  { rewrite Hpp. do 2 f_equal. apply dset_same.
    pose proof (pruned_dict_ok rv d et c Hd) as (_ & -> & _). do 2 f_equal.
    unfold pruned_content. destruct (keeps_content rv et); [|done]. by rewrite prune_in_place_twice. }
  split_and!.
  - exact Hagain.
  - intros Hrel. apply dset_same. destruct Hd as (_ & Hc & _).
    unfold prune_in_place. rewrite Hrel. by destruct (keeps_content rv et).
  - intros encode hash. unfold compute_event_reference_hash. by rewrite Hagain, Hp.
  - intros sign. unfold compute_event_signature. by rewrite Hagain, Hp.
Qed.
