(* ===== verification/RedactionAuth.v ===== *)
(** * RedactionAuth: redacting the state of a room does not change what is allowed

    The auth rules read only protected fields of the create event, the power levels, the join
    rules and the memberships.  So in the room versions with the updated redaction rules,
    replacing such events by their redacted forms leaves every verdict as it was, but for that
    on a change of the power levels itself, which compares notification levels too. *)
From S2P Require Import Prelude PyVal RoomVersionTable Identifiers Events EventAuthLevels.
From S2P Require Import SetkaChannels EventAuthPower EventAuthMembership EventAuth Samples.
From S2P Require Import Redaction.
From Stdlib Require Import String.
Open Scope string_scope.
Open Scope list_scope.
Open Scope Z_scope.
Open Scope py_scope.

Definition LEVEL_FIELDS : list string := POWER_LEVEL_FIELDS ++ ["invite"].

(** [e'] agrees with [e] on all that is read of an event under a key of type [t]. *)
Record kept (t : string) (e e' : event) : Prop := {
  kp_type : type e' = type e;
  kp_sender : sender e' = sender e;
  kp_version : room_version e' = room_version e;
  kp_id : event_id e' = event_id e;
  kp_create : t = EventTypes.Create -> content e' = content e;
  kp_levels : t = EventTypes.PowerLevels -> forall n, n ∈ LEVEL_FIELDS ->
    dget n (content e') = dget n (content e);
  kp_rule : t = EventTypes.JoinRules -> dget "join_rule" (content e') = dget "join_rule" (content e);
  kp_member : t = EventTypes.Member -> dget "membership" (content e') = dget "membership" (content e);
  kp_other : t = EventTypes.ThirdPartyInvite \/ t = EventTypes.Topic -> content e' = content e
}.

Lemma kept_refl t e : kept t e e.
Proof. by split. Qed.

(** Two states with the same keys, whose events agree. *)
Definition kept_state (a a' : StateMap event) : Prop :=
  forall k, option_Forall2 (kept k.1) (dget k a) (dget k a').

(** ** The readers *)

Section frame.
Context (a a' : StateMap event) (Hkept : kept_state a a').

Lemma kept_oget t n e e' d :
  kept t e e' -> t = EventTypes.PowerLevels -> n ∈ LEVEL_FIELDS ->
  oget (content e') n d = oget (content e) n d.
Proof. intros Hk Ht Hn. unfold oget. by rewrite (kp_levels _ _ _ Hk Ht n Hn). Qed.

Lemma kept_user_level u : get_user_power_level u a' = get_user_power_level u a.
Proof.
  unfold get_user_power_level, get_power_level_event.
  pose proof (Hkept CREATE_KEY) as Hc. pose proof (Hkept POWER_KEY) as Hp.
  destruct Hc as [c c' Hc|]; [|done]. unfold is_creator.
  rewrite (kp_version _ _ _ Hc), (kp_type _ _ _ Hc), (kp_sender _ _ _ Hc), (kp_create _ _ _ Hc) by done.
  apply rbind_ext. intros [] _; [done|]. destruct Hp as [p p' Hp|]; [|done].
  rewrite !(kept_oget _ _ p p' _ Hp) by (done || apply (bool_decide_unpack _); done). done.
Qed.

Lemma kept_named_level n d : n ∈ LEVEL_FIELDS -> get_named_level a' n d = get_named_level a n d.
Proof.
  intros Hn. unfold get_named_level, get_power_level_event.
  destruct (Hkept POWER_KEY) as [p p' Hp|]; [|done]. by rewrite (kept_oget _ _ p p' _ Hp).
Qed.

Lemma kept_send_level t sk :
  get_send_level t sk (get_power_level_event a') = get_send_level t sk (get_power_level_event a).
Proof.
  unfold get_send_level, get_power_level_event. destruct (Hkept POWER_KEY) as [p p' Hp|]; [|done].
  rewrite !(kept_oget _ _ p p' _ Hp) by (done || apply (bool_decide_unpack _); done). done.
Qed.

Lemma kept_can_federate : _can_federate a' = _can_federate a.
Proof.
  unfold _can_federate. destruct (Hkept CREATE_KEY) as [c c' Hc|]; [|done].
  by rewrite (kp_create _ _ _ Hc).
Qed.

Lemma kept_membership u :
  membership_of (dget (EventTypes.Member, u) a') = membership_of (dget (EventTypes.Member, u) a).
Proof.
  destruct (Hkept (EventTypes.Member, u)) as [m m' Hm|]; [|done]. simpl. unfold membership, ogetitem.
  by rewrite (kp_member _ _ _ Hm).
Qed.

Lemma kept_joined u :
  _check_joined_room (dget (EventTypes.Member, u) a') = _check_joined_room (dget (EventTypes.Member, u) a).
Proof.
  pose proof (kept_membership u) as Hm. unfold _check_joined_room.
  destruct (Hkept (EventTypes.Member, u)); [|done]. simpl in Hm. by rewrite Hm.
Qed.

Lemma kept_sender_in_room e : _check_event_sender_in_room e a' = _check_event_sender_in_room e a.
Proof. unfold _check_event_sender_in_room. apply rbind_ext. intros _ _. apply kept_joined. Qed.

Definition join_rule_of (a : StateMap event) : json :=
  match dget (EventTypes.JoinRules, "") a with
  | Some j => oget (content j) "join_rule" (JStr JoinRules.INVITE)
  | None => JStr JoinRules.INVITE
  end.

Lemma kept_join_rule : join_rule_of a' = join_rule_of a.
Proof.
  unfold join_rule_of. destruct (Hkept (EventTypes.JoinRules, "")) as [j j' Hj|]; [|done].
  unfold oget. by rewrite (kp_rule _ _ _ Hj).
Qed.

Lemma kept_topic `{PyRepr} : _is_setka_channel_state a' = _is_setka_channel_state a.
Proof.
  unfold _is_setka_channel_state, _topic_from_state.
  destruct (Hkept (EventTypes.Topic, "")) as [t t' Ht|]; [|done].
  by rewrite (kp_other _ _ _ Ht) by (by right).
Qed.

Lemma kept_override `{PyRepr} e :
  setka_channel_thread_comment_send_level e a' = setka_channel_thread_comment_send_level e a.
Proof.
  unfold setka_channel_thread_comment_send_level. rewrite kept_topic.
  destruct (Hkept POWER_KEY) as [p p' Hp|]; [|done].
  rewrite !(kept_oget _ _ p p' _ Hp) by (done || apply (bool_decide_unpack _); done). done.
Qed.

(** ** The rules *)

Lemma kept_can_send_event `{Netaddr, PyRepr} e : _can_send_event e a' = _can_send_event e a.
Proof.
  unfold _can_send_event. rewrite kept_send_level, kept_user_level, kept_override.
  repeat (apply rbind_ext; intros ? _). destruct (_ <? _); [done|].
  destruct (get_state_key e) as [sk|]; [|done]. destruct (startswith _ _ && _); [|done].
  f_equal. destruct (msc3757_enabled _); [|done]. destruct (state_key_owner sk) as [o|]; [|done].
  by rewrite kept_user_level.
Qed.

Lemma kept_check_redaction rv e : check_redaction rv e a' = check_redaction rv e a.
Proof.
  unfold check_redaction. rewrite kept_user_level, kept_named_level; [done|].
  by apply (bool_decide_unpack _).
Qed.

Lemma kept_sender_rules `{Netaddr, PyRepr, SetOrder} e :
  type e <> EventTypes.PowerLevels -> check_sender_rules e a' = check_sender_rules e a.
Proof.
  intros Hpl. unfold check_sender_rules.
  rewrite kept_sender_in_room, kept_user_level, kept_named_level, kept_can_send_event,
    kept_check_redaction by (by apply (bool_decide_unpack _)).
  by rewrite (bool_decide_eq_false_2 _ Hpl).
Qed.

Lemma kept_context rv e : get_membership_context rv e a' = get_membership_context rv e a.
Proof.
  unfold get_membership_context. apply rbind_ext. intros sk _.
  change (match dget (EventTypes.JoinRules, "") a' with
          | Some j => oget (content j) "join_rule" (JStr JoinRules.INVITE)
          | None => JStr JoinRules.INVITE end) with (join_rule_of a').
  change (match dget (EventTypes.JoinRules, "") a with
          | Some j => oget (content j) "join_rule" (JStr JoinRules.INVITE)
          | None => JStr JoinRules.INVITE end) with (join_rule_of a).
  rewrite kept_can_federate, !kept_membership, kept_join_rule, !kept_user_level.
  rewrite !kept_named_level by (by apply (bool_decide_unpack _)).
  destruct (Hkept CREATE_KEY) as [c c' Hc|]; [|done]. by rewrite (kp_sender _ _ _ Hc).
Qed.

Lemma kept_first_join rv e ms : is_creator_first_join rv e ms a' = is_creator_first_join rv e ms a.
Proof.
  unfold is_creator_first_join. destruct (prev_event_ids e) as [|prev [|]]; try done.
  destruct (jeqs ms Membership.JOIN); [|done]. destruct (Hkept CREATE_KEY) as [c c' Hc|]; [|done].
  by rewrite (kp_id _ _ _ Hc), (kp_sender _ _ _ Hc), (kp_create _ _ _ Hc).
Qed.

Lemma kept_third_party `{SignedJson} e :
  _verify_third_party_invite e a' = _verify_third_party_invite e a.
Proof.
  unfold _verify_third_party_invite.
  destruct (dget "third_party_invite" (content e)) as [[| | | | | |tpi]|]; try done.
  destruct (dget "signed" tpi) as [[| | | | | |sg]|]; try done.
  destruct (dget "mxid" sg); [|done]. destruct (dget "token" sg) as [tok|]; [|done].
  destruct (dget "signatures" sg); [|done]. unfold state_get_json.
  destruct (hashable tok); [|done]. destruct tok as [| | | |k| |]; try done. cbn [rbind].
  destruct (Hkept (EventTypes.ThirdPartyInvite, k)) as [i i' Hi|]; [|done].
  unfold user_id, get_public_keys. by rewrite (kp_sender _ _ _ Hi), (kp_other _ _ _ Hi) by (by left).
Qed.

Lemma kept_authorised_join e mc : check_authorised_join e a' mc = check_authorised_join e a mc.
Proof.
  unfold check_authorised_join. destruct (is_none _); [done|]. unfold state_get_json.
  destruct (hashable _); [|done].
  destruct (oget (content e) EventContentFields.AUTHORISING_USER JNull) as [| | | |k| |]; try done.
  cbn [rbind jstr_attr]. apply rbind_ext. intros _ _. by rewrite kept_joined, kept_user_level.
Qed.

Lemma kept_branch rv e ms mc :
  check_membership_branch rv e a' ms mc = check_membership_branch rv e a ms mc.
Proof.
  unfold check_membership_branch, check_join, check_leave.
  by rewrite kept_authorised_join, kept_named_level by (by apply (bool_decide_unpack _)).
Qed.

Lemma kept_membership_change `{SignedJson} rv e :
  _is_membership_change_allowed rv e a' = _is_membership_change_allowed rv e a.
Proof.
  unfold _is_membership_change_allowed. apply rbind_ext. intros ms _. rewrite kept_first_join.
  apply rbind_ext. intros [] _; [done|]. rewrite kept_context. apply rbind_ext. intros mc _.
  rewrite kept_third_party. destruct (_ && _); [done|]. apply rbind_ext. intros [] _; [done|].
  apply kept_branch.
Qed.

Lemma kept_check_rules `{Netaddr, PyRepr, SetOrder, SignedJson} e :
  type e <> EventTypes.PowerLevels -> check_rules e a' = check_rules e a.
Proof.
  intros Hpl. unfold check_rules. rewrite kept_can_federate, kept_membership_change,
    kept_sender_rules by done.
  destruct (Hkept CREATE_KEY) as [c c' Hc|]; [|done]. by rewrite (kp_sender _ _ _ Hc).
Qed.
End frame.

(** ** Redacted events *)

(** [e'] is [e], or its redacted form where redaction keeps what is read. *)
Definition redacted_or_same (k : StateKey) (e e' : event) : Prop :=
  e' = e \/
  (k.1 <> EventTypes.ThirdPartyInvite /\ k.1 <> EventTypes.Topic /\ type e = k.1 /\
   updated_redaction_rules (room_version e) = true /\
   msc3389_relation_redactions (room_version e) = false /\ prune_event e = Ok e').

Lemma prune_event_fields e e' :
  prune_event e = Ok e' ->
  type e' = type e /\ sender e' = sender e /\ room_version e' = room_version e /\
  event_id e' = event_id e /\
  content e' = pruned_content (room_version e) (JStr (type e)) (content e).
Proof.
  unfold prune_event. destruct (prune_content_ok (room_version e) (JStr (type e)) (content e))
    as (w & -> & Hn & _). cbn [rbind]. rewrite Hn. cbn [rbind]. by intros [= <-].
Qed.

Lemma pruned_field rv et c k :
  keeps_content rv et = false -> (k, Some) ∈ protected_fields rv et ->
  dget k (pruned_content rv et c) = dget k c.
Proof.
  intros Hk Hin. unfold pruned_content. rewrite Hk, (dget_select _ c k Some); [|apply protected_nodup|done].
  by destruct (dget k c).
Qed.

Lemma redacted_kept k e e' : redacted_or_same k e e' -> kept k.1 e e'.
Proof.
  intros [->|(Htpi & Htop & Hty & Hu & Hrel & Hp)]; [apply kept_refl|].
  destruct (prune_event_fields e e' Hp) as (Ht & Hs & Hv & Hi & Hc).
  assert (Hf : forall n, type e <> EventTypes.Create ->
    (n, Some) ∈ protected_fields (room_version e) (JStr (type e)) ->
    dget n (content e') = dget n (content e)).
  { intros n Hn Hin. rewrite Hc. apply pruned_field; [|done]. unfold keeps_content. simpl.
    by rewrite bool_decide_eq_false_2. }
  split; try done.
  - intros Hk. rewrite Hc. unfold pruned_content, keeps_content, prune_in_place.
    rewrite Hty, Hk, Hu, Hrel. done.
  - intros Hk n Hn. apply Hf; [by rewrite Hty, Hk|]. rewrite Hty, Hk.
    assert (Hpf : protected_fields (room_version e) (JStr EventTypes.PowerLevels) =
      keep_all LEVEL_FIELDS ++ []) by (unfold protected_fields; by rewrite Hu, Hrel).
    rewrite Hpf, app_nil_r. apply in_map_b. by exists n.
  - intros Hk. apply Hf; [by rewrite Hty, Hk|]. rewrite Hty, Hk. unfold protected_fields. simpl. by left.
  - intros Hk. apply Hf; [by rewrite Hty, Hk|]. rewrite Hty, Hk. unfold protected_fields. simpl. by left.
  - by intros [?|?].
Qed.

(** C30: in the room versions with the updated redaction rules, redacting any events of the room
    state, third-party invites and the topic apart, does not change the verdict of the auth
    rules on an event that is not a change of the power levels; errors included. *)
Theorem redaction_keeps_auth `{Netaddr, PyRepr, SetOrder, SignedJson} e a a' :
  type e <> EventTypes.PowerLevels ->
  (forall k, option_Forall2 (redacted_or_same k) (dget k a) (dget k a')) ->
  check_rules e a' = check_rules e a.
Proof.
  intros Hpl Hred. apply kept_check_rules; [|done]. intros k.
  destruct (Hred k) as [x y Hxy|]; constructor. by apply redacted_kept.
Qed.

(** ** A room whose state is redacted *)

Definition redact (e : event) : event := match prune_event e with Ok e' => e' | Err _ => e end.
Definition redact_state (a : StateMap event) : StateMap event := map (fun ke => (ke.1, redact ke.2)) a.

Lemma dget_map_values {K V W} `{EqDecision K} (f : V -> W) (d : list (K * V)) k :
  dget k (map (fun kv => (kv.1, f kv.2)) d) = f <$> dget k d.
Proof. induction d as [|[k' v] d IH]; simpl; [done|]. by case_decide. Qed.

(** An event under a key that redaction is safe for. *)
Definition redactable (ke : StateKey * event) : bool :=
  bool_decide (ke.1.1 <> EventTypes.ThirdPartyInvite) && bool_decide (ke.1.1 <> EventTypes.Topic)
  && bool_decide (type ke.2 = ke.1.1) && updated_redaction_rules (room_version ke.2)
  && negb (msc3389_relation_redactions (room_version ke.2)).

Lemma redact_state_related a :
  forallb redactable a = true ->
  forall k, option_Forall2 (redacted_or_same k) (dget k a) (dget k (redact_state a)).
Proof.
  intros Ha k. unfold redact_state. rewrite dget_map_values. destruct (dget k a) as [e|] eqn:He; [|constructor].
  simpl. constructor. apply dget_in in He. rewrite forallb_forall in Ha.
  apply list_elem_of_In, Ha in He. unfold redactable in He. simpl in He.
  rewrite !andb_true_iff, !bool_decide_eq_true, negb_true_iff in He.
  unfold redact, redacted_or_same. destruct (prune_event e) eqn:Hp; [|by left].
  right. naive_solver.
Qed.

(** The moderator's membership has a display name, the power levels a level for
    notifications. *)
Definition named_mod : event :=
  mk_event rv11 "m2" EventTypes.Member "@mod:a" (Some "@mod:a")
    [("displayname", JStr "Mod"); ("membership", JStr "join")] ["$x"] ["$create"].
Definition noisy_levels (room : Z) : event :=
  mk_event rv11 "pl2" EventTypes.PowerLevels "@admin:a" (Some "")
    [("users", JObj [("@admin:a", JInt 100); ("@mod:a", JInt 50)]);
     ("notifications", JObj [("room", JInt room)])] ["$x"] ["$create"].
Definition room2 : StateMap event :=
  state_of [ev_create; ev_member "@admin:a" "join"; named_mod; noisy_levels 100].

Example redaction_changes_room2 :
  content (redact named_mod) = [("membership", JStr "join")] /\
  dget "notifications" (content (redact (noisy_levels 100))) = None /\
  content (redact ev_create) = content ev_create.
Proof. vm_compute. done. Qed.

Lemma redaction_keeps_auth_witness :
  check_rules (ev_message "@mod:a" []) (redact_state room2) = check_rules (ev_message "@mod:a" []) room2.
Proof.
  apply (redaction_keeps_auth (ev_message "@mod:a" []) room2 (redact_state room2)).
  - done.
  - apply redact_state_related. vm_compute. reflexivity.
Defined.

(** A change of the power levels does depend on redaction: the level for room notifications,
    100 here, is not protected, and once it is redacted a moderator may set it. *)
Definition mod_levels : event :=
  mk_event rv11 "pl3" EventTypes.PowerLevels "@mod:a" (Some "")
    [("users", JObj [("@admin:a", JInt 100); ("@mod:a", JInt 50)]);
     ("notifications", JObj [("room", JInt 50)])] ["$x"] ["$create"].
Example redacted_notifications :
  is_ok (check_rules mod_levels room2) = false /\
  is_ok (check_rules mod_levels (redact_state room2)) = true.
Proof. vm_compute. done. Qed.

(** In room version 10 the level to invite and [m.federate] are not protected. *)
Example old_redaction :
  content (redact (mk_event RoomVersions.V10 "c" EventTypes.Create "@a:a" (Some "")
    [("creator", JStr "@a:a"); ("m.federate", JBool false)] [] [])) = [("creator", JStr "@a:a")] /\
  content (redact (mk_event RoomVersions.V10 "p" EventTypes.PowerLevels "@a:a" (Some "")
    [("invite", JInt 50); ("kick", JInt 50)] [] [])) = [("kick", JInt 50)].
Proof. vm_compute. done. Qed.

(** ** Event dictionaries *)

Definition sample_dict (ty : string) (c : obj) : obj :=
  [("type", JStr ty); ("sender", JStr "@a:a"); ("content", JObj c); ("origin", JStr "a");
   ("unsigned", JObj [("age", JInt 5); ("age_ts", JInt 1)])].

Definition sample_invite : obj :=
  sample_dict EventTypes.Member
    [("membership", JStr "invite"); ("displayname", JStr "A");
     ("third_party_invite", JObj [("display_name", JStr "B"); ("signed", JObj [])])].

Lemma sample_invite_ok : event_dict_ok sample_invite (JStr EventTypes.Member)
  [("membership", JStr "invite"); ("displayname", JStr "A");
   ("third_party_invite", JObj [("display_name", JStr "B"); ("signed", JObj [])])].
Proof. done. Qed.

Lemma prune_event_dict_spec_witness :
  exists p d', prune_event_dict rv11 sample_invite = Ok (p, d') /\
    dget "origin" p = None /\ dget "sender" p = Some (JStr "@a:a").
Proof.
  destruct (prune_event_dict_spec rv11 _ _ _ sample_invite_ok) as (p & d' & Hp & Hk).
  exists p, d'. split; [exact Hp|]. split; rewrite Hk; vm_compute; reflexivity.
Defined.

Lemma redaction_idempotent_witness :
  exists p d', prune_event_dict rv11 sample_invite = Ok (p, d') /\
    prune_event_dict rv11 p = Ok (p, p) /\ d' = sample_invite.
Proof.
  destruct (redaction_idempotent rv11 _ _ _ sample_invite_ok) as (p & d' & Hp & Hpp & Hd & _).
  exists p, d'. split; [exact Hp|]. split; [exact Hpp|]. apply Hd. reflexivity.
Defined.

(** Room version 11 with the relation redactions of MSC3389, which no version has yet: pruning
    a create event with a relation prunes the event itself. *)
Definition rv3389 : RoomVersion := {|
  identifier := "org.matrix.msc3389"; disposition := disposition rv11; event_format := event_format rv11;
  state_res := state_res rv11; enforce_key_validity := true; special_case_aliases_auth := false;
  strict_canonicaljson := true; limit_notifications_power_levels := true;
  implicit_room_creator := true; updated_redaction_rules := true; restricted_join_rule := true;
  restricted_join_rule_fix := true; knock_join_rule := true; msc3389_relation_redactions := true;
  knock_restricted_join_rule := true; enforce_int_power_levels := true; msc3931_push_features := [];
  msc3757_enabled := false; msc4289_creator_power_enabled := false; msc4291_room_ids_as_hashes := false |}.
Definition related_create : obj :=
  sample_dict EventTypes.Create
    [("m.relates_to", JObj [("rel_type", JStr "m.thread"); ("extra", JInt 1)])].
Example pruning_changes_event :
  match prune_event_dict rv3389 related_create with
  | Ok (_, d) => dget "content" d
  | Err _ => None
  end = Some (JObj [("m.relates_to", JObj [("rel_type", JStr "m.thread")])]).
Proof. vm_compute. done. Qed.
