(* ===== verification/StateV1.v ===== *)
(** * StateV1: state resolution, version 1 (state/v1.py)

    [resolve_events_with_store] merges several room states: the keys on which they agree are
    kept, the conflicting ones are resolved by type (power levels, join rules, members, the
    rest) with the event auth rules.  A Python set of event IDs is a duplicate-free list that
    is iterated in [SetOrder]; [state_map_factory], which reads events from the database, is
    an argument. *)
From S2P Require Import Prelude PyVal PySort PyEncoding RoomVersionTable Identifiers Events.
From S2P Require Import EventAuthLevels SetkaChannels EventAuthPower EventAuthMembership.
From S2P Require Import EventAuth.
Open Scope string_scope.
Open Scope list_scope.
Open Scope Z_scope.
Open Scope py_scope.

(** [s.add(v)] *)
Definition set_add {A} `{EqDecision A} (v : A) (s : list A) : list A :=
  if bool_decide (v ∈ s) then s else s ++ [v].

(** The iteration of [{x for x in l}]. *)
Definition iter_set {A} `{SetOrder, EqDecision A} (l : list A) : list A :=
  set_iter (remove_dups l).

(** ** [_seperate] *)

(** The body of the inner loop: the unconflicted and the conflicted state. *)
Definition seperate_item (st : StateMap string * StateMap (list string))
    (item : StateKey * string) : StateMap string * StateMap (list string) :=
  let (unconflicted, conflicted) := st in
  let (key, value) := item in
  match dget key unconflicted with
  | None =>
      match dget key conflicted with
      | None => (dset key value unconflicted, conflicted)
      | Some ls => (unconflicted, dset key (set_add value ls) conflicted)
      end
  | Some unconflicted_value =>
      if bool_decide (unconflicted_value = value) then (unconflicted, conflicted)
      else (ddel key unconflicted,
            dset key (set_add unconflicted_value [value]) conflicted)
  end.

Definition seperate_set (st : StateMap string * StateMap (list string))
    (state_set : StateMap string) : StateMap string * StateMap (list string) :=
  fold_left seperate_item state_set st.

Definition _seperate (state_sets : list (StateMap string))
    : result (StateMap string * StateMap (list string)) :=
  match state_sets with
  | [] => Err StopIteration
  | first :: rest => Ok (fold_left seperate_set rest (first, []))
  end.

(** ** [_ordered_events] *)

Definition key_func (e : event) : Z * string := (- depth e, sha1_hexdigest (event_id e)).
Definition _ordered_events (events : list event) : list event := sorted_by key_func events.

Section resolve.
Context `{Netaddr, PyRepr, SetOrder, SignedJson}.

(** ** [_create_auth_events_from_maps] *)

Definition add_auth_key (unconflicted_state : StateMap string) (auth_events : StateMap string)
    (key : StateKey) : StateMap string :=
  if dmem key auth_events then auth_events
  else match dget key unconflicted_state with
       | Some auth_event_id =>
           if String.eqb auth_event_id "" then auth_events else dset key auth_event_id auth_events
       | None => auth_events
       end.

Definition _create_auth_events_from_maps (room_version : RoomVersion)
    (unconflicted_state : StateMap string) (conflicted_state : StateMap (list string))
    (state_map : list (string * event)) : result (StateMap string) :=
  rfold (fun auth_events event_ids =>
    rfold (fun auth_events event_id =>
      match dget event_id state_map with
      | None => Ok auth_events
      | Some e =>
          let* keys := auth_types_for_event room_version e in
          Ok (fold_left (add_auth_key unconflicted_state) (iter_set keys) auth_events)
      end) auth_events (set_iter event_ids)) [] (dvals conflicted_state).

(** ** [_resolve_auth_events] and [_resolve_normal_events] *)

(** The loop over [reverse\[1:\]]: each event is checked with the earlier ones as auth
    events; the first to fail an auth check stops the loop. *)
Fixpoint auth_loop (auth_events : StateMap event) (prev_event : event) (rest : list event)
    : result event :=
  match rest with
  | [] => Ok prev_event
  | e :: rest =>
      let* k := event_key prev_event in
      let auth_events := dset k prev_event auth_events in
      match check_state_dependent_auth_rules e (dvals auth_events) with
      | Ok _ => auth_loop auth_events e rest
      | Err err => if is_auth_error err then Ok prev_event else Err err
      end
  end.

Definition select_auth_events (auth_keys : list StateKey) (auth_events : StateMap event)
    : StateMap event :=
  fold_left (fun d key =>
    match dget key auth_events with Some e => dset key e d | None => d end) auth_keys [].

Definition _resolve_auth_events (room_version : RoomVersion) (events : list event)
    (auth_events : StateMap event) : result event :=
  let reverse := rev (_ordered_events events) in
  let* keys := rmap (auth_types_for_event room_version) events in
  let new_auth_events := select_auth_events (iter_set (concat keys)) auth_events in
  match reverse with
  | [] => Err IndexError
  | [_] => Err UnboundLocalError
  | prev_event :: rest => auth_loop new_auth_events prev_event rest
  end.

(** The first event that passes, the last one if all fail. *)
Fixpoint normal_loop (auth_events : StateMap event) (events : list event) : result event :=
  match events with
  | [] => Err UnboundLocalError
  | e :: rest =>
      match check_state_dependent_auth_rules e (dvals auth_events) with
      | Ok _ => Ok e
      | Err err =>
          if is_auth_error err then
            match rest with [] => Ok e | _ => normal_loop auth_events rest end
          else Err err
      end
  end.

Definition _resolve_normal_events (events : list event) (auth_events : StateMap event)
    : result event :=
  normal_loop auth_events (_ordered_events events).

(** ** [_resolve_state_events] *)

(** One pass over the conflicted state: the keys that [select]s are resolved by the chain
    of auth checks. *)
Definition resolve_pass (room_version : RoomVersion) (select : StateKey -> bool)
    (conflicted_state : StateMap (list event)) (auth_events resolved_state : StateMap event)
    : result (StateMap event) :=
  rfold (fun resolved '(key, events) =>
    if select key then
      let* e := _resolve_auth_events room_version events auth_events in
      Ok (dset key e resolved)
    else Ok resolved) resolved_state conflicted_state.

Definition resolve_rest (conflicted_state : StateMap (list event))
    (auth_events resolved_state : StateMap event) : result (StateMap event) :=
  rfold (fun resolved '(key, events) =>
    if dmem key resolved then Ok resolved
    else
      let* e := _resolve_normal_events events auth_events in
      Ok (dset key e resolved)) resolved_state conflicted_state.

Definition has_type (t : string) (key : StateKey) : bool := bool_decide (key.1 = t).

Definition _resolve_state_events (room_version : RoomVersion)
    (conflicted_state : StateMap (list event)) (auth_events : StateMap event)
    : result (StateMap event) :=
  let* resolved :=
    match dget POWER_KEY conflicted_state with
    | Some events =>
        let* e := _resolve_auth_events room_version events auth_events in
        Ok [(POWER_KEY, e)]
    | None => Ok []
    end in
  let auth_events := dupdate auth_events resolved in
  let* resolved :=
    resolve_pass room_version (has_type EventTypes.JoinRules) conflicted_state auth_events resolved in
  let auth_events := dupdate auth_events resolved in
  let* resolved :=
    resolve_pass room_version (has_type EventTypes.Member) conflicted_state auth_events resolved in
  let auth_events := dupdate auth_events resolved in
  resolve_rest conflicted_state auth_events resolved.

(** ** [_resolve_with_state] *)

(** The first loop: a key with several events in hand is conflicted, a key with one takes
    it, a key with none is left out. *)
Definition split_conflicts (state_map : list (string * event))
    (st : StateMap string * StateMap (list event)) (item : StateKey * list string)
    : StateMap string * StateMap (list event) :=
  let (unconflicted, conflicted) := st in
  let (key, event_ids) := item in
  match omap (fun i => dget i state_map) (set_iter event_ids) with
  | [] => st
  | [e] => (dset key (event_id e) unconflicted, conflicted)
  | events => (unconflicted, dset key events conflicted)
  end.

Definition _resolve_with_state (room_version : RoomVersion)
    (unconflicted_state_ids : StateMap string) (conflicted_state_ids : StateMap (list string))
    (auth_event_ids : StateMap string) (state_map : list (string * event))
    : result (StateMap string) :=
  let (unconflicted_state_ids, conflicted_state) :=
    fold_left (split_conflicts state_map) conflicted_state_ids (unconflicted_state_ids, []) in
  let auth_events :=
    omap (fun '(key, ev_id) =>
      match dget ev_id state_map with Some e => Some (key, e) | None => None end) auth_event_ids in
  let* resolved_state := _resolve_state_events room_version conflicted_state auth_events in
  Ok (fold_left (fun d p => dset p.1 (event_id p.2) d) resolved_state unconflicted_state_ids).

(** ** [resolve_events_with_store] *)

(** Every event must be in the room. *)
Definition check_room (room : string) (state_map : list (string * event)) : result unit :=
  rforall (fun e =>
    let* r := room_id e in
    if negb (bool_decide (r = room)) then
      Err (PyException "Attempting to state-resolve for room %s with event %s which is in %s")
    else Ok tt) (dvals state_map).

(** [ids - set(event_map.keys())], when there is an event map *)
Definition minus_event_map (ids : list string) (event_map : option (list (string * event)))
    : list string :=
  match event_map with
  | Some m => filter (fun i => dmem i m = false) ids
  | None => ids
  end.

Definition resolve_events_with_store (room : string) (room_version : RoomVersion)
    (state_sets : list (StateMap string)) (event_map : option (list (string * event)))
    (state_map_factory : list string -> list (string * event)) : result (StateMap string) :=
  match state_sets with
  | [state_set] => Ok state_set
  | _ =>
      let* (unconflicted_state, conflicted_state) := _seperate state_sets in
      let needed_events :=
        minus_event_map (remove_dups (concat (dvals conflicted_state))) event_map in
      let state_map := state_map_factory needed_events in
      let state_map := match event_map with Some m => dupdate state_map m | None => state_map end in
      check_room room state_map ;;;
      let* auth_events :=
        _create_auth_events_from_maps room_version unconflicted_state conflicted_state state_map in
      let new_needed_events :=
        minus_event_map
          (filter (fun i => i ∉ needed_events) (remove_dups (dvals auth_events))) event_map in
      let state_map_new := state_map_factory new_needed_events in
      check_room room state_map_new ;;;
      let state_map := dupdate state_map state_map_new in
      _resolve_with_state room_version unconflicted_state conflicted_state auth_events state_map
  end.
End resolve.
