(* ===== verification/StateV1Safety.v ===== *)
(** * StateV1Safety: what version 1 state resolution guarantees

    The partition into agreed and conflicting keys, the choice made for one conflicting key,
    and the promise of the whole: the resolved state keeps every agreed entry and otherwise
    holds only entries of the given states. *)
From S2P Require Import Prelude PyVal PySort PyEncoding RoomVersionTable Identifiers Events.
From S2P Require Import EventAuthLevels SetkaChannels EventAuthPower EventAuthMembership.
From S2P Require Import EventAuth Samples StateV1.
Open Scope string_scope.
Open Scope list_scope.
Open Scope Z_scope.
Open Scope py_scope.

(** ** Sets *)

Lemma elem_of_set_add {A} `{EqDecision A} (v x : A) s : x ∈ set_add v s <-> x = v \/ x ∈ s.
Proof. unfold set_add. case_bool_decide; set_solver. Qed.

Lemma NoDup_set_add {A} `{EqDecision A} (v : A) s : NoDup s -> NoDup (set_add v s).
Proof.
  unfold set_add. case_bool_decide; [done|]. intros. apply NoDup_app. split_and!; [done| |].
  - set_solver.
  - apply NoDup_singleton.
Qed.

Lemma elem_of_iter_set {A} `{SetOrder, EqDecision A} (x : A) l : x ∈ iter_set l <-> x ∈ l.
Proof. unfold iter_set. rewrite set_iter_perm. apply elem_of_remove_dups. Qed.

(** ** The partition *)

(** What the values [vs] that the states give a key make of it. *)
Inductive key_status : list string -> option string -> option (list string) -> Prop :=
  | status_absent : key_status [] None None
  | status_agreed v vs : Forall (eq v) vs -> key_status (v :: vs) (Some v) None
  | status_conflict vs ls v v' :
      v ∈ vs -> v' ∈ vs -> v <> v' -> NoDup ls -> (forall x, x ∈ ls <-> x ∈ vs) ->
      key_status vs None (Some ls).

Definition partition_inv (vals : StateKey -> list string)
    (st : StateMap string * StateMap (list string)) : Prop :=
  dict_wf st.1 /\ dict_wf st.2 /\ forall k, key_status (vals k) (dget k st.1) (dget k st.2).

(** One more value for a key. *)
Lemma key_status_step vs u c value :
  key_status vs u c ->
  key_status (vs ++ [value])
    (match u with
     | None => match c with None => Some value | Some _ => None end
     | Some v => if bool_decide (v = value) then Some v else None
     end)
    (match u with
     | None => match c with None => None | Some ls => Some (set_add value ls) end
     | Some v => if bool_decide (v = value) then None else Some (set_add v [value])
     end).
Proof.
  intros [|v vs' Hall|vs' ls v v' Hv Hv' Hne Hnd Hls]; simpl.
  - by apply status_agreed.
  - case_bool_decide; subst.
    + apply status_agreed. apply Forall_app; split; [done|by repeat constructor].
    + eapply (status_conflict _ _ v value); try done; try set_solver.
      * apply NoDup_set_add, NoDup_singleton.
      * intros x. rewrite elem_of_set_add. rewrite Forall_forall in Hall. set_solver.
  - eapply (status_conflict _ _ v v'); try done; try set_solver.
    + by apply NoDup_set_add.
    + intros x. rewrite elem_of_set_add, Hls. set_solver.
Qed.

Lemma partition_item vals st key value :
  partition_inv vals st ->
  partition_inv (fun k => if decide (k = key) then vals k ++ [value] else vals k)
    (seperate_item st (key, value)).
Proof.
  destruct st as [u c]. unfold partition_inv; simpl. intros (Hu & Hc & Hk).
  pose proof (key_status_step _ _ _ value (Hk key)) as Hs.
  destruct (dget key u) as [v|] eqn:Hku; [|destruct (dget key c) as [ls|] eqn:Hkc].
  - assert (Hkc : dget key c = None).
    { pose proof (Hk key) as Hk'. rewrite Hku in Hk'. by inversion Hk'. }
    case_bool_decide; simpl; (split_and!; [by auto using dset_wf, ddel_wf..|]);
      intros k; rewrite ?dget_dset, ?dget_ddel; destruct (decide (k = key)) as [->|];
      rewrite ?Hku, ?Hkc; first [exact Hs|apply Hk].
  - simpl. split_and!; [by auto using dset_wf..|]. intros k. rewrite dget_dset.
    destruct (decide (k = key)) as [->|]; rewrite ?Hku; [exact Hs|apply Hk].
  - simpl. split_and!; [by auto using dset_wf..|]. intros k. rewrite dget_dset.
    destruct (decide (k = key)) as [->|]; rewrite ?Hkc; [exact Hs|apply Hk].
Qed.

(** One more state: its items have distinct keys. *)
Lemma partition_set vals st set :
  dict_wf set -> partition_inv vals st ->
  partition_inv (fun k => vals k ++ option_list (dget k set)) (seperate_set st set).
Proof.
  unfold seperate_set, dict_wf. revert vals st.
  induction set as [|[key value] set IH]; intros vals st Hwf Hinv; simpl.
  - destruct Hinv as (? & ? & Hk). split_and!; try done. intros k. by rewrite app_nil_r.
  - simpl in Hwf. apply NoDup_cons in Hwf as [Hn Hwf].
    apply (partition_item _ _ key value) in Hinv. apply (IH _ _ Hwf) in Hinv.
    destruct Hinv as (? & ? & Hk). split_and!; try done. intros k.
    specialize (Hk k). destruct (decide (k = key)) as [->|].
    + apply dget_none in Hn. by rewrite Hn, app_nil_r in Hk.
    + done.
Qed.

Lemma partition_sets sets vals st :
  Forall dict_wf sets -> partition_inv vals st ->
  partition_inv (fun k => vals k ++ omap (dget k) sets) (fold_left seperate_set sets st).
Proof.
  revert vals st. induction sets as [|s sets IH]; intros vals st Hwf Hinv; simpl.
  - destruct Hinv as (? & ? & Hk). split_and!; try done. intros k. by rewrite app_nil_r.
  - inversion Hwf; subst. apply (partition_set _ _ s) in Hinv; [|done].
    apply IH in Hinv; [|done]. destruct Hinv as (? & ? & Hk). split_and!; try done.
    intros k. specialize (Hk k). rewrite <- app_assoc in Hk. by destruct (dget k s).
Qed.

(** The values a list of states gives a key. *)
Definition values_of (sets : list (StateMap string)) (k : StateKey) : list string :=
  omap (dget k) sets.

Lemma seperate_partition sets u c :
  Forall dict_wf sets -> _seperate sets = Ok (u, c) -> partition_inv (values_of sets) (u, c).
Proof.
  destruct sets as [|s sets]; intros Hwf Hs; [done|]. injection Hs as Hs.
  inversion Hwf; subst.
  assert (Hinit : partition_inv (fun k => option_list (dget k s)) (s, [])).
  { split_and!; [done|constructor|]. intros k; simpl.
    destruct (dget k s); simpl; [by apply status_agreed|constructor]. }
  apply (partition_sets sets) in Hinit; [|done]. rewrite Hs in Hinit.
  destruct Hinit as (? & ? & Hk). split_and!; try done.
  intros k. specialize (Hk k). unfold values_of; simpl. by destruct (dget k s).
Qed.

(** [_seperate] splits the keys: a key is unconflicted with value [v] when some state has
    it and every state that has it says [v]; it is conflicted when two states differ, and then
    its set holds exactly the values the states give. *)
Theorem seperate_spec sets u c :
  Forall dict_wf sets -> _seperate sets = Ok (u, c) ->
  forall k, let vs := values_of sets k in
    (forall v, dget k u = Some v <-> v ∈ vs /\ forall v', v' ∈ vs -> v' = v) /\
    (dmem k c = true <-> exists v v', v ∈ vs /\ v' ∈ vs /\ v <> v') /\
    (forall ls, dget k c = Some ls -> NoDup ls /\ forall x, x ∈ ls <-> x ∈ vs).
Proof.
  intros Hwf Hs k. destruct (seperate_partition sets u c Hwf Hs) as (_ & _ & Hk).
  specialize (Hk k). simpl in *. unfold dmem.
  destruct Hk as [|v vs Hall|vs ls v v' Hv Hv' Hne Hnd Hls].
  - split_and!; [|split; [done|]; by intros (? & ? & ?%elem_of_nil & _)|done].
    split; [done|]. by intros [?%elem_of_nil _].
  - assert (Heq : forall x, x ∈ v :: vs -> x = v).
    { rewrite Forall_forall in Hall. intros x [->|Hx]%elem_of_cons; [done|]. symmetry. auto. }
    split_and!; [|split; [done|]|done].
    + intros w. split; [intros [= <-]; split; [by left|done]|]. intros [_ Hw]. f_equal.
      apply Hw. by left.
    + intros (x & y & Hx & Hy & Hne). by rewrite (Heq x Hx), (Heq y Hy) in Hne.
  - split_and!; [|split; [eauto 10|done]|by intros ? [= <-]].
    intros w. split; [done|]. intros [_ Hw]. destruct Hne.
    by rewrite (Hw v Hv), (Hw v' Hv').
Qed.

(** ** One key *)

Section choice.
Context `{Netaddr, PyRepr, SetOrder, SignedJson}.

Lemma auth_loop_in auth prev rest e : auth_loop auth prev rest = Ok e -> e ∈ prev :: rest.
Proof.
  revert auth prev. induction rest as [|x rest IH]; intros auth prev; simpl.
  - intros [= <-]. by left.
  - intros Ha. apply rbind_ok in Ha as (k & _ & Ha).
    destruct (check_state_dependent_auth_rules _ _) as [m|err].
    + right. by eapply IH.
    + destruct (is_auth_error err); [|done]. injection Ha as <-. by left.
Qed.

Lemma resolve_auth_events_in rv events auth e :
  _resolve_auth_events rv events auth = Ok e -> e ∈ events.
Proof.
  unfold _resolve_auth_events. intros Hr. apply rbind_ok in Hr as (keys & _ & Hr).
  destruct (rev (_ordered_events events)) as [|p [|q rest]] eqn:Hrev; [done..|].
  apply auth_loop_in in Hr.
  rewrite <- (sorted_by_perm key_func events). fold (_ordered_events events).
  rewrite <- (rev_involutive (_ordered_events events)), Hrev.
  revert Hr. generalize (p :: q :: rest). intros l Hl.
  by rewrite <- Permutation_rev.
Qed.

Lemma normal_loop_in auth events e : normal_loop auth events = Ok e -> e ∈ events.
Proof.
  induction events as [|x rest IH]; simpl; [done|].
  destruct (check_state_dependent_auth_rules _ _) as [m|err]; [intros [= <-]; by left|].
  destruct (is_auth_error err); [|done].
  destruct rest; [intros [= <-]; by left|]. intros. right. by apply IH.
Qed.

Lemma resolve_normal_events_in events auth e :
  _resolve_normal_events events auth = Ok e -> e ∈ events.
Proof.
  intros Hn%normal_loop_in. unfold _ordered_events in Hn. by rewrite sorted_by_perm in Hn.
Qed.

(** The state-dependent rules pass the event, with these auth events. *)
Definition passes (auth : StateMap event) (e : event) : Prop :=
  exists m, check_state_dependent_auth_rules e (dvals auth) = Ok m.

Lemma normal_loop_first auth events e :
  StronglySorted (le_by key_func) events -> normal_loop auth events = Ok e ->
  (passes auth e /\ forall e', e' ∈ events -> passes auth e' -> le_by key_func e e') \/
  ((forall e', e' ∈ events -> ~ passes auth e') /\
   forall e', e' ∈ events -> le_by key_func e' e).
Proof.
  induction events as [|x rest IH]; intros Hs Hn; [done|]. simpl in Hn.
  inversion Hs as [|? ? Hrest Hx]; subst. rewrite Forall_forall in Hx.
  destruct (check_state_dependent_auth_rules x (dvals auth)) as [m|err] eqn:Hc.
  - injection Hn as <-. left. split; [by exists m|].
    intros e' [->|He']%elem_of_cons _; [apply py_leb_refl|by apply Hx].
  - assert (Hnp : ~ passes auth x) by (intros [m Hm]; congruence).
    destruct (is_auth_error err); [|done]. destruct rest as [|y rest].
    + injection Hn as <-. right.
      split; intros e' ->%list_elem_of_singleton;
        first [exact Hnp|apply py_leb_refl].
    + pose proof (normal_loop_in _ _ _ Hn) as Hin. destruct (IH Hrest Hn) as [[Hp Hf]|[Hp Hf]].
      * left. split; [done|]. intros e' [->|He']%elem_of_cons Hp'; [done|by apply Hf].
      * right. split; intros e' [->|He']%elem_of_cons; auto.
Qed.
End choice.

(** An ordinary conflict is won by the event of greatest depth (the SHA-1 of the event ID
    breaking ties) among those the auth rules pass; when none passes, by the last in that
    order.  The winner does not depend on the order of the candidates. *)
Theorem normal_conflict_winner `{Netaddr, PyRepr, SetOrder, SignedJson} events events' auth e :
  events ≡ₚ events' -> NoDup (map key_func events) ->
  _resolve_normal_events events auth = Ok e ->
  _resolve_normal_events events' auth = Ok e /\ e ∈ events /\
  ((passes auth e /\ forall e', e' ∈ events -> passes auth e' -> le_by key_func e e') \/
   ((forall e', e' ∈ events -> ~ passes auth e') /\
    forall e', e' ∈ events -> le_by key_func e' e)).
Proof.
  intros Hp Hnd Hr. split; [|split; [by eapply resolve_normal_events_in|]].
  - unfold _resolve_normal_events, _ordered_events in *.
    by rewrite <- (sorted_by_unique key_func events events').
  - assert (Hin : forall e', e' ∈ events <-> e' ∈ _ordered_events events).
    { intros e'. unfold _ordered_events. by rewrite sorted_by_perm. }
    setoid_rewrite Hin. apply normal_loop_first; [apply sorted_by_sorted|done].
Qed.

(** ** The whole resolution *)

Section whole.
Context `{Netaddr, PyRepr, SetOrder, SignedJson}.

(** Every resolved event is one of its key's candidates. *)
Definition chosen_from (cs : StateMap (list event)) (r : StateMap event) : Prop :=
  forall k e, dget k r = Some e -> exists evs, dget k cs = Some evs /\ e ∈ evs.

Lemma chosen_dset cs r k e evs :
  dget k cs = Some evs -> e ∈ evs -> chosen_from cs r -> chosen_from cs (dset k e r).
Proof.
  intros Hk He Hr k' e'. rewrite dget_dset. case_decide; subst; [|by apply Hr].
  intros [= <-]. eauto.
Qed.

Lemma resolve_pass_chosen rv sel cs auth r r' :
  dict_wf cs -> chosen_from cs r -> resolve_pass rv sel cs auth r = Ok r' -> chosen_from cs r'.
Proof.
  intros Hwf Hr Hp. refine (rfold_inv (chosen_from cs) _ cs r r' _ Hr Hp).
  intros r0 [k evs] r1 Hin Hr0 Hs. apply (dget_some_iff k evs cs Hwf) in Hin.
  destruct (sel k); [|by injection Hs as <-].
  apply rbind_ok in Hs as (e & He & [= <-]).
  eapply chosen_dset; try done. by eapply resolve_auth_events_in.
Qed.

Lemma resolve_rest_chosen cs auth r r' :
  dict_wf cs -> chosen_from cs r -> resolve_rest cs auth r = Ok r' -> chosen_from cs r'.
Proof.
  intros Hwf Hr Hp. refine (rfold_inv (chosen_from cs) _ cs r r' _ Hr Hp).
  intros r0 [k evs] r1 Hin Hr0 Hs. apply (dget_some_iff k evs cs Hwf) in Hin.
  destruct (dmem k r0); [by injection Hs as <-|].
  apply rbind_ok in Hs as (e & He & [= <-]).
  eapply chosen_dset; try done. by eapply resolve_normal_events_in.
Qed.

Lemma resolve_state_events_chosen rv cs auth r :
  dict_wf cs -> _resolve_state_events rv cs auth = Ok r -> chosen_from cs r.
Proof.
  intros Hwf Hr. unfold _resolve_state_events in Hr.
  apply rbind_ok in Hr as (r0 & Hr0 & Hr). apply rbind_ok in Hr as (r1 & Hr1 & Hr).
  apply rbind_ok in Hr as (r2 & Hr2 & Hr).
  assert (Hstart : chosen_from cs r0).
  { destruct (dget POWER_KEY cs) as [evs|] eqn:Hp; [|by injection Hr0 as <-].
    apply rbind_ok in Hr0 as (e & He & [= <-]).
    apply (chosen_dset cs [] POWER_KEY e evs); try done. by eapply resolve_auth_events_in. }
  apply (resolve_pass_chosen _ _ _ _ _ _ Hwf Hstart) in Hr1.
  apply (resolve_pass_chosen _ _ _ _ _ _ Hwf Hr1) in Hr2.
  by apply (resolve_rest_chosen _ _ _ _ Hwf Hr2) in Hr.
Qed.

(** The state after [split_conflicts]: [u0] and [c] are the partition it starts from. *)
Definition split_inv (sm : list (string * event)) (u0 : StateMap string)
    (c : StateMap (list string)) (st : StateMap string * StateMap (list event)) : Prop :=
  dict_wf st.1 /\ dict_wf st.2 /\
  (forall k, dmem k c = false -> dget k st.1 = dget k u0) /\
  (forall k v, dget k st.1 = Some v -> dget k u0 = Some v \/
     exists ls i e, dget k c = Some ls /\ i ∈ ls /\ dget i sm = Some e /\ v = event_id e) /\
  (forall k evs e, dget k st.2 = Some evs -> e ∈ evs ->
     exists ls i, dget k c = Some ls /\ i ∈ ls /\ dget i sm = Some e).

Lemma split_conflicts_step sm u0 c st k ls :
  dget k c = Some ls -> split_inv sm u0 c st -> split_inv sm u0 c (split_conflicts sm st (k, ls)).
Proof.
  destruct st as [u cs]. intros Hk (Hu & Hcs & Hkeep & Hval & Hev).
  unfold split_conflicts. simpl in *.
  assert (Hin : forall e, e ∈ omap (fun i => dget i sm) (set_iter ls) ->
            exists i, i ∈ ls /\ dget i sm = Some e).
  { intros e (i & Hi & He)%list_elem_of_omap. rewrite set_iter_perm in Hi. eauto. }
  destruct (omap _ _) as [|e1 [|e2 evs]]; unfold split_inv; simpl; [done| |].
  - destruct (Hin e1) as (i & Hi & He1); [by left|].
    split_and!; [by apply dset_wf|done| | |done].
    + intros k' Hk'. rewrite dget_dset_ne; [by apply Hkeep|]. intros ->.
      unfold dmem in Hk'. by rewrite Hk in Hk'.
    + intros k' v. rewrite dget_dset. case_decide; subst; [|by apply Hval].
      intros [= <-]. right. eauto 10.
  - split_and!; [done|by apply dset_wf|done|done|].
    intros k' evs' e. rewrite dget_dset. case_decide; subst; [|by apply Hev].
    intros [= <-] He. destruct (Hin e He) as (i & ? & ?). eauto.
Qed.

Lemma split_conflicts_inv sm u c :
  dict_wf u -> dict_wf c ->
  split_inv sm u c (fold_left (split_conflicts sm) c (u, [])).
Proof.
  intros Hu Hc.
  assert (Hgen : forall l st, l ⊆ c -> split_inv sm u c st ->
            split_inv sm u c (fold_left (split_conflicts sm) l st)).
  { induction l as [|[k ls] l IH]; intros st Hl Hst; simpl; [done|].
    apply IH; [set_solver|]. apply split_conflicts_step; [|done].
    apply dget_some_iff; [done|]. apply Hl. by left. }
  apply Hgen; [done|]. unfold split_inv; simpl. split_and!; try done; [apply dict_wf_nil|auto].
Qed.

(** The final writes. *)
Lemma final_writes r u k :
  dict_wf r ->
  dget k (fold_left (fun d (p : StateKey * event) => dset p.1 (event_id p.2) d) r u) =
  match dget k r with Some e => Some (event_id e) | None => dget k u end.
Proof.
  revert u. induction r as [|[k' e] r IH]; intros u Hwf; simpl; [done|].
  unfold dict_wf in Hwf; simpl in Hwf. apply NoDup_cons in Hwf as [Hn Hwf]. rewrite IH by done.
  case_decide as Hkk; subst.
  - apply dget_none in Hn as ->. apply dget_dset_eq.
  - by rewrite dget_dset_ne.
Qed.

Lemma resolve_state_events_wf rv cs auth r :
  _resolve_state_events rv cs auth = Ok r -> dict_wf r.
Proof.
  unfold _resolve_state_events. intros Hr. apply rbind_ok in Hr as (r0 & Hr0 & Hr).
  apply rbind_ok in Hr as (r1 & Hr1 & Hr). apply rbind_ok in Hr as (r2 & Hr2 & Hr).
  assert (Hstart : dict_wf r0).
  { destruct (dget POWER_KEY cs); [|injection Hr0 as <-; apply dict_wf_nil].
    apply rbind_ok in Hr0 as (e & _ & [= <-]). apply NoDup_singleton. }
  assert (Hpass : forall sel au r r', dict_wf r -> resolve_pass rv sel cs au r = Ok r' -> dict_wf r').
  { intros sel au r3 r4 Hr3 Hp. refine (rfold_inv dict_wf _ cs r3 r4 _ Hr3 Hp).
    intros r5 [k evs] r6 _ Hr5 Hs. destruct (sel k); [|by injection Hs as <-].
    apply rbind_ok in Hs as (e & _ & [= <-]). by apply dset_wf. }
  pose proof (Hpass _ _ _ _ (Hpass _ _ _ _ Hstart Hr1) Hr2) as Hsecond.
  refine (rfold_inv dict_wf _ cs r2 r _ Hsecond Hr).
  intros r5 [k evs] r6 _ Hr5 Hs. destruct (dmem k r5); [by injection Hs as <-|].
  apply rbind_ok in Hs as (e & _ & [= <-]). by apply dset_wf.
Qed.

(** [_resolve_with_state] keeps what is not conflicted and otherwise picks candidates. *)
Lemma resolve_with_state_spec rv u c ids sm r :
  dict_wf u -> dict_wf c -> _resolve_with_state rv u c ids sm = Ok r ->
  dict_wf r /\
  (forall k, dmem k c = false -> dget k r = dget k u) /\
  (forall k v, dget k r = Some v -> dget k u = Some v \/
     exists ls i e, dget k c = Some ls /\ i ∈ ls /\ dget i sm = Some e /\ v = event_id e).
Proof.
  intros Hu Hc Hr. unfold _resolve_with_state in Hr.
  pose proof (split_conflicts_inv sm u c Hu Hc) as Hinv.
  destruct (fold_left (split_conflicts sm) c (u, [])) as [u' cs].
  destruct Hinv as (Hu' & Hcs & Hkeep & Hval & Hev). simpl in *.
  apply rbind_ok in Hr as (rs & Hrs & Hr). apply Ok_inj in Hr. subst r.
  pose proof (resolve_state_events_wf _ _ _ _ Hrs) as Hwf.
  pose proof (resolve_state_events_chosen _ _ _ _ Hcs Hrs) as Hch.
  split_and!.
  - clear -Hu'. revert u' Hu'. induction rs as [|p rs IH]; intros u' Hu'; simpl; [done|].
    apply IH. by apply dset_wf.
  - intros k Hk. rewrite final_writes by done. destruct (dget k rs) as [e|] eqn:He; [|by apply Hkeep].
    destruct (Hch k e He) as (evs & Hevs & Hin). destruct (Hev k evs e Hevs Hin) as (ls & i & Hls & _).
    unfold dmem in Hk. by rewrite Hls in Hk.
  - intros k v. rewrite final_writes by done. destruct (dget k rs) as [e|] eqn:He; [|by apply Hval].
    intros [= <-]. right. destruct (Hch k e He) as (evs & Hevs & Hin).
    destruct (Hev k evs e Hevs Hin) as (ls & i & ? & ? & ?). eauto 10.
Qed.

Lemma dget_dupdate_in {K V} `{EqDecision K} (k : K) (v : V) d d' :
  dget k (dupdate d d') = Some v -> (k, v) ∈ d' \/ dget k d = Some v.
Proof.
  unfold dupdate. revert d. induction d' as [|[k' v'] d' IH]; intros d Hd; simpl in *; [by right|].
  apply IH in Hd as [?|Hd]; [left; by right|]. rewrite dget_dset in Hd. case_decide; subst.
  - injection Hd as ->. left; left.
  - by right.
Qed.

(** Where the events used come from: the factory or the event map. *)
Definition supplied (factory : list string -> list (string * event))
    (em : option (list (string * event))) (i : string) (e : event) : Prop :=
  (exists ids, (i, e) ∈ factory ids) \/ exists m, em = Some m /\ (i, e) ∈ m.

(** Unfolding the entry point: a single state is returned as it is; otherwise the state is
    that of [_resolve_with_state] on the partition, with supplied events. *)
Lemma resolve_events_cases room rv sets em factory r :
  resolve_events_with_store room rv sets em factory = Ok r ->
  sets = [r] \/
  exists u c ids sm, _seperate sets = Ok (u, c) /\ _resolve_with_state rv u c ids sm = Ok r /\
    forall i e, dget i sm = Some e -> supplied factory em i e.
Proof.
  unfold resolve_events_with_store. intros Hr.
  assert (Hsingle : (exists s, sets = [s] /\ s = r) \/ forall s, sets <> [s]).
  { destruct sets as [|s [|s' sets]]; [by right|left; eexists; split; [done|]|by right].
    by injection Hr. }
  destruct Hsingle as [(s & -> & ->)|Hne]; [by left|]. right.
  assert (Hr' : exists u c ids needed sm0, _seperate sets = Ok (u, c) /\
    sm0 = match em with Some m => dupdate (factory needed) m | None => factory needed end /\
    exists new, _resolve_with_state rv u c ids (dupdate sm0 (factory new)) = Ok r).
  { destruct sets as [|s [|s' sets]]; [|by destruct (Hne s)|];
      apply rbind_ok in Hr as ([u c] & Hsep & Hr); apply rbind_ok in Hr as ([] & _ & Hr);
      apply rbind_ok in Hr as (ids & _ & Hr); apply rbind_ok in Hr as ([] & _ & Hr);
      eexists u, c, ids, _, _; (split; [done|]); (split; [reflexivity|]); eexists; exact Hr. }
  destruct Hr' as (u & c & ids & needed & sm0 & Hsep & Hsm0 & new & Hw).
  eexists u, c, ids, _. split; [done|]. split; [exact Hw|].
  intros i e [Hin|Hi]%dget_dupdate_in; [by left; eexists|]. subst sm0.
  destruct em as [m|]; [|left; eexists; by apply dget_in].
  apply dget_dupdate_in in Hi as [Hin|Hi]; [by right; eexists|left; eexists; by apply dget_in].
Qed.
End whole.

(** Version 1 state resolution keeps every entry on which the states agree. *)
Theorem v1_keeps_agreed `{Netaddr, PyRepr, SetOrder, SignedJson} room rv sets em factory r k v :
  Forall dict_wf sets -> resolve_events_with_store room rv sets em factory = Ok r ->
  v ∈ values_of sets k -> (forall v', v' ∈ values_of sets k -> v' = v) -> dget k r = Some v.
Proof.
  intros Hwf Hr Hv Hall. apply resolve_events_cases in Hr as [->|(u & c & ids & sm & Hsep & Hw & _)].
  - unfold values_of in Hv; simpl in Hv. destruct (dget k r); [|by apply elem_of_nil in Hv].
    by apply list_elem_of_singleton in Hv as ->.
  - destruct (seperate_partition sets u c Hwf Hsep) as (Hu & Hc & Hk). specialize (Hk k).
    destruct (resolve_with_state_spec rv u c ids sm r Hu Hc Hw) as (_ & Hkeep & _).
    unfold dmem in Hkeep. specialize (Hkeep k). simpl in Hk.
    destruct Hk as [|w vs Hw'|vs ls w w' Hin Hin' Hne]; [by apply elem_of_nil in Hv| |].
    + rewrite Hkeep by done. f_equal. apply Hall. by left.
    + destruct Hne. by rewrite (Hall w Hin), (Hall w' Hin').
Qed.

(** Version 1 state resolution invents nothing: every entry of the resolved state is an
    entry of one of the given states, provided events are filed under their own IDs. *)
Theorem v1_invents_nothing `{Netaddr, PyRepr, SetOrder, SignedJson} room rv sets em factory r k v :
  Forall dict_wf sets -> (forall i e, supplied factory em i e -> event_id e = i) ->
  resolve_events_with_store room rv sets em factory = Ok r ->
  dget k r = Some v -> exists s, s ∈ sets /\ dget k s = Some v.
Proof.
  intros Hwf Hsup Hr Hv.
  assert (Hin : v ∈ values_of sets k -> exists s, s ∈ sets /\ dget k s = Some v).
  { intros (s & ? & ?)%list_elem_of_omap. eauto. }
  apply resolve_events_cases in Hr as [->|(u & c & ids & sm & Hsep & Hw & Hsm)].
  - exists r. split; [by left|done].
  - apply Hin. destruct (seperate_partition sets u c Hwf Hsep) as (Hu & Hc & Hk). specialize (Hk k).
    destruct (resolve_with_state_spec rv u c ids sm r Hu Hc Hw) as (_ & _ & Hval).
    apply Hval in Hv as [Hv|(ls & i & e & Hls & Hi & He & ->)]; simpl in Hk.
    + rewrite Hv in Hk. inversion Hk as [|w vs Hall Heq|]; subst. by left.
    + rewrite Hls in Hk. inversion Hk as [| |vs ls' w w' ? ? ? ? Heq]; subst.
      rewrite (Hsup i e) by auto. by apply Heq.
Qed.

(** ** Witnesses *)

(** Two states of a room that agree on the create event and differ on the topic. *)
Definition ev_topic1 : event :=
  mk_event rv11 "t1" EventTypes.Topic "@admin:a" (Some "") [("topic", JStr "one")] ["$x"] [].
Definition ev_topic2 : event :=
  mk_event rv11 "t2" EventTypes.Topic "@admin:a" (Some "") [("topic", JStr "two")] ["$x"] [].
Definition v1_events : list event :=
  [ev_create; ev_member "@admin:a" "join"; pl_old; ev_topic1; ev_topic2].
Definition v1_factory (ids : list string) : list (string * event) :=
  omap (fun i => (fun e => (i, e)) <$> List.find (fun e => String.eqb (event_id e) i) v1_events) ids.
Definition v1_state (topic : string) : StateMap string :=
  [(CREATE_KEY, "$create"); ((EventTypes.Member, "@admin:a"), "$m@admin:a"); (POWER_KEY, "$pl1");
   ((EventTypes.Topic, ""), topic)].
Definition v1_sets : list (StateMap string) := [v1_state "$t1"; v1_state "$t2"].
Definition v1_result : StateMap string := v1_state "$t2".

Lemma v1_sets_wf : Forall dict_wf v1_sets.
Proof. by repeat constructor; apply (bool_decide_unpack _). Qed.

Lemma v1_factory_sound i e : supplied v1_factory None i e -> event_id e = i.
Proof.
  intros [[ids Hin]|(m & [=] & _)]. unfold v1_factory in Hin.
  apply list_elem_of_omap in Hin as (j & _ & Hj). apply fmap_Some in Hj as (e' & He & [= -> ->]).
  apply find_some in He as [_ He]. by apply String.eqb_eq.
Qed.

Lemma seperate_spec_witness :
  exists u c, _seperate v1_sets = Ok (u, c) /\
    (dmem (EventTypes.Topic, "") c = true <->
     exists v v', v ∈ values_of v1_sets (EventTypes.Topic, "") /\
       v' ∈ values_of v1_sets (EventTypes.Topic, "") /\ v <> v').
Proof.
  eexists _, _. split; [reflexivity|].
  apply (seperate_spec v1_sets _ _ v1_sets_wf eq_refl (EventTypes.Topic, "")).
Defined.

Lemma v1_keeps_agreed_witness :
  resolve_events_with_store "!r:a" rv11 v1_sets None v1_factory = Ok v1_result /\
  dget POWER_KEY v1_result = Some "$pl1".
Proof.
  assert (Hr : resolve_events_with_store "!r:a" rv11 v1_sets None v1_factory = Ok v1_result)
    by (vm_compute; reflexivity).
  split; [exact Hr|].
  apply (v1_keeps_agreed "!r:a" rv11 v1_sets None v1_factory v1_result POWER_KEY "$pl1" v1_sets_wf Hr).
  - left.
  - intros v' Hv'. change (v' ∈ ["$pl1"; "$pl1"]) in Hv'.
    rewrite !elem_of_cons, elem_of_nil in Hv'. by destruct Hv' as [->|[->|[]]].
Defined.

Lemma v1_invents_nothing_witness :
  exists s, s ∈ v1_sets /\ dget (EventTypes.Topic, "") s = Some "$t2".
Proof.
  assert (Hr : resolve_events_with_store "!r:a" rv11 v1_sets None v1_factory = Ok v1_result)
    by (vm_compute; reflexivity).
  apply (v1_invents_nothing "!r:a" rv11 v1_sets None v1_factory v1_result (EventTypes.Topic, "") "$t2"
           v1_sets_wf v1_factory_sound Hr).
  reflexivity.
Defined.

Definition topic_candidates : list event := [ev_topic1; ev_topic2].

Lemma normal_conflict_winner_witness :
  _resolve_normal_events topic_candidates room1 = Ok ev_topic2 /\
  _resolve_normal_events [ev_topic2; ev_topic1] room1 = Ok ev_topic2.
Proof.
  assert (Hr : _resolve_normal_events topic_candidates room1 = Ok ev_topic2)
    by (vm_compute; reflexivity).
  split; [exact Hr|].
  apply (normal_conflict_winner topic_candidates [ev_topic2; ev_topic1] room1 ev_topic2);
    [apply Permutation_swap| |exact Hr].
  apply (bool_decide_unpack _). vm_compute. exact I.
Defined.
