(* ===== verification/TopoSort.v ===== *)
(** * TopoSort: the topological sorts (state/v2.py lines 934-985, util/iterutils.py)

    Kahn's algorithm with a priority queue, three times: the lexicographic sort of state
    resolution, [sorted_topologically], and its batched variant; and the small list functions
    of iterutils.  A [heapq] heap is kept as the sorted list of its elements: [heapify] sorts,
    [heappush] inserts, [heappop] takes the head. *)
From S2P Require Import Prelude PyVal PySort EventAuthPower Samples StateV1 StateV1Safety.
Open Scope list_scope.
Open Scope Z_scope.
Open Scope py_scope.

(** ** Shared pieces *)

Section dicts.
Context {K : Type} `{EqDecision K}.

(** [d.setdefault(node, set())], and the same followed by [.add(x)] *)
Definition setdefault_set (node : K) (d : list (K * list K)) : list (K * list K) :=
  if dmem node d then d else dset node [] d.

Definition setdefault_add (node x : K) (d : list (K * list K)) : list (K * list K) :=
  dset node (set_add x (default [] (dget node d))) d.
End dicts.

Definition heapify {A} `{PyOrd A} (l : list A) : list A := sorted_by id l.
Definition heappush {A} `{PyOrd A} (x : A) (h : list A) : list A := insert_by id x h.

(** ** [lexicographical_topological_sort] *)

Section lexicographical.
Context {K Q : Type} `{EqDecision K, PyOrd K, PyOrd Q, SetOrder}.
Context (key : K -> result Q).

(** The body of the first loop: the nodes without edges, and the reverse graph. *)
Definition lex_init_step (st : list (Q * K) * list (K * list K)) (item : K * list K)
    : result (list (Q * K) * list (K * list K)) :=
  let (zero_outdegree, reverse_graph) := st in
  let (node, edges) := item in
  let* zero_outdegree :=
    if (List.length edges =? 0)%nat then
      let* k := key node in Ok (zero_outdegree ++ [(k, node)])
    else Ok zero_outdegree in
  Ok (zero_outdegree,
      fold_left (fun rg edge => setdefault_add edge node rg) (set_iter edges)
        (setdefault_set node reverse_graph)).

(** The body of the inner loop over the parents of the node taken from the heap. *)
Definition lex_parent_step (node : K) (st : list (K * list K) * list (Q * K)) (parent : K)
    : result (list (K * list K) * list (Q * K)) :=
  let (outdegree_map, heap) := st in
  match dget parent outdegree_map with
  | None => Err KeyError
  | Some out =>
      let out := filter (fun x => x <> node) out in
      let outdegree_map := dset parent out outdegree_map in
      if (List.length out =? 0)%nat then
        let* k := key parent in
        Ok (outdegree_map, heappush (k, parent) heap)
      else Ok (outdegree_map, heap)
  end.

Fixpoint lex_loop (fuel : nat) (reverse_graph : list (K * list K))
    (outdegree_map : list (K * list K)) (heap : list (Q * K)) : result (list K) :=
  match heap with
  | [] => Ok []
  | (_, node) :: heap =>
      match fuel with
      | O => Err OutOfFuel
      | S fuel =>
          match dget node reverse_graph with
          | None => Err KeyError
          | Some parents =>
              let* (outdegree_map, heap) :=
                rfold (lex_parent_step node) (outdegree_map, heap) (set_iter parents) in
              let* rest := lex_loop fuel reverse_graph outdegree_map heap in
              Ok (node :: rest)
          end
      end
  end.

Definition lexicographical_topological_sort (graph : list (K * list K)) : result (list K) :=
  let* (zero_outdegree, reverse_graph) := rfold lex_init_step ([], []) graph in
  lex_loop (List.length graph) reverse_graph graph (heapify zero_outdegree).
End lexicographical.

(** ** [sorted_topologically] and [sorted_topologically_batched] *)

Section iterutils.
Context {T : Type} `{EqDecision T, PyOrd T, SetOrder}.

(** [dict.fromkeys(nodes, 0)] *)
Definition fromkeys (nodes : list T) : list (T * Z) :=
  fold_left (fun d n => dset n 0 d) nodes [].

(** The body of the first loop: the degrees, and the reverse graph. *)
Definition degree_step (st : list (T * Z) * list (T * list T)) (item : T * list T)
    : list (T * Z) * list (T * list T) :=
  let (degree_map, reverse_graph) := st in
  let (node, edges) := item in
  if negb (dmem node degree_map) then st
  else
    let (degree_map, reverse_graph) :=
      fold_left (fun '(dm, rg) edge =>
        ((if dmem edge dm then dset node (default 0 (dget node dm) + 1) dm else dm),
         setdefault_add edge node rg)) (iter_set edges) (degree_map, reverse_graph) in
    (degree_map, setdefault_set node reverse_graph).

Definition degree_graph (nodes : list T) (graph : list (T * list T))
    : list (T * Z) * list (T * list T) :=
  fold_left degree_step graph (fromkeys nodes, []).

Definition zero_degrees (degree_map : list (T * Z)) : list T :=
  map fst (filter (fun p => p.2 = 0) degree_map).

(** The inner loop's body: [push] says what is done with a node whose degree drops to 0. *)
Definition degree_parent_step (push : T -> list T -> list T) (st : list (T * Z) * list T)
    (edge : T) : list (T * Z) * list T :=
  let (degree_map, zero) := st in
  match dget edge degree_map with
  | None => st
  | Some d =>
      (dset edge (d - 1) degree_map, if d - 1 =? 0 then push edge zero else zero)
  end.

Definition parents_of (reverse_graph : list (T * list T)) (node : T) : list T :=
  set_iter (default [] (dget node reverse_graph)).

Fixpoint topo_loop (fuel : nat) (reverse_graph : list (T * list T)) (degree_map : list (T * Z))
    (heap : list T) : result (list T) :=
  match heap with
  | [] => Ok []
  | node :: heap =>
      match fuel with
      | O => Err OutOfFuel
      | S fuel =>
          let (degree_map, heap) :=
            fold_left (degree_parent_step heappush) (parents_of reverse_graph node)
              (degree_map, heap) in
          let* rest := topo_loop fuel reverse_graph degree_map heap in
          Ok (node :: rest)
      end
  end.

Definition sorted_topologically (nodes : list T) (graph : list (T * list T)) : result (list T) :=
  let (degree_map, reverse_graph) := degree_graph nodes graph in
  topo_loop (List.length degree_map) reverse_graph degree_map (heapify (zero_degrees degree_map)).

Definition batch_node (reverse_graph : list (T * list T)) (st : list (T * Z) * list T) (node : T)
    : list (T * Z) * list T :=
  fold_left (degree_parent_step (fun edge zero => zero ++ [edge])) (parents_of reverse_graph node) st.

Fixpoint batched_loop (fuel : nat) (reverse_graph : list (T * list T))
    (degree_map : list (T * Z)) (zero_degree : list T) : result (list (list T)) :=
  match zero_degree with
  | [] => Ok []
  | _ =>
      match fuel with
      | O => Err OutOfFuel
      | S fuel =>
          let (degree_map, new_zero_degree) :=
            fold_left (batch_node reverse_graph) zero_degree (degree_map, []) in
          let* rest := batched_loop fuel reverse_graph degree_map new_zero_degree in
          Ok (zero_degree :: rest)
      end
  end.

Definition sorted_topologically_batched (nodes : list T) (graph : list (T * list T))
    : result (list (list T)) :=
  let (degree_map, reverse_graph) := degree_graph nodes graph in
  batched_loop (List.length degree_map) reverse_graph degree_map (zero_degrees degree_map).
End iterutils.

(** ** [batch_iter], [chunk_seq], [partition] *)

(** The loop that calls [islice] until it returns an empty tuple. *)
Fixpoint batch_loop {A} (fuel : nat) (size : nat) (l : list A) : result (list (list A)) :=
  match take size l with
  | [] => Ok []
  | batch =>
      match fuel with
      | O => Err OutOfFuel
      | S fuel => let* rest := batch_loop fuel size (drop size l) in Ok (batch :: rest)
      end
  end.

(** [islice] refuses a negative size. *)
Definition batch_iter {A} (l : list A) (size : Z) : result (list (list A)) :=
  if size <? 0 then Err ValueError else batch_loop (List.length l) (Z.to_nat size) l.

(** [range(0, n, step)]: ValueError for a zero step, empty for a negative one. *)
Definition range0 (n step : Z) : result (list Z) :=
  if step =? 0 then Err ValueError
  else if step <? 0 then Ok []
  else Ok (map (fun i => Z.of_nat i * step) (seq 0 (Z.to_nat ((n + step - 1) / step)))).

Definition chunk_seq {A} (iseq : list A) (maxlen : Z) : result (list (list A)) :=
  let* starts := range0 (Z.of_nat (List.length iseq)) maxlen in
  Ok (map (fun i => take (Z.to_nat maxlen) (drop (Z.to_nat i) iseq)) starts).

Definition partition {A} (predicate : A -> bool) (l : list A) : list A * list A :=
  fold_left (fun '(t, f) item => if predicate item then (t ++ [item], f) else (t, f ++ [item]))
    l ([], []).

(** * The topological sorts meet their specification

    [greedy_run] is the abstract specification: at every step the least of the nodes whose
    dependencies are all out comes next, until there is none.  It has one result at most,
    respects the dependencies, and is complete on an acyclic graph.  The sorts
    are shown to compute it. *)
Open Scope list_scope.
Open Scope Z_scope.
Open Scope py_scope.

(** ** The specification *)

Section greedy.
Context {K : Type} `{EqDecision K}.
Context (nodes : list K) (deps : K -> list K) (le : K -> K -> Prop).

Definition ready (done : list K) (n : K) : Prop :=
  n ∈ nodes /\ (n ∉ done) /\ forall d, d ∈ deps n -> d ∈ done.

Inductive greedy_run : list K -> list K -> Prop :=
  | greedy_stop done : (forall n, ~ ready done n) -> greedy_run done []
  | greedy_step done n out :
      ready done n -> (forall m, ready done m -> le n m) ->
      greedy_run (done ++ [n]) out -> greedy_run done (n :: out).

Lemma greedy_unique done out1 out2 :
  (forall a b, le a b -> le b a -> a = b) ->
  greedy_run done out1 -> greedy_run done out2 -> out1 = out2.
Proof.
  intros Hanti H1. revert out2. induction H1 as [done Hno|done n out Hr Hmin _ IH]; intros out2 H2.
  - inversion H2 as [|? n out Hr]; [done|]. by destruct (Hno n).
  - inversion H2 as [? Hno|? n' out' Hr' Hmin' Hrun]; subst; [by destruct (Hno n)|].
    assert (n = n') as <- by auto. f_equal. by apply IH.
Qed.

Lemma greedy_nodup done out : greedy_run done out -> NoDup done -> NoDup (done ++ out).
Proof.
  induction 1 as [done _|done n out (_ & Hn & _) _ _ IH]; intros Hnd; [by rewrite app_nil_r|].
  replace (done ++ n :: out) with ((done ++ [n]) ++ out) by (by rewrite <- app_assoc).
  apply IH. apply NoDup_app. split_and!; [done| |apply NoDup_singleton].
  intros x Hx ->%list_elem_of_singleton. done.
Qed.

Lemma greedy_nodes done out n : greedy_run done out -> n ∈ out -> n ∈ nodes.
Proof.
  induction 1 as [|done m out (Hm & _) _ _ IH]; [by intros ?%elem_of_nil|].
  intros [->|?]%elem_of_cons; auto.
Qed.

(** Dependencies come first. *)
Lemma greedy_order done out l1 n l2 d :
  greedy_run done out -> out = l1 ++ n :: l2 -> d ∈ deps n -> d ∈ done ++ l1.
Proof.
  intros Hr. revert l1. induction Hr as [|done m out (_ & _ & Hm) _ _ IH]; intros l1 Hout Hd.
  - by destruct l1.
  - destruct l1 as [|x l1]; injection Hout as <- ->.
    + rewrite app_nil_r. by apply Hm.
    + specialize (IH l1 eq_refl Hd). by rewrite <- app_assoc in IH.
Qed.

(** On a graph whose dependencies are nodes and strictly descend in some rank, every node
    comes out. *)
Lemma greedy_complete (rank : K -> nat) done out :
  (forall n d, n ∈ nodes -> d ∈ deps n -> d ∈ nodes /\ (rank d < rank n)%nat) ->
  greedy_run done out -> forall n, n ∈ nodes -> n ∈ done ++ out.
Proof.
  intros Hrank. induction 1 as [done Hno|done n out _ _ _ IH].
  - rewrite app_nil_r. intros n. induction n as [n IHn] using (induction_ltof1 _ rank).
    unfold ltof in IHn. intros Hn. destruct (decide (n ∈ done)) as [|Hnot]; [done|].
    exfalso. apply (Hno n). split_and!; [done..|]. intros d Hd.
    destruct (Hrank n d Hn Hd). by apply IHn.
  - intros m Hm. specialize (IH m Hm). by rewrite <- app_assoc in IH.
Qed.
End greedy.

Lemma ready_ext {K} (nodes nodes' : list K) deps deps' done done' n :
  (forall x, x ∈ nodes <-> x ∈ nodes') -> (forall x d, d ∈ deps x <-> d ∈ deps' x) ->
  (forall x, x ∈ done <-> x ∈ done') ->
  ready nodes deps done n <-> ready nodes' deps' done' n.
Proof.
  intros Hn Hd Hdone. unfold ready. rewrite Hn, Hdone. by setoid_rewrite Hd; setoid_rewrite Hdone.
Qed.

Lemma greedy_run_ext {K} (nodes nodes' : list K) deps deps' le done out :
  (forall x, x ∈ nodes <-> x ∈ nodes') -> (forall x d, d ∈ deps x <-> d ∈ deps' x) ->
  greedy_run nodes deps le done out -> greedy_run nodes' deps' le done out.
Proof.
  intros Hn Hd Hr.
  assert (Heq : forall done n, ready nodes deps done n <-> ready nodes' deps' done n)
    by (intros; by apply ready_ext).
  induction Hr as [done Hno|done n out Hr Hmin _ IH].
  - apply greedy_stop. intros n. by rewrite <- Heq.
  - apply greedy_step; [by apply Heq| |done]. intros m. rewrite <- Heq. apply Hmin.
Qed.

(** ** Reverse graphs *)

Section reverse_graph.
Context {K : Type} `{EqDecision K}.

(** The reverse graph [rg] represents the relation "[p] references [x]". *)
Definition represents (E : K -> K -> Prop) (rg : list (K * list K)) : Prop :=
  forall x, NoDup (default [] (dget x rg)) /\ forall p, p ∈ default [] (dget x rg) <-> E p x.

Lemma represents_ext (E E' : K -> K -> Prop) rg :
  (forall p x, E p x <-> E' p x) -> represents E rg -> represents E' rg.
Proof. intros He Hr x. destruct (Hr x). split; [done|]. intros p. by rewrite <- He. Qed.

Lemma represents_empty : represents (fun _ _ => False) [].
Proof. intros x. simpl. split; [constructor|]. intros p. by rewrite elem_of_nil. Qed.

Lemma represents_setdefault E node rg : represents E rg -> represents E (setdefault_set node rg).
Proof.
  unfold setdefault_set, dmem. intros Hr x. destruct (dget node rg) eqn:Hn; [apply Hr|].
  rewrite dget_dset. case_decide; subst; [|apply Hr]. specialize (Hr node). by rewrite Hn in Hr.
Qed.

Lemma represents_add E edge node rg :
  represents E rg ->
  represents (fun p x => E p x \/ (p = node /\ x = edge)) (setdefault_add edge node rg).
Proof.
  unfold setdefault_add. intros Hr x. rewrite dget_dset. case_decide as Hx; simpl.
  - subst. destruct (Hr edge) as [Hnd Hin]. split; [by apply NoDup_set_add|].
    intros p. rewrite elem_of_set_add, Hin. naive_solver.
  - destruct (Hr x) as [Hnd Hin]. split; [done|]. intros p. rewrite Hin. naive_solver.
Qed.

Lemma represents_adds E edges node rg :
  represents E rg ->
  represents (fun p x => E p x \/ (p = node /\ x ∈ edges))
    (fold_left (fun rg edge => setdefault_add edge node rg) edges rg).
Proof.
  revert E rg. induction edges as [|e edges IH]; intros E rg Hr; simpl.
  - eapply represents_ext; [|done]. intros p x. rewrite elem_of_nil. tauto.
  - eapply represents_ext; [|apply IH, represents_add, Hr].
    intros p x. rewrite elem_of_cons. tauto.
Qed.

Lemma dmem_dset (k k' : K) {V} (v : V) d : dmem k (dset k' v d) = true <-> k = k' \/ dmem k d = true.
Proof. unfold dmem. rewrite dget_dset. case_decide; naive_solver. Qed.

Lemma dmem_adds (x node : K) edges (rg : list (K * list K)) :
  dmem x rg = true ->
  dmem x (fold_left (fun rg edge => setdefault_add edge node rg) edges rg) = true.
Proof.
  revert rg. induction edges as [|e edges IH]; intros rg Hx; simpl; [done|].
  apply IH. apply dmem_dset. by right.
Qed.

Lemma dmem_setdefault (x node : K) (rg : list (K * list K)) :
  dmem x (setdefault_set node rg) = true <-> x = node \/ dmem x rg = true.
Proof.
  unfold setdefault_set. destruct (dmem node rg) eqn:Hn; [naive_solver|]. apply dmem_dset.
Qed.
End reverse_graph.

(** ** Heaps *)

Section heaps.
Context {A : Type} `{PyOrd A}.

Definition heap_ok (h : list A) : Prop := StronglySorted (le_by id) h /\ NoDup h.

Lemma heap_push x h : heap_ok h -> x ∉ h -> heap_ok (heappush x h).
Proof.
  intros [Hs Hn] Hx. split; [by apply insert_by_sorted|].
  unfold heappush. rewrite insert_by_perm. by apply NoDup_cons.
Qed.

Lemma elem_of_heappush x y h : y ∈ heappush x h <-> y = x \/ y ∈ h.
Proof. unfold heappush. rewrite insert_by_perm. apply elem_of_cons. Qed.

Lemma heap_heapify l : NoDup l -> heap_ok (heapify l).
Proof. intros Hl. split; [apply sorted_by_sorted|]. unfold heapify. by rewrite sorted_by_perm. Qed.

Lemma heap_pop x h : heap_ok (x :: h) -> heap_ok h /\ (x ∉ h) /\ forall y, y ∈ h -> py_leb x y = true.
Proof.
  intros [Hs Hn]. inversion Hs as [|? ? Hs' Hf]; subst. apply NoDup_cons in Hn as [Hx Hn].
  rewrite Forall_forall in Hf. by split_and!.
Qed.
End heaps.

(** ** The lexicographic sort *)

Section lexicographical.
Context {K Q : Type} `{EqDecision K, PyOrd K, PyOrd Q, SetOrder}.
Context (key : K -> result Q) (qkey : K -> Q) (graph : list (K * list K)).
Hypothesis Hgraph : dict_wf graph.
Hypothesis Hkey : forall n, n ∈ map fst graph -> key n = Ok (qkey n).

Definition gnodes : list K := map fst graph.
Definition gdeps (n : K) : list K := default [] (dget n graph).
Definition lex_le (a b : K) : Prop := py_leb (qkey a, a) (qkey b, b) = true.

Lemma lex_le_antisym a b : lex_le a b -> lex_le b a -> a = b.
Proof. unfold lex_le. intros Hab Hba. by injection (py_leb_antisym _ _ Hab Hba). Qed.

Lemma gdeps_in n es : (n, es) ∈ graph -> gdeps n = es.
Proof. intros Hin. unfold gdeps. by rewrite (proj2 (dget_some_iff n es graph Hgraph) Hin). Qed.

Lemma gnodes_get n : n ∈ gnodes -> dget n graph = Some (gdeps n).
Proof.
  unfold gnodes, gdeps. intros Hn%dmem_true. unfold dmem in Hn. by destruct (dget n graph).
Qed.

(** The first loop. *)
Lemma lex_init g zero rg E :
  (forall n, n ∈ map fst g -> key n = Ok (qkey n)) -> represents E rg ->
  exists zero' rg', rfold (lex_init_step key) (zero, rg) g = Ok (zero', rg') /\
    zero' = zero ++ omap (fun p : K * list K =>
      if (List.length p.2 =? 0)%nat then Some (qkey p.1, p.1) else None) g /\
    represents (fun p x => E p x \/ exists es, (p, es) ∈ g /\ x ∈ es) rg' /\
    forall x, dmem x rg = true \/ x ∈ map fst g -> dmem x rg' = true.
Proof.
  revert zero rg E. induction g as [|[n es] g IH]; intros zero rg E Hk Hr; simpl.
  - exists zero, rg. rewrite app_nil_r. split_and!; [done..| |].
    + eapply represents_ext; [|done]. intros p x. split; [by left|].
      intros [?|(? & ?%elem_of_nil & _)]; done.
    + intros x [?|?%elem_of_nil]; done.
  - assert (Hkn : key n = Ok (qkey n)) by (apply Hk; by left).
    set (z := if (List.length es =? 0)%nat then [(qkey n, n)] else []).
    assert ((if (List.length es =? 0)%nat then let* k := key n in Ok (zero ++ [(k, n)])
             else Ok zero) = Ok (zero ++ z)) as ->.
    { subst z. destruct (_ =? _)%nat; [by rewrite Hkn|by rewrite app_nil_r]. }
    simpl. edestruct (IH (zero ++ z)) as (zero' & rg' & -> & -> & Hrep & Hdom).
    { intros m Hm. apply Hk. by right. }
    { apply represents_adds, represents_setdefault, Hr. }
    eexists _, rg'. split; [done|]. split_and!.
    + subst z. destruct (_ =? _)%nat; simpl; by rewrite <- app_assoc, ?app_nil_r.
    + eapply represents_ext; [|exact Hrep]. intros p x. setoid_rewrite elem_of_cons.
      setoid_rewrite set_iter_perm. naive_solver.
    + intros x Hx. apply Hdom. destruct Hx as [Hx|[->|Hx]%elem_of_cons]; [| |by right].
      * left. apply dmem_adds, dmem_setdefault. by right.
      * left. apply dmem_adds, dmem_setdefault. by left.
Qed.

(** The loop invariant, over the nodes that are out. *)
Definition lex_out_ok (done : list K) (removed : K -> K -> Prop) (out : list (K * list K)) : Prop :=
  forall p, p ∈ gnodes -> exists o, dget p out = Some o /\
    forall x, x ∈ o <-> x ∈ gdeps p /\ (x ∉ done) /\ ~ removed p x.

Definition lex_inv (done : list K) (out : list (K * list K)) (heap : list (Q * K)) : Prop :=
  NoDup done /\ (forall n, n ∈ done -> n ∈ gnodes /\ forall d, d ∈ gdeps n -> d ∈ done) /\
  lex_out_ok done (fun _ _ => False) out /\ heap_ok heap /\
  forall q n, (q, n) ∈ heap <-> q = qkey n /\ ready gnodes gdeps done n.

(** The invariant of the inner loop: [node] is just out, the parents in [ps] are done. *)
Definition lex_inner (done : list K) (node : K) (ps : list K) (out : list (K * list K))
    (heap : list (Q * K)) : Prop :=
  lex_out_ok done (fun p x => x = node /\ p ∈ ps) out /\ heap_ok heap /\
  forall q n, (q, n) ∈ heap <-> q = qkey n /\
    ((ready gnodes gdeps done n /\ n <> node) \/
     (n ∈ ps /\ ready gnodes gdeps (done ++ [node]) n)).

Lemma lex_parent_ok done node ps out heap p :
  (forall n, n ∈ done -> n ∈ gnodes /\ forall d, d ∈ gdeps n -> d ∈ done) ->
  ready gnodes gdeps done node ->
  p ∈ gnodes -> node ∈ gdeps p -> (p ∉ ps) -> lex_inner done node ps out heap ->
  exists out' heap', lex_parent_step key node (out, heap) p = Ok (out', heap') /\
    lex_inner done node (ps ++ [p]) out' heap'.
Proof.
  intros Hclosed (Hnode & Hnd & Hdeps) Hp Hedge Hps (Hout & Hheap & Hin).
  destruct (Hout p Hp) as (o & Ho & Hox). unfold lex_parent_step. rewrite Ho.
  set (o' := filter (fun x => x <> node) o).
  assert (Ho' : forall x, x ∈ o' <-> x ∈ gdeps p /\ (x ∉ done) /\ x <> node).
  { intros x. unfold o'. rewrite list_elem_of_filter, Hox. naive_solver. }
  assert (Hnotin : p ∉ done).
  { intros Hpd. destruct (Hclosed p Hpd) as [_ Hd]. by apply Hnd, Hd. }
  assert (Hpn : p <> node). { intros ->. by apply Hnd, Hdeps. }
  assert (Hout' : lex_out_ok done (fun q x => x = node /\ q ∈ ps ++ [p]) (dset p o' out)).
  { intros q Hq. rewrite dget_dset. case_decide; subst.
    - exists o'. split; [done|]. intros x. rewrite Ho', elem_of_app, list_elem_of_singleton. tauto.
    - destruct (Hout q Hq) as (oq & Hoq & Hqx). exists oq. split; [done|].
      intros x. rewrite Hqx, elem_of_app, list_elem_of_singleton. tauto. }
  assert (Hready : ready gnodes gdeps (done ++ [node]) p <-> o' = []).
  { split.
    - intros (_ & _ & Hd). destruct o' as [|x o'']; [done|]. exfalso.
      destruct (proj1 (Ho' x)) as (Hx & Hxd & Hxn); [by left|].
      apply Hd in Hx. rewrite elem_of_app, list_elem_of_singleton in Hx. tauto.
    - intros Hnil. split_and!; [done| |].
      + rewrite elem_of_app, list_elem_of_singleton. tauto.
      + intros d Hd. rewrite elem_of_app, list_elem_of_singleton.
        destruct (decide (d = node)); [by right|]. destruct (decide (d ∈ done)); [by left|].
        exfalso. assert (Hx : d ∈ o') by (by apply Ho'). rewrite Hnil in Hx.
        by apply elem_of_nil in Hx. }
  destruct (Nat.eqb_spec (List.length o') 0) as [Hlen|Hlen].
  - apply length_zero_iff_nil in Hlen. rewrite (Hkey p Hp). simpl.
    eexists _, _. split; [done|]. split; [done|]. split.
    + apply heap_push; [done|]. rewrite Hin. intros [_ [[(_ & _ & Hd) _]|[? _]]]; [|done].
      by apply Hnd, Hd.
    + intros q n. rewrite elem_of_heappush, Hin, elem_of_app, list_elem_of_singleton. split.
      * intros [[= -> ->]|[-> [?|[? ?]]]]; split; tauto.
      * intros [-> [?|[[?| ->] ?]]]; [right; tauto|right; tauto|by left].
  - eexists _, _. split; [done|]. split; [done|]. split; [done|].
    intros q n. rewrite Hin, elem_of_app, list_elem_of_singleton. split; [tauto|].
    intros [-> [?|[[?| ->] Hr]]]; [tauto|tauto|]. apply Hready in Hr. by rewrite Hr in Hlen.
Qed.

Lemma lex_parents_ok done node l ps out heap :
  (forall n, n ∈ done -> n ∈ gnodes /\ forall d, d ∈ gdeps n -> d ∈ done) ->
  ready gnodes gdeps done node -> NoDup (ps ++ l) ->
  (forall p, p ∈ l -> p ∈ gnodes /\ node ∈ gdeps p) -> lex_inner done node ps out heap ->
  exists out' heap', rfold (lex_parent_step key node) (out, heap) l = Ok (out', heap') /\
    lex_inner done node (ps ++ l) out' heap'.
Proof.
  intros Hclosed Hready. revert ps out heap. induction l as [|p l IH]; intros ps out heap Hnd Hl Hi.
  - exists out, heap. by rewrite app_nil_r.
  - cbn [rfold]. destruct (Hl p) as [Hp Hedge]; [by left|].
    assert (Hps : p ∉ ps).
    { intros Hin. apply NoDup_app in Hnd as (_ & Hd & _). apply (Hd p Hin). by left. }
    destruct (lex_parent_ok done node ps out heap p Hclosed Hready Hp Hedge Hps Hi)
      as (out1 & heap1 & -> & Hi1). cbn [rbind].
    destruct (IH (ps ++ [p]) out1 heap1) as (out2 & heap2 & Hf & Hi2).
    + by rewrite <- app_assoc.
    + intros q Hq. apply Hl. by right.
    + done.
    + exists out2, heap2. split; [done|]. by rewrite <- app_assoc in Hi2.
Qed.

Definition reverse_ok (rg : list (K * list K)) : Prop :=
  represents (fun p x => p ∈ gnodes /\ x ∈ gdeps p) rg /\
  forall x, x ∈ gnodes -> dmem x rg = true.

(** One round of the main loop. *)
Lemma lex_round rg done out q node heap :
  reverse_ok rg -> lex_inv done out ((q, node) :: heap) ->
  exists parents out' heap', dget node rg = Some parents /\
    rfold (lex_parent_step key node) (out, heap) (set_iter parents) = Ok (out', heap') /\
    lex_inv (done ++ [node]) out' heap' /\ ready gnodes gdeps done node /\
    forall m, ready gnodes gdeps done m -> lex_le node m.
Proof.
  intros [Hrep Hdom] (Hnd & Hclosed & Hout & Hheap & Hin).
  assert (Hhead : (q, node) ∈ (q, node) :: heap) by left.
  apply Hin in Hhead as [-> Hready]. assert (Hnode : node ∈ gnodes) by apply Hready.
  pose proof (Hdom node Hnode) as Hmem. unfold dmem in Hmem.
  destruct (dget node rg) as [parents|] eqn:Hpar; [|done].
  destruct (Hrep node) as [Hpnd Hpin]. rewrite Hpar in Hpnd, Hpin. simpl in Hpnd, Hpin.
  destruct (heap_pop _ _ Hheap) as (Hheap' & Hnotin & Hmin).
  destruct (lex_parents_ok done node (set_iter parents) [] out heap) as (out' & heap' & Hf & Hi).
  - done.
  - done.
  - simpl. by rewrite set_iter_perm.
  - intros p Hp. rewrite set_iter_perm in Hp. by apply Hpin.
  - split; [|split; [done|]].
    + intros p Hp. destruct (Hout p Hp) as (o & Ho & Hox). exists o. split; [done|].
      intros x. rewrite Hox, elem_of_nil. tauto.
    + intros q n. rewrite elem_of_nil. specialize (Hin q n). rewrite elem_of_cons in Hin. split.
      * intros Hqn. destruct (proj1 Hin (or_intror Hqn)) as [-> Hr]. split; [done|]. left.
        split; [done|]. intros ->. done.
      * intros [-> [[Hr Hne]|[[] _]]]. destruct (proj2 Hin (conj eq_refl Hr)) as [[= ->]|]; done.
  - exists parents, out', heap'. split; [done|]. split; [done|]. simpl in Hi.
    destruct Hi as (Hout' & Hheap1 & Hin'). split; [|split; [done|]].
    + assert (Hdn : forall x, x ∈ done ++ [node] <-> x ∈ done \/ x = node).
      { intros x. by rewrite elem_of_app, list_elem_of_singleton. }
      split_and!; [| | |done|].
      * apply NoDup_app. split_and!; [done| |apply NoDup_singleton].
        intros x Hx ->%list_elem_of_singleton. by apply Hready.
      * intros n [Hn|Hn]%Hdn; [|subst n]; (split; [|intros d Hd; apply Hdn; left]).
        -- by apply Hclosed.
        -- by apply (Hclosed n Hn).
        -- done.
        -- by apply Hready.
      * intros p Hp. destruct (Hout' p Hp) as (o & Ho & Hox). exists o. split; [done|].
        intros x. rewrite Hox, Hdn, set_iter_perm, Hpin. naive_solver.
      * intros q n. rewrite Hin', set_iter_perm, Hpin.
        assert (Hr : ready gnodes gdeps (done ++ [node]) n <->
          (ready gnodes gdeps done n /\ n <> node) \/
          ((n ∈ gnodes /\ node ∈ gdeps n) /\ ready gnodes gdeps (done ++ [node]) n)); [|by rewrite <- Hr].
        unfold ready. setoid_rewrite Hdn. split; [|naive_solver].
        intros (Hn & Hnot & Hd). destruct (decide (node ∈ gdeps n)); [by right|left].
        split_and!; [done|tauto| |tauto]. intros d Hdd. destruct (Hd d Hdd); [done|by subst].
    + intros m Hm. pose proof (proj2 (Hin (qkey m) m) (conj eq_refl Hm)) as Hmh.
      unfold lex_le. apply elem_of_cons in Hmh as [[= -> ->]|Hmh]; [apply py_leb_refl|by apply Hmin].
Qed.

(** A ready node is one more than those that are out. *)
Lemma ready_room done n :
  NoDup done -> (forall x, x ∈ done -> x ∈ gnodes) -> ready gnodes gdeps done n ->
  (List.length done < List.length gnodes)%nat.
Proof.
  intros Hnd Hsub (Hn & Hnot & _).
  assert (Hs : (n :: done) ⊆+ gnodes).
  { apply NoDup_submseteq; [by apply NoDup_cons|].
    intros x [->|Hx]%elem_of_cons; auto. }
  apply submseteq_length in Hs. simpl in Hs. lia.
Qed.

(** The loop returns, and computes the greedy run. *)
Lemma lex_loop_ok fuel rg done out heap :
  reverse_ok rg -> lex_inv done out heap ->
  (List.length gnodes <= List.length done + fuel)%nat ->
  exists res, lex_loop key fuel rg out heap = Ok res /\ greedy_run gnodes gdeps lex_le done res.
Proof.
  intros Hrg. revert done out heap. induction fuel as [|fuel IH]; intros done out heap Hinv Hfuel.
  all: destruct heap as [|[q node] heap]; cbn [lex_loop].
  1, 3: exists []; (split; [done|]); apply greedy_stop; intros n Hn;
    destruct Hinv as (_ & _ & _ & _ & Hin); apply (elem_of_nil (qkey n, n)), Hin; by split.
  all: destruct (lex_round rg done out q node heap Hrg Hinv)
         as (parents & out' & heap' & Hpar & Hf & Hinv' & Hready & Hmin).
  - destruct Hinv as (Hnd & Hcl & _). exfalso.
    assert (List.length done < List.length gnodes)%nat; [|lia].
    apply (ready_room _ node); try done. intros x Hx. by apply Hcl.
  - rewrite Hpar, Hf. cbn [rbind].
    destruct (IH (done ++ [node]) out' heap') as (rest & -> & Hrun); [done| |].
    { rewrite length_app. simpl. lia. }
    exists (node :: rest). split; [done|]. by apply greedy_step.
Qed.

(** Kahn's algorithm computes the greedy run. *)
Lemma lex_sort_greedy :
  exists res, lexicographical_topological_sort key graph = Ok res /\
    greedy_run gnodes gdeps lex_le [] res.
Proof.
  unfold lexicographical_topological_sort.
  destruct (lex_init graph [] [] (fun _ _ => False) Hkey represents_empty)
    as (zero & rg & -> & Hzero & Hrep & Hdom). cbn [rbind].
  assert (Hz : forall q n, (q, n) ∈ zero <-> q = qkey n /\ ready gnodes gdeps [] n).
  { intros q n. rewrite Hzero. simpl. rewrite list_elem_of_omap. split.
    - intros ([m es] & Hin & Hm). simpl in Hm. destruct (Nat.eqb_spec (List.length es) 0) as [Hl|];
        [|done]. injection Hm as <- ->. apply length_zero_iff_nil in Hl. subst es.
      split; [done|]. split_and!.
      + apply list_elem_of_fmap. by exists (n, []).
      + by intros ?%elem_of_nil.
      + by rewrite (gdeps_in n []).
    - intros [-> (Hn & _ & Hd)]. exists (n, gdeps n). split.
      + by apply dget_in, gnodes_get.
      + simpl. destruct (gdeps n) as [|d ds]; [done|]. exfalso.
        apply (elem_of_nil d), Hd. by left. }
  apply lex_loop_ok with (done := []).
  - split.
    + eapply represents_ext; [|exact Hrep]. intros p x. split.
      * intros [[]|(es & Hin & Hx)]. split; [apply list_elem_of_fmap; by exists (p, es)|].
        by rewrite (gdeps_in p es).
      * intros [Hp Hx]. right. exists (gdeps p). split; [|done]. by apply dget_in, gnodes_get.
    + intros x Hx. apply Hdom. by right.
  - split_and!; [constructor|by intros ? ?%elem_of_nil| | |].
    + intros p Hp. exists (gdeps p). split; [by apply gnodes_get|].
      intros x. rewrite elem_of_nil. tauto.
    + apply heap_heapify. rewrite Hzero. simpl. clear -Hgraph. revert Hgraph. unfold dict_wf.
      induction graph as [|[n es] g IH]; simpl; [constructor|].
      intros [Hn Hnd]%NoDup_cons. destruct (_ =? _)%nat; [|by apply IH].
      apply NoDup_cons. split; [|by apply IH].
      intros ([m es'] & Hin & Hm)%list_elem_of_omap. destruct (_ =? _)%nat; [|done].
      injection Hm as _ ->. apply Hn, list_elem_of_fmap. by exists (n, es').
    + intros q n. unfold heapify. rewrite (sorted_by_perm id zero). apply Hz.
  - unfold gnodes. simpl. by rewrite length_map.
Qed.
End lexicographical.

(** C5: the lexicographic topological sort returns on every graph; on an acyclic graph whose
    edges lead to nodes, the result is a permutation of the nodes in which every node comes
    after all it references. *)
Theorem lexicographical_sort_correct {K Q} `{EqDecision K, PyOrd K, PyOrd Q, SetOrder}
    (key : K -> result Q) (qkey : K -> Q) (graph : list (K * list K)) (rank : K -> nat) :
  dict_wf graph -> (forall n, n ∈ map fst graph -> key n = Ok (qkey n)) ->
  (forall n es d, (n, es) ∈ graph -> d ∈ es -> d ∈ map fst graph /\ (rank d < rank n)%nat) ->
  exists res, lexicographical_topological_sort key graph = Ok res /\
    res ≡ₚ map fst graph /\
    forall l1 n l2 es d, res = l1 ++ n :: l2 -> (n, es) ∈ graph -> d ∈ es -> d ∈ l1.
Proof.
  intros Hwf Hkey Hrank.
  destruct (lex_sort_greedy key qkey graph Hwf Hkey) as (res & Hres & Hrun).
  exists res. split; [done|].
  assert (Hdeps : forall n d, n ∈ gnodes graph -> d ∈ gdeps graph n ->
            d ∈ gnodes graph /\ (rank d < rank n)%nat).
  { intros n d Hn Hd. apply (Hrank n (gdeps graph n) d); [|done].
    apply dget_in, gnodes_get, Hn. }
  split.
  - apply NoDup_Permutation; [by apply (greedy_nodup _ _ _ [] res Hrun), NoDup_nil_2|done|].
    intros n. split; [intros Hn; exact (greedy_nodes _ _ _ [] res n Hrun Hn)|].
    apply (greedy_complete _ _ _ rank [] res Hdeps Hrun).
  - intros l1 n l2 es d Heq Hin Hd. rewrite <- (gdeps_in graph Hwf n es Hin) in Hd.
    by apply (greedy_order _ _ _ [] res l1 n l2 d Hrun Heq).
Qed.

(** The result of the lexicographic sort depends neither on the order of the graph's
    dictionary nor on the iteration order of its sets. *)
Theorem lexicographical_sort_deterministic {K Q} `{EqDecision K, PyOrd K, PyOrd Q}
    (o1 o2 : SetOrder) (key : K -> result Q) (qkey : K -> Q) (g1 g2 : list (K * list K)) :
  dict_wf g1 -> dict_wf g2 -> (forall n, n ∈ map fst g1 -> key n = Ok (qkey n)) ->
  (forall n, n ∈ map fst g1 <-> n ∈ map fst g2) ->
  (forall n es1 es2, (n, es1) ∈ g1 -> (n, es2) ∈ g2 -> forall x, x ∈ es1 <-> x ∈ es2) ->
  @lexicographical_topological_sort K Q _ _ _ o1 key g1 =
  @lexicographical_topological_sort K Q _ _ _ o2 key g2.
Proof.
  intros Hwf1 Hwf2 Hkey Hnodes Hedges.
  destruct (@lex_sort_greedy K Q _ _ _ o1 key qkey g1 Hwf1 Hkey) as (r1 & -> & Hr1).
  destruct (@lex_sort_greedy K Q _ _ _ o2 key qkey g2 Hwf2) as (r2 & -> & Hr2).
  { intros n Hn. by apply Hkey, Hnodes. }
  f_equal. apply (greedy_unique (gnodes g1) (gdeps g1) (lex_le qkey) []); [|done|].
  - apply lex_le_antisym.
  - eapply greedy_run_ext; [| |exact Hr2]; [intros x; symmetry; apply Hnodes|].
    intros n d. destruct (decide (n ∈ gnodes g1)) as [Hn|Hn].
    + assert (Hn2 : n ∈ gnodes g2) by (by apply Hnodes).
      symmetry. apply (Hedges n); apply dget_in; by apply gnodes_get.
    + assert (Hn2 : n ∉ gnodes g2) by (by rewrite <- Hnodes).
      unfold gdeps. apply dget_none in Hn, Hn2. by rewrite Hn, Hn2.
Qed.

(** ** Witnesses *)

(** A small auth graph: [2] and [3] reference [1], [4] references both. *)
Definition sample_graph : list (Z * list Z) := [(4, [2; 3]); (3, [1]); (2, [1]); (1, [])].
Definition sample_graph' : list (Z * list Z) := [(1, []); (2, [1]); (3, [1]); (4, [3; 2])].
Definition sample_key (n : Z) : result Z := Ok (- n).

#[refine] Definition reversed_order : SetOrder := {| set_iter := fun A l => rev l |}.
Proof. intros A l. symmetry. apply Permutation_rev. Defined.

Lemma lexicographical_sort_correct_witness :
  lexicographical_topological_sort sample_key sample_graph = Ok [1; 3; 2; 4] /\
  exists res, lexicographical_topological_sort sample_key sample_graph = Ok res /\
    res ≡ₚ [4; 3; 2; 1] /\
    forall l1 n l2 es d, res = l1 ++ n :: l2 -> (n, es) ∈ sample_graph -> d ∈ es -> d ∈ l1.
Proof.
  split; [reflexivity|].
  apply (lexicographical_sort_correct sample_key Z.opp sample_graph Z.to_nat).
  - apply (bool_decide_unpack _). vm_compute. exact I.
  - reflexivity.
  - intros n es d Hin Hd. unfold sample_graph in Hin. rewrite !elem_of_cons, elem_of_nil in Hin.
    destruct Hin as [[= -> ->]|[[= -> ->]|[[= -> ->]|[[= -> ->]|[]]]]];
      rewrite ?elem_of_cons, elem_of_nil in Hd;
      (destruct Hd as [->|[->|[]]] || destruct Hd as [->|[]] || destruct Hd as []);
      (split; [apply (bool_decide_unpack _); vm_compute; exact I | lia]).
Defined.

Lemma lexicographical_sort_deterministic_witness :
  @lexicographical_topological_sort Z Z _ _ _ sample_order sample_key sample_graph =
  @lexicographical_topological_sort Z Z _ _ _ reversed_order sample_key sample_graph'.
Proof.
  apply (lexicographical_sort_deterministic sample_order reversed_order sample_key Z.opp).
  - apply (bool_decide_unpack _). vm_compute. exact I.
  - apply (bool_decide_unpack _). vm_compute. exact I.
  - reflexivity.
  - intros n. simpl. rewrite !elem_of_cons, !elem_of_nil. tauto.
  - intros n es1 es2 H1 H2. unfold sample_graph in H1. unfold sample_graph' in H2.
    rewrite !elem_of_cons, elem_of_nil in H1, H2. intros x.
    destruct H1 as [[= -> ->]|[[= -> ->]|[[= -> ->]|[[= -> ->]|[]]]]];
      destruct H2 as [[= ->]|[[= ->]|[[= ->]|[[= ->]|[]]]]]; rewrite ?elem_of_cons; tauto.
Defined.
