(* ===== verification/StateV2.v ===== *)
(** * StateV2: state resolution, versions 2 and 2.1 (state/v2.py)

    The functions follow the source one by one.  [event_map], the dictionary of events at
    hand, is threaded explicitly: [_get_event] extends it with what the store returns.
    [StateResolutionStore] is the source's protocol class of the same name.  Python sets are
    duplicate-free lists iterated in [SetOrder]; [while] loops take fuel; the pauses that
    yield to the reactor are left out. *)
From S2P Require Import Prelude PyVal PySort RoomVersionTable Identifiers Events EventAuthLevels.
From S2P Require Import SetkaChannels EventAuthPower EventAuthMembership EventAuth StateV1 TopoSort.
Open Scope string_scope.
Open Scope list_scope.
Open Scope Z_scope.
Open Scope py_scope.

(** ** Sets of event IDs *)

Definition set_union (a b : list string) : list string := fold_left (fun s x => set_add x s) b a.
Definition set_inter (a b : list string) : list string := filter (fun x => x ∈ b) a.
Definition set_diff (a b : list string) : list string := filter (fun x => x ∉ b) a.

(** ** The store *)

Record StateDifference := {
  auth_difference : list string;
  conflicted_subgraph : option (list string)
}.

Abbreviation EventMap := (list (string * event)).

Class StateResolutionStore := {
  get_events : list string -> EventMap;
  get_auth_chain_difference :
    string -> list (list string) -> option (list string) -> list string -> StateDifference
}.

(** ** [_seperate] *)

Module V2.

Definition separate_key (state_sets : list (StateMap string))
    (st : StateMap string * StateMap (list string)) (key : StateKey)
    : StateMap string * StateMap (list string) :=
  let (unconflicted_state, conflicted_state) := st in
  match remove_dups (map (dget key) state_sets) with
  | [Some event_id] => (dset key event_id unconflicted_state, conflicted_state)
  | event_ids => (unconflicted_state, dset key (omap id event_ids) conflicted_state)
  end.

Definition _seperate `{SetOrder} (state_sets : list (StateMap string))
    : StateMap string * StateMap (list string) :=
  fold_left (separate_key state_sets) (iter_set (concat (map dkeys state_sets))) ([], []).

(** ** [_is_power_event] *)

Definition _is_power_event (e : event) : result bool :=
  let* k := event_key e in
  if bool_decide (k ∈ [POWER_KEY; (EventTypes.JoinRules, ""); CREATE_KEY]) then Ok true
  else if bool_decide (type e = EventTypes.Member) then
    let* ms := membership e in
    if jeqs ms Membership.LEAVE || jeqs ms Membership.BAN then
      let* sk := state_key e in
      Ok (negb (bool_decide (sender e = sk)))
    else Ok false
  else Ok false.

Section resolution.
Context `{Netaddr, PyRepr, SetOrder, SignedJson, StateResolutionStore}.

(** ** [_get_event] *)

(** With [allow_none=True]. *)
Definition get_event_opt (room_id_ : string) (event_id_ : string) (event_map : EventMap)
    : result (option event * EventMap) :=
  let event_map :=
    if dmem event_id_ event_map then event_map
    else dupdate event_map (get_events [event_id_]) in
  match dget event_id_ event_map with
  | None => Ok (None, event_map)
  | Some e =>
      let* r := room_id e in
      if negb (bool_decide (r = room_id_)) then
        Err (PyException "In state res for room %s, event %s is in %s")
      else Ok (Some e, event_map)
  end.

Definition _get_event (room_id_ : string) (event_id_ : string) (event_map : EventMap)
    : result (event * EventMap) :=
  let* (o, event_map) := get_event_opt room_id_ event_id_ event_map in
  match o with
  | None => Err (PyException "Unknown event %s")
  | Some e => Ok (e, event_map)
  end.

(** ** [_get_power_level_for_sender] *)

(** The first loop: the power-levels and the create event among the auth events. *)
Definition find_pl_create (room : string)
    (st : option event * option event * EventMap) (aid : string)
    : result (option event * option event * EventMap) :=
  let '(pl, create, event_map) := st in
  let* (aev, event_map) := get_event_opt room aid event_map in
  match aev with
  | None => Ok (pl, create, event_map)
  | Some aev =>
      let* k := event_key aev in
      Ok (if bool_decide (k = POWER_KEY) then Some aev else pl,
          if bool_decide (k = CREATE_KEY) then Some aev else create, event_map)
  end.

(** The second loop, which stops at the first create event. *)
Fixpoint creator_level (room : string) (e : event) (aids : list string) (event_map : EventMap)
    : result (Z * EventMap) :=
  match aids with
  | [] => Ok (0, event_map)
  | aid :: aids =>
      let* (aev, event_map) := get_event_opt room aid event_map in
      match aev with
      | None => creator_level room e aids event_map
      | Some aev =>
          let* k := event_key aev in
          if bool_decide (k = CREATE_KEY) then
            let creator :=
              if implicit_room_creator (room_version e) then JStr (sender aev)
              else oget (content aev) "creator" JNull in
            Ok (if jeqs creator (sender e) then 100 else 0, event_map)
          else creator_level room e aids event_map
      end
  end.

Definition level_from_pl (pl : event) (user : string) : result Z :=
  let* level := jget (oget (content pl) "users" (JObj [])) user JNull in
  let level := if is_none level then oget (content pl) "users_default" (JInt 0) else level in
  if is_none level then Ok 0 else py_int level.

Definition _get_power_level_for_sender (room : string) (event_id_ : string) (event_map : EventMap)
    : result (Z * EventMap) :=
  let* (e, event_map) := _get_event room event_id_ event_map in
  let* aids := auth_event_ids e in
  let* (pl, create, event_map) := rfold (find_pl_create room) (None, None, event_map) aids in
  (if negb (bool_decide (type e = EventTypes.Create)) && negb (is_Some_b create)
   then Err AssertionError else Ok tt) ;;;
  let* is_creator_ :=
    match create with
    | Some c =>
        if msc4289_creator_power_enabled (room_version c) then is_creator c (sender e) else Ok false
    | None => Ok false
    end in
  if is_creator_ then Ok (CREATOR_POWER_LEVEL, event_map)
  else match pl with
  | None => creator_level room e aids event_map
  | Some pl => let* n := level_from_pl pl (sender e) in Ok (n, event_map)
  end.

(** ** [_get_auth_chain_difference] *)

(** One auth event of the event just popped: it joins the chain, gets a forward link, and is
    pushed when it is unpersisted itself. *)
Definition chain_step (unpersisted_events : EventMap) (next_event_id : string)
    (st : list string * list (string * list string) * list event) (auth_id : string)
    : list string * list (string * list string) * list event :=
  let '(chain, next_events, to_search) := st in
  (set_add auth_id chain, setdefault_add auth_id next_event_id next_events,
   match dget auth_id unpersisted_events with
   | Some auth_event => auth_event :: to_search
   | None => to_search
   end).

(** The search from one unpersisted event: its chain, and the forward links.  The stack's
    top is the head of the list. *)
Fixpoint chain_search (fuel : nat) (unpersisted_events : EventMap) (to_search : list event)
    (chain : list string) (next_events : list (string * list string))
    : result (list string * list (string * list string)) :=
  match to_search with
  | [] => Ok (chain, next_events)
  | next_event :: to_search =>
      match fuel with
      | O => Err OutOfFuel
      | S fuel =>
          let* aids := auth_event_ids next_event in
          let '(chain, next_events, to_search) :=
            fold_left (chain_step unpersisted_events (event_id next_event)) aids
              (chain, next_events, to_search) in
          chain_search fuel unpersisted_events to_search chain next_events
      end
  end.

(** [events_to_auth_chain] and [event_to_next_event]. *)
Definition auth_chains (fuel : nat) (unpersisted_events : EventMap)
    : result (list (string * list string) * list (string * list string)) :=
  rfold (fun '(chains, next_events) e =>
    let* (chain, next_events) :=
      chain_search fuel unpersisted_events [e] [event_id e] next_events in
    Ok (dset (event_id e) chain chains, next_events)) ([], []) (dvals unpersisted_events).

(** One state set: the persisted IDs to ask the store about, and the unpersisted IDs its
    events reach. *)
Definition split_state_set (unpersisted_events : EventMap) (chains : list (string * list string))
    (state_set : StateMap string) : list string * list string :=
  fold_left (fun '(set_ids, unpersisted_ids) event_id_ =>
    match dget event_id_ chains with
    | Some event_chain =>
        (set_union set_ids (filter (fun e => dmem e unpersisted_events = false) event_chain),
         set_union unpersisted_ids (filter (fun e => dmem e unpersisted_events = true) event_chain))
    | None => (set_add event_id_ set_ids, unpersisted_ids)
    end) (dvals state_set) ([], []).

(** [sets\[0\].union( *sets\[1:\])] minus [sets\[0\].intersection( *sets\[1:\])] *)
Definition union_minus_intersection (sets : list (list string)) : result (list string) :=
  match sets with
  | [] => Err IndexError
  | s :: sets => Ok (set_diff (fold_left set_union sets s) (fold_left set_inter sets s))
  end.

(** The conflicted events that are unpersisted, and the persisted events they reach. *)
Definition unpersisted_conflicts (unpersisted_events : EventMap)
    (chains : list (string * list string)) (conflicted_state : list string)
    : list string * list string :=
  fold_left (fun '(conflicted, additional) event_id_ =>
    match dget event_id_ chains with
    | Some event_chain =>
        (set_add event_id_ conflicted,
         set_union additional (filter (fun e => dmem e unpersisted_events = false) event_chain))
    | None => (conflicted, additional)
    end) (set_iter conflicted_state) ([], []).

(** The forward search of the conflicted subgraph; a set's [pop] takes the first element in
    iteration order. *)
Fixpoint forward_search (fuel : nat) (next_events : list (string * list string))
    (search_queue forwards : list string) : result (list string) :=
  match set_iter search_queue with
  | [] => Ok forwards
  | frontier_event :: rest =>
      match fuel with
      | O => Err OutOfFuel
      | S fuel =>
          forward_search fuel next_events
            (set_union rest (default [] (dget frontier_event next_events)))
            (set_add frontier_event forwards)
      end
  end.

(** The conflicted subgraph of version 2.1, extended to unpersisted events. *)
Definition extend_subgraph (fuel : nat) (chains next_events : list (string * list string))
    (conflicted_state : option (list string)) (additional unpersisted_conflicted : list string)
    (subgraph : list string) : result (list string) :=
  let subgraph := set_union subgraph (default [] conflicted_state) in
  let frontier := set_inter subgraph additional in
  let* forwards := forward_search fuel next_events (set_union frontier unpersisted_conflicted) [] in
  let backwards :=
    fold_left (fun s uce => set_union s (default [] (dget uce chains)))
      (set_iter unpersisted_conflicted) [] in
  Ok (set_union subgraph (set_inter backwards forwards)).

Definition is_nonempty {A} (l : list A) : bool := match l with [] => false | _ => true end.

Definition _get_auth_chain_difference (fuel : nat) (room : string)
    (state_sets : list (StateMap string)) (unpersisted_events : EventMap)
    (conflicted_state : option (list string)) : result (list string) :=
  let is_state_res_v21 := is_Some_b conflicted_state in
  let* (chains, next_events) := auth_chains fuel unpersisted_events in
  let* (state_sets_ids, unpersisted_part, unpersisted_conflicted, additional) :=
    if is_nonempty unpersisted_events then
      let split := map (split_state_set unpersisted_events chains) state_sets in
      let (unpersisted_conflicted, additional) :=
        unpersisted_conflicts unpersisted_events chains (default [] conflicted_state) in
      let* part := union_minus_intersection (map snd split) in
      Ok (map fst split, part, unpersisted_conflicted, additional)
    else Ok (map (fun s => remove_dups (dvals s)) state_sets, [], [], []) in
  let conflicted_state :=
    match conflicted_state with
    | Some ((_ :: _) as c) => Some (set_diff c unpersisted_conflicted)
    | c => c
    end in
  let difference := get_auth_chain_difference room state_sets_ids conflicted_state additional in
  let auth_diff := set_union (auth_difference difference) unpersisted_part in
  let* subgraph :=
    match conflicted_subgraph difference with
    | Some subgraph =>
        if is_state_res_v21 && is_nonempty unpersisted_events then
          let* s := extend_subgraph fuel chains next_events conflicted_state additional
                      unpersisted_conflicted subgraph in
          Ok (Some s)
        else Ok (Some subgraph)
    | None => Ok None
    end in
  Ok (match subgraph with
      | Some ((_ :: _) as s) => set_union auth_diff s
      | _ => auth_diff
      end).

(** ** [_add_event_and_auth_chain_to_graph] *)

(** The inner loop's body: an auth event in the conflicted set is an edge, and is pushed
    when it is not yet in the graph. *)
Definition graph_edge_step (full_conflicted_set : list string) (eid : string)
    (st : list (string * list string) * list string) (aid : string)
    : list (string * list string) * list string :=
  let (graph, state) := st in
  if bool_decide (aid ∈ full_conflicted_set) then
    (setdefault_add eid aid graph, if dmem aid graph then state else aid :: state)
  else (graph, state).

(** The loop; the stack's top is the head of the list. *)
Fixpoint graph_loop (fuel : nat) (room : string) (full_conflicted_set : list string)
    (state : list string) (graph : list (string * list string)) (event_map : EventMap)
    : result (list (string * list string) * EventMap) :=
  match state with
  | [] => Ok (graph, event_map)
  | eid :: state =>
      match fuel with
      | O => Err OutOfFuel
      | S fuel =>
          let graph := setdefault_set eid graph in
          let* (e, event_map) := _get_event room eid event_map in
          let* aids := auth_event_ids e in
          let (graph, state) :=
            fold_left (graph_edge_step full_conflicted_set eid) aids (graph, state) in
          graph_loop fuel room full_conflicted_set state graph event_map
      end
  end.

(** ** [_reverse_topological_power_sort] *)

(** The tuple [(-pl, origin_server_ts, event_id)]. *)
Definition power_order (event_map : EventMap) (event_to_pl : list (string * Z)) (event_id_ : string)
    : result (Z * (Z * string)) :=
  match dget event_id_ event_map with
  | None => Err KeyError
  | Some ev =>
      match dget event_id_ event_to_pl with
      | None => Err KeyError
      | Some pl => Ok (- pl, (origin_server_ts ev, event_id_))
      end
  end.

Definition power_levels_of (room : string) (ids : list string) (event_map : EventMap)
    : result (list (string * Z) * EventMap) :=
  rfold (fun '(pls, event_map) event_id_ =>
    let* (pl, event_map) := _get_power_level_for_sender room event_id_ event_map in
    Ok (dset event_id_ pl pls, event_map)) ([], event_map) ids.

(** The graph of the power events among the candidates: the source filters them lazily, as
    the loop that adds them to the graph asks for them. *)
Definition power_graph_step (fuel : nat) (room : string) (full_conflicted_set : list string)
    (st : list (string * list string) * EventMap) (eid : string)
    : result (list (string * list string) * EventMap) :=
  let (graph, event_map) := st in
  match dget eid event_map with
  | None => Err KeyError
  | Some e =>
      let* power := _is_power_event e in
      if power then graph_loop fuel room full_conflicted_set [eid] graph event_map
      else Ok (graph, event_map)
  end.

Definition power_graph (fuel : nat) (room : string) (full_conflicted_set candidates : list string)
    (event_map : EventMap) : result (list (string * list string) * EventMap) :=
  rfold (power_graph_step fuel room full_conflicted_set) ([], event_map) candidates.

Definition _reverse_topological_power_sort (fuel : nat) (room : string)
    (full_conflicted_set : list string) (event_map : EventMap)
    : result (list string * EventMap) :=
  let* (graph, event_map) :=
    power_graph fuel room full_conflicted_set (set_iter full_conflicted_set) event_map in
  let* (event_to_pl, event_map) := power_levels_of room (dkeys graph) event_map in
  let* sorted := lexicographical_topological_sort (power_order event_map event_to_pl) graph in
  Ok (sorted, event_map).

(** ** [_iterative_auth_checks] *)

(** The event's own auth events, without the rejected ones. *)
Definition own_auth_events (room : string) (st : StateMap event * EventMap) (aid : string)
    : result (StateMap event * EventMap) :=
  let (auth_events, event_map) := st in
  let* (ev, event_map) := get_event_opt room aid event_map in
  match ev with
  | None => Ok (auth_events, event_map)
  | Some ev =>
      match rejected_reason ev with
      | Some _ => Ok (auth_events, event_map)
      | None => let* k := event_key ev in Ok (dset k ev auth_events, event_map)
      end
  end.

(** ... overridden by the resolved state under the selected keys. *)
Definition state_auth_events (room : string) (resolved_state : StateMap string)
    (st : StateMap event * EventMap) (key : StateKey) : result (StateMap event * EventMap) :=
  let (auth_events, event_map) := st in
  match dget key resolved_state with
  | None => Ok (auth_events, event_map)
  | Some ev_id =>
      let* (ev, event_map) := _get_event room ev_id event_map in
      match rejected_reason ev with
      | Some _ => Ok (auth_events, event_map)
      | None =>
          match dget ev_id event_map with
          | Some ev => Ok (dset key ev auth_events, event_map)
          | None => Err KeyError
          end
      end
  end.

(** The loop body. *)
Definition iterative_step (room : string) (room_version_ : RoomVersion)
    (st : StateMap string * EventMap) (event_id_ : string)
    : result (StateMap string * EventMap) :=
  let (resolved_state, event_map) := st in
  match dget event_id_ event_map with
  | None => Err KeyError
  | Some e =>
      let* aids := auth_event_ids e in
      let* (auth_events, event_map) := rfold (own_auth_events room) ([], event_map) aids in
      let* keys := auth_types_for_event room_version_ e in
      let* (auth_events, event_map) :=
        rfold (state_auth_events room resolved_state) (auth_events, event_map) (iter_set keys) in
      match rejected_reason e with
      | Some _ => Ok (resolved_state, event_map)
      | None =>
          match check_state_dependent_auth_rules e (dvals auth_events) with
          | Ok _ =>
              let* k := event_key e in
              Ok (dset k event_id_ resolved_state, event_map)
          | Err err => if is_auth_error err then Ok (resolved_state, event_map) else Err err
          end
      end
  end.

Definition _iterative_auth_checks (room : string) (room_version_ : RoomVersion)
    (event_ids : list string) (base_state : StateMap string) (event_map : EventMap)
    : result (StateMap string * EventMap) :=
  rfold (iterative_step room room_version_) (base_state, event_map) event_ids.

(** ** [_mainline_sort] *)

(** The first power-levels event among the auth events. *)
Fixpoint first_power_event (room : string) (aids : list string) (event_map : EventMap)
    : result (option (string * event) * EventMap) :=
  match aids with
  | [] => Ok (None, event_map)
  | aid :: aids =>
      let* (ev, event_map) := get_event_opt room aid event_map in
      match ev with
      | None => first_power_event room aids event_map
      | Some ev =>
          let* k := event_key ev in
          if bool_decide (k = POWER_KEY) then Ok (Some (aid, ev), event_map)
          else first_power_event room aids event_map
      end
  end.

(** The mainline: the power-levels event, the one among its auth events, and so on. *)
Fixpoint mainline_loop (fuel : nat) (room : string) (pl : option string) (event_map : EventMap)
    : result (list string * EventMap) :=
  match pl with
  | None => Ok ([], event_map)
  | Some pl =>
      if String.eqb pl "" then Ok ([], event_map)
      else match fuel with
      | O => Err OutOfFuel
      | S fuel =>
          let* (pl_ev, event_map) := _get_event room pl event_map in
          let* aids := auth_event_ids pl_ev in
          let* (next, event_map) := first_power_event room aids event_map in
          let* (rest, event_map) := mainline_loop fuel room (fst <$> next) event_map in
          Ok (pl :: rest, event_map)
      end
  end.

(** [{ev_id: i + 1 for i, ev_id in enumerate(reversed(mainline))}] *)
Definition mainline_positions (mainline : list string) : list (string * Z) :=
  fold_left (fun d p => dset p.2 (Z.of_nat p.1 + 1) d)
    (combine (seq 0 (List.length mainline)) (rev mainline)) [].

Fixpoint mainline_depth_loop (fuel : nat) (room : string) (mainline_map : list (string * Z))
    (tmp_event : option event) (event_map : EventMap) : result (Z * EventMap) :=
  match tmp_event with
  | None => Ok (0, event_map)
  | Some e =>
      match dget (event_id e) mainline_map with
      | Some depth => Ok (depth, event_map)
      | None =>
          match fuel with
          | O => Err OutOfFuel
          | S fuel =>
              let* aids := auth_event_ids e in
              let* (next, event_map) := first_power_event room aids event_map in
              mainline_depth_loop fuel room mainline_map (snd <$> next) event_map
          end
      end
  end.

Definition _get_mainline_depth_for_event (fuel : nat) (e : event) (mainline_map : list (string * Z))
    (event_map : EventMap) : result (Z * EventMap) :=
  let* room := room_id e in
  mainline_depth_loop fuel room mainline_map (Some e) event_map.

(** The sort key [(depth, origin_server_ts, event_id)] of every event. *)
Definition order_map_step (fuel : nat) (mainline_map : list (string * Z))
    (st : list (string * (Z * (Z * string))) * EventMap) (ev_id : string)
    : result (list (string * (Z * (Z * string))) * EventMap) :=
  let (order_map, event_map) := st in
  match dget ev_id event_map with
  | None => Err KeyError
  | Some e =>
      let* (depth, event_map) := _get_mainline_depth_for_event fuel e mainline_map event_map in
      match dget ev_id event_map with
      | None => Err KeyError
      | Some e => Ok (dset ev_id (depth, (origin_server_ts e, ev_id)) order_map, event_map)
      end
  end.

Definition order_key (order_map : list (string * (Z * (Z * string)))) (ev_id : string)
    : Z * (Z * string) :=
  default (0, (0, "")) (dget ev_id order_map).

Definition _mainline_sort (fuel : nat) (room : string) (event_ids : list string)
    (resolved_power_event_id : option string) (event_map : EventMap)
    : result (list string * EventMap) :=
  match event_ids with
  | [] => Ok ([], event_map)
  | _ =>
      let* (mainline, event_map) := mainline_loop fuel room resolved_power_event_id event_map in
      let mainline_map := mainline_positions mainline in
      let* (order_map, event_map) :=
        rfold (order_map_step fuel mainline_map) ([], event_map) event_ids in
      Ok (sorted_by (order_key order_map) event_ids, event_map)
  end.

(** ** [resolve_events_with_store] *)

Definition resolve_conflicts (fuel : nat) (room : string) (room_version_ : RoomVersion)
    (state_sets : list (StateMap string)) (unconflicted_state : StateMap string)
    (conflicted_state : StateMap (list string)) (event_map : EventMap)
    : result (StateMap string * EventMap) :=
  let v2_1 := state_res room_version_ =? StateResolutionVersions.V2_1 in
  let conflicted_ids := remove_dups (concat (dvals conflicted_state)) in
  let* auth_diff :=
    _get_auth_chain_difference fuel room state_sets event_map
      (if v2_1 then Some conflicted_ids else None) in
  let full_conflicted_set := set_union conflicted_ids auth_diff in
  let event_map :=
    dupdate event_map
      (get_events (filter (fun eid => dmem eid event_map = false) (set_iter full_conflicted_set))) in
  check_room room event_map ;;;
  let full_conflicted_set := filter (fun eid => dmem eid event_map = true) full_conflicted_set in
  let* (sorted_power_events, event_map) :=
    _reverse_topological_power_sort fuel room full_conflicted_set event_map in
  let base_state := if v2_1 then [] else unconflicted_state in
  let* (resolved_state, event_map) :=
    _iterative_auth_checks room room_version_ sorted_power_events base_state event_map in
  let leftover_events :=
    filter (fun ev_id => ev_id ∉ sorted_power_events) (set_iter full_conflicted_set) in
  let pl := dget POWER_KEY resolved_state in
  let* (leftover_events, event_map) := _mainline_sort fuel room leftover_events pl event_map in
  let* (resolved_state, event_map) :=
    _iterative_auth_checks room room_version_ leftover_events resolved_state event_map in
  Ok (dupdate resolved_state unconflicted_state, event_map).

(** The result, and the event map as the caller finds it afterwards. *)
Definition resolve_events_with_store (fuel : nat) (room : string) (room_version_ : RoomVersion)
    (state_sets : list (StateMap string)) (event_map : option EventMap)
    : result (StateMap string * EventMap) :=
  let event_map := default [] event_map in
  let (unconflicted_state, conflicted_state) := _seperate state_sets in
  match conflicted_state with
  | [] => Ok (unconflicted_state, event_map)
  | _ => resolve_conflicts fuel room room_version_ state_sets unconflicted_state conflicted_state event_map
  end.
End resolution.
End V2.
