(* ===== verification/StateV2Safety.v ===== *)
(** * StateV2Safety: what version 2 state resolution guarantees

    The partition, the growth of the event map, the iterative auth checks, and the promises
    of the whole resolution. *)
From S2P Require Import Prelude PyVal PySort RoomVersionTable Identifiers Events EventAuthLevels.
From S2P Require Import SetkaChannels EventAuthPower EventAuthMembership EventAuth Samples.
From S2P Require Import StateV1 StateV1Safety TopoSort StateV2.
Open Scope string_scope.
Open Scope list_scope.
Open Scope Z_scope.
Open Scope py_scope.

(** ** The partition *)

Lemma elem_of_set_union x a b : x ∈ set_union a b <-> x ∈ a \/ x ∈ b.
Proof.
  unfold set_union. revert a. induction b as [|y b IH]; intros a; simpl.
  - rewrite elem_of_nil. tauto.
  - rewrite IH, elem_of_set_add, elem_of_cons. tauto.
Qed.

(** What version 2 makes of a key: unconflicted when every state has the same value. *)
Definition status2 (sets : list (StateMap string)) (k : StateKey) (u : option string)
    (c : option (list string)) : Prop :=
  match u, c with
  | Some v, None => sets <> [] /\ forall s, s ∈ sets -> dget k s = Some v
  | None, Some ls =>
      (exists s s', s ∈ sets /\ s' ∈ sets /\ dget k s <> dget k s') /\
      forall x, x ∈ ls <-> exists s, s ∈ sets /\ dget k s = Some x
  | _, _ => False
  end.

Lemma separate_key_status sets k :
  (exists s, s ∈ sets /\ dmem k s = true) ->
  match remove_dups (map (dget k) sets) with
  | [Some v] => status2 sets k (Some v) None
  | ids => status2 sets k None (Some (omap id ids))
  end.
Proof.
  intros (s0 & Hs0 & Hk0).
  assert (Hin : forall o, o ∈ remove_dups (map (dget k) sets) <-> exists s, s ∈ sets /\ o = dget k s).
  { intros o. rewrite elem_of_remove_dups, list_elem_of_fmap. naive_solver. }
  pose proof (NoDup_remove_dups (map (dget k) sets)) as Hnd.
  assert (Homap : forall x, x ∈ omap id (remove_dups (map (dget k) sets)) <->
            exists s, s ∈ sets /\ dget k s = Some x).
  { intros x. rewrite list_elem_of_omap. split.
    - intros (o & Ho & Hx). simpl in Hx. apply Hin in Ho as (s & ? & ->). eauto.
    - intros (s & Hs & Hx). exists (Some x). split; [|done]. apply Hin. eauto. }
  destruct (remove_dups (map (dget k) sets)) as [|[v|] [|o ids]] eqn:Hids.
  - exfalso. apply (elem_of_nil (dget k s0)), Hin. eauto.
  - split; [by intros ->; apply elem_of_nil in Hs0|]. intros s Hs.
    assert (Hd : dget k s ∈ [Some v]) by (apply Hin; eauto).
    by apply list_elem_of_singleton in Hd.
  - split; [|done]. destruct (proj1 (Hin (Some v))) as (s & Hs & Hv); [by left|].
    destruct (proj1 (Hin o)) as (s' & Hs' & Ho); [by right; left|].
    exists s, s'. split_and!; [done..|]. rewrite <- Hv, <- Ho. intros <-.
    apply NoDup_cons in Hnd as [Hn _]. apply Hn. by left.
  - exfalso. assert (Hd : dget k s0 ∈ [None]) by (apply Hin; eauto).
    apply list_elem_of_singleton in Hd. unfold dmem in Hk0. by rewrite Hd in Hk0.
  - split; [|done]. destruct (proj1 (Hin None)) as (s & Hs & Hv); [by left|].
    destruct (proj1 (Hin o)) as (s' & Hs' & Ho); [by right; left|].
    exists s, s'. split_and!; [done..|]. rewrite <- Hv, <- Ho. intros <-.
    apply NoDup_cons in Hnd as [Hn _]. apply Hn. by left.
Qed.

Lemma separate_keys_ok sets keys st :
  (forall k, k ∈ keys -> exists s, s ∈ sets /\ dmem k s = true) -> NoDup keys ->
  dict_wf st.1 -> dict_wf st.2 ->
  (forall k, k ∈ keys -> dget k st.1 = None /\ dget k st.2 = None) ->
  let st' := fold_left (V2.separate_key sets) keys st in
  dict_wf st'.1 /\ dict_wf st'.2 /\
  (forall k, k ∈ keys -> status2 sets k (dget k st'.1) (dget k st'.2)) /\
  forall k, (k ∉ keys) -> dget k st'.1 = dget k st.1 /\ dget k st'.2 = dget k st.2.
Proof.
  revert st. induction keys as [|k keys IH]; intros st Hk Hnd Hu Hc Hnone; cbn [fold_left].
  - split_and!; try done. by intros k ?%elem_of_nil.
  - apply NoDup_cons in Hnd as [Hkn Hnd].
    pose proof (separate_key_status sets k (Hk k (list_elem_of_here _ _))) as Hst.
    assert (Hstep : exists st1, V2.separate_key sets st k = st1 /\
      dict_wf st1.1 /\ dict_wf st1.2 /\ status2 sets k (dget k st1.1) (dget k st1.2) /\
      forall k', k' <> k -> dget k' st1.1 = dget k' st.1 /\ dget k' st1.2 = dget k' st.2).
    { destruct (Hnone k) as [Hku Hkc]; [by left|]. destruct st as [u c]. unfold V2.separate_key.
      simpl in *.
      destruct (remove_dups (map (dget k) sets)) as [|[v|] [|o ids]];
        (eexists; split; [reflexivity|]; simpl; split_and!; [by auto using dset_wf..| |]);
        rewrite ?dget_dset_eq, ?Hku, ?Hkc; try exact Hst;
        intros k' Hk'; by rewrite ?dget_dset_ne by done. }
    destruct Hstep as (st1 & -> & Hu1 & Hc1 & Hs1 & Hkeep).
    destruct (IH st1) as (Hu' & Hc' & Hall & Hrest); try done.
    { intros k' Hk'. apply Hk. by right. }
    { intros k' Hk'. assert (Hne : k' <> k) by (by intros ->).
      destruct (Hkeep k' Hne) as [-> ->]. apply Hnone. by right. }
    split_and!; [done|done| |].
    + intros k' [->|Hk']%elem_of_cons; [|by apply Hall].
      destruct (Hrest k Hkn) as [-> ->]. done.
    + intros k' [Hne Hk']%not_elem_of_cons.
      destruct (Hrest k' Hk') as [-> ->]. by apply Hkeep.
Qed.

(** Some state has the key. *)
Definition some_has (sets : list (StateMap string)) (k : StateKey) : Prop :=
  exists s, s ∈ sets /\ dmem k s = true.

Lemma elem_of_state_keys sets k : k ∈ concat (map dkeys sets) <-> some_has sets k.
Proof.
  unfold some_has. setoid_rewrite dmem_true.
  rewrite list_elem_of_In, in_concat. setoid_rewrite in_map_iff. split.
  - intros (ks & (s & <- & Hin) & Hk). exists s. by rewrite !list_elem_of_In.
  - intros (s & Hin & Hk). rewrite !list_elem_of_In in *. eauto.
Qed.

Lemma separate_partition `{SetOrder} sets u c :
  V2._seperate sets = (u, c) ->
  dict_wf u /\ dict_wf c /\
  (forall k, some_has sets k -> status2 sets k (dget k u) (dget k c)) /\
  (forall k, ~ some_has sets k -> dget k u = None /\ dget k c = None).
Proof.
  unfold V2._seperate. intros Hs.
  assert (Hkeys : forall k, k ∈ iter_set (concat (map dkeys sets)) <-> some_has sets k).
  { intros k. by rewrite elem_of_iter_set, elem_of_state_keys. }
  destruct (separate_keys_ok sets (iter_set (concat (map dkeys sets))) ([], []))
    as (Hu & Hc & Hall & Hrest).
  - intros k Hk. by apply Hkeys.
  - unfold iter_set. rewrite set_iter_perm. apply NoDup_remove_dups.
  - apply dict_wf_nil.
  - apply dict_wf_nil.
  - done.
  - rewrite Hs in *. split_and!; [done|done| |].
    + intros k Hk. by apply Hall, Hkeys.
    + intros k Hk. apply Hrest. by rewrite Hkeys.
Qed.

(** Version 2's [_seperate] splits the keys of the states: unconflicted with value [v]
    exactly when every state has that value, and otherwise conflicted with the set of the
    values the states have; a key that some state lacks is conflicted. *)
Theorem seperate2_spec `{SetOrder} sets u c :
  V2._seperate sets = (u, c) ->
  forall k,
    (forall v, dget k u = Some v <-> sets <> [] /\ forall s, s ∈ sets -> dget k s = Some v) /\
    (dmem k c = true <->
       exists s s', s ∈ sets /\ s' ∈ sets /\ dget k s <> dget k s') /\
    (forall ls, dget k c = Some ls -> forall x, x ∈ ls <-> exists s, s ∈ sets /\ dget k s = Some x).
Proof.
  intros Hs k. destruct (separate_partition sets u c Hs) as (_ & _ & Hall & Hnone).
  destruct (decide (k ∈ concat (map dkeys sets))) as [Hin|Hin]; rewrite elem_of_state_keys in Hin.
  - specialize (Hall k Hin). unfold status2, dmem in *.
    destruct (dget k u) as [v|], (dget k c) as [ls|]; try done.
    + destruct Hall as [Hne Hv]. split_and!; [|split; [done|]|done].
      * intros w. split; [by intros [= <-]|]. intros [_ Hw].
        destruct Hin as (s & Hs' & _). rewrite <- (Hv s Hs'). by apply Hw.
      * intros (s & s' & H1 & H2 & Hd). by rewrite (Hv s H1), (Hv s' H2) in Hd.
    + destruct Hall as [(s & s' & H1 & H2 & Hd) Hls]. split_and!; [|split; [eauto 10|done]|].
      * intros w. split; [done|]. intros [_ Hw]. by rewrite (Hw s H1), (Hw s' H2) in Hd.
      * by intros ? [= <-].
  - destruct (Hnone k Hin) as [-> Hc]. unfold dmem. rewrite Hc.
    assert (Hno : forall s, s ∈ sets -> dget k s = None).
    { intros s Hs'. destruct (dget k s) eqn:Hd; [|done]. exfalso. apply Hin. exists s.
      split; [done|]. unfold dmem. by rewrite Hd. }
    split_and!; [|split; [done|]|done].
    + intros v. split; [done|]. intros [Hne Hv]. destruct sets as [|s sets]; [done|].
      specialize (Hv s (list_elem_of_here _ _)). by rewrite Hno in Hv by (by left).
    + intros (s & s' & H1 & H2 & Hd). by rewrite (Hno s H1), (Hno s' H2) in Hd.
Qed.

(** ** The event map only grows *)

(** What the resolution relies on: the store answers about the IDs it was asked for, and
    files events under their own IDs. *)
Class StoreLaws `{StateResolutionStore} := {
  get_events_asked : forall ids i e, (i, e) ∈ get_events ids -> i ∈ ids;
  get_events_id : forall ids i e, (i, e) ∈ get_events ids -> event_id e = i
}.

Section growth.
Context `{Netaddr, PyRepr, SetOrder, SignedJson, StoreLaws}.

Definition from_store (i : string) (e : event) : Prop := exists ids, (i, e) ∈ get_events ids.

Definition grows (m m' : EventMap) : Prop :=
  (forall i e, dget i m = Some e -> dget i m' = Some e) /\
  (forall i e, dget i m' = Some e -> dget i m = Some e \/ from_store i e).

#[export] Instance grows_preorder : PreOrder grows.
Proof.
  split.
  - by split; [|left].
  - intros m1 m2 m3 [He1 Hs1] [He2 Hs2]. split; [by auto|].
    intros i e Hi. destruct (Hs2 i e Hi) as [Hi2|]; [|by right]. by apply Hs1.
Qed.

Lemma grows_mem m m' i : grows m m' -> dmem i m = true -> dmem i m' = true.
Proof.
  intros [He _]. unfold dmem. destruct (dget i m) as [e|] eqn:Hi; [|done].
  by rewrite (He i e Hi).
Qed.

Lemma get_event_opt_ok room i m o m' :
  V2.get_event_opt room i m = Ok (o, m') ->
  grows m m' /\ o = dget i m' /\ forall e, o = Some e -> room_id e = Ok room.
Proof.
  unfold V2.get_event_opt. intros Hg.
  set (m1 := if dmem i m then m else dupdate m (get_events [i])) in Hg.
  assert (Hm1 : grows m m1).
  { subst m1. destruct (dmem i m) eqn:Hi; [done|]. split.
    - intros j e Hj.
      assert (Hnot : j <> i) by (intros ->; unfold dmem in Hi; by rewrite Hj in Hi).
      assert (Hgen : forall l, (forall k e, (k, e) ∈ l -> k = i) -> forall d, dget j d = Some e ->
                dget j (dupdate d l) = Some e).
      { induction l as [|[k e'] l IH]; intros Hl d Hd; simpl; [done|]. unfold dupdate; simpl.
        apply IH; [intros; eapply Hl; by right|]. rewrite dget_dset_ne; [done|].
        intros ->. apply Hnot, (Hl k e'). by left. }
      apply Hgen; [|done]. intros k e' Hk. apply get_events_asked in Hk.
      by apply list_elem_of_singleton in Hk.
    - intros j e Hj. apply dget_dupdate_in in Hj as [Hj|Hj]; [right; by exists [i]|by left]. }
  clearbody m1. destruct (dget i m1) as [e|] eqn:Hi.
  - apply rbind_ok in Hg as (r & Hr & Hg). destruct (bool_decide_reflect (r = room)); [|done].
    injection Hg as <- <-; subst. split_and!; [done|done|by intros ? [= <-]].
  - injection Hg as <- <-. by split_and!.
Qed.

Lemma get_event_opt_grows room i m o m' : V2.get_event_opt room i m = Ok (o, m') -> grows m m'.
Proof. intros Hg. by apply get_event_opt_ok in Hg as [? _]. Qed.

Lemma get_event_ok room i m e m' :
  V2._get_event room i m = Ok (e, m') ->
  grows m m' /\ dget i m' = Some e /\ room_id e = Ok room.
Proof.
  unfold V2._get_event. intros Hg. apply rbind_ok in Hg as ([[e'|] m1] & Hg & Hr); [|done].
  injection Hr as -> ->. apply get_event_opt_ok in Hg as (? & ? & Hroom). auto.
Qed.

Lemma get_event_grows room i m e m' : V2._get_event room i m = Ok (e, m') -> grows m m'.
Proof. intros Hg. by apply get_event_ok in Hg as [? _]. Qed.

Lemma rfold_grows {A S} (f : S * EventMap -> A -> result (S * EventMap)) l s m s' m' :
  (forall s m x s' m', f (s, m) x = Ok (s', m') -> grows m m') ->
  rfold f (s, m) l = Ok (s', m') -> grows m m'.
Proof.
  intros Hf. revert s m. induction l as [|x l IH]; intros s m Hr; simpl in Hr.
  - by injection Hr as <- <-.
  - apply rbind_ok in Hr as ([s1 m1] & Hx & Hr). etransitivity; [by eapply Hf|by eapply IH].
Qed.

Lemma find_pl_create_grows room s m aid s' m' :
  V2.find_pl_create room (s, m) aid = Ok (s', m') -> grows m m'.
Proof.
  destruct s as [pl c]. simpl. intros Hf. apply rbind_ok in Hf as ([o m1] & Hg & Hf).
  apply get_event_opt_grows in Hg. destruct o as [aev|]; [|by injection Hf as <- <-].
  apply rbind_ok in Hf as (k & _ & Hf). by injection Hf as <- <-.
Qed.

Lemma creator_level_grows room e aids m n m' :
  V2.creator_level room e aids m = Ok (n, m') -> grows m m'.
Proof.
  revert m. induction aids as [|aid aids IH]; intros m Hc; simpl in Hc.
  - by injection Hc as <- <-.
  - apply rbind_ok in Hc as ([o m1] & Hg & Hc). apply get_event_opt_grows in Hg.
    etransitivity; [exact Hg|]. destruct o as [aev|]; [|by apply IH].
    apply rbind_ok in Hc as (k & _ & Hc). case_bool_decide; [by injection Hc as <- <-|by apply IH].
Qed.

Lemma power_level_for_sender_grows room i m n m' :
  V2._get_power_level_for_sender room i m = Ok (n, m') -> grows m m'.
Proof.
  unfold V2._get_power_level_for_sender. intros Hp.
  apply rbind_ok in Hp as ([e m1] & Hg & Hp). apply get_event_grows in Hg.
  apply rbind_ok in Hp as (aids & _ & Hp). apply rbind_ok in Hp as ([[pl c] m2] & Hf & Hp).
  apply rfold_grows in Hf; [|intros; by eapply find_pl_create_grows].
  apply rbind_ok in Hp as ([] & _ & Hp). apply rbind_ok in Hp as (b & _ & Hp).
  assert (Hm : grows m m2) by (by etransitivity). etransitivity; [exact Hm|].
  destruct b; [by injection Hp as <- <-|]. destruct pl as [pl|].
  - apply rbind_ok in Hp as (x & _ & Hp). by injection Hp as <- <-.
  - by eapply creator_level_grows.
Qed.

Lemma power_levels_of_grows room ids m pls m' :
  V2.power_levels_of room ids m = Ok (pls, m') -> grows m m'.
Proof.
  unfold V2.power_levels_of. apply rfold_grows. intros s m0 x s' m1 Hf.
  apply rbind_ok in Hf as ([n m2] & Hp & [= <- <-]). by eapply power_level_for_sender_grows.
Qed.

Lemma graph_loop_grows fuel room full st g m g' m' :
  V2.graph_loop fuel room full st g m = Ok (g', m') -> grows m m'.
Proof.
  revert st g m. induction fuel as [|fuel IH]; intros [|eid st] g m Hg; simpl in Hg.
  1, 3: by injection Hg as <- <-. 1: done.
  apply rbind_ok in Hg as ([e m1] & He & Hg). apply rbind_ok in Hg as (aids & _ & Hg).
  apply get_event_grows in He. etransitivity; [exact He|].
  destruct (fold_left _ _ _) as [g1 st1]. by eapply IH.
Qed.

Lemma power_graph_grows fuel room full cands m g m' :
  V2.power_graph fuel room full cands m = Ok (g, m') -> grows m m'.
Proof.
  unfold V2.power_graph. apply rfold_grows. intros s m0 x s' m1 Hf. simpl in Hf.
  destruct (dget x m0) as [e|]; [|done]. apply rbind_ok in Hf as ([] & _ & Hf).
  - by eapply graph_loop_grows.
  - by injection Hf as <- <-.
Qed.

Lemma power_sort_grows fuel room full m l m' :
  V2._reverse_topological_power_sort fuel room full m = Ok (l, m') -> grows m m'.
Proof.
  unfold V2._reverse_topological_power_sort. intros Hs.
  apply rbind_ok in Hs as ([g m1] & Hg & Hs). apply rbind_ok in Hs as ([pls m2] & Hp & Hs).
  apply rbind_ok in Hs as (l' & _ & [= <- <-]).
  etransitivity; [by eapply power_graph_grows|by eapply power_levels_of_grows].
Qed.

Lemma own_auth_events_grows room a m aid a' m' :
  V2.own_auth_events room (a, m) aid = Ok (a', m') -> grows m m'.
Proof.
  simpl. intros Ho. apply rbind_ok in Ho as ([o m1] & Hg & Ho). apply get_event_opt_grows in Hg.
  etransitivity; [exact Hg|]. destruct o as [ev|]; [|by injection Ho as <- <-].
  destruct (rejected_reason ev); [by injection Ho as <- <-|].
  apply rbind_ok in Ho as (k & _ & Ho). by injection Ho as <- <-.
Qed.

Lemma state_auth_events_grows room rs a m key a' m' :
  V2.state_auth_events room rs (a, m) key = Ok (a', m') -> grows m m'.
Proof.
  simpl. intros Hs. destruct (dget key rs) as [ev_id|]; [|by injection Hs as <- <-].
  apply rbind_ok in Hs as ([ev m1] & Hg & Hs). apply get_event_grows in Hg.
  etransitivity; [exact Hg|]. destruct (rejected_reason ev); [by injection Hs as <- <-|].
  destruct (dget ev_id m1); [by injection Hs as <- <-|done].
Qed.

Lemma first_power_event_grows room aids m o m' :
  V2.first_power_event room aids m = Ok (o, m') -> grows m m'.
Proof.
  revert m. induction aids as [|aid aids IH]; intros m Hc; simpl in Hc.
  - by injection Hc as <- <-.
  - apply rbind_ok in Hc as ([ev m1] & Hg & Hc). apply get_event_opt_grows in Hg.
    etransitivity; [exact Hg|]. destruct ev as [ev|]; [|by apply IH].
    apply rbind_ok in Hc as (k & _ & Hc). case_bool_decide; [by injection Hc as <- <-|by apply IH].
Qed.

Lemma mainline_loop_grows fuel room pl m l m' :
  V2.mainline_loop fuel room pl m = Ok (l, m') -> grows m m'.
Proof.
  revert pl m l. induction fuel as [|fuel IH]; intros [pl|] m l Hm; simpl in Hm;
    try (by injection Hm as <- <-); destruct (String.eqb pl ""); try (by injection Hm as <- <-);
    [done|].
  apply rbind_ok in Hm as ([ev m1] & Hg & Hm). apply get_event_grows in Hg.
  apply rbind_ok in Hm as (aids & _ & Hm). apply rbind_ok in Hm as ([nx m2] & Hf & Hm).
  apply first_power_event_grows in Hf. apply rbind_ok in Hm as ([rest m3] & Hrest & [= <- <-]).
  apply IH in Hrest. etransitivity; [exact Hg|]. by etransitivity.
Qed.

Lemma mainline_depth_grows fuel room mm o m n m' :
  V2.mainline_depth_loop fuel room mm o m = Ok (n, m') -> grows m m'.
Proof.
  revert o m. induction fuel as [|fuel IH]; intros [e|] m Hm; simpl in Hm;
    try (by injection Hm as <- <-); destruct (dget (event_id e) mm); try (by injection Hm as <- <-);
    [done|].
  apply rbind_ok in Hm as (aids & _ & Hm). apply rbind_ok in Hm as ([nx m1] & Hf & Hm).
  apply first_power_event_grows in Hf. etransitivity; [exact Hf|by eapply IH].
Qed.

Lemma order_map_step_grows fuel mm om m i om' m' :
  V2.order_map_step fuel mm (om, m) i = Ok (om', m') -> grows m m'.
Proof.
  simpl. intros Hs. destruct (dget i m) as [e|]; [|done].
  apply rbind_ok in Hs as ([d m1] & Hd & Hs). unfold V2._get_mainline_depth_for_event in Hd.
  apply rbind_ok in Hd as (r & _ & Hd). apply mainline_depth_grows in Hd.
  destruct (dget i m1); [by injection Hs as <- <-|done].
Qed.

Lemma mainline_sort_grows fuel room ids pl m l m' :
  V2._mainline_sort fuel room ids pl m = Ok (l, m') -> grows m m'.
Proof.
  unfold V2._mainline_sort. destruct ids as [|i ids]; [by intros [= <- <-]|]. intros Hs.
  apply rbind_ok in Hs as ([ml m1] & Hm & Hs). apply rbind_ok in Hs as ([om m2] & Ho & [= <- <-]).
  etransitivity; [by eapply mainline_loop_grows|].
  eapply rfold_grows; [|exact Ho]. intros; by eapply order_map_step_grows.
Qed.

(** ** The graph of power events *)

(** The graph under construction: its nodes are in the conflicted set and at hand, its edges
    are their auth events in the conflicted set, and every edge leads to a node or to an
    event on the stack. *)
Definition graph_inv (full st : list string) (g : list (string * list string)) (m : EventMap) : Prop :=
  dict_wf g /\
  forall n es, dget n g = Some es ->
    n ∈ full /\
    (exists e aids, dget n m = Some e /\ auth_event_ids e = Ok aids /\
       forall x, x ∈ es <-> x ∈ aids /\ x ∈ full) /\
    forall x, x ∈ es -> dmem x g = true \/ x ∈ st.

Lemma graph_inv_grows full st g m m' : grows m m' -> graph_inv full st g m -> graph_inv full st g m'.
Proof.
  intros [He _] [Hwf Hg]. split; [done|]. intros n es Hn.
  destruct (Hg n es Hn) as (? & (e & aids & ? & ? & ?) & ?). split_and!; eauto 10.
Qed.

(** The inner loop: the edges of one node, and what is pushed. *)
Lemma graph_edges_ok full eid aids g st :
  forall g' st', fold_left (V2.graph_edge_step full eid) aids (g, st) = (g', st') ->
  dict_wf g -> dmem eid g = true ->
  dict_wf g' /\ dmem eid g' = true /\
  (forall n, n <> eid -> dget n g' = dget n g) /\
  (forall x, x ∈ default [] (dget eid g') <-> x ∈ default [] (dget eid g) \/ (x ∈ aids /\ x ∈ full)) /\
  (forall x, x ∈ st -> x ∈ st') /\
  (forall x, x ∈ st' -> x ∈ st \/ x ∈ full) /\
  (forall x, x ∈ aids -> x ∈ full -> dmem x g' = true \/ x ∈ st').
Proof.
  revert g st. induction aids as [|aid aids IH]; intros g st g' st' Hf Hwf Hm; simpl in Hf.
  - injection Hf as <- <-. split_and!; try done; [|by left|by intros x ?%elem_of_nil].
    intros x. rewrite elem_of_nil. tauto.
  - destruct (bool_decide_reflect (aid ∈ full)) as [Hin|Hin].
    + assert (Hmem : forall x, dmem x (setdefault_add eid aid g) = true <-> dmem x g = true).
      { intros x. unfold setdefault_add. rewrite dmem_dset. naive_solver. }
      apply IH in Hf as (Hwf' & Hm' & Hkeep & Hes & Hst & Hst' & Hall);
        [|by apply dset_wf|by apply Hmem].
      split_and!; [done|done| | | | |].
      * intros n Hn. rewrite Hkeep by done. unfold setdefault_add. by apply dget_dset_ne.
      * intros x. rewrite Hes. unfold setdefault_add. rewrite dget_dset_eq. simpl.
        rewrite elem_of_set_add, elem_of_cons. naive_solver.
      * intros x Hx. apply Hst. destruct (dmem aid g); [done|by right].
      * intros x [Hx|?]%Hst'; [|by right]. destruct (dmem aid g); [by left|].
        apply elem_of_cons in Hx as [->|?]; [by right|by left].
      * intros x [->|Hx]%elem_of_cons Hfull; [|by apply Hall].
        destruct (dmem aid g) eqn:Ha; [|right; apply Hst; by left]. left.
        destruct (decide (aid = eid)) as [->|Hne]; [done|].
        unfold dmem. rewrite Hkeep by done. by apply Hmem in Ha.
    + apply IH in Hf as (Hwf' & Hm' & Hkeep & Hes & Hst & Hst' & Hall); [|done|done].
      split_and!; try done.
      * intros x. rewrite Hes, elem_of_cons. naive_solver.
      * intros x [->|Hx]%elem_of_cons Hfull; [done|by apply Hall].
Qed.

Lemma graph_loop_inv fuel room full st g m g' m' :
  (forall x, x ∈ st -> x ∈ full) -> graph_inv full st g m ->
  V2.graph_loop fuel room full st g m = Ok (g', m') ->
  graph_inv full [] g' m' /\ (forall x, dmem x g = true \/ x ∈ st -> dmem x g' = true).
Proof.
  revert st g m. induction fuel as [|fuel IH]; intros [|eid st] g m Hst Hinv Hg; simpl in Hg.
  1, 3: injection Hg as <- <-; split; [done|by intros x [?|?%elem_of_nil]]. 1: done.
  apply rbind_ok in Hg as ([e m1] & He & Hg). apply rbind_ok in Hg as (aids & Haids & Hg).
  apply get_event_ok in He as (Hgr & He & _).
  destruct (fold_left _ _ _) as [g1 st1] eqn:Hf.
  apply (graph_inv_grows _ _ _ _ _ Hgr) in Hinv as [Hwf Hinv].
  assert (Hwf0 : dict_wf (setdefault_set eid g)).
  { unfold setdefault_set. destruct (dmem eid g); [done|by apply dset_wf]. }
  assert (Hm0 : dmem eid (setdefault_set eid g) = true) by (apply dmem_setdefault; by left).
  assert (Hg0 : forall n, n <> eid -> dget n (setdefault_set eid g) = dget n g).
  { intros n Hn. unfold setdefault_set. destruct (dmem eid g); [done|by apply dget_dset_ne]. }
  destruct (graph_edges_ok full eid aids _ _ g1 st1 Hf Hwf0 Hm0)
    as (Hwf1 & Hm1 & Hkeep & Hes & Hsub & Hsub' & Hall).
  assert (Hes0 : forall x, x ∈ default [] (dget eid (setdefault_set eid g)) ->
            x ∈ aids /\ x ∈ full).
  { intros x. unfold setdefault_set, dmem. destruct (dget eid g) as [es|] eqn:Hd.
    - rewrite Hd. simpl. intros Hx. destruct (Hinv eid es Hd) as (_ & (e' & aids' & He' & Ha' & Hx') & _).
      rewrite He in He'. injection He' as <-. rewrite Haids in Ha'. injection Ha' as <-.
      by apply Hx'.
    - rewrite dget_dset_eq. simpl. by intros ?%elem_of_nil. }
  assert (Hmono : forall x, dmem x g = true \/ x ∈ eid :: st -> dmem x g1 = true \/ x ∈ st1).
  { intros x Hx. destruct (decide (x = eid)) as [->|Hne]; [by left|].
    rewrite elem_of_cons in Hx. destruct Hx as [Hx|[?|Hx]]; [|done|right; by apply Hsub].
    left. unfold dmem. rewrite Hkeep, Hg0 by done. done. }
  apply IH in Hg as [Hinv' Hmem'].
  - split; [done|]. intros x Hx. apply Hmem', Hmono, Hx.
  - intros x Hx. apply Hsub' in Hx as [?|?]; [apply Hst; by right|done].
  - split; [done|]. intros n es Hn. destruct (decide (n = eid)) as [->|Hne].
    + split; [apply Hst; by left|]. assert (Hes' : forall x, x ∈ es <-> x ∈ aids /\ x ∈ full).
      { intros x. specialize (Hes x). rewrite Hn in Hes. simpl in Hes. rewrite Hes.
        split; [intros [?|?]; auto|by right]. }
      split; [by eauto|]. intros x [Hx Hxf]%Hes'. by apply Hall.
    + rewrite Hkeep, Hg0 in Hn by done. destruct (Hinv n es Hn) as (Hnf & Hex & Hcl).
      split_and!; [done|done|]. intros x Hx. apply Hmono. by apply Hcl.
Qed.

Lemma power_graph_inv fuel room full cands m g m' :
  (forall x, x ∈ cands -> x ∈ full) ->
  V2.power_graph fuel room full cands m = Ok (g, m') ->
  graph_inv full [] g m' /\
  forall x e, x ∈ cands -> dget x m = Some e -> V2._is_power_event e = Ok true -> dmem x g = true.
Proof.
  intros Hc Hp.
  assert (Hgen : forall l g0 m0, (forall x, x ∈ l -> x ∈ full) -> graph_inv full [] g0 m0 ->
    rfold (V2.power_graph_step fuel room full) (g0, m0) l = Ok (g, m') ->
    graph_inv full [] g m' /\ (forall x, dmem x g0 = true -> dmem x g = true) /\
    forall x e, x ∈ l -> dget x m0 = Some e -> V2._is_power_event e = Ok true -> dmem x g = true).
  { clear Hp Hc. induction l as [|y l IH]; intros g0 m0 Hl Hinv Hr; simpl in Hr.
    - injection Hr as <- <-. split_and!; [done|done|]. by intros x e ?%elem_of_nil.
    - apply rbind_ok in Hr as ([g1 m1] & Hy & Hr). destruct (dget y m0) as [ey|] eqn:Hey; [|done].
      apply rbind_ok in Hy as (pw & Hpw & Hy).
      assert (Hstep : graph_inv full [] g1 m1 /\ grows m0 m1 /\
        (forall x, dmem x g0 = true -> dmem x g1 = true) /\ (pw = true -> dmem y g1 = true)).
      { destruct pw.
        - pose proof (graph_loop_grows _ _ _ _ _ _ _ _ Hy) as Hgr.
          apply graph_loop_inv in Hy as [Hinv1 Hmem].
          + split_and!; [done|done| |intros _; apply Hmem; right; by left].
            intros x Hx. apply Hmem. by left.
          + intros x ->%list_elem_of_singleton. apply Hl. by left.
          + destruct Hinv as [Hwf Hi]. split; [done|]. intros n es Hn.
            destruct (Hi n es Hn) as (? & ? & Hcl). split_and!; [done|done|].
            intros x Hx. destruct (Hcl x Hx) as [?|?%elem_of_nil]; [by left|done].
        - injection Hy as <- <-. by split_and!. }
      destruct Hstep as (Hinv1 & Hgr & Hmono & Hpow).
      destruct (IH g1 m1) as (Hinv2 & Hmono2 & Hall); [intros; apply Hl; by right|done|done|].
      split_and!; [done|by auto|]. intros x e [->|Hx]%elem_of_cons He Hpe.
      + rewrite Hey in He. injection He as <-. rewrite Hpw in Hpe. injection Hpe as ->. auto.
      + eapply Hall; [done| |done]. by apply Hgr. }
  destruct (Hgen cands [] m Hc) as (Hinv & _ & Hall); [|exact Hp|by split].
  split; [apply dict_wf_nil|]. done.
Qed.

(** ** The power sort *)

Lemma power_levels_of_dom room ids m pls m' i :
  V2.power_levels_of room ids m = Ok (pls, m') -> i ∈ ids -> dmem i pls = true.
Proof.
  unfold V2.power_levels_of. intros Hr Hi.
  assert (Hgen : forall l pls0 m0, rfold (fun '(pls, event_map) event_id_ =>
      let* (pl, event_map) := V2._get_power_level_for_sender room event_id_ event_map in
      Ok (dset event_id_ pl pls, event_map)) (pls0, m0) l = Ok (pls, m') ->
    (dmem i pls0 = true \/ i ∈ l) -> dmem i pls = true).
  { induction l as [|x l IH]; intros pls0 m0 Hl Hin; simpl in Hl.
    - injection Hl as <- <-. by destruct Hin as [?|?%elem_of_nil].
    - apply rbind_ok in Hl as ([pls1 m1] & Hx & Hl). apply rbind_ok in Hx as ([n m2] & _ & [= <- <-]).
      eapply IH; [exact Hl|]. rewrite dmem_dset. rewrite elem_of_cons in Hin. tauto. }
  eapply Hgen; [exact Hr|by right].
Qed.

(** Auth events strictly descend in some rank: the auth graph is acyclic. *)
Definition ranked (rank : string -> nat) (m : EventMap) : Prop :=
  forall i e aids a, dget i m = Some e -> auth_event_ids e = Ok aids -> a ∈ aids ->
    (rank a < rank i)%nat.

(** The sort computes the greedy run of a graph that holds every power event, closed under
    the auth events in the conflicted set. *)
Lemma power_sort_graph fuel room full m sorted m' :
  V2._reverse_topological_power_sort fuel room full m = Ok (sorted, m') ->
  exists g qkey, graph_inv full [] g m' /\
    greedy_run (gnodes g) (gdeps g) (lex_le (Q := Z * (Z * string)) qkey) [] sorted /\
    forall x e, x ∈ full -> dget x m = Some e -> V2._is_power_event e = Ok true -> x ∈ gnodes g.
Proof.
  unfold V2._reverse_topological_power_sort. intros Hs.
  apply rbind_ok in Hs as ([g m1] & Hg & Hs). apply rbind_ok in Hs as ([pls m2] & Hp & Hs).
  apply rbind_ok in Hs as (l & Hl & [= <- <-]).
  pose proof (power_levels_of_grows _ _ _ _ _ Hp) as Hgr.
  apply power_graph_inv in Hg as [Hinv Hpow]; [|intros x; by rewrite set_iter_perm].
  apply (graph_inv_grows _ _ _ _ _ Hgr) in Hinv.
  set (qkey := fun n : string => match dget n m2, dget n pls with
    | Some ev, Some pl => (- pl, (origin_server_ts ev, n)) | _, _ => (0, (0, n)) end).
  destruct (lex_sort_greedy (V2.power_order m2 pls) qkey g (proj1 Hinv)) as (res & Hres & Hrun).
  { intros n Hn. unfold V2.power_order, qkey.
    pose proof (power_levels_of_dom _ _ _ _ _ n Hp Hn) as Hd. unfold dmem in Hd.
    apply gnodes_get in Hn. destruct Hinv as [_ Hinv].
    destruct (Hinv n _ Hn) as (_ & (e & aids & -> & _) & _). by destruct (dget n pls). }
  rewrite Hl in Hres. injection Hres as <-.
  exists g, qkey. split_and!; [done|done|]. intros x e Hx He Hpe.
  apply dmem_true. eapply Hpow; [by rewrite set_iter_perm|done|done].
Qed.

Lemma power_sort_subset fuel room full m sorted m' x :
  V2._reverse_topological_power_sort fuel room full m = Ok (sorted, m') -> x ∈ sorted -> x ∈ full.
Proof.
  intros Hs Hx. destruct (power_sort_graph _ _ _ _ _ _ Hs) as (g & qkey & [_ Hinv] & Hrun & _).
  apply (greedy_nodes _ _ _ [] sorted x Hrun) in Hx. apply gnodes_get in Hx.
  by destruct (Hinv x _ Hx).
Qed.

Lemma power_sort_spec fuel room full m sorted m' (rank : string -> nat) :
  V2._reverse_topological_power_sort fuel room full m = Ok (sorted, m') -> ranked rank m' ->
  NoDup sorted /\
  (forall x e, x ∈ full -> dget x m = Some e -> V2._is_power_event e = Ok true -> x ∈ sorted) /\
  (forall l1 n l2 e aids d, sorted = l1 ++ n :: l2 -> dget n m' = Some e ->
     auth_event_ids e = Ok aids -> d ∈ aids -> d ∈ full -> d ∈ l1).
Proof.
  intros Hs Hrank.
  destruct (power_sort_graph _ _ _ _ _ _ Hs) as (g & qkey & [_ Hinv] & Hrun & Hpow).
  assert (Hdeps : forall n d, n ∈ gnodes g -> d ∈ gdeps g n -> d ∈ gnodes g /\ (rank d < rank n)%nat).
  { intros n d Hn Hd. apply gnodes_get in Hn.
    destruct (Hinv n _ Hn) as (_ & (e & aids & He & Ha & Hx) & Hcl). split.
    - destruct (Hcl d Hd) as [Hm|?%elem_of_nil]; [by apply dmem_true|done].
    - apply Hx in Hd as [Hd _]. by eapply Hrank. }
  split; [by apply (greedy_nodup _ _ _ [] sorted Hrun), NoDup_nil_2|]. split.
  - intros x e Hx He Hpe. apply (greedy_complete _ _ _ rank [] sorted Hdeps Hrun). by eapply Hpow.
  - intros l1 n l2 e aids d Heq He Ha Hd Hfull.
    assert (Hn : n ∈ gnodes g).
    { apply (greedy_nodes _ _ _ [] sorted n Hrun). rewrite Heq. apply elem_of_app. right. by left. }
    apply gnodes_get in Hn. destruct (Hinv n _ Hn) as (_ & (e' & aids' & He' & Ha' & Hx) & _).
    rewrite He in He'. injection He' as <-. rewrite Ha in Ha'. injection Ha' as <-.
    exact (greedy_order _ _ _ [] sorted l1 n l2 d Hrun Heq (proj2 (Hx d) (conj Hd Hfull))).
Qed.

(** ** The iterative auth checks *)

(** The auth events an event is checked with: for a selected key that the state so far
    fills with an event that is not rejected, that event. *)
Definition state_preferred (rs : StateMap string) (types : list StateKey) (m : EventMap)
    (auth : StateMap event) : Prop :=
  forall k v ev, k ∈ types -> dget k rs = Some v -> dget v m = Some ev ->
    rejected_reason ev = None -> dget k auth = Some ev.

Lemma state_auth_events_ok room rs keys a m a' m' :
  rfold (V2.state_auth_events room rs) (a, m) keys = Ok (a', m') ->
  grows m m' /\ state_preferred rs keys m' a' /\
  forall k, (k ∉ keys) -> dget k a' = dget k a.
Proof.
  revert a m. induction keys as [|k keys IH]; intros a m Hr.
  - injection Hr as <- <-. split_and!; [done| |done]. by intros k v ev ?%elem_of_nil.
  - cbn [rfold] in Hr. apply rbind_ok in Hr as ([a1 m1] & Hs & Hr).
    pose proof (state_auth_events_grows _ _ _ _ _ _ _ Hs) as Hg1.
    apply IH in Hr as (Hg2 & Hpref & Hkeep). split; [by etransitivity|].
    assert (Ha1 : forall k', k' <> k -> dget k' a1 = dget k' a).
    { intros k' Hne. simpl in Hs. destruct (dget k rs) as [v|]; [|by injection Hs as <- <-].
      apply rbind_ok in Hs as ([ev m3] & _ & Hs).
      destruct (rejected_reason ev); [by injection Hs as <- <-|].
      destruct (dget v m3); [injection Hs as <- <-; by apply dget_dset_ne|done]. }
    split.
    + intros k' v ev [->|Hk']%elem_of_cons Hv Hev Hrej; [|by eapply Hpref].
      destruct (decide (k ∈ keys)) as [|Hnk]; [by eapply Hpref|].
      rewrite (Hkeep k Hnk). simpl in Hs. rewrite Hv in Hs.
      apply rbind_ok in Hs as ([ev' m3] & Hget & Hs).
      apply get_event_ok in Hget as (_ & Hev' & _).
      assert (Hm : m1 = m3).
      { destruct (rejected_reason ev'); [by injection Hs|]. rewrite Hev' in Hs. by injection Hs. }
      subst m3. destruct Hg2 as [He _]. rewrite (He _ _ Hev') in Hev. injection Hev as ->.
      rewrite Hrej, Hev' in Hs. injection Hs as <-. apply dget_dset_eq.
    + intros k' [Hne Hnk]%not_elem_of_cons. rewrite Hkeep by done. by apply Ha1.
Qed.

(** One step: the event is admitted exactly when it is not rejected and passes the rules. *)
Lemma iterative_step_ok room rv rs m i rs' m' :
  V2.iterative_step room rv (rs, m) i = Ok (rs', m') ->
  grows m m' /\ exists e types auth, dget i m = Some e /\
    auth_types_for_event rv e = Ok types /\ state_preferred rs types m' auth /\
    ((rejected_reason e = None /\ passes auth e /\
      exists k, event_key e = Ok k /\ rs' = dset k i rs) \/
     ((rejected_reason e <> None \/ ~ passes auth e) /\ rs' = rs)).
Proof.
  simpl. intros Hs. destruct (dget i m) as [e|] eqn:He; [|done].
  apply rbind_ok in Hs as (aids & _ & Hs). apply rbind_ok in Hs as ([a1 m1] & Ho & Hs).
  apply rfold_grows in Ho; [|intros; by eapply own_auth_events_grows].
  apply rbind_ok in Hs as (types & Ht & Hs). apply rbind_ok in Hs as ([a2 m2] & Ha & Hs).
  apply state_auth_events_ok in Ha as (Hg & Hpref & _).
  assert (Hm : m' = m2).
  { destruct (rejected_reason e); [by injection Hs|].
    destruct (check_state_dependent_auth_rules e (dvals a2)) as [b|err];
      [by apply rbind_ok in Hs as (k & _ & [= _ ->])|].
      destruct (is_auth_error err); [by injection Hs|done]. }
  subst m'. split; [by etransitivity|]. exists e, types, a2. split_and!; [done|done| |].
  - intros k v ev Hk. apply Hpref. by apply elem_of_iter_set.
  - destruct (rejected_reason e) as [r|]; [right; injection Hs as <-; split; [by left|done]|].
    unfold passes. destruct (check_state_dependent_auth_rules e (dvals a2)) as [b|err].
    + left. apply rbind_ok in Hs as (k & Hk & [= <-]). eauto 10.
    + right. destruct (is_auth_error err); [|done]. injection Hs as <-.
      split; [right; by intros [? ?]|done].
Qed.

(** Every entry of the new state is of the old one, or an admitted event under its own key. *)
Lemma iterative_checks_entries room rv ids base m rs m' :
  V2._iterative_auth_checks room rv ids base m = Ok (rs, m') ->
  grows m m' /\ forall k v, dget k rs = Some v -> dget k base = Some v \/
    (v ∈ ids /\ exists e, dget v m' = Some e /\ event_key e = Ok k /\ rejected_reason e = None).
Proof.
  unfold V2._iterative_auth_checks. revert base m.
  induction ids as [|i ids IH]; intros base m Hr.
  - injection Hr as <- <-. split; [done|]. by left.
  - cbn [rfold] in Hr. apply rbind_ok in Hr as ([rs1 m1] & Hs & Hr).
    apply iterative_step_ok in Hs as (Hg1 & e & types & auth & He & _ & _ & Hcase).
    apply IH in Hr as [Hg2 Hent]. split; [by etransitivity|].
    intros k v Hv. destruct (Hent k v Hv) as [Hv1|(Hin & Hex)]; [|right; split; [by right|done]].
    destruct Hcase as [(Hrej & _ & k' & Hk' & ->)|[_ ->]]; [|by left].
    rewrite dget_dset in Hv1. case_decide; subst; [|by left]. injection Hv1 as <-. right.
    split; [by left|]. exists e. split_and!; [|done|done]. apply Hg2. by apply Hg1.
Qed.

(** ** The mainline sort *)

Lemma order_map_ok fuel mm ids om m om' m' :
  rfold (V2.order_map_step fuel mm) (om, m) ids = Ok (om', m') ->
  grows m m' /\
  (forall i, i ∈ ids -> exists e d m1 m2, dget i m' = Some e /\ grows m m1 /\
     V2._get_mainline_depth_for_event fuel e mm m1 = Ok (d, m2) /\
     dget i om' = Some (d, (origin_server_ts e, i))) /\
  forall i, (i ∉ ids) -> dget i om' = dget i om.
Proof.
  revert om m. induction ids as [|i ids IH]; intros om m Hr.
  - injection Hr as <- <-. split_and!; [done| |done]. by intros i ?%elem_of_nil.
  - cbn [rfold] in Hr. apply rbind_ok in Hr as ([om1 m1] & Hs & Hr).
    pose proof (order_map_step_grows _ _ _ _ _ _ _ Hs) as Hg1.
    apply IH in Hr as (Hg2 & Hall & Hkeep). split; [by etransitivity|].
    simpl in Hs. destruct (dget i m) as [e|] eqn:He; [|done].
    apply rbind_ok in Hs as ([d m2] & Hd & Hs). destruct (dget i m2) as [e2|] eqn:He2; [|done].
    injection Hs as <- <-.
    assert (Hgd : grows m m2).
    { unfold V2._get_mainline_depth_for_event in Hd. apply rbind_ok in Hd as (r & _ & Hd).
      by eapply mainline_depth_grows. }
    destruct Hgd as [Hext _]. rewrite (Hext i e He) in He2. injection He2 as <-.
    split.
    + assert (Hall' : forall j, j ∈ ids -> exists e d m3 m4, dget j m' = Some e /\ grows m m3 /\
        V2._get_mainline_depth_for_event fuel e mm m3 = Ok (d, m4) /\
        dget j om' = Some (d, (origin_server_ts e, j))).
      { intros j Hj. destruct (Hall j Hj) as (e' & d' & m3 & m4 & ? & Hg3 & ?).
        exists e', d', m3, m4. split_and!; try tauto. by etransitivity. }
      intros j [->|Hj]%elem_of_cons; [|by apply Hall'].
      destruct (decide (i ∈ ids)) as [|Hn]; [by apply Hall'|].
      exists e, d, m, m2. split_and!; [apply Hg2, Hext, He|done|done|].
      rewrite (Hkeep i Hn). apply dget_dset_eq.
    + intros j [Hne Hj]%not_elem_of_cons. rewrite Hkeep by done. by apply dget_dset_ne.
Qed.

Lemma mainline_sort_perm fuel room ids pl m l m' :
  V2._mainline_sort fuel room ids pl m = Ok (l, m') -> l ≡ₚ ids.
Proof.
  unfold V2._mainline_sort. destruct ids as [|i0 ids0]; [by intros [= <- <-]|].
  intros Hs. apply rbind_ok in Hs as ([ml m1] & Hm & Hs).
  apply rbind_ok in Hs as ([om m2] & Ho & [= <- <-]).
  exact (sorted_by_perm (V2.order_key om) (i0 :: ids0)).
Qed.

(** ** Termination of the mainline walks *)

Definition known (m : EventMap) (i : string) (e : event) : Prop :=
  dget i m = Some e \/ from_store i e.

Definition known_ranked (rank : string -> nat) (m : EventMap) : Prop :=
  forall i e aids a, known m i e -> auth_event_ids e = Ok aids -> a ∈ aids -> (rank a < rank i)%nat.

Lemma known_grows m m' i e : grows m m' -> known m' i e -> known m i e.
Proof. intros [_ Hs] [Hi|Hi]; [|by right]. by apply Hs. Qed.

Lemma known_ranked_grows rank m m' : grows m m' -> known_ranked rank m -> known_ranked rank m'.
Proof. intros Hg Hr i e aids a Hk. eapply Hr. by eapply known_grows. Qed.

Lemma auth_event_ids_fuel e : auth_event_ids e <> Err OutOfFuel.
Proof.
  unfold auth_event_ids, auth_event_ids_v4, room_id, room_id_v4, room_id_of_dict.
  repeat case_match; simpl; repeat case_match; done.
Qed.

Lemma room_id_fuel e : room_id e <> Err OutOfFuel.
Proof. unfold room_id, room_id_v4, room_id_of_dict. repeat case_match; done. Qed.

Lemma event_key_fuel e : event_key e <> Err OutOfFuel.
Proof. unfold event_key, state_key. case_match; done. Qed.

Lemma get_event_opt_fuel room i m : V2.get_event_opt room i m <> Err OutOfFuel.
Proof.
  unfold V2.get_event_opt. destruct (dget i _) as [e|]; [|done].
  intros [Hr|(r & _ & Hr)]%rbind_err; [by apply room_id_fuel in Hr|]. by destruct (negb _).
Qed.

Lemma get_event_fuel room i m : V2._get_event room i m <> Err OutOfFuel.
Proof.
  unfold V2._get_event. intros [Hr|([o m1] & _ & Hr)]%rbind_err.
  - by apply get_event_opt_fuel in Hr.
  - by destruct o.
Qed.

Lemma first_power_event_fuel room aids m : V2.first_power_event room aids m <> Err OutOfFuel.
Proof.
  revert m. induction aids as [|aid aids IH]; intros m; simpl; [done|].
  intros [Hr|([o m1] & _ & Hr)]%rbind_err; [by apply get_event_opt_fuel in Hr|].
  destruct o as [ev|]; [|by apply IH in Hr].
  apply rbind_err in Hr as [Hr|(k & _ & Hr)]; [by apply event_key_fuel in Hr|].
  case_bool_decide; [done|by apply IH in Hr].
Qed.

Lemma first_power_event_in room aids m aid ev m' :
  V2.first_power_event room aids m = Ok (Some (aid, ev), m') -> aid ∈ aids /\ dget aid m' = Some ev.
Proof.
  revert m. induction aids as [|a aids IH]; intros m Hf; simpl in Hf; [done|].
  apply rbind_ok in Hf as ([o m1] & Hg & Hf). destruct o as [ev'|].
  - apply rbind_ok in Hf as (k & _ & Hf). case_bool_decide.
    + injection Hf as -> -> ->. apply get_event_opt_ok in Hg as (_ & Hd & _). by split; [left|].
    + apply IH in Hf as [? ?]. by split; [right|].
  - apply IH in Hf as [? ?]. by split; [right|].
Qed.

Lemma mainline_loop_fuel rank fuel room pl m :
  known_ranked rank m -> (forall p, pl = Some p -> (rank p < fuel)%nat) ->
  V2.mainline_loop fuel room pl m <> Err OutOfFuel.
Proof.
  revert pl m. induction fuel as [|fuel IH]; intros [p|] m Hr Hp; simpl; try done.
  1: by specialize (Hp p eq_refl); lia.
  destruct (String.eqb p ""); [done|].
  intros [He|([e m1] & Hg & He)]%rbind_err; [by apply get_event_fuel in He|].
  apply get_event_ok in Hg as (Hg & Hd & _).
  apply rbind_err in He as [He|(aids & Ha & He)]; [by apply auth_event_ids_fuel in He|].
  apply rbind_err in He as [He|([nx m2] & Hf & He)]; [by apply first_power_event_fuel in He|].
  apply rbind_err in He as [He|([rest m3] & _ & He)]; [|done].
  pose proof (first_power_event_grows _ _ _ _ _ Hf) as Hg2.
  revert He. apply IH.
  - eapply known_ranked_grows; [|exact Hr]. by etransitivity.
  - intros q Hq. destruct nx as [[aid ev]|]; [|done]. injection Hq as ->.
    apply first_power_event_in in Hf as [Hin _]. specialize (Hp p eq_refl).
    assert (rank q < rank p)%nat; [|lia].
    eapply (known_ranked_grows _ _ _ Hg Hr); [left; exact Hd|exact Ha|done].
Qed.

Lemma mainline_depth_fuel rank fuel room mm i e m :
  known_ranked rank m -> known m i e -> (rank i < fuel)%nat ->
  V2.mainline_depth_loop fuel room mm (Some e) m <> Err OutOfFuel.
Proof.
  revert i e m. induction fuel as [|fuel IH]; intros i e m Hr Hk Hf; [lia|]. cbn.
  destruct (dget (event_id e) mm); [done|].
  intros [He|(aids & Ha & He)]%rbind_err; [by apply auth_event_ids_fuel in He|].
  apply rbind_err in He as [He|([nx m1] & Hfp & He)]; [by apply first_power_event_fuel in He|].
  pose proof (first_power_event_grows _ _ _ _ _ Hfp) as Hg.
  destruct nx as [[aid ev]|]; [|by destruct fuel]. cbn in He.
  apply first_power_event_in in Hfp as [Hin Hd]. revert He. apply (IH aid).
  - by eapply known_ranked_grows.
  - by left.
  - specialize (Hr i e aids aid Hk Ha Hin). lia.
Qed.

Lemma mainline_sort_fuel rank fuel room ids pl m :
  known_ranked rank m -> (forall p, pl = Some p -> (rank p < fuel)%nat) ->
  (forall i, i ∈ ids -> (rank i < fuel)%nat) ->
  V2._mainline_sort fuel room ids pl m <> Err OutOfFuel.
Proof.
  intros Hr Hp Hids. unfold V2._mainline_sort. destruct ids as [|i0 ids0]; [done|].
  intros [He|([ml m1] & Hm & He)]%rbind_err; [by eapply mainline_loop_fuel in He|].
  apply mainline_loop_grows in Hm. apply (known_ranked_grows _ _ _ Hm) in Hr. clear m Hm.
  apply rbind_err in He as [He|([om m2] & _ & He)]; [|done].
  revert He. set (mm := V2.mainline_positions ml). clearbody mm. generalize (@nil (string * (Z * (Z * string)))).
  revert m1 Hr Hids. generalize (i0 :: ids0) as ids. clear ml i0 ids0.
  induction ids as [|i ids IH]; intros m Hr Hids om; [done|]. cbn [rfold].
  intros [He|([om1 m3] & Hs & He)]%rbind_err.
  - simpl in He. destruct (dget i m) as [e|] eqn:Hi; [|done].
    apply rbind_err in He as [He|([d m3] & _ & He)]; [|by destruct (dget i m3)].
    unfold V2._get_mainline_depth_for_event in He.
    apply rbind_err in He as [He|(r & _ & He)]; [by apply room_id_fuel in He|].
    revert He. apply (mainline_depth_fuel rank _ _ _ i); [done|by left|apply Hids; by left].
  - revert He. apply IH; [|intros; apply Hids; by right].
    eapply known_ranked_grows; [|done]. by eapply order_map_step_grows.
Qed.

(** ** The whole resolution *)

Lemma resolve_conflicts_entries fuel room rv sets u c m r m' :
  dict_wf u -> V2.resolve_conflicts fuel room rv sets u c m = Ok (r, m') ->
  (forall k v, dget k u = Some v -> dget k r = Some v) /\
  exists diff,
    V2._get_auth_chain_difference fuel room sets m
      (if state_res rv =? StateResolutionVersions.V2_1
       then Some (remove_dups (concat (dvals c))) else None) = Ok diff /\
    forall k v, dget k r = Some v -> dget k u = Some v \/
      ((v ∈ concat (dvals c) \/ v ∈ diff) /\
       exists e, dget v m' = Some e /\ event_key e = Ok k /\ rejected_reason e = None).
Proof.
  intros Hu Hr. unfold V2.resolve_conflicts in Hr.
  apply rbind_ok in Hr as (diff & Hdiff & Hr). apply rbind_ok in Hr as ([] & _ & Hr).
  set (m0 := dupdate m _) in Hr.
  set (full := filter (fun eid => dmem eid m0 = true) _) in Hr.
  apply rbind_ok in Hr as ([sorted m1] & Hsort & Hr). apply rbind_ok in Hr as ([rs1 m2] & Hi1 & Hr).
  apply rbind_ok in Hr as ([left m3] & Hml & Hr). apply rbind_ok in Hr as ([rs2 m4] & Hi2 & Hr).
  injection Hr as <- <-.
  split; [intros k v Hk; rewrite dget_dupdate by done; by rewrite Hk|].
  exists diff. split; [done|].
  assert (Hfull : forall x, x ∈ full -> x ∈ concat (dvals c) \/ x ∈ diff).
  { intros x [_ Hx]%list_elem_of_filter. rewrite elem_of_set_union, elem_of_remove_dups in Hx. done. }
  assert (Hleft : forall x, x ∈ left -> x ∈ full).
  { intros x Hx. apply mainline_sort_perm in Hml as Hp. rewrite Hp in Hx.
    apply list_elem_of_filter in Hx as [_ Hx]. by rewrite set_iter_perm in Hx. }
  pose proof (mainline_sort_grows _ _ _ _ _ _ _ Hml) as Hg3.
  apply iterative_checks_entries in Hi1 as [Hg2 He1]. apply iterative_checks_entries in Hi2 as [Hg4 He2].
  intros k v Hk. rewrite dget_dupdate in Hk by done. destruct (dget k u) as [w|] eqn:Hku; [by left|].
  destruct (He2 k v Hk) as [Hk1|(Hin & Hex)]; [|right; split; [by apply Hfull, Hleft|done]].
  destruct (He1 k v Hk1) as [Hk0|(Hin & e & He & Hrest)].
  - exfalso. destruct (state_res rv =? _); [done|congruence].
  - right. split; [apply Hfull; eapply power_sort_subset; [exact Hsort|exact Hin]|]. exists e. split; [|done].
    apply Hg4, Hg3, He.
Qed.
End growth.

(** Version 2 keeps every entry on which all the states agree, whatever the auth rules
    make of the rest. *)
Theorem v2_keeps_unconflicted `{Netaddr, PyRepr, SetOrder, SignedJson, StoreLaws}
    fuel room rv sets em r m' k v :
  V2.resolve_events_with_store fuel room rv sets em = Ok (r, m') ->
  sets <> [] -> (forall s, s ∈ sets -> dget k s = Some v) -> dget k r = Some v.
Proof.
  intros Hr Hne Hall. unfold V2.resolve_events_with_store in Hr.
  destruct (V2._seperate sets) as [u c] eqn:Hs.
  destruct (separate_partition sets u c Hs) as (Hu & _ & Hpart & _).
  assert (Hk : dget k u = Some v).
  { assert (Hhas : some_has sets k).
    { destruct sets as [|s sets]; [done|]. exists s. split; [by left|].
      unfold dmem. by rewrite (Hall s (list_elem_of_here _ _)). }
    specialize (Hpart k Hhas). unfold status2 in Hpart.
    destruct (dget k u) as [w|], (dget k c) as [ls|]; try done.
    - destruct Hpart as [_ Hw], Hhas as (s & Hin & _).
      by rewrite <- (Hw s Hin), (Hall s Hin).
    - destruct Hpart as [(s & s' & H5 & H6 & Hd) _]. by rewrite (Hall s H5), (Hall s' H6) in Hd. }
  destruct c as [|c0 c]; [by injection Hr as <- <-|].
  apply resolve_conflicts_entries in Hr as [Hkeep _]; [by apply Hkeep|done].
Qed.

(** Version 2 invents nothing: every entry of the resolved state is either one on which
    all the states agree or the ID of an event of the full conflicted set (a conflicting
    entry, or in the auth chain difference) that sits under its own key and was not
    rejected. *)
Theorem v2_invents_nothing `{Netaddr, PyRepr, SetOrder, SignedJson, StoreLaws}
    fuel room rv sets em r m' k v :
  V2.resolve_events_with_store fuel room rv sets em = Ok (r, m') -> dget k r = Some v ->
  (forall s, s ∈ sets -> dget k s = Some v) \/
  (((exists k' s, s ∈ sets /\ dget k' s = Some v) \/
    (exists c diff, V2._get_auth_chain_difference fuel room sets (default [] em) c = Ok diff /\
       v ∈ diff)) /\
   exists e, dget v m' = Some e /\ event_key e = Ok k /\ rejected_reason e = None).
Proof.
  intros Hr Hk. unfold V2.resolve_events_with_store in Hr.
  destruct (V2._seperate sets) as [u c] eqn:Hs.
  destruct (separate_partition sets u c Hs) as (Hu & Hc & Hpart & Hnone).
  assert (Hst : forall k, status2 sets k (dget k u) (dget k c) \/ (dget k u = None /\ dget k c = None)).
  { intros k'. destruct (decide (k' ∈ concat (map dkeys sets))) as [Hin|Hin];
      rewrite elem_of_state_keys in Hin; auto. }
  assert (Hun : dget k u = Some v -> forall s, s ∈ sets -> dget k s = Some v).
  { intros Hku. destruct (Hst k) as [Hk'|[Hk' _]]; [|congruence]. rewrite Hku in Hk'.
    unfold status2 in Hk'. destruct (dget k c); [done|]. by destruct Hk'. }
  assert (Hcon : v ∈ concat (dvals c) -> exists k' s, s ∈ sets /\ dget k' s = Some v).
  { rewrite list_elem_of_In, in_concat. intros (ls & Hls & Hv).
    apply list_elem_of_In, list_elem_of_fmap in Hls as ([k' ls'] & -> & Hin). simpl in Hv.
    apply list_elem_of_In in Hv.
    apply (dget_some_iff k' ls' c Hc) in Hin. destruct (Hst k') as [Hk'|[_ Hk']]; [|congruence].
    rewrite Hin in Hk'. unfold status2 in Hk'. destruct (dget k' u); [done|].
    exists k'. by apply Hk'. }
  destruct c as [|c0 c]; [injection Hr as <- <-; left; by apply Hun|].
  apply resolve_conflicts_entries in Hr as [_ (diff & Hd & Hent)]; [|exact Hu].
  destruct (Hent k v Hk) as [Hku|[[Hv|Hv] Hex]]; [left; by apply Hun|right; split; [left; by apply Hcon|exact Hex]|].
  right. split; [right; by eexists _, diff|exact Hex].
Qed.
