(* ===== verification/StateV2Chains.v ===== *)
(** * StateV2Chains: the auth chains of unpersisted events

    [_get_auth_chain_difference] computes by itself the part of the difference that the
    database cannot know: the unpersisted events reached by the auth chains of some but not
    all of the states.  Reachability is the specification; the search is shown to compute
    it and, on an acyclic auth graph, to return. *)
From S2P Require Import Prelude PyVal PySort RoomVersionTable Identifiers Events EventAuthLevels.
From S2P Require Import SetkaChannels EventAuthPower EventAuthMembership EventAuth Samples.
From S2P Require Import StateV1 StateV1Safety TopoSort StateV2 StateV2Safety.
Open Scope string_scope.
Open Scope list_scope.
Open Scope Z_scope.
Open Scope py_scope.

(** ** Reachability *)

Section reach.
Context (unp : EventMap).

(** [a] is an auth event of [e], or of an unpersisted event that [e]'s auth chain reaches. *)
Inductive reaches : event -> string -> Prop :=
  | reaches_here e aids a : auth_event_ids e = Ok aids -> a ∈ aids -> reaches e a
  | reaches_step e aids b e' a :
      auth_event_ids e = Ok aids -> b ∈ aids -> dget b unp = Some e' -> reaches e' a -> reaches e a.

(** What popping one event adds. *)
Lemma chain_steps_ok nid aids chain nexts st :
  let '(chain', nexts', st') := fold_left (V2.chain_step unp nid) aids (chain, nexts, st) in
  (forall x, x ∈ chain' <-> x ∈ chain \/ x ∈ aids) /\
  (forall e, e ∈ st' <-> e ∈ st \/ exists b, b ∈ aids /\ dget b unp = Some e) /\
  exists pushed, st' = pushed ++ st /\ forall e, e ∈ pushed -> exists b, b ∈ aids /\ dget b unp = Some e.
Proof.
  revert chain nexts st. induction aids as [|a aids IH]; intros chain nexts st; simpl.
  - split_and!.
    + intros x. rewrite elem_of_nil. tauto.
    + intros e. split; [by left|]. intros [?|(b & ?%elem_of_nil & _)]; done.
    + exists []. split; [done|]. by intros e ?%elem_of_nil.
  - specialize (IH (set_add a chain) (setdefault_add a nid nexts)
      (match dget a unp with Some e => e :: st | None => st end)).
    destruct (fold_left _ _ _) as [[chain' nexts'] st']. destruct IH as (Hc & Hs & p & -> & Hp).
    split_and!.
    + intros x. rewrite Hc, elem_of_set_add, elem_of_cons. tauto.
    + intros e. rewrite Hs. setoid_rewrite elem_of_cons. destruct (dget a unp) as [e0|] eqn:Ha.
      * rewrite elem_of_cons. split.
        -- intros [[->|?]|(b & ? & ?)]; [right; exists a; auto|by left|right; exists b; auto].
        -- intros [?|(b & [->|?] & ?)]; [auto| |right; eauto].
           left. left. congruence.
      * split.
        -- intros [?|(b & ? & ?)]; [by left|right; exists b; auto].
        -- intros [?|(b & [->|?] & ?)]; [by left|congruence|right; eauto].
    + destruct (dget a unp) as [e0|] eqn:Ha.
      * exists (p ++ [e0]). rewrite <- app_assoc. split; [done|].
        intros e [He|He]%elem_of_app; [|apply list_elem_of_singleton in He as ->].
        -- destruct (Hp e He) as (b & ? & ?). exists b. split; [by right|done].
        -- exists a. split; [by left|done].
      * exists p. split; [done|]. intros e He. destruct (Hp e He) as (b & ? & ?).
        exists b. split; [by right|done].
Qed.

(** The search adds to the chain exactly what the stack's events reach. *)
Lemma chain_search_ok fuel st chain nexts chain' nexts' :
  V2.chain_search fuel unp st chain nexts = Ok (chain', nexts') ->
  forall x, x ∈ chain' <-> x ∈ chain \/ exists e, e ∈ st /\ reaches e x.
Proof.
  revert st chain nexts. induction fuel as [|fuel IH]; intros [|e st] chain nexts Hc x; simpl in Hc.
  1, 3: injection Hc as <- <-; split; [by left|]; intros [?|(e & ?%elem_of_nil & _)]; done.
  1: done.
  apply rbind_ok in Hc as (aids & Ha & Hc).
  pose proof (chain_steps_ok (event_id e) aids chain nexts st) as Hs.
  destruct (fold_left _ _ _) as [[chain1 nexts1] st1]. destruct Hs as (Hchain & Hst & _).
  rewrite (IH _ _ _ Hc x), Hchain. setoid_rewrite Hst. setoid_rewrite elem_of_cons. split.
  - intros [[?|Hx]|(e' & [He'|(b & Hb & He')] & Hr)].
    + by left.
    + right. exists e. split; [by left|]. by eapply reaches_here.
    + right. exists e'. auto.
    + right. exists e. split; [by left|]. by eapply reaches_step.
  - intros [?|(e' & [->|He'] & Hr)]; [by left; left| |right; eauto].
    destruct Hr as [e aids' a Ha' Hin|e aids' b e' a Ha' Hin Hb Hr]; rewrite Ha in Ha'; injection Ha' as <-.
    + left. by right.
    + right. exists e'. split; [right; eauto|done].
Qed.

(** ** Termination *)

Definition unp_ranked (rank : string -> nat) : Prop :=
  forall i e aids a, dget i unp = Some e -> auth_event_ids e = Ok aids -> a ∈ aids ->
    (rank a < rank i)%nat.

(** Enough fuel for a stack, whatever the accumulators. *)
Definition enough (fuel : nat) (st : list event) : Prop :=
  forall fuel' chain nexts, (fuel <= fuel')%nat ->
    V2.chain_search fuel' unp st chain nexts <> Err OutOfFuel.

Lemma enough_app rank n pushed :
  unp_ranked rank ->
  (forall e, e ∈ pushed -> exists b, dget b unp = Some e /\ (rank b < n)%nat) ->
  (forall b e st, dget b unp = Some e -> (rank b < n)%nat ->
     (exists f, enough f st) -> exists f, enough f (e :: st)) ->
  forall st, (exists f, enough f st) -> exists f, enough f (pushed ++ st).
Proof.
  intros Hr Hp Hone. induction pushed as [|e pushed IH]; intros st Hst; simpl; [done|].
  destruct (Hp e) as (b & Hb & Hlt); [by left|].
  apply (Hone b); [done|done|]. apply IH; [|done]. intros e' He'. apply Hp. by right.
Qed.

(** One event on top of a stack that terminates: by induction on its rank. *)
Lemma enough_cons rank n : unp_ranked rank ->
  forall b e st, dget b unp = Some e -> (rank b < n)%nat ->
    (exists f, enough f st) -> exists f, enough f (e :: st).
Proof.
  intros Hr. induction n as [|n IH]; intros b e st Hb Hlt Hst; [lia|].
  destruct (auth_event_ids e) as [aids|err] eqn:Ha.
  2: { exists 1%nat. intros [|f] chain nexts Hf; [lia|]. simpl. rewrite Ha. simpl.
       intros [= ->]. by apply auth_event_ids_fuel in Ha. }
  assert (Hpush : exists f, forall f' chain nexts, (f <= f')%nat ->
    let '(chain', nexts', st') := fold_left (V2.chain_step unp (event_id e)) aids (chain, nexts, st) in
    V2.chain_search f' unp st' chain' nexts' <> Err OutOfFuel).
  { pose proof (chain_steps_ok (event_id e) aids [] [] st) as Hs.
    destruct (fold_left _ _ _) as [[c1 n1] st1] eqn:Hf1. destruct Hs as (_ & _ & pushed & -> & Hp).
    assert (Hpr : forall e', e' ∈ pushed -> exists b', dget b' unp = Some e' /\ (rank b' < n)%nat).
    { intros e' He'. destruct (Hp e' He') as (b' & Hb' & He'').
      exists b'. split; [done|]. specialize (Hr b e aids b' Hb Ha Hb'). lia. }
    destruct (enough_app rank n pushed Hr Hpr IH st Hst) as [f Hf]. exists f.
    intros f' chain nexts Hle.
    assert (Hsame : forall aids c1 n1 c2 n2 s, exists c3 n3,
      fold_left (V2.chain_step unp (event_id e)) aids (c2, n2, s) =
      (c3, n3, snd (fold_left (V2.chain_step unp (event_id e)) aids (c1, n1, s)))).
    { clear. induction aids as [|a aids IH]; intros c1 n1 c2 n2 s; simpl; [eauto|]. apply IH. }
    destruct (Hsame aids [] [] chain nexts st) as (c3 & n3 & ->). rewrite Hf1. simpl. by apply Hf. }
  destruct Hpush as [f Hf]. exists (S f). intros [|f'] chain nexts Hle; [lia|].
  cbn [V2.chain_search]. rewrite Ha. cbn [rbind].
  specialize (Hf f' chain nexts ltac:(lia)). by destruct (fold_left _ _ _) as [[c3 n3] st3].
Qed.

Lemma chain_search_returns rank b e :
  unp_ranked rank -> dget b unp = Some e -> exists f, enough f [e].
Proof.
  intros Hr Hb. apply (enough_cons rank (S (rank b)) Hr b); [done|lia|].
  exists 0%nat. intros f chain nexts _. by destruct f.
Qed.
End reach.

(** ** The chains of all unpersisted events *)

(** The event map files events under their own IDs. *)
Definition ids_ok (m : EventMap) : Prop := forall i e, dget i m = Some e -> event_id e = i.

Section chains.
Context (unp : EventMap).
Hypothesis Hwf : dict_wf unp.
Hypothesis Hids : ids_ok unp.

Definition auth_chain_of (e : event) (x : string) : Prop := x = event_id e \/ reaches unp e x.

Lemma dvals_get e : e ∈ dvals unp <-> dget (event_id e) unp = Some e.
Proof.
  unfold dvals. rewrite list_elem_of_fmap. split.
  - intros ([i e'] & -> & Hin). simpl. apply dget_some_iff in Hin; [|done]. by rewrite (Hids i e').
  - intros He. exists (event_id e, e). split; [done|]. by apply dget_in.
Qed.

Lemma auth_chains_ok fuel chains nexts :
  V2.auth_chains fuel unp = Ok (chains, nexts) ->
  forall i, match dget i unp with
  | Some e => exists c, dget i chains = Some c /\ forall x, x ∈ c <-> auth_chain_of e x
  | None => dget i chains = None
  end.
Proof.
  unfold V2.auth_chains. intros Hc.
  assert (Hgen : forall l ch0 nx0, (forall e, e ∈ l -> e ∈ dvals unp) ->
    rfold (fun '(chains, next_events) e =>
      let* (chain, next_events) := V2.chain_search fuel unp [e] [event_id e] next_events in
      Ok (dset (event_id e) chain chains, next_events)) (ch0, nx0) l = Ok (chains, nexts) ->
    forall i, (exists e, e ∈ l /\ event_id e = i /\
        exists c, dget i chains = Some c /\ forall x, x ∈ c <-> auth_chain_of e x) \/
      ((forall e, e ∈ l -> event_id e <> i) /\ dget i chains = dget i ch0)).
  { clear Hc. induction l as [|e l IH]; intros ch0 nx0 Hl Hr i; simpl in Hr.
    - injection Hr as <- <-. right. split; [by intros e ?%elem_of_nil|done].
    - apply rbind_ok in Hr as ([ch1 nx1] & Hs & Hr). apply rbind_ok in Hs as ([c nx2] & Hs & [= <- <-]).
      destruct (IH _ _ (fun e He => Hl e (list_elem_of_further _ _ _ He)) Hr i)
        as [(e' & He' & Hi & Hc)|[Hno Hi]].
      + left. exists e'. split; [by right|done].
      + rewrite dget_dset in Hi. case_decide; subst.
        * left. exists e. split; [by left|]. split; [done|]. exists c. split; [done|].
          intros x. rewrite (chain_search_ok _ _ _ _ _ _ _ Hs x). unfold auth_chain_of.
          rewrite list_elem_of_singleton. setoid_rewrite list_elem_of_singleton. naive_solver.
        * right. split; [|done]. intros e' [->|He']%elem_of_cons; [congruence|by apply Hno]. }
  intros i. destruct (Hgen (dvals unp) [] [] (fun e He => He) Hc i) as [(e & He & <- & Hex)|[Hno Hi]].
  - apply dvals_get in He as ->. done.
  - destruct (dget i unp) as [e|] eqn:He; [|done]. exfalso. apply (Hno e); [|by apply Hids].
    apply dvals_get. by rewrite (Hids i e He).
Qed.

(** What a state's events reach among the unpersisted events. *)
Definition state_reaches (s : StateMap string) (x : string) : Prop :=
  exists i e, i ∈ dvals s /\ dget i unp = Some e /\ auth_chain_of e x.

(** What stands for the state when the database is asked: its persisted events, and the
    persisted events that the unpersisted ones reach. *)
Definition persisted_part (s : StateMap string) (x : string) : Prop :=
  dmem x unp = false /\ (x ∈ dvals s \/ state_reaches s x).

Lemma split_state_set_ok fuel chains nexts s :
  V2.auth_chains fuel unp = Ok (chains, nexts) ->
  let (ids, unps) := V2.split_state_set unp chains s in
  (forall x, x ∈ ids <-> persisted_part s x) /\
  (forall x, x ∈ unps <-> dmem x unp = true /\ state_reaches s x).
Proof.
  intros Hc. pose proof (auth_chains_ok _ _ _ Hc) as Hch. unfold V2.split_state_set.
  unfold persisted_part, state_reaches.
  assert (Hgen : forall l a b,
    let (ids, unps) := fold_left (fun '(set_ids, unpersisted_ids) event_id_ =>
      match dget event_id_ chains with
      | Some event_chain =>
          (set_union set_ids (filter (fun e => dmem e unp = false) event_chain),
           set_union unpersisted_ids (filter (fun e => dmem e unp = true) event_chain))
      | None => (set_add event_id_ set_ids, unpersisted_ids)
      end) l (a, b) in
    (forall x, x ∈ ids <-> x ∈ a \/ (dmem x unp = false /\
       (x ∈ l \/ exists i e, i ∈ l /\ dget i unp = Some e /\ auth_chain_of e x))) /\
    (forall x, x ∈ unps <-> x ∈ b \/ (dmem x unp = true /\
       exists i e, i ∈ l /\ dget i unp = Some e /\ auth_chain_of e x))).
  { induction l as [|i l IH]; intros a b; simpl.
    - split; intros x; setoid_rewrite elem_of_nil; naive_solver.
    - specialize (Hch i). destruct (dget i unp) as [e|] eqn:Hi.
      + destruct Hch as (c & -> & Hx).
        specialize (IH (set_union a (filter (fun e => dmem e unp = false) c))
                       (set_union b (filter (fun e => dmem e unp = true) c))).
        destruct (fold_left _ _ _) as [ids unps]. destruct IH as [Ha Hb].
        assert (Hdi : dmem i unp = true) by (unfold dmem; by rewrite Hi).
        split; intros x.
        * rewrite Ha, elem_of_set_union, list_elem_of_filter, Hx.
          setoid_rewrite elem_of_cons. split.
          -- intros [[?|[? ?]]|(? & [?|(j & e' & ? & ? & ?)])]; [by left| | |].
             ++ right. split; [done|]. right. exists i, e. auto.
             ++ right. auto.
             ++ right. split; [done|]. right. exists j, e'. auto.
          -- intros [?|(Hf & [[->|?]|(j & e' & [->|?] & Hj & ?)])]; [auto|congruence|auto| |].
             ++ rewrite Hi in Hj. injection Hj as <-. auto.
             ++ right. split; [done|]. right. eauto.
        * rewrite Hb, elem_of_set_union, list_elem_of_filter, Hx.
          setoid_rewrite elem_of_cons. split.
          -- intros [[?|[? ?]]|(? & j & e' & ? & ? & ?)]; [by left| |].
             ++ right. split; [done|]. exists i, e. auto.
             ++ right. split; [done|]. exists j, e'. auto.
          -- intros [?|(Hf & j & e' & [->|?] & Hj & ?)]; [auto| |].
             ++ rewrite Hi in Hj. injection Hj as <-. auto.
             ++ right. split; [done|]. eauto.
      + rewrite Hch. specialize (IH (set_add i a) b).
        destruct (fold_left _ _ _) as [ids unps]. destruct IH as [Ha Hb].
        assert (Hdi : dmem i unp = false) by (unfold dmem; by rewrite Hi).
        split; intros x.
        * rewrite Ha, elem_of_set_add. setoid_rewrite elem_of_cons. split.
          -- intros [[->|?]|(? & [?|(j & e' & ? & ? & ?)])]; [auto|auto|auto|].
             right. split; [done|]. right. exists j, e'. auto.
          -- intros [?|(Hf & [[->|?]|(j & e' & [->|?] & Hj & ?)])]; [auto|auto|auto|congruence|].
             right. split; [done|]. right. eauto.
        * rewrite Hb. setoid_rewrite elem_of_cons. split.
          -- intros [?|(? & j & e' & ? & ? & ?)]; [auto|]. right. split; [done|]. exists j, e'. auto.
          -- intros [?|(? & j & e' & [->|?] & ? & ?)]; [auto|congruence|].
             right. split; [done|]. eauto. }
  specialize (Hgen (dvals s) [] []). destruct (fold_left _ _ _) as [ids unps].
  destruct Hgen as [Ha Hb]. split; intros x; [rewrite Ha|rewrite Hb]; rewrite elem_of_nil; tauto.
Qed.
End chains.

Lemma union_minus_intersection_ok sets part x :
  V2.union_minus_intersection sets = Ok part ->
  x ∈ part <-> (exists s, s ∈ sets /\ x ∈ s) /\ exists s, s ∈ sets /\ x ∉ s.
Proof.
  destruct sets as [|s0 sets]; [done|]. intros [= <-]. unfold set_diff.
  rewrite list_elem_of_filter.
  assert (Hu : forall l a, x ∈ fold_left set_union l a <-> x ∈ a \/ exists s, s ∈ l /\ x ∈ s).
  { induction l as [|s l IH]; intros a; simpl.
    - split; [by left|]. intros [?|(s & ?%elem_of_nil & _)]; done.
    - rewrite IH, elem_of_set_union. setoid_rewrite elem_of_cons. naive_solver. }
  assert (Hi : forall l a, x ∈ fold_left set_inter l a <-> x ∈ a /\ forall s, s ∈ l -> x ∈ s).
  { induction l as [|s l IH]; intros a; simpl.
    - split; [intros ?; split; [done|]; by intros s ?%elem_of_nil|by intros [? _]].
    - rewrite IH. unfold set_inter. rewrite list_elem_of_filter. setoid_rewrite elem_of_cons.
      naive_solver. }
  assert (Hn : (~ forall s, s ∈ s0 :: sets -> x ∈ s) <-> exists s, s ∈ s0 :: sets /\ x ∉ s).
  { generalize (s0 :: sets) as l. induction l as [|s l IH]; split.
    - intros Hf. exfalso. apply Hf. by intros s ?%elem_of_nil.
    - by intros (s & ?%elem_of_nil & _).
    - intros Hf. destruct (decide (x ∈ s)) as [Hx|Hx]; [|exists s; split; [by left|done]].
      destruct (proj1 IH) as (s' & ? & ?); [|exists s'; split; [by right|done]].
      intros Hall. apply Hf. intros s' [->|?]%elem_of_cons; auto.
    - intros (s' & Hs' & Hx) Hf. by apply Hx, Hf. }
  rewrite <- Hn, Hu, Hi. setoid_rewrite elem_of_cons. naive_solver.
Qed.

(** ** The difference *)

Section difference.
Context `{SetOrder, StateResolutionStore}.

Lemma rfold_chains_fuel unp fuel l st :
  (forall e, e ∈ l -> enough unp fuel [e]) ->
  rfold (fun '(chains, next_events) e =>
    let* (chain, next_events) := V2.chain_search fuel unp [e] [event_id e] next_events in
    Ok (dset (event_id e) chain chains, next_events)) st l <> Err OutOfFuel.
Proof.
  revert st. induction l as [|e l IH]; intros [ch nx] Hl; simpl; [done|].
  intros [Hr|([ch1 nx1] & _ & Hr)]%rbind_err.
  - apply rbind_err in Hr as [Hr|([c nx2] & _ & Hr)]; [|done].
    by apply (Hl e (list_elem_of_here _ _) fuel) in Hr.
  - revert Hr. apply IH. intros e' He'. apply Hl. by right.
Qed.

(** On an acyclic auth graph some amount of fuel is enough for all the searches. *)
Lemma auth_chains_fuel unp rank :
  ids_ok unp -> dict_wf unp -> unp_ranked unp rank ->
  exists f, forall fuel, (f <= fuel)%nat -> V2.auth_chains fuel unp <> Err OutOfFuel.
Proof.
  intros Hids Hwf Hr.
  assert (Hall : forall l : list event, (forall e, e ∈ l -> e ∈ dvals unp) ->
    exists f, forall e, e ∈ l -> enough unp f [e]).
  { induction l as [|e l IH]; intros Hl.
    - exists 0%nat. by intros e ?%elem_of_nil.
    - destruct IH as [f1 Hf1]; [intros e' He'; apply Hl; by right|].
      destruct (chain_search_returns unp rank (event_id e) e Hr) as [f2 Hf2].
      { apply dvals_get; [done|done|]. apply Hl. by left. }
      exists (max f1 f2). intros e' [->|He']%elem_of_cons fuel' ch nx Hle.
      + apply Hf2. lia.
      + apply (Hf1 e' He'). lia. }
  destruct (Hall (dvals unp) (fun e He => He)) as [f Hf]. exists f. intros fuel Hle.
  unfold V2.auth_chains. apply rfold_chains_fuel. intros e He fuel' ch nx Hle'.
  apply (Hf e He). lia.
Qed.

(** Without a conflicted set (version 2), the difference is the store's for the persisted
    parts of the states, plus the unpersisted events that some but not all states reach. *)
Lemma difference_v2 fuel room sets unp diff :
  dict_wf unp -> ids_ok unp ->
  V2._get_auth_chain_difference fuel room sets unp None = Ok diff ->
  exists ids, Forall2 (fun s l => forall x, x ∈ l <-> persisted_part unp s x) sets ids /\
    let stored := get_auth_chain_difference room ids None [] in
    forall x, x ∈ diff <->
      (x ∈ auth_difference stored \/
       (dmem x unp = true /\ (exists s, s ∈ sets /\ state_reaches unp s x) /\
        exists s, s ∈ sets /\ ~ state_reaches unp s x)) \/
      x ∈ default [] (conflicted_subgraph stored).
Proof.
  intros Hwf Hids Hd. unfold V2._get_auth_chain_difference in Hd. simpl in Hd.
  apply rbind_ok in Hd as ([chains nexts] & Hc & Hd).
  apply rbind_ok in Hd as ([[[ids part] uc] add] & Hp & Hd).
  assert (Hids' : Forall2 (fun s l => forall x, x ∈ l <-> persisted_part unp s x) sets ids /\
    add = [] /\
    forall x, x ∈ part <-> (dmem x unp = true /\ (exists s, s ∈ sets /\ state_reaches unp s x) /\
      exists s, s ∈ sets /\ ~ state_reaches unp s x)).
  { destruct unp as [|p unp'] eqn:Hunp; simpl in Hp.
    - injection Hp as <- <- <- <-. split; [|split; [done|]].
      + apply Forall2_fmap_r, Forall_Forall2_diag, Forall_forall. intros s _ x.
        rewrite elem_of_remove_dups. unfold persisted_part, state_reaches. simpl. split; [by split; [|left]|].
        by intros [_ [?|(i & e & _ & ? & _)]].
      + intros x. rewrite elem_of_nil. split; [done|]. by intros [? _].
    - rewrite <- Hunp in *. clear Hunp.
      assert (Hsucs : V2.unpersisted_conflicts unp chains [] = ([], [])).
      { unfold V2.unpersisted_conflicts.
        assert (set_iter (@nil string) = []) as ->; [|done].
        apply Permutation_nil. by rewrite set_iter_perm. }
      rewrite Hsucs in Hp. apply rbind_ok in Hp as (part' & Hpart & Hp).
      injection Hp as <- <- <- <-.
      pose proof (fun s => split_state_set_ok unp Hwf Hids fuel chains nexts s Hc) as Hsplit.
      split; [|split; [done|]].
      + rewrite map_map. apply Forall2_fmap_r, Forall_Forall2_diag, Forall_forall. intros s _ x.
        specialize (Hsplit s). destruct (V2.split_state_set unp chains s) as [a b]. apply Hsplit.
      + intros x. rewrite (union_minus_intersection_ok _ _ _ Hpart). rewrite map_map.
        assert (Hs : forall s, x ∈ snd (V2.split_state_set unp chains s) <->
                  dmem x unp = true /\ state_reaches unp s x).
        { intros s. specialize (Hsplit s). destruct (V2.split_state_set unp chains s). apply Hsplit. }
        setoid_rewrite list_elem_of_fmap. split.
        * intros [(l1 & (s1 & -> & H1) & Hx1) (l2 & (s2 & -> & H2) & Hx2)].
          apply Hs in Hx1 as [Hm Hr]. rewrite Hs in Hx2. split; [done|].
          split; [eauto|]. exists s2. split; [done|]. tauto.
        * intros (Hm & (s1 & H1 & Hr1) & s2 & H2 & Hr2). split.
          -- eexists. split; [exists s1; by split|]. by apply Hs.
          -- eexists. split; [exists s2; by split|]. rewrite Hs. tauto. }
  destruct Hids' as (Hf2 & -> & Hpart). exists ids. split; [done|]. simpl.
  destruct (get_auth_chain_difference room ids None []) as [ad sg]. cbn -[set_union] in *.
  intros x. rewrite <- Hpart. destruct sg as [s|]; cbn -[set_union] in Hd.
  - change (default [] (Some s)) with s.
    destruct s as [|s0 s]; apply Ok_inj in Hd; subst diff; rewrite !elem_of_set_union;
      rewrite ?elem_of_nil; tauto.
  - injection Hd as <-. change (default [] None) with (@nil string).
    rewrite elem_of_set_union, elem_of_nil. tauto.
Qed.
End difference.

(** Version 2's auth chain difference, on an acyclic auth graph: the search returns, and
    the result is the store's difference for the persisted parts of the states together with
    the unpersisted events that the auth chains of some but not all of the states reach. *)
Theorem auth_chain_difference_spec `{SetOrder, StateResolutionStore} room sets unp rank :
  dict_wf unp -> ids_ok unp -> unp_ranked unp rank -> sets <> [] ->
  (forall ids, conflicted_subgraph (get_auth_chain_difference room ids None []) = None) ->
  exists fuel0, forall fuel, (fuel0 <= fuel)%nat ->
    V2._get_auth_chain_difference fuel room sets unp None <> Err OutOfFuel /\
    forall diff, V2._get_auth_chain_difference fuel room sets unp None = Ok diff ->
    exists ids, Forall2 (fun s l => forall x, x ∈ l <-> persisted_part unp s x) sets ids /\
      forall x, x ∈ diff <->
        x ∈ auth_difference (get_auth_chain_difference room ids None []) \/
        (dmem x unp = true /\ (exists s, s ∈ sets /\ state_reaches unp s x) /\
         exists s, s ∈ sets /\ ~ state_reaches unp s x).
Proof.
  intros Hwf Hids Hr Hne Hsub. destruct (auth_chains_fuel unp rank Hids Hwf Hr) as [f Hf].
  exists f. intros fuel Hle. split.
  - unfold V2._get_auth_chain_difference. simpl.
    intros [He|([ch nx] & _ & He)]%rbind_err; [by apply (Hf fuel Hle) in He|].
    apply rbind_err in He as [He|([[[ids part] uc] add] & _ & He)].
    + destruct (V2.is_nonempty unp); [|done].
      destruct (V2.unpersisted_conflicts unp ch []) as [uc add].
      apply rbind_err in He as [He|(part & _ & He)]; [|done].
      by destruct sets.
    + apply rbind_err in He as [He|(sg & _ & He)]; [|done].
      by destruct (conflicted_subgraph _).
  - intros diff Hd. destruct (difference_v2 fuel room sets unp diff Hwf Hids Hd) as (ids & Hf2 & Hx).
    exists ids. split; [done|]. intros x. rewrite Hx, Hsub. simpl. rewrite elem_of_nil. tauto.
Qed.
