(* ===== verification/StateV2Mainline.v ===== *)
(** * StateV2Mainline: the mainline ordering of version 2

    The mainline is specified as a relation on the events the resolution can see: the
    power-levels event, the power-levels event among its auth events, and so on.  The depth
    of an event is the position, counted from the old end, of the first mainline event on
    its own chain of power-levels events, and 0 when there is none. *)
From S2P Require Import Prelude PyVal PySort RoomVersionTable Identifiers Events EventAuthLevels.
From S2P Require Import SetkaChannels EventAuthPower EventAuthMembership EventAuth.
From S2P Require Import StateV1 TopoSort StateV2 StateV2Safety.
Open Scope string_scope.
Open Scope list_scope.
Open Scope Z_scope.
Open Scope py_scope.

(** A store that answers a query about one event as it answers any other query about it. *)
Class StableStore `{StateResolutionStore} := {
  get_events_stable : forall ids i e, (i, e) ∈ get_events ids -> dget i (get_events [i]) = Some e
}.

(** ** The specification *)

Section spec.
Variable lookup : string -> option event.

(** The first power-levels event among the auth events of [e]. *)
Definition as_power (a : string) : option (string * event) :=
  match lookup a with
  | Some e => if bool_decide (event_key e = Ok POWER_KEY) then Some (a, e) else None
  | None => None
  end.

Definition power_parent (e : event) : option (string * event) :=
  match auth_event_ids e with Ok aids => head (omap as_power aids) | Err _ => None end.

Inductive mainline_of : option string -> list string -> Prop :=
  | MainlineEnd : mainline_of None []
  | MainlineEmpty : mainline_of (Some "") []
  | MainlineEvent p e l :
      p <> "" -> lookup p = Some e -> mainline_of (fst <$> power_parent e) l ->
      mainline_of (Some p) (p :: l).

(** The position of an ID on the mainline, 1 at its old end. *)
Fixpoint depth_on (mainline : list string) (i : string) : option Z :=
  match mainline with
  | [] => None
  | p :: l => if decide (i = p) then Some (Z.of_nat (List.length mainline)) else depth_on l i
  end.

Inductive mainline_depth (mainline : list string) : event -> Z -> Prop :=
  | DepthHere e d : depth_on mainline (event_id e) = Some d -> mainline_depth mainline e d
  | DepthUp e a e' d :
      depth_on mainline (event_id e) = None -> power_parent e = Some (a, e') ->
      mainline_depth mainline e' d -> mainline_depth mainline e d
  | DepthOff e :
      depth_on mainline (event_id e) = None -> power_parent e = None ->
      mainline_depth mainline e 0.
End spec.

Lemma combine_snoc {A B} (l : list A) (l' : list B) x y :
  List.length l = List.length l' -> combine (l ++ [x]) (l' ++ [y]) = combine l l' ++ [(x, y)].
Proof. revert l'. induction l as [|a l IH]; intros [|b l'] Hl; simplify_eq/=; [done|]. by rewrite IH. Qed.

Lemma mainline_positions_spec l i : dget i (V2.mainline_positions l) = depth_on l i.
Proof.
  induction l as [|p l IH]; [done|].
  assert (Hs : V2.mainline_positions (p :: l) =
               dset p (Z.of_nat (List.length (p :: l))) (V2.mainline_positions l)).
  { unfold V2.mainline_positions. simpl List.length. rewrite seq_S. simpl rev.
    rewrite combine_snoc by (by rewrite length_seq, length_rev).
    rewrite fold_left_app. simpl. f_equal. lia. }
  rewrite Hs, dget_dset, IH. simpl. by destruct (decide (i = p)).
Qed.

(** ** What the resolution sees *)

Section view.
Context `{Netaddr, PyRepr, SetOrder, SignedJson, StoreLaws, !StableStore}.

Lemma dupdate_covers {V} i (l d : list (string * V)) :
  i ∈ map fst l -> exists e, dget i (dupdate d l) = Some e.
Proof.
  intros Hi. unfold dupdate. induction l as [|[j e] l IH] using rev_ind; [by apply elem_of_nil in Hi|].
  rewrite fold_left_app. simpl. rewrite dget_dset. destruct (decide (i = j)); [by eexists|].
  apply IH. rewrite map_app, elem_of_app in Hi. destruct Hi as [|Hi]; [done|].
  simpl in Hi. by apply list_elem_of_singleton in Hi.
Qed.

(** An event of the map, or else what the store says. *)
Definition view (m : EventMap) (i : string) : option event :=
  match dget i m with Some e => Some e | None => dget i (get_events [i]) end.

Lemma view_grows m m' i : grows m m' -> view m' i = view m i.
Proof.
  intros [He Hs]. unfold view. destruct (dget i m) as [e|] eqn:Hi; [by rewrite (He i e Hi)|].
  destruct (dget i m') as [e|] eqn:Hi'; [|done].
  destruct (Hs i e Hi') as [?|[ids Hin]]; [congruence|]. symmetry. by eapply get_events_stable.
Qed.

Lemma get_event_opt_view room i m o m' : V2.get_event_opt room i m = Ok (o, m') -> o = view m i.
Proof.
  intros Hg. pose proof (get_event_opt_ok _ _ _ _ _ Hg) as (Hgr & -> & _).
  rewrite <- (view_grows _ _ i Hgr). unfold view. destruct (dget i m') as [e|] eqn:Hi; [done|].
  destruct (dget i (get_events [i])) as [e|] eqn:Hst; [|done]. exfalso.
  assert (Hm : dget i m = None).
  { destruct (dget i m) as [e0|] eqn:Hd; [|done]. destruct Hgr as [He _].
    by rewrite (He i e0 Hd) in Hi. }
  unfold V2.get_event_opt in Hg. unfold dmem in Hg. rewrite Hm in Hg. simpl in Hg.
  assert (Hm1 : exists e1, dget i (dupdate m (get_events [i])) = Some e1).
  { apply dupdate_covers, list_elem_of_fmap. exists (i, e). split; [done|]. by apply dget_in. }
  destruct Hm1 as [e1 Hm1]. rewrite Hm1 in Hg.
  apply rbind_ok in Hg as (r & _ & Hg). destruct (negb _); [done|]. injection Hg as _ <-. congruence.
Qed.

Lemma get_event_view room i m e m' : V2._get_event room i m = Ok (e, m') -> view m i = Some e.
Proof.
  unfold V2._get_event. intros Hg. apply rbind_ok in Hg as ([[e'|] m1] & Hg & Hr); [|done].
  injection Hr as -> ->. by apply get_event_opt_view in Hg.
Qed.

Lemma as_power_grows m m' a : grows m m' -> as_power (view m') a = as_power (view m) a.
Proof. intros Hg. unfold as_power. by rewrite (view_grows _ _ a Hg). Qed.

Lemma omap_power_grows m m' (aids : list string) :
  grows m m' -> omap (as_power (view m')) aids = omap (as_power (view m)) aids.
Proof.
  intros Hg. apply list_omap_ext, Forall_Forall2_diag, Forall_forall.
  intros a _. by apply as_power_grows.
Qed.

Lemma first_power_event_view room aids m o m' :
  V2.first_power_event room aids m = Ok (o, m') -> o = head (omap (as_power (view m)) aids).
Proof.
  revert m. induction aids as [|a aids IH]; intros m Hf; simpl in Hf; [by injection Hf as <- _|].
  apply rbind_ok in Hf as ([ev m1] & Hg & Hf).
  pose proof (get_event_opt_view _ _ _ _ _ Hg) as Hv.
  pose proof (get_event_opt_grows _ _ _ _ _ Hg) as Hgr.
  pose proof (omap_power_grows _ _ aids Hgr) as Hext.
  csimpl. unfold as_power at 1. rewrite <- Hv. destruct ev as [ev|].
  - apply rbind_ok in Hf as (k & Hk & Hf). rewrite Hk.
    destruct (bool_decide (k = POWER_KEY)) eqn:Hb.
    + apply bool_decide_eq_true in Hb as ->. rewrite bool_decide_true by done.
      by injection Hf as <- _.
    + apply bool_decide_eq_false in Hb. rewrite bool_decide_false by congruence.
      rewrite <- Hext. by apply IH in Hf.
  - rewrite <- Hext. by apply IH in Hf.
Qed.

Lemma power_parent_grows m m' e : grows m m' -> power_parent (view m') e = power_parent (view m) e.
Proof.
  intros Hg. unfold power_parent. destruct (auth_event_ids e) as [aids|]; [|done]. by rewrite (omap_power_grows _ _ aids Hg).
Qed.

Lemma mainline_of_grows m m' pl l :
  grows m m' -> mainline_of (view m') pl l -> mainline_of (view m) pl l.
Proof.
  intros Hg. induction 1 as [| |p e l Hp Hl Hm IH]; [constructor..|].
  rewrite (view_grows _ _ p Hg) in Hl. rewrite (power_parent_grows _ _ e Hg) in IH.
  by econstructor.
Qed.

Lemma mainline_loop_spec fuel room pl m l m' :
  V2.mainline_loop fuel room pl m = Ok (l, m') -> mainline_of (view m) pl l.
Proof.
  revert pl m l m'. induction fuel as [|fuel IH]; intros [p|] m l m' Hm; simpl in Hm;
    try (injection Hm as <- _; constructor); destruct (String.eqb_spec p "") as [->|Hp];
    try (injection Hm as <- _; constructor); [done|].
  apply rbind_ok in Hm as ([e m1] & He & Hm).
  pose proof (get_event_view _ _ _ _ _ He) as Hv. apply get_event_grows in He.
  apply rbind_ok in Hm as (aids & Ha & Hm). apply rbind_ok in Hm as ([nx m2] & Hf & Hm).
  pose proof (first_power_event_view _ _ _ _ _ Hf) as Hnx. apply first_power_event_grows in Hf.
  apply rbind_ok in Hm as ([rest m3] & Hrest & [= <- _]). apply IH in Hrest.
  assert (Hpar : power_parent (view m) e = nx).
  { rewrite <- (power_parent_grows _ _ e He). unfold power_parent. by rewrite Ha. }
  econstructor; [done|exact Hv|]. rewrite Hpar. eapply mainline_of_grows; [|exact Hrest].
  by etransitivity.
Qed.

Lemma mainline_depth_view m m' ml e d :
  grows m m' -> mainline_depth (view m') ml e d -> mainline_depth (view m) ml e d.
Proof.
  intros Hg. induction 1 as [e d Hd|e a e' d Hd Hp Hm IH|e Hd Hp]; [by constructor|..];
    rewrite (power_parent_grows _ _ _ Hg) in Hp; by econstructor.
Qed.

Lemma mainline_depth_loop_spec fuel room ml e m d m' :
  V2.mainline_depth_loop fuel room (V2.mainline_positions ml) (Some e) m = Ok (d, m') ->
  mainline_depth (view m) ml e d.
Proof.
  revert e m. induction fuel as [|fuel IH]; intros e m Hm; simpl in Hm;
    rewrite mainline_positions_spec in Hm; destruct (depth_on ml (event_id e)) as [d0|] eqn:Hd;
    try (injection Hm as <- _; by constructor); [done|].
  apply rbind_ok in Hm as (aids & Ha & Hm). apply rbind_ok in Hm as ([nx m1] & Hf & Hm).
  pose proof (first_power_event_view _ _ _ _ _ Hf) as Hnx. apply first_power_event_grows in Hf.
  assert (Hpar : power_parent (view m) e = nx) by (unfold power_parent; by rewrite Ha).
  destruct nx as [[a e']|].
  - simpl in Hm. apply IH in Hm. econstructor; [done|exact Hpar|]. by eapply mainline_depth_view.
  - destruct fuel; simpl in Hm; injection Hm as <- _; by constructor.
Qed.

(** The sort: the mainline's depth, then the timestamp, then the ID. *)
Lemma mainline_sort_spec fuel room ids pl m l m' :
  V2._mainline_sort fuel room ids pl m = Ok (l, m') -> ids <> [] ->
  exists ml (order : string -> Z * (Z * string)),
    mainline_of (view m) pl ml /\ StronglySorted (le_by order) l /\
    forall i, i ∈ ids -> exists e d, view m i = Some e /\ mainline_depth (view m) ml e d /\
      order i = (d, (origin_server_ts e, i)).
Proof.
  unfold V2._mainline_sort. destruct ids as [|i0 ids0]; [done|].
  intros Hs _. apply rbind_ok in Hs as ([ml m1] & Hm & Hs).
  apply rbind_ok in Hs as ([om m2] & Ho & [= <- <-]).
  pose proof (mainline_loop_grows _ _ _ _ _ _ Hm) as Hg. apply mainline_loop_spec in Hm.
  apply order_map_ok in Ho as (Hg2 & Hall & _).
  exists ml, (V2.order_key om). split; [done|].
  split; [exact (sorted_by_sorted (V2.order_key om) (i0 :: ids0))|].
  intros i Hi. destruct (Hall i Hi) as (e & d & m3 & m4 & He & Hg3 & Hd & Hk).
  exists e, d. split_and!.
  - rewrite <- (view_grows m m2 i) by (by etransitivity). unfold view. by rewrite He.
  - unfold V2._get_mainline_depth_for_event in Hd. apply rbind_ok in Hd as (r & _ & Hd).
    apply mainline_depth_loop_spec in Hd. eapply mainline_depth_view; [|exact Hd]. by etransitivity.
  - unfold V2.order_key. by rewrite Hk.
Qed.
End view.
