(* ===== verification/StateV2Total.v ===== *)
(** * StateV2Total: version 2 state resolution terminates

    On an acyclic auth graph every loop of the resolution reaches its end, so the whole
    resolution has a result, which does not depend on the fuel once there is enough. *)
From S2P Require Import Prelude PyVal PySort RoomVersionTable Identifiers Events EventAuthLevels.
From S2P Require Import SetkaChannels EventAuthPower EventAuthMembership EventAuth EventAuthTotal.
From S2P Require Import StateV1 StateV1Safety TopoSort StateV2 StateV2Safety.
From S2P Require Import StateV2Mainline StateV2Chains.
Open Scope string_scope.
Open Scope list_scope.
Open Scope Z_scope.
Open Scope py_scope.

(** ** Computations that take fuel *)

(** With enough fuel the result is [r], whatever the fuel. *)
Definition converges_to {A} (f : nat -> result A) (r : result A) : Prop :=
  r <> Err OutOfFuel /\ exists n, forall m, (n <= m)%nat -> f m = r.

Definition converges {A} (f : nat -> result A) : Prop := exists r, converges_to f r.

Lemma conv_const {A} (r : result A) : no_fuel r -> converges (fun _ => r).
Proof. intros Hr. exists r. split; [done|]. by exists 0%nat. Qed.

Lemma conv_shift {A} (f : nat -> result A) : converges (fun m => f (S m)) -> converges f.
Proof.
  intros (r & Hr & n & Hn). exists r. split; [done|]. exists (S n). intros [|m] Hm; [lia|].
  apply Hn. lia.
Qed.

Lemma conv_ext {A} (f g : nat -> result A) : (forall m, f m = g m) -> converges g -> converges f.
Proof.
  intros Hfg (r & Hr & n & Hn). exists r. split; [done|]. exists n. intros m Hm.
  rewrite Hfg. by apply Hn.
Qed.

Lemma conv_bind {A B} (f : nat -> result A) (k : nat -> A -> result B) :
  converges f -> (forall a, (exists n, f n = Ok a) -> converges (fun m => k m a)) ->
  converges (fun m => rbind (f m) (k m)).
Proof.
  intros ([a|e] & Hr & n & Hn) Hk.
  - destruct (Hk a) as (r & Hr2 & n2 & Hn2); [exists n; by apply Hn|].
    exists r. split; [done|]. exists (max n n2). intros m Hm. rewrite Hn by lia. apply Hn2. lia.
  - exists (Err e). split; [by intros [= ->]|]. exists n. intros m Hm. by rewrite Hn.
Qed.

(** A fold keeps an invariant of its state. *)
Lemma conv_rfold {A St} (inv : St -> Prop) (f : nat -> St -> A -> result St) l s :
  inv s -> (forall s x, inv s -> x ∈ l -> converges (fun m => f m s x)) ->
  (forall n s x s', inv s -> x ∈ l -> f n s x = Ok s' -> inv s') ->
  converges (fun m => rfold (f m) s l).
Proof.
  intros Hs Hf Hi. revert s Hs. induction l as [|x l IH]; intros s Hs.
  - exact (conv_const (Ok s) (nf_ok s)).
  - cbn [rfold]. apply conv_bind; [apply Hf; [done|by left]|]. intros s' (n & Hn). apply IH.
    + intros s1 y Hs1 Hy. apply Hf; [done|by right].
    + intros n1 s1 y s2 Hs1 Hy. apply Hi; [done|by right].
    + eapply Hi; [exact Hs|by left|exact Hn].
Qed.

(** ** The cost of a search *)

Section cost.
Context (succ : string -> list string) (rank : string -> nat).
Hypothesis succ_ranked : forall i a, a ∈ succ i -> (rank a < rank i)%nat.

(** The number of times a search without a visited set looks at a node reachable from [i]. *)
Fixpoint paths (n : nat) (i : string) : nat :=
  match n with
  | O => 1
  | S n => S (sum_list_with (paths n) (succ i))
  end.

Definition cost (i : string) : nat := paths (rank i) i.

Lemma sum_list_le {A} (f g : A -> nat) l :
  (forall x, x ∈ l -> (f x <= g x)%nat) -> (sum_list_with f l <= sum_list_with g l)%nat.
Proof.
  induction l as [|x l IH]; intros Hf; simpl; [lia|].
  pose proof (Hf x (list_elem_of_here _ _)). assert (Hl : (sum_list_with f l <= sum_list_with g l)%nat); [|lia].
  apply IH. intros y Hy. apply Hf. by right.
Qed.

Lemma paths_mono n n' i : (n <= n')%nat -> (paths n i <= paths n' i)%nat.
Proof.
  revert n' i. induction n as [|n IH]; intros [|n'] i Hn; simpl; try lia.
  assert (Hl : (sum_list_with (paths n) (succ i) <= sum_list_with (paths n') (succ i))%nat); [|lia].
  apply sum_list_le. intros x _. apply IH. lia.
Qed.

Lemma cost_succ i : (S (sum_list_with cost (succ i)) <= cost i)%nat.
Proof.
  unfold cost at 2. destruct (rank i) as [|r] eqn:Hr.
  - destruct (succ i) as [|a l] eqn:Hs; simpl; [lia|].
    specialize (succ_ranked i a). rewrite Hs in succ_ranked.
    specialize (succ_ranked (list_elem_of_here _ _)). lia.
  - cbn [paths]. apply le_n_S, sum_list_le. intros a Ha. unfold cost. apply paths_mono.
    specialize (succ_ranked i a Ha). lia.
Qed.

Lemma cost_pos i : (1 <= cost i)%nat.
Proof. pose proof (cost_succ i). lia. Qed.
End cost.

Lemma sum_list_perm (f : string -> nat) l l' : l ≡ₚ l' -> sum_list_with f l = sum_list_with f l'.
Proof. induction 1; simpl; lia. Qed.

Lemma sum_list_union (f : string -> nat) a b :
  (sum_list_with f (set_union a b) <= sum_list_with f a + sum_list_with f b)%nat.
Proof.
  unfold set_union. revert a. induction b as [|x b IH]; intros a; simpl; [lia|].
  etransitivity; [apply IH|]. unfold set_add. case_bool_decide; [lia|].
  rewrite sum_list_with_app. simpl. lia.
Qed.

(** ** The auth chains of unpersisted events *)

Section chains.
Context (unp : EventMap) (rank : string -> nat).
Hypothesis unp_ids : ids_ok unp.
Hypothesis unp_rank : unp_ranked unp rank.

(** The unpersisted auth events of an unpersisted event. *)
Definition unp_succ (i : string) : list string :=
  match dget i unp with
  | Some e => match auth_event_ids e with
              | Ok aids => filter (fun a => dmem a unp = true) aids
              | Err _ => []
              end
  | None => []
  end.

Lemma unp_succ_ranked i a : a ∈ unp_succ i -> (rank a < rank i)%nat.
Proof.
  unfold unp_succ. destruct (dget i unp) as [e|] eqn:He; [|by intros ?%elem_of_nil].
  destruct (auth_event_ids e) as [aids|] eqn:Ha; [|by intros ?%elem_of_nil].
  intros [_ Hin]%list_elem_of_filter. by eapply unp_rank.
Qed.

Definition in_unp (e : event) : Prop := dget (event_id e) unp = Some e.
Definition stack_cost (st : list event) : nat :=
  sum_list_with (fun e => cost unp_succ rank (event_id e)) st.

(** Forward links lead to unpersisted events that name their source. *)
Definition nexts_ok (nexts : list (string * list string)) : Prop :=
  forall i n, n ∈ default [] (dget i nexts) ->
    exists e aids, dget n unp = Some e /\ auth_event_ids e = Ok aids /\ i ∈ aids.

Lemma chain_steps_cost nid aids chain nexts st :
  Forall in_unp st ->
  (exists e all, dget nid unp = Some e /\ auth_event_ids e = Ok all /\ forall a, a ∈ aids -> a ∈ all) ->
  nexts_ok nexts ->
  let '(_, nexts', st') := fold_left (V2.chain_step unp nid) aids (chain, nexts, st) in
  Forall in_unp st' /\ nexts_ok nexts' /\
  stack_cost st' =
    (sum_list_with (cost unp_succ rank) (filter (fun a => dmem a unp = true) aids) + stack_cost st)%nat.
Proof.
  intros Hst (e & all & He & Hall & Hsub). revert chain nexts st Hst.
  induction aids as [|a aids IH]; intros chain nexts st Hst Hn; simpl; [done|].
  assert (Hn' : nexts_ok (setdefault_add a nid nexts)).
  { intros i n. unfold setdefault_add. rewrite dget_dset. case_decide; [subst i|by apply Hn].
    simpl. rewrite elem_of_set_add. intros [->|Hin]; [|by apply Hn].
    exists e, all. split_and!; [done|done|]. apply Hsub. by left. }
  destruct (dget a unp) as [e'|] eqn:Ha.
  - assert (Hid : event_id e' = a) by (by apply unp_ids).
    specialize (IH ltac:(intros x Hx; apply Hsub; by right) (set_add a chain)
                  (setdefault_add a nid nexts) (e' :: st)).
    rewrite filter_cons, decide_True by (unfold dmem; by rewrite Ha).
    destruct (fold_left _ _ _) as [[c n] st']. destruct IH as (? & ? & Hc); [|done|].
    { constructor; [|done]. unfold in_unp. by rewrite Hid. }
    split_and!; [done|done|]. rewrite Hc. unfold stack_cost. simpl. rewrite Hid. lia.
  - specialize (IH ltac:(intros x Hx; apply Hsub; by right) (set_add a chain)
                  (setdefault_add a nid nexts) st Hst Hn').
    rewrite filter_cons, decide_False by (unfold dmem; by rewrite Ha). done.
Qed.

Lemma chain_search_conv st chain nexts :
  Forall in_unp st -> nexts_ok nexts ->
  converges (fun fuel => V2.chain_search fuel unp st chain nexts).
Proof.
  remember (stack_cost st) as w eqn:Hw. revert st chain nexts Hw.
  induction w as [w IH] using lt_wf_ind. intros [|e st] chain nexts Hw Hst Hn;
    apply conv_shift; cbn [V2.chain_search].
  - apply conv_const, nf_ok.
  - apply Forall_cons in Hst as [He Hst].
    apply conv_bind; [apply conv_const, nf_auth_event_ids|]. intros aids (_ & Ha).
    pose proof (chain_steps_cost (event_id e) aids chain nexts st Hst) as Hc.
    destruct (fold_left _ _ _) as [[c n] st']. destruct Hc as (Hst' & Hn' & Hc); [eauto|done|].
    eapply (IH (stack_cost st')); [|done|done|done]. rewrite Hw, Hc. unfold stack_cost at 2. simpl.
    pose proof (cost_succ unp_succ rank unp_succ_ranked (event_id e)) as Hs.
    unfold unp_succ in Hs at 2. rewrite He, Ha in Hs. unfold stack_cost. lia.
Qed.

Lemma chain_search_nexts fuel st chain nexts chain' nexts' :
  Forall in_unp st -> nexts_ok nexts ->
  V2.chain_search fuel unp st chain nexts = Ok (chain', nexts') -> nexts_ok nexts'.
Proof.
  revert st chain nexts. induction fuel as [|fuel IH]; intros [|e st] chain nexts Hst Hn Hc;
    simpl in Hc; try (by injection Hc as _ <-); [done|].
  apply Forall_cons in Hst as [He Hst].
  apply rbind_ok in Hc as (aids & Ha & Hc).
  pose proof (chain_steps_cost (event_id e) aids chain nexts st Hst) as Hs.
  destruct (fold_left _ _ _) as [[c n] st']. destruct Hs as (Hst' & Hn' & _); [eauto|done|].
  by eapply IH.
Qed.

Lemma auth_chains_conv :
  dict_wf unp -> converges (fun fuel => V2.auth_chains fuel unp).
Proof.
  intros Hwf. unfold V2.auth_chains.
  assert (Hin : forall e, e ∈ dvals unp -> in_unp e) by (intros e He; by apply dvals_get).
  apply (conv_rfold (fun st => nexts_ok (snd st))).
  - intros i n. simpl. by rewrite elem_of_nil.
  - intros [ch nx] e Hn He. simpl in Hn. apply conv_bind; [|intros [? ?] _; apply conv_const, nf_ok].
    apply chain_search_conv; [|done]. constructor; [by apply Hin|constructor].
  - intros n [ch nx] e [ch' nx'] Hn He Hs. simpl in Hn |- *.
    apply rbind_ok in Hs as ([c nx1] & Hs & [= _ <-]).
    eapply chain_search_nexts; [|exact Hn|exact Hs]. constructor; [by apply Hin|constructor].
Qed.

Lemma auth_chains_nexts fuel ch nx :
  dict_wf unp -> V2.auth_chains fuel unp = Ok (ch, nx) -> nexts_ok nx.
Proof.
  intros Hwf. unfold V2.auth_chains.
  assert (Hin : forall e, e ∈ dvals unp -> in_unp e) by (intros e He; by apply dvals_get).
  assert (Hst : nexts_ok []) by (intros i n; simpl; by rewrite elem_of_nil).
  revert Hin Hst. generalize (@nil (string * list string)) at 1 3 as nx0.
  generalize (@nil (string * list string)) as ch0. generalize (dvals unp) as l.
  induction l as [|e l IH]; intros ch0 nx0 Hin Hst Hr; simpl in Hr; [by injection Hr as _ <-|].
  apply rbind_ok in Hr as ([ch1 nx1] & Hs & Hr). apply rbind_ok in Hs as ([c nx2] & Hs & [= <- <-]).
  eapply IH; [| |exact Hr].
  - intros e' He'. apply Hin. by right.
  - eapply chain_search_nexts; [|exact Hst|exact Hs]. constructor; [apply Hin; by left|constructor].
Qed.

(** ** The forward search of version 2.1 *)

Definition top_rank : nat := S (sum_list_with rank (dkeys unp)).

Lemma top_rank_above i e : dget i unp = Some e -> (rank i < top_rank)%nat.
Proof.
  intros Hi. unfold top_rank. assert (Hin : i ∈ dkeys unp).
  { apply dget_in in Hi. apply list_elem_of_fmap. by exists (i, e). }
  induction (dkeys unp) as [|j l IH]; [by apply elem_of_nil in Hin|]. simpl.
  apply elem_of_cons in Hin as [->|Hin]; [lia|]. specialize (IH Hin). lia.
Qed.

Lemma forward_search_conv `{SetOrder} nexts queue forwards :
  nexts_ok nexts -> converges (fun fuel => V2.forward_search fuel nexts queue forwards).
Proof.
  intros Hn. set (succ := fun i => default [] (dget i nexts)).
  assert (Hsucc : forall i a, a ∈ succ i -> (top_rank - rank a < top_rank - rank i)%nat).
  { intros i a Ha. apply Hn in Ha as (e & aids & He & Ha & Hi).
    pose proof (top_rank_above _ _ He). pose proof (unp_rank _ _ _ _ He Ha Hi). lia. }
  set (w := cost succ (fun i => top_rank - rank i)%nat).
  remember (sum_list_with w queue) as c eqn:Hc. revert queue forwards Hc.
  induction c as [c IH] using lt_wf_ind. intros queue forwards Hc.
  apply conv_shift. cbn [V2.forward_search].
  destruct (set_iter queue) as [|x rest] eqn:Hq; [apply conv_const, nf_ok|].
  eapply (IH (sum_list_with w (set_union rest (succ x)))); [|done].
  assert (Hsum : sum_list_with w queue = (w x + sum_list_with w rest)%nat).
  { rewrite <- (sum_list_perm w _ _ (set_iter_perm queue)), Hq. done. }
  pose proof (sum_list_union w rest (succ x)).
  pose proof (cost_succ succ (fun i => top_rank - rank i)%nat Hsucc x). subst w. lia.
Qed.

Lemma difference_conv `{SetOrder, StateResolutionStore} room sets c :
  dict_wf unp -> converges (fun fuel => V2._get_auth_chain_difference fuel room sets unp c).
Proof.
  intros Hwf. unfold V2._get_auth_chain_difference.
  apply conv_bind; [by apply auth_chains_conv|]. intros [chains nexts] (n & Hch).
  apply auth_chains_nexts in Hch; [|done].
  apply conv_bind.
  { apply conv_const. unfold V2.union_minus_intersection. nofuel. }
  intros [[[ids part] unpc] add] _.
  apply conv_bind; [|intros; apply conv_const, nf_ok].
  destruct (conflicted_subgraph _) as [sub|]; [|apply conv_const, nf_ok].
  destruct (is_Some_b c && _); [|apply conv_const, nf_ok].
  apply conv_bind; [|intros; apply conv_const, nf_ok].
  unfold V2.extend_subgraph. apply conv_bind; [by apply forward_search_conv|].
  intros; apply conv_const, nf_ok.
Qed.
End chains.

(** ** The steps without loops *)

Section steps.
Context `{Netaddr, PyRepr, SetOrder, SignedJsonLaws, StateResolutionStore}.

Lemma nf_get_event_opt room i m : no_fuel (V2.get_event_opt room i m).
Proof. apply get_event_opt_fuel. Qed.
#[local] Hint Resolve nf_get_event_opt : nofuel.

Lemma nf_get_event room i m : no_fuel (V2._get_event room i m).
Proof. apply get_event_fuel. Qed.
#[local] Hint Resolve nf_get_event : nofuel.

Lemma nf_first_power_event room aids m : no_fuel (V2.first_power_event room aids m).
Proof. apply first_power_event_fuel. Qed.
#[local] Hint Resolve nf_first_power_event : nofuel.

Lemma nf_is_power_event e : no_fuel (V2._is_power_event e).
Proof. unfold V2._is_power_event. nofuel. Qed.

Lemma nf_creator_level room e aids m : no_fuel (V2.creator_level room e aids m).
Proof. revert m. induction aids as [|aid aids IH]; intros m; simpl; nofuel. Qed.
#[local] Hint Resolve nf_creator_level : nofuel.

Lemma nf_power_levels_of room ids m : no_fuel (V2.power_levels_of room ids m).
Proof.
  unfold V2.power_levels_of, V2._get_power_level_for_sender, V2.find_pl_create, V2.level_from_pl.
  nofuel.
Qed.

Lemma nf_iterative_checks room rv ids st m : no_fuel (V2._iterative_auth_checks room rv ids st m).
Proof.
  unfold V2._iterative_auth_checks, V2.iterative_step, V2.own_auth_events, V2.state_auth_events.
  nofuel.
Qed.

Lemma nf_check_room room m : no_fuel (check_room room m).
Proof. unfold check_room. nofuel. Qed.
End steps.
#[export] Hint Resolve nf_get_event_opt nf_get_event nf_first_power_event nf_is_power_event
  nf_power_levels_of nf_iterative_checks nf_check_room : nofuel.

(** ** The loops over the event map *)

Section loops.
Context `{Netaddr, PyRepr, SetOrder, SignedJsonLaws, StoreLaws, !StableStore}.
Context (rank : string -> nat) (m0 : EventMap).
Hypothesis m0_ranked : known_ranked rank m0.

(** The auth events of an event the resolution can see. *)
Definition view_succ (i : string) : list string :=
  match view m0 i with
  | Some e => match auth_event_ids e with Ok aids => aids | Err _ => [] end
  | None => []
  end.

Lemma view_known i e : view m0 i = Some e -> known m0 i e.
Proof.
  unfold view. destruct (dget i m0) as [e'|] eqn:Hi; intros Hv; [by left; injection Hv as <-|].
  right. exists [i]. by apply dget_in.
Qed.

Lemma view_succ_ranked i a : a ∈ view_succ i -> (rank a < rank i)%nat.
Proof.
  unfold view_succ. destruct (view m0 i) as [e|] eqn:Hv; [|by intros ?%elem_of_nil].
  destruct (auth_event_ids e) as [aids|] eqn:Ha; [|by intros ?%elem_of_nil].
  intros Hin. by eapply m0_ranked; [apply view_known|..].
Qed.

Lemma edges_cost full eid aids g st :
  (sum_list_with (cost view_succ rank) (snd (fold_left (V2.graph_edge_step full eid) aids (g, st))) <=
   sum_list_with (cost view_succ rank) aids + sum_list_with (cost view_succ rank) st)%nat.
Proof.
  revert g st. induction aids as [|a aids IH]; intros g st; simpl; [lia|].
  case_bool_decide; [|etransitivity; [apply IH|lia]].
  etransitivity; [apply IH|]. destruct (dmem a g); simpl; lia.
Qed.

Lemma graph_loop_conv room full st g m :
  grows m0 m -> converges (fun fuel => V2.graph_loop fuel room full st g m).
Proof.
  remember (sum_list_with (cost view_succ rank) st) as w eqn:Hw. revert st g m Hw.
  induction w as [w IH] using lt_wf_ind. intros [|i st] g m Hw Hm;
    apply conv_shift; cbn [V2.graph_loop]; [apply conv_const, nf_ok|].
  apply conv_bind; [apply conv_const, nf_get_event|]. intros [e m1] (_ & He).
  pose proof (get_event_view _ _ _ _ _ He) as Hv. rewrite (view_grows _ _ i Hm) in Hv.
  apply get_event_grows in He.
  apply conv_bind; [apply conv_const, nf_auth_event_ids|]. intros aids (_ & Ha).
  pose proof (edges_cost full i aids (setdefault_set i g) st) as Hc.
  destruct (fold_left _ _ _) as [g' st']. simpl in Hc.
  eapply (IH (sum_list_with (cost view_succ rank) st')); [|done|by etransitivity].
  pose proof (cost_succ view_succ rank view_succ_ranked i) as Hs.
  unfold view_succ in Hs at 2. rewrite Hv, Ha in Hs. rewrite Hw. simpl. lia.
Qed.

Lemma power_order_sorts room full g m1 pls m2 :
  graph_inv full [] g m1 -> V2.power_levels_of room (dkeys g) m1 = Ok (pls, m2) ->
  exists l, lexicographical_topological_sort (V2.power_order m2 pls) g = Ok l.
Proof.
  intros Hinv Hp. pose proof (power_levels_of_grows _ _ _ _ _ Hp) as Hgr.
  apply (graph_inv_grows _ _ _ _ _ Hgr) in Hinv.
  set (qkey := fun n : string => match dget n m2, dget n pls with
    | Some ev, Some pl => (- pl, (origin_server_ts ev, n)) | _, _ => (0, (0, n)) end).
  destruct (lex_sort_greedy (V2.power_order m2 pls) qkey g (proj1 Hinv)) as (res & Hres & _);
    [|by exists res].
  intros n Hn. unfold V2.power_order, qkey.
  pose proof (power_levels_of_dom _ _ _ _ _ n Hp Hn) as Hd. unfold dmem in Hd.
  apply gnodes_get in Hn. destruct Hinv as [_ Hinv].
  destruct (Hinv n _ Hn) as (_ & (e & aids & -> & _) & _). by destruct (dget n pls).
Qed.

Lemma power_sort_conv room full m :
  grows m0 m -> converges (fun fuel => V2._reverse_topological_power_sort fuel room full m).
Proof.
  intros Hm. unfold V2._reverse_topological_power_sort. apply conv_bind.
  - unfold V2.power_graph. apply (conv_rfold (fun st => grows m0 (snd st))); [done|..].
    + intros [g m1] i Hg _. simpl in Hg |- *. destruct (dget i m1) as [e|]; [|by apply conv_const].
      apply conv_bind; [apply conv_const, nf_is_power_event|]. intros [] _.
      * by apply graph_loop_conv.
      * apply conv_const, nf_ok.
    + intros n [g m1] i [g' m2] Hg _ Hs. simpl in Hg, Hs |- *.
      destruct (dget i m1) as [e|]; [|done]. apply rbind_ok in Hs as ([] & _ & Hs).
      * apply graph_loop_grows in Hs. by etransitivity.
      * by injection Hs as _ <-.
  - intros [g m1] (n & Hg).
    apply power_graph_inv in Hg as [Hinv _]; [|intros x; by rewrite set_iter_perm].
    apply conv_bind; [apply conv_const, nf_power_levels_of|]. intros [pls m2] (_ & Hp).
    apply conv_bind; [|intros; apply conv_const, nf_ok]. apply conv_const.
    destruct (power_order_sorts room full g m1 pls m2 Hinv Hp) as [l ->]. done.
Qed.

(** ** The mainline *)

Lemma next_lower i e aids room m nx m' a e' :
  grows m0 m -> dget i m = Some e -> auth_event_ids e = Ok aids ->
  V2.first_power_event room aids m = Ok (nx, m') -> nx = Some (a, e') ->
  (rank a < rank i)%nat /\ dget a m' = Some e'.
Proof.
  intros Hm Hi Ha Hf ->. apply first_power_event_in in Hf as [Hin Hd]. split; [|done].
  eapply (known_ranked_grows _ _ _ Hm m0_ranked); [left; exact Hi|done|done].
Qed.

Lemma mainline_loop_conv room pl m :
  grows m0 m -> converges (fun fuel => V2.mainline_loop fuel room pl m).
Proof.
  intros Hm. destruct pl as [p|]; [|apply conv_shift; cbn; apply conv_const, nf_ok].
  remember (rank p) as r eqn:Hr. revert p m Hr Hm.
  induction r as [r IH] using lt_wf_ind. intros p m Hr Hm.
  apply conv_shift. cbn [V2.mainline_loop].
  destruct (String.eqb p ""); [apply conv_const, nf_ok|].
  apply conv_bind; [apply conv_const, nf_get_event|]. intros [e m1] (_ & He).
  apply get_event_ok in He as (Hg & Hi & _).
  apply conv_bind; [apply conv_const, nf_auth_event_ids|]. intros aids (_ & Ha).
  apply conv_bind; [apply conv_const, nf_first_power_event|]. intros [nx m2] (_ & Hf).
  apply conv_bind; [|intros [] _; apply conv_const, nf_ok].
  assert (Hm1 : grows m0 m1) by (by etransitivity).
  pose proof (first_power_event_grows _ _ _ _ _ Hf) as Hg2.
  destruct nx as [[a e']|]; simpl; [|apply conv_shift; cbn; apply conv_const, nf_ok].
  destruct (next_lower p e aids room m1 _ m2 a e' Hm1 Hi Ha Hf eq_refl) as [Hlt _].
  eapply (IH (rank a)); [by rewrite Hr|done|by etransitivity].
Qed.

Lemma depth_loop_conv room mm i e m :
  grows m0 m -> dget i m = Some e ->
  converges (fun fuel => V2.mainline_depth_loop fuel room mm (Some e) m).
Proof.
  remember (rank i) as r eqn:Hr. revert i e m Hr.
  induction r as [r IH] using lt_wf_ind. intros i e m Hr Hm Hi.
  apply conv_shift. cbn [V2.mainline_depth_loop].
  destruct (dget (event_id e) mm); [apply conv_const, nf_ok|].
  apply conv_bind; [apply conv_const, nf_auth_event_ids|]. intros aids (_ & Ha).
  apply conv_bind; [apply conv_const, nf_first_power_event|]. intros [nx m2] (_ & Hf).
  pose proof (first_power_event_grows _ _ _ _ _ Hf) as Hg2.
  destruct nx as [[a e']|]; simpl; [|apply conv_shift; cbn; apply conv_const, nf_ok].
  destruct (next_lower i e aids room m _ m2 a e' Hm Hi Ha Hf eq_refl) as [Hlt Hd].
  eapply (IH (rank a)); [by rewrite Hr|done|by etransitivity|done].
Qed.

Lemma mainline_sort_conv room ids pl m :
  grows m0 m -> converges (fun fuel => V2._mainline_sort fuel room ids pl m).
Proof.
  intros Hm. unfold V2._mainline_sort. destruct ids as [|i0 ids]; [apply conv_const, nf_ok|].
  apply conv_bind; [by apply mainline_loop_conv|]. intros [ml m1] (n & Hl).
  apply mainline_loop_grows in Hl.
  apply conv_bind; [|intros [] _; apply conv_const, nf_ok].
  apply (conv_rfold (fun st => grows m0 (snd st))).
  - simpl. by etransitivity.
  - intros [om m2] i Hg _. simpl in Hg |- *. destruct (dget i m2) as [e|] eqn:Hi; [|by apply conv_const].
    apply conv_bind.
    + unfold V2._get_mainline_depth_for_event. apply conv_bind; [apply conv_const, nf_room_id|].
      intros r _. by eapply depth_loop_conv.
    + intros [d m3] _. destruct (dget i m3); by apply conv_const.
  - intros k [om m2] i [om' m3] Hg _ Hs. simpl in Hg |- *.
    apply order_map_step_grows in Hs. by etransitivity.
Qed.
End loops.

(** ** The whole resolution *)

Lemma conflicts_conv `{Netaddr, PyRepr, SetOrder, SignedJsonLaws, StoreLaws, !StableStore}
    room rv sets u c m rank :
  dict_wf m -> ids_ok m -> known_ranked rank m ->
  converges (fun fuel => V2.resolve_conflicts fuel room rv sets u c m).
Proof.
  intros Hwf Hids Hr. unfold V2.resolve_conflicts.
  apply conv_bind.
  { apply (difference_conv m rank Hids); [|done]. intros i e aids a Hi. apply Hr. by left. }
  intros diff _. apply conv_bind; [apply conv_const, nf_check_room|]. intros [] _.
  set (m1 := dupdate m _).
  assert (Hr1 : known_ranked rank m1).
  { intros i e aids a [Hi|Hi]; [|apply Hr; by right].
    apply dget_dupdate_in in Hi as [Hi|Hi]; apply Hr; [|by left].
    right. by eexists. }
  apply conv_bind; [by apply (power_sort_conv rank m1 Hr1)|]. intros [sorted m2] (n2 & Hs).
  apply power_sort_grows in Hs.
  apply conv_bind; [apply conv_const, nf_iterative_checks|]. intros [rs m3] (_ & Hi).
  apply iterative_checks_entries in Hi as [Hi _].
  assert (Hm3 : grows m1 m3) by (by etransitivity).
  apply conv_bind; [by apply (mainline_sort_conv rank m1 Hr1)|]. intros [left m4] _.
  apply conv_bind; [apply conv_const, nf_iterative_checks|]. intros [rs' m5] _.
  apply conv_const, nf_ok.
Qed.

(** C6: version 2 state resolution terminates: on an acyclic auth graph there is one result,
    a state or a Python exception, that every run with enough fuel returns. *)
Theorem v2_terminates `{Netaddr, PyRepr, SetOrder, SignedJsonLaws, StoreLaws, !StableStore}
    room rv sets em rank :
  dict_wf (default [] em) -> ids_ok (default [] em) -> known_ranked rank (default [] em) ->
  exists r, r <> Err OutOfFuel /\
    exists n, forall fuel, (n <= fuel)%nat -> V2.resolve_events_with_store fuel room rv sets em = r.
Proof.
  intros Hwf Hids Hr. change (converges (fun fuel => V2.resolve_events_with_store fuel room rv sets em)).
  unfold V2.resolve_events_with_store. destruct (V2._seperate sets) as [u c].
  destruct c as [|kc c]; [apply conv_const, nf_ok|]. by eapply conflicts_conv.
Qed.
