(* ===== verification/StateV2Props.v ===== *)
(** * StateV2Props: the properties of the parts of version 2, with witnesses

    The power sort, one iterative auth check, the mainline sort and the resolution of states
    that agree; and a small room on which the theorems about version 2 are applied. *)
From S2P Require Import Prelude PyVal PySort RoomVersionTable Identifiers Events EventAuthLevels.
From S2P Require Import SetkaChannels EventAuthPower EventAuthMembership EventAuth Samples.
From S2P Require Import StateV1 StateV1Safety TopoSort StateV2 StateV2Safety StateV2Mainline.
From S2P Require Import StateV2Chains EventAuthTotal StateV2Total.
Open Scope string_scope.
Open Scope list_scope.
Open Scope Z_scope.
Open Scope py_scope.

(** The power sort's result has no duplicates, holds every power event of the conflicted
    set, and lists every event after those of its auth events that are in the conflicted
    set, when the auth graph is acyclic. *)
Theorem power_events_sorted `{Netaddr, PyRepr, SetOrder, SignedJson, StoreLaws}
    fuel room full m sorted m' rank :
  V2._reverse_topological_power_sort fuel room full m = Ok (sorted, m') -> ranked rank m' ->
  NoDup sorted /\ (forall x, x ∈ sorted -> x ∈ full) /\
  (forall x e, x ∈ full -> dget x m = Some e -> V2._is_power_event e = Ok true -> x ∈ sorted) /\
  (forall l1 n l2 e aids d, sorted = l1 ++ n :: l2 -> dget n m' = Some e ->
     auth_event_ids e = Ok aids -> d ∈ aids -> d ∈ full -> d ∈ l1).
Proof.
  intros Hs Hr. destruct (power_sort_spec fuel room full m sorted m' rank Hs Hr) as (? & ? & ?).
  split_and!; try done. intros x. by apply (power_sort_subset fuel room full m sorted m').
Qed.

(** One iterative auth check admits its event under the event's key exactly when the event
    is not rejected and passes the auth rules with auth events that, for every selected key
    the state so far fills with an event that is not rejected, are that event. *)
Theorem iterative_check_admits `{Netaddr, PyRepr, SetOrder, SignedJson, StoreLaws}
    room rv rs m i rs' m' :
  V2.iterative_step room rv (rs, m) i = Ok (rs', m') ->
  exists e types auth, dget i m = Some e /\ auth_types_for_event rv e = Ok types /\
    state_preferred rs types m' auth /\
    ((rejected_reason e = None /\ passes auth e /\
      exists k, event_key e = Ok k /\ rs' = dset k i rs) \/
     ((rejected_reason e <> None \/ ~ passes auth e) /\ rs' = rs)).
Proof. intros Hs. by apply iterative_step_ok in Hs as [_ ?]. Qed.

(** The mainline sort returns on an acyclic auth graph once the fuel exceeds the ranks of
    the events, and permutes the events into the order of their depth on the mainline of the
    resolved power-levels event, then their timestamp, then their ID. *)
Theorem mainline_sort_correct `{Netaddr, PyRepr, SetOrder, SignedJson, StoreLaws, !StableStore}
    fuel room ids pl m rank :
  known_ranked rank m -> (forall p, pl = Some p -> (rank p < fuel)%nat) ->
  (forall i, i ∈ ids -> (rank i < fuel)%nat) ->
  V2._mainline_sort fuel room ids pl m <> Err OutOfFuel /\
  forall l m', V2._mainline_sort fuel room ids pl m = Ok (l, m') ->
    l ≡ₚ ids /\
    (ids <> [] ->
     exists mainline (order : string -> Z * (Z * string)),
       mainline_of (view m) pl mainline /\ StronglySorted (le_by order) l /\
       forall i, i ∈ ids -> exists e d, view m i = Some e /\
         mainline_depth (view m) mainline e d /\ order i = (d, (origin_server_ts e, i))).
Proof.
  intros Hr Hp Hi. split; [by eapply mainline_sort_fuel|].
  intros l m' Hs. split; [by eapply mainline_sort_perm|]. intros Hne.
  exact (mainline_sort_spec fuel room ids pl m l m' Hs Hne).
Qed.

(** States that agree on every key are resolved without looking at any event: the result
    has exactly their entries, and the event map is untouched. *)
Theorem v2_no_conflict `{Netaddr, PyRepr, SetOrder, SignedJson, StateResolutionStore}
    fuel room rv sets em :
  sets <> [] -> (forall s s' k, s ∈ sets -> s' ∈ sets -> dget k s = dget k s') ->
  exists r, V2.resolve_events_with_store fuel room rv sets em = Ok (r, default [] em) /\
    forall s k, s ∈ sets -> dget k r = dget k s.
Proof.
  intros Hne Hsame. unfold V2.resolve_events_with_store.
  destruct (V2._seperate sets) as [u c] eqn:Hs.
  destruct (separate_partition sets u c Hs) as (_ & Hc & Hpart & Hnone).
  assert (Hcnone : forall k, dget k c = None).
  { intros k. destruct (decide (k ∈ concat (map dkeys sets))) as [Hin|Hin];
      rewrite elem_of_state_keys in Hin; [|by apply Hnone].
    specialize (Hpart k Hin). unfold status2 in Hpart.
    destruct (dget k u), (dget k c) as [ls|]; try done.
    destruct Hpart as [(s & s' & Hi & Hi' & Hd) _]. by destruct (Hd (Hsame s s' k Hi Hi')). }
  destruct c as [|[k0 v0] c].
  - exists u. split; [done|]. intros s k Hin.
    destruct (decide (k ∈ concat (map dkeys sets))) as [Hk|Hk]; rewrite elem_of_state_keys in Hk.
    + specialize (Hpart k Hk). unfold status2 in Hpart. destruct (dget k u) as [v|]; simpl in Hpart.
      * destruct Hpart as [_ Hv]. by rewrite (Hv s Hin).
      * done.
    + destruct (Hnone k Hk) as [-> _]. destruct (dget k s) eqn:Hd; [|done].
      exfalso. apply Hk. exists s. split; [done|]. unfold dmem. by rewrite Hd.
  - specialize (Hcnone k0). simpl in Hcnone. by rewrite decide_True in Hcnone.
Qed.

(** ** A room *)

(** The two states differ on the power levels and on the topic. *)
Definition ev_power2 : event := ev_power "pl2" "@admin:a" [("@admin:a", JInt 100); ("@mod:a", JInt 75)].
Definition v2_events : list event :=
  [ev_create; ev_member "@admin:a" "join"; pl_old; ev_power2; ev_topic1; ev_topic2].
Definition v2_get (ids : list string) : EventMap :=
  omap (fun i => (fun e => (i, e)) <$> List.find (fun e => String.eqb (event_id e) i) v2_events) ids.
Definition v2_state (power topic : string) : StateMap string :=
  [(CREATE_KEY, "$create"); ((EventTypes.Member, "@admin:a"), "$m@admin:a"); (POWER_KEY, power);
   ((EventTypes.Topic, ""), topic)].
Definition v2_sets : list (StateMap string) := [v2_state "$pl1" "$t1"; v2_state "$pl2" "$t2"].

#[export] Instance sample_store : StateResolutionStore := {|
  get_events := v2_get;
  get_auth_chain_difference := fun _ _ _ _ => {| auth_difference := []; conflicted_subgraph := None |}
|}.

Lemma v2_get_in ids i e : (i, e) ∈ v2_get ids -> i ∈ ids /\ event_id e = i /\ e ∈ v2_events.
Proof.
  unfold v2_get. intros Hin. apply list_elem_of_omap in Hin as (j & Hj & He).
  apply fmap_Some in He as (e' & He & [= -> ->]).
  apply find_some in He as [Hin He]. split; [done|]. split; [by apply String.eqb_eq|].
  by apply list_elem_of_In.
Qed.

#[export] Instance sample_store_laws : StoreLaws.
Proof. split; intros ids i e Hin; by apply v2_get_in in Hin as (? & ? & _). Qed.

#[export] Instance sample_store_stable : StableStore.
Proof.
  split. intros ids i e Hin. unfold get_events, sample_store, v2_get in *.
  apply list_elem_of_omap in Hin as (j & _ & He). apply fmap_Some in He as (e' & He & [= -> ->]).
  cbn [omap list_omap]. rewrite He. simpl. by rewrite decide_True.
Qed.

#[export] Instance sample_signed_laws : SignedJsonLaws.
Proof. by split. Qed.

Definition v2_rank (i : string) : nat := if String.eqb i "$create" then 0 else 1.

Lemma v2_events_ranked e aids a :
  e ∈ v2_events -> auth_event_ids e = Ok aids -> a ∈ aids -> (v2_rank a < v2_rank (event_id e))%nat.
Proof.
  intros He Ha Hin. unfold v2_events in He. rewrite !elem_of_cons, elem_of_nil in He.
  destruct He as [->|[->|[->|[->|[->|[->|[]]]]]]]; vm_compute in Ha; injection Ha as <-;
    rewrite ?elem_of_cons, elem_of_nil in Hin; repeat destruct Hin as [->|Hin]; try done;
    vm_compute; lia.
Qed.

(** The event map never holds anything but the room's events. *)
Definition v2_known (m : EventMap) : Prop :=
  forall i e, dget i m = Some e -> e ∈ v2_events /\ event_id e = i.

Lemma v2_get_known ids : v2_known (v2_get ids).
Proof. intros i e Hi. apply dget_in, v2_get_in in Hi. tauto. Qed.

Lemma v2_known_grows m m' : grows m m' -> v2_known m -> v2_known m'.
Proof.
  intros [_ Hs] Hk i e Hi. destruct (Hs i e Hi) as [|[ids Hin]]; [auto|].
  apply v2_get_in in Hin. tauto.
Qed.

Lemma v2_known_ranked m : v2_known m -> ranked v2_rank m /\ known_ranked v2_rank m.
Proof.
  intros Hk. split.
  - intros i e aids a Hi Ha Hin. destruct (Hk i e Hi) as [He <-]. by eapply v2_events_ranked.
  - intros i e aids a [Hi|[ids Hi]] Ha Hin.
    + destruct (Hk i e Hi) as [He <-]. by eapply v2_events_ranked.
    + apply v2_get_in in Hi as (_ & <- & He). by eapply v2_events_ranked.
Qed.

(** ** Witnesses *)

Definition v2_conflicted : list string := ["$t2"; "$pl2"; "$t1"; "$pl1"].

Lemma power_events_sorted_witness :
  exists m', V2._reverse_topological_power_sort 20 "!r:a" v2_conflicted (v2_get v2_conflicted)
               = Ok (["$pl1"; "$pl2"], m') /\ NoDup ["$pl1"; "$pl2"].
Proof.
  assert (Hs : exists m', V2._reverse_topological_power_sort 20 "!r:a" v2_conflicted
            (v2_get v2_conflicted) = Ok (["$pl1"; "$pl2"], m')) by (eexists; vm_compute; reflexivity).
  destruct Hs as [m' Hs]. exists m'. split; [exact Hs|].
  apply (power_events_sorted 20 "!r:a" v2_conflicted (v2_get v2_conflicted) _ m' v2_rank Hs).
  apply v2_known_ranked. eapply v2_known_grows; [|apply (v2_get_known v2_conflicted)].
  exact (power_sort_grows _ _ _ _ _ _ Hs).
Defined.

Lemma iterative_check_admits_witness :
  exists rs' m', V2.iterative_step "!r:a" rv11 (v2_state "$pl1" "$t1", v2_get v2_conflicted) "$t2"
                   = Ok (rs', m') /\
  exists e types auth, dget "$t2" (v2_get v2_conflicted) = Some e /\
    auth_types_for_event rv11 e = Ok types /\
    state_preferred (v2_state "$pl1" "$t1") types m' auth /\
    ((rejected_reason e = None /\ passes auth e /\
      exists k, event_key e = Ok k /\ rs' = dset k "$t2" (v2_state "$pl1" "$t1")) \/
     ((rejected_reason e <> None \/ ~ passes auth e) /\ rs' = v2_state "$pl1" "$t1")).
Proof.
  assert (Hs : exists rs' m', V2.iterative_step "!r:a" rv11
            (v2_state "$pl1" "$t1", v2_get v2_conflicted) "$t2" = Ok (rs', m'))
    by (eexists _, _; vm_compute; reflexivity).
  destruct Hs as (rs' & m' & Hs). exists rs', m'. split; [exact Hs|].
  exact (iterative_check_admits "!r:a" rv11 _ _ "$t2" rs' m' Hs).
Defined.

Lemma mainline_sort_correct_witness :
  V2._mainline_sort 3 "!r:a" ["$t2"; "$t1"] (Some "$pl2") (v2_get v2_conflicted) <> Err OutOfFuel /\
  exists m', V2._mainline_sort 3 "!r:a" ["$t2"; "$t1"] (Some "$pl2") (v2_get v2_conflicted)
               = Ok (["$t1"; "$t2"], m').
Proof.
  split; [|eexists; vm_compute; reflexivity].
  apply (mainline_sort_correct 3 "!r:a" ["$t2"; "$t1"] (Some "$pl2") (v2_get v2_conflicted) v2_rank).
  - apply v2_known_ranked, v2_get_known.
  - intros p [= <-]. vm_compute. lia.
  - intros i Hi. unfold v2_rank. destruct (String.eqb i "$create"); lia.
Defined.

Lemma v2_no_conflict_witness :
  exists r, V2.resolve_events_with_store 0 "!r:a" rv11 [v2_state "$pl1" "$t1"; v2_state "$pl1" "$t1"] None
              = Ok (r, []) /\
    forall s k, s ∈ [v2_state "$pl1" "$t1"; v2_state "$pl1" "$t1"] -> dget k r = dget k s.
Proof.
  apply (v2_no_conflict 0 "!r:a" rv11 [v2_state "$pl1" "$t1"; v2_state "$pl1" "$t1"] None).
  - discriminate.
  - intros s s' k Hs Hs'. rewrite !elem_of_cons, elem_of_nil in Hs, Hs'.
    destruct Hs as [->|[->|[]]], Hs' as [->|[->|[]]]; reflexivity.
Defined.

Lemma v2_resolves :
  exists m', V2.resolve_events_with_store 10 "!r:a" rv11 v2_sets None = Ok (v2_state "$pl2" "$t2", m').
Proof. eexists. vm_compute. reflexivity. Defined.

Lemma v2_keeps_unconflicted_witness :
  exists m', V2.resolve_events_with_store 10 "!r:a" rv11 v2_sets None = Ok (v2_state "$pl2" "$t2", m') /\
    dget CREATE_KEY (v2_state "$pl2" "$t2") = Some "$create".
Proof.
  destruct v2_resolves as [m' Hr]. exists m'. split; [exact Hr|].
  apply (v2_keeps_unconflicted 10 "!r:a" rv11 v2_sets None _ m' CREATE_KEY "$create" Hr).
  - discriminate.
  - intros s Hs. unfold v2_sets in Hs. rewrite !elem_of_cons, elem_of_nil in Hs.
    destruct Hs as [->|[->|[]]]; reflexivity.
Defined.

Lemma v2_invents_nothing_witness :
  exists m', V2.resolve_events_with_store 10 "!r:a" rv11 v2_sets None = Ok (v2_state "$pl2" "$t2", m') /\
  ((forall s, s ∈ v2_sets -> dget POWER_KEY s = Some "$pl2") \/
  (((exists k' s, s ∈ v2_sets /\ dget k' s = Some "$pl2") \/
    (exists c diff, V2._get_auth_chain_difference 10 "!r:a" v2_sets [] c = Ok diff /\ "$pl2" ∈ diff)) /\
   exists e, dget "$pl2" m' = Some e /\ event_key e = Ok POWER_KEY /\ rejected_reason e = None)).
Proof.
  destruct v2_resolves as [m' Hr]. exists m'. split; [exact Hr|].
  apply (v2_invents_nothing 10 "!r:a" rv11 v2_sets None _ m' POWER_KEY "$pl2" Hr).
  reflexivity.
Defined.

Lemma seperate2_spec_witness :
  exists u c, V2._seperate v2_sets = (u, c) /\
    (dmem POWER_KEY c = true <->
     exists s s', s ∈ v2_sets /\ s' ∈ v2_sets /\ dget POWER_KEY s <> dget POWER_KEY s').
Proof.
  destruct (V2._seperate v2_sets) as [u c] eqn:Hs. exists u, c. split; [reflexivity|].
  apply (seperate2_spec v2_sets u c Hs POWER_KEY).
Defined.

Lemma auth_chain_difference_spec_witness :
  exists fuel0, forall fuel, (fuel0 <= fuel)%nat ->
    V2._get_auth_chain_difference fuel "!r:a" v2_sets (v2_get ["$pl2"; "$t2"]) None <> Err OutOfFuel /\
    forall diff, V2._get_auth_chain_difference fuel "!r:a" v2_sets (v2_get ["$pl2"; "$t2"]) None = Ok diff ->
    exists ids,
      Forall2 (fun s l => forall x, x ∈ l <-> persisted_part (v2_get ["$pl2"; "$t2"]) s x) v2_sets ids /\
      forall x, x ∈ diff <->
        x ∈ auth_difference (get_auth_chain_difference "!r:a" ids None []) \/
        (dmem x (v2_get ["$pl2"; "$t2"]) = true /\
         (exists s, s ∈ v2_sets /\ state_reaches (v2_get ["$pl2"; "$t2"]) s x) /\
         exists s, s ∈ v2_sets /\ ~ state_reaches (v2_get ["$pl2"; "$t2"]) s x).
Proof.
  apply (auth_chain_difference_spec "!r:a" v2_sets (v2_get ["$pl2"; "$t2"]) v2_rank).
  - apply (bool_decide_unpack _). vm_compute. exact I.
  - intros i e Hi. by apply v2_get_known in Hi as [_ ?].
  - intros i e aids a Hi. by apply (proj1 (v2_known_ranked _ (v2_get_known ["$pl2"; "$t2"]))).
  - discriminate.
  - reflexivity.
Defined.

Lemma v2_terminates_witness :
  exists r, r <> Err OutOfFuel /\
    exists n, forall fuel, (n <= fuel)%nat ->
      V2.resolve_events_with_store fuel "!r:a" rv11 v2_sets (Some (v2_get ["$pl2"; "$t2"])) = r.
Proof.
  apply (v2_terminates "!r:a" rv11 v2_sets (Some (v2_get ["$pl2"; "$t2"])) v2_rank).
  - apply (bool_decide_unpack _). vm_compute. exact I.
  - intros i e Hi. by apply (v2_get_known ["$pl2"; "$t2"]) in Hi as [_ ?].
  - apply v2_known_ranked, (v2_get_known ["$pl2"; "$t2"]).
Defined.

(** The unpersisted power-levels and topic events are in the difference. *)
Example unpersisted_difference :
  V2._get_auth_chain_difference 10 "!r:a" v2_sets (v2_get ["$pl2"; "$t2"]) None = Ok ["$pl2"; "$t2"].
Proof. vm_compute. reflexivity. Qed.
