(* ===== verification/StreamIds.v ===== *)
(** * StreamIds: the generator of stream IDs (storage/util/id_generators.py, sequence.py)

    A stream is a sequence of writes, numbered by a database sequence that several worker
    processes share.  Each worker has a [MultiWriterIdGenerator], which follows how far the
    stream has been written.  A method takes the generator's lock where the code does, so a
    piece of a method between two locks is one definition here.  The sorted collections it
    keeps its IDs in are a third-party package, the class [SortedInts]; [heapq] keeps a sorted
    list, as in [TopoSort]. *)
From S2P Require Import Prelude PyVal PySort PyState TopoSort.
From Stdlib Require Import String.
Open Scope string_scope.
Open Scope list_scope.
Open Scope Z_scope.
Open Scope st_scope.

(** [SortedSet] and [SortedList] of integers, and their iteration order. *)
Class SortedInts := {
  SortedSet : Type; ss_list : SortedSet -> list Z;
  ss_empty : SortedSet;
  ss_update : list Z -> SortedSet -> SortedSet;
  ss_difference_update : list Z -> SortedSet -> SortedSet;
  SortedList : Type; sl_list : SortedList -> list Z;
  sl_empty : SortedList;
  sl_add : Z -> SortedList -> SortedList;
  sl_remove : Z -> SortedList -> result SortedList
}.

(** What their documentation says of them: both iterate in ascending order. *)
Class SortedIntsLaws `{SortedInts} := {
  ss_sorted s : StronglySorted Z.lt (ss_list s);
  ss_in_empty x : x ∈ ss_list ss_empty <-> False;
  ss_in_update x l s : x ∈ ss_list (ss_update l s) <-> x ∈ l \/ x ∈ ss_list s;
  ss_in_difference x l s :
    x ∈ ss_list (ss_difference_update l s) <-> x ∈ ss_list s /\ x ∉ l;
  sl_sorted s : StronglySorted Z.le (sl_list s);
  sl_list_empty : sl_list sl_empty = [];
  sl_perm_add x s : sl_list (sl_add x s) ≡ₚ x :: sl_list s;
  sl_perm_remove x s : x ∈ sl_list s ->
    exists s', sl_remove x s = Ok s' /\ x :: sl_list s' ≡ₚ sl_list s
}.

Section generator.
Context `{SortedInts}.

Record IdGen := {
  _instance_name : string;
  _writers : list string;
  (** 1 for a stream of positive IDs, -1 for one of negative IDs *)
  _return_factor : Z;
  _current_positions : list (string * Z);
  _unfinished_ids : SortedSet;
  _in_flight_fetches : SortedList;
  _finished_ids : gset Z;
  _persisted_upto_position : Z;
  _known_persisted_positions : list Z;
  _max_seen_allocated_stream_id : Z;
  _max_position_of_local_instance : Z
}.

(** Assignments to the attributes. *)
Definition set_positions (f : list (string * Z) -> list (string * Z)) (g : IdGen) : IdGen :=
  {| _instance_name := _instance_name g; _writers := _writers g; _return_factor := _return_factor g;
     _current_positions := f (_current_positions g); _unfinished_ids := _unfinished_ids g;
     _in_flight_fetches := _in_flight_fetches g; _finished_ids := _finished_ids g;
     _persisted_upto_position := _persisted_upto_position g;
     _known_persisted_positions := _known_persisted_positions g;
     _max_seen_allocated_stream_id := _max_seen_allocated_stream_id g;
     _max_position_of_local_instance := _max_position_of_local_instance g |}.
Definition set_unfinished (f : SortedSet -> SortedSet) (g : IdGen) : IdGen :=
  {| _instance_name := _instance_name g; _writers := _writers g; _return_factor := _return_factor g;
     _current_positions := _current_positions g; _unfinished_ids := f (_unfinished_ids g);
     _in_flight_fetches := _in_flight_fetches g; _finished_ids := _finished_ids g;
     _persisted_upto_position := _persisted_upto_position g;
     _known_persisted_positions := _known_persisted_positions g;
     _max_seen_allocated_stream_id := _max_seen_allocated_stream_id g;
     _max_position_of_local_instance := _max_position_of_local_instance g |}.
Definition set_in_flight (f : SortedList -> SortedList) (g : IdGen) : IdGen :=
  {| _instance_name := _instance_name g; _writers := _writers g; _return_factor := _return_factor g;
     _current_positions := _current_positions g; _unfinished_ids := _unfinished_ids g;
     _in_flight_fetches := f (_in_flight_fetches g); _finished_ids := _finished_ids g;
     _persisted_upto_position := _persisted_upto_position g;
     _known_persisted_positions := _known_persisted_positions g;
     _max_seen_allocated_stream_id := _max_seen_allocated_stream_id g;
     _max_position_of_local_instance := _max_position_of_local_instance g |}.
Definition set_finished (f : gset Z -> gset Z) (g : IdGen) : IdGen :=
  {| _instance_name := _instance_name g; _writers := _writers g; _return_factor := _return_factor g;
     _current_positions := _current_positions g; _unfinished_ids := _unfinished_ids g;
     _in_flight_fetches := _in_flight_fetches g; _finished_ids := f (_finished_ids g);
     _persisted_upto_position := _persisted_upto_position g;
     _known_persisted_positions := _known_persisted_positions g;
     _max_seen_allocated_stream_id := _max_seen_allocated_stream_id g;
     _max_position_of_local_instance := _max_position_of_local_instance g |}.
(** The position, and the heap of positions known to be persisted above it. *)
Definition set_persisted (p : Z) (known : list Z) (g : IdGen) : IdGen :=
  {| _instance_name := _instance_name g; _writers := _writers g; _return_factor := _return_factor g;
     _current_positions := _current_positions g; _unfinished_ids := _unfinished_ids g;
     _in_flight_fetches := _in_flight_fetches g; _finished_ids := _finished_ids g;
     _persisted_upto_position := p; _known_persisted_positions := known;
     _max_seen_allocated_stream_id := _max_seen_allocated_stream_id g;
     _max_position_of_local_instance := _max_position_of_local_instance g |}.
Definition set_max_seen (f : Z -> Z) (g : IdGen) : IdGen :=
  {| _instance_name := _instance_name g; _writers := _writers g; _return_factor := _return_factor g;
     _current_positions := _current_positions g; _unfinished_ids := _unfinished_ids g;
     _in_flight_fetches := _in_flight_fetches g; _finished_ids := _finished_ids g;
     _persisted_upto_position := _persisted_upto_position g;
     _known_persisted_positions := _known_persisted_positions g;
     _max_seen_allocated_stream_id := f (_max_seen_allocated_stream_id g);
     _max_position_of_local_instance := _max_position_of_local_instance g |}.
Definition set_local_max (f : Z -> Z) (g : IdGen) : IdGen :=
  {| _instance_name := _instance_name g; _writers := _writers g; _return_factor := _return_factor g;
     _current_positions := _current_positions g; _unfinished_ids := _unfinished_ids g;
     _in_flight_fetches := _in_flight_fetches g; _finished_ids := _finished_ids g;
     _persisted_upto_position := _persisted_upto_position g;
     _known_persisted_positions := _known_persisted_positions g;
     _max_seen_allocated_stream_id := _max_seen_allocated_stream_id g;
     _max_position_of_local_instance := f (_max_position_of_local_instance g) |}.

(** [bool(self._unfinished_ids or self._in_flight_fetches)] *)
Definition is_busy (g : IdGen) : bool :=
  match ss_list (_unfinished_ids g), sl_list (_in_flight_fetches g) with
  | [], [] => false
  | _, _ => true
  end.

(** ** Persisted positions *)

(** [min(tokens, default=d)] and [max(tokens, default=d)] *)
Definition min_default (d : Z) (l : list Z) : Z :=
  match l with [] => d | x :: l => fold_left Z.min l x end.
Definition max_default (d : Z) (l : list Z) : Z :=
  match l with [] => d | x :: l => fold_left Z.max l x end.

(** The loop that takes positions off the heap; it ends with the heap. *)
Fixpoint absorb (p : Z) (known : list Z) : Z * list Z :=
  match known with
  | [] => (p, [])
  | x :: rest =>
      if x <=? p then absorb p rest
      else if x =? p + 1 then absorb (p + 1) rest
      else (p, known)
  end.

(** The least position of all instances, our own counted only while we are writing. *)
Definition min_current (g : IdGen) : Z :=
  let our_current_position := default 0 (dget (_instance_name g) (_current_positions g)) in
  let min_curr := min_default our_current_position
    (map snd (List.filter (fun wp => negb (String.eqb wp.1 (_instance_name g)))
       (_current_positions g))) in
  if negb (our_current_position =? 0) && is_busy g then Z.min min_curr our_current_position
  else min_curr.

Definition _add_persisted_position (new_id : Z) (g : IdGen) : IdGen :=
  let known := heappush new_id (_known_persisted_positions g) in
  let upto := Z.max (min_current g) (_persisted_upto_position g) in
  let g := set_local_max (fun m => Z.max m upto) g in
  let g := if negb (is_busy g)
           then set_local_max (Z.max (_max_seen_allocated_stream_id g)) g else g in
  let (upto, known) := absorb upto known in
  set_persisted upto known g.

(** [advance]: another instance has written up to a position. *)
Definition advance (instance_name : string) (new_id : Z) (g : IdGen) : IdGen :=
  let new_id := new_id * _return_factor g in
  let g := set_positions (fun d =>
    dset instance_name (Z.max new_id (default 0 (dget instance_name d))) d) g in
  let g := set_max_seen (fun m => Z.max m new_id) g in
  _add_persisted_position new_id g.

(** ** Finishing IDs *)

(** The least ID that may still be unfinished, when there is one. *)
Definition min_unfinished (g : IdGen) : option Z :=
  match ss_list (_unfinished_ids g), sl_list (_in_flight_fetches g) with
  | u :: _, f :: _ => Some (Z.min u (f + 1))
  | [], f :: _ => Some (f + 1)
  | u :: _, [] => Some u
  | [], [] => None
  end.

(** The largest of a set, if it is not empty. *)
Definition max_of (s : gset Z) : option Z :=
  match elements s with [] => None | x :: l => Some (fold_left Z.max l x) end.

(** The new position of this instance, and the finished IDs above it; [max(set())] raises. *)
Definition new_position (g : IdGen) : result (option Z * gset Z) :=
  match min_unfinished g with
  | Some m =>
      Ok (max_of (filter (fun s => s < m) (_finished_ids g)),
          filter (fun s => ~ s < m) (_finished_ids g))
  | None =>
      match max_of (_finished_ids g) with
      | Some s => Ok (Some s, ∅)
      | None => Err ValueError
      end
  end.

Definition move_position (new_cur : option Z) (g : IdGen) : IdGen :=
  match new_cur with
  | Some n =>
      if n =? 0 then g
      else
        let curr := default 0 (dget (_instance_name g) (_current_positions g)) in
        set_local_max (fun m => Z.max (Z.max curr n) m)
          (set_positions (dset (_instance_name g) (Z.max curr n)) g)
  | None => g
  end.

Definition _mark_ids_as_finished (next_ids : list Z) : St IdGen unit :=
  st_modify (set_unfinished (ss_difference_update next_ids)) ;;!
  st_modify (set_finished (fun s => s ∪ list_to_set next_ids)) ;;!
  let! r := st_read new_position in
  let! (new_cur, finished) := st_lift r in
  st_modify (set_finished (fun _ => finished)) ;;!
  st_modify (move_position new_cur) ;;!
  st_for (fun i => st_modify (_add_persisted_position i)) next_ids.

(** ** Allocating IDs *)

(** [_load_next_mult_id_txn] in three parts, one per lock; the database answers between the
    first two. *)
Definition fetch_begin : St IdGen Z :=
  let! current_max := st_read _max_seen_allocated_stream_id in
  st_modify (set_in_flight (sl_add current_max)) ;;!
  st_ret current_max.

Definition fetch_ids (stream_ids : list Z) : St IdGen unit :=
  st_modify (set_unfinished (ss_update stream_ids)) ;;!
  let! ids := st_read (fun g => ss_list (_unfinished_ids g)) in
  match last ids with
  | Some m => st_modify (set_max_seen (fun n => Z.max n m))
  | None => st_raise IndexError
  end.

Definition fetch_end (current_max : Z) : St IdGen unit := fun g =>
  match sl_remove current_max (_in_flight_fetches g) with
  | Ok l => (Ok tt, set_in_flight (fun _ => l) g)
  | Err e => (Err e, g)
  end.

(** The guard of [get_next] and its variants. *)
Definition check_writer (g : IdGen) : result unit :=
  match _writers g with
  | [] => Ok tt
  | ws => if bool_decide (_instance_name g ∈ ws) then Ok tt
          else Err (PyException "Tried to allocate stream ID on non-writer")
  end.

(** The method run without interruption; [next] is the answer of the sequence.  The clause
    [finally] runs whether the answer or the bookkeeping raises. *)
Definition _load_next_mult_id_txn (next : result (list Z)) : St IdGen (list Z) :=
  let! current_max := fetch_begin in
  fun g =>
    let (r, g) := (let! stream_ids := st_lift next in
                   fetch_ids stream_ids ;;! st_ret stream_ids) g in
    match fetch_end current_max g with
    | (Ok _, g) => (r, g)
    | (Err e, g) => (Err e, g)
    end.

Definition get_next_mult_txn (next : result (list Z)) : St IdGen (list Z) :=
  let! ok := st_read check_writer in
  st_lift ok ;;!
  let! next_ids := _load_next_mult_id_txn next in
  let! f := st_read _return_factor in
  st_ret (map (Z.mul f) next_ids).

Definition get_next_txn (next : result (list Z)) : St IdGen Z :=
  let! ok := st_read check_writer in
  st_lift ok ;;!
  let! ids := _load_next_mult_id_txn next in
  match ids with
  | i :: _ => let! f := st_read _return_factor in st_ret (f * i)
  | [] => st_raise IndexError
  end.

(** ** Positions *)

Definition get_persisted_upto_position (g : IdGen) : Z :=
  _return_factor g * _persisted_upto_position g.
Definition get_current_token (g : IdGen) : Z := get_persisted_upto_position g.

Definition get_current_token_for_writer (instance_name : string) (g : IdGen) : Z :=
  if String.eqb (_instance_name g) instance_name
  then _return_factor g * _max_position_of_local_instance g
  else
    let pos := default (_persisted_upto_position g) (dget instance_name (_current_positions g)) in
    _return_factor g * Z.max pos (_persisted_upto_position g).

Definition get_minimal_local_current_token (g : IdGen) : Z :=
  _return_factor g *
    default (_persisted_upto_position g) (dget (_instance_name g) (_current_positions g)).

Definition get_positions (g : IdGen) : list (string * Z) :=
  map (fun wp => (wp.1, _return_factor g * wp.2)) (_current_positions g).

(** The rows of this stream in the table of positions, by instance: the upsert keeps the
    position that is further along the stream. *)
Definition _update_stream_positions_table_txn (g : IdGen) (table : list (string * Z))
    : list (string * Z) :=
  match _writers g with
  | [] => table
  | _ =>
      let pos := get_current_token_for_writer (_instance_name g) g in
      match dget (_instance_name g) table with
      | Some old =>
          if (if 0 <? _return_factor g then old <? pos else pos <? old)
          then dset (_instance_name g) pos table else table
      | None => dset (_instance_name g) pos table
      end
  end.

(** ** Start-up *)

(** What the generator reads when it starts: the rows of the stream in the table of
    positions, the (instance, ID) rows of the stream's tables, and on Postgres the last value
    of the sequence. *)
Record StreamDb := {
  stream_positions : list (string * Z);
  stream_tables : list (list (string * Z));
  last_value : option Z
}.

(** One row of a table, in order of the stream ID the tables store. *)
Definition load_row (g : IdGen) (row : string * Z) : IdGen :=
  let id := _return_factor g * row.2 in
  let g := _add_persisted_position id g in
  if String.eqb row.1 (_instance_name g) then set_positions (dset row.1 id) g else g.

(** The rows at or above the least position. *)
Definition rows_from (factor min_stream_id : Z) (row : string * Z) : bool :=
  if 0 <? factor then min_stream_id * factor <=? row.2 else row.2 <=? min_stream_id * factor.

(** The largest ID of the tables, in the direction of the stream, and at least 1. *)
Definition max_table_id (factor : Z) (tables : list (list (string * Z))) : Z :=
  fold_left (fun m rows => Z.max m (Z.max (max_default 1 (map (fun r => factor * r.2) rows)) 1))
    tables 1.

Definition _load_current_ids (db : StreamDb) (g : IdGen) : IdGen * list (string * Z) :=
  let f := _return_factor g in
  let in_writers wp := bool_decide (wp.1 ∈ _writers g) in
  let '(g, positions) :=
    match _writers g with
    | [] => (g, stream_positions db)
    | _ =>
        let kept := List.filter in_writers (stream_positions db) in
        (set_positions (fun _ => map (fun wp => (wp.1, wp.2 * f)) kept) g, kept)
    end in
  let g := if bool_decide (_instance_name g ∈ _writers g)
           then match last_value db with
                | Some v => set_positions (dset (_instance_name g) v) g
                | None => g
                end
           else g in
  let g :=
    match map snd (_current_positions g) with
    | [] => set_persisted (max_table_id f (stream_tables db)) (_known_persisted_positions g) g
    | x :: l =>
        let min_stream_id := fold_left Z.min l x in
        let g := set_persisted min_stream_id (_known_persisted_positions g) g in
        let rows := List.filter (rows_from f min_stream_id) (List.concat (stream_tables db)) in
        fold_left load_row (sorted_by snd rows) g
    end in
  (fold_left (fun g w => set_positions (fun d =>
     if dmem w d then d else dset w (_persisted_upto_position g) d) g) (_writers g) g, positions).

(** The constructor; it gives the rows left in the table of positions too. *)
Definition MultiWriterIdGenerator (instance_name : string) (writers : list string)
    (positive : bool) (db : StreamDb) : IdGen * list (string * Z) :=
  let g := {| _instance_name := instance_name; _writers := writers;
              _return_factor := if positive then 1 else -1;
              _current_positions := []; _unfinished_ids := ss_empty; _in_flight_fetches := sl_empty;
              _finished_ids := ∅; _persisted_upto_position := 1; _known_persisted_positions := [];
              _max_seen_allocated_stream_id := 1; _max_position_of_local_instance := 1 |} in
  let '(g, table) := _load_current_ids db g in
  let m := Z.max (max_default 1 (map snd (_current_positions g))) (_persisted_upto_position g) in
  let g := set_local_max (fun _ => m) (set_max_seen (fun _ => m) g) in
  (match writers with
   | [] => set_positions (dset instance_name (_persisted_upto_position g)) g
   | _ => g
   end, table).
End generator.

(** ** Sequences (storage/util/sequence.py) *)

(** A Postgres sequence, and [nextval]. *)
Record PgSequence := { seq_last_value : Z; is_called : bool }.

Definition nextval (s : PgSequence) : Z * PgSequence :=
  let v := if is_called s then seq_last_value s + 1 else seq_last_value s in
  (v, {| seq_last_value := v; is_called := true |}).

Fixpoint nextvals (n : nat) (s : PgSequence) : list Z * PgSequence :=
  match n with
  | O => ([], s)
  | Datatypes.S n =>
      let (v, s) := nextval s in
      let (l, s) := nextvals n s in (v :: l, s)
  end.

Definition pg_get_max_allocated (s : PgSequence) : Z :=
  if is_called s then seq_last_value s else seq_last_value s - 1.

(** [check_consistency]: [ids] are the IDs of the table, [positions] those of the stream in
    the table of positions when the caller names a stream. *)
Definition check_consistency (ids : list Z) (positions : option (list Z)) (positive : bool)
    (s : PgSequence) : result unit * PgSequence :=
  let f := if positive then 1 else -1 in
  let max_stream_id := Z.max (max_default 0 (map (Z.mul f) ids)) 0 in
  let last_value := pg_get_max_allocated s in
  let s := if last_value <? max_stream_id
           then {| seq_last_value := Z.max (seq_last_value s) max_stream_id; is_called := true |}
           else s in
  match positions with
  | Some (x :: l) =>
      let m := fold_left Z.max l x in
      if negb (m =? 0) && (last_value <? m)
      then (Err (PyException "IncorrectDatabaseSetup"), s) else (Ok tt, s)
  | _ => (Ok tt, s)
  end.

(** [LocalSequenceGenerator]: the callback gives the first value. *)
Definition local_current (callback : Z) (current_max_id : option Z) : Z :=
  default callback current_max_id.
Definition local_get_next_mult (callback : Z) (n : nat) (current_max_id : option Z)
    : list Z * option Z :=
  let c := local_current callback current_max_id in
  (map (fun i => c + 1 + Z.of_nat i) (seq 0 n), Some (c + Z.of_nat n)).
Definition local_get_next_id (callback : Z) (current_max_id : option Z) : Z * option Z :=
  let c := local_current callback current_max_id + 1 in (c, Some c).
Definition local_get_max_allocated (callback : Z) (current_max_id : option Z) : Z * option Z :=
  let c := local_current callback current_max_id in (c, Some c).

(** * Workers that share a stream

    The workers of a deployment share one sequence and tell each other their positions over
    replication.  A thread of a worker allocates IDs, writes its rows in a transaction, and
    marks the IDs as finished; its steps interleave with those of every other thread at the
    points where no lock is held.  Replication may delay, reorder and repeat positions. *)
Open Scope list_scope.
Open Scope Z_scope.

(** Where the thread of a write is: waiting for IDs from the sequence, before the [finally]
    that ends the fetch, writing rows, or done with its transaction, committed or rolled
    back. *)
Inductive Phase :=
  | Waiting (current_max : Z) (missing : nat)
  | Ending (current_max : Z) (ok : bool)
  | Working
  | Over.

Record Thread := { t_inst : string; t_phase : Phase; t_ids : list Z }.

Section system.
Context `{SortedInts}.

Record Sys := {
  gens : gmap string IdGen;
  (** the last value of the sequence, and who was given which ID *)
  seq_value : Z;
  owners : gmap Z string;
  (** the IDs whose transaction is over *)
  finished : gset Z;
  threads : list Thread;
  (** the positions sent over replication, by instance *)
  announced : list (string * Z)
}.

Definition set_gen (i : string) (g : IdGen) (s : Sys) : Sys :=
  {| gens := <[i := g]> (gens s); seq_value := seq_value s; owners := owners s;
     finished := finished s; threads := threads s; announced := announced s |}.
Definition set_threads (l : list Thread) (s : Sys) : Sys :=
  {| gens := gens s; seq_value := seq_value s; owners := owners s; finished := finished s;
     threads := l; announced := announced s |}.
Definition finish_ids (ids : list Z) (s : Sys) : Sys :=
  {| gens := gens s; seq_value := seq_value s; owners := owners s;
     finished := finished s ∪ list_to_set ids; threads := threads s; announced := announced s |}.
(** [nextval] for an instance. *)
Definition allocate (i : string) (s : Sys) : Sys :=
  {| gens := gens s; seq_value := seq_value s + 1; owners := <[seq_value s + 1 := i]> (owners s);
     finished := finished s; threads := threads s; announced := announced s |}.
Definition announce (i : string) (token : Z) (s : Sys) : Sys :=
  {| gens := gens s; seq_value := seq_value s; owners := owners s; finished := finished s;
     threads := threads s; announced := (i, token) :: announced s |}.

Inductive sys_step (s : Sys) : Sys -> Prop :=
  (** a write of [n] rows starts *)
  | StepBegin i g cm g' n :
      gens s !! i = Some g -> check_writer g = Ok tt -> fetch_begin g = (Ok cm, g') ->
      sys_step s (set_gen i g' (set_threads
        ({| t_inst := i; t_phase := Waiting cm n; t_ids := [] |} :: threads s) s))
  (** the sequence gives it an ID *)
  | StepNextval i cm n ids l1 l2 :
      threads s = l1 ++ {| t_inst := i; t_phase := Waiting cm (Datatypes.S n); t_ids := ids |} :: l2 ->
      sys_step s (allocate i (set_threads
        (l1 ++ {| t_inst := i; t_phase := Waiting cm n; t_ids := ids ++ [seq_value s + 1] |} :: l2) s))
  (** it has them all *)
  | StepIds i g cm ids l1 l2 r g' :
      threads s = l1 ++ {| t_inst := i; t_phase := Waiting cm 0; t_ids := ids |} :: l2 ->
      gens s !! i = Some g -> fetch_ids ids g = (r, g') ->
      sys_step s (set_gen i g' (set_threads
        (l1 ++ {| t_inst := i; t_phase := Ending cm (is_ok r); t_ids := ids |} :: l2) s))
  (** the database fails instead; the IDs it gave are lost *)
  | StepFail i cm n ids l1 l2 :
      threads s = l1 ++ {| t_inst := i; t_phase := Waiting cm n; t_ids := ids |} :: l2 ->
      sys_step s (finish_ids ids (set_threads
        (l1 ++ {| t_inst := i; t_phase := Ending cm false; t_ids := ids |} :: l2) s))
  (** the [finally] clause *)
  | StepEnd i g cm ok ids l1 l2 r g' :
      threads s = l1 ++ {| t_inst := i; t_phase := Ending cm ok; t_ids := ids |} :: l2 ->
      gens s !! i = Some g -> fetch_end cm g = (r, g') ->
      sys_step s (set_gen i g' (set_threads
        (l1 ++ (if ok then [{| t_inst := i; t_phase := Working; t_ids := ids |}] else []) ++ l2) s))
  (** the transaction commits or rolls back *)
  | StepOver i ids l1 l2 :
      threads s = l1 ++ {| t_inst := i; t_phase := Working; t_ids := ids |} :: l2 ->
      sys_step s (finish_ids ids (set_threads
        (l1 ++ {| t_inst := i; t_phase := Over; t_ids := ids |} :: l2) s))
  (** the IDs are marked as finished *)
  | StepMark i g ids l1 l2 r g' :
      threads s = l1 ++ {| t_inst := i; t_phase := Over; t_ids := ids |} :: l2 ->
      gens s !! i = Some g -> _mark_ids_as_finished ids g = (r, g') ->
      sys_step s (set_gen i g' (set_threads (l1 ++ l2) s))
  (** an instance sends its position, or a row of its own that is no further *)
  | StepAnnounce i g :
      gens s !! i = Some g -> sys_step s (announce i (get_current_token_for_writer i g) s)
  | StepAnnounceRow i g id :
      gens s !! i = Some g -> owners s !! id = Some i -> id ∈ finished s ->
      id <= _max_position_of_local_instance g ->
      sys_step s (announce i (_return_factor g * id) s)
  (** another instance receives it *)
  | StepAdvance i token j g :
      (i, token) ∈ announced s -> i <> j -> gens s !! j = Some g ->
      sys_step s (set_gen j (advance i token g) s).

(** A new stream: every instance has started on an empty database. *)
Definition fresh_db (postgres : bool) : StreamDb :=
  {| stream_positions := []; stream_tables := []; last_value := if postgres then Some 1 else None |}.

Definition start (W instances : list string) (positive postgres : bool) : Sys := {|
  gens := list_to_map (map (fun i =>
    (i, fst (MultiWriterIdGenerator i W positive (fresh_db postgres)))) instances);
  seq_value := 1; owners := ∅; finished := ∅; threads := []; announced := [] |}.
End system.
