(* ===== verification/StreamSafety.v ===== *)
(** * StreamSafety: positions never pass a write that is not over *)
From S2P Require Import Prelude PyVal PySort PyState TopoSort StreamIds.
From Stdlib Require Import String.
Open Scope list_scope.
Open Scope Z_scope.

(** ** Lists *)

Lemma in_dset {K V} `{EqDecision K} (k : K) (v : V) d x : x ∈ dset k v d -> x = (k, v) \/ x ∈ d.
Proof.
  induction d as [|[k' v'] d IH]; simpl.
  - intros ->%list_elem_of_singleton. by left.
  - destruct (decide _) as [<-|]; rewrite !elem_of_cons; tauto.
Qed.

Lemma fold_min_spec l x :
  fold_left Z.min l x <= x /\ (forall y, y ∈ l -> fold_left Z.min l x <= y) /\
  (fold_left Z.min l x = x \/ fold_left Z.min l x ∈ l).
Proof.
  revert x. induction l as [|y l IH]; intros x; simpl.
  - split_and!; [lia|by intros y ?%elem_of_nil|by left].
  - destruct (IH (Z.min x y)) as (Hx & Hl & Hin). split_and!; [lia| |].
    + intros z [->|Hz]%elem_of_cons; [lia|by apply Hl].
    + rewrite elem_of_cons. destruct Hin as [Hin|Hin]; [|tauto]. rewrite Hin.
      destruct (Z.min_spec x y) as [[_ ->]|[_ ->]]; tauto.
Qed.

Lemma min_default_spec d l :
  (forall y, y ∈ l -> min_default d l <= y) /\
  (min_default d l ∈ l \/ l = [] /\ min_default d l = d).
Proof.
  destruct l as [|x l]; simpl; [split; [by intros y ?%elem_of_nil|by right]|].
  destruct (fold_min_spec l x) as (Hx & Hl & Hin). split.
  - intros y [->|Hy]%elem_of_cons; auto.
  - left. rewrite elem_of_cons. tauto.
Qed.

Lemma fold_max_spec l x :
  x <= fold_left Z.max l x /\ (forall y, y ∈ l -> y <= fold_left Z.max l x) /\
  (fold_left Z.max l x = x \/ fold_left Z.max l x ∈ l).
Proof.
  revert x. induction l as [|y l IH]; intros x; simpl.
  - split_and!; [lia|by intros y ?%elem_of_nil|by left].
  - destruct (IH (Z.max x y)) as (Hx & Hl & Hin). split_and!; [lia| |].
    + intros z [->|Hz]%elem_of_cons; [lia|by apply Hl].
    + rewrite elem_of_cons. destruct Hin as [Hin|Hin]; [|tauto]. rewrite Hin.
      destruct (Z.max_spec x y) as [[_ ->]|[_ ->]]; tauto.
Qed.

Lemma max_of_spec s :
  match max_of s with
  | Some m => m ∈ s /\ forall x, x ∈ s -> x <= m
  | None => s = ∅
  end.
Proof.
  unfold max_of. destruct (elements s) as [|x l] eqn:He.
  - by apply elements_empty_inv, leibniz_equiv in He.
  - assert (Hs : forall y, y ∈ s <-> y ∈ x :: l) by (intros y; by rewrite <- He, elem_of_elements).
    destruct (fold_max_spec l x) as (Hx & Hl & Hin). split.
    + apply Hs, elem_of_cons. destruct Hin; [left|right]; done.
    + intros y Hy%Hs. apply elem_of_cons in Hy as [->|Hy]; auto.
Qed.

(** The loop over the heap: what is fine stays fine, one position at a time. *)
Lemma absorb_spec (fine : Z -> Prop) p known :
  fine p -> (forall x, x ∈ known -> fine (x - 1) -> fine x) -> fine (fst (absorb p known)).
Proof.
  revert p. induction known as [|x known IH]; intros p Hp Hk; simpl; [done|].
  assert (Hk' : forall y, y ∈ known -> fine (y - 1) -> fine y) by (intros y Hy; apply Hk; by right).
  destruct (Z.leb_spec x p); [by apply IH|].
  destruct (Z.eqb_spec x (p + 1)) as [->|]; [|done].
  apply IH; [|done]. apply Hk; [by left|]. by replace (p + 1 - 1) with p by lia.
Qed.

Lemma absorb_known p known x : x ∈ snd (absorb p known) -> x ∈ known.
Proof.
  revert p. induction known as [|y known IH]; intros p; simpl; [done|].
  destruct (y <=? p); [intros; right; eauto|]. destruct (y =? p + 1); [intros; right; eauto|done].
Qed.

Lemma absorb_ge p known : p <= fst (absorb p known).
Proof.
  revert p. induction known as [|y known IH]; intros p; simpl; [lia|].
  destruct (y <=? p); [auto|]. destruct (y =? p + 1); [|simpl; lia]. specialize (IH (p + 1)). lia.
Qed.

(** ** The invariant *)

Section invariant.
Context `{SortedIntsLaws}.
Context (W : list string) (f : Z).

Section world.
Context (seqv : Z) (own : gmap Z string) (done : gset Z).

(** Whoever was given the ID, its write is over. *)
Definition over (id : Z) : Prop := forall w, own !! id = Some w -> id ∈ done.
(** Every ID up to a position is. *)
Definition all_over (p : Z) : Prop := p <= seqv /\ forall id, id <= p -> over id.
(** Every ID of an instance up to a position, and the position itself. *)
Definition settled (w : string) (p : Z) : Prop :=
  p <= seqv /\ over p /\ forall id, own !! id = Some w -> id <= p -> id ∈ done.

Lemma all_over_settled w p : all_over p -> settled w p.
Proof. intros [Hp Ho]. split_and!; [done|by apply Ho; lia|]. intros id Hid Hle. by eapply Ho. Qed.

Lemma settled_max w p q : settled w p -> settled w q -> settled w (Z.max p q).
Proof. intros. by destruct (Z.max_spec p q) as [[_ ->]|[_ ->]]. Qed.

Lemma all_over_max p q : all_over p -> all_over q -> all_over (Z.max p q).
Proof. intros. by destruct (Z.max_spec p q) as [[_ ->]|[_ ->]]. Qed.

(** The fetch of a thread that an instance keeps in [_in_flight_fetches]. *)
Definition flight (i : string) (t : Thread) : option Z :=
  if String.eqb (t_inst t) i then
    match t_phase t with Waiting cm _ | Ending cm _ => Some cm | _ => None end
  else None.

Definition waiting_for (i : string) (id : Z) (t : Thread) : Prop :=
  t_inst t = i /\ (exists cm n, t_phase t = Waiting cm n) /\ id ∈ t_ids t.

Context (ts : list Thread).

Record gen_ok (i : string) (g : IdGen) : Prop := {
  go_name : _instance_name g = i;
  go_writers : _writers g = W;
  go_factor : _return_factor g = f;
  go_positions : forall w p, (w, p) ∈ _current_positions g -> settled w p;
  go_all_writers : forall w, w ∈ W ->
    exists p, dget w (_current_positions g) = Some p /\ 1 <= p;
  go_upto : all_over (_persisted_upto_position g);
  go_known : forall x, x ∈ _known_persisted_positions g -> x <= seqv /\ over x;
  go_max_seen : _max_seen_allocated_stream_id g <= seqv /\
    (own !! _max_seen_allocated_stream_id g = Some i \/ over (_max_seen_allocated_stream_id g));
  go_local : settled i (_max_position_of_local_instance g);
  go_own : forall id, own !! id = Some i -> id ∈ done \/ id ∈ ss_list (_unfinished_ids g) \/
    exists t, t ∈ ts /\ waiting_for i id t;
  go_unfinished : forall id, id ∈ ss_list (_unfinished_ids g) -> own !! id = Some i;
  go_finished : forall id, id ∈ _finished_ids g -> own !! id = Some i /\ id ∈ done;
  go_in_flight : sl_list (_in_flight_fetches g) ≡ₚ omap (flight i) ts
}.

Record world_ok : Prop := {
  wo_seq : 1 <= seqv;
  wo_owners : forall id w, own !! id = Some w -> 1 < id <= seqv /\ w ∈ W;
  wo_done : forall id, id ∈ done -> id <= seqv;
  wo_writer : forall t, t ∈ ts -> t_inst t ∈ W;
  wo_ids : forall t id, t ∈ ts -> id ∈ t_ids t -> own !! id = Some (t_inst t);
  wo_waiting : forall t cm n, t ∈ ts -> t_phase t = Waiting cm n ->
    cm <= seqv /\ forall id, id ∈ t_ids t -> cm < id;
  wo_over : forall t id, t ∈ ts -> t_phase t = Over -> id ∈ t_ids t -> id ∈ done
}.
End world.

(** ** Not busy: every own ID is over *)

Context (seqv : Z) (own : gmap Z string) (done : gset Z) (ts : list Thread).
Context (Hw : world_ok seqv own done ts).

Abbreviation gok := (gen_ok seqv own done ts).
Abbreviation stl := (settled seqv own done).
Abbreviation aov := (all_over seqv own done).
Abbreviation ov := (over own done).

Lemma not_busy g : is_busy g = false <-> ss_list (_unfinished_ids g) = [] /\ sl_list (_in_flight_fetches g) = [].
Proof.
  unfold is_busy. destruct (ss_list _), (sl_list _); split; try done; intros [? ?]; done.
Qed.

Lemma flight_waiting i g t cm n :
  gok i g -> t ∈ ts -> t_inst t = i -> t_phase t = Waiting cm n ->
  cm ∈ sl_list (_in_flight_fetches g).
Proof.
  intros Hg Ht Hi Hp. rewrite (go_in_flight _ _ _ _ i g Hg). apply list_elem_of_omap.
  exists t. split; [done|]. unfold flight. by rewrite Hi, String.eqb_refl, Hp.
Qed.

Lemma idle_own i g id :
  gok i g -> is_busy g = false -> own !! id = Some i -> id ∈ done.
Proof.
  intros Hg [Hu Hf]%not_busy Hid.
  destruct (go_own _ _ _ _ i g Hg id Hid) as [?|[Hin|(t & Ht & Hi & (cm & n & Hp) & _)]]; [done| |].
  - rewrite Hu in Hin. by apply elem_of_nil in Hin.
  - pose proof (flight_waiting i g t cm n Hg Ht Hi Hp) as Hc. rewrite Hf in Hc. by apply elem_of_nil in Hc.
Qed.

Lemma idle_max_seen i g :
  gok i g -> is_busy g = false -> stl i (_max_seen_allocated_stream_id g).
Proof.
  intros Hg Hb. destruct (go_max_seen _ _ _ _ i g Hg) as [Hle Hm]. split_and!; [done| |].
  - destruct Hm as [Hm|Hm]; [|done]. intros w _. by eapply idle_own.
  - intros id Hid _. by eapply idle_own.
Qed.

(** ** [_add_persisted_position] *)

Lemma min_current_over i g : gok i g -> aov (min_current g).
Proof.
  intros Hg. unfold min_current. rewrite (go_name _ _ _ _ i g Hg).
  set (our := default 0 (dget i (_current_positions g))).
  set (others := map snd _). destruct (min_default_spec our others) as [Hle Hin].
  assert (Hour : our <= seqv /\ forall id, own !! id = Some i -> id <= our -> id ∈ done).
  { unfold our. destruct (dget i (_current_positions g)) as [p|] eqn:Hd; simpl.
    - apply dget_in, (go_positions _ _ _ _ i g Hg) in Hd as (? & _ & ?). done.
    - split; [pose proof (wo_seq _ _ _ _ Hw); lia|]. intros id Hid%(wo_owners _ _ _ _ Hw). lia. }
  assert (Hothers : forall w p, w <> i -> dget w (_current_positions g) = Some p -> p ∈ others).
  { intros w p Hne Hd. apply in_map_b. exists (w, p). split; [done|]. apply in_filter_b.
    split; [by apply dget_in|]. simpl. destruct (String.eqb_spec w i); done. }
  assert (Hmin : min_default our others <= seqv).
  { destruct Hin as [Hin|[_ He]]; [|rewrite He; apply Hour].     apply in_map_b in Hin as ([w p] & -> & Hin). apply in_filter_b in Hin as [Hin _].
    by apply (go_positions _ _ _ _ i g Hg) in Hin as [? _]. }
  assert (Hnot : forall id w, own !! id = Some w -> w <> i -> id <= min_default our others -> id ∈ done).
  { intros id w Hid Hne Hm. destruct (wo_owners _ _ _ _ Hw id w Hid) as [_ HW].
    destruct (go_all_writers _ _ _ _ i g Hg w HW) as (p & Hd & _).
    pose proof (Hle p (Hothers w p Hne Hd)) as Hp.
    apply dget_in, (go_positions _ _ _ _ i g Hg) in Hd as (_ & _ & Hs). apply Hs; [done|lia]. }
  destruct (is_busy g) eqn:Hb.
  - rewrite andb_true_r. destruct (Z.eqb_spec our 0) as [Hz|Hz]; simpl.
    + split; [done|]. intros id Hid w Hwid. destruct (decide (w = i)) as [->|Hne]; [|by eapply Hnot].
      destruct (wo_owners _ _ _ _ Hw id i Hwid) as [_ HW].
      destruct (go_all_writers _ _ _ _ i g Hg i HW) as (p & Hd & Hp). unfold our in Hz.
      rewrite Hd in Hz. simpl in Hz. lia.
    + split; [lia|]. intros id Hid w Hwid. destruct (decide (w = i)) as [->|Hne].
      * apply Hour; [done|lia].
      * apply (Hnot id w); [done|done|lia].
  - rewrite andb_false_r. split; [done|]. intros id Hid w Hwid.
    destruct (decide (w = i)) as [->|Hne]; [by eapply idle_own|by eapply Hnot].
Qed.

Lemma add_persisted_ok i g x :
  gok i g -> x <= seqv -> ov x -> gok i (_add_persisted_position x g).
Proof.
  intros Hg Hx Ho. unfold _add_persisted_position.
  pose proof (all_over_max _ _ _ _ _ (min_current_over i g Hg) (go_upto _ _ _ _ i g Hg)) as Hup.
  set (upto := Z.max _ _) in *. set (known := heappush _ _).
  assert (Hknown : forall y, y ∈ known -> y <= seqv /\ ov y).
  { intros y Hy. unfold known, heappush in Hy. rewrite insert_by_perm in Hy.
    apply elem_of_cons in Hy as [->|Hy]; [done|]. by apply (go_known _ _ _ _ i g Hg). }
  pose proof (absorb_spec (fun p => aov p) upto known Hup) as Hab.
  pose proof (absorb_known upto known) as Hkn. destruct (absorb upto known) as [upto' known'].
  simpl in Hab, Hkn.
  assert (Hup' : aov upto').
  { apply Hab. intros y Hy [_ Hall]. destruct (Hknown y Hy) as [Hys Hyo]. split; [done|].
    intros id Hid. destruct (decide (id = y)) as [->|Hne]; [done|]. apply Hall. lia. }
  assert (Hloc : stl i (Z.max (_max_position_of_local_instance g) upto)).
  { apply settled_max; [exact (go_local _ _ _ _ i g Hg)|by apply all_over_settled]. }
  unfold is_busy. cbn [_unfinished_ids _in_flight_fetches set_local_max]. fold (is_busy g).
  destruct (is_busy g) eqn:Hb; cbn [negb].
  - destruct Hg. split; cbn; try done. intros y Hy%Hkn. by apply Hknown.
  - pose proof (idle_max_seen i g Hg Hb) as Hidle. destruct Hg. split; cbn; try done.
    + intros y Hy%Hkn. by apply Hknown.
    + by apply settled_max.
Qed.
(** ** Receiving a position *)

Lemma settled0 w : stl w 0.
Proof.
  pose proof (wo_seq _ _ _ _ Hw). split_and!; [lia| |].
  - intros w' Hid%(wo_owners _ _ _ _ Hw). lia.
  - intros id Hid%(wo_owners _ _ _ _ Hw). lia.
Qed.

Lemma settled_default i g w : gok i g -> stl w (default 0 (dget w (_current_positions g))).
Proof.
  intros Hg. destruct (dget w _) as [p|] eqn:Hd; simpl; [|apply settled0].
  by apply dget_in, (go_positions _ _ _ _ i g Hg) in Hd.
Qed.

(** A position of some instance moves up. *)
Lemma set_position_ok i g w p :
  gok i g -> stl w p -> 1 <= p -> gok i (set_positions (dset w p) g).
Proof.
  intros Hg Hp H1. destruct Hg. split; cbn; try done.
  - intros w' p' [[= -> ->]|Hin]%in_dset; auto.
  - intros w' Hw'. rewrite dget_dset. case_decide; eauto.
Qed.

Lemma advance_ok i g w token :
  gok i g -> stl w (token * f) -> gok i (advance w token g).
Proof.
  intros Hg Hs. unfold advance. rewrite (go_factor _ _ _ _ i g Hg). set (new_id := token * f) in *.
  destruct Hs as (Hle & Ho & Hall). apply add_persisted_ok; [|done|done].
  pose proof (settled_default i g w Hg) as Hdef. destruct Hg. split; cbn; try done.
  - intros w' p' [[= -> ->]|Hin]%in_dset; [|auto]. by apply settled_max.
  - intros w' Hw'. rewrite dget_dset. case_decide as He; [|auto]. subst w'.
    destruct (go_all_writers0 w Hw') as (p & -> & Hp). simpl. eexists. split; [done|lia].
  - destruct go_max_seen0 as [Hm1 Hm2]. split; [lia|].
    destruct (Z.max_spec (_max_seen_allocated_stream_id g) new_id) as [[_ ->]|[_ ->]]; [by right|done].
Qed.

(** ** Marking IDs as finished *)

Lemma in_head (R : Z -> Z -> Prop) `{!Reflexive R} x l y :
  StronglySorted R (x :: l) -> y ∈ x :: l -> R x y.
Proof.
  intros Hs [->|Hy]%elem_of_cons; [done|]. inversion Hs as [|? ? _ Hf]; subst.
  rewrite Forall_forall in Hf. by apply Hf.
Qed.

Lemma min_unfinished_spec i g m id :
  gok i g -> min_unfinished g = Some m -> own !! id = Some i -> id < m -> id ∈ done.
Proof.
  intros Hg Hm Hid Hlt.
  assert (Hu : id ∈ ss_list (_unfinished_ids g) -> m <= id).
  { intros Hin. pose proof (ss_sorted (_unfinished_ids g)) as Hs. unfold min_unfinished in Hm.
    destruct (ss_list (_unfinished_ids g)) as [|u l] eqn:Hl; [by apply elem_of_nil in Hin|].
    assert (u <= id).
    { apply elem_of_cons in Hin as [->|Hin]; [done|]. inversion Hs as [|? ? _ Hf]; subst.
      rewrite Forall_forall in Hf. specialize (Hf id Hin). lia. }
    destruct (sl_list _); injection Hm as <-; lia. }
  assert (Hf : forall cm, cm ∈ sl_list (_in_flight_fetches g) -> m <= cm + 1).
  { intros cm Hin. pose proof (sl_sorted (_in_flight_fetches g)) as Hs. unfold min_unfinished in Hm.
    destruct (sl_list (_in_flight_fetches g)) as [|c l] eqn:Hl; [by apply elem_of_nil in Hin|].
    pose proof (in_head Z.le c l cm Hs Hin). destruct (ss_list _); injection Hm as <-; lia. }
  destruct (go_own _ _ _ _ i g Hg id Hid) as [?|[Hin|(t & Ht & Hi & (cm & n & Hp) & Hin)]]; [done| |].
  - specialize (Hu Hin). lia.
  - pose proof (Hf cm (flight_waiting i g t cm n Hg Ht Hi Hp)).
    destruct (wo_waiting _ _ _ _ Hw t cm n Ht Hp) as [_ Hgt]. specialize (Hgt id Hin). lia.
Qed.

Lemma new_position_ok i g new_cur fin :
  gok i g -> new_position g = Ok (new_cur, fin) ->
  fin ⊆ _finished_ids g /\ forall n, new_cur = Some n -> stl i n.
Proof.
  intros Hg Hn. unfold new_position in Hn.
  assert (Hfin : forall n, n ∈ _finished_ids g -> n <= seqv /\ ov n).
  { intros n Hin. destruct (go_finished _ _ _ _ i g Hg n Hin) as [Hown Hd]. split; [|by intros w _].
    by apply (wo_owners _ _ _ _ Hw) in Hown as [? _]; lia. }
  destruct (min_unfinished g) as [m|] eqn:Hm.
  - injection Hn as <- <-. split; [set_solver|]. intros n Hmax.
    pose proof (max_of_spec (filter (fun s => s < m) (_finished_ids g))) as Hs. rewrite Hmax in Hs.
    destruct Hs as [[Hlt Hin]%elem_of_filter _]. destruct (Hfin n Hin). split_and!; [done|done|].
    intros id Hid Hle. eapply min_unfinished_spec; [exact Hg|exact Hm|exact Hid|lia].
  - pose proof (max_of_spec (_finished_ids g)) as Hs.
    destruct (max_of (_finished_ids g)) as [n0|]; [|done]. injection Hn as <- <-.
    split; [set_solver|]. intros n [= <-]. destruct Hs as [Hin _]. destruct (Hfin n0 Hin).
    split_and!; [done|done|]. intros id Hid _. eapply idle_own; [exact Hg| |exact Hid].
    apply not_busy. unfold min_unfinished in Hm. by destruct (ss_list _), (sl_list _).
Qed.

Lemma move_position_ok i g new_cur :
  gok i g -> (forall n, new_cur = Some n -> stl i n /\ 1 <= n) -> gok i (move_position new_cur g).
Proof.
  intros Hg Hn. unfold move_position. destruct new_cur as [n|]; [|done].
  destruct (n =? 0); [done|]. destruct (Hn n eq_refl) as [Hs H1].
  rewrite (go_name _ _ _ _ i g Hg). pose proof (settled_default i g i Hg) as Hd.
  set (c := default 0 _) in *.
  assert (Hp : gok i (set_positions (dset i (Z.max c n)) g)).
  { apply set_position_ok; [done|by apply settled_max|lia]. }
  destruct Hp. split; cbn in *; try done. by repeat apply settled_max.
Qed.

Lemma mark_ok i g ids :
  gok i g -> (forall id, id ∈ ids -> own !! id = Some i /\ id ∈ done) ->
  gok i (snd (_mark_ids_as_finished ids g)).
Proof.
  intros Hg Hids.
  assert (Hg1 : gok i (set_finished (fun s => s ∪ list_to_set ids)
                         (set_unfinished (ss_difference_update ids) g))).
  { destruct Hg. split; cbn; try done.
    - intros id Hid. rewrite ss_in_difference. destruct (go_own0 id Hid) as [?|[Hin|?]]; [by left| |tauto].
      destruct (decide (id ∈ ids)) as [Hi|]; [|tauto]. left. by apply Hids.
    - intros id [Hin _]%ss_in_difference. auto.
    - intros id [Hin|Hin%elem_of_list_to_set]%elem_of_union; auto. }
  unfold _mark_ids_as_finished, st_bind, st_modify, st_read, st_lift.
  set (g1 := set_finished _ (set_unfinished _ g)) in *. clearbody g1.
  destruct (new_position g1) as [[new_cur fin]|e] eqn:Hn; [|done].
  destruct (new_position_ok i g1 new_cur fin Hg1 Hn) as [Hfin Hnew].
  assert (Hg2 : gok i (move_position new_cur (set_finished (fun _ => fin) g1))).
  { apply move_position_ok.
    - destruct Hg1. split; cbn; try done. intros id Hid. apply go_finished0. by apply Hfin.
    - intros n Hc. split; [by apply Hnew|]. revert Hn. unfold new_position.
      assert (Hpos : forall x, x ∈ _finished_ids g1 -> 1 <= x).
      { intros x Hx. apply (go_finished _ _ _ _ i g1 Hg1) in Hx as [Hx _].
        apply (wo_owners _ _ _ _ Hw) in Hx. lia. }
      destruct (min_unfinished g1) as [m|].
      + intros [= Hmax _]. pose proof (max_of_spec (filter (fun s => s < m) (_finished_ids g1))) as Hs.
        rewrite Hmax, Hc in Hs. destruct Hs as [[_ Hin]%elem_of_filter _]. auto.
      + pose proof (max_of_spec (_finished_ids g1)) as Hs. destruct (max_of _) as [n0|]; [|done].
        intros [= Heq _]. rewrite Hc in Heq. injection Heq as ->. destruct Hs as [Hin _]. auto. }
  set (g2 := move_position _ _) in *. clearbody g2. clear -Hg2 Hids Hw.
  cut (preserves (gok i) (st_for (fun x => st_modify (_add_persisted_position x)) ids)).
  { intros Hk. by apply Hk. }
  apply keeps_for. intros x Hx g Hg. unfold st_modify. cbn [snd]. destruct (Hids x Hx) as [Hown Hd].
  apply add_persisted_ok; [done| |by intros w _]. by apply (wo_owners _ _ _ _ Hw) in Hown as [? _]; lia.
Qed.
End invariant.

(** ** Changes of the world *)

Section steps.
Context `{SortedIntsLaws}.
Context (W : list string) (f : Z).

(** What holds of a generator still holds after the world moves on: new IDs are above all the
    old ones, and what is over stays over. *)
Lemma settled_mono seqv own done seqv' own' done' w p :
  seqv <= seqv' -> (forall id w, own' !! id = Some w -> id <= seqv -> own !! id = Some w) ->
  done ⊆ done' -> settled seqv own done w p -> settled seqv' own' done' w p.
Proof.
  intros Hs Ho Hd (Hp & Hov & Hall). split_and!; [lia| |].
  - intros w' Hid. apply Hd, (Hov w'). apply Ho; [done|lia].
  - intros id Hid Hle. apply Hd, Hall; [|done]. apply Ho; [done|lia].
Qed.

Lemma gen_ok_mono seqv own done ts seqv' own' done' ts' i g :
  gen_ok W f seqv own done ts i g ->
  seqv <= seqv' -> (forall id w, own' !! id = Some w -> id <= seqv -> own !! id = Some w) ->
  own ⊆ own' -> done ⊆ done' ->
  (forall id, own' !! id = Some i -> seqv < id -> exists t, t ∈ ts' /\ waiting_for i id t) ->
  (forall id t, t ∈ ts -> waiting_for i id t ->
     id ∈ done' \/ exists t', t' ∈ ts' /\ waiting_for i id t') ->
  omap (flight i) ts' ≡ₚ omap (flight i) ts ->
  gen_ok W f seqv' own' done' ts' i g.
Proof.
  intros Hg Hs Ho Hsub Hd Hnew Hwait Hfl.
  assert (Hset : forall w p, settled seqv own done w p -> settled seqv' own' done' w p)
    by (intros w p; by apply settled_mono).
  assert (Hov : forall x, x <= seqv -> over own done x -> over own' done' x).
  { intros x Hx Hox w Hid. apply Hd, (Hox w). by apply Ho. }
  destruct Hg. split; try done.
  - auto.
  - destruct go_upto0 as [Hle Hall]. split; [lia|]. intros id Hid. apply Hov; [lia|by apply Hall].
  - intros x Hx. destruct (go_known0 x Hx). split; [lia|auto].
  - destruct go_max_seen0 as [Hle Hm]. split; [lia|].
    destruct Hm as [Hm|Hm]; [left; by eapply lookup_weaken|right; auto].
  - auto.
  - intros id Hid. destruct (Z.le_gt_cases id seqv) as [Hle|Hgt]; [|right; right; auto].
    destruct (go_own0 id (Ho id i Hid Hle)) as [?|[?|(t & Ht & Hwt)]]; [left; auto|auto|].
    destruct (Hwait id t Ht Hwt); auto.
  - intros id Hid. eapply lookup_weaken; [by apply go_unfinished0|done].
  - intros id Hid. destruct (go_finished0 id Hid). split; [by eapply lookup_weaken|auto].
  - by rewrite Hfl.
Qed.

(** Only the threads change. *)
Lemma gen_ok_threads seqv own done ts ts' i g :
  gen_ok W f seqv own done ts i g ->
  (forall id, own !! id = Some i -> id <= seqv) ->
  (forall id t, t ∈ ts -> waiting_for i id t ->
     id ∈ done \/ exists t', t' ∈ ts' /\ waiting_for i id t') ->
  omap (flight i) ts' ≡ₚ omap (flight i) ts ->
  gen_ok W f seqv own done ts' i g.
Proof.
  intros Hg Ho Hwait Hfl. eapply gen_ok_mono; eauto; [lia|]. intros id Hid Hgt. apply Ho in Hid. lia.
Qed.

Lemma flight_app i l1 t l2 :
  omap (flight i) (l1 ++ t :: l2) ≡ₚ omap (flight i) [t] ++ omap (flight i) (l1 ++ l2).
Proof.
  rewrite !omap_app. change (t :: l2) with ([t] ++ l2). rewrite omap_app.
  rewrite (Permutation_app_comm (omap (flight i) l1)), <- app_assoc.
  by rewrite (Permutation_app_comm (omap (flight i) l2)).
Qed.

(** One thread is replaced. *)
Lemma flight_swap i l1 t t' l2 :
  flight i t = flight i t' -> omap (flight i) (l1 ++ t' :: l2) ≡ₚ omap (flight i) (l1 ++ t :: l2).
Proof. intros Hf. rewrite !flight_app. csimpl. by rewrite Hf. Qed.

Lemma flight_drop i l1 t l2 :
  flight i t = None -> omap (flight i) (l1 ++ l2) ≡ₚ omap (flight i) (l1 ++ t :: l2).
Proof. intros Hf. rewrite !flight_app. csimpl. by rewrite Hf. Qed.

Lemma flight_other i j ph ids : i <> j -> flight j {| t_inst := i; t_phase := ph; t_ids := ids |} = None.
Proof. intros. unfold flight. simpl. destruct (String.eqb_spec i j); done. Qed.

Lemma in_mid {A} (x : A) l1 y l2 : x ∈ l1 ++ y :: l2 <-> x = y \/ x ∈ l1 ++ l2.
Proof. rewrite !elem_of_app, elem_of_cons. tauto. Qed.

(** Replacing a thread whose IDs are not waited for any more, or still are. *)
Lemma waiting_swap i id l1 t t' l2 (P : Prop) :
  (waiting_for i id t -> P \/ waiting_for i id t') ->
  forall u, u ∈ l1 ++ t :: l2 -> waiting_for i id u ->
  P \/ exists u', u' ∈ l1 ++ t' :: l2 /\ waiting_for i id u'.
Proof.
  intros Ht u Hu Hw. rewrite in_mid in Hu. destruct Hu as [->|Hu].
  - destruct (Ht Hw); [by left|]. right. exists t'. rewrite in_mid. auto.
  - right. exists u. rewrite in_mid. auto.
Qed.

Lemma waiting_drop i id l1 t l2 (P : Prop) :
  (waiting_for i id t -> P) ->
  forall u, u ∈ l1 ++ t :: l2 -> waiting_for i id u ->
  P \/ exists u', u' ∈ l1 ++ l2 /\ waiting_for i id u'.
Proof.
  intros Ht u Hu Hw. rewrite in_mid in Hu. destruct Hu as [->|Hu]; [left; auto|].
  right. by exists u.
Qed.
End steps.
