(* ===== verification/StreamInvariant.v ===== *)
(** * StreamInvariant: every step of the workers keeps the invariant *)
From S2P Require Import Prelude PyVal PySort PyState TopoSort StreamIds StreamSafety.
From Stdlib Require Import String.
Open Scope list_scope.
Open Scope Z_scope.

Section steps.
Context `{SortedIntsLaws}.
Context (W : list string) (f : Z) (HW : W <> []) (Hf : f * f = 1).

Definition thread_ok (seqv : Z) (own : gmap Z string) (done : gset Z) (t : Thread) : Prop :=
  t_inst t ∈ W /\ (forall id, id ∈ t_ids t -> own !! id = Some (t_inst t)) /\
  (forall cm n, t_phase t = Waiting cm n -> cm <= seqv /\ forall id, id ∈ t_ids t -> cm < id) /\
  (t_phase t = Over -> forall id, id ∈ t_ids t -> id ∈ done).

Lemma world_thread seqv own done ts t :
  world_ok W seqv own done ts -> t ∈ ts -> thread_ok seqv own done t.
Proof. intros [] Hin. split_and!; eauto. Qed.

Lemma world_swap seqv own done ts ts' :
  world_ok W seqv own done ts -> (forall t, t ∈ ts' -> t ∈ ts \/ thread_ok seqv own done t) ->
  world_ok W seqv own done ts'.
Proof.
  intros Hw Ht.
  assert (Hall : forall t, t ∈ ts' -> thread_ok seqv own done t).
  { intros t Hin. destruct (Ht t Hin); [by eapply world_thread|done]. }
  destruct Hw. split; try done.
  - intros t Hin. by apply Hall.
  - intros t id Hin. by apply Hall.
  - intros t cm n Hin. by apply Hall.
  - intros t id Hin Hp. by apply Hall.
Qed.

Record sys_ok (s : Sys) : Prop := {
  so_world : world_ok W (seq_value s) (owners s) (finished s) (threads s);
  so_gens : forall i g, gens s !! i = Some g ->
    gen_ok W f (seq_value s) (owners s) (finished s) (threads s) i g;
  so_announced : forall w t, (w, t) ∈ announced s ->
    settled (seq_value s) (owners s) (finished s) w (t * f)
}.

Lemma sys_owners s i id : sys_ok s -> owners s !! id = Some i -> id <= seq_value s.
Proof. intros Hs Hid. apply (wo_owners _ _ _ _ _ (so_world s Hs)) in Hid. lia. Qed.

(** One generator changes and one thread is replaced; what the new generator must satisfy is
    left open. *)
Lemma set_gen_ok s i g ts' :
  sys_ok s ->
  (forall t, t ∈ ts' -> t ∈ threads s \/ thread_ok (seq_value s) (owners s) (finished s) t) ->
  (forall j id, j <> i -> owners s !! id = Some j -> forall t, t ∈ threads s -> waiting_for j id t ->
     id ∈ finished s \/ exists t', t' ∈ ts' /\ waiting_for j id t') ->
  (forall j, j <> i -> omap (flight j) ts' ≡ₚ omap (flight j) (threads s)) ->
  gen_ok W f (seq_value s) (owners s) (finished s) ts' i g ->
  sys_ok (set_gen i g (set_threads ts' s)).
Proof.
  intros Hs Ht Hwait Hfl Hg. split; cbn.
  - eapply world_swap; [apply Hs|done].
  - intros j gj Hj. apply lookup_insert_Some in Hj as [[<- <-]|[Hne Hj]]; [done|].
    eapply gen_ok_threads; [by eapply so_gens| | |by apply Hfl].
    + intros id Hid. by eapply sys_owners.
    + intros id t Hin Hw. eapply (Hwait j id); try done.
      destruct Hw as (<- & _ & Hin'). by eapply (wo_ids _ _ _ _ _ (so_world s Hs)).
  - apply Hs.
Qed.

Lemma begin_ok s i g cm g' n :
  sys_ok s -> gens s !! i = Some g -> check_writer g = Ok tt -> fetch_begin g = (Ok cm, g') ->
  sys_ok (set_gen i g' (set_threads
    ({| t_inst := i; t_phase := Waiting cm n; t_ids := [] |} :: threads s) s)).
Proof.
  intros Hs Hi Hc Hb. pose proof (so_gens s Hs i g Hi) as Hg.
  injection Hb as <- <-. set (t := {| t_inst := i; t_phase := _; t_ids := [] |}).
  assert (HiW : i ∈ W).
  { unfold check_writer in Hc. rewrite (go_writers _ _ _ _ _ _ i g Hg), (go_name _ _ _ _ _ _ i g Hg) in Hc.
    destruct W; [done|]. by case_bool_decide. }
  apply set_gen_ok; try done.
  - intros u [->|Hu]%elem_of_cons; [|by left]. right. split_and!; [done|by intros id ?%elem_of_nil| |done].
    intros cm n' [= <- _]. split; [apply (go_max_seen _ _ _ _ _ _ i g Hg)|by intros id ?%elem_of_nil].
  - intros j id _ _ u Hu Hw. right. exists u. split; [by right|done].
  - intros j Hne. assert (Hn : flight j t = None) by (apply flight_other; congruence).
    csimpl. by rewrite Hn.
  - destruct Hg. split; cbn; try done.
    + intros id Hid. destruct (go_own id Hid) as [?|[?|(u & Hu & Hw)]]; [auto|auto|].
      right; right. exists u. split; [by right|done].
    + rewrite sl_perm_add, go_in_flight. unfold flight at 2. cbn. by rewrite String.eqb_refl.
Qed.

Lemma ids_ok s i g cm ids l1 l2 r g' :
  sys_ok s -> threads s = l1 ++ {| t_inst := i; t_phase := Waiting cm 0; t_ids := ids |} :: l2 ->
  gens s !! i = Some g -> fetch_ids ids g = (r, g') ->
  sys_ok (set_gen i g' (set_threads
    (l1 ++ {| t_inst := i; t_phase := Ending cm (is_ok r); t_ids := ids |} :: l2) s)).
Proof.
  intros Hs Ht Hi Hr. pose proof (so_gens s Hs i g Hi) as Hg.
  set (t := {| t_inst := i; t_phase := Waiting cm 0; t_ids := ids |}) in *.
  set (t' := {| t_inst := i; t_phase := Ending cm (is_ok r); t_ids := ids |}).
  assert (Htok : thread_ok (seq_value s) (owners s) (finished s) t).
  { eapply world_thread; [apply Hs|]. rewrite Ht, in_mid. by left. }
  destruct Htok as (HiW & Hown & _).
  apply set_gen_ok; try done.
  - intros u. rewrite Ht, !in_mid. intros [->|Hu]; [|by auto]. right. by split_and!.
  - intros j id Hne _. rewrite Ht. apply waiting_swap. intros (Hj & _). by destruct Hne.
  - intros j Hne. rewrite Ht. apply flight_swap. unfold t, t'. rewrite !flight_other by congruence. done.
  - assert (Hg1 : gen_ok W f (seq_value s) (owners s) (finished s) (l1 ++ t' :: l2) i
                    (set_unfinished (ss_update ids) g)).
    { destruct Hg. split; cbn; try done.
      - intros id Hid. rewrite ss_in_update. destruct (go_own id Hid) as [?|[?|(u & Hu & Hw)]]; [auto|auto|].
        rewrite Ht, in_mid in Hu. destruct Hu as [->|Hu]; [right; left; left; apply Hw|].
        right; right. exists u. rewrite in_mid. auto.
      - intros id [Hin|Hin]%ss_in_update; [by apply Hown|auto].
      - rewrite go_in_flight, Ht. apply flight_swap. done. }
    unfold fetch_ids, st_bind, st_modify, st_read in Hr. cbn in Hr.
    destruct (last (ss_list (ss_update ids (_unfinished_ids g)))) as [m|] eqn:Hl; injection Hr as _ <-.
    + apply last_Some_elem_of in Hl.
      pose proof (go_unfinished _ _ _ _ _ _ i _ Hg1 m Hl) as Hm. destruct Hg1. split; cbn; try done.
      destruct go_max_seen as [Hle Hms]. cbn in Hle, Hms. pose proof (sys_owners s i m Hs Hm).
      split; [lia|]. destruct (Z.max_spec (_max_seen_allocated_stream_id g) m) as [[_ ->]|[_ ->]]; auto.
    + exact Hg1.
Qed.

Lemma end_ok s i g cm ok ids l1 l2 r g' :
  sys_ok s -> threads s = l1 ++ {| t_inst := i; t_phase := Ending cm ok; t_ids := ids |} :: l2 ->
  gens s !! i = Some g -> fetch_end cm g = (r, g') ->
  sys_ok (set_gen i g' (set_threads
    (l1 ++ (if ok then [{| t_inst := i; t_phase := Working; t_ids := ids |}] else []) ++ l2) s)).
Proof.
  intros Hs Ht Hi Hr. pose proof (so_gens s Hs i g Hi) as Hg.
  set (t := {| t_inst := i; t_phase := Ending cm ok; t_ids := ids |}) in *.
  set (mid := if ok then _ else []).
  assert (Htok : thread_ok (seq_value s) (owners s) (finished s) t).
  { eapply world_thread; [apply Hs|]. rewrite Ht, in_mid. by left. }
  destruct Htok as (HiW & Hown & _).
  assert (Hmid : forall u, u ∈ mid -> u = {| t_inst := i; t_phase := Working; t_ids := ids |}).
  { unfold mid. destruct ok; [by intros u ->%list_elem_of_singleton|by intros u ?%elem_of_nil]. }
  assert (Hflm : forall j, omap (flight j) (l1 ++ mid ++ l2) = omap (flight j) (l1 ++ l2)).
  { intros j. rewrite !omap_app. f_equal. unfold mid. destruct ok; [|done]. csimpl.
    unfold flight at 1. cbn. by destruct (String.eqb i j). }
  assert (Hw' : forall j id (P : Prop), forall u, u ∈ threads s -> waiting_for j id u ->
    P \/ exists u', u' ∈ l1 ++ mid ++ l2 /\ waiting_for j id u').
  { intros j id P u Hu Hw. rewrite Ht, in_mid in Hu. destruct Hu as [->|Hu].
    - by destruct Hw as (_ & (? & ? & ?) & _).
    - right. exists u. split; [|done]. rewrite !elem_of_app. apply elem_of_app in Hu. tauto. }
  apply set_gen_ok; try done.
  - intros u. rewrite !elem_of_app. intros [Hu|[Hu|Hu]].
    + left. rewrite Ht, in_mid, elem_of_app. auto.
    + right. rewrite (Hmid u Hu). by split_and!.
    + left. rewrite Ht, in_mid, elem_of_app. auto.
  - intros j id _ _ u Hu Hw. by apply (Hw' j id _ u).
  - intros j Hne. rewrite Hflm, Ht. apply flight_drop. apply flight_other. congruence.
  - assert (Hin : cm ∈ sl_list (_in_flight_fetches g)).
    { rewrite (go_in_flight _ _ _ _ _ _ i g Hg), Ht, flight_app. apply elem_of_app. left. csimpl.
      unfold flight, t. cbn. rewrite String.eqb_refl. by left. }
    unfold fetch_end in Hr. destruct (sl_perm_remove cm _ Hin) as (l & Hrem & Hperm).
    rewrite Hrem in Hr. injection Hr as _ <-. destruct Hg. split; cbn; try done.
    + intros id Hid. destruct (go_own id Hid) as [?|[?|(u & Hu & Hw)]]; [auto|auto|].
      destruct (Hw' i id False u Hu Hw); [done|auto].
    + rewrite Hflm. apply (Permutation_cons_inv (a := cm)). rewrite Hperm, go_in_flight, Ht, flight_app.
      csimpl. unfold flight at 1, t. cbn. by rewrite String.eqb_refl.
Qed.

Lemma mark_step_ok s i g ids l1 l2 r g' :
  sys_ok s -> threads s = l1 ++ {| t_inst := i; t_phase := Over; t_ids := ids |} :: l2 ->
  gens s !! i = Some g -> _mark_ids_as_finished ids g = (r, g') ->
  sys_ok (set_gen i g' (set_threads (l1 ++ l2) s)).
Proof.
  intros Hs Ht Hi Hr. pose proof (so_gens s Hs i g Hi) as Hg.
  set (t := {| t_inst := i; t_phase := Over; t_ids := ids |}) in *.
  assert (Htok : thread_ok (seq_value s) (owners s) (finished s) t).
  { eapply world_thread; [apply Hs|]. rewrite Ht, in_mid. by left. }
  destruct Htok as (_ & Hown & _ & Hover).
  assert (Hnw : forall j id (P : Prop), waiting_for j id t -> P).
  { by intros j id P (_ & (? & ? & ?) & _). }
  assert (Hin : forall u, u ∈ l1 ++ l2 -> u ∈ threads s) by (intros u; rewrite Ht, in_mid; auto).
  assert (Hw' : world_ok W (seq_value s) (owners s) (finished s) (l1 ++ l2)).
  { eapply world_swap; [apply Hs|]. auto. }
  apply set_gen_ok; try done.
  - intros u Hu. left. auto.
  - intros j id _ _. rewrite Ht. apply waiting_drop. apply Hnw.
  - intros j Hne. rewrite Ht. apply flight_drop. apply flight_other. congruence.
  - replace g' with (snd (_mark_ids_as_finished ids g)) by (by rewrite Hr). apply mark_ok; [done| |].
    + eapply gen_ok_threads; [exact Hg|intros id Hid; by eapply sys_owners| |].
      * intros id. rewrite Ht. apply waiting_drop. apply Hnw.
      * rewrite Ht. apply flight_drop. unfold flight, t. cbn. by destruct (String.eqb i i).
    + intros id Hid. split; [by apply Hown|by apply Hover].
Qed.
(** IDs whose transaction is over; the thread that had them does not wait any more. *)
Lemma finish_ok s i ph ph' ids l1 l2 :
  sys_ok s -> threads s = l1 ++ {| t_inst := i; t_phase := ph; t_ids := ids |} :: l2 ->
  (forall cm n, ph' <> Waiting cm n) ->
  flight i {| t_inst := i; t_phase := ph; t_ids := ids |} =
  flight i {| t_inst := i; t_phase := ph'; t_ids := ids |} ->
  sys_ok (finish_ids ids (set_threads
    (l1 ++ {| t_inst := i; t_phase := ph'; t_ids := ids |} :: l2) s)).
Proof.
  intros Hs Ht Hph Hfl. set (t := {| t_inst := i; t_phase := ph; t_ids := ids |}) in *.
  set (t' := {| t_inst := i; t_phase := ph'; t_ids := ids |}) in *.
  assert (Htok : thread_ok (seq_value s) (owners s) (finished s) t).
  { eapply world_thread; [apply Hs|]. rewrite Ht, in_mid. by left. }
  destruct Htok as (HiW & Hown & _ & _).
  assert (Hsub : finished s ⊆ finished s ∪ list_to_set ids) by set_solver.
  split; cbn.
  - assert (Hin : forall u, u ∈ l1 ++ t' :: l2 -> u = t' \/ u ∈ threads s)
      by (intros u; rewrite Ht, !in_mid; tauto).
    destruct (so_world s Hs). split; try done.
    + intros id [?|Hid%elem_of_list_to_set]%elem_of_union; [auto|]. by eapply sys_owners, Hown.
    + intros u [->|Hu]%Hin; auto.
    + intros u id [->|Hu]%Hin; [apply Hown|eauto].
    + intros u cm n [->|Hu]%Hin; [intros Hp; by destruct (Hph cm n)|eauto].
    + intros u id [->|Hu]%Hin Hp Hid; [|apply Hsub; eauto].
      apply elem_of_union. right. by apply elem_of_list_to_set.
  - intros j g Hj. pose proof (so_gens s Hs j g Hj) as Hg.
    eapply gen_ok_mono; [exact Hg|done|done|done|exact Hsub| | |].
    + intros id Hid Hgt. apply sys_owners in Hid; [lia|done].
    + intros id. rewrite Ht. apply waiting_swap. intros (_ & _ & Hid). left. cbn in Hid.
      apply elem_of_union. right. by apply elem_of_list_to_set.
    + rewrite Ht. apply flight_swap. destruct (decide (j = i)) as [->|Hne]; [done|].
      unfold t, t'. rewrite !flight_other by congruence. done.
  - intros w tok Hin. eapply settled_mono; [done|done|exact Hsub|]. by apply Hs.
Qed.

Lemma nextval_ok s i cm n ids l1 l2 :
  sys_ok s -> threads s = l1 ++ {| t_inst := i; t_phase := Waiting cm (Datatypes.S n); t_ids := ids |} :: l2 ->
  sys_ok (allocate i (set_threads
    (l1 ++ {| t_inst := i; t_phase := Waiting cm n; t_ids := ids ++ [seq_value s + 1] |} :: l2) s)).
Proof.
  intros Hs Ht. set (t := {| t_inst := i; t_phase := Waiting cm (Datatypes.S n); t_ids := ids |}) in *.
  set (t' := {| t_inst := i; t_phase := Waiting cm n; t_ids := _ |}).
  assert (Htok : thread_ok (seq_value s) (owners s) (finished s) t).
  { eapply world_thread; [apply Hs|]. rewrite Ht, in_mid. by left. }
  destruct Htok as (HiW & Hown & Hwait & _).
  destruct (Hwait cm (Datatypes.S n) eq_refl) as [Hcm Hids].
  assert (Hfresh : owners s !! (seq_value s + 1) = None).
  { apply eq_None_not_Some. intros [w Hw]. apply (sys_owners s) in Hw; [lia|done]. }
  assert (Hsub : owners s ⊆ <[seq_value s + 1 := i]> (owners s)) by (by apply insert_subseteq).
  assert (Hold : forall id w, <[seq_value s + 1 := i]> (owners s) !! id = Some w ->
    id <= seq_value s -> owners s !! id = Some w).
  { intros id w Hid Hle. rewrite lookup_insert_ne in Hid by lia. done. }
  split; cbn.
  - assert (Hin : forall u, u ∈ l1 ++ t' :: l2 -> u = t' \/ u ∈ threads s)
      by (intros u; rewrite Ht, !in_mid; tauto).
    destruct (so_world s Hs). split.
    + lia.
    + intros id w [[<- <-]|[_ Hid]]%lookup_insert_Some; [split; [lia|done]|].
      destruct (wo_owners id w Hid). split; [lia|done].
    + intros id Hid%wo_done. lia.
    + intros u [->|Hu]%Hin; auto.
    + intros u id [->|Hu]%Hin Hid; [|eapply lookup_weaken; [by eapply wo_ids|done]].
      cbn in Hid |- *. apply elem_of_app in Hid as [Hid| ->%list_elem_of_singleton].
      * eapply lookup_weaken; [by apply Hown|done].
      * by rewrite lookup_insert_eq.
    + intros u cm' n' [->|Hu]%Hin Hp.
      * injection Hp as -> ->. split; [lia|]. cbn. intros id [Hid| ->%list_elem_of_singleton]%elem_of_app; [auto|lia].
      * destruct (wo_waiting u cm' n' Hu Hp). split; [lia|done].
    + intros u id [->|Hu]%Hin Hp; [done|eauto].
  - intros j g Hj. pose proof (so_gens s Hs j g Hj) as Hg.
    eapply gen_ok_mono; [exact Hg|lia|exact Hold|exact Hsub|done| | |].
    + intros id [[<- <-]|[_ Hid]]%lookup_insert_Some Hgt.
      * exists t'. rewrite in_mid. split; [by left|]. split_and!; [done|by exists cm, n|].
        cbn. rewrite elem_of_app, list_elem_of_singleton. by right.
      * apply (sys_owners s) in Hid; [lia|done].
    + intros id. rewrite Ht. apply waiting_swap. intros (Hj' & _ & Hid). right.
      split_and!; [done|by exists cm, n|]. cbn in Hid |- *. rewrite elem_of_app. by left.
    + rewrite Ht. apply flight_swap. done.
  - intros w tok Hin. eapply settled_mono; [|exact Hold|done|by apply Hs]. lia.
Qed.

Lemma announce_ok s i token :
  sys_ok s -> settled (seq_value s) (owners s) (finished s) i (token * f) ->
  sys_ok (announce i token s).
Proof.
  intros [] Hset. split; cbn; try done. intros w t [[= -> ->]|Hin]%elem_of_cons; auto.
Qed.

Lemma sys_step_ok s s' : sys_step s s' -> sys_ok s -> sys_ok s'.
Proof.
  intros Hstep Hs. destruct Hstep.
  - by eapply begin_ok.
  - by eapply nextval_ok.
  - by eapply ids_ok.
  - eapply finish_ok; done.
  - by eapply end_ok.
  - eapply finish_ok; done.
  - by eapply mark_step_ok.
  - pose proof (so_gens s Hs i g ltac:(done)) as Hg. apply announce_ok; [done|].
    unfold get_current_token_for_writer. rewrite (go_name _ _ _ _ _ _ i g Hg), String.eqb_refl.
    rewrite (go_factor _ _ _ _ _ _ i g Hg), Z.mul_shuffle0, Hf, Z.mul_1_l. exact (go_local _ _ _ _ _ _ i g Hg).
  - pose proof (so_gens s Hs i g ltac:(done)) as Hg. apply announce_ok; [done|].
    rewrite (go_factor _ _ _ _ _ _ i g Hg), Z.mul_shuffle0, Hf, Z.mul_1_l.
    destruct (go_local _ _ _ _ _ _ i g Hg) as (Hle & _ & Hall). split_and!; [by eapply sys_owners|by intros w _|].
    intros id' Hid' Hle'. apply Hall; [done|lia].
  - pose proof (so_gens s Hs j g ltac:(done)) as Hg.
    assert (Heq : set_gen j (advance i token g) s = set_gen j (advance i token g) (set_threads (threads s) s))
      by done.
    rewrite Heq. apply set_gen_ok; try done.
    + by left.
    + intros k id _ _ u Hu Hw. right. by exists u.
    + apply advance_ok; [apply Hs|done|]. by apply Hs.
Qed.
End steps.
