(* ===== verification/StreamProps.v ===== *)
(** * StreamProps: what readers of a stream can rely on *)
From S2P Require Import Prelude PyVal PySort PyState TopoSort StreamIds StreamSafety.
From S2P Require Import StreamInvariant.
From Stdlib Require Import String.
Open Scope list_scope.
Open Scope Z_scope.

(** ** A new stream *)

Section start.
Context `{SortedIntsLaws}.

Definition setdefault (g : IdGen) (w : string) : IdGen :=
  set_positions (fun d => if dmem w d then d else dset w (_persisted_upto_position g) d) g.

Lemma setdefaults_spec ws g :
  let g' := fold_left setdefault ws g in
  _instance_name g' = _instance_name g /\ _writers g' = _writers g /\
  _return_factor g' = _return_factor g /\ _unfinished_ids g' = _unfinished_ids g /\
  _in_flight_fetches g' = _in_flight_fetches g /\ _finished_ids g' = _finished_ids g /\
  _persisted_upto_position g' = _persisted_upto_position g /\
  _known_persisted_positions g' = _known_persisted_positions g /\
  _max_seen_allocated_stream_id g' = _max_seen_allocated_stream_id g /\
  (forall w p, (w, p) ∈ _current_positions g' ->
     (w, p) ∈ _current_positions g \/ p = _persisted_upto_position g) /\
  (forall w, w ∈ ws \/ is_Some (dget w (_current_positions g)) ->
     is_Some (dget w (_current_positions g'))).
Proof.
  revert g. induction ws as [|w ws IH]; intros g; simpl.
  - split_and!; try done; [by left|]. intros w [?%elem_of_nil|?]; done.
  - destruct (IH (setdefault g w)) as (-> & -> & -> & -> & -> & -> & -> & -> & -> & Hin & Hsome).
    unfold setdefault in *; cbn [set_positions _current_positions _persisted_upto_position] in *.
    split_and!; try done.
    + intros w' p' [Hp|Hp]%Hin; [|by right]. destruct (dmem w _); [by left|].
      apply in_dset in Hp as [[= -> ->]|?]; [by right|by left].
    + intros w' Hw'. apply Hsome. unfold dmem. destruct (dget w (_current_positions g)) as [p|] eqn:Hd.
      * rewrite elem_of_cons in Hw'. destruct Hw' as [[->|?]|?]; eauto.
      * rewrite dget_dset. case_decide as He; [eauto|]. rewrite elem_of_cons in Hw'. tauto.
Qed.

Lemma load_fresh g postgres :
  _writers g <> [] ->
  exists b, _load_current_ids (fresh_db postgres) g =
    (fold_left setdefault (_writers g) (set_persisted 1 (_known_persisted_positions g)
       (set_positions (fun _ => if b : bool then [(_instance_name g, 1)] else []) g)), []).
Proof.
  intros HW. exists (bool_decide (_instance_name g ∈ _writers g) && postgres).
  destruct g as [name ws fac ps uf fl fi pu kn ms lm]. cbn in *. destruct ws as [|w ws]; [done|].
  unfold _load_current_ids. cbn [_writers _instance_name _return_factor set_positions].
  destruct (bool_decide (name ∈ w :: ws)), postgres; reflexivity.
Qed.

Lemma start_gen_ok (W : list string) (f seqv : Z) (i : string) (positive postgres : bool) :
  W <> [] -> f = (if positive then 1 else -1) -> 1 <= seqv ->
  gen_ok W f seqv ∅ ∅ [] i (fst (MultiWriterIdGenerator i W positive (fresh_db postgres))).
Proof.
  intros HW Hf Hseq. unfold MultiWriterIdGenerator. set (g := Build_IdGen _ _ _ _ _ _ _ _ _ _ _).
  destruct (load_fresh g postgres HW) as [b ->]. cbn [_writers g _known_persisted_positions _instance_name].
  set (g0 := set_positions _ g).
  assert (Hg0 : _current_positions g0 = [] \/ _current_positions g0 = [(i, 1)])
    by (destruct b; auto).
  assert (Hfields : _instance_name g0 = i /\ _writers g0 = W /\ _return_factor g0 = f /\
    _unfinished_ids g0 = ss_empty /\ _in_flight_fetches g0 = sl_empty /\ _finished_ids g0 = ∅ /\
    _max_seen_allocated_stream_id g0 = 1).
  { rewrite Hf. by split_and!. }
  clearbody g0.
  destruct (setdefaults_spec W (set_persisted 1 [] g0))
    as (Hn & Hw & Hr & Hu & Hfl & Hfi & Hpu & Hk & Hms & Hin & Hsome).
  set (g2 := fold_left setdefault W _) in *.
  destruct Hfields as (E1 & E2 & E3 & E4 & E5 & E6 & E7).
  cbn in Hn, Hw, Hr, Hu, Hfl, Hfi, Hpu, Hk, Hms, Hin, Hsome.
  assert (Hone : forall w p, (w, p) ∈ _current_positions g2 -> p = 1).
  { intros w p [Hp|Hp]%Hin; [|done]. destruct Hg0 as [He|He]; rewrite He in Hp.
    - by apply elem_of_nil in Hp.
    - by apply list_elem_of_singleton in Hp as [= _ ->]. }
  assert (Hmax : Z.max (max_default 1 (map snd (_current_positions g2))) (_persisted_upto_position g2) = 1).
  { rewrite Hpu. destruct (map snd (_current_positions g2)) as [|x l] eqn:Hl; [done|]. simpl.
    destruct (fold_max_spec l x) as (_ & _ & Hm).
    assert (Hx : fold_left Z.max l x ∈ x :: l) by (rewrite elem_of_cons; tauto). rewrite <- Hl in Hx.
    apply in_map_b in Hx as ([w p] & -> & Hwp). rewrite (Hone w p Hwp). done. }
  rewrite Hmax. clear Hmax.
  assert (Hset : forall w, settled seqv ∅ ∅ w 1) by (intros w; split_and!; [lia|by intros ? ?|by intros ? ?]).
  clearbody g2. destruct W; [done|].
  split; cbn; rewrite ?Hn, ?Hw, ?Hr, ?Hu, ?Hfl, ?Hfi, ?Hpu, ?Hk, ?E1, ?E2, ?E3, ?E4, ?E5, ?E6; try done.
  - intros w p ->%Hone. apply Hset.
  - intros w Hw'. destruct (Hsome w (or_introl Hw')) as [p Hp]. exists p. split; [done|].
    apply dget_in, Hone in Hp. lia.
  - by intros x ?%elem_of_nil.
  - split; [lia|]. right. by intros w ?.
  - by intros id ?%ss_in_empty.
  - by rewrite sl_list_empty.
Qed.

Lemma start_ok W instances (positive postgres : bool) :
  W <> [] -> sys_ok W (if positive : bool then 1 else -1) (start W instances positive postgres).
Proof.
  intros HW. split; cbn.
  - split; try done; [by intros t ?%elem_of_nil|by intros t id ?%elem_of_nil|
      by intros t cm n ?%elem_of_nil|by intros t id ?%elem_of_nil].
  - intros i g Hg. apply elem_of_list_to_map_2, in_map_b in Hg as (i' & [= <- ->] & _).
    by apply start_gen_ok.
  - by intros w t ?%elem_of_nil.
Qed.

Lemma sys_steps_ok W f s s' :
  W <> [] -> f * f = 1 -> rtc sys_step s s' -> sys_ok W f s -> sys_ok W f s'.
Proof. intros HW Hf. induction 1; [done|]. intros. eauto using sys_step_ok. Qed.

Lemma reachable_ok W instances (positive postgres : bool) s :
  W <> [] -> rtc sys_step (start W instances positive postgres) s ->
  sys_ok W (if positive : bool then 1 else -1) s.
Proof.
  intros HW Hs. eapply sys_steps_ok; [done|by destruct positive|exact Hs|by apply start_ok].
Qed.
End start.

(** ** Positions never pass a write that is not over *)

Section safety.
Context `{SortedIntsLaws}.

Lemma step_owners s s' : sys_step s s' ->
  seq_value s <= seq_value s' /\
  forall id w, owners s' !! id = Some w -> id <= seq_value s -> owners s !! id = Some w.
Proof.
  destruct 1; cbn; (split; [lia|]); try done. intros id w Hid Hle.
  rewrite lookup_insert_ne in Hid by lia. done.
Qed.

Lemma steps_owners s s' : rtc sys_step s s' ->
  seq_value s <= seq_value s' /\
  forall id w, owners s' !! id = Some w -> id <= seq_value s -> owners s !! id = Some w.
Proof.
  induction 1 as [|s1 s2 s3 Hstep _ [IH1 IH2]]; [done|].
  destruct (step_owners s1 s2 Hstep) as [H1' H2']. split; [lia|].
  intros id w Hid Hle. apply H2'; [|done]. apply IH2; [done|lia].
Qed.

(** C20: a reader that has read a stream up to the current token misses nothing: every ID up to
    the token that any worker was or will ever be given belongs to a write that is over
    already.  The same holds of the token of one writer and the IDs of that writer. *)
Theorem stream_position_safe W instances positive postgres s i g s' id w :
  W <> [] -> rtc sys_step (start W instances positive postgres) s -> gens s !! i = Some g ->
  rtc sys_step s s' -> owners s' !! id = Some w ->
  (id <= _return_factor g * get_current_token g -> id ∈ finished s) /\
  (id <= _return_factor g * get_current_token_for_writer w g -> id ∈ finished s).
Proof.
  intros HW Hs Hi Hs' Hid.
  pose proof (reachable_ok W instances positive postgres s HW Hs) as Hok.
  pose proof (so_gens _ _ s Hok i g Hi) as Hg. destruct (steps_owners s s' Hs') as [_ Hold].
  set (f := if positive then 1 else -1) in *.
  assert (Hff : forall x, f * (f * x) = x) by (intros x; unfold f; destruct positive; lia).
  unfold get_current_token, get_persisted_upto_position, get_current_token_for_writer.
  rewrite (go_factor _ _ _ _ _ _ i g Hg), (go_name _ _ _ _ _ _ i g Hg). split.
  - rewrite Hff. intros Hle. destruct (go_upto _ _ _ _ _ _ i g Hg) as [Hseq Hall].
    apply (Hall id Hle w). apply Hold; [done|lia].
  - assert (Hset : settled (seq_value s) (owners s) (finished s) w
      (if String.eqb i w then _max_position_of_local_instance g
       else Z.max (default (_persisted_upto_position g) (dget w (_current_positions g)))
              (_persisted_upto_position g))).
    { pose proof (all_over_settled _ _ _ w _ (go_upto _ _ _ _ _ _ i g Hg)) as Hup.
      destruct (String.eqb_spec i w) as [<-|]; [exact (go_local _ _ _ _ _ _ i g Hg)|].
      apply settled_max; [|done]. destruct (dget w _) as [p|] eqn:Hd; [|done].
      apply dget_in in Hd. exact (go_positions _ _ _ _ _ _ i g Hg w p Hd). }
    destruct Hset as (Hseq & _ & Hall). destruct (String.eqb i w); rewrite Hff; intros Hle;
      (apply Hall; [apply Hold; [done|lia]|done]).
Qed.

(** ** Positions only move forward *)

(** What a method does to a generator: its positions only grow. *)
Definition moves (g g' : IdGen) : Prop :=
  _instance_name g' = _instance_name g /\ _return_factor g' = _return_factor g /\
  _persisted_upto_position g <= _persisted_upto_position g' /\
  _max_position_of_local_instance g <= _max_position_of_local_instance g' /\
  _max_seen_allocated_stream_id g <= _max_seen_allocated_stream_id g' /\
  forall w p, dget w (_current_positions g) = Some p ->
    exists p', dget w (_current_positions g') = Some p' /\ p <= p'.

#[export] Instance moves_preorder : PreOrder moves.
Proof.
  split.
  - intros g. split_and!; try done. intros w p Hp. exists p. split; [done|lia].
  - intros g1 g2 g3 (? & ? & ? & ? & ? & Hp1) (? & ? & ? & ? & ? & Hp2).
    split_and!; try congruence; try lia. intros w p Hp. destruct (Hp1 w p Hp) as (q & Hq & ?).
    destruct (Hp2 w q Hq) as (r & Hr & ?). exists r. split; [done|lia].
Qed.

Lemma moves_same g g' :
  _instance_name g' = _instance_name g -> _return_factor g' = _return_factor g ->
  _persisted_upto_position g' = _persisted_upto_position g ->
  _max_position_of_local_instance g' = _max_position_of_local_instance g ->
  _max_seen_allocated_stream_id g <= _max_seen_allocated_stream_id g' ->
  _current_positions g' = _current_positions g -> moves g g'.
Proof.
  unfold moves. intros -> -> -> -> ? ->. split_and!; try done. intros w p Hp. exists p. split; [done|lia].
Qed.

Lemma add_persisted_moves x g : moves g (_add_persisted_position x g).
Proof.
  unfold _add_persisted_position. set (upto := Z.max _ _). set (known := heappush _ _).
  pose proof (absorb_ge upto known) as Hab. destruct (absorb upto known) as [p k]. simpl in Hab.
  split_and!; try (destruct (negb _)); cbn; try done; try lia;
    intros w q Hq; exists q; (split; [done|lia]).
Qed.

Lemma advance_moves w token g : moves g (advance w token g).
Proof.
  unfold advance. etransitivity; [|apply add_persisted_moves]. split_and!; cbn; try done; try lia.
  intros w' p Hp. rewrite dget_dset. case_decide as He; [|eexists; split; [done|lia]].
  subst w'. rewrite Hp. simpl. eexists. split; [done|lia].
Qed.

Lemma move_position_moves new_cur g : moves g (move_position new_cur g).
Proof.
  unfold move_position. destruct new_cur as [n|]; [|done]. destruct (n =? 0); [done|].
  split_and!; cbn; try done; try lia. intros w p Hp. rewrite dget_dset.
  case_decide as He; [|eexists; split; [done|lia]]. subst w. rewrite Hp. simpl. eexists.
  split; [done|lia].
Qed.

Lemma mark_moves ids g : moves g (snd (_mark_ids_as_finished ids g)).
Proof.
  unfold _mark_ids_as_finished, st_bind, st_modify, st_read, st_lift.
  set (g1 := set_finished _ (set_unfinished _ g)).
  assert (H1 : moves g g1) by (by apply moves_same). clearbody g1.
  destruct (new_position g1) as [[new_cur fin]|e]; [|exact H1].
  assert (H2 : moves g1 (move_position new_cur (set_finished (fun _ => fin) g1))).
  { etransitivity; [|apply move_position_moves]. by apply moves_same. }
  set (g2 := move_position _ _) in *. clearbody g2. rewrite H1, H2. clear. revert g2.
  induction ids as [|i ids IH]; intros g; [done|]. etransitivity; [|apply IH]. apply add_persisted_moves.
Qed.

Lemma mark_moves' ids g r g' : _mark_ids_as_finished ids g = (r, g') -> moves g g'.
Proof. intros Hm. pose proof (mark_moves ids g) as Hg. by rewrite Hm in Hg. Qed.

Lemma fetch_begin_moves g cm g' : fetch_begin g = (Ok cm, g') -> moves g g'.
Proof. intros [= _ <-]. by apply moves_same. Qed.

Lemma fetch_ids_moves ids g r g' : fetch_ids ids g = (r, g') -> moves g g'.
Proof.
  unfold fetch_ids, st_bind, st_modify, st_read. cbn.
  destruct (last _); intros [= _ <-]; by apply moves_same; cbn; try lia.
Qed.

Lemma fetch_end_moves cm g r g' : fetch_end cm g = (r, g') -> moves g g'.
Proof. unfold fetch_end. destruct (sl_remove _ _); intros [= _ <-]; by apply moves_same. Qed.

Lemma set_gen_moves (m : gmap string IdGen) g j g' :
  m !! j = Some g' -> moves g' g -> forall k h, m !! k = Some h ->
  exists h', <[j := g]> m !! k = Some h' /\ moves h h'.
Proof.
  intros Hj Hm k h Hk. destruct (decide (k = j)) as [->|Hne].
  - rewrite lookup_insert_eq. exists g. split; [done|]. by simplify_eq.
  - rewrite lookup_insert_ne by congruence. by exists h.
Qed.

Lemma step_moves s s' : sys_step s s' ->
  forall i g, gens s !! i = Some g -> exists g', gens s' !! i = Some g' /\ moves g g'.
Proof.
  intros Hstep k h Hk. destruct Hstep; cbn; try (by exists h).
  - eapply set_gen_moves; [eassumption|eapply fetch_begin_moves; eassumption|eassumption].
  - eapply set_gen_moves; [eassumption|eapply fetch_ids_moves; eassumption|eassumption].
  - eapply set_gen_moves; [eassumption|eapply fetch_end_moves; eassumption|eassumption].
  - eapply set_gen_moves; [eassumption|eapply mark_moves'; eassumption|eassumption].
  - eapply set_gen_moves; [eassumption|apply advance_moves|eassumption].
Qed.

Lemma steps_moves s s' i g :
  rtc sys_step s s' -> gens s !! i = Some g -> exists g', gens s' !! i = Some g' /\ moves g g'.
Proof.
  intros Hs. revert g. induction Hs as [|s1 s2 s3 Hstep _ IH]; intros g Hi; [by exists g|].
  destruct (step_moves s1 s2 Hstep i g Hi) as (g2 & Hi2 & Hm).
  destruct (IH g2 Hi2) as (g3 & Hi3 & Hm3). exists g3. split; [done|]. by etransitivity.
Qed.

(** Whatever the workers do, the current token of an instance, its own position and the
    positions it has of the others never move back. *)
Theorem stream_positions_monotone s s' i g :
  rtc sys_step s s' -> gens s !! i = Some g ->
  exists g', gens s' !! i = Some g' /\ moves g g'.
Proof. apply steps_moves. Qed.
End safety.
