(* ===== verification/StreamProgress.v ===== *)
(** * StreamProgress: the workers can always catch up

    From every state the workers can reach, a run exists in which all writes end and every
    current token reaches the largest ID any worker had seen. *)
From S2P Require Import Prelude PyVal PySort PyState TopoSort StreamIds StreamSafety.
From S2P Require Import StreamInvariant StreamProps.
From Stdlib Require Import String.
Open Scope list_scope.
Open Scope Z_scope.

Section progress.
Context `{SortedIntsLaws}.
Context (W : list string).

(** The thread has IDs that its instance counts as unfinished. *)
Definition has_ids (t : Thread) : Prop :=
  match t_phase t with Waiting _ _ | Ending _ false => False | _ => True end.

(** Every unfinished ID has a thread that will finish it, and every instance heard of exists. *)
Record live_ok (s : Sys) : Prop := {
  lo_unfinished : forall i g id, gens s !! i = Some g -> id ∈ ss_list (_unfinished_ids g) ->
    exists t, t ∈ threads s /\ t_inst t = i /\ id ∈ t_ids t /\ has_ids t;
  lo_threads : forall t, t ∈ threads s -> is_Some (gens s !! t_inst t);
  lo_positions : forall i g w p, gens s !! i = Some g -> (w, p) ∈ _current_positions g ->
    w ∈ W \/ is_Some (gens s !! w);
  lo_dict : forall i g, gens s !! i = Some g -> dict_wf (_current_positions g);
  lo_announced : forall w t, (w, t) ∈ announced s -> is_Some (gens s !! w);
  lo_name : forall i g, gens s !! i = Some g -> _instance_name g = i
}.

(** What a method does to the attributes the invariant speaks of. *)
Definition keys_kept (g g' : IdGen) : Prop :=
  _instance_name g' = _instance_name g /\
  (dict_wf (_current_positions g) -> dict_wf (_current_positions g')) /\
  forall w p, (w, p) ∈ _current_positions g' -> w = _instance_name g \/
    exists q, (w, q) ∈ _current_positions g.

Lemma keys_same g g' :
  _instance_name g' = _instance_name g -> _current_positions g' = _current_positions g -> keys_kept g g'.
Proof. unfold keys_kept. intros -> ->. split_and!; try done. intros w p Hp. right. by exists p. Qed.

Lemma add_persisted_fields x g :
  _instance_name (_add_persisted_position x g) = _instance_name g /\
  _current_positions (_add_persisted_position x g) = _current_positions g /\
  _unfinished_ids (_add_persisted_position x g) = _unfinished_ids g /\
  _in_flight_fetches (_add_persisted_position x g) = _in_flight_fetches g.
Proof.
  unfold _add_persisted_position. destruct (absorb _ _), (negb _); done.
Qed.

Lemma mark_fields ids g :
  let g' := snd (_mark_ids_as_finished ids g) in
  keys_kept g g' /\ _unfinished_ids g' = ss_difference_update ids (_unfinished_ids g).
Proof.
  unfold _mark_ids_as_finished, st_bind, st_modify, st_read, st_lift.
  set (g1 := set_finished _ (set_unfinished _ g)).
  assert (H1 : keys_kept g g1 /\ _unfinished_ids g1 = ss_difference_update ids (_unfinished_ids g)).
  { split; [by apply keys_same|done]. }
  clearbody g1. destruct H1 as [H1 Hu1].
  destruct (new_position g1) as [[new_cur fin]|e]; [|done].
  set (g2 := move_position _ _).
  assert (H2 : keys_kept g g2 /\ _unfinished_ids g2 = _unfinished_ids g1).
  { unfold g2, move_position. destruct H1 as (Hn & Hd & Hp). cbn.
    destruct new_cur as [n|]; [|done]. destruct (n =? 0); [done|]. cbn. split; [|done].
    split_and!; [done|intros; by apply dset_wf, Hd|]. intros w p [[= -> ->]|Hin]%in_dset; [by left|eauto]. }
  clearbody g2. destruct H2 as [H2 Hu2]. rewrite <- Hu1, <- Hu2. clear Hu1 Hu2 H1 g1. revert g2 H2.
  generalize ids at 1 2 as l. induction l as [|i l IH]; intros g2 H2; [done|].
  change (st_for _ (i :: l) g2) with (st_for (fun i => st_modify (_add_persisted_position i)) l
    (_add_persisted_position i g2)).
  destruct (add_persisted_fields i g2) as (Ha & Hb & Hc & Hd). rewrite <- Hc. apply IH.
  destruct H2 as (Hn & Hw & Hp). unfold keys_kept. by rewrite Ha, Hb.
Qed.

Lemma advance_fields w token g :
  let g' := advance w token g in
  _instance_name g' = _instance_name g /\ _unfinished_ids g' = _unfinished_ids g /\
  _in_flight_fetches g' = _in_flight_fetches g /\
  (dict_wf (_current_positions g) -> dict_wf (_current_positions g')) /\
  forall w' p, (w', p) ∈ _current_positions g' -> w' = w \/ (w', p) ∈ _current_positions g.
Proof.
  unfold advance. cbn zeta. set (g1 := set_max_seen _ _).
  destruct (add_persisted_fields (token * _return_factor g) g1) as (-> & -> & -> & ->).
  unfold g1. cbn. split_and!; try done; [intros; by apply dset_wf|].
  intros w' p [[= -> ->]|Hin]%in_dset; auto.
Qed.

(** One generator changes and the threads with it. *)
Lemma live_set_gen s i g g' ts' :
  live_ok s -> gens s !! i = Some g -> keys_kept g g' ->
  (forall t, t ∈ ts' -> t_inst t = i \/ t ∈ threads s) ->
  (forall id, id ∈ ss_list (_unfinished_ids g') ->
     exists t, t ∈ ts' /\ t_inst t = i /\ id ∈ t_ids t /\ has_ids t) ->
  (forall t, t ∈ threads s -> t_inst t <> i -> t ∈ ts') ->
  live_ok (set_gen i g' (set_threads ts' s)).
Proof.
  intros Hl Hi (Hn & Hd & Hk) Ht Hu Hother.
  assert (Hdom : forall w, is_Some (gens s !! w) -> is_Some (<[i := g']> (gens s) !! w)).
  { intros w Hw. destruct (decide (i = w)) as [->|Hne]; [rewrite lookup_insert_eq; eauto|].
    by rewrite lookup_insert_ne. }
  split; cbn.
  - intros j h id [[<- <-]|[Hne Hj]]%lookup_insert_Some Hid; [by apply Hu|].
    destruct (lo_unfinished s Hl j h id Hj Hid) as (t & Hin & Htj & Hrest).
    exists t. split_and!; try tauto. apply Hother; [done|congruence].
  - intros t Hin. apply Hdom. destruct (Ht t Hin) as [->|Hin']; [eauto|by apply (lo_threads s Hl)].
  - intros j h w p [[<- <-]|[Hne Hj]]%lookup_insert_Some Hin.
    + destruct (Hk w p Hin) as [->|[q Hq]].
      * right. apply Hdom. rewrite (lo_name s Hl i g Hi). eauto.
      * destruct (lo_positions s Hl i g w q Hi Hq); auto.
    + destruct (lo_positions s Hl j h w p Hj Hin); auto.
  - intros j h [[<- <-]|[Hne Hj]]%lookup_insert_Some; [|by eapply (lo_dict s Hl)].
    by apply Hd, (lo_dict s Hl i g).
  - intros w t Hin. apply Hdom. by eapply (lo_announced s Hl).
  - intros j h [[<- <-]|[Hne Hj]]%lookup_insert_Some; [|by apply (lo_name s Hl)].
    rewrite Hn. by apply (lo_name s Hl).
Qed.

(** Only a thread changes. *)
Lemma live_set_threads s l1 t t' l2 :
  live_ok s -> threads s = l1 ++ t :: l2 -> t_inst t' = t_inst t -> t_ids t' = t_ids t \/ ~ has_ids t ->
  (has_ids t -> has_ids t') ->
  live_ok (set_threads (l1 ++ t' :: l2) s).
Proof.
  intros Hl Ht Hi Hids Hh. destruct Hl. split; cbn; try done.
  - intros i g id Hg Hid. destruct (lo_unfinished0 i g id Hg Hid) as (u & Hin & Hui & Huid & Hhu).
    rewrite Ht, in_mid in Hin. destruct Hin as [->|Hin].
    + exists t'. rewrite in_mid. split_and!; [by left|congruence| |auto].
      destruct Hids as [->|Hn]; done.
    + exists u. rewrite in_mid. auto.
  - intros u. rewrite in_mid. intros [->|Hin]; [rewrite Hi|]; apply lo_threads0; rewrite Ht, in_mid; auto.
Qed.
Lemma live_same s s' :
  gens s' = gens s -> threads s' = threads s -> announced s' = announced s -> live_ok s -> live_ok s'.
Proof. intros Hg Ht Ha []. split; rewrite ?Hg, ?Ht, ?Ha; done. Qed.

Lemma live_announce s i t : live_ok s -> is_Some (gens s !! i) -> live_ok (announce i t s).
Proof. intros [] Hi. split; cbn; try done. intros w u [[= -> ->]|Hin]%elem_of_cons; eauto. Qed.

Lemma live_advance s j g w token :
  live_ok s -> gens s !! j = Some g -> is_Some (gens s !! w) ->
  live_ok (set_gen j (advance w token g) s).
Proof.
  intros Hl Hj Hw. destruct (advance_fields w token g) as (Hn & Hu & _ & Hd & Hk).
  set (g' := advance w token g) in *. clearbody g'.
  assert (Hdom : forall v, is_Some (gens s !! v) -> is_Some (<[j := g']> (gens s) !! v)).
  { intros v Hv. destruct (decide (j = v)) as [->|Hne]; [rewrite lookup_insert_eq; eauto|].
    by rewrite lookup_insert_ne. }
  destruct Hl. split; cbn; eauto.
  - intros i h id [[<- <-]|[Hne Hi]]%lookup_insert_Some Hid; [rewrite Hu in Hid|]; eauto.
  - intros i h v p [[<- <-]|[Hne Hi]]%lookup_insert_Some Hin.
    + destruct (Hk v p Hin) as [->|Hin']; [auto|]. destruct (lo_positions0 j g v p Hj Hin'); auto.
    + destruct (lo_positions0 i h v p Hi Hin); auto.
  - intros i h [[<- <-]|[Hne Hi]]%lookup_insert_Some; eauto.
  - intros i h [[<- <-]|[Hne Hi]]%lookup_insert_Some; [rewrite Hn|]; eauto.
Qed.

Lemma live_ids s i g cm ids l1 l2 r g' :
  live_ok s -> threads s = l1 ++ {| t_inst := i; t_phase := Waiting cm 0; t_ids := ids |} :: l2 ->
  gens s !! i = Some g -> fetch_ids ids g = (r, g') ->
  live_ok (set_gen i g' (set_threads
    (l1 ++ {| t_inst := i; t_phase := Ending cm (is_ok r); t_ids := ids |} :: l2) s)).
Proof.
  intros Hl Ht Hi Hr. set (t' := {| t_inst := i; t_phase := Ending _ _; t_ids := ids |}).
  assert (Hg' : keys_kept g g' /\ _unfinished_ids g' = ss_update ids (_unfinished_ids g) /\
    (is_ok r = false -> ss_list (_unfinished_ids g') = [])).
  { unfold fetch_ids, st_bind, st_modify, st_read in Hr. cbn in Hr.
    destruct (last _) eqn:Hlast; injection Hr as <- <-; (split_and!; [by apply keys_same|done|]).
    - done.
    - intros _. cbn. by apply last_None. }
  destruct Hg' as (Hk & Hu & Hno). eapply live_set_gen; [done|done|done| | |].
  - intros t. rewrite in_mid, Ht, in_mid. intros [->|Hin]; [by left|auto].
  - intros id Hid. destruct (is_ok r) eqn:Hok; [|rewrite Hno in Hid by done; by apply elem_of_nil in Hid].
    rewrite Hu, ss_in_update in Hid. destruct Hid as [Hid|Hid].
    + exists t'. rewrite in_mid. split_and!; [by left|done|done|]. unfold t', has_ids. cbn. done.
    + destruct (lo_unfinished s Hl i g id Hi Hid) as (u & Hin & Hrest).
      rewrite Ht, in_mid in Hin. destruct Hin as [->|Hin]; [by destruct Hrest as (_ & _ & [])|].
      exists u. rewrite in_mid. auto.
  - intros t. rewrite Ht, !in_mid. intros [->|Hin] Hne; [by destruct Hne|auto].
Qed.

Lemma live_end s i g cm ok ids l1 l2 r g' :
  live_ok s -> threads s = l1 ++ {| t_inst := i; t_phase := Ending cm ok; t_ids := ids |} :: l2 ->
  gens s !! i = Some g -> fetch_end cm g = (r, g') ->
  live_ok (set_gen i g' (set_threads
    (l1 ++ (if ok then [{| t_inst := i; t_phase := Working; t_ids := ids |}] else []) ++ l2) s)).
Proof.
  intros Hl Ht Hi Hr. set (mid := if ok then _ else []).
  assert (Hg' : keys_kept g g' /\ _unfinished_ids g' = _unfinished_ids g).
  { unfold fetch_end in Hr. destruct (sl_remove _ _); injection Hr as _ <-; (split; [by apply keys_same|done]). }
  destruct Hg' as [Hk Hu]. eapply live_set_gen; [done|done|done| | |].
  - intros t. rewrite Ht, in_mid, !elem_of_app. intros [Hin|[Hin|Hin]]; [auto| |auto].
    unfold mid in Hin. destruct ok; [apply list_elem_of_singleton in Hin as ->; by left|by apply elem_of_nil in Hin].
  - intros id Hid. rewrite Hu in Hid. destruct (lo_unfinished s Hl i g id Hi Hid) as (u & Hin & Hrest).
    rewrite Ht, in_mid in Hin. destruct Hin as [->|Hin].
    + destruct Hrest as (_ & Hid' & Hh). destruct ok; [|done].
      eexists. split; [rewrite !elem_of_app; right; left; by left|]. by split_and!.
    + exists u. split; [|done]. rewrite !elem_of_app. apply elem_of_app in Hin. tauto.
  - intros t. rewrite Ht, in_mid, !elem_of_app. intros [->|Hin] Hne; [by destruct Hne|tauto].
Qed.

Lemma live_mark s i g ids l1 l2 r g' :
  live_ok s -> threads s = l1 ++ {| t_inst := i; t_phase := Over; t_ids := ids |} :: l2 ->
  gens s !! i = Some g -> _mark_ids_as_finished ids g = (r, g') ->
  live_ok (set_gen i g' (set_threads (l1 ++ l2) s)).
Proof.
  intros Hl Ht Hi Hr. destruct (mark_fields ids g) as [Hk Hu]. rewrite Hr in Hk, Hu. cbn [snd] in Hk, Hu.
  eapply live_set_gen; [done|done|done| | |].
  - intros t Hin. right. rewrite Ht, in_mid. auto.
  - intros id Hid. rewrite Hu, ss_in_difference in Hid. destruct Hid as [Hid Hn].
    destruct (lo_unfinished s Hl i g id Hi Hid) as (u & Hin & Hrest).
    rewrite Ht, in_mid in Hin. destruct Hin as [->|Hin]; [by destruct Hrest as (_ & ? & _)|]. by exists u.
  - intros t. rewrite Ht, in_mid. intros [->|Hin] Hne; [by destruct Hne|done].
Qed.

Lemma live_step s s' : sys_step s s' -> live_ok s -> live_ok s'.
Proof.
  intros Hstep Hl. destruct Hstep.
  - eapply live_set_gen; [done|eassumption| | | |].
    + match goal with Hb : fetch_begin g = _ |- _ => injection Hb as _ <- end. by apply keys_same.
    + intros t [->|Hin]%elem_of_cons; auto.
    + intros id Hid. match goal with Hb : fetch_begin g = _ |- _ => injection Hb as _ <- end.
      destruct (lo_unfinished s Hl i g id ltac:(done) Hid) as (u & Hin & Hrest).
      exists u. split; [by right|done].
    + intros t Hin _. by right.
  - eapply (live_same (set_threads _ s)); [done|done|done|].
    eapply live_set_threads; [done|eassumption|done|right; by intros []|by intros []].
  - by eapply live_ids.
  - eapply (live_same (set_threads _ s)); [done|done|done|].
    eapply live_set_threads; [done|eassumption|done|by left|by intros []].
  - by eapply live_end.
  - eapply (live_same (set_threads _ s)); [done|done|done|].
    eapply live_set_threads; [done|eassumption|done|by left|done].
  - by eapply live_mark.
  - apply live_announce; eauto.
  - apply live_announce; eauto.
  - apply live_advance; [done|done|]. by eapply lo_announced.
Qed.

Lemma setdefaults_keys ws g :
  dict_wf (_current_positions g) ->
  dict_wf (_current_positions (fold_left setdefault ws g)) /\
  forall w p, (w, p) ∈ _current_positions (fold_left setdefault ws g) ->
    w ∈ ws \/ exists q, (w, q) ∈ _current_positions g.
Proof.
  revert g. induction ws as [|w ws IH]; intros g Hd; simpl; [split; eauto|].
  assert (Hg : dict_wf (_current_positions (setdefault g w)) /\
    forall v p, (v, p) ∈ _current_positions (setdefault g w) -> v = w \/ (v, p) ∈ _current_positions g).
  { unfold setdefault. cbn. destruct (dmem w _); [auto|]. split; [by apply dset_wf|].
    intros v p [[= -> ->]|Hin]%in_dset; auto. }
  destruct Hg as [Hd' Hk]. destruct (IH _ Hd') as [Hd'' Hin]. split; [done|].
  intros v p Hv. rewrite elem_of_cons. destruct (Hin v p Hv) as [?|[q Hq]]; [auto|].
  destruct (Hk v q Hq); eauto.
Qed.

Lemma start_live instances positive postgres :
  W <> [] -> live_ok (start W instances positive postgres).
Proof.
  intros HW.
  assert (Hg : forall i g, gens (start W instances positive postgres) !! i = Some g ->
    g = fst (MultiWriterIdGenerator i W positive (fresh_db postgres))).
  { intros i g Hi. cbn in Hi. by apply elem_of_list_to_map_2, in_map_b in Hi as (i' & [= <- ->] & _). }
  assert (Hok : forall i, gen_ok W (if positive then 1 else -1) 1 ∅ ∅ [] i
    (fst (MultiWriterIdGenerator i W positive (fresh_db postgres)))) by (intros; by apply start_gen_ok).
  assert (Hpos : forall i, dict_wf (_current_positions (fst (MultiWriterIdGenerator i W positive (fresh_db postgres))))
    /\ forall w p, (w, p) ∈ _current_positions (fst (MultiWriterIdGenerator i W positive (fresh_db postgres))) ->
      w ∈ W \/ w = i).
  { intros i. unfold MultiWriterIdGenerator. set (g := Build_IdGen _ _ _ _ _ _ _ _ _ _ _).
    destruct (load_fresh g postgres HW) as [b ->]. cbn [_writers g _known_persisted_positions _instance_name].
    set (g0 := set_persisted _ _ _).
    assert (Hd0 : dict_wf (_current_positions g0)).
    { unfold g0. destruct b; cbn; unfold dict_wf; simpl; (apply NoDup_singleton || apply NoDup_nil_2). }
    assert (Hk0 : forall w p, (w, p) ∈ _current_positions g0 -> w = i).
    { unfold g0. destruct b; cbn; [by intros w p [= -> _]%list_elem_of_singleton|by intros w p ?%elem_of_nil]. }
    clearbody g0. destruct (setdefaults_keys W g0 Hd0) as [Hd1 Hk1]. set (g1 := fold_left setdefault W g0) in *.
    clearbody g1. destruct W; [done|]. split; [done|]. intros w p Hin.
    destruct (Hk1 w p Hin) as [?|[q Hq]]; eauto. }
  split.
  - intros i g id Hi Hid. rewrite (Hg i g Hi) in Hid. apply (go_unfinished _ _ _ _ _ _ i _ (Hok i)) in Hid.
    done.
  - by intros t ?%elem_of_nil.
  - intros i g w p Hi Hin. destruct (Hpos i) as [_ Hk]. rewrite (Hg i g Hi) in Hin.
    destruct (Hk w p Hin) as [?| ->]; eauto.
  - intros i g Hi. rewrite (Hg i g Hi). apply Hpos.
  - by intros w t ?%elem_of_nil.
  - intros i g Hi. rewrite (Hg i g Hi). apply (go_name _ _ _ _ _ _ i _ (Hok i)).
Qed.
(** ** All writes can end *)

Definition weight (t : Thread) : nat :=
  match t_phase t with Waiting _ _ => 4 | Ending _ _ => 3 | Working => 2 | Over => 1 end.
Definition work (s : Sys) : nat := list_sum (map weight (threads s)).

Lemma drain_step s t ts :
  live_ok s -> threads s = t :: ts -> exists s', sys_step s s' /\ (work s' < work s)%nat.
Proof.
  intros Hl Ht. destruct t as [i ph ids].
  destruct (lo_threads s Hl {| t_inst := i; t_phase := ph; t_ids := ids |}) as [g Hi];
    [rewrite Ht; by left|]. cbn in Hi. unfold work. rewrite Ht. destruct ph as [cm n|cm ok| |].
  - eexists. split; [by eapply (StepFail s i cm n ids [])|]. cbn. unfold weight. cbn. lia.
  - destruct (fetch_end cm g) as [r g'] eqn:Hr.
    eexists. split; [by eapply (StepEnd s i g cm ok ids [])|]. cbn. destruct ok; unfold weight; cbn; lia.
  - eexists. split; [by eapply (StepOver s i ids [])|]. cbn. unfold weight. cbn. lia.
  - destruct (_mark_ids_as_finished ids g) as [r g'] eqn:Hr.
    eexists. split; [by eapply (StepMark s i g ids [])|]. cbn. unfold weight. cbn. lia.
Qed.

Lemma live_steps s s' : rtc sys_step s s' -> live_ok s -> live_ok s'.
Proof. induction 1; [done|]. eauto using live_step. Qed.

Lemma drain s : live_ok s -> exists s', rtc sys_step s s' /\ threads s' = [].
Proof.
  remember (work s) as n eqn:Hn. revert s Hn. induction (lt_wf n) as [n _ IH]. intros s -> Hl.
  destruct (threads s) as [|t ts] eqn:Ht; [by exists s|].
  destruct (drain_step s t ts Hl Ht) as (s1 & Hstep & Hlt).
  destruct (IH (work s1) Hlt s1 eq_refl) as (s2 & Hs2 & Hts); [by eapply live_step|].
  exists s2. split; [by eapply rtc_l|done].
Qed.

(** ** Exchanging positions *)

Context (f : Z) (HW : W <> []) (Hf : f * f = 1).

Record quiet (s : Sys) : Prop := {
  q_sys : sys_ok W f s; q_live : live_ok s; q_threads : threads s = []
}.

Lemma quiet_idle s i g : quiet s -> gens s !! i = Some g -> is_busy g = false.
Proof.
  intros [Hs Hl Ht] Hi. apply not_busy. pose proof (so_gens _ _ s Hs i g Hi) as Hg. split.
  - destruct (ss_list (_unfinished_ids g)) as [|x l] eqn:Hu; [done|].
    destruct (lo_unfinished s Hl i g x Hi) as (t & Hin & _); [rewrite Hu; by left|].
    rewrite Ht in Hin. by apply elem_of_nil in Hin.
  - pose proof (go_in_flight _ _ _ _ _ _ i g Hg) as Hfl. rewrite Ht in Hfl. by apply Permutation_nil_r in Hfl.
Qed.

Abbreviation local := _max_position_of_local_instance.
Abbreviation seen := _max_seen_allocated_stream_id.
Abbreviation upto := _persisted_upto_position.

(** Every position of another instance is at least [M]. *)
Definition low (M : Z) (g : IdGen) : Prop :=
  forall w p, (w, p) ∈ _current_positions g -> w <> _instance_name g -> M <= p.

Lemma low_min M g w p :
  low M g -> is_busy g = false -> dget w (_current_positions g) = Some p -> w <> _instance_name g ->
  M <= min_current g.
Proof.
  intros Hlow Hb Hw Hne. unfold min_current. rewrite Hb, andb_false_r.
  set (others := map snd _). destruct (min_default_spec (default 0 (dget (_instance_name g) (_current_positions g))) others)
    as [_ [Hin|[Hnil _]]].
  - apply in_map_b in Hin as ([v q] & -> & Hin). apply in_filter_b in Hin as [Hin Hv].
    apply (Hlow v q Hin). simpl in Hv. by destruct (String.eqb_spec v (_instance_name g)).
  - exfalso. assert (Hin : p ∈ others); [|rewrite Hnil in Hin; by apply elem_of_nil in Hin].
    apply in_map_b. exists (w, p). split; [done|]. apply in_filter_b. split; [by apply dget_in|].
    simpl. by destruct (String.eqb_spec w (_instance_name g)).
Qed.

(** What an idle instance makes of the position of another. *)
Lemma advance_idle w token g :
  is_busy g = false -> w <> _instance_name g ->
  let g' := advance w token g in
  let new_id := token * _return_factor g in
  is_busy g' = false /\
  (exists p, dget w (_current_positions g') = Some p /\ new_id <= p) /\
  new_id <= seen g' /\ seen g' <= local g' /\
  (forall M, low M g -> M <= new_id -> low M g' /\ M <= upto g').
Proof.
  intros Hb Hne. destruct (advance_fields w token g) as (Hn & Hu & Hfl & _ & Hk). cbn zeta.
  set (new_id := token * _return_factor g). unfold advance in *. fold new_id in Hn, Hu, Hfl, Hk |- *.
  set (g1 := set_max_seen _ _) in *.
  destruct (add_persisted_fields new_id g1) as (Hn1 & Hp1 & Hu1 & Hf1).
  assert (Hb1 : is_busy g1 = false) by exact Hb.
  assert (Hd1 : dget w (_current_positions g1) = Some (Z.max new_id (default 0 (dget w (_current_positions g))))).
  { unfold g1. cbn. apply dget_dset_eq. }
  assert (Hlow : forall M, low M g -> M <= new_id -> low M g1).
  { intros M Hl HM v q Hin Hv. unfold g1 in Hin. cbn in Hin.
    apply in_dset in Hin as [[= -> ->]|Hin]; [lia|by apply (Hl v q)]. }
  split_and!.
  - unfold is_busy in Hb |- *. by rewrite Hu, Hfl.
  - rewrite Hp1, Hd1. eexists. split; [done|lia].
  - assert (Hs : seen (_add_persisted_position new_id g1) = seen g1).
    { unfold _add_persisted_position. destruct (absorb _ _), (negb _); done. }
    rewrite Hs. unfold g1. cbn. lia.
  - unfold _add_persisted_position. destruct (absorb _ _) as [p k]. cbn.
    change (is_busy _) with (is_busy g1). rewrite Hb1. cbn. lia.
  - intros M Hl HM. specialize (Hlow M Hl HM). split.
    + unfold low. rewrite Hp1, Hn1. exact Hlow.
    + pose proof (low_min M g1 w _ Hlow Hb1 Hd1 Hne) as Hmin.
      unfold _add_persisted_position. set (up := Z.max _ _). set (kn := heappush _ _).
      pose proof (absorb_ge up kn) as Hab. destruct (absorb up kn) as [p k]. simpl in Hab. cbn. lia.
Qed.
(** One instance announces its position and another receives it. *)
Lemma deliver s i j gi gj :
  quiet s -> gens s !! i = Some gi -> gens s !! j = Some gj -> i <> j ->
  exists s' token, rtc sys_step s s' /\ quiet s' /\
    token * _return_factor gj = local gi /\ gens s' = <[j := advance i token gj]> (gens s).
Proof.
  intros Hq Hi Hj Hne. set (token := get_current_token_for_writer i gi).
  pose proof (so_gens _ _ s (q_sys s Hq) i gi Hi) as Hgi.
  pose proof (so_gens _ _ s (q_sys s Hq) j gj Hj) as Hgj.
  assert (H1 : sys_step s (announce i token s)) by (by apply StepAnnounce).
  assert (H2 : sys_step (announce i token s) (set_gen j (advance i token gj) (announce i token s))).
  { apply (StepAdvance _ i token j gj); [by left|done|done]. }
  eexists _, token. split; [eapply rtc_l; [exact H1|]; by apply rtc_once|]. split_and!; [|..|done].
  - split.
    + eapply sys_step_ok; [done|done|exact H2|]. eapply sys_step_ok; [done|done|exact H1|apply Hq].
    + eapply live_step; [exact H2|]. eapply live_step; [exact H1|apply Hq].
    + apply Hq.
  - unfold token, get_current_token_for_writer.
    rewrite (go_name _ _ _ _ _ _ i gi Hgi), String.eqb_refl, (go_factor _ _ _ _ _ _ i gi Hgi),
      (go_factor _ _ _ _ _ _ j gj Hgj), Z.mul_shuffle0, Hf. lia.
Qed.

Definition caught (g : IdGen) : Prop := seen g <= local g.
(** Everybody's own position is at least [M]. *)
Definition ahead (M : Z) (s : Sys) : Prop := forall k g, gens s !! k = Some g -> M <= local g.

(** What a run of deliveries, one per pair, achieves. *)
Record exchanged (L : list (string * string)) (s s' : Sys) : Prop := {
  ex_run : rtc sys_step s s';
  ex_quiet : quiet s';
  ex_dom : forall j g', gens s' !! j = Some g' -> exists g, gens s !! j = Some g /\ moves g g';
  ex_caught : forall j g g', gens s !! j = Some g -> gens s' !! j = Some g' -> caught g -> caught g';
  ex_low : forall M j g g', ahead M s -> gens s !! j = Some g -> gens s' !! j = Some g' ->
    low M g -> low M g';
  ex_pair : forall i j gi gj g', (i, j) ∈ L -> i <> j ->
    gens s !! i = Some gi -> gens s !! j = Some gj -> gens s' !! j = Some g' ->
    (exists p, dget i (_current_positions g') = Some p /\ local gi <= p) /\
    local gi <= seen g' /\ caught g' /\
    (forall M, ahead M s -> low M gj -> M <= upto g')
}.

Lemma exchange_nil s : quiet s -> exchanged [] s s.
Proof.
  intros Hq. split; try done.
  - intros j g' Hj. by exists g'.
  - intros j g g' Hj Hj'. by simplify_eq.
  - intros M j g g' _ Hj Hj'. by simplify_eq.
  - by intros i j gi gj g' ?%elem_of_nil.
Qed.

Lemma ahead_moves M s s' :
  (forall j g', gens s' !! j = Some g' -> exists g, gens s !! j = Some g /\ moves g g') ->
  ahead M s -> ahead M s'.
Proof.
  intros Hm Ha k g' Hk. destruct (Hm k g' Hk) as (g & Hg & (_ & _ & _ & Hl & _)).
  specialize (Ha k g Hg). lia.
Qed.

Lemma exchange_one s i j : quiet s -> exists s', exchanged [(i, j)] s s'.
Proof.
  intros Hq. destruct (decide (i = j)) as [->|Hne].
  { exists s. destruct (exchange_nil s Hq). split; try done. intros i j' ? ? ? [= -> ->]%list_elem_of_singleton. done. }
  destruct (gens s !! i) as [gi|] eqn:Hi; [|exists s; destruct (exchange_nil s Hq); split; try done;
    intros i' j' ? ? ? [= -> ->]%list_elem_of_singleton; congruence].
  destruct (gens s !! j) as [gj|] eqn:Hj; [|exists s; destruct (exchange_nil s Hq); split; try done;
    intros i' j' ? ? ? [= -> ->]%list_elem_of_singleton; congruence].
  destruct (deliver s i j gi gj Hq Hi Hj Hne) as (s' & token & Hrun & Hq' & Htok & Hgens).
  assert (Hnej : i <> _instance_name gj) by (by rewrite (lo_name s (q_live s Hq) j gj Hj)).
  destruct (advance_idle i token gj (quiet_idle s j gj Hq Hj) Hnej) as (_ & Hp & Hs & Hc & Hlow).
  rewrite Htok in Hp, Hs, Hlow. exists s'. split; try done; rewrite Hgens.
  - intros k g' [[<- <-]|[_ Hk]]%lookup_insert_Some; [|by exists g']. exists gj. split; [done|apply advance_moves].
  - intros k g g' Hk [[<- <-]|[_ Hk']]%lookup_insert_Some; [done|]. by simplify_eq.
  - intros M k g g' Ha Hk [[<- <-]|[_ Hk']]%lookup_insert_Some Hl; [|by simplify_eq].
    simplify_eq. apply Hlow; [done|]. by apply (Ha i).
  - intros i' j' gi' gj' g' [= -> ->]%list_elem_of_singleton _ Hi' Hj'.
    rewrite lookup_insert_eq. intros [= <-]. simplify_eq. split_and!; try done.
    intros M Ha Hl. apply Hlow; [done|]. by apply (Ha i).
Qed.

Lemma exchange L s : quiet s -> exists s', exchanged L s s'.
Proof.
  revert s. induction L as [|[i j] L IH]; intros s Hq; [exists s; by apply exchange_nil|].
  destruct (exchange_one s i j Hq) as [s1 H1]. destruct (IH s1 (ex_quiet _ _ _ H1)) as [s2 H2].
  exists s2. destruct H1 as [Hr1 Hq1 Hd1 Hc1 Hl1 Hp1], H2 as [Hr2 Hq2 Hd2 Hc2 Hl2 Hp2].
  assert (Hmid : forall k g, gens s !! k = Some g -> exists g1, gens s1 !! k = Some g1 /\ moves g g1).
  { intros k g Hk. by apply (steps_moves s s1). }
  split.
  - by etransitivity.
  - done.
  - intros k g2 Hk2. destruct (Hd2 k g2 Hk2) as (g1 & Hk1 & Hm2). destruct (Hd1 k g1 Hk1) as (g & Hk & Hm1).
    exists g. split; [done|by etransitivity].
  - intros k g g2 Hk Hk2 Hc. destruct (Hd2 k g2 Hk2) as (g1 & Hk1 & _). eauto.
  - intros M k g g2 Ha Hk Hk2 Hl. destruct (Hd2 k g2 Hk2) as (g1 & Hk1 & _).
    eapply (Hl2 M k g1); [by eapply ahead_moves|done|done|]. by eapply (Hl1 M k g).
  - intros i' j' gi gj g2 Hin Hne Hi Hj Hj2. destruct (Hd2 j' g2 Hj2) as (g1 & Hj1 & Hm2).
    apply elem_of_cons in Hin as [[= -> ->]|Hin].
    + destruct (Hp1 i j gi gj g1) as ((p & Hp & Hlp) & Hs & Hc & Hup); [by left|done..|].
      destruct Hm2 as (_ & _ & Hmu & _ & Hms & Hmp). destruct (Hmp i p Hp) as (q & Hq' & Hpq).
      split_and!; [exists q; split; [done|lia]|lia|by eapply Hc2|].
      intros M Ha Hl. specialize (Hup M Ha Hl). lia.
    + destruct (Hmid i' gi Hi) as (gi1 & Hi1 & Hmi). pose proof Hmi as (_ & _ & _ & Hml & _).
      destruct (Hp2 i' j' gi1 g1 g2 Hin Hne Hi1 Hj1 Hj2) as ((p & Hp & Hlp) & Hs & Hc & Hup).
      split_and!; [exists p; split; [done|lia]|lia|done|].
      intros M Ha Hl. apply Hup; [by eapply ahead_moves|by eapply Hl1].
Qed.
(** ** Four rounds of positions are enough *)

Definition all_pairs (s : Sys) : list (string * string) :=
  let names := (map_to_list (gens s)).*1 in list_prod names names.

Lemma in_all_pairs s i j :
  (i, j) ∈ all_pairs s <-> is_Some (gens s !! i) /\ is_Some (gens s !! j).
Proof.
  assert (Hn : forall k, k ∈ (map_to_list (gens s)).*1 <-> is_Some (gens s !! k)).
  { intros k. rewrite list_elem_of_fmap. split.
    - intros ([k' g] & -> & Hin%elem_of_map_to_list). eauto.
    - intros [g Hk]. exists (k, g). split; [done|by apply elem_of_map_to_list]. }
  unfold all_pairs. rewrite list_elem_of_In, in_prod_iff, <- !list_elem_of_In, !Hn. done.
Qed.

(** A round in which everybody hears from everybody. *)
Lemma round s : quiet s -> exists s', exchanged (all_pairs s) s s' /\
  (forall k, is_Some (gens s !! k) <-> is_Some (gens s' !! k)).
Proof.
  intros Hq. destruct (exchange (all_pairs s) s Hq) as [s' He]. exists s'. split; [done|].
  intros k. split; intros [g Hk].
  - destruct (steps_moves s s' k g (ex_run _ _ _ He) Hk) as (g' & ? & _). eauto.
  - destruct (ex_dom _ _ _ He k g Hk) as (g' & ? & _). eauto.
Qed.

Lemma quiet_catch_up s a b :
  quiet s -> (forall w, w ∈ W -> is_Some (gens s !! w)) ->
  is_Some (gens s !! a) -> is_Some (gens s !! b) -> a <> b ->
  exists s', rtc sys_step s s' /\ threads s' = [] /\
    forall k gk i g, gens s !! k = Some gk -> gens s' !! i = Some g -> seen gk <= upto g.
Proof.
  intros Hq HWs Ha Hb Hab.
  destruct (round s Hq) as (s1 & E1 & D1). pose proof (ex_quiet _ _ _ E1) as Hq1.
  destruct (round s1 Hq1) as (s2 & E2 & D2). pose proof (ex_quiet _ _ _ E2) as Hq2.
  destruct (round s2 Hq2) as (s3 & E3 & D3). pose proof (ex_quiet _ _ _ E3) as Hq3.
  destruct (round s3 Hq3) as (s4 & E4 & D4). pose proof (ex_quiet _ _ _ E4) as Hq4.
  assert (Hother : forall j, exists i, i <> j /\ is_Some (gens s !! i)).
  { intros j. destruct (decide (a = j)) as [<-|]; [exists b|exists a]; split; done || congruence. }
  assert (C1 : forall j g, gens s1 !! j = Some g -> caught g).
  { intros j g Hj. destruct (Hother j) as (i & Hne & [gi Hi]).
    destruct (ex_dom _ _ _ E1 j g Hj) as (gj & Hj0 & _).
    apply (ex_pair _ _ _ E1 i j gi gj g); try done. apply in_all_pairs. eauto. }
  exists s4. split_and!.
  - by rewrite (ex_run _ _ _ E1), (ex_run _ _ _ E2), (ex_run _ _ _ E3), (ex_run _ _ _ E4).
  - apply Hq4.
  - intros k gk j g4 Hk Hj4. set (M := seen gk).
    destruct (steps_moves s s1 k gk (ex_run _ _ _ E1) Hk) as (gk1 & Hk1 & (_ & _ & _ & _ & Hms1 & _)).
    assert (A2 : ahead M s2).
    { intros i g Hi. destruct (ex_dom _ _ _ E2 i g Hi) as (gi & Hi1 & (_ & _ & _ & _ & Hms & _)).
      assert (Hc : caught g) by (eapply (ex_caught _ _ _ E2 i gi g); eauto).
      destruct (decide (k = i)) as [<-|Hne].
      - simplify_eq. unfold caught, M in *. lia.
      - destruct (ex_pair _ _ _ E2 k i gk1 gi g) as (_ & Hs & _ & _); try done; [apply in_all_pairs; eauto|].
        specialize (C1 k gk1 Hk1). unfold caught, M in *. lia. }
    assert (A3 : ahead M s3) by (eapply ahead_moves; [by apply (ex_dom _ _ _ E3)|done]).
    destruct (ex_dom _ _ _ E4 j g4 Hj4) as (g3 & Hj3 & _).
    destruct (ex_dom _ _ _ E3 j g3 Hj3) as (g2 & Hj2 & _).
    assert (L3 : low M g3).
    { intros w p Hin Hne. rewrite (lo_name s3 (q_live s3 Hq3) j g3 Hj3) in Hne.
      assert (Hw2 : is_Some (gens s2 !! w)).
      { destruct (lo_positions s3 (q_live s3 Hq3) j g3 w p Hj3 Hin) as [Hw|Hw].
        - by apply D2, D1, HWs.
        - by apply D3. }
      destruct Hw2 as [gw Hw2].
      destruct (ex_pair _ _ _ E3 w j gw g2 g3) as ((q & Hq' & Hle) & _); try done; [apply in_all_pairs; eauto|].
      apply (dget_some_iff w p) in Hin; [|by apply (lo_dict s3 (q_live s3 Hq3) j)].
      simplify_eq. specialize (A2 w gw Hw2). lia. }
    destruct (Hother j) as (i & Hne & Hi). assert (Hi3 : is_Some (gens s3 !! i)) by (by apply D3, D2, D1).
    destruct Hi3 as [gi Hi3]. destruct (ex_pair _ _ _ E4 i j gi g3 g4) as (_ & _ & _ & Hup); try done;
      [apply in_all_pairs; eauto|]. by apply Hup.
Qed.
End progress.

(** C21: with at least two instances running, and every writer among them, the workers can
    always catch up: from every state they reach, a run ends all writes and brings the current
    token of every instance to the largest ID any instance had seen. *)
Theorem stream_can_catch_up `{SortedIntsLaws} (W instances : list string) (positive postgres : bool)
    (a b : string) (s : Sys) :
  W <> [] -> (forall w, w ∈ W -> w ∈ instances) -> a ∈ instances -> b ∈ instances -> a <> b ->
  rtc sys_step (start W instances positive postgres) s ->
  exists s', rtc sys_step s s' /\ threads s' = [] /\
    forall k gk i g, gens s !! k = Some gk -> gens s' !! i = Some g ->
      _max_seen_allocated_stream_id gk <= _return_factor g * get_current_token g.
Proof.
  intros HW Hsub Ha Hb Hab Hs. set (f := if positive then 1 else -1).
  assert (Hf : f * f = 1) by (unfold f; by destruct positive).
  pose proof (start_live W instances positive postgres HW) as Hl0.
  pose proof (start_ok W instances positive postgres HW) as Hok0. fold f in Hok0.
  assert (Hl : live_ok W s) by (eapply live_steps; eauto).
  assert (Hok : sys_ok W f s) by (by eapply reachable_ok).
  destruct (drain W s Hl) as (s1 & Hs1 & Ht1).
  assert (Hq : quiet W f s1).
  { split; [by eapply sys_steps_ok|by eapply live_steps|done]. }
  assert (Hdom : forall i, i ∈ instances -> is_Some (gens s1 !! i)).
  { intros i Hi. assert (Hg : is_Some (gens (start W instances positive postgres) !! i)).
    { cbn. destruct (list_to_map _ !! i) eqn:Hn; [eauto|]. apply not_elem_of_list_to_map in Hn.
      exfalso. apply Hn. rewrite list_elem_of_fmap. eexists (i, _). split; [done|].
      apply in_map_b. eauto. }
    destruct Hg as [g Hg]. destruct (steps_moves _ s i g Hs Hg) as (g1 & Hg1 & _).
    destruct (steps_moves _ s1 i g1 Hs1 Hg1) as (g2 & Hg2 & _). eauto. }
  destruct (quiet_catch_up W f HW Hf s1 a b Hq) as (s2 & Hs2 & Ht2 & Hup); auto.
  exists s2. split_and!; [by etransitivity|done|]. intros k gk i g Hk Hi.
  destruct (steps_moves s s1 k gk Hs1 Hk) as (gk1 & Hk1 & (_ & _ & _ & _ & Hms & _)).
  specialize (Hup k gk1 i g Hk1 Hi). unfold get_current_token, get_persisted_upto_position.
  assert (Hok2 : sys_ok W f s2) by (apply (reachable_ok W instances positive postgres); [done|by rewrite Hs, Hs1, Hs2]).
  pose proof (so_gens _ _ s2 Hok2 i g Hi) as Hg. rewrite (go_factor _ _ _ _ _ _ i g Hg). rewrite Z.mul_assoc, Hf. lia.
Qed.

(** * Sorted collections, runs of two workers, and start-up examples *)
Open Scope string_scope.
Open Scope list_scope.
Open Scope Z_scope.

(** ** Sorted collections that iterate in order *)

Definition sort_ints (l : list Z) : list Z := sorted_by id l.

Fixpoint remove_first (x : Z) (l : list Z) : result (list Z) :=
  match l with
  | [] => Err ValueError
  | y :: l => if x =? y then Ok l else match remove_first x l with Ok l => Ok (y :: l) | Err e => Err e end
  end.

#[export] Instance sample_sorted : SortedInts := {|
  SortedSet := gset Z; ss_list s := sort_ints (elements s);
  ss_empty := ∅; ss_update l s := s ∪ list_to_set l; ss_difference_update l s := s ∖ list_to_set l;
  SortedList := list Z; sl_list := sort_ints;
  sl_empty := []; sl_add := cons; sl_remove := remove_first |}.

Lemma sort_ints_sorted l : StronglySorted Z.le (sort_ints l).
Proof.
  pose proof (sorted_by_sorted (K := Z) id l) as Hs. unfold sort_ints. induction Hs as [|x l' _ IH Hf]; [constructor|].
  constructor; [done|]. eapply Forall_impl; [exact Hf|]. intros y Hy. unfold le_by in Hy. cbn in Hy. unfold id in Hy. lia.
Qed.

Lemma in_sort_ints x l : x ∈ sort_ints l <-> x ∈ l.
Proof. unfold sort_ints. by rewrite sorted_by_perm. Qed.

Lemma sorted_le_lt l : StronglySorted Z.le l -> NoDup l -> StronglySorted Z.lt l.
Proof.
  induction 1 as [|x l _ IH Hf]; intros Hd; [constructor|]. apply NoDup_cons in Hd as [Hn Hd].
  constructor; [by apply IH|]. rewrite Forall_forall in *. intros y Hy.
  assert (x <> y) by (by intros ->). specialize (Hf y Hy). lia.
Qed.

Lemma remove_first_perm x l : x ∈ l -> exists l', remove_first x l = Ok l' /\ x :: l' ≡ₚ l.
Proof.
  induction l as [|y l IH]; [by intros ?%elem_of_nil|]. simpl. destruct (Z.eqb_spec x y) as [->|Hne]; [eauto|].
  intros [?|Hin]%elem_of_cons; [done|]. destruct (IH Hin) as (l' & -> & Hp). eexists. split; [done|].
  rewrite Permutation_swap. by rewrite Hp.
Qed.

#[export] Instance sample_sorted_laws : SortedIntsLaws.
Proof.
  split.
  - intros s. apply sorted_le_lt; [apply sort_ints_sorted|]. cbn. unfold sort_ints. rewrite sorted_by_perm.
    apply NoDup_elements.
  - intros x. cbn. rewrite in_sort_ints, elem_of_elements. set_solver.
  - intros x l s. cbn. rewrite !in_sort_ints, !elem_of_elements, elem_of_union, elem_of_list_to_set. tauto.
  - intros x l s. cbn. rewrite !in_sort_ints, !elem_of_elements, elem_of_difference, elem_of_list_to_set. tauto.
  - intros s. apply sort_ints_sorted.
  - done.
  - intros x s. cbn. by rewrite insert_by_perm.
  - intros x s Hin. cbn in Hin. rewrite in_sort_ints in Hin. destruct (remove_first_perm x s Hin) as (l & Hl & Hp).
    exists l. split; [done|]. cbn. unfold sort_ints. by rewrite !sorted_by_perm.
Qed.

(** ** A write of one row *)

Definition gen_of (i : string) (s : Sys) : IdGen :=
  default (fst (MultiWriterIdGenerator i [] true (fresh_db true))) (gens s !! i).

Definition thread (i : string) (ph : Phase) (ids : list Z) : Thread :=
  {| t_inst := i; t_phase := ph; t_ids := ids |}.

(** Workers "a" and "b"; "a" writes one row, up to the given point. *)
Definition run0 : Sys := start ["a"; "b"] ["a"; "b"] true true.
Definition run1 : Sys :=
  set_gen "a" (snd (fetch_begin (gen_of "a" run0))) (set_threads [thread "a" (Waiting 1 1) []] run0).
Definition run2 : Sys := allocate "a" (set_threads [thread "a" (Waiting 1 0) [2]] run1).
Definition run3 : Sys :=
  set_gen "a" (snd (fetch_ids [2] (gen_of "a" run2))) (set_threads [thread "a" (Ending 1 true) [2]] run2).
Definition run4 : Sys :=
  set_gen "a" (snd (fetch_end 1 (gen_of "a" run3))) (set_threads [thread "a" Working [2]] run3).
Definition run5 : Sys := finish_ids [2] (set_threads [thread "a" Over [2]] run4).
Definition run6 : Sys :=
  set_gen "a" (snd (_mark_ids_as_finished [2] (gen_of "a" run5))) (set_threads [] run5).

Lemma run4_steps : rtc sys_step run0 run4.
Proof.
  eapply rtc_l; [apply (StepBegin run0 "a" (gen_of "a" run0) 1 (snd (fetch_begin (gen_of "a" run0))) 1); vm_compute; reflexivity|].
  eapply rtc_l; [apply (StepNextval run1 "a" 1 0 [] [] []); vm_compute; reflexivity|].
  eapply rtc_l; [apply (StepIds run2 "a" (gen_of "a" run2) 1 [2] [] [] (Ok tt)
    (snd (fetch_ids [2] (gen_of "a" run2)))); vm_compute; reflexivity|].
  eapply rtc_l; [apply (StepEnd run3 "a" (gen_of "a" run3) 1 true [2] [] [] (Ok tt)
    (snd (fetch_end 1 (gen_of "a" run3)))); vm_compute; reflexivity|].
  apply rtc_refl.
Qed.

Lemma run6_steps : rtc sys_step run4 run6.
Proof.
  eapply rtc_l; [apply (StepOver run4 "a" [2] [] []); vm_compute; reflexivity|].
  eapply rtc_l; [apply (StepMark run5 "a" (gen_of "a" run5) [2] [] [] (Ok tt)
    (snd (_mark_ids_as_finished [2] (gen_of "a" run5)))); vm_compute; reflexivity|].
  apply rtc_refl.
Qed.

(** While the row is being written the tokens stay below it; then they move up. *)
Example run_tokens :
  (get_current_token (gen_of "a" run4), get_current_token_for_writer "a" (gen_of "a" run4)) = (1, 1) /\
  (get_current_token (gen_of "a" run6), get_current_token_for_writer "a" (gen_of "a" run6)) = (2, 2).
Proof. vm_compute. done. Qed.

Lemma stream_position_safe_witness :
  2 <= _return_factor (gen_of "a" run6) * get_current_token_for_writer "a" (gen_of "a" run6) /\
  2 ∈ finished run6.
Proof.
  assert (Hle : 2 <= _return_factor (gen_of "a" run6) * get_current_token_for_writer "a" (gen_of "a" run6))
    by (vm_compute; congruence).
  split; [exact Hle|].
  refine (proj2 (stream_position_safe ["a"; "b"] ["a"; "b"] true true run6 "a" (gen_of "a" run6) run6 2 "a"
    _ _ _ _ _) Hle).
  - done.
  - etransitivity; [apply run4_steps|apply run6_steps].
  - vm_compute. reflexivity.
  - apply rtc_refl.
  - vm_compute. reflexivity.
Defined.

Lemma stream_positions_monotone_witness :
  exists g', gens run6 !! "a" = Some g' /\ moves (gen_of "a" run4) g'.
Proof. apply (stream_positions_monotone run4 run6 "a"); [apply run6_steps|vm_compute; reflexivity]. Defined.

(** From the middle of the write. *)
Lemma stream_can_catch_up_witness :
  exists s', rtc sys_step run4 s' /\ threads s' = [] /\
    forall k gk i g, gens run4 !! k = Some gk -> gens s' !! i = Some g ->
      _max_seen_allocated_stream_id gk <= _return_factor g * get_current_token g.
Proof.
  apply (stream_can_catch_up ["a"; "b"] ["a"; "b"] true true "a" "b").
  - done.
  - done.
  - by left.
  - right. by left.
  - done.
  - apply run4_steps.
Defined.

(** ** Errors and start-up *)

(** Asking an idle generator for no IDs raises, and leaves nothing in flight. *)
Example no_ids :
  fst (_load_next_mult_id_txn (Ok []) (gen_of "a" run0)) = Err IndexError /\
  is_busy (snd (_load_next_mult_id_txn (Ok []) (gen_of "a" run0))) = false /\
  fst (_mark_ids_as_finished [] (gen_of "a" run0)) = Err ValueError.
Proof. vm_compute. done. Qed.

(** A restart on rows not yet in the table of positions: a positive stream moves the
    instance up to its last row; a negative one, whose rows are sorted the other way round,
    back to its first. *)
Definition restart_db (sign : Z) : StreamDb := {|
  stream_positions := [("a", sign * 2); ("b", sign * 2)];
  stream_tables := [[("a", sign * 2); ("a", sign * 3); ("a", sign * 4)]]; last_value := Some 4 |}.
Example restart_positions :
  dget "a" (_current_positions (fst (MultiWriterIdGenerator "a" ["a"; "b"] true (restart_db 1)))) = Some 4 /\
  dget "a" (_current_positions (fst (MultiWriterIdGenerator "a" ["a"; "b"] false (restart_db (-1))))) = Some 2.
Proof. vm_compute. done. Qed.
