(* ===== verification/StreamTokens.v ===== *)
(** * StreamTokens: positions in the streams, as clients hold them (types/__init__.py)

    A token names a position in a stream that several workers write: the least position of
    all of them, and the positions of those that are ahead.  A [StreamToken] is such a
    position in every stream of the server; clients send it back as a string, in which a
    worker stands under the number the database gives it.  An immutabledict keeps the order
    of its items, so it is an association list. *)
From S2P Require Import Prelude PyVal PyState StreamIds.
From Stdlib Require Import Ascii String.
Open Scope string_scope.
Open Scope list_scope.
Open Scope Z_scope.
Open Scope st_scope.

(** ** The numbers of the workers (storage/databases/main/stream.py) *)

(** The table [instance_map] (schema delta 58/19): both columns are unique, and the database
    numbers a new row.  Rows never change, so the caches of the two queries make no
    difference. *)
Record InstanceMap := { instance_rows : list (Z * string); next_instance_id : Z }.

Definition get_id_for_instance (instance_name : string) : St InstanceMap Z := fun s =>
  match List.find (fun r => String.eqb r.2 instance_name) (instance_rows s) with
  | Some r => (Ok r.1, s)
  | None =>
      (Ok (next_instance_id s),
       {| instance_rows := instance_rows s ++ [(next_instance_id s, instance_name)];
          next_instance_id := next_instance_id s + 1 |})
  end.

Definition get_name_from_instance_id (instance_id : Z) : St InstanceMap string := fun s =>
  match List.find (fun r => r.1 =? instance_id) (instance_rows s) with
  | Some r => (Ok r.2, s)
  | None => (Err (SynapseError 404 "No row found" "M_UNKNOWN"), s)
  end.

(** ** Tokens of a stream with several writers *)

Record AbstractMultiWriterStreamToken := {
  stream : Z;
  instance_map : list (string * Z)
}.

#[global] Instance token_eq_dec : EqDecision AbstractMultiWriterStreamToken.
Proof. solve_decision. Defined.

Module Abstract.
Section abstract.
Context `{SetOrder}.
Abbreviation token := AbstractMultiWriterStreamToken.

(** The constructor, with [__attrs_post_init__]. *)
Definition new (stream : Z) (instance_map : list (string * Z)) : result token :=
  if existsb (fun iv => iv.2 <=? stream) instance_map then Err ValueError
  else Ok {| stream := stream; instance_map := instance_map |}.

Definition get_stream_pos_for_instance (instance_name : string) (self : token) : Z :=
  default (stream self) (dget instance_name (instance_map self)).

Definition get_max_stream_pos (self : token) : Z :=
  max_default (stream self) (map snd (instance_map self)).

(** [set(d).union(d')] *)
Definition key_union (d d' : list (string * Z)) : list string :=
  set_iter (dkeys d ++ List.filter (fun k => negb (dmem k d)) (dkeys d')).

(** The fields of the token that [copy_and_advance] makes. *)
Definition advance_fields (self other : token) : Z * list (string * Z) :=
  let max_stream := Z.max (stream self) (stream other) in
  let instance_map := map (fun instance =>
    (instance, Z.max (get_stream_pos_for_instance instance self)
                     (get_stream_pos_for_instance instance other)))
    (key_union (instance_map self) (instance_map other)) in
  (max_stream, List.filter (fun is_ => max_stream <? is_.2) instance_map).

Definition copy_and_advance (self other : token) : result token :=
  let (s, m) := advance_fields self other in new s m.

Definition is_before_or_eq (self other_token : token) : bool :=
  if stream other_token <? stream self then false
  else forallb (fun instance =>
         negb (get_stream_pos_for_instance instance other_token
               <? get_stream_pos_for_instance instance self))
         (key_union (instance_map self) (instance_map other_token)).

Definition bound_fields (max_stream : Z) (self : token) : Z * list (string * Z) :=
  let min_pos := Z.min (stream self) max_stream in
  (min_pos, map (fun ks => (ks.1, Z.min ks.2 max_stream))
    (List.filter (fun ks => min_pos <? Z.min ks.2 max_stream) (instance_map self))).

Definition bound_stream_token (max_stream : Z) (self : token) : result token :=
  let (s, m) := bound_fields max_stream self in new s m.

Definition from_generator `{SortedInts} (generator : IdGen) : result token :=
  let min_pos := get_current_token generator in
  new min_pos (List.filter (fun ip => min_pos <? ip.2) (get_positions generator)).

(** The two loops over the instances of a token in a string. *)
Definition parse_part (instance_map : list (string * Z)) (part : string)
    : St InstanceMap (list (string * Z)) :=
  if String.eqb part "" then st_ret instance_map
  else match split_all "." part with
       | [key; value] =>
           let! instance_id := st_lift (int_of_str key) in
           let! pos := st_lift (int_of_str value) in
           let! instance_name := get_name_from_instance_id instance_id in
           st_ret (dset instance_name pos instance_map)
       | _ => st_raise ValueError
       end.

Definition parse_map (string : string) : St InstanceMap (Z * list (String.string * Z)) :=
  match split_all "~" string with
  | first :: parts =>
      let! stream := st_lift (int_of_str first) in
      let! m := st_fold parse_part [] parts in
      st_ret (stream, m)
  | [] => st_raise IndexError
  end.

Fixpoint print_entries (stream : Z) (items : list (string * Z)) : St InstanceMap (list string) :=
  match items with
  | [] => st_ret []
  | (name, pos) :: items =>
      if pos <=? stream then print_entries stream items
      else
        let! instance_id := get_id_for_instance name in
        let! entries := print_entries stream items in
        st_ret ((str_of_int instance_id ++ "." ++ str_of_int pos)%string :: entries)
  end.

(** The string of a token whose map is not empty; [plain] is what it is without entries. *)
Definition print_map (plain : string) (self : token) : St InstanceMap string :=
  let! entries := print_entries (stream self) (instance_map self) in
  match entries with
  | [] => st_ret plain
  | _ => st_ret ("m" ++ str_of_int (stream self) ++ "~" ++ str_join "~" entries)%string
  end.
End abstract.
End Abstract.

(** ** Room tokens *)

Record RoomStreamToken := {
  room_token : AbstractMultiWriterStreamToken;
  topological : option Z
}.

#[global] Instance room_token_eq_dec : EqDecision RoomStreamToken.
Proof. solve_decision. Defined.

Module Room.
Section room.
Context `{SetOrder}.

(** [bool(self.topological)] *)
Definition truthy_topological (t : option Z) : bool :=
  match t with Some n => negb (n =? 0) | None => false end.

Definition new (topological : option Z) (stream : Z) (instance_map : list (string * Z))
    : result RoomStreamToken :=
  if match instance_map with [] => false | _ => true end && truthy_topological topological
  then Err ValueError
  else let* t := Abstract.new stream instance_map in
       Ok {| room_token := t; topological := topological |}.

Definition invalid_token : exc := SynapseError 400 "Invalid room stream token %r" "M_UNKNOWN".

(** The format specification [!r] of the first message is not one, so formatting it raises
    [ValueError] before there is a [SynapseError] to raise. *)
Definition parse (string : string) : St InstanceMap RoomStreamToken :=
  match string with
  | EmptyString => st_raise ValueError
  | String c rest =>
      if Ascii.eqb c "s" then
        st_except (st_lift (let* n := int_of_str rest in new None n [])) invalid_token
      else if Ascii.eqb c "t" then
        st_except (st_lift
          match split_once "-" rest with
          | Some (a, b) =>
              let* t := int_of_str a in let* n := int_of_str b in new (Some t) n []
          | None => let* t := int_of_str rest in Err IndexError
          end) invalid_token
      else if Ascii.eqb c "m" then
        st_except (let! (n, m) := Abstract.parse_map rest in st_lift (new None n m)) invalid_token
      else st_raise ValueError
  end.

Definition parse_stream_token (string : string) : result RoomStreamToken :=
  match string with
  | String "s" rest =>
      match (let* n := int_of_str rest in new None n []) with
      | Ok t => Ok t
      | Err _ => Err invalid_token
      end
  | _ => Err invalid_token
  end.

Definition copy_and_advance (self other : RoomStreamToken) : result RoomStreamToken :=
  if truthy_topological (topological self) || truthy_topological (topological other)
  then Err (PyException "Can't advance topological tokens")
  else let (s, m) := Abstract.advance_fields (room_token self) (room_token other) in
       new (topological self) s m.

Definition as_historical_tuple (self : RoomStreamToken) : result (Z * Z) :=
  match topological self with
  | None => Err (PyException "Cannot call `RoomStreamToken.as_historical_tuple` on live token")
  | Some t => Ok (t, stream (room_token self))
  end.

Definition get_stream_pos_for_instance (instance_name : string) (self : RoomStreamToken) : result Z :=
  match topological self with
  | None => Ok (Abstract.get_stream_pos_for_instance instance_name (room_token self))
  | Some _ => Err AssertionError
  end.

Definition to_string (self : RoomStreamToken) : St InstanceMap string :=
  let t := room_token self in
  match topological self with
  | Some n => st_ret ("t" ++ str_of_int n ++ "-" ++ str_of_int (stream t))%string
  | None =>
      let plain := ("s" ++ str_of_int (stream t))%string in
      match instance_map t with
      | [] => st_ret plain
      | _ => Abstract.print_map plain t
      end
  end.

Definition bound_stream_token (max_stream : Z) (self : RoomStreamToken) : result RoomStreamToken :=
  match topological self with
  | None => let (s, m) := Abstract.bound_fields max_stream (room_token self) in new None s m
  | Some _ => Err AssertionError
  end.

Definition is_before_or_eq (self other_token : RoomStreamToken) : bool :=
  Abstract.is_before_or_eq (room_token self) (room_token other_token).

Definition from_generator `{SortedInts} (generator : IdGen) : result RoomStreamToken :=
  let* t := Abstract.from_generator generator in Ok {| room_token := t; topological := None |}.
End room.
End Room.

(** ** The tokens of the other streams *)

Abbreviation MultiWriterStreamToken := AbstractMultiWriterStreamToken.

Module MultiWriter.
Definition parse (string : string) : St InstanceMap MultiWriterStreamToken :=
  st_except
    match string with
    | EmptyString => st_raise IndexError
    | String c rest =>
        if is_digit c then st_lift (let* n := int_of_str string in Abstract.new n [])
        else if Ascii.eqb c "m" then
          let! (n, m) := Abstract.parse_map rest in st_lift (Abstract.new n m)
        else st_raise (SynapseError 400 "Invalid stream token %r" "M_UNKNOWN")
    end
    (SynapseError 400 "Invalid stream token %r" "M_UNKNOWN").

Definition to_string (self : MultiWriterStreamToken) : St InstanceMap string :=
  let plain := str_of_int (stream self) in
  match instance_map self with
  | [] => st_ret plain
  | _ => Abstract.print_map plain self
  end.

(** [m.get(instance_name, stream) if instance_name else stream] *)
Definition position_of (instance_name : option string) (t : MultiWriterStreamToken) : Z :=
  match instance_name with
  | Some i => if String.eqb i "" then stream t else Abstract.get_stream_pos_for_instance i t
  | None => stream t
  end.

Definition is_stream_position_in_range (low high : option MultiWriterStreamToken)
    (instance_name : option string) (pos : Z) : bool :=
  if match low with Some l => pos <=? position_of instance_name l | None => false end then false
  else if match high with Some h => position_of instance_name h <? pos | None => false end
  then false else true.
End MultiWriter.

(** ** Tokens of all streams *)

Inductive StreamKeyType :=
  | ROOM | PRESENCE | TYPING | RECEIPT | ACCOUNT_DATA | PUSH_RULES | TO_DEVICE | DEVICE_LIST
  | UN_PARTIAL_STATED_ROOMS | THREAD_SUBSCRIPTIONS.

#[global] Instance stream_key_eq_dec : EqDecision StreamKeyType.
Proof. solve_decision. Defined.

Definition StreamKeyType_members : list StreamKeyType :=
  [ROOM; PRESENCE; TYPING; RECEIPT; ACCOUNT_DATA; PUSH_RULES; TO_DEVICE; DEVICE_LIST;
   UN_PARTIAL_STATED_ROOMS; THREAD_SUBSCRIPTIONS].

Record StreamToken := {
  room_key : RoomStreamToken;
  presence_key : Z;
  typing_key : Z;
  receipt_key : MultiWriterStreamToken;
  account_data_key : Z;
  push_rules_key : Z;
  to_device_key : Z;
  device_list_key : MultiWriterStreamToken;
  groups_key : Z;
  un_partial_stated_rooms_key : Z;
  thread_subscriptions_key : Z
}.

#[global] Instance stream_token_eq_dec : EqDecision StreamToken.
Proof. solve_decision. Defined.

Module Stream.
Section stream.
Context `{SetOrder}.

Definition _SEPARATOR : ascii := "_".

(** [while len(keys) < n: keys.append("0")] *)
Definition pad_keys (keys : list string) : list string :=
  keys ++ repeat "0" (11 - List.length keys).

Definition invalid_token : exc := SynapseError 400 "Invalid stream token" "M_UNKNOWN".

Definition from_string (string : string) : St InstanceMap StreamToken :=
  st_except
    match pad_keys (split_all _SEPARATOR string) with
    | [room; presence; typing; receipt; account_data; push_rules; to_device; device_list;
       groups; un_partial; thread_subscriptions] =>
        let! room_key := Room.parse room in
        let! presence_key := st_lift (int_of_str presence) in
        let! typing_key := st_lift (int_of_str typing) in
        let! receipt_key := MultiWriter.parse receipt in
        let! account_data_key := st_lift (int_of_str account_data) in
        let! push_rules_key := st_lift (int_of_str push_rules) in
        let! to_device_key := st_lift (int_of_str to_device) in
        let! device_list_key := MultiWriter.parse device_list in
        let! groups_key := st_lift (int_of_str groups) in
        let! un_partial_stated_rooms_key := st_lift (int_of_str un_partial) in
        let! thread_subscriptions_key := st_lift (int_of_str thread_subscriptions) in
        st_ret {| room_key := room_key; presence_key := presence_key; typing_key := typing_key;
                  receipt_key := receipt_key; account_data_key := account_data_key;
                  push_rules_key := push_rules_key; to_device_key := to_device_key;
                  device_list_key := device_list_key; groups_key := groups_key;
                  un_partial_stated_rooms_key := un_partial_stated_rooms_key;
                  thread_subscriptions_key := thread_subscriptions_key |}
    | _ => st_raise ValueError
    end
    invalid_token.

Definition to_string (self : StreamToken) : St InstanceMap string :=
  let! room := Room.to_string (room_key self) in
  let! receipt := MultiWriter.to_string (receipt_key self) in
  let! device_list := MultiWriter.to_string (device_list_key self) in
  st_ret (str_join (String _SEPARATOR "")
    [room; str_of_int (presence_key self); str_of_int (typing_key self); receipt;
     str_of_int (account_data_key self); str_of_int (push_rules_key self);
     str_of_int (to_device_key self); device_list; str_of_int (groups_key self);
     str_of_int (un_partial_stated_rooms_key self); str_of_int (thread_subscriptions_key self)]).

Definition room_stream_id (self : StreamToken) : Z := stream (room_token (room_key self)).

(** The type of a key's values, as the overloads of [get_field] declare it. *)
Definition field_type (key : StreamKeyType) : Type :=
  match key with
  | ROOM => RoomStreamToken
  | RECEIPT | DEVICE_LIST => MultiWriterStreamToken
  | _ => Z
  end.

Definition get_field (key : StreamKeyType) (self : StreamToken) : field_type key :=
  match key with
  | ROOM => room_key self
  | PRESENCE => presence_key self
  | TYPING => typing_key self
  | RECEIPT => receipt_key self
  | ACCOUNT_DATA => account_data_key self
  | PUSH_RULES => push_rules_key self
  | TO_DEVICE => to_device_key self
  | DEVICE_LIST => device_list_key self
  | UN_PARTIAL_STATED_ROOMS => un_partial_stated_rooms_key self
  | THREAD_SUBSCRIPTIONS => thread_subscriptions_key self
  end.

(** [new_value] where [key] is the field's own key, else the old value *)
Definition replace_field (k key : StreamKeyType) (new_value : field_type key)
    (old : field_type k) : field_type k :=
  match decide (key = k) with
  | left E => match E in _ = x return field_type x with eq_refl => new_value end
  | right _ => old
  end.

Definition copy_and_replace (key : StreamKeyType) (new_value : field_type key)
    (self : StreamToken) : StreamToken :=
  let f k := replace_field k key new_value (get_field k self) in
  {| room_key := f ROOM; presence_key := f PRESENCE; typing_key := f TYPING;
     receipt_key := f RECEIPT; account_data_key := f ACCOUNT_DATA;
     push_rules_key := f PUSH_RULES; to_device_key := f TO_DEVICE;
     device_list_key := f DEVICE_LIST; groups_key := groups_key self;
     un_partial_stated_rooms_key := f UN_PARTIAL_STATED_ROOMS;
     thread_subscriptions_key := f THREAD_SUBSCRIPTIONS |}.

(** The last part of [copy_and_advance], for the keys whose values are integers. *)
Definition advance_int (old_id new_id : Z) (self new_token : StreamToken) : StreamToken :=
  if old_id <? new_id then new_token else self.

Definition copy_and_advance (key : StreamKeyType)
    : field_type key -> StreamToken -> result StreamToken :=
  match key with
  | ROOM => fun v self =>
      let* r := Room.copy_and_advance (room_key self) v in Ok (copy_and_replace ROOM r self)
  | RECEIPT => fun v self =>
      let* r := Abstract.copy_and_advance (receipt_key self) v in
      Ok (copy_and_replace RECEIPT r self)
  | DEVICE_LIST => fun v self =>
      let* r := Abstract.copy_and_advance (device_list_key self) v in
      Ok (copy_and_replace DEVICE_LIST r self)
  | PRESENCE => fun v self =>
      Ok (advance_int (presence_key self) v self (copy_and_replace PRESENCE v self))
  | TYPING => fun v self =>
      Ok (advance_int (typing_key self) v self (copy_and_replace TYPING v self))
  | ACCOUNT_DATA => fun v self =>
      Ok (advance_int (account_data_key self) v self (copy_and_replace ACCOUNT_DATA v self))
  | PUSH_RULES => fun v self =>
      Ok (advance_int (push_rules_key self) v self (copy_and_replace PUSH_RULES v self))
  | TO_DEVICE => fun v self =>
      Ok (advance_int (to_device_key self) v self (copy_and_replace TO_DEVICE v self))
  | UN_PARTIAL_STATED_ROOMS => fun v self =>
      Ok (advance_int (un_partial_stated_rooms_key self) v self
            (copy_and_replace UN_PARTIAL_STATED_ROOMS v self))
  | THREAD_SUBSCRIPTIONS => fun v self =>
      Ok (advance_int (thread_subscriptions_key self) v self
            (copy_and_replace THREAD_SUBSCRIPTIONS v self))
  end.

(** One turn of the loop of [is_before_or_eq]. *)
Definition before_field (key : StreamKeyType) : field_type key -> field_type key -> bool :=
  match key with
  | ROOM => Room.is_before_or_eq
  | RECEIPT | DEVICE_LIST => Abstract.is_before_or_eq
  | _ => fun a b => negb (b <? a)
  end.

Definition is_before_or_eq (self other_token : StreamToken) : bool :=
  forallb (fun key =>
    if decide (key = TYPING) then true
    else before_field key (get_field key self) (get_field key other_token))
    StreamKeyType_members.

Definition START : StreamToken :=
  let zero := {| stream := 0; instance_map := [] |} in
  {| room_key := {| room_token := zero; topological := None |}; presence_key := 0;
     typing_key := 0; receipt_key := zero; account_data_key := 0; push_rules_key := 0;
     to_device_key := 0; device_list_key := zero; groups_key := 0;
     un_partial_stated_rooms_key := 0; thread_subscriptions_key := 0 |}.
End stream.
End Stream.

(** ** The tokens of sliding sync and of thread subscriptions *)

Record SlidingSyncStreamToken := { stream_token : StreamToken; connection_position : Z }.

Module SlidingSync.
Definition from_string (string : string) : St InstanceMap SlidingSyncStreamToken :=
  st_except
    match split_once "/" string with
    | Some (connection_position_str, stream_token_str) =>
        let! connection_position := st_lift (int_of_str connection_position_str) in
        let! stream_token := Stream.from_string stream_token_str in
        st_ret {| stream_token := stream_token; connection_position := connection_position |}
    | None => st_raise ValueError
    end
    Stream.invalid_token.

Definition to_string (self : SlidingSyncStreamToken) : St InstanceMap string :=
  let! stream_token_str := Stream.to_string (stream_token self) in
  st_ret (str_of_int (connection_position self) ++ "/" ++ stream_token_str)%string.
End SlidingSync.

Record ThreadSubscriptionsToken := { stream_id : Z }.

Module ThreadSubscriptions.
Definition from_string (s : string) : result ThreadSubscriptionsToken :=
  match s with
  | String "t" (String "s" rest) => let* n := int_of_str rest in Ok {| stream_id := n |}
  | _ => Err ValueError
  end.

Definition to_string (self : ThreadSubscriptionsToken) : string :=
  ("ts" ++ str_of_int (stream_id self))%string.
End ThreadSubscriptions.

(** ** Positions of rows *)

Record PersistedPosition := { instance_name : string; persisted_stream : Z }.

(** For a token of a stream with several writers, and for a room token. *)
Definition persisted_after (self : PersistedPosition) (token : AbstractMultiWriterStreamToken) : bool :=
  Abstract.get_stream_pos_for_instance (instance_name self) token <? persisted_stream self.
Definition persisted_after_room (self : PersistedPosition) (token : RoomStreamToken) : result bool :=
  let* p := Room.get_stream_pos_for_instance (instance_name self) token in
  Ok (p <? persisted_stream self).

Definition to_room_stream_token (self : PersistedPosition) : result RoomStreamToken :=
  Room.new None (persisted_stream self) [].
