(* ===== verification/StreamTokensOrder.v ===== *)
(** * StreamTokensOrder: the order of stream tokens

    [is_before_or_eq] compares the positions of all workers, which makes tokens a lattice:
    [copy_and_advance] is the join, [bound_stream_token] the meet with a constant. *)
From S2P Require Import Prelude PyVal PySort PyState TopoSort StreamIds StreamSafety.
From S2P Require Import StreamTokens.
From Stdlib Require Import Ascii String.
Open Scope string_scope.
Open Scope list_scope.
Open Scope Z_scope.

(** What the constructor checks, and that the map is a dictionary. *)
Definition token_ok (t : AbstractMultiWriterStreamToken) : Prop :=
  dict_wf (instance_map t) /\ forall i v, (i, v) ∈ instance_map t -> stream t < v.

Abbreviation pos := Abstract.get_stream_pos_for_instance.

(** ** Dictionaries made by comprehension *)

Lemma dget_comprehension {V} (f : string -> V) (p : string * V -> bool) l k :
  dget k (List.filter p (map (fun i => (i, f i)) l)) =
  if decide (k ∈ l) then if p (k, f k) then Some (f k) else None else None.
Proof.
  induction l as [|i l IH]; simpl; [done|].
  destruct (p (i, f i)) eqn:Hp; simpl; rewrite ?IH.
  - destruct (decide (k = i)) as [->|Hne].
    + rewrite decide_True by (by left). by rewrite Hp.
    + repeat case_decide; set_solver.
  - destruct (decide (k = i)) as [->|Hne].
    + rewrite Hp. by repeat case_decide.
    + repeat case_decide; set_solver.
Qed.

Lemma dget_items {V W} (g : V -> W) (p : V -> bool) (d : list (string * V)) k :
  dict_wf d ->
  dget k (map (fun kv => (kv.1, g kv.2)) (List.filter (fun kv => p kv.2) d)) =
  match dget k d with Some v => if p v then Some (g v) else None | None => None end.
Proof.
  unfold dict_wf. induction d as [|[k' v] d IH]; simpl; [done|]. intros [Hn Hwf]%NoDup_cons.
  specialize (IH Hwf). destruct (p v) eqn:Hp; simpl; rewrite ?IH; case_decide as Hk; subst; try done.
  - by rewrite Hp.
  - rewrite Hp. destruct (dget k' d) as [w|] eqn:Hd; [|done].
    exfalso. apply Hn. apply dget_in in Hd. apply in_map_b. by exists (k', w).
Qed.

Lemma filter_wf {V} (p : string * V -> bool) (d : list (string * V)) :
  dict_wf d -> dict_wf (List.filter p d).
Proof.
  unfold dict_wf. induction d as [|kv d IH]; simpl; [done|]. intros [Hn Hwf]%NoDup_cons.
  destruct (p kv); [|auto]. simpl. apply NoDup_cons. split; [|auto].
  intros (x & Hx & Hin)%in_map_b. apply in_filter_b in Hin as [Hin _]. apply Hn.
  apply in_map_b. eauto.
Qed.

Lemma comprehension_keys {V} (f : string -> V) l : map fst (map (fun i => (i, f i)) l) = l.
Proof. induction l; simpl; congruence. Qed.

(** ** The constructor *)

Lemma new_ok s m t :
  Abstract.new s m = Ok t <->
  t = {| stream := s; instance_map := m |} /\ forall i v, (i, v) ∈ m -> s < v.
Proof.
  unfold Abstract.new. destruct (existsb _ m) eqn:He.
  - split; [done|]. intros [_ Hall]. apply existsb_exists in He as ([i v] & Hin & Hle).
    apply list_elem_of_In in Hin. specialize (Hall i v Hin). simpl in Hle. lia.
  - split; [|by intros [-> _]]. intros [= <-]. split; [done|]. intros i v Hin.
    apply Znot_ge_lt. intros Hge. assert (Ht : existsb (fun iv => iv.2 <=? s) m = true); [|congruence].
    apply existsb_exists. exists (i, v). split; [by apply list_elem_of_In|simpl; lia].
Qed.

Lemma room_new_live s m r :
  Room.new None s m = Ok r <->
  r = {| room_token := {| stream := s; instance_map := m |}; topological := None |} /\
  forall i v, (i, v) ∈ m -> s < v.
Proof.
  unfold Room.new. simpl. rewrite andb_false_r. rewrite rbind_ok. setoid_rewrite new_ok.
  naive_solver.
Qed.

(** ** Positions *)

Lemma pos_ge t i : token_ok t -> stream t <= pos i t.
Proof.
  intros [_ Hgt]. unfold Abstract.get_stream_pos_for_instance.
  destruct (dget i _) as [v|] eqn:Hd; simpl; [|lia]. apply dget_in, Hgt in Hd. lia.
Qed.

Lemma pos_other t i : i ∉ dkeys (instance_map t) -> pos i t = stream t.
Proof. unfold Abstract.get_stream_pos_for_instance. by intros ->%dget_none. Qed.

Section order.
Context `{SetOrder}.

Lemma key_union_in d d' k : k ∈ Abstract.key_union d d' <-> k ∈ dkeys d \/ k ∈ dkeys d'.
Proof.
  unfold Abstract.key_union. rewrite set_iter_perm, elem_of_app, in_filter_b, negb_true_iff.
  destruct (dmem k d) eqn:Hk; [apply dmem_true in Hk; unfold dkeys; naive_solver|].
  split; [naive_solver|]. intros [?|?]; [by left|by right].
Qed.

Lemma key_union_nodup d d' : dict_wf d -> dict_wf d' -> NoDup (Abstract.key_union d d').
Proof.
  intros Hd Hd'. unfold Abstract.key_union. rewrite set_iter_perm. apply NoDup_app. split_and!; [done| |].
  - intros k Hk (_ & Hm)%in_filter_b. apply negb_true_iff in Hm.
    assert (dmem k d = true) by (by apply dmem_true). congruence.
  - assert (Hf : forall l : list string, NoDup l -> NoDup (List.filter (fun k => negb (dmem k d)) l)).
    { clear. induction l as [|x l IH]; [done|]. intros [Hn Hl]%NoDup_cons. simpl.
      destruct (negb _); [|auto]. apply NoDup_cons. split; [|auto].
      by intros [? _]%in_filter_b. }
    by apply Hf.
Qed.

(** The order is the order of the positions of all workers. *)
Lemma before_spec t w :
  Abstract.is_before_or_eq t w = true <-> stream t <= stream w /\ forall i, pos i t <= pos i w.
Proof.
  unfold Abstract.is_before_or_eq. destruct (Z.ltb_spec (stream w) (stream t)); [split; [done|lia]|].
  rewrite forallb_forall. split; [|intros [_ Hall] i _; specialize (Hall i); lia].
  intros Hall. split; [lia|]. intros i.
  destruct (decide (i ∈ Abstract.key_union (instance_map t) (instance_map w))) as [Hi|Hi].
  - apply list_elem_of_In, Hall in Hi. lia.
  - rewrite key_union_in in Hi. rewrite !pos_other by tauto. lia.
Qed.

Lemma before_refl t : Abstract.is_before_or_eq t t = true.
Proof. apply before_spec. split; [lia|]. intros; lia. Qed.

Lemma before_trans t u w :
  Abstract.is_before_or_eq t u = true -> Abstract.is_before_or_eq u w = true ->
  Abstract.is_before_or_eq t w = true.
Proof.
  rewrite !before_spec. intros [? Hp] [? Hq]. split; [lia|]. intros i.
  specialize (Hp i). specialize (Hq i). lia.
Qed.

(** Two tokens each before the other hold the same positions in the same items. *)
Lemma before_antisym t u :
  token_ok t -> token_ok u ->
  Abstract.is_before_or_eq t u = true -> Abstract.is_before_or_eq u t = true ->
  stream t = stream u /\ instance_map t ≡ₚ instance_map u.
Proof.
  rewrite !before_spec. intros [Ht Ht'] [Hu Hu'] [? Hp] [? Hq].
  assert (Hs : stream t = stream u) by lia. split; [done|].
  assert (Hd : forall i, dget i (instance_map t) = dget i (instance_map u)).
  { intros i. assert (He : pos i t = pos i u) by (specialize (Hp i); specialize (Hq i); lia).
    unfold Abstract.get_stream_pos_for_instance in He.
    destruct (dget i (instance_map t)) as [v|] eqn:E1, (dget i (instance_map u)) as [v'|] eqn:E2;
      simpl in He; try done; [congruence| |].
    - apply dget_in, Ht' in E1. lia.
    - apply dget_in, Hu' in E2. lia. }
  apply NoDup_Permutation; [by eapply NoDup_fmap_1|by eapply NoDup_fmap_1|].
  intros [i v]. rewrite <- !dget_some_iff by done. by rewrite Hd.
Qed.

(** ** Joins *)

(** The positions of [v] are the larger ones of [t] and [u]. *)
Definition is_join (t u v : AbstractMultiWriterStreamToken) : Prop :=
  token_ok v /\ stream v = Z.max (stream t) (stream u) /\
  forall i, pos i v = Z.max (pos i t) (pos i u).

Lemma advance_fields_spec t u :
  token_ok t -> token_ok u ->
  exists s m, Abstract.advance_fields t u = (s, m) /\
    (forall i v, (i, v) ∈ m -> s < v) /\ is_join t u {| stream := s; instance_map := m |}.
Proof.
  intros Ht Hu. unfold Abstract.advance_fields. do 2 eexists. split; [reflexivity|].
  set (f i := Z.max (pos i t) (pos i u)). set (l := Abstract.key_union _ _).
  set (s := Z.max (stream t) (stream u)).
  assert (Hgt : forall i v, (i, v) ∈ List.filter (fun is_ => s <? is_.2) (map (fun i => (i, f i)) l) ->
    s < v) by (intros i v [_ Hv]%in_filter_b; simpl in Hv; lia).
  split; [done|]. split_and!; [|done|].
  - split; [|done]. apply filter_wf. unfold dict_wf. simpl. rewrite comprehension_keys.
    apply key_union_nodup; [apply Ht|apply Hu].
  - intros i. unfold Abstract.get_stream_pos_for_instance at 1. simpl.
    rewrite dget_comprehension. fold (f i). simpl.
    pose proof (pos_ge t i Ht). pose proof (pos_ge u i Hu). case_decide as Hi.
    + destruct (Z.ltb_spec s (f i)); simpl; unfold f, s in *; lia.
    + unfold l in Hi. rewrite key_union_in in Hi. unfold f, s. rewrite !pos_other by tauto. done.
Qed.

Lemma advance_spec t u :
  token_ok t -> token_ok u ->
  exists v, Abstract.copy_and_advance t u = Ok v /\ is_join t u v.
Proof.
  intros Ht Hu. destruct (advance_fields_spec t u Ht Hu) as (s & m & He & Hgt & Hj).
  eexists. split; [|exact Hj]. unfold Abstract.copy_and_advance. rewrite He.
  by apply new_ok.
Qed.

Lemma room_advance_spec t u :
  topological t = None -> topological u = None ->
  token_ok (room_token t) -> token_ok (room_token u) ->
  exists v, Room.copy_and_advance t u = Ok v /\ topological v = None /\
    is_join (room_token t) (room_token u) (room_token v).
Proof.
  intros Ht Hu Hto Huo. destruct (advance_fields_spec _ _ Hto Huo) as (s & m & He & Hgt & Hj).
  exists {| room_token := {| stream := s; instance_map := m |}; topological := None |}.
  split_and!; [|done|done]. unfold Room.copy_and_advance. rewrite Ht, Hu, He. simpl.
  by apply room_new_live.
Qed.

Lemma join_before t u v w :
  is_join t u v ->
  Abstract.is_before_or_eq v w = Abstract.is_before_or_eq t w && Abstract.is_before_or_eq u w.
Proof.
  intros (_ & Hs & Hp). apply eq_bool_prop_intro. rewrite !Is_true_true, andb_true_iff, !before_spec, Hs.
  setoid_rewrite Hp. split.
  - intros [? Hall]. split; (split; [lia|]; intros i; specialize (Hall i); lia).
  - intros [[? Hall] [? Hall']]. split; [lia|]. intros i. specialize (Hall i). specialize (Hall' i). lia.
Qed.

Lemma join_after t u v p :
  is_join t u v -> persisted_after p v = persisted_after p t && persisted_after p u.
Proof. intros (_ & _ & Hp). unfold persisted_after. rewrite Hp. lia. Qed.

(** ** Bounds *)

Lemma max_stream_pos_spec t n :
  token_ok t -> Abstract.get_max_stream_pos t <= n <-> forall i, pos i t <= n.
Proof.
  intros Ht. unfold Abstract.get_max_stream_pos, max_default.
  destruct (map snd (instance_map t)) as [|x l] eqn:Hl.
  - assert (Hd : forall i, pos i t = stream t).
    { intros i. apply pos_other. unfold dkeys. destruct (instance_map t); [by apply not_elem_of_nil|done]. }
    setoid_rewrite Hd. split; [done|]. intros Hall. by apply (Hall "").
  - destruct (fold_max_spec l x) as (Hx & Hall & Hin).
    assert (Hm : forall v, v ∈ x :: l <-> exists i, (i, v) ∈ instance_map t).
    { intros v. rewrite <- Hl, in_map_b. split; [intros ([i w] & -> & ?); by exists i|].
      intros [i ?]. by exists (i, v). }
    split; intros Hle.
    + intros i. destruct (dget i (instance_map t)) as [v|] eqn:Hd.
      * unfold Abstract.get_stream_pos_for_instance. rewrite Hd. simpl. apply dget_in in Hd.
        assert (Hv : v ∈ x :: l) by (apply Hm; eauto). apply elem_of_cons in Hv as [->|Hv]; [lia|].
        specialize (Hall v Hv). lia.
      * rewrite pos_other by (by apply dget_none).
        destruct (proj1 (Hm x)) as [j Hj]; [by left|]. apply (proj2 Ht) in Hj. lia.
    + assert (Hf : fold_left Z.max l x ∈ x :: l) by (rewrite elem_of_cons; tauto).
      apply Hm in Hf as [i Hi]. apply dget_some_iff in Hi; [|apply Ht].
      specialize (Hle i). unfold Abstract.get_stream_pos_for_instance in Hle. by rewrite Hi in Hle.
Qed.

Lemma bound_spec t n :
  token_ok t ->
  exists v, Abstract.bound_stream_token n t = Ok v /\ token_ok v /\
    stream v = Z.min (stream t) n /\ forall i, pos i v = Z.min (pos i t) n.
Proof.
  intros Ht. unfold Abstract.bound_stream_token, Abstract.bound_fields.
  set (s := Z.min (stream t) n). set (p v := s <? Z.min v n). set (g v := Z.min v n).
  set (m := map (fun ks : string * Z => (ks.1, g ks.2)) (List.filter (fun ks => p ks.2) (instance_map t))).
  assert (Hm : forall i v, (i, v) ∈ m -> s < v).
  { intros i v Hin. apply in_map_b in Hin as ([j w] & [= -> ->] & (_ & Hp)%in_filter_b).
    unfold p, g in *. simpl in Hp. lia. }
  exists {| stream := s; instance_map := m |}. split_and!; [by apply new_ok| |done|].
  - split; [|done]. unfold dict_wf, m. simpl. rewrite map_map. simpl. apply filter_wf, Ht.
  - intros i. pose proof (pos_ge t i Ht) as Hge. unfold Abstract.get_stream_pos_for_instance in *.
    simpl. unfold m. rewrite dget_items by apply Ht.
    destruct (dget i (instance_map t)) as [v|]; simpl in *; [|done].
    unfold p, g. destruct (Z.ltb_spec s (Z.min v n)); simpl; lia.
Qed.

(** A token is before the bounded one when it is before the token and within the bound. *)
Lemma bound_before t n v w :
  token_ok t -> token_ok w -> Abstract.bound_stream_token n t = Ok v ->
  Abstract.is_before_or_eq w v =
  Abstract.is_before_or_eq w t && (Abstract.get_max_stream_pos w <=? n).
Proof.
  intros Ht Hw Hb. destruct (bound_spec t n Ht) as (v' & Hb' & _ & Hs & Hp).
  assert (v' = v) as -> by congruence. apply eq_bool_prop_intro.
  rewrite !Is_true_true, andb_true_iff, !before_spec, Z.leb_le, max_stream_pos_spec, Hs by done.
  setoid_rewrite Hp. split.
  - intros [? Hall]. split; [split; [lia|]|]; intros i; specialize (Hall i); lia.
  - intros [[? Hall] Hn]. split; [|intros i; specialize (Hall i); specialize (Hn i); lia].
    specialize (Hn ""). pose proof (pos_ge w "" Hw). lia.
Qed.

(** ** Ranges *)

(** With the name of the writer, a row is in a range when it is after its lower end and not
    after its upper end. *)
Lemma range_spec low high i n :
  i <> "" ->
  MultiWriter.is_stream_position_in_range low high (Some i) n =
  (match low with Some l => persisted_after {| instance_name := i; persisted_stream := n |} l
             | None => true end) &&
  (match high with Some h => negb (persisted_after {| instance_name := i; persisted_stream := n |} h)
              | None => true end).
Proof.
  intros Hi. unfold MultiWriter.is_stream_position_in_range, MultiWriter.position_of, persisted_after.
  simpl. destruct (String.eqb_spec i ""); [done|].
  destruct low as [l|], high as [h|]; repeat case_match; simpl in *; lia.
Qed.

(** ** Tokens of all streams *)

Definition field_ok (key : StreamKeyType) : Stream.field_type key -> Prop :=
  match key with
  | ROOM => fun r => topological r = None /\ token_ok (room_token r)
  | RECEIPT | DEVICE_LIST => token_ok
  | _ => fun _ => True
  end.

(** A live token of well-formed positions. *)
Definition live_ok (t : StreamToken) : Prop := forall key, field_ok key (Stream.get_field key t).

Lemma stream_before_spec t w :
  Stream.is_before_or_eq t w = true <->
  forall key, key <> TYPING -> Stream.before_field key (Stream.get_field key t) (Stream.get_field key w) = true.
Proof.
  unfold Stream.is_before_or_eq. rewrite forallb_forall. split.
  - intros Hall key Hk. specialize (Hall key). case_decide; [done|]. apply Hall.
    destruct key; simpl; tauto.
  - intros Hall key _. case_decide; [done|]. by apply Hall.
Qed.

Lemma get_replaced k key v t :
  Stream.get_field k (Stream.copy_and_replace key v t) =
  Stream.replace_field k key v (Stream.get_field k t).
Proof. by destruct k. Qed.

Lemma replace_same key v old : Stream.replace_field key key v old = v.
Proof. by destruct key. Qed.
Lemma replace_other k key v old : key <> k -> Stream.replace_field k key v old = old.
Proof. by destruct k, key. Qed.

(** Putting the join of the old and the new value into a field. *)
Lemma replace_join key v r t :
  live_ok t -> field_ok key r -> key <> TYPING ->
  (forall x, Stream.before_field key r x =
     Stream.before_field key (Stream.get_field key t) x && Stream.before_field key v x) ->
  let t' := Stream.copy_and_replace key r t in
  live_ok t' /\ forall w, Stream.is_before_or_eq t' w =
    Stream.is_before_or_eq t w && Stream.before_field key v (Stream.get_field key w).
Proof.
  intros Ht Hr Hkey Hj t'. split.
  - intros k. unfold t'. rewrite get_replaced. destruct (decide (key = k)) as [<-|Hne].
    + by rewrite replace_same.
    + rewrite replace_other by done. apply Ht.
  - intros w. apply eq_bool_prop_intro.
    rewrite !Is_true_true, andb_true_iff, !stream_before_spec. unfold t'. setoid_rewrite get_replaced.
    split.
    + intros Hall. pose proof (Hall key Hkey) as Hk. rewrite replace_same, Hj, andb_true_iff in Hk.
      split; [|apply Hk]. intros k Hne. destruct (decide (key = k)) as [<-|Hd]; [apply Hk|].
      specialize (Hall k Hne). by rewrite replace_other in Hall.
    + intros [Hall Hv] k Hne. destruct (decide (key = k)) as [<-|Hd].
      * rewrite replace_same, Hj. by rewrite Hall, Hv.
      * rewrite replace_other by done. by apply Hall.
Qed.

(** A value already reached. *)
Lemma before_absorb key v t w :
  key <> TYPING ->
  (forall x, Stream.before_field key (Stream.get_field key t) x = true ->
     Stream.before_field key v x = true) ->
  Stream.is_before_or_eq t w =
  Stream.is_before_or_eq t w && Stream.before_field key v (Stream.get_field key w).
Proof.
  intros Hkey Hv. destruct (Stream.is_before_or_eq t w) eqn:Hb; [|done].
  symmetry. apply Hv. by apply stream_before_spec.
Qed.

Lemma before_int_join old v x : old < v -> negb (x <? v) = negb (x <? old) && negb (x <? v).
Proof. lia. Qed.

Lemma before_int_absorb old v x : v <= old -> negb (x <? old) = true -> negb (x <? v) = true.
Proof. lia. Qed.
End order.
