(* ===== verification/StreamTokensText.v ===== *)
(** * StreamTokensText: stream tokens as strings

    Printing a token gives every worker it names a number in the database; reading it back,
    at any later time, gives the same token.  Reading any other string gives a well-formed
    token or the error a client is meant to see. *)
From S2P Require Import Prelude PyVal PySort PyState PyNumerals TopoSort StreamIds.
From S2P Require Import StreamSafety StreamTokens StreamTokensOrder.
From Stdlib Require Import Ascii String.
Open Scope string_scope.
Open Scope list_scope.
Open Scope Z_scope.
Open Scope st_scope.

(** ** The table of workers *)

Definition instances_ok (s : InstanceMap) : Prop :=
  NoDup (map fst (instance_rows s)) /\ NoDup (map snd (instance_rows s)) /\
  forall id name, (id, name) ∈ instance_rows s -> id < next_instance_id s.

(** Rows are added, never changed. *)
Definition extends (s s' : InstanceMap) : Prop := instance_rows s ⊆ instance_rows s'.

#[export] Instance extends_preorder : PreOrder extends.
Proof. unfold extends. split; [by intros s|intros s1 s2 s3 ? ?; by etransitivity]. Qed.

Lemma get_id_spec name s :
  instances_ok s -> exists id s', get_id_for_instance name s = (Ok id, s') /\
    instances_ok s' /\ extends s s' /\ (id, name) ∈ instance_rows s'.
Proof.
  intros Hs. unfold get_id_for_instance. destruct (List.find _ _) as [[id n]|] eqn:Hf.
  - apply find_some in Hf as [Hin He]. simpl in *. apply String.eqb_eq in He as ->.
    exists id, s. split_and!; try done. by apply list_elem_of_In.
  - pose proof (find_none _ _ Hf) as Hnone. destruct Hs as (Hid & Hname & Hlt).
    do 2 eexists. split; [done|]. unfold instances_ok. split_and!.
    + simpl. rewrite List.map_app. apply NoDup_app. split_and!; [done| |apply NoDup_singleton].
      intros i ([i' n] & -> & Hin)%in_map_b Hn%list_elem_of_singleton. apply Hlt in Hin. simpl in *. lia.
    + simpl. rewrite List.map_app. apply NoDup_app. split_and!; [done| |apply NoDup_singleton].
      intros n ([i n'] & -> & Hin)%in_map_b Hn%list_elem_of_singleton. simpl in Hn. subst.
      apply list_elem_of_In, Hnone in Hin. simpl in Hin. by rewrite String.eqb_refl in Hin.
    + simpl. intros i n [Hin|[= -> _]%list_elem_of_singleton]%elem_of_app; [|lia].
      apply Hlt in Hin. lia.
    + unfold extends. simpl. intros r Hr. apply elem_of_app. by left.
    + simpl. apply elem_of_app. right. by left.
Qed.

Lemma get_name_spec id name s :
  instances_ok s -> (id, name) ∈ instance_rows s ->
  get_name_from_instance_id id s = (Ok name, s).
Proof.
  intros (Hid & _ & _) Hin. unfold get_name_from_instance_id.
  destruct (List.find _ _) as [[i n]|] eqn:Hf.
  - apply find_some in Hf as [Hin' He]. simpl in He. apply Z.eqb_eq in He as ->.
    apply list_elem_of_In in Hin'. simpl. repeat f_equal.
    pose proof (proj2 (dget_some_iff id n (instance_rows s) Hid) Hin') as Hd1.
    pose proof (proj2 (dget_some_iff id name (instance_rows s) Hid) Hin) as Hd2. congruence.
  - apply list_elem_of_In in Hin. apply (find_none _ _ Hf) in Hin. simpl in Hin. lia.
Qed.

(** ** Printing and reading back *)

(** [print] gives a string of the characters [chars], from which [parse] gets [a] in the
    same or any later table. *)
Definition reads_back {A} (chars : ascii -> bool) (print : St InstanceMap string)
    (parse : string -> St InstanceMap A) (a : A) : Prop :=
  forall s, instances_ok s -> exists str s',
    print s = (Ok str, s') /\ instances_ok s' /\ extends s s' /\ str_all chars str = true /\
    forall s2, instances_ok s2 -> extends s' s2 -> parse str s2 = (Ok a, s2).

(** The characters of the tokens of one stream: none of them is a separator of the token of
    all streams. *)
Definition is_token_char (a : ascii) : bool :=
  is_sign_or_digit a || Ascii.eqb a "s" || Ascii.eqb a "t" || Ascii.eqb a "m"
  || Ascii.eqb a "~" || Ascii.eqb a ".".

Lemma sign_token_char a : is_sign_or_digit a = true -> is_token_char a = true.
Proof. unfold is_token_char. by intros ->. Qed.

Lemma int_token_chars n : str_all is_token_char (str_of_int n) = true.
Proof. eapply str_all_impl; [apply sign_token_char|apply str_of_int_chars]. Qed.

Lemma str_all_cons p a s : str_all p (String a s) = p a && str_all p s.
Proof. done. Qed.

Lemma join_token_chars l :
  Forall (fun e => str_all is_token_char e = true) l ->
  str_all is_token_char (str_join "~" l) = true.
Proof.
  induction 1 as [|e l He Hl IH]; [done|]. destruct l as [|e' l]; [done|].
  change (str_join _ (e :: e' :: l)) with (e ++ "~" ++ str_join "~" (e' :: l))%string.
  by rewrite !str_all_app, He, IH.
Qed.

Section text.
Context `{SetOrder}.

(** An entry: read back, it sets the position of its worker. *)
Lemma parse_entry id name p acc s :
  instances_ok s -> (id, name) ∈ instance_rows s ->
  Abstract.parse_part acc (str_of_int id ++ "." ++ str_of_int p)%string s =
  (Ok (dset name p acc), s).
Proof.
  intros Hs Hin. unfold Abstract.parse_part.
  assert (Hne : String.eqb (str_of_int id ++ "." ++ str_of_int p)%string "" = false).
  { by destruct (str_of_int_cons id) as (a & r & -> & _). }
  rewrite Hne.
  change ("." ++ str_of_int p)%string with (String "." (str_of_int p)).
  rewrite split_all_app by (by apply without_int). rewrite split_all_without by (by apply without_int).
  rewrite !int_of_str_of_int. unfold st_bind, st_lift, st_ret. by rewrite (get_name_spec id name).
Qed.

Lemma print_entries_spec low items s :
  instances_ok s -> (forall i v, (i, v) ∈ items -> low < v) ->
  exists es s', Abstract.print_entries low items s = (Ok es, s') /\
    instances_ok s' /\ extends s s' /\ List.length es = List.length items /\
    Forall (fun e => str_all is_token_char e = true /\ without "~" e = true) es /\
    forall s2 acc, instances_ok s2 -> extends s' s2 -> dict_wf (acc ++ items) ->
      st_fold Abstract.parse_part acc es s2 = (Ok (acc ++ items), s2).
Proof.
  revert s. induction items as [|[name p] items IH]; intros s Hs Hgt.
  - exists [], s. split_and!; try done. intros s2 acc _ _ _. by rewrite app_nil_r.
  - cbn [Abstract.print_entries]. destruct (Z.leb_spec p low) as [Hle|_].
    { specialize (Hgt name p (list_elem_of_here _ _)). lia. }
    destruct (get_id_spec name s Hs) as (id & s1 & Hid & Hs1 & Hext1 & Hin).
    destruct (IH s1 Hs1) as (es & s' & Hes & Hs' & Hext & Hlen & Hall & Hparse).
    { intros i v Hv. apply (Hgt i v). by right. }
    exists ((str_of_int id ++ "." ++ str_of_int p)%string :: es), s'.
    unfold st_bind. rewrite Hid, Hes. split_and!; try done.
    + by etransitivity.
    + simpl. by rewrite Hlen.
    + constructor; [|done]. split.
      * by rewrite !str_all_app, !int_token_chars.
      * by rewrite !without_app, !without_int.
    + intros s2 acc Hs2 Hext2 Hwf. cbn [st_fold]. unfold st_bind.
      rewrite (parse_entry id name) by (try done; by apply Hext2, Hext).
      assert (Hacc : dset name p acc = acc ++ [(name, p)]).
      { apply dset_notin. intros Hk. unfold dict_wf in Hwf. rewrite List.map_app in Hwf.
        apply NoDup_app in Hwf as (_ & Hn & _). by apply (Hn name Hk); left. }
      rewrite Hacc, Hparse by (done || by rewrite <- app_assoc). by rewrite <- app_assoc.
Qed.

(** The part of a token after its letter [m]. *)
Lemma print_map_spec plain t :
  token_ok t -> instance_map t <> [] ->
  forall s, instances_ok s -> exists body s',
    Abstract.print_map plain t s = (Ok (String "m" body), s') /\
    instances_ok s' /\ extends s s' /\ str_all is_token_char body = true /\
    forall s2, instances_ok s2 -> extends s' s2 ->
      Abstract.parse_map body s2 = (Ok (stream t, instance_map t), s2).
Proof.
  intros [Hwf Hgt] Hne s Hs.
  destruct (print_entries_spec (stream t) (instance_map t) s Hs Hgt)
    as (es & s' & Hes & Hs' & Hext & Hlen & Hall & Hparse).
  exists (str_of_int (stream t) ++ "~" ++ str_join "~" es)%string, s'.
  destruct es as [|e es]; [by destruct (instance_map t)|].
  unfold Abstract.print_map, st_bind. rewrite Hes. split_and!; try done.
  - rewrite !str_all_app, int_token_chars, join_token_chars; [done|].
    eapply Forall_impl; [exact Hall|]. by intros x [? _].
  - intros s2 Hs2 Hext2. unfold Abstract.parse_map.
    change ("~" ++ str_join "~" (e :: es))%string with (String "~" (str_join (String "~" "") (e :: es))).
    rewrite split_all_app by (by apply without_int).
    rewrite split_all_join; [|done|eapply Forall_impl; [exact Hall|by intros x [_ ?]]].
    unfold st_bind at 1, st_lift. rewrite int_of_str_of_int. unfold st_bind.
    rewrite (Hparse s2 []) by done. done.
Qed.

Lemma new_of_token t : token_ok t -> Abstract.new (stream t) (instance_map t) = Ok t.
Proof. intros [_ Hgt]. apply new_ok. by destruct t. Qed.

(** ** Room tokens *)

(** What the constructor of room tokens means to allow: a live token, or a point in the
    history with a depth and no map. *)
Definition room_ok (t : RoomStreamToken) : Prop :=
  token_ok (room_token t) /\
  match topological t with
  | None => True
  | Some n => 0 <= n /\ instance_map (room_token t) = []
  end.

Lemma room_reads_back t : room_ok t -> reads_back is_token_char (Room.to_string t) Room.parse t.
Proof.
  intros [Ht Htop] s Hs. unfold Room.to_string. destruct t as [[st m] [n|]]; cbn [topological room_token stream instance_map] in *.
  - destruct Htop as [Hn ->]. do 2 eexists. split; [reflexivity|]. split_and!; try done.
    + by rewrite !str_all_app, !int_token_chars.
    + intros s2 _ _. rewrite app_cons_str. cbn [Room.parse].
      change (Ascii.eqb "t" "s") with false. change (Ascii.eqb "t" "t") with true. cbv iota.
      change ("" ++ (str_of_int n ++ "-" ++ str_of_int st))%string
        with (str_of_int n ++ String "-" (str_of_int st))%string.
      rewrite split_once_app by (by apply without_digit; [|apply str_of_nat_digits]).
      rewrite !int_of_str_of_int. done.
  - destruct m as [|iv m].
    + do 2 eexists. split; [reflexivity|]. split_and!; try done.
      * by rewrite !str_all_app, !int_token_chars.
      * intros s2 _ _. rewrite app_cons_str. cbn [Room.parse].
        change (Ascii.eqb "s" "s") with true. cbv iota.
        change ("" ++ str_of_int st)%string with (str_of_int st).
        by rewrite int_of_str_of_int.
    + destruct (print_map_spec ("s" ++ str_of_int st)%string _ Ht ltac:(done) s Hs)
        as (body & s' & Hp & Hs' & Hext & Hchars & Hparse).
      do 2 eexists. split; [exact Hp|]. split_and!; try done. intros s2 Hs2 Hext2. cbn [Room.parse].
      change (Ascii.eqb "m" "s") with false. change (Ascii.eqb "m" "t") with false.
      change (Ascii.eqb "m" "m") with true. cbv iota.
      unfold st_except, st_bind. rewrite (Hparse s2) by done. unfold st_lift, Room.new.
      cbn [topological Room.truthy_topological]. rewrite andb_false_r.
      pose proof (new_of_token _ Ht) as Hnew. cbn [stream instance_map] in Hnew |- *. by rewrite Hnew.
Qed.

(** ** Tokens of the other streams *)

(** Without a map, such a token is a bare number, which must not look negative. *)
Definition multi_ok (t : MultiWriterStreamToken) : Prop :=
  token_ok t /\ (instance_map t = [] -> 0 <= stream t).

Lemma multi_reads_back t :
  multi_ok t -> reads_back is_token_char (MultiWriter.to_string t) MultiWriter.parse t.
Proof.
  intros [Ht Hpos] s Hs. unfold MultiWriter.to_string. destruct t as [st [|iv m]]; cbn [stream instance_map] in *.
  - destruct (str_of_int_cons st) as (a & r & He & Hd). specialize (Hd (Hpos eq_refl)).
    exists (str_of_int st), s. split_and!; try done; [apply int_token_chars|].
    intros s2 _ _. unfold MultiWriter.parse. pose proof (int_of_str_of_int st) as Hi. rewrite He in Hi |- *.
    by rewrite Hd, Hi.
  - destruct (print_map_spec (str_of_int st) _ Ht ltac:(done) s Hs)
      as (body & s' & Hp & Hs' & Hext & Hchars & Hparse).
    do 2 eexists. split; [exact Hp|]. split_and!; try done. intros s2 Hs2 Hext2.
    unfold MultiWriter.parse. change (is_digit "m") with false. change (Ascii.eqb "m" "m") with true.
    cbv iota. unfold st_except, st_bind. rewrite (Hparse s2) by done. unfold st_lift.
    pose proof (new_of_token _ Ht) as Hnew. cbn [stream instance_map] in Hnew |- *. by rewrite Hnew.
Qed.
End text.
