(* ===== verification/StreamTokensProps.v ===== *)
(** * StreamTokensProps: what clients can rely on in a token

    The tokens a worker makes of its generator, the join of tokens, and the way of a token
    to a client and back. *)
From S2P Require Import Prelude PyVal PySort PyState PyNumerals TopoSort StreamIds.
From S2P Require Import StreamSafety StreamInvariant StreamProps StreamProgress StreamTokens.
From S2P Require Import StreamTokensOrder StreamTokensText.
From Stdlib Require Import Ascii String.
Open Scope string_scope.
Open Scope list_scope.
Open Scope Z_scope.
Open Scope st_scope.

(** ** The positions of a generator are a dictionary *)

Section generator.
Context `{SortedIntsLaws}.

Definition positions_wf (g : IdGen) : Prop := dict_wf (_current_positions g).

Lemma add_persisted_positions x g :
  _current_positions (_add_persisted_position x g) = _current_positions g.
Proof. unfold _add_persisted_position. destruct (absorb _ _), (negb _); done. Qed.

Lemma advance_wf w token g : positions_wf g -> positions_wf (advance w token g).
Proof.
  intros Hg. unfold positions_wf, advance. rewrite add_persisted_positions. by apply dset_wf.
Qed.

Lemma move_position_wf new_cur g : positions_wf g -> positions_wf (move_position new_cur g).
Proof.
  intros Hg. unfold move_position. destruct new_cur as [n|]; [|done]. destruct (n =? 0); [done|].
  by apply dset_wf.
Qed.

Lemma mark_wf ids : preserves positions_wf (_mark_ids_as_finished ids).
Proof.
  assert (Hmod : forall f : IdGen -> IdGen, (forall g, positions_wf g -> positions_wf (f g)) ->
    preserves positions_wf (st_modify f)) by (intros f Hf g Hg; simpl; auto).
  unfold _mark_ids_as_finished.
  repeat first
    [ apply keeps_bind; [|intros ?]
    | apply keeps_read | apply keeps_lift
    | apply keeps_for; intros ? _
    | apply Hmod; intros ? Hg; first [exact Hg | by apply move_position_wf
        | unfold positions_wf; rewrite add_persisted_positions; exact Hg]
    | match goal with |- preserves _ (let (_, _) := ?x in _) => destruct x end ].
Qed.

Lemma fetch_ids_positions ids g :
  _current_positions (snd (fetch_ids ids g)) = _current_positions g.
Proof. unfold fetch_ids, st_bind, st_modify, st_read. cbn. by destruct (last _). Qed.

Lemma fetch_end_positions cm g :
  _current_positions (snd (fetch_end cm g)) = _current_positions g.
Proof. unfold fetch_end. by destruct (sl_remove _ _). Qed.

Definition all_wf (s : Sys) : Prop := forall i g, gens s !! i = Some g -> positions_wf g.

Lemma set_gen_wf i g s : all_wf s -> positions_wf g -> all_wf (set_gen i g s).
Proof.
  intros Hs Hg j h. simpl. destruct (decide (j = i)) as [->|].
  - rewrite lookup_insert_eq. by intros [= <-].
  - rewrite lookup_insert_ne by done. apply Hs.
Qed.

Lemma step_wf s s' : sys_step s s' -> all_wf s -> all_wf s'.
Proof.
  intros Hstep Hs. destruct Hstep; try exact Hs; (apply set_gen_wf; [exact Hs|]).
  all: match goal with Hi : gens _ !! _ = Some ?h |- _ => pose proof (Hs _ h Hi) as Hg end.
  - match goal with Hf : fetch_begin g = _ |- _ => injection Hf as _ <- end. exact Hg.
  - match goal with Hf : fetch_ids ids g = _ |- _ =>
      pose proof (fetch_ids_positions ids g) as Hp; rewrite Hf in Hp end.
    unfold positions_wf. simpl in Hp. rewrite Hp. exact Hg.
  - match goal with Hf : fetch_end cm g = _ |- _ =>
      pose proof (fetch_end_positions cm g) as Hp; rewrite Hf in Hp end.
    unfold positions_wf. simpl in Hp. rewrite Hp. exact Hg.
  - match goal with Hf : _mark_ids_as_finished ids g = _ |- _ =>
      pose proof (mark_wf ids g) as Hp; rewrite Hf in Hp end.
    by apply Hp.
  - by apply advance_wf.
Qed.

Lemma start_wf W instances positive postgres : W <> [] -> all_wf (start W instances positive postgres).
Proof.
  intros HW i g Hg. cbn in Hg.
  apply elem_of_list_to_map_2, in_map_b in Hg as (i' & [= <- ->] & _).
  unfold MultiWriterIdGenerator. set (g := Build_IdGen _ _ _ _ _ _ _ _ _ _ _).
  destruct (load_fresh g postgres HW) as [b ->]. cbn [_writers g].
  assert (Hset : forall ws h, positions_wf h -> positions_wf (fold_left setdefault ws h)).
  { induction ws as [|w ws IH]; intros h Hh; [done|]. simpl. apply IH. unfold setdefault, positions_wf. simpl.
    destruct (dmem _ _); [done|]. by apply dset_wf. }
  set (h := fold_left setdefault W _). assert (Hh : positions_wf h).
  { apply Hset. unfold positions_wf, g. simpl. destruct b; [|by apply NoDup_nil].
    apply NoDup_singleton. }
  clearbody h. by destruct W.
Qed.

Lemma reachable_wf W instances positive postgres s :
  W <> [] -> rtc sys_step (start W instances positive postgres) s -> all_wf s.
Proof.
  intros HW Hs. pose proof (start_wf W instances positive postgres HW) as H0'.
  induction Hs; [done|]. eauto using step_wf.
Qed.

(** ** The token of a generator *)

Definition generator_token (g : IdGen) : AbstractMultiWriterStreamToken :=
  {| stream := get_current_token g;
     instance_map := List.filter (fun ip => get_current_token g <? ip.2) (get_positions g) |}.

Lemma from_generator_ok g :
  positions_wf g ->
  Abstract.from_generator g = Ok (generator_token g) /\ token_ok (generator_token g).
Proof.
  intros Hg. assert (Hgt : forall i v, (i, v) ∈ instance_map (generator_token g) ->
    stream (generator_token g) < v) by (intros i v [_ Hv]%in_filter_b; simpl in *; lia).
  split; [by apply new_ok|]. split; [|done]. apply filter_wf. unfold dict_wf, get_positions.
  rewrite map_map. exact Hg.
Qed.

(** The position of a worker: the current token, or the worker's own when it is ahead. *)
Lemma generator_pos g w :
  _return_factor g = 1 -> positions_wf g ->
  pos w (generator_token g) =
  Z.max (_persisted_upto_position g)
    (default (_persisted_upto_position g) (dget w (_current_positions g))).
Proof.
  intros Hf Hg. unfold Abstract.get_stream_pos_for_instance. cbn [generator_token stream instance_map].
  assert (Hc : get_current_token g = _persisted_upto_position g)
    by (unfold get_current_token, get_persisted_upto_position; rewrite Hf; lia).
  assert (Hp : get_positions g = _current_positions g).
  { unfold get_positions. rewrite Hf. clear. induction (_current_positions g) as [|[i p] l IH]; [done|].
    cbn [map fst snd]. rewrite IH. f_equal. f_equal. lia. }
  rewrite Hc, Hp. set (d := _current_positions g) in *.
  pose proof (dget_items (fun v => v) (fun v => _persisted_upto_position g <? v) d w Hg) as Hd.
  assert (Hid : forall l : list (string * Z), map (fun kv => (kv.1, kv.2)) l = l).
  { clear. induction l as [|[i p] l IH]; [done|]. simpl. by rewrite IH. }
  rewrite Hid in Hd. rewrite Hd. destruct (dget w d) as [v|]; simpl; [|lia].
  destruct (Z.ltb_spec (_persisted_upto_position g) v); simpl; lia.
Qed.

(** A token made of a worker's generator is well-formed; a client that has read the stream
    up to it misses nothing, since every row that is not after the token, of a writer with an ID
    it was or will ever be given, belongs to a write that is over already; and the tokens the
    worker makes later are never behind it. *)
Theorem generator_token_safe `{SetOrder} W instances postgres s i g :
  W <> [] -> rtc sys_step (start W instances true postgres) s -> gens s !! i = Some g ->
  exists t, Abstract.from_generator g = Ok t /\ token_ok t /\
    (forall s' id w, rtc sys_step s s' -> owners s' !! id = Some w ->
       persisted_after {| instance_name := w; persisted_stream := id |} t = false ->
       id ∈ finished s) /\
    (forall s', rtc sys_step s s' -> exists g' t', gens s' !! i = Some g' /\
       Abstract.from_generator g' = Ok t' /\ Abstract.is_before_or_eq t t' = true).
Proof.
  intros HW Hs Hi. exists (generator_token g).
  pose proof (reachable_ok W instances true postgres s HW Hs) as Hok.
  pose proof (so_gens _ _ s Hok i g Hi) as Hg.
  pose proof (reachable_wf W instances true postgres s HW Hs i g Hi) as Hwf.
  pose proof (go_factor _ _ _ _ _ _ i g Hg) as Hf.
  destruct (from_generator_ok g Hwf) as [Ht Htok]. split_and!; [done|done| |].
  - intros s' id w Hs' Hid Hafter. unfold persisted_after in Hafter. cbn [instance_name persisted_stream] in Hafter.
    rewrite generator_pos in Hafter by done. apply Z.ltb_ge in Hafter.
    destruct (steps_owners s s' Hs') as [_ Hold].
    assert (Hset : settled (seq_value s) (owners s) (finished s) w
      (Z.max (_persisted_upto_position g)
         (default (_persisted_upto_position g) (dget w (_current_positions g))))).
    { pose proof (all_over_settled _ _ _ w _ (go_upto _ _ _ _ _ _ i g Hg)) as Hup.
      apply settled_max; [done|]. destruct (dget w _) as [p|] eqn:Hd; [|done].
      apply dget_in in Hd. exact (go_positions _ _ _ _ _ _ i g Hg w p Hd). }
    destruct Hset as (Hseq & _ & Hall). apply Hall; [apply Hold; [done|lia]|done].
  - intros s' Hs'. destruct (steps_moves s s' i g Hs' Hi) as (g' & Hi' & Hm).
    assert (Hs2 : rtc sys_step (start W instances true postgres) s') by (by etransitivity).
    pose proof (reachable_wf W instances true postgres s' HW Hs2 i g' Hi') as Hwf'.
    exists g', (generator_token g'). split_and!; [done|by apply from_generator_ok|].
    destruct Hm as (_ & Hf' & Hup & _ & _ & Hpos). apply before_spec.
    assert (Hf1 : _return_factor g' = 1) by congruence. split.
    + simpl. unfold get_current_token, get_persisted_upto_position. rewrite Hf, Hf1. lia.
    + intros w. rewrite !generator_pos by done. destruct (dget w (_current_positions g)) as [p|] eqn:Hd.
      * destruct (Hpos w p Hd) as (p' & -> & ?). simpl. lia.
      * simpl. lia.
Qed.
End generator.

(** ** Joins *)

(** Copy_and_advance of two well-formed tokens is their least upper bound: it is before
    exactly the tokens that both are before, and a row is after it exactly when it is after
    both. *)
Theorem advance_token_lub `{SetOrder} t u :
  token_ok t -> token_ok u ->
  exists v, Abstract.copy_and_advance t u = Ok v /\ token_ok v /\
    (forall w, Abstract.is_before_or_eq v w =
       Abstract.is_before_or_eq t w && Abstract.is_before_or_eq u w) /\
    (forall p, persisted_after p v = persisted_after p t && persisted_after p u).
Proof.
  intros Ht Hu. destruct (advance_spec t u Ht Hu) as (v & Hv & Hj). exists v. split_and!; [done| | |].
  - apply Hj.
  - intros w. by apply join_before.
  - intros p. by apply join_after.
Qed.

(** advancing a live token of all streams in one key, the typing key apart, succeeds, keeps
    it well-formed, leaves the other keys alone, and makes it the least token that is not
    before the old one nor before the new value. *)
Theorem stream_token_advance_lub `{SetOrder} key (v : Stream.field_type key) t :
  live_ok t -> field_ok key v -> key <> TYPING ->
  exists r, Stream.copy_and_advance key v t = Ok r /\ live_ok r /\
    groups_key r = groups_key t /\
    (forall k, k <> key -> Stream.get_field k r = Stream.get_field k t) /\
    (forall w, Stream.is_before_or_eq r w =
       Stream.is_before_or_eq t w && Stream.before_field key v (Stream.get_field key w)).
Proof.
  intros Ht Hv Hkey.
  assert (Hput : forall r, field_ok key r ->
    (forall x, Stream.before_field key r x =
       Stream.before_field key (Stream.get_field key t) x && Stream.before_field key v x) ->
    let t' := Stream.copy_and_replace key r t in
    live_ok t' /\ groups_key t' = groups_key t /\
    (forall k, k <> key -> Stream.get_field k t' = Stream.get_field k t) /\
    (forall w, Stream.is_before_or_eq t' w =
       Stream.is_before_or_eq t w && Stream.before_field key v (Stream.get_field key w))).
  { intros r Hr Hj t'. destruct (replace_join key v r t Ht Hr Hkey Hj) as [Hl Hb].
    split_and!; try done. intros k Hk. unfold t'. rewrite get_replaced. by apply replace_other. }
  pose proof (Ht key) as Hold. pose proof (fun w => before_absorb key v t w Hkey) as Hstay.
  destruct key; try done; cbn [Stream.copy_and_advance Stream.field_type field_ok] in *.
  3,7: destruct (advance_spec _ _ Hold Hv) as (r & Hr & Hj); cbn [Stream.get_field] in Hr; rewrite Hr;
    eexists; (split; [reflexivity|]); apply Hput; [apply Hj|intros x; by apply join_before].
  2-7: unfold Stream.advance_int;
    match goal with |- context [?old <? ?new] => destruct (Z.ltb_spec old new) end;
    eexists; (split; [reflexivity|]);
    [ apply Hput; [done|intros x; by apply before_int_join]
    | split_and!; try done; intros w; apply Hstay; intros x; by apply before_int_absorb ].
  destruct Hold as [Hold1 Hold2], Hv as [Hv1 Hv2].
  destruct (room_advance_spec _ _ Hold1 Hv1 Hold2 Hv2) as (r & Hr & Hlive & Hj).
  cbn [Stream.get_field] in Hr. rewrite Hr. eexists. split; [reflexivity|]. apply Hput.
  - split; [done|apply Hj].
  - intros x. by apply join_before.
Qed.

(** ** Strings *)

Definition stream_ok (t : StreamToken) : Prop :=
  room_ok (room_key t) /\ multi_ok (receipt_key t) /\ multi_ok (device_list_key t).

Definition is_stream_char (a : ascii) : bool := is_token_char a || Ascii.eqb a "_".

Lemma token_without c s :
  is_token_char c = false -> str_all is_token_char s = true -> without c s = true.
Proof.
  intros Hc. apply str_all_impl. intros a Ha. destruct (Ascii.eqb_spec a c) as [->|]; [congruence|done].
Qed.

Lemma join_stream_chars l :
  Forall (fun e => str_all is_token_char e = true) l ->
  str_all is_stream_char (str_join "_" l) = true.
Proof.
  assert (Himp : forall e, str_all is_token_char e = true -> str_all is_stream_char e = true).
  { intros e. apply str_all_impl. unfold is_stream_char. by intros a ->. }
  induction 1 as [|e l He Hl IH]; [done|]. destruct l as [|e' l]; [by apply Himp|].
  change (str_join _ (e :: e' :: l)) with (e ++ "_" ++ str_join "_" (e' :: l))%string.
  by rewrite !str_all_app, (Himp e), IH.
Qed.

Lemma stream_reads_back `{SetOrder} t :
  stream_ok t -> reads_back is_stream_char (Stream.to_string t) Stream.from_string t.
Proof.
  intros (Hroom & Hrec & Hdev) s Hs.
  destruct (room_reads_back _ Hroom s Hs) as (s1 & i1 & E1 & Hi1 & X1 & C1 & P1).
  destruct (multi_reads_back _ Hrec i1 Hi1) as (s2 & i2 & E2 & Hi2 & X2 & C2 & P2).
  destruct (multi_reads_back _ Hdev i2 Hi2) as (s3 & i3 & E3 & Hi3 & X3 & C3 & P3).
  unfold Stream.to_string, st_bind. rewrite E1, E2, E3.
  set (l := [_; _; _; _; _; _; _; _; _; _; _]).
  assert (Hl : Forall (fun e => str_all is_token_char e = true) l)
    by (repeat constructor; first [done|apply int_token_chars]).
  do 2 eexists. split; [reflexivity|]. split_and!; [done| |by apply join_stream_chars|].
  { by rewrite X1, X2. }
  intros i4 Hi4 X4. unfold Stream.from_string.
  change (String Stream._SEPARATOR "") with (String "_" ""). unfold Stream._SEPARATOR.
  rewrite split_all_join; [|done|].
  2:{ eapply Forall_impl; [exact Hl|]. intros e He. by apply token_without. }
  unfold l. cbn [Stream.pad_keys List.length Nat.sub repeat app].
  unfold Stream.pad_keys. cbn [List.length Nat.sub repeat app]. unfold st_except, st_bind, st_lift.
  rewrite !int_of_str_of_int, P1, P2, P3 by (done || by rewrite ?X2, ?X3).
  by destruct t.
Qed.

(** C23: printing a token of all streams numbers the workers it names, and reading the string
    back, then or at any later time, gives the same token; the string holds no slash, quote or
    space. *)
Theorem stream_token_roundtrip `{SetOrder} t s :
  stream_ok t -> instances_ok s -> exists str s',
    Stream.to_string t s = (Ok str, s') /\ instances_ok s' /\ extends s s' /\
    str_all is_stream_char str = true /\
    forall s2, instances_ok s2 -> extends s' s2 -> Stream.from_string str s2 = (Ok t, s2).
Proof. intros Ht Hs. by apply stream_reads_back. Qed.

(** The same for sliding sync's tokens, and for those of thread subscriptions. *)
Lemma sliding_token_roundtrip `{SetOrder} t s :
  stream_ok (stream_token t) -> instances_ok s -> exists str s',
    SlidingSync.to_string t s = (Ok str, s') /\ instances_ok s' /\ extends s s' /\
    forall s2, instances_ok s2 -> extends s' s2 -> SlidingSync.from_string str s2 = (Ok t, s2).
Proof.
  intros Ht Hs. destruct (stream_reads_back _ Ht s Hs) as (str & s' & E & Hs' & X & _ & P).
  unfold SlidingSync.to_string, st_bind. rewrite E. do 2 eexists. split; [reflexivity|].
  split_and!; try done. intros s2 Hs2 X2. unfold SlidingSync.from_string.
  change ("/" ++ str)%string with (String "/" str). rewrite split_once_app by (by apply without_int).
  unfold st_except, st_bind, st_lift. rewrite int_of_str_of_int, P by done. by destruct t.
Qed.

Lemma thread_token_roundtrip t :
  ThreadSubscriptions.from_string (ThreadSubscriptions.to_string t) = Ok t.
Proof.
  unfold ThreadSubscriptions.to_string. rewrite !app_cons_str. cbn [ThreadSubscriptions.from_string].
  change ("" ++ str_of_int (stream_id t))%string with (str_of_int (stream_id t)).
  rewrite int_of_str_of_int. by destruct t.
Qed.

(** ** Strings from clients *)

(** A computation that leaves the table alone, and whose results satisfy [Q]. *)
Definition yields {A} (Q : A -> Prop) (c : St InstanceMap A) : Prop :=
  forall s, snd (c s) = s /\ forall a, fst (c s) = Ok a -> Q a.

Lemma yields_bind {A B} (Q : A -> Prop) (R : B -> Prop) c (k : A -> St InstanceMap B) :
  yields Q c -> (forall a, Q a -> yields R (k a)) -> yields R (st_bind c k).
Proof.
  intros Hc Hk s. unfold st_bind. destruct (Hc s) as [Hs Ha]. destruct (c s) as [[a|e] s1]; simpl in *.
  - subst s1. by apply Hk, Ha.
  - by subst.
Qed.

Lemma yields_ret {A} (Q : A -> Prop) a : Q a -> yields Q (st_ret a).
Proof. intros Ha s. split; [done|]. by intros b [= <-]. Qed.
Lemma yields_raise {A} (Q : A -> Prop) e : yields Q (st_raise (A := A) e).
Proof. intros s. by split. Qed.
Lemma yields_lift {A} (Q : A -> Prop) (r : result A) : (forall a, r = Ok a -> Q a) -> yields Q (st_lift r).
Proof. intros Hr s. by split. Qed.
Lemma yields_any {A} (r : result A) : yields (fun _ => True) (st_lift r).
Proof. by apply yields_lift. Qed.
Lemma yields_except {A} (Q : A -> Prop) c e : yields Q c -> yields Q (st_except c e).
Proof.
  intros Hc s. unfold st_except. destruct (Hc s) as [Hs Ha]. by destruct (c s) as [[a|e'] s1].
Qed.
Lemma yields_fold {A B} (Q : B -> Prop) (body : B -> A -> St InstanceMap B) l acc :
  Q acc -> (forall b x, Q b -> yields Q (body b x)) -> yields Q (st_fold body acc l).
Proof.
  intros Hacc Hb. revert acc Hacc. induction l as [|x l IH]; intros acc Hacc; [by apply yields_ret|].
  simpl. apply (yields_bind Q); auto.
Qed.

Lemma get_name_reads id : yields (fun _ => True) (get_name_from_instance_id id).
Proof. intros s. unfold get_name_from_instance_id. by destruct (List.find _ _). Qed.

Lemma parse_part_reads acc part :
  dict_wf acc -> yields dict_wf (Abstract.parse_part acc part).
Proof.
  intros Hacc. unfold Abstract.parse_part. destruct (String.eqb part ""); [by apply yields_ret|].
  destruct (split_all "." part) as [|key [|value [|]]]; try apply yields_raise.
  eapply yields_bind; [apply yields_any|intros id _]. eapply yields_bind; [apply yields_any|intros p _].
  eapply yields_bind; [apply get_name_reads|intros name _]. by apply yields_ret, dset_wf.
Qed.

Lemma parse_map_reads str : yields (fun nm => dict_wf nm.2) (Abstract.parse_map str).
Proof.
  unfold Abstract.parse_map. destruct (split_all "~" str) as [|first parts]; [apply yields_raise|].
  eapply yields_bind; [apply yields_any|intros n _]. eapply yields_bind.
  - apply (yields_fold dict_wf); [apply NoDup_nil_2|]. intros b x. apply parse_part_reads.
  - intros m Hm. by apply yields_ret.
Qed.

Lemma new_token_ok n m t : dict_wf m -> Abstract.new n m = Ok t -> token_ok t.
Proof. intros Hm [-> Hgt]%new_ok. by split. Qed.

Definition room_parsed (t : RoomStreamToken) : Prop :=
  token_ok (room_token t) /\ (topological t = None \/ instance_map (room_token t) = []).

Lemma room_new_parsed o n m t :
  dict_wf m -> o = None \/ m = [] -> Room.new o n m = Ok t -> room_parsed t.
Proof.
  intros Hm Ho. unfold Room.new. destruct (_ && _); [done|]. intros (u & Hu & [= <-])%rbind_ok.
  split; [by eapply new_token_ok|]. apply new_ok in Hu as [-> _]. exact Ho.
Qed.

Lemma room_parse_reads str : yields room_parsed (Room.parse str).
Proof.
  unfold Room.parse. destruct str as [|c rest]; [apply yields_raise|]. repeat case_match.
  - apply yields_except, yields_lift. intros t (n & _ & Ht)%rbind_ok.
    eapply room_new_parsed; [apply dict_wf_nil|by left|exact Ht].
  - apply yields_except, yields_lift. intros t (o & _ & (n & _ & Ht)%rbind_ok)%rbind_ok.
    eapply room_new_parsed; [apply dict_wf_nil|by right|exact Ht].
  - apply yields_except, yields_lift. by intros t (o & _ & ?)%rbind_ok.
  - apply yields_except. eapply yields_bind; [apply parse_map_reads|]. intros [n m] Hm.
    apply yields_lift. intros t. by apply room_new_parsed; [|left].
  - apply yields_raise.
Qed.

Lemma multi_parse_reads str : yields token_ok (MultiWriter.parse str).
Proof.
  unfold MultiWriter.parse. apply yields_except. destruct str as [|c rest]; [apply yields_raise|].
  repeat case_match.
  - apply yields_lift. intros t (n & _ & Ht)%rbind_ok. by eapply new_token_ok; [apply dict_wf_nil|].
  - eapply yields_bind; [apply parse_map_reads|]. intros [n m] Hm. apply yields_lift. intros t.
    by apply new_token_ok.
  - apply yields_raise.
Qed.

Lemma except_cases {A} (Q : A -> Prop) (c : St InstanceMap A) e s :
  snd (st_except c e s) = s -> (forall a, fst (st_except c e s) = Ok a -> Q a) ->
  match st_except c e s with
  | (Ok a, s') => s' = s /\ Q a
  | (Err e', s') => s' = s /\ e' = e
  end.
Proof. unfold st_except. destruct (c s) as [[a|e'] s']; simpl; auto. Qed.

(** Whatever string a client sends, reading it as a token of all streams leaves the table of
    workers alone and gives a token all of whose parts are well-formed, or the one error
    "Invalid stream token". *)
Theorem stream_token_parse_safe str s :
  match Stream.from_string str s with
  | (Ok t, s') => s' = s /\ room_parsed (room_key t) /\ token_ok (receipt_key t) /\
                  token_ok (device_list_key t)
  | (Err e, s') => s' = s /\ e = SynapseError 400 "Invalid stream token" "M_UNKNOWN"
  end.
Proof.
  set (Q t := room_parsed (room_key t) /\ token_ok (receipt_key t) /\ token_ok (device_list_key t)).
  assert (Hr : yields Q (Stream.from_string str)).
  { apply yields_except. generalize (Stream.pad_keys (split_all Stream._SEPARATOR str)). intros l.
    do 11 (destruct l as [|? l]; [apply yields_raise|]). destruct l; [|apply yields_raise].
    repeat first
      [ eapply yields_bind; [apply room_parse_reads|intros ? ?]
      | eapply yields_bind; [apply multi_parse_reads|intros ? ?]
      | eapply yields_bind; [apply yields_any|intros ? _] ].
    by apply yields_ret. }
  destruct (Hr s) as [Hs HQ]. unfold Stream.from_string in *.
  apply except_cases; [exact Hs|exact HQ].
Qed.

(** * Tokens of two workers *)
Open Scope string_scope.
Open Scope list_scope.
Open Scope Z_scope.

#[local] Instance in_order : SetOrder := {| set_iter := fun _ l => l; set_iter_perm := fun _ l => reflexivity l |}.

(** Worker "b" is ahead of 5, at 7; worker "a" is ahead of 6, at 9. *)
Definition token_b : AbstractMultiWriterStreamToken := {| stream := 5; instance_map := [("b", 7)] |}.
Definition token_a : AbstractMultiWriterStreamToken := {| stream := 6; instance_map := [("a", 9)] |}.

Lemma singleton_ok s i v : s < v -> token_ok {| stream := s; instance_map := [(i, v)] |}.
Proof.
  intros Hv. split; [apply NoDup_singleton|]. by intros j w [= -> ->]%list_elem_of_singleton.
Qed.
Lemma plain_ok s : token_ok {| stream := s; instance_map := [] |}.
Proof. split; [apply dict_wf_nil|]. by intros j w ?%elem_of_nil. Qed.

Definition live (t : AbstractMultiWriterStreamToken) : RoomStreamToken :=
  {| room_token := t; topological := None |}.
Definition sample_token : StreamToken :=
  {| room_key := live token_b; presence_key := 3; typing_key := 0; receipt_key := token_a;
     account_data_key := 4; push_rules_key := 0; to_device_key := 12; device_list_key := token_b;
     groups_key := 0; un_partial_stated_rooms_key := 1; thread_subscriptions_key := 2 |}.

(** The table has worker "a" already; printing adds "b". *)
Definition sample_workers : InstanceMap :=
  {| instance_rows := [(4, "a")]; next_instance_id := 5 |}.

Example sample_text :
  fst (Stream.to_string sample_token sample_workers) = Ok "m5~5.7_3_0_m6~4.9_4_0_12_m5~5.7_0_1_2".
Proof. vm_compute. done. Qed.

Example sample_join :
  Abstract.copy_and_advance token_b token_a = Ok {| stream := 6; instance_map := [("b", 7); ("a", 9)] |} /\
  Abstract.bound_stream_token 6 token_b = Ok {| stream := 5; instance_map := [("b", 6)] |}.
Proof. vm_compute. done. Qed.

(** Old tokens with fewer keys are read with zeros, and the empty entry of [m5~] is skipped. *)
Example sample_old :
  fst (Stream.from_string "m5~_3" sample_workers) =
  Ok {| room_key := live {| stream := 5; instance_map := [] |}; presence_key := 3; typing_key := 0;
        receipt_key := {| stream := 0; instance_map := [] |}; account_data_key := 0;
        push_rules_key := 0; to_device_key := 0;
        device_list_key := {| stream := 0; instance_map := [] |}; groups_key := 0;
        un_partial_stated_rooms_key := 0; thread_subscriptions_key := 0 |}.
Proof. vm_compute. done. Qed.

(** A room token with a wrong first letter is not refused with the [SynapseError] the code
    means to raise: its message cannot be formatted. *)
Example room_letter :
  fst (Room.parse "x1" sample_workers) = Err ValueError /\
  fst (Room.parse "s1x" sample_workers) = Err Room.invalid_token.
Proof. vm_compute. done. Qed.

(** The checks that keep depths and maps apart take the depth 0 for no depth: such a token is
    made, printed without its map, and advanced like a live one. *)
Example depth_zero :
  exists t, Room.new (Some 0) 5 [("b", 7)] = Ok t /\
    fst (Room.to_string t sample_workers) = Ok "t0-5" /\
    Room.copy_and_advance t (live token_a) =
      Ok {| room_token := {| stream := 6; instance_map := [("b", 7); ("a", 9)] |}; topological := Some 0 |} /\
    Room.new (Some 1) 5 [("b", 7)] = Err ValueError.
Proof. eexists. split; [reflexivity|]. vm_compute. done. Qed.

(** ** The theorems on these tokens *)

Lemma advance_token_lub_witness :
  exists v, Abstract.copy_and_advance token_b token_a = Ok v /\ token_ok v /\
    (forall w, Abstract.is_before_or_eq v w =
       Abstract.is_before_or_eq token_b w && Abstract.is_before_or_eq token_a w) /\
    (forall p, persisted_after p v = persisted_after p token_b && persisted_after p token_a).
Proof. apply (advance_token_lub token_b token_a); by apply singleton_ok. Defined.

Lemma stream_token_advance_lub_witness :
  exists r, Stream.copy_and_advance RECEIPT token_b sample_token = Ok r /\ live_ok r /\
    groups_key r = 0 /\
    (forall k, k <> RECEIPT -> Stream.get_field k r = Stream.get_field k sample_token) /\
    (forall w, Stream.is_before_or_eq r w =
       Stream.is_before_or_eq sample_token w && Abstract.is_before_or_eq token_b (receipt_key w)).
Proof.
  apply (stream_token_advance_lub RECEIPT token_b sample_token).
  - intros []; simpl; try done; try (by apply singleton_ok). split; [done|by apply singleton_ok].
  - by apply singleton_ok.
  - done.
Defined.

Lemma stream_token_roundtrip_witness :
  exists str s', Stream.to_string sample_token sample_workers = (Ok str, s') /\ instances_ok s' /\
    extends sample_workers s' /\ str_all is_stream_char str = true /\
    forall s2, instances_ok s2 -> extends s' s2 -> Stream.from_string str s2 = (Ok sample_token, s2).
Proof.
  apply (stream_token_roundtrip sample_token sample_workers).
  - split_and!; split; try done; by apply singleton_ok.
  - split_and!; try apply NoDup_singleton. by intros id name [= -> ->]%list_elem_of_singleton.
Defined.

(** The token of worker "a" in the middle of its write and after it. *)
Lemma generator_token_safe_witness :
  exists t, Abstract.from_generator (gen_of "a" run4) = Ok t /\ token_ok t /\
    (forall s' id w, rtc sys_step run4 s' -> owners s' !! id = Some w ->
       persisted_after {| instance_name := w; persisted_stream := id |} t = false ->
       id ∈ finished run4) /\
    (forall s', rtc sys_step run4 s' -> exists g' t', gens s' !! "a" = Some g' /\
       Abstract.from_generator g' = Ok t' /\ Abstract.is_before_or_eq t t' = true).
Proof.
  apply (generator_token_safe ["a"; "b"] ["a"; "b"] true run4 "a" (gen_of "a" run4)).
  - done.
  - apply run4_steps.
  - vm_compute. reflexivity.
Defined.
