(* ===== verification/StreamChangeCache.v ===== *)
(** * StreamChangeCache: which entities changed after a position
    (util/caches/stream_change_cache.py)

    A bounded cache of the latest change of each entity (a room or a user), kept beside a
    stream: a query that it answers needs no database.  Positions below
    [_earliest_known_stream_pos] are unknown to it.  [SortedDict] is a third-party package,
    the class [SortedDicts].  A set that the code changes in place is stored in one dictionary
    only, so changing it is storing the changed set.  Metrics are left out. *)
From S2P Require Import Prelude PyVal PySort PyState.
From Stdlib Require Import String Sorting.Sorted.
Open Scope string_scope.
Open Scope list_scope.
Open Scope Z_scope.
Open Scope py_scope.
Open Scope st_scope.

(** [SortedDict] with integer keys, and its items in the order of iteration. *)
Class SortedDicts := {
  SortedDict : Type -> Type;
  sd_items {V} : SortedDict V -> list (Z * V);
  sd_empty {V} : SortedDict V;
  sd_get {V} : Z -> SortedDict V -> option V;
  sd_set {V} : Z -> V -> SortedDict V -> SortedDict V;
  sd_del {V} : Z -> SortedDict V -> result (SortedDict V);
  sd_peekitem {V} : SortedDict V -> result (Z * V);
  sd_popitem_first {V} : SortedDict V -> result ((Z * V) * SortedDict V);
  sd_bisect_right {V} : Z -> SortedDict V -> nat;
  sd_islice {V} : nat -> SortedDict V -> list Z
}.

(** What its documentation says: items come in ascending order of keys, [peekitem] gives the
    last, [popitem] of the index 0 the first, [bisect_right] the index after the keys up to a
    value, and [islice] the keys from an index on. *)
Class SortedDictsLaws `{SortedDicts} := {
  sd_sorted {V} (d : SortedDict V) : StronglySorted Z.lt (map fst (sd_items d));
  sd_items_empty {V} : sd_items (@sd_empty _ V) = [];
  sd_get_some {V} k v (d : SortedDict V) : sd_get k d = Some v <-> (k, v) ∈ sd_items d;
  sd_in_set {V} k v (d : SortedDict V) x :
    x ∈ sd_items (sd_set k v d) <-> x = (k, v) \/ (x ∈ sd_items d /\ x.1 <> k);
  sd_del_some {V} k v (d : SortedDict V) : (k, v) ∈ sd_items d ->
    exists d', sd_del k d = Ok d' /\ forall x, x ∈ sd_items d' <-> x ∈ sd_items d /\ x.1 <> k;
  sd_peekitem_last {V} (d : SortedDict V) l x : sd_items d = l ++ [x] -> sd_peekitem d = Ok x;
  sd_popitem_head {V} (d : SortedDict V) x l : sd_items d = x :: l ->
    exists d', sd_popitem_first d = Ok (x, d') /\ sd_items d' = l;
  sd_bisect_right_spec {V} k (d : SortedDict V) :
    sd_bisect_right k d = List.length (List.filter (fun i => i <=? k) (map fst (sd_items d)));
  sd_islice_spec {V} n (d : SortedDict V) : sd_islice n d = drop n (map fst (sd_items d))
}.

Section cache.
Context `{SortedDicts, SetOrder}.

Record StreamChangeCache := {
  _original_max_size : Z;
  _max_size : Z;
  _cache : SortedDict (gset string);
  _entity_to_key : gmap string Z;
  _earliest_known_stream_pos : Z
}.

(** Assignments to the attributes. *)
Definition set_cache (f : SortedDict (gset string) -> SortedDict (gset string))
    (c : StreamChangeCache) : StreamChangeCache :=
  {| _original_max_size := _original_max_size c; _max_size := _max_size c; _cache := f (_cache c);
     _entity_to_key := _entity_to_key c;
     _earliest_known_stream_pos := _earliest_known_stream_pos c |}.
Definition set_keys (f : gmap string Z -> gmap string Z) (c : StreamChangeCache)
    : StreamChangeCache :=
  {| _original_max_size := _original_max_size c; _max_size := _max_size c; _cache := _cache c;
     _entity_to_key := f (_entity_to_key c);
     _earliest_known_stream_pos := _earliest_known_stream_pos c |}.
Definition set_earliest (f : Z -> Z) (c : StreamChangeCache) : StreamChangeCache :=
  {| _original_max_size := _original_max_size c; _max_size := _max_size c; _cache := _cache c;
     _entity_to_key := _entity_to_key c;
     _earliest_known_stream_pos := f (_earliest_known_stream_pos c) |}.
Definition set_max_size (n : Z) (c : StreamChangeCache) : StreamChangeCache :=
  {| _original_max_size := _original_max_size c; _max_size := n; _cache := _cache c;
     _entity_to_key := _entity_to_key c;
     _earliest_known_stream_pos := _earliest_known_stream_pos c |}.

Definition cache_len (c : StreamChangeCache) : Z := Z.of_nat (List.length (sd_items (_cache c))).

(** ** Eviction *)

(** One turn of the loop. *)
Definition evict_one : St StreamChangeCache unit := fun c =>
  match sd_popitem_first (_cache c) with
  | Ok ((k, r), d) =>
      (Ok tt, set_keys (fun m => fold_left (fun m entity => delete entity m) (set_iter (elements r)) m)
                (set_earliest (Z.max k) (set_cache (fun _ => d) c)))
  | Err e => (Err e, c)
  end.

Fixpoint evict_loop (fuel : nat) : St StreamChangeCache unit :=
  match fuel with
  | O => st_raise OutOfFuel
  | S fuel =>
      let! too_big := st_read (fun c => _max_size c <? cache_len c) in
      if too_big : bool then evict_one ;;! evict_loop fuel else st_ret tt
  end.

(** Every turn removes an item, and the last one only tests. *)
Definition _evict : St StreamChangeCache unit :=
  let! n := st_read (fun c => List.length (sd_items (_cache c))) in
  evict_loop (S n).

(** ** Changes *)

(** Taking an entity out of the set of its latest change. *)
Definition forget_change (entity : string) (old_pos : Z) : St StreamChangeCache unit := fun c =>
  match sd_get old_pos (_cache c) with
  | None => (Err KeyError, c)
  | Some e =>
      if bool_decide (entity ∈ e) then
        let e := e ∖ {[entity]} in
        let c := set_cache (sd_set old_pos e) c in
        if bool_decide (e = ∅) then
          match sd_del old_pos (_cache c) with
          | Ok d => (Ok tt, set_cache (fun _ => d) c)
          | Err x => (Err x, c)
          end
        else (Ok tt, c)
      else (Err KeyError, c)
  end.

Definition record_change (entity : string) (stream_pos : Z) (c : StreamChangeCache)
    : StreamChangeCache :=
  let e1 := default ∅ (sd_get stream_pos (_cache c)) in
  set_keys (<[entity := stream_pos]>) (set_cache (sd_set stream_pos (e1 ∪ {[entity]})) c).

Definition entity_has_changed (entity : string) (stream_pos : Z) : St StreamChangeCache unit :=
  let! earliest := st_read _earliest_known_stream_pos in
  if stream_pos <=? earliest then st_ret tt
  else
    let! old := st_read (fun c => _entity_to_key c !! entity) in
    match old with
    | Some old_pos =>
        if stream_pos <=? old_pos then st_ret tt
        else forget_change entity old_pos ;;! st_modify (record_change entity stream_pos) ;;! _evict
    | None => st_modify (record_change entity stream_pos) ;;! _evict
    end.

Definition all_entities_changed (stream_pos : Z) : St StreamChangeCache unit :=
  st_modify (set_cache (fun _ => sd_empty)) ;;!
  st_modify (set_keys (fun _ => ∅)) ;;!
  st_modify (set_earliest (fun _ => stream_pos)).

(** [new_size] is [math.floor(self._original_max_size * factor)]. *)
Definition set_cache_factor (new_size : Z) : St StreamChangeCache bool :=
  let! old_size := st_read _max_size in
  if new_size =? old_size then st_ret false
  else st_modify (set_max_size new_size) ;;! _evict ;;! st_ret true.

(** The constructor, with the items of [prefilled_cache]. *)
Definition new_cache (current_stream_pos max_size : Z) (prefilled_cache : list (string * Z))
    : result unit * StreamChangeCache :=
  st_for (fun ep => entity_has_changed ep.1 ep.2) prefilled_cache
    {| _original_max_size := max_size; _max_size := max_size; _cache := sd_empty;
       _entity_to_key := ∅; _earliest_known_stream_pos := current_stream_pos |}.

(** ** Queries *)

Definition has_entity_changed (entity : string) (stream_pos : Z) (c : StreamChangeCache) : bool :=
  if stream_pos <? _earliest_known_stream_pos c then true
  else match _entity_to_key c !! entity with
       | None => false
       | Some latest_entity_change_pos =>
           if stream_pos <? latest_entity_change_pos then true else false
       end.

Definition has_any_entity_changed (stream_pos : Z) (c : StreamChangeCache) : result bool :=
  if stream_pos <? _earliest_known_stream_pos c then Ok true
  else match sd_items (_cache c) with
       | [] => Ok false
       | _ => let* k := sd_peekitem (_cache c) in Ok (stream_pos <? k.1)
       end.

(** [None] is a miss. *)
Definition get_all_entities_changed (stream_pos : Z) (c : StreamChangeCache)
    : result (option (list string)) :=
  if stream_pos <? _earliest_known_stream_pos c then Ok None
  else
    let* changed_entities := rfold (fun l k =>
      match sd_get k (_cache c) with
      | Some s => Ok (l ++ set_iter (elements s))
      | None => Err KeyError
      end) [] (sd_islice (sd_bisect_right stream_pos (_cache c)) (_cache c)) in
    Ok (Some changed_entities).

(** [is_set] says whether the collection of entities is a set already. *)
Definition get_entities_changed (entities : list string) (is_set : bool) (stream_pos _perf_factor : Z)
    (c : StreamChangeCache) : result (gset string) :=
  let len {A} (l : list A) := Z.of_nat (List.length l) in
  match sd_items (_cache c) with
  | [] => Ok (list_to_set entities)
  | _ =>
      if stream_pos <? _earliest_known_stream_pos c then Ok (list_to_set entities)
      else
        let* last := sd_peekitem (_cache c) in
        if _perf_factor * len entities <? last.1 - stream_pos then
          Ok (list_to_set (List.filter (fun entity =>
            stream_pos <? default (-1) (_entity_to_key c !! entity)) entities))
        else
          let* cache_result := get_all_entities_changed stream_pos c in
          match cache_result with
          | Some l =>
              if is_set then Ok (list_to_set entities ∩ list_to_set l)
              else if len l <? len entities then Ok (list_to_set l ∩ list_to_set entities)
              else Ok (list_to_set entities ∩ list_to_set l)
          | None => Ok (list_to_set entities)
          end
  end.

Definition get_max_pos_of_last_change (entity : string) (c : StreamChangeCache) : option Z :=
  _entity_to_key c !! entity.

Definition get_earliest_known_position (c : StreamChangeCache) : Z := _earliest_known_stream_pos c.
End cache.

(** * The cache never misses a change

    The abstract object is the history of the stream: every change of an entity, and every
    moment at which all entities may have changed.  The cache answers as the history does, or
    says that it does not know. *)

(** The changes of a stream; [None] stands for all entities. *)
Abbreviation history := (list (option string * Z)).

Definition changed_after (h : history) (e : string) (p : Z) : Prop :=
  exists q, ((Some e, q) ∈ h \/ (None, q) ∈ h) /\ p < q.

Lemma sorted_app {A} (R : A -> A -> Prop) l1 l2 :
  StronglySorted R l1 -> StronglySorted R l2 -> (forall a b, a ∈ l1 -> b ∈ l2 -> R a b) ->
  StronglySorted R (l1 ++ l2).
Proof.
  intros H1 H2 H12. induction H1 as [|x l H1 IH Hall]; [done|]. simpl. constructor.
  - apply IH. intros a b Ha Hb. apply H12; [by right|done].
  - apply Forall_app. split; [done|]. apply Forall_forall. intros b Hb. apply H12; [by left|done].
Qed.

Lemma sorted_filter {A} (R : A -> A -> Prop) (p : A -> bool) l :
  StronglySorted R l -> StronglySorted R (List.filter p l).
Proof.
  intros Hs. induction Hs as [|x l Hs IH Hall]; [constructor|]. simpl. destruct (p x); [|done].
  constructor; [done|]. rewrite Forall_forall in *. intros y [Hy _]%in_filter_b. auto.
Qed.

Section cache.
Context `{SortedDictsLaws, SetOrder}.

(** ** The invariant *)

(** The position up to which the cache may have lost a change: that of its start, and then the
    newest there was when all entities were last marked as changed. *)
Definition newest (p : Z) (h : history) : Z := foldr (fun x => Z.max x.2) p h.

Lemma newest_le p h : p <= newest p h /\ forall x, x ∈ h -> x.2 <= newest p h.
Proof.
  induction h as [|y h [IH1 IH2]]; simpl; [split; [lia|by intros x ?%elem_of_nil]|].
  split; [lia|]. intros x [->|Hx%IH2]%elem_of_cons; lia.
Qed.

(** All marked at a position no earlier than the changes before it. *)
Lemma newest_in_order p h : (forall x, x ∈ h -> x.2 <= p) -> newest p h = p.
Proof.
  induction h as [|y h IH]; intros Hh; simpl; [done|]. rewrite IH.
  - specialize (Hh y ltac:(left)). lia.
  - intros x Hx. apply Hh. by right.
Qed.

(** The two dictionaries say the same, above the earliest known position. *)
Definition in_sync (keys : gmap string Z) (d : SortedDict (gset string)) (earliest : Z) : Prop :=
  (forall e k, keys !! e = Some k <-> exists s, (k, s) ∈ sd_items d /\ e ∈ s) /\
  (forall k s, (k, s) ∈ sd_items d -> s <> ∅ /\ earliest < k).

Record cache_ok (h : history) (z : Z) (c : StreamChangeCache) : Prop := {
  co_sync : in_sync (_entity_to_key c) (_cache c) (_earliest_known_stream_pos c);
  co_latest : forall e k, _entity_to_key c !! e = Some k ->
    (Some e, k) ∈ h /\ forall q, (Some e, q) ∈ h -> q <= k \/ q <= z;
  co_known : forall e q, (Some e, q) ∈ h -> _earliest_known_stream_pos c < q -> z < q ->
    is_Some (_entity_to_key c !! e);
  co_all : forall q, (None, q) ∈ h -> q <= z
}.

Lemma items_unique {V} (d : SortedDict V) k v w :
  (k, v) ∈ sd_items d -> (k, w) ∈ sd_items d -> v = w.
Proof. rewrite <- !sd_get_some. congruence. Qed.

Lemma lookup_delete_all (l : list string) (m : gmap string Z) e :
  fold_left (fun m entity => delete entity m) l m !! e =
  if decide (e ∈ l) then None else m !! e.
Proof.
  revert m. induction l as [|x l IH]; intros m; cbn [fold_left]; [done|].
  - rewrite IH. destruct (decide (e = x)) as [->|Hne].
    + rewrite lookup_delete_eq. rewrite (decide_True _ _ (list_elem_of_here x l)). by case_decide.
    + rewrite lookup_delete_ne by done. repeat case_decide; set_solver.
Qed.

(** ** Eviction *)

Lemma evict_one_spec h z c x l :
  cache_ok h z c -> sd_items (_cache c) = x :: l ->
  exists c', evict_one c = (Ok tt, c') /\ cache_ok h z c' /\ sd_items (_cache c') = l /\
    _max_size c' = _max_size c.
Proof.
  intros [[Hsync Hpos] Hlat Hkn Hall] Hi. destruct x as [k r]. pose proof (sd_sorted (_cache c)) as Hs.
  destruct (sd_popitem_head _ _ _ Hi) as (d & Hd & Hdl). unfold evict_one. rewrite Hd.
  eexists. split; [reflexivity|]. split; [|split; [exact Hdl|done]].
  rewrite Hi in Hs, Hsync, Hpos. simpl in Hs. apply StronglySorted_inv in Hs as [_ Hk].
  assert (Hgt : forall k' s, (k', s) ∈ l -> k < k').
  { intros k' s Hin. rewrite Forall_forall in Hk. apply Hk, in_map_b. by exists (k', s). }
  destruct (Hpos k r) as [_ Hek]; [by left|].
  assert (Hr : forall e, e ∈ r <-> _entity_to_key c !! e = Some k).
  { intros e. rewrite Hsync. split; [intros; exists r; split; [by left|done]|].
    intros (s & [[= ->]|Hin]%elem_of_cons & He); [done|]. apply Hgt in Hin. lia. }
  assert (Hkeys : forall e, fold_left (fun m entity => delete entity m) (set_iter (elements r))
      (_entity_to_key c) !! e = if decide (e ∈ r) then None else _entity_to_key c !! e).
  { intros e. rewrite lookup_delete_all. repeat case_decide; try done;
      rewrite set_iter_perm, elem_of_elements in *; done. }
  assert (Hmax : Z.max k (_earliest_known_stream_pos c) = k) by lia.
  split; cbn [set_keys set_earliest set_cache _cache _entity_to_key _earliest_known_stream_pos];
    rewrite ?Hmax.
  - split; rewrite Hdl.
    + intros e k'. rewrite Hkeys. case_decide as He.
      * split; [done|]. intros (s & Hin & Hes). pose proof (Hgt _ _ Hin).
        apply Hr in He. assert (_entity_to_key c !! e = Some k'); [|simplify_eq; lia].
        apply Hsync. exists s. split; [by right|done].
      * rewrite Hsync. split.
        -- intros (s & [[= -> ->]|Hin]%elem_of_cons & Hes); [done|by exists s].
        -- intros (s & Hin & Hes). exists s. split; [by right|done].
    + intros k' s Hin. split; [|by eapply Hgt]. eapply Hpos. right. exact Hin.
  - intros e k'. rewrite Hkeys. case_decide; [done|]. apply Hlat.
  - intros e q Hq Hkq Hzq. rewrite Hkeys. destruct (Hkn e q Hq ltac:(lia) Hzq) as [k' Hk'].
    rewrite decide_False; [by exists k'|]. rewrite Hr, Hk'. intros [= ->].
    apply Hlat in Hk' as [_ Hle]. specialize (Hle q Hq). lia.
  - done.
Qed.

Lemma evict_loop_spec h z fuel c :
  cache_ok h z c -> 0 <= _max_size c -> (List.length (sd_items (_cache c)) < fuel)%nat ->
  exists c', evict_loop fuel c = (Ok tt, c') /\ cache_ok h z c' /\ _max_size c' = _max_size c /\
    cache_len c' <= _max_size c'.
Proof.
  revert c. induction fuel as [|fuel IH]; intros c Hc Hm Hf; [lia|]. cbn [evict_loop].
  unfold st_bind at 1, st_read. destruct (Z.ltb_spec (_max_size c) (cache_len c)) as [Hlt|Hle].
  - unfold cache_len in Hlt. destruct (sd_items (_cache c)) as [|x l] eqn:Hi; [simpl in Hlt; lia|].
    destruct (evict_one_spec h z c x l Hc Hi) as (c1 & He & Hc1 & Hi1 & Hm1). unfold st_bind. rewrite He.
    rewrite <- Hm1. apply IH; [done|lia|]. rewrite Hi1. simpl in Hf. lia.
  - eexists. split; [reflexivity|]. split_and!; try done.
Qed.

Lemma evict_spec h z c :
  cache_ok h z c -> 0 <= _max_size c ->
  exists c', _evict c = (Ok tt, c') /\ cache_ok h z c' /\ _max_size c' = _max_size c /\
    cache_len c' <= _max_size c'.
Proof. intros Hc Hm. unfold _evict, st_bind at 1, st_read. apply evict_loop_spec; [done|done|lia]. Qed.
(** ** Changes *)

Lemma forget_spec e old c earliest :
  in_sync (_entity_to_key c) (_cache c) earliest -> _entity_to_key c !! e = Some old ->
  exists d, forget_change e old c = (Ok tt, set_cache (fun _ => d) c) /\
    in_sync (delete e (_entity_to_key c)) d earliest.
Proof.
  intros [Hsync Hpos] He. destruct (proj1 (Hsync e old) He) as (s & Hin & Hes).
  pose proof (proj2 (sd_get_some old s (_cache c)) Hin) as Hget.
  unfold forget_change. rewrite Hget, bool_decide_true by done.
  set (s' := s ∖ {[e]}). set (d1 := sd_set old s' (_cache c)).
  (* what is left, whether the empty set is deleted or not *)
  assert (Hsyn : forall d2, (forall x, x ∈ sd_items d2 <-> x ∈ sd_items d1 /\ (x.1 = old -> s' <> ∅)) ->
    in_sync (delete e (_entity_to_key c)) d2 earliest).
  { intros d2 Hd2. assert (Hitem : forall k t, (k, t) ∈ sd_items d2 <->
      (k = old /\ t = s' /\ s' <> ∅) \/ (k <> old /\ (k, t) ∈ sd_items (_cache c))).
    { intros k t. rewrite Hd2. unfold d1. rewrite sd_in_set. simpl. split.
      - intros [[[= -> ->]|[Hk Hne]] Hs']; [left; auto|by right].
      - intros [(-> & -> & Hs')|[Hne Hk]]; [auto|]. split; [by right|]. done. }
    split.
    - intros e' k. destruct (decide (e = e')) as [<-|Hne].
      + rewrite lookup_delete_eq. split; [done|]. intros (t & Hk & Het). apply Hitem in Hk.
        destruct Hk as [(-> & -> & _)|[Hk Hin']]; [set_solver|].
        assert (Hk2 : _entity_to_key c !! e = Some k) by (apply Hsync; eauto). congruence.
      + rewrite lookup_delete_ne by done. rewrite Hsync. split.
        * intros (t & Hk & Het). destruct (decide (k = old)) as [->|Hko].
          -- assert (t = s) as -> by (by eapply items_unique). exists s'.
             split; [|set_solver]. apply Hitem. left. split_and!; set_solver.
          -- exists t. split; [|done]. apply Hitem. by right.
        * intros (t & Hk & Het). apply Hitem in Hk as [(-> & -> & _)|[_ Hk]].
          -- exists s. split; [done|set_solver].
          -- by exists t.
    - intros k t Hk. apply Hitem in Hk as [(-> & -> & Hs')|[_ Hk]]; [|by eapply Hpos].
      split; [done|]. by eapply Hpos. }
  cbn [set_cache _cache]. fold d1. case_bool_decide as Hemp.
  - destruct (sd_del_some old s' d1) as (d2 & Hdel & Hd2).
    { unfold d1. apply sd_in_set. by left. }
    rewrite Hdel. exists d2. split; [done|]. apply Hsyn. intros x. rewrite Hd2. split.
    + intros [? ?]. by split.
    + intros [? Hx]. split; [done|]. intros Hk. by apply (Hx Hk).
  - exists d1. split; [done|]. apply Hsyn. intros x. naive_solver.
Qed.

Lemma record_in_sync e p c keys d earliest :
  in_sync (delete e keys) d earliest -> earliest < p -> _cache c = d -> _entity_to_key c = keys ->
  in_sync (_entity_to_key (record_change e p c)) (_cache (record_change e p c)) earliest.
Proof.
  intros [Hsync Hpos] Hp <- <-. unfold record_change. set (s := default ∅ (sd_get p (_cache c))).
  cbn [set_keys set_cache _cache _entity_to_key].
  assert (Hs : forall e', e' ∈ s <-> delete e (_entity_to_key c) !! e' = Some p).
  { intros e'. rewrite Hsync. unfold s. destruct (sd_get p (_cache c)) as [t|] eqn:Ht; simpl.
    - apply sd_get_some in Ht. split; [by exists t|]. intros (t' & Hin & He).
      by rewrite (items_unique _ _ _ _ Ht Hin).
    - split; [by intros ?%elem_of_empty|]. intros (t & Hin%sd_get_some & _). congruence. }
  split.
  - intros e' k. setoid_rewrite sd_in_set. simpl. destruct (decide (e = e')) as [<-|Hne].
    + rewrite lookup_insert_eq. split.
      * intros [= <-]. exists (s ∪ {[e]}). split; [by left|set_solver].
      * intros (t & [[= -> ->]|[Hin Hk]] & Het); [done|].
        assert (Hd : delete e (_entity_to_key c) !! e = Some k) by (apply Hsync; eauto).
        by rewrite lookup_delete_eq in Hd.
    + rewrite lookup_insert_ne by done. rewrite <- (lookup_delete_ne _ e e') by done. split.
      * intros He'. destruct (decide (k = p)) as [->|Hk].
        -- exists (s ∪ {[e]}). split; [by left|]. apply elem_of_union_l. by apply Hs.
        -- apply Hsync in He' as (t & Hin & Het). exists t. split; [by right|done].
      * intros (t & [[= -> ->]|[Hin Hk]] & Het).
        -- apply Hs. set_solver.
        -- apply Hsync. by exists t.
  - intros k t [[= -> ->]|[Hin _]]%sd_in_set; [|by eapply Hpos]. split; [set_solver|done].
Qed.

(** What a change does before the eviction. *)
Lemma record_ok h z e p c d :
  cache_ok h z c -> _earliest_known_stream_pos c < p ->
  (forall old, _entity_to_key c !! e = Some old -> old <= p) ->
  in_sync (delete e (_entity_to_key c)) d (_earliest_known_stream_pos c) ->
  cache_ok ((Some e, p) :: h) z (record_change e p (set_cache (fun _ => d) c)).
Proof.
  intros [Hs Hlat Hkn Hall] Hp Hold Hd. split.
  - by eapply record_in_sync.
  - intros e' k. cbn [record_change set_keys set_cache _entity_to_key].
    destruct (decide (e = e')) as [<-|Hne].
    + rewrite lookup_insert_eq. intros [= <-]. split; [by left|].
      intros q [[= ->]|Hq]%elem_of_cons; [lia|].
      destruct (decide (q <= _earliest_known_stream_pos c)); [lia|].
      destruct (decide (q <= z)); [lia|].
      destruct (Hkn e q Hq ltac:(lia) ltac:(lia)) as [k Hk]. specialize (Hold k Hk).
      apply Hlat in Hk as [_ Hle]. specialize (Hle q Hq). lia.
    + rewrite lookup_insert_ne by done. intros [Hk Hle]%Hlat. split; [by right|].
      intros q [[= ? _]|Hq]%elem_of_cons; [congruence|auto].
  - intros e' q. cbn [record_change set_keys set_cache _entity_to_key _earliest_known_stream_pos].
    destruct (decide (e = e')) as [<-|Hne]; [rewrite lookup_insert_eq; eauto|].
    rewrite lookup_insert_ne by done. intros [[= ? _]|Hq]%elem_of_cons; [congruence|eauto].
  - intros q [?|Hq]%elem_of_cons; [done|]. by apply Hall.
Qed.

(** A change that the cache need not record. *)
Lemma skip_ok h z e p c :
  cache_ok h z c ->
  p <= _earliest_known_stream_pos c \/ (exists old, _entity_to_key c !! e = Some old /\ p <= old) ->
  cache_ok ((Some e, p) :: h) z c.
Proof.
  intros [Hs Hlat Hkn Hall] Hp. split; [done| | |].
  - intros e' k Hk. pose proof (proj2 Hs) as Hpos. destruct (Hlat e' k Hk) as [Hin Hle].
    split; [by right|]. intros q [[= <- <-]|Hq]%elem_of_cons; [|auto].
    destruct Hp as [Hp|(old & Ho & Hp)]; [|simplify_eq; lia].
    apply (proj1 Hs) in Hk as (s & Hin' & _). apply Hpos in Hin' as [_ ?]. lia.
  - intros e' q [[= <- <-]|Hq]%elem_of_cons Hlt Hz; [|eauto].
    destruct Hp as [Hp|(old & Ho & Hp)]; [lia|eauto].
  - intros q [?|Hq]%elem_of_cons; [done|]. by apply Hall.
Qed.

Lemma entity_has_changed_spec h z e p c :
  cache_ok h z c -> 0 <= _max_size c -> cache_len c <= _max_size c ->
  exists c', entity_has_changed e p c = (Ok tt, c') /\ cache_ok ((Some e, p) :: h) z c' /\
    _max_size c' = _max_size c /\ cache_len c' <= _max_size c'.
Proof.
  intros Hc Hm Hlen. unfold entity_has_changed, st_bind at 1, st_read at 1.
  destruct (Z.leb_spec p (_earliest_known_stream_pos c)) as [Hle|Hgt].
  { exists c. split_and!; try done. apply skip_ok; auto. }
  unfold st_bind at 1, st_read. destruct (_entity_to_key c !! e) as [old|] eqn:He.
  - destruct (Z.leb_spec p old) as [Hle|Hlt].
    { exists c. split_and!; try done. apply skip_ok; eauto. }
    destruct (forget_spec e old c _ (co_sync _ _ _ Hc) He) as (d & Hf & Hd).
    unfold st_bind at 1. rewrite Hf. unfold st_bind, st_modify.
    destruct (evict_spec ((Some e, p) :: h) z (record_change e p (set_cache (fun _ => d) c)))
      as (c' & Hev & Hok & Hm' & Hlen'); [|done|by exists c'].
    apply record_ok; try done. intros o Ho. simplify_eq. lia.
  - unfold st_bind, st_modify.
    assert (Hself : set_cache (fun _ => _cache c) c = c) by (by destruct c).
    destruct (evict_spec ((Some e, p) :: h) z (record_change e p c))
      as (c' & Hev & Hok & Hm' & Hlen'); [|done|by exists c'].
    rewrite <- Hself. apply record_ok; try done; [intros o Ho; congruence|].
    rewrite delete_id by done. apply Hc.
Qed.

Lemma all_entities_changed_spec h p c :
  0 <= _max_size c ->
  exists c', all_entities_changed p c = (Ok tt, c') /\ cache_ok ((None, p) :: h) (newest p h) c' /\
    _max_size c' = _max_size c /\ cache_len c' <= _max_size c'.
Proof.
  intros Hm. destruct (newest_le p h) as [Hp Hall]. eexists. split; [reflexivity|]. split_and!; [|done|].
  - split; cbn.
    + split.
      * intros e k. rewrite lookup_empty. split; [done|]. intros (s & Hin & _).
        rewrite sd_items_empty in Hin. by apply elem_of_nil in Hin.
      * intros k s Hin. rewrite sd_items_empty in Hin. by apply elem_of_nil in Hin.
    + intros e k. by rewrite lookup_empty.
    + intros e q [[=]|Hq%Hall]%elem_of_cons Hlt Hz. simpl in Hq. lia.
    + intros q [[= ->]|Hq%Hall]%elem_of_cons; [lia|]. done.
  - unfold cache_len. cbn. rewrite sd_items_empty. simpl. lia.
Qed.

Lemma set_cache_factor_spec h z n c :
  cache_ok h z c -> 0 <= n -> cache_len c <= _max_size c ->
  exists b c', set_cache_factor n c = (Ok b, c') /\ cache_ok h z c' /\ _max_size c' = n /\
    cache_len c' <= _max_size c'.
Proof.
  intros Hc Hn Hlen. unfold set_cache_factor, st_bind at 1, st_read.
  destruct (Z.eqb_spec n (_max_size c)) as [->|Hne]; [by exists false, c|].
  unfold st_bind at 1, st_modify. destruct (evict_spec h z (set_max_size n c)) as (c' & He & Hok & Hm & Hl).
  { destruct Hc. by split. }
  { done. }
  exists true, c'. unfold st_bind. rewrite He. by split_and!.
Qed.
(** ** Histories *)

(** A cache, the history of its stream, and the position up to which the cache may have lost
    changes.  It starts at a position no earlier than the changes before it.  From then on it
    is told of any change at any position, and of all entities at any position: the code
    empties the cache and takes that position for the earliest it knows, even when changes
    after it were recorded, so that these are lost. *)
Inductive cache_run : history -> Z -> StreamChangeCache -> Prop :=
  | RunStart h pos max_size c :
      (forall x, x ∈ h -> x.2 <= pos) -> 0 <= max_size ->
      new_cache pos max_size [] = (Ok tt, c) -> cache_run h pos c
  | RunChanged h z c e p : cache_run h z c ->
      cache_run ((Some e, p) :: h) z (snd (entity_has_changed e p c))
  | RunAllChanged h z c p : cache_run h z c ->
      cache_run ((None, p) :: h) (newest p h) (snd (all_entities_changed p c))
  | RunResize h z c n : cache_run h z c -> 0 <= n -> cache_run h z (snd (set_cache_factor n c)).

Lemma run_ok h z c :
  cache_run h z c -> cache_ok h z c /\ 0 <= _max_size c /\ cache_len c <= _max_size c.
Proof.
  induction 1 as [h pos m c Hh Hm [= <-]|h z c e p _ (Hc & Hm & Hl)|h z c p _ (Hc & Hm & Hl)|
                  h z c n _ (Hc & Hm & Hl) Hn].
  - split_and!; [|done|unfold cache_len; cbn; by rewrite sd_items_empty].
    split; cbn; [split| | |].
    + intros e k. rewrite lookup_empty, sd_items_empty. split; [done|].
      by intros (s & ?%elem_of_nil & _).
    + intros k s. by rewrite sd_items_empty, elem_of_nil.
    + intros e k. by rewrite lookup_empty.
    + intros e q Hq%Hh Hlt _. simpl in Hq. lia.
    + intros q Hq%Hh. done.
  - destruct (entity_has_changed_spec h z e p c Hc Hm Hl) as (c' & -> & ? & Hm' & ?).
    simpl. split_and!; [done|lia|done].
  - destruct (all_entities_changed_spec h p c Hm) as (c' & -> & ? & Hm' & ?).
    simpl. split_and!; [done|lia|done].
  - destruct (set_cache_factor_spec h z n c Hc Hn Hl) as (b & c' & -> & ? & Hm' & ?).
    simpl. split_and!; [done|lia|done].
Qed.

(** What the dictionary of entities says of the history, at a position the cache knows. *)
Lemma key_changed_after h z c e p k :
  cache_ok h z c -> _entity_to_key c !! e = Some k -> p < k -> changed_after h e p.
Proof. intros [_ Hlat _ _] [Hk _]%Hlat Hlt. exists k. auto. Qed.

Lemma changed_after_key h z c e p :
  cache_ok h z c -> _earliest_known_stream_pos c <= p -> z <= p ->
  changed_after h e p <-> exists k, _entity_to_key c !! e = Some k /\ p < k.
Proof.
  intros Hc Hp Hz. split; [|intros (k & Hk & Hlt); by eapply key_changed_after].
  destruct Hc as [_ Hlat Hkn Hall].
  intros (q & [Hq|Hq%Hall] & Hlt); [|lia]. destruct (Hkn e q Hq ltac:(lia) ltac:(lia)) as [k Hk].
  exists k. split; [done|]. apply Hlat in Hk as [_ Hle]. specialize (Hle q Hq). lia.
Qed.

(** ** Queries *)

Lemma has_entity_changed_spec h z c e p :
  cache_ok h z c -> p < _earliest_known_stream_pos c \/ z <= p ->
  has_entity_changed e p c = true <->
  p < _earliest_known_stream_pos c \/ changed_after h e p.
Proof.
  intros Hc Hz. unfold has_entity_changed.
  destruct (Z.ltb_spec p (_earliest_known_stream_pos c)) as [Hlt|Hge]; [naive_solver|].
  rewrite (changed_after_key h z c) by (done || lia). destruct (_entity_to_key c !! e) as [k|] eqn:He.
  - destruct (Z.ltb_spec p k).
    + split; [|done]. intros _. right. by exists k.
    + split; [done|]. intros [?|(k' & [= <-] & ?)]; lia.
  - split; [done|]. intros [?|(k' & ? & _)]; [lia|done].
Qed.

(** The largest key of the cache. *)
Lemma peekitem_max {V} (d : SortedDict V) :
  sd_items d <> [] ->
  exists x, sd_peekitem d = Ok x /\ x ∈ sd_items d /\ forall y, y ∈ sd_items d -> y.1 <= x.1.
Proof.
  intros Hne. destruct (exists_last Hne) as (l & x & Hl). exists x.
  split; [by eapply sd_peekitem_last|]. pose proof (sd_sorted d) as Hs. rewrite Hl in *.
  split; [apply elem_of_app; right; by left|]. clear Hl Hne.
  rewrite List.map_app in Hs. intros y [Hy|Hy]%elem_of_app.
  - induction l as [|z l IH]; [by apply elem_of_nil in Hy|]. simpl in Hs.
    apply StronglySorted_inv in Hs as [Hs Hall]. apply elem_of_cons in Hy as [->|Hy]; [|auto].
    rewrite Forall_forall in Hall. specialize (Hall x.1). rewrite elem_of_app in Hall.
    assert (z.1 < x.1) by (apply Hall; right; by left). lia.
  - apply list_elem_of_singleton in Hy as ->. done.
Qed.

Lemma key_in_items h z c e k :
  cache_ok h z c -> _entity_to_key c !! e = Some k -> exists s, (k, s) ∈ sd_items (_cache c) /\ e ∈ s.
Proof. intros [[Hs _] _ _ _]. apply Hs. Qed.

Lemma has_any_spec h z c p :
  cache_ok h z c -> p < _earliest_known_stream_pos c \/ z <= p ->
  exists b, has_any_entity_changed p c = Ok b /\
    (b = true <-> p < _earliest_known_stream_pos c \/ exists e, changed_after h e p).
Proof.
  intros Hc Hz. unfold has_any_entity_changed.
  destruct (Z.ltb_spec p (_earliest_known_stream_pos c)) as [Hlt|Hge]; [exists true; naive_solver|].
  assert (Hany : (exists e, changed_after h e p) <-> exists x, x ∈ sd_items (_cache c) /\ p < x.1).
  { split.
    - intros (e & He). rewrite (changed_after_key h z c) in He by (done || lia). destruct He as (k & Hk & Hlt).
      destruct (key_in_items h z c e k Hc Hk) as (s & Hin & _). by exists (k, s).
    - intros ([k s] & Hin & Hlt). destruct (co_sync _ _ _ Hc) as [Hsync Hpos].
      destruct (Hpos k s Hin) as [Hne _]. apply set_choose_L in Hne as [e He]. exists e.
      eapply key_changed_after; [done| |done]. apply Hsync. by exists s. }
  destruct (sd_items (_cache c)) as [|x l] eqn:Hi.
  - exists false. split; [done|]. rewrite Hany. split; [done|].
    intros [?|(x & ?%elem_of_nil & _)]; [lia|done].
  - destruct (peekitem_max (_cache c)) as (y & Hy & Hin & Hmax); [by rewrite Hi|].
    rewrite Hy. exists (p <? y.1). split; [done|]. rewrite Hany, Z.ltb_lt. split.
    + intros Hlt. right. exists y. by rewrite <- Hi.
    + intros [?|(w & Hw & Hlt)]; [lia|]. rewrite <- Hi in Hw. specialize (Hmax w Hw). lia.
Qed.

(** The keys above a position, and the sets under them. *)
Lemma keys_above {V} p (d : SortedDict V) :
  sd_islice (sd_bisect_right p d) d = List.filter (fun k => p <? k) (map fst (sd_items d)).
Proof.
  rewrite sd_islice_spec, sd_bisect_right_spec. pose proof (sd_sorted d) as Hs.
  induction (map fst (sd_items d)) as [|k l IH]; [done|]. apply StronglySorted_inv in Hs as [Hs Hall].
  cbn [List.filter]. destruct (Z.leb_spec k p) as [Hle|Hgt].
  - simpl. rewrite IH by done. destruct (Z.ltb_spec p k); [lia|done].
  - assert (Hn : List.filter (fun i => i <=? p) l = []).
    { clear -Hall Hgt. induction Hall as [|x l Hx Hall IH]; [done|]. simpl.
      destruct (Z.leb_spec x p); [lia|done]. }
    rewrite Hn. simpl. destruct (Z.ltb_spec p k); [|lia]. f_equal.
    clear -Hall Hgt. induction Hall as [|x l Hx Hall IH]; [done|]. simpl.
    destruct (Z.ltb_spec p x); [|lia]. by f_equal.
Qed.

(** The position under which an entity stands is at most that of another. *)
Definition no_later (c : StreamChangeCache) (a b : string) : Prop :=
  forall ka kb, _entity_to_key c !! a = Some ka -> _entity_to_key c !! b = Some kb -> ka <= kb.

Lemma gather_spec h z c keys acc :
  cache_ok h z c -> (forall k, k ∈ keys -> exists s, (k, s) ∈ sd_items (_cache c)) ->
  StronglySorted Z.lt keys ->
  StronglySorted (no_later c) acc -> NoDup acc ->
  (forall e, e ∈ acc -> exists k, _entity_to_key c !! e = Some k /\ forall k', k' ∈ keys -> k < k') ->
  exists l, rfold (fun l k => match sd_get k (_cache c) with
                              | Some s => Ok (l ++ set_iter (elements s))
                              | None => Err KeyError
                              end) acc keys = Ok l /\
    StronglySorted (no_later c) l /\ NoDup l /\
    forall e, e ∈ l <-> e ∈ acc \/ exists k, k ∈ keys /\ _entity_to_key c !! e = Some k.
Proof.
  intros Hc. revert acc. induction keys as [|k keys IH]; intros acc Hkeys Hs Hsort Hnd Hacc.
  { exists acc. split_and!; try done. intros e. split; [by left|]. by intros [?|(? & ?%elem_of_nil & _)]. }
  apply StronglySorted_inv in Hs as [Hs Hk]. rewrite Forall_forall in Hk.
  destruct (Hkeys k) as [s Hin]; [by left|]. cbn [rfold].
  rewrite (proj2 (sd_get_some _ _ _) Hin). cbn [rbind]. set (new := set_iter (elements s)).
  assert (Hnew : forall e, e ∈ new <-> _entity_to_key c !! e = Some k).
  { intros e. unfold new. rewrite set_iter_perm, elem_of_elements, (proj1 (co_sync _ _ _ Hc)).
    split; [by exists s|]. intros (t & Ht & He). by rewrite (items_unique _ _ _ _ Hin Ht). }
  destruct (IH (acc ++ new)) as (l & Hl & Hsl & Hndl & Hinl).
  - intros k' Hk'. apply Hkeys. by right.
  - done.
  - apply sorted_app; [done| |].
    + assert (Hall : forall e, e ∈ new -> _entity_to_key c !! e = Some k) by (intros; by apply Hnew).
      clear -Hall. induction new as [|e l IH]; constructor.
      * apply IH. intros e' He'. apply Hall. by right.
      * apply Forall_forall. intros e' He' ka kb Ha Hb.
        rewrite (Hall e) in Ha by (by left). rewrite (Hall e') in Hb by (by right). simplify_eq. lia.
    + intros a b Ha Hb ka kb Hka Hkb. apply Hnew in Hb. destruct (Hacc a Ha) as (k' & Hk' & Hlt).
      specialize (Hlt k ltac:(by left)). simplify_eq. lia.
  - apply NoDup_app. split_and!; [done| |].
    + intros e He Hn%Hnew. destruct (Hacc e He) as (k' & Hk' & Hlt).
      specialize (Hlt k ltac:(by left)). simplify_eq. lia.
    + unfold new. rewrite set_iter_perm. apply NoDup_elements.
  - intros e [He|He%Hnew]%elem_of_app.
    + destruct (Hacc e He) as (k' & Hk' & Hlt). exists k'. split; [done|]. intros k'' Hk''.
      apply Hlt. by right.
    + exists k. split; [done|]. apply Hk.
  - exists l. split_and!; try done. intros e. rewrite Hinl, elem_of_app, Hnew.
    setoid_rewrite elem_of_cons. naive_solver.
Qed.

Lemma get_all_spec h z c p :
  cache_ok h z c -> _earliest_known_stream_pos c <= p ->
  exists l, get_all_entities_changed p c = Ok (Some l) /\ NoDup l /\
    StronglySorted (no_later c) l /\
    forall e, e ∈ l <-> exists k, _entity_to_key c !! e = Some k /\ p < k.
Proof.
  intros Hc Hp. unfold get_all_entities_changed.
  destruct (Z.ltb_spec p (_earliest_known_stream_pos c)); [lia|]. rewrite keys_above.
  set (keys := List.filter _ _).
  assert (Hkeys : forall k, k ∈ keys <-> (exists s, (k, s) ∈ sd_items (_cache c)) /\ p < k).
  { intros k. unfold keys. rewrite in_filter_b, in_map_b, Z.ltb_lt. split.
    - intros [([k' s] & -> & Hin) Hlt]. split; [by exists s|done].
    - intros [[s Hin] Hlt]. split; [by exists (k, s)|done]. }
  assert (Hsorted : StronglySorted Z.lt keys).
  { apply sorted_filter, sd_sorted. }
  destruct (gather_spec h z c keys [] Hc) as (l & Hl & Hsl & Hnd & Hin); try done.
  - intros k [Hk _]%Hkeys. done.
  - constructor.
  - apply NoDup_nil_2.
  - by intros e ?%elem_of_nil.
  - rewrite Hl. exists l. split_and!; try done. intros e. rewrite Hin. split.
    + intros [?%elem_of_nil|(k & [_ Hlt]%Hkeys & Hk)]; [done|by exists k].
    + intros (k & Hk & Hlt). right. exists k. split; [|done]. apply Hkeys. split; [|done].
      destruct (key_in_items h z c e k Hc Hk) as (s & ? & _). by exists s.
Qed.
Lemma get_entities_spec h z c es is_set f p :
  cache_ok h z c ->
  exists s, get_entities_changed es is_set p f c = Ok s /\ (forall e, e ∈ s -> e ∈ es) /\
    (p < _earliest_known_stream_pos c \/ z <= p ->
     forall e, e ∈ es -> changed_after h e p -> e ∈ s) /\
    (_earliest_known_stream_pos c <= p -> -1 <= p -> sd_items (_cache c) <> [] ->
     forall e, e ∈ s -> changed_after h e p).
Proof.
  intros Hc. unfold get_entities_changed.
  assert (Hset : forall e, e ∈@{gset string} list_to_set es <-> e ∈ es) by (intros; apply elem_of_list_to_set).
  destruct (sd_items (_cache c)) as [|x items] eqn:Hi.
  { exists (list_to_set es). split_and!; naive_solver. }
  destruct (Z.ltb_spec p (_earliest_known_stream_pos c)) as [Hlt|Hge].
  { exists (list_to_set es). split_and!; try naive_solver. lia. }
  destruct (peekitem_max (_cache c)) as (y & -> & _ & _); [by rewrite Hi|]. cbn [rbind].
  destruct (_ <? y.1 - p).
  - eexists. split; [reflexivity|].
    assert (Hin : forall e, e ∈@{gset string} list_to_set (List.filter (fun entity =>
        p <? default (-1) (_entity_to_key c !! entity)) es) <->
      e ∈ es /\ p < default (-1) (_entity_to_key c !! e)).
    { intros e. by rewrite elem_of_list_to_set, in_filter_b, Z.ltb_lt. }
    split_and!.
    + intros e He%Hin. apply He.
    + intros Hz e He Hch. apply Hin. split; [done|].
      rewrite (changed_after_key h z c) in Hch by (done || lia). by destruct Hch as (k & -> & ?).
    + intros _ Hneg _ e [_ He]%Hin.
      destruct (_entity_to_key c !! e) as [k|] eqn:Hk; simpl in He; [by eapply key_changed_after|lia].
  - destruct (get_all_spec h z c p Hc Hge) as (l & -> & _ & _ & Hl). cbn [rbind].
    assert (Hin : forall e, e ∈@{gset string} list_to_set es ∩ list_to_set l <->
      e ∈ es /\ exists k, _entity_to_key c !! e = Some k /\ p < k).
    { intros e. by rewrite elem_of_intersection, !elem_of_list_to_set, Hl. }
    assert (Hcomm : (list_to_set l ∩ list_to_set es : gset string) = list_to_set es ∩ list_to_set l)
      by apply intersection_comm_L.
    exists (list_to_set es ∩ list_to_set l). split.
    { rewrite Hcomm. destruct is_set; [done|].
      match goal with |- (if ?b then _ else _) = _ => by destruct b end. }
    split_and!.
    + by intros e [? _]%Hin.
    + intros Hz e He Hch. apply Hin. split; [done|]. by apply (changed_after_key h z c); (done || lia).
    + intros _ _ _ e [_ (k & Hk & Hlt)]%Hin. by eapply key_changed_after.
Qed.

(** ** Changes told in order *)

(** The earliest known position only grows, but for [all_entities_changed]. *)
Lemma evict_loop_grows fuel c :
  _earliest_known_stream_pos c <= _earliest_known_stream_pos (snd (evict_loop fuel c)).
Proof.
  revert c. induction fuel as [|fuel IH]; intros c; [simpl; lia|]. cbn [evict_loop].
  unfold st_bind at 1, st_read. destruct (_max_size c <? cache_len c); [|simpl; lia].
  unfold st_bind, evict_one. destruct (sd_popitem_first (_cache c)) as [[[k r] d]|e]; [|simpl; lia].
  etransitivity; [|apply IH]. cbn. lia.
Qed.

Lemma entity_has_changed_grows e p c :
  _earliest_known_stream_pos c <= _earliest_known_stream_pos (snd (entity_has_changed e p c)).
Proof.
  unfold entity_has_changed, _evict, st_bind at 1, st_read at 1.
  destruct (p <=? _); [simpl; lia|]. unfold st_bind at 1, st_read at 1.
  assert (Hrec : forall c0, _earliest_known_stream_pos c0 = _earliest_known_stream_pos c ->
    _earliest_known_stream_pos c <= _earliest_known_stream_pos (snd ((st_modify (record_change e p) ;;!
      let! n := st_read (fun c => List.length (sd_items (_cache c))) in evict_loop (S n)) c0))).
  { intros c0 <-. unfold st_bind, st_modify, st_read. etransitivity; [|apply evict_loop_grows]. simpl. lia. }
  destruct (_entity_to_key c !! e) as [old|]; [|by apply Hrec].
  destruct (p <=? old); [simpl; lia|].
  assert (Hf : forall r c0, forget_change e old c = (r, c0) ->
    _earliest_known_stream_pos c0 = _earliest_known_stream_pos c).
  { intros r c0. unfold forget_change. destruct (sd_get old (_cache c)); [|by intros [= _ <-]].
    repeat case_bool_decide; [|by intros [= _ <-]..]. destruct (sd_del _ _); by intros [= _ <-]. }
  unfold st_bind at 1. destruct (forget_change e old c) as [[[]|x] c0] eqn:E; specialize (Hf _ _ eq_refl).
  - by apply Hrec.
  - simpl. lia.
Qed.

(** Every moment at which all entities were marked as changed is at a position no earlier than
    the changes before it. *)
Fixpoint told_in_order (h : history) : Prop :=
  match h with
  | [] => True
  | (None, p) :: h => (forall x, x ∈ h -> x.2 <= p) /\ told_in_order h
  | (Some _, _) :: h => told_in_order h
  end.

Lemma in_order_known h z c :
  cache_run h z c -> told_in_order h -> z <= get_earliest_known_position c.
Proof.
  unfold get_earliest_known_position.
  induction 1 as [h pos m c Hh Hm [= <-]|h z c e p _ IH|h z c p _ _|h z c n _ IH Hn]; cbn [told_in_order].
  - intros _. simpl. lia.
  - intros Ho%IH. pose proof (entity_has_changed_grows e p c). lia.
  - intros [Hp _]. rewrite newest_in_order by done. simpl. lia.
  - intros Ho%IH. unfold set_cache_factor, _evict, st_bind at 1, st_read at 1.
    destruct (n =? _max_size c); [simpl; lia|]. unfold st_bind, st_modify, st_read.
    pose proof (evict_loop_grows (S (List.length (sd_items (_cache (set_max_size n c))))) (set_max_size n c)).
    destruct (evict_loop _ (set_max_size n c)) as [[[]|x] c']; simpl in *; lia.
Qed.


(** Asked for all entities that changed after a position, the cache misses when the position
    is too old, and otherwise, from the newest position on that there was when all entities
    were last marked as changed, lists exactly those that did, each once, in the order of their
    last changes. *)
Theorem get_all_entities_changed_spec h z c p :
  cache_run h z c -> p < get_earliest_known_position c \/ z <= p ->
  if p <? get_earliest_known_position c then get_all_entities_changed p c = Ok None
  else exists l, get_all_entities_changed p c = Ok (Some l) /\ NoDup l /\
    (forall e, e ∈ l <-> changed_after h e p) /\
    StronglySorted (fun a b => forall ka kb, get_max_pos_of_last_change a c = Some ka ->
      get_max_pos_of_last_change b c = Some kb -> ka <= kb) l.
Proof.
  intros (Hc & _ & _)%run_ok Hz. destruct (Z.ltb_spec p (get_earliest_known_position c)) as [Hlt|Hge].
  - unfold get_all_entities_changed, get_earliest_known_position in *.
    destruct (Z.ltb_spec p (_earliest_known_stream_pos c)); [done|lia].
  - destruct (get_all_spec h z c p Hc Hge) as (l & ? & ? & ? & Hl). exists l. split_and!; try done.
    intros e. rewrite Hl. symmetry. unfold get_earliest_known_position in *.
    apply (changed_after_key h z c); [done..|lia].
Qed.

(** No change and no resizing raises; the cache never holds more positions than its size;
    and the position it has of an entity is that of the entity's last change, but for changes
    lost when all entities were marked as changed. *)
Theorem change_cache_bounded h z c :
  cache_run h z c ->
  cache_len c <= _max_size c /\
  (forall e p, fst (entity_has_changed e p c) = Ok tt) /\
  (forall n, 0 <= n -> exists b, fst (set_cache_factor n c) = Ok b) /\
  (forall e k, get_max_pos_of_last_change e c = Some k ->
     (Some e, k) ∈ h /\ forall q, (Some e, q) ∈ h -> q <= k \/ q <= z).
Proof.
  intros (Hc & Hm & Hl)%run_ok. split_and!; [done| | |].
  - intros e p. by destruct (entity_has_changed_spec h z e p c Hc Hm Hl) as (c' & -> & _).
  - intros n Hn. destruct (set_cache_factor_spec h z n c Hc Hn Hl) as (b & c' & -> & _). by exists b.
  - intros e k. apply (co_latest _ _ _ Hc).
Qed.
End cache.

(** ** A small cache *)

(** [SortedDict] as a finite map whose items are sorted. *)
Definition sorted_items {V} (m : gmap Z V) : list (Z * V) := sorted_by fst (map_to_list m).

#[local] Instance map_dicts : SortedDicts := {|
  SortedDict V := gmap Z V;
  sd_items _ := sorted_items;
  sd_empty _ := ∅;
  sd_get _ k m := m !! k;
  sd_set _ k v m := <[k := v]> m;
  sd_del _ k m := if m !! k then Ok (delete k m) else Err KeyError;
  sd_peekitem _ m := match last (sorted_items m) with Some x => Ok x | None => Err IndexError end;
  sd_popitem_first _ m :=
    match sorted_items m with x :: _ => Ok (x, delete x.1 m) | [] => Err KeyError end;
  sd_bisect_right _ k m := List.length (List.filter (fun i => i <=? k) (map fst (sorted_items m)));
  sd_islice _ n m := drop n (map fst (sorted_items m))
|}.

Lemma in_sorted_items {V} (m : gmap Z V) k v : (k, v) ∈ sorted_items m <-> m !! k = Some v.
Proof. unfold sorted_items. by rewrite sorted_by_perm, elem_of_map_to_list. Qed.

Lemma sorted_items_nodup {V} (m : gmap Z V) : NoDup (map fst (sorted_items m)).
Proof. unfold sorted_items. rewrite sorted_by_perm. apply NoDup_fst_map_to_list. Qed.

Lemma sorted_keys {V} (l : list (Z * V)) :
  StronglySorted (le_by fst) l -> NoDup (map fst l) -> StronglySorted Z.lt (map fst l).
Proof.
  induction 1 as [|x l Hs IH Hall]; simpl; [constructor|]. intros [Hn Hnd]%NoDup_cons.
  constructor; [auto|]. apply Forall_forall. intros k (y & -> & Hy)%in_map_b.
  pose proof (proj1 (Forall_forall _ _) Hall y Hy) as Hxy. unfold le_by in Hxy. cbn in Hxy.
  apply Z.leb_le in Hxy.
  assert (x.1 <> y.1); [|lia]. intros He. apply Hn. rewrite He. apply in_map_b. eauto.
Qed.

Lemma sorted_items_tail {V} (m : gmap Z V) x l :
  sorted_items m = x :: l -> sorted_items (delete x.1 m) = l.
Proof.
  intros Hi. pose proof (sorted_items_nodup m) as Hnd. rewrite Hi in Hnd. simpl in Hnd.
  apply NoDup_cons in Hnd as [Hn Hnd].
  pose proof (sorted_by_sorted fst (map_to_list m)) as Hs. fold (sorted_items m) in Hs. rewrite Hi in Hs.
  apply StronglySorted_inv in Hs as [Hs _]. symmetry. apply (sorted_unique fst); try done.
  - apply NoDup_Permutation.
    + by eapply NoDup_fmap_1.
    + eapply NoDup_fmap_1, sorted_items_nodup.
    + intros [k v]. rewrite in_sorted_items, lookup_delete_Some, <- in_sorted_items, Hi.
      rewrite elem_of_cons. split.
      * intros Hin. split; [|by right]. intros He. apply Hn. apply in_map_b. exists (k, v). by split.
      * intros [Hne [<-|Hin]]; done.
  - apply sorted_by_sorted.
Qed.

#[local] Instance map_dicts_laws : SortedDictsLaws.
Proof.
  split; cbn.
  - intros V d. apply sorted_keys; [apply sorted_by_sorted|apply sorted_items_nodup].
  - done.
  - intros V k v d. by rewrite in_sorted_items.
  - intros V k v d [k' v']. rewrite !in_sorted_items, lookup_insert_Some. simpl. naive_solver.
  - intros V k v d Hin%in_sorted_items. rewrite Hin. eexists. split; [done|]. intros [k' v'].
    rewrite !in_sorted_items, lookup_delete_Some. simpl. naive_solver.
  - intros V d l x Hi. by rewrite Hi, last_snoc.
  - intros V d x l Hi. rewrite Hi. eexists. split; [done|]. by apply sorted_items_tail.
  - done.
  - done.
Qed.

#[local] Instance in_order : SetOrder := {| set_iter := fun _ l => l; set_iter_perm := fun _ l => reflexivity l |}.

(** Room "x" changes at 11 and 13, room "y" at 12; the cache holds two positions. *)
Definition sample_history : history := [(Some "x", 13); (Some "y", 12); (Some "x", 11)].
Definition sample_start : StreamChangeCache := snd (new_cache 10 2 []).
Definition sample_cache : StreamChangeCache :=
  snd (entity_has_changed "x" 13 (snd (entity_has_changed "y" 12
    (snd (entity_has_changed "x" 11 sample_start))))).

Lemma sample_run : cache_run sample_history 10 sample_cache.
Proof.
  apply RunChanged, RunChanged, RunChanged, (RunStart [] 10 2); [by intros x ?%elem_of_nil|done|].
  reflexivity.
Qed.

Example sample_answers :
  get_all_entities_changed 10 sample_cache = Ok (Some ["y"; "x"]) /\
  get_all_entities_changed 9 sample_cache = Ok None /\
  has_entity_changed "y" 12 sample_cache = false /\ has_entity_changed "z" 11 sample_cache = false /\
  get_earliest_known_position (snd (entity_has_changed "z" 14 sample_cache)) = 12.
Proof. vm_compute. done. Qed.

(** An entity the cache has not heard of is not among those it reports. *)
Example unknown_entities :
  elements <$> match get_entities_changed ["z"] false 11 1 sample_cache with Ok s => Some s | Err _ => None end
  = Some [].
Proof. vm_compute. done. Qed.

(** Marking all entities as changed at a position before a change already recorded loses the
    change: room "x" changed at 13, and the cache denies it. *)
Example late_all_changed :
  has_entity_changed "x" 12 sample_cache = true /\
  has_entity_changed "x" 12 (snd (all_entities_changed 11 sample_cache)) = false.
Proof. vm_compute. done. Qed.

(** Marked at 14 afterwards, it answers again as the history does, also of positions before. *)
Lemma sample_marked_run :
  cache_run ((None, 14) :: sample_history) 14 (snd (all_entities_changed 14 sample_cache)).
Proof. exact (RunAllChanged _ _ _ 14 sample_run). Qed.

(** Marked at 11, it answers of the positions from 13 on. *)
Definition late_cache : StreamChangeCache :=
  snd (entity_has_changed "y" 15 (snd (all_entities_changed 11 sample_cache))).

Lemma late_run : cache_run ((Some "y", 15) :: (None, 11) :: sample_history) 13 late_cache.
Proof. apply RunChanged. exact (RunAllChanged _ _ _ 11 sample_run). Qed.


Lemma get_all_entities_changed_spec_witness :
  exists l, get_all_entities_changed 11 sample_cache = Ok (Some l) /\ NoDup l /\
    (forall e, e ∈ l <-> changed_after sample_history e 11) /\
    StronglySorted (fun a b => forall ka kb, get_max_pos_of_last_change a sample_cache = Some ka ->
      get_max_pos_of_last_change b sample_cache = Some kb -> ka <= kb) l.
Proof. apply (get_all_entities_changed_spec sample_history 10 sample_cache 11 sample_run). right. lia. Defined.

Lemma change_cache_bounded_witness :
  cache_len sample_cache <= 2 /\ fst (entity_has_changed "z" 14 sample_cache) = Ok tt.
Proof.
  destruct (change_cache_bounded sample_history 10 sample_cache sample_run) as (Hl & Hc & _).
  split; [exact Hl|apply Hc].
Defined.
