(* ===== verification/PresenceEvents.v ===== *)
(** * PresenceEvents: the presence a client is sent (handlers/presence.py,
    storage/databases/main/roommember.py, storage/databases/main/presence.py)

    [PresenceEventSource] gives a syncing client the states that changed since its token, of
    the users it may see: it asks the stream change cache who changed, and the presence
    handler for the states.  The cache, the newest token and the content of the table
    [users_to_send_full_presence_to] are arguments. *)
From S2P Require Import Prelude PyVal PySort PyState Identifiers PresenceState PresenceQueue.
From S2P Require Import PresenceHandler PresenceSafety PresenceSaved PresenceJoins.
From S2P Require Import StreamChangeCache.
From Stdlib Require Import String.
Open Scope string_scope.
Open Scope list_scope.
Open Scope Z_scope.
Open Scope py_scope.
Open Scope st_scope.

Section events.
Context `{PresenceEnv, SetOrder, SortedDicts}.

(** ** Who shares a room *)

(** The SQL joins the rooms of the one with those of the others. *)
Definition do_users_share_a_room (user_id : string) (other_user_ids : list string) : gset string :=
  list_to_set (List.filter (is_visible user_id) other_user_ids).

Definition get_users_who_share_room_with_user (user_id : string) : gset string :=
  fold_left (fun s room_id => s ∪ list_to_set (get_users_in_room room_id)) (get_rooms_for_user user_id) ∅.

(** ** The source *)

Section source.
Context (full_presence_token : string -> option Z) (presence_stream_cache : StreamChangeCache)
  (max_token : Z).

Definition should_user_receive_full_presence_with_token (user_id : string) (from_token : Z) : bool :=
  match full_presence_token user_id with
  | None => false
  | Some token => from_token <=? token
  end.

Definition _filter_offline_presence_state (presence_updates : list UserPresenceState)
    : list UserPresenceState :=
  List.filter (fun s => negb (bool_decide (state s = PresenceState.OFFLINE))) presence_updates.

(** The rows of the table, in whatever order they were written. *)
Definition get_presence_for_all_users (include_offline : bool) (h : PresenceHandler)
    : list UserPresenceState :=
  let rows := set_iter (map snd (map_to_list (presence_table h))) in
  if include_offline then rows else _filter_offline_presence_state rows.

(** A token of zero counts as none. *)
Definition _filter_all_presence_updates_for_user (user_id : string) (include_offline : bool)
    (from_key : option Z) : St PresenceHandler (list UserPresenceState) :=
  let! updated_users := st_lift (match from_key with
                                 | None | Some 0 => Ok None
                                 | Some k => get_all_entities_changed k presence_stream_cache
                                 end) in
  let! presence_updates :=
    (match updated_users with
     | Some updated_users =>
         let! users_to_state := current_state_for_users updated_users in
         let presence_updates := dvals users_to_state in
         st_ret (if include_offline then presence_updates
                 else _filter_offline_presence_state presence_updates)
     | None => st_read (get_presence_for_all_users include_offline)
     end) in
  match dget user_id (get_users_for_states presence_updates) with
  | Some states => st_ret (set_iter states)
  | None => st_raise KeyError
  end.

(** Whom the user may see that (maybe) changed. *)
Definition interested_and_updated_users (user_id : string) (from_key : option Z)
    (additional_users_interested_in : gset string) : result (gset string) :=
  match from_key with
  | Some k =>
      let* entities := get_all_entities_changed k presence_stream_cache in
      match entities with
      | Some updated_users =>
          Ok ((do_users_share_a_room user_id updated_users ∪ additional_users_interested_in)
              ∩ list_to_set updated_users)
      | None =>
          get_entities_changed
            (set_iter (elements (get_users_who_share_room_with_user user_id
                                 ∪ additional_users_interested_in))) true k 1 presence_stream_cache
      end
  | None => Ok (get_users_who_share_room_with_user user_id ∪ additional_users_interested_in)
  end.

Definition additional_users (user_id : string) (explicit_room_id : option string)
    (interested_users : gset string) : gset string :=
  {[user_id]} ∪ interested_users
  ∪ match truthy_text explicit_room_id with
    | Some room_id => list_to_set (get_users_in_room room_id)
    | None => ∅
    end.

Definition get_new_events (user_id : string) (from_key : option Z) (explicit_room_id : option string)
    (include_offline : bool) : St PresenceHandler (list UserPresenceState * Z) :=
  let full := match from_key with
              | Some k => should_user_receive_full_presence_with_token user_id k
              | None => false
              end in
  let from_key := if full then None else from_key in
  let include_offline := negb full && include_offline in
  if bool_decide (from_key = Some max_token) then st_ret ([], max_token)
  else match get_interested_users presence_router user_id with
       | ALL_USERS =>
           let! presence_updates :=
             _filter_all_presence_updates_for_user user_id include_offline from_key in
           st_ret (presence_updates, max_token)
       | SomeUsers interested_users =>
           let! users := st_lift (interested_and_updated_users user_id from_key
                                    (additional_users user_id explicit_room_id interested_users)) in
           let! users_to_state := current_state_for_users (set_iter (elements users)) in
           let presence_updates := dvals users_to_state in
           st_ret (if include_offline then presence_updates
                   else _filter_offline_presence_state presence_updates, max_token)
       end.
End source.
End events.

(** * A client is sent the presence it may see, and misses none

    The theorem composes the stream change cache, the presence handler and the membership of
    rooms: what a client gets is of users it may see, and every such user whose presence
    changed since the client's token is in it with his current state. *)

Section events.
Context `{PresenceEnv, SetOrder, SortedDictsLaws}.

(** ** Whom the user may see *)

(** The members of a room and the rooms of a user are two readings of one table. *)
Definition rooms_agree : Prop :=
  forall r v, v ∈ get_users_in_room r <-> r ∈ get_rooms_for_user v.

Definition share_room (u v : string) : Prop :=
  exists r, r ∈ get_rooms_for_user u /\ r ∈ get_rooms_for_user v.

Lemma is_visible_iff u v : is_visible u v = true <-> share_room u v.
Proof.
  unfold is_visible, share_room. rewrite existsb_exists. split.
  - intros (r & Hr & Hu%bool_decide_eq_true). exists r. split; [done|by apply list_elem_of_In].
  - intros (r & Hu & Hv). exists r. split; [by apply list_elem_of_In|by apply bool_decide_eq_true].
Qed.

Lemma share_set u v : rooms_agree -> v ∈ get_users_who_share_room_with_user u <-> share_room u v.
Proof.
  intros Ha. unfold get_users_who_share_room_with_user, share_room.
  assert (Hf : forall l (s : gset string),
    v ∈ fold_left (fun s room_id => s ∪ list_to_set (get_users_in_room room_id)) l s <->
    v ∈ s \/ exists r, r ∈ l /\ v ∈ get_users_in_room r).
  { induction l as [|r l IH]; intros s; simpl; [set_solver|]. rewrite IH. set_solver. }
  rewrite Hf. split; [intros [?|(r & Hr & Hv)]; [set_solver|]; exists r; by split; [|apply Ha]|].
  intros (r & Hr & Hv). right. exists r. by split; [|apply Ha].
Qed.

(** Whom the user may see: himself, those he shares a room with, those a module says, and
    those of the room he looks into. *)
Definition may_see (user_id : string) (interested : gset string) (explicit_room_id : option string)
    (v : string) : Prop :=
  v = user_id \/ share_room user_id v \/ v ∈ interested \/
  exists r, explicit_room_id = Some r /\ r <> "" /\ v ∈ get_users_in_room r.

Lemma additional_in user_id explicit_room_id interested v :
  v ∈ additional_users user_id explicit_room_id interested <->
  v = user_id \/ v ∈ interested \/
  exists r, explicit_room_id = Some r /\ r <> "" /\ v ∈ get_users_in_room r.
Proof.
  unfold additional_users. destruct explicit_room_id as [[|c r]|]; simpl; [set_solver| |set_solver].
  rewrite !elem_of_union, elem_of_singleton, elem_of_list_to_set. naive_solver.
Qed.

Lemma may_see_iff user_id interested explicit_room_id v :
  may_see user_id interested explicit_room_id v <->
  share_room user_id v \/ v ∈ additional_users user_id explicit_room_id interested.
Proof. rewrite additional_in. unfold may_see. naive_solver. Qed.

Lemma interested_spec h z c user_id from_key additional :
  rooms_agree -> cache_run h z c ->
  (forall k, from_key = Some k -> k < get_earliest_known_position c \/ z <= k) ->
  exists us, interested_and_updated_users c user_id from_key additional = Ok us /\
    (forall v, v ∈ us -> share_room user_id v \/ v ∈ additional) /\
    (forall v, share_room user_id v \/ v ∈ additional ->
       (forall k, from_key = Some k -> changed_after h v k) -> v ∈ us).
Proof.
  intros Ha Hc Hz. unfold interested_and_updated_users. destruct from_key as [k|].
  2: { eexists. split; [done|]. split; intros v; rewrite elem_of_union, share_set by done; naive_solver. }
  pose proof (get_all_entities_changed_spec h z c k Hc (Hz k eq_refl)) as Hall.
  destruct (k <? get_earliest_known_position c); [|destruct Hall as (l & Hall & _ & Hin & _)]; rewrite Hall;
    cbn [rbind].
  - set (es := get_users_who_share_room_with_user user_id ∪ additional).
    destruct (run_ok _ _ _ Hc) as (Hok & _ & _).
    destruct (get_entities_spec h z c (set_iter (elements es)) true 1 k Hok) as (us & E & Hsub & Hsup & _).
    assert (Hes : forall v, v ∈ set_iter (elements es) <-> share_room user_id v \/ v ∈ additional).
    { intros v. rewrite set_iter_perm, elem_of_elements. unfold es. by rewrite elem_of_union, share_set. }
    exists us. rewrite E. split_and!; [done|..].
    + intros v Hv. by apply Hes, Hsub.
    + intros v Hv Hk. apply Hsup; [by apply Hz|by apply Hes|by apply Hk].
  - eexists. split; [done|]. unfold do_users_share_a_room.
    assert (Hd : forall v, v ∈@{gset string} list_to_set (List.filter (is_visible user_id) l) <->
      share_room user_id v /\ v ∈ l).
    { intros v. rewrite elem_of_list_to_set, in_filter_b, is_visible_iff. naive_solver. }
    split; intros v; rewrite elem_of_intersection, elem_of_union, Hd, elem_of_list_to_set.
    + naive_solver.
    + intros Hv Hk. specialize (Hk k eq_refl). apply Hin in Hk. naive_solver.
Qed.

Lemma no_offline l s : s ∈ _filter_offline_presence_state l <-> s ∈ l /\ state s <> PresenceState.OFFLINE.
Proof. unfold _filter_offline_presence_state. rewrite in_filter_b, negb_true_iff, bool_decide_eq_false. naive_solver. Qed.

(** C37: a client for whom no module asks for all users is always answered, and each state in
    the answer is the current one of a user it may see; and every user it may see whose
    presence changed since its token, or every one when it has no token or is to get the full
    presence, is in the answer with his current state, but for the users offline: they are left
    out when the client does not want them, and always when it is to get the full presence.
    The token is one the stream change cache can tell of, which is any token while all users
    are never marked as changed at a position before that of a change already told. *)
Theorem presence_events_complete history z cache full_token max_token user_id from_key explicit_room
    include_offline interested h :
  rooms_agree -> cache_run history z cache ->
  (forall k, from_key = Some k -> k < get_earliest_known_position cache \/ z <= k) ->
  get_interested_users presence_router user_id = SomeUsers interested ->
  let full := match from_key with
              | Some k => should_user_receive_full_presence_with_token full_token user_id k
              | None => false
              end in
  exists l, (get_new_events full_token cache max_token user_id from_key explicit_room include_offline h).1
      = Ok (l, max_token) /\
    (forall s, s ∈ l -> exists v, may_see user_id interested explicit_room v /\ s = known_state h v) /\
    (forall v, may_see user_id interested explicit_room v ->
       full = true \/ (from_key <> Some max_token /\ forall k, from_key = Some k -> changed_after history v k) ->
       state (known_state h v) <> PresenceState.OFFLINE \/ (full = false /\ include_offline = true) ->
       known_state h v ∈ l).
Proof.
  intros Ha Hc Hz Hi full. unfold get_new_events. fold full. case_bool_decide as Hmax.
  { exists []. split_and!; [done|by intros s ?%elem_of_nil|]. intros v _ [Hf|[Hf _]] _; [|by destruct full].
    rewrite Hf in Hmax. done. }
  rewrite Hi. destruct (interested_spec history z cache user_id (if full then None else from_key)
    (additional_users user_id explicit_room interested) Ha Hc) as (us & E & Hsub & Hsup).
  { intros k Hk. destruct full; [done|by apply Hz]. }
  unfold st_bind at 1. unfold st_lift at 1. rewrite E.
  destruct (current_states_run (set_iter (elements us)) h) as (states & h' & E' & _).
  rewrite (st_bind_run _ _ _ _ _ E'). pose proof (states_of _ _ _ _ E') as Hstates.
  assert (Hin : forall s, s ∈ dvals states <-> exists v, v ∈ us /\ s = known_state h v).
  { intros s. rewrite Hstates. by setoid_rewrite set_iter_perm; setoid_rewrite elem_of_elements. }
  eexists. split; [done|]. split.
  - intros s Hs. assert (Hs' : s ∈ dvals states).
    { destruct (negb full && include_offline); [done|]. by apply no_offline in Hs as [? _]. }
    apply Hin in Hs' as (v & Hv & ->). exists v. split; [|done]. by apply may_see_iff, Hsub.
  - intros v Hv Hch Hoff. assert (Hs : known_state h v ∈ dvals states).
    { apply Hin. exists v. split; [|done]. apply Hsup; [by apply may_see_iff|].
      intros k Hk. destruct full; [done|]. destruct Hch as [?|[_ Hch]]; [done|]. by apply Hch. }
    destruct (negb full && include_offline) eqn:Eo; [done|]. apply no_offline. split; [done|].
    destruct Hoff as [?|[Hf Hinc]]; [done|]. by rewrite Hf, Hinc in Eo.
Qed.
End events.

(** ** A client that was away while one user changed

    The theorem is about clients for whom the modules name a set of users.  For one for whom a
    module asks for all users, the modules are asked where the states go, and the code reads
    the client's entry of their answer, which need not be there: see [all_users_refused]. *)

#[local] Existing Instance map_dicts.
#[local] Existing Instance map_dicts_laws.

Definition sample_user_history : history := [(Some "@a:h", 11)].
Definition sample_user_cache : StreamChangeCache := snd (entity_has_changed "@a:h" 11 (snd (new_cache 10 2 []))).

Lemma sample_user_run : cache_run sample_user_history 10 sample_user_cache.
Proof.
  apply RunChanged, (RunStart [] 10 2); [by intros x ?%elem_of_nil|done|]. reflexivity.
Qed.

Definition rooms_presence : PresenceEnv := {|
  hostname := "h"; _presence_enabled := true; _track_presence := true; msc3026_enabled := true;
  get_rooms_for_user := fun u => if bool_decide (u ∈ ["@a:h"; "@b:h"]) then ["!r"] else [];
  get_current_hosts_in_room := fun _ => ["h"];
  get_users_in_room := fun r => if bool_decide (r = "!r") then ["@a:h"; "@b:h"] else [];
  get_event := fun _ => None; presence_router := new_router |}.

Lemma rooms_presence_agree : @rooms_agree rooms_presence.
Proof. intros r v. simpl. case_bool_decide; case_bool_decide; set_solver. Qed.

Lemma presence_events_complete_witness :
  exists l, (@get_new_events rooms_presence presence_order map_dicts (fun _ => None) sample_user_cache 11
      "@b:h" (Some 10) None true PresenceSaved.sample_start).1 = Ok (l, 11) /\ PresenceSaved.sample_row ∈ l.
Proof.
  destruct (@presence_events_complete rooms_presence presence_order map_dicts map_dicts_laws
    sample_user_history 10 sample_user_cache (fun _ => None) 11 "@b:h" (Some 10) None true ∅
    PresenceSaved.sample_start rooms_presence_agree sample_user_run ltac:(intros k [= <-]; right; lia) eq_refl) as (l & E & _ & Hall).
  exists l. split; [exact E|].
  apply (Hall "@a:h").
  - right. left. exists "!r". split; vm_compute; left.
  - right. split; [discriminate|]. intros k [= <-]. exists 11. split; [left; left|lia].
  - left. vm_compute. discriminate.
Defined.

(** A module asks for all users and sends no state anywhere: the client gets a [KeyError]. *)
Definition curious_router : result PresenceRouter :=
  register_presence_router_callbacks (Some (fun _ => Answered [])) (Some (fun _ => Answered ALL_USERS))
    new_router.

Definition curious_presence (r : PresenceRouter) : PresenceEnv := {|
  hostname := "h"; _presence_enabled := true; _track_presence := true; msc3026_enabled := true;
  get_rooms_for_user := fun u => if bool_decide (u ∈ ["@a:h"; "@b:h"]) then ["!r"] else [];
  get_current_hosts_in_room := fun _ => ["h"];
  get_users_in_room := fun r => if bool_decide (r = "!r") then ["@a:h"; "@b:h"] else [];
  get_event := fun _ => None; presence_router := r |}.

Example all_users_refused :
  match curious_router with
  | Ok r => (@get_new_events (curious_presence r) presence_order map_dicts (fun _ => None)
               sample_user_cache 11 "@b:h" (Some 10) None true PresenceSaved.sample_start).1 = Err KeyError
  | Err _ => False
  end.
Proof. vm_compute. reflexivity. Qed.

(** A user offline is not in the full presence. *)
Example offline_left_out :
  match (@get_new_events rooms_presence presence_order map_dicts (fun _ => None) sample_user_cache 11
           "@b:h" None None true PresenceSaved.sample_start).1,
        (@get_new_events rooms_presence presence_order map_dicts (fun _ => Some 20) sample_user_cache 11
           "@b:h" (Some 10) None true PresenceSaved.sample_start).1 with
  | Ok (l, _), Ok (l', _) =>
      (List.length l, List.length l', map state l') = (2%nat, 1%nat, [PresenceState.ONLINE])
  | _, _ => False
  end.
Proof. vm_compute. reflexivity. Qed.
