(* ===== verification/StateFilter.v ===== *)
(** * StateFilter: filters on room state (types/state.py)

    A filter says which entries of a state map to fetch.  [types] maps an event type to its
    state keys, [None] standing for all of them; an immutabledict and a frozenset compare
    without order, so they are a [gmap] and a [gset], and where the code iterates over one
    the order is [set_iter]'s, any permutation. *)
From S2P Require Import Prelude PyVal RoomVersionTable Events EventAuthLevels.
From Stdlib Require Import String Ascii.
Open Scope string_scope.
Open Scope list_scope.

Abbreviation Types := (gmap string (option (gset string))).

Record StateFilter := { types : Types; include_others : bool }.

#[export] Instance StateFilter_eq_dec : EqDecision StateFilter.
Proof. solve_decision. Defined.

(** The constructor with [__attrs_post_init__]. *)
Definition mkStateFilter (ts : Types) (others : bool) : StateFilter :=
  {| types := if others then filter (fun kv => kv.2 <> None) ts
              else filter (fun kv => kv.2 <> Some ∅) ts;
     include_others := others |}.

Definition _ALL_STATE_FILTER : StateFilter := mkStateFilter ∅ true.
Definition _ALL_NON_MEMBER_STATE_FILTER : StateFilter :=
  mkStateFilter {[EventTypes.Member := Some ∅]} true.
Definition _NONE_STATE_FILTER : StateFilter := mkStateFilter ∅ false.

(** ** Matching *)

(** [(typ, state_key) in self] *)
Definition contains (f : StateFilter) (k : StateKey) : bool :=
  match types f !! k.1 with
  | Some None => true
  | Some (Some state_keys) => bool_decide (k.2 ∈ state_keys)
  | None => include_others f
  end.

Definition is_full (f : StateFilter) : bool := include_others f && bool_decide (types f = ∅).

Definition filter_bool (f : StateFilter) : bool :=
  if include_others f then true else negb (bool_decide (types f = ∅)).

Definition filter_state {V} (f : StateFilter) (state_dict : StateMap V) : StateMap V :=
  if is_full f then state_dict
  else List.filter (fun kv : StateKey * V =>
    match types f !! kv.1.1 with
    | Some state_keys =>
        match state_keys with None => true | Some s => bool_decide (kv.1.2 ∈ s) end
    | None => include_others f
    end) state_dict.

Section iteration.
Context `{SetOrder}.

(** The items of the dict, and the elements of a set, in some order. *)
Definition items (f : StateFilter) : list (string * option (gset string)) :=
  set_iter (map_to_list (types f)).
Definition iter {A} `{Countable A} (s : gset A) : list A := set_iter (elements s).

Definition has_wildcards (f : StateFilter) : bool :=
  include_others f || existsb (fun kv => negb (is_Some_b kv.2)) (items f).

Definition concrete_types (f : StateFilter) : list StateKey :=
  flat_map (fun kv : string * option (gset string) =>
    match kv.2 with Some s => map (fun k => (kv.1, k)) (iter s) | None => [] end) (items f).

Definition wildcard_types (f : StateFilter) : list string :=
  map fst (List.filter (fun kv : string * option (gset string) => negb (is_Some_b kv.2)) (items f)).

Definition max_entries_returned (f : StateFilter) : option nat :=
  if has_wildcards f then None else Some (List.length (concrete_types f)).

(** ** Conversions *)

Definition add_type (type_dict : Types) (ts : string * option string) : Types :=
  let '(typ, s) := ts in
  match type_dict !! typ with
  | Some None => type_dict
  | entry =>
      match s with
      | None => <[typ := None]> type_dict
      | Some s => <[typ := Some (match entry with Some (Some keys) => keys | _ => ∅ end ∪ {[s]})]> type_dict
      end
  end.

Definition from_types (ts : list (string * option string)) : StateFilter :=
  mkStateFilter (fold_left add_type ts ∅) false.

Definition to_types (f : StateFilter) : list (string * option string) :=
  flat_map (fun kv : string * option (gset string) =>
    match kv.2 with
    | None => [(kv.1, None)]
    | Some s => map (fun k => (kv.1, Some k)) (iter s)
    end) (items f).

Definition from_lazy_load_member_list (members : list string) : StateFilter :=
  mkStateFilter {[EventTypes.Member := Some (list_to_set members)]} true.

(** [freeze]: the values are sets already. *)
Definition freeze (ts : Types) (others : bool) : StateFilter := mkStateFilter ts others.

(** ** The SQL clause *)

Definition type_clauses (kv : string * option (gset string)) : list (string * list string) :=
  match kv.2 with
  | None => [("(type = ?)", [kv.1])]
  | Some s => map (fun k => ("(type = ? AND state_key = ?)", [kv.1; k])) (iter s)
  end.

Definition make_sql_filter_clause (f : StateFilter) : string * list string :=
  if is_full f then ("", [])
  else if negb (include_others f) && bool_decide (types f = ∅) then ("1 = 2", [])
  else
    let clauses := flat_map type_clauses (items f) in
    let where_clause := str_join " OR " (map fst clauses) in
    let where_args := flat_map snd clauses in
    if include_others f then
      let where_clause := if String.eqb where_clause "" then "" else (where_clause ++ " OR ")%string in
      ((where_clause ++ "type NOT IN (" ++ str_join "," (map (fun _ => "?") (items f)) ++ ")")%string,
       where_args ++ map fst (items f))
    else (where_clause, where_args).

(** ** Widening, splitting and subtracting *)

Definition return_expanded (f : StateFilter) : StateFilter :=
  if is_full f then f
  else if negb (has_wildcards f) then f
  else
    let get_all_members :=
      match types f !! EventTypes.Member with
      | Some state_keys => negb (is_Some_b state_keys)
      | None => include_others f
      end in
    let has_non_member_wildcard :=
      include_others f || existsb (fun kv => negb (is_Some_b kv.2))
        (List.filter (fun kv => negb (String.eqb kv.1 EventTypes.Member)) (items f)) in
    if negb has_non_member_wildcard then f
    else if get_all_members then _ALL_STATE_FILTER
    else match types f !! EventTypes.Member with
         | Some state_keys => mkStateFilter {[EventTypes.Member := state_keys]} true
         | None => _ALL_NON_MEMBER_STATE_FILTER
         end.

Definition get_member_split (f : StateFilter) : StateFilter * StateFilter :=
  let member_filter :=
    match types f !! EventTypes.Member with
    | Some None => _ALL_STATE_FILTER
    | Some (Some state_keys) => mkStateFilter {[EventTypes.Member := Some state_keys]} false
    | None => if include_others f then _ALL_STATE_FILTER else _NONE_STATE_FILTER
    end in
  (member_filter, mkStateFilter (delete EventTypes.Member (types f)) (include_others f)).

(** All but the excluded types, plus whole types, plus single keys. *)
Record FourParts := {
  all_part : bool; minus_wildcards : gset string;
  plus_wildcards : gset string; plus_state_keys : gset StateKey
}.

Definition _decompose_into_four_parts (f : StateFilter) : FourParts := {|
  all_part := include_others f;
  minus_wildcards := if include_others f then dom (types f) else ∅;
  plus_wildcards := list_to_set (wildcard_types f);
  plus_state_keys := list_to_set (concrete_types f) |}.

Definition add_state_key (all : bool) (new_types : Types) (k : StateKey) : Types :=
  match new_types !! k.1 with
  | Some (Some entry) => <[k.1 := Some (entry ∪ {[k.2]})]> new_types
  | Some None => new_types
  | None => if all then new_types else <[k.1 := Some {[k.2]}]> new_types
  end.

Definition _recompose_from_four_parts (p : FourParts) : StateFilter :=
  let new_types : Types :=
    if all_part p then fold_left (fun d t => <[t := Some ∅]> d) (iter (minus_wildcards p)) ∅ else ∅ in
  let new_types := fold_left (fun d t => <[t := None]> d) (iter (plus_wildcards p)) new_types in
  let new_types := fold_left (add_state_key (all_part p)) (iter (plus_state_keys p)) new_types in
  freeze new_types (all_part p).

Definition approx_difference (self other : StateFilter) : StateFilter :=
  let s := _decompose_into_four_parts self in
  let o := _decompose_into_four_parts other in
  let new_excludes := minus_wildcards s ∪ plus_wildcards o in
  let new_wildcards := plus_wildcards s ∖ plus_wildcards o in
  let new_concrete_keys :=
    filter (fun k : StateKey => k.1 ∉ plus_wildcards o) (plus_state_keys s) ∖ plus_state_keys o in
  if all_part o then
    let new_wildcards :=
      if all_part s then new_wildcards ∪ (minus_wildcards o ∖ minus_wildcards s) else new_wildcards in
    _recompose_from_four_parts {|
      all_part := false; minus_wildcards := ∅;
      plus_wildcards := new_wildcards ∩ minus_wildcards o;
      plus_state_keys := filter (fun k : StateKey => k.1 ∈ minus_wildcards o) new_concrete_keys |}
  else
    _recompose_from_four_parts {|
      all_part := all_part s; minus_wildcards := new_excludes;
      plus_wildcards := new_wildcards; plus_state_keys := new_concrete_keys |}.

Definition must_await_full_state (f : StateFilter) (is_mine_id : string -> bool) : bool :=
  match types f !! EventTypes.Member with
  | None => include_others f
  | Some None => true
  | Some (Some member_state_keys) => existsb (fun k => negb (is_mine_id k)) (iter member_state_keys)
  end.
End iteration.

(** * What state filters match *)

(** ** Canonical filters *)

(** No wildcard where everything else is included, no empty set where it is not. *)
Definition canonical (f : StateFilter) : Prop :=
  forall t, types f !! t <> if include_others f then Some None else Some (Some ∅).

(** What a filter selects of a type: [None] is everything. *)
Definition selection (f : StateFilter) (t : string) : option (gset string) :=
  match types f !! t with
  | Some keys => keys
  | None => if include_others f then None else Some ∅
  end.
Definition selects (sel : option (gset string)) (s : string) : bool :=
  match sel with None => true | Some keys => bool_decide (s ∈ keys) end.

Lemma contains_selection f k : contains f k = selects (selection f k.1) k.2.
Proof.
  unfold contains, selection. destruct (types f !! k.1) as [[keys|]|]; try done.
  destruct (include_others f); [done|]. simpl. by rewrite bool_decide_false by set_solver.
Qed.

Lemma selects_eq sel sel' : (forall s, selects sel s = selects sel' s) -> sel = sel'.
Proof.
  intros Hs. destruct sel as [a|], sel' as [b|]; simpl in Hs; try done.
  - f_equal. apply set_eq. intros s. specialize (Hs s).
    by rewrite <- (bool_decide_eq_true (s ∈ a)), <- (bool_decide_eq_true (s ∈ b)), Hs.
  - specialize (Hs (fresh a)). rewrite bool_decide_false in Hs by apply is_fresh. done.
  - specialize (Hs (fresh b)). rewrite bool_decide_false in Hs by apply is_fresh. done.
Qed.

(** Canonical filters that match the same state are equal. *)
Lemma canonical_ext f g :
  canonical f -> canonical g -> (forall k, contains f k = contains g k) -> f = g.
Proof.
  intros Hf Hg Hk.
  assert (Hsel : forall t, selection f t = selection g t).
  { intros t. apply selects_eq. intros s. specialize (Hk (t, s)). by rewrite !contains_selection in Hk. }
  assert (Ho : include_others f = include_others g).
  { set (t := fresh (dom (types f) ∪ dom (types g))).
    assert (Ht : t ∉ dom (types f) ∪ dom (types g)) by apply is_fresh.
    apply not_elem_of_union in Ht as [Htf Htg]. apply not_elem_of_dom in Htf, Htg.
    specialize (Hsel t). unfold selection in Hsel. rewrite Htf, Htg in Hsel.
    by destruct (include_others f), (include_others g). }
  destruct f as [tf o], g as [tg o']. simpl in Ho. subst o'. f_equal. apply map_eq. intros t.
  specialize (Hsel t). unfold selection, canonical in *. simpl in *. specialize (Hf t). specialize (Hg t).
  destruct o, (tf !! t) as [[a|]|], (tg !! t) as [[b|]|]; congruence.
Qed.

Lemma mk_lookup ts o t :
  types (mkStateFilter ts o) !! t =
  match ts !! t with
  | Some None => if o then None else Some None
  | Some (Some keys) => if o then Some (Some keys) else if decide (keys = ∅) then None else Some (Some keys)
  | None => None
  end.
Proof.
  unfold mkStateFilter. cbn [types]. destruct o; rewrite map_lookup_filter;
    destruct (ts !! t) as [[keys|]|]; simpl; try done.
  - case_decide as Hd; simpl; case_guard; try done; by simplify_eq.
Qed.

Lemma mk_canonical ts o : canonical (mkStateFilter ts o).
Proof.
  intros t. rewrite mk_lookup. destruct o; simpl; destruct (ts !! t) as [[keys|]|]; try done.
  case_decide; [done|congruence].
Qed.

(** The constructor does not change what is matched. *)
Lemma mk_selection ts o t : selection (mkStateFilter ts o) t = selection {| types := ts; include_others := o |} t.
Proof.
  unfold selection. rewrite mk_lookup. cbn. destruct (ts !! t) as [[keys|]|], o; try done.
  case_decide; congruence.
Qed.

(** ** Iteration *)

Section iteration.
Context `{SetOrder}.

Lemma in_items f t keys : (t, keys) ∈ items f <-> types f !! t = Some keys.
Proof. unfold items. by rewrite set_iter_perm, elem_of_map_to_list. Qed.

Lemma in_iter `{Countable A} (s : gset A) x : x ∈ iter s <-> x ∈ s.
Proof. unfold iter. by rewrite set_iter_perm, elem_of_elements. Qed.

Lemma nodup_iter `{Countable A} (s : gset A) : NoDup (iter s).
Proof. unfold iter. rewrite set_iter_perm. apply NoDup_elements. Qed.

Lemma in_wildcard_types f t : t ∈ wildcard_types f <-> types f !! t = Some None.
Proof.
  unfold wildcard_types. rewrite in_map_b. split.
  - intros ([t' keys] & -> & [Hin Hn]%in_filter_b). apply in_items in Hin. by destruct keys.
  - intros Ht. exists (t, None). split; [done|]. apply in_filter_b. split; [by apply in_items|done].
Qed.

Lemma in_concrete_types f k :
  k ∈ concrete_types f <-> exists keys, types f !! k.1 = Some (Some keys) /\ k.2 ∈ keys.
Proof.
  unfold concrete_types. rewrite in_flat_map_b. split.
  - intros ([t keys] & Hin & Hk). apply in_items in Hin. destruct keys as [keys|]; [|by apply elem_of_nil in Hk].
    apply in_map_b in Hk as (s & -> & Hs%in_iter). simpl. eauto.
  - intros (keys & Ht & Hk). exists (k.1, Some keys). split; [by apply in_items|]. cbn.
    apply in_map_b. exists k.2. split; [by destruct k|by apply in_iter].
Qed.

Lemma has_wildcards_spec f :
  has_wildcards f = true <-> include_others f = true \/ exists t, types f !! t = Some None.
Proof.
  unfold has_wildcards. rewrite orb_true_iff, existsb_exists. split.
  - intros [?|([t keys] & Hin & Hn)]; [by left|]. apply list_elem_of_In, in_items in Hin.
    destruct keys; [done|]. eauto.
  - intros [?|[t Ht]]; [by left|]. right. exists (t, None). split; [|done].
    apply list_elem_of_In. by apply in_items.
Qed.

(** ** Four parts *)

Lemma decompose_spec f :
  let p := _decompose_into_four_parts f in
  all_part p = include_others f /\
  (forall t, t ∈ minus_wildcards p <-> include_others f = true /\ is_Some (types f !! t)) /\
  (forall t, t ∈ plus_wildcards p <-> types f !! t = Some None) /\
  (forall t s, (t, s) ∈ plus_state_keys p <-> exists keys, types f !! t = Some (Some keys) /\ s ∈ keys).
Proof.
  unfold _decompose_into_four_parts. cbn. split_and!; [done| | |].
  - intros t. destruct (include_others f); [rewrite elem_of_dom; naive_solver|set_solver].
  - intros t. by rewrite elem_of_list_to_set, in_wildcard_types.
  - intros t s. by rewrite elem_of_list_to_set, in_concrete_types.
Qed.

Lemma lookup_insert_all (v : option (gset string)) l (d : Types) t :
  fold_left (fun d t => <[t := v]> d) l d !! t = if decide (t ∈ l) then Some v else d !! t.
Proof.
  revert d. induction l as [|x l IH]; intros d; cbn [fold_left]; [by rewrite decide_False by set_solver|].
  rewrite IH. destruct (decide (t ∈ l)) as [Hin|Hn]; [by rewrite decide_True by set_solver|].
  destruct (decide (x = t)) as [->|Hne].
  - rewrite lookup_insert_eq, decide_True by set_solver. done.
  - rewrite lookup_insert_ne, decide_False by set_solver. done.
Qed.

Lemma add_keys_spec all l (d : Types) t s :
  selects (selection {| types := fold_left (add_state_key all) l d; include_others := all |} t) s =
  match d !! t with
  | Some None => true
  | Some (Some keys) => bool_decide (s ∈ keys) || bool_decide ((t, s) ∈ l)
  | None => all || bool_decide ((t, s) ∈ l)
  end.
Proof.
  revert d. induction l as [|[t' s'] l IH]; intros d; cbn [fold_left].
  - unfold selection. cbn [types include_others]. rewrite (bool_decide_false ((t, s) ∈ [])) by set_solver.
    destruct (d !! t) as [[keys|]|]; rewrite ?orb_false_r; [done|done|].
    destruct all; [done|]. simpl. by rewrite bool_decide_false by set_solver.
  - rewrite IH. unfold add_state_key. cbn [fst snd].
    assert (Hin : bool_decide ((t, s) ∈ (t', s') :: l) =
                  bool_decide (t = t' /\ s = s') || bool_decide ((t, s) ∈ l)).
    { apply eq_true_iff_eq. rewrite orb_true_iff, !bool_decide_eq_true, elem_of_cons. naive_solver. }
    rewrite Hin. clear Hin IH. destruct (decide (t' = t)) as [->|Hne].
    + assert (Hs : bool_decide (t = t /\ s = s') = bool_decide (s = s')) by (by apply bool_decide_ext; naive_solver).
      rewrite Hs. destruct (d !! t) as [[keys|]|] eqn:Hd; rewrite ?lookup_insert_eq, ?Hd.
      * rewrite orb_assoc. f_equal. apply eq_true_iff_eq.
        rewrite orb_true_iff, !bool_decide_eq_true, elem_of_union, elem_of_singleton. done.
      * done.
      * destruct all; rewrite ?lookup_insert_eq, ?Hd; [done|]. simpl. f_equal.
        apply bool_decide_ext. by rewrite elem_of_singleton.
    + rewrite (bool_decide_false (t = t' /\ s = s')) by naive_solver. simpl.
      destruct (d !! t') as [[?|]|]; [by rewrite lookup_insert_ne by done|done|].
      destruct all; [done|by rewrite lookup_insert_ne by done].
Qed.

Lemma recompose_spec p t s :
  contains (_recompose_from_four_parts p) (t, s) =
  bool_decide (t ∈ plus_wildcards p) ||
  (if all_part p && negb (bool_decide (t ∈ minus_wildcards p)) then true
   else bool_decide ((t, s) ∈ plus_state_keys p)).
Proof.
  rewrite contains_selection. unfold _recompose_from_four_parts, freeze. rewrite mk_selection. cbn [fst snd].
  rewrite add_keys_spec, lookup_insert_all.
  assert (Hk : bool_decide ((t, s) ∈ iter (plus_state_keys p)) = bool_decide ((t, s) ∈ plus_state_keys p))
    by (apply bool_decide_ext, in_iter).
  rewrite Hk. destruct (decide (t ∈ iter (plus_wildcards p))) as [Hw|Hw]; rewrite in_iter in Hw.
  { by rewrite (bool_decide_true (t ∈ plus_wildcards p)). }
  rewrite (bool_decide_false (t ∈ plus_wildcards p)) by done. simpl.
  destruct (all_part p); simpl; [|by rewrite lookup_empty].
  rewrite lookup_insert_all. destruct (decide (t ∈ iter (minus_wildcards p))) as [Hm|Hm]; rewrite in_iter in Hm.
  - rewrite (bool_decide_true (t ∈ minus_wildcards p)) by done. simpl.
    by rewrite (bool_decide_false (s ∈ ∅)) by set_solver.
  - by rewrite lookup_empty, (bool_decide_false (t ∈ minus_wildcards p)).
Qed.

(** The difference, type by type. *)
Lemma approx_difference_at a b t s :
  canonical a -> canonical b ->
  contains (approx_difference a b) (t, s) =
  match selection a t, selection b t with
  | _, None => false
  | None, Some _ => true
  | Some keys, Some keys' => bool_decide (s ∈ keys) && negb (bool_decide (s ∈ keys'))
  end.
Proof.
  intros Ha Hb. specialize (Ha t). specialize (Hb t).
  destruct (decompose_spec a) as (Aa & Am & Aw & Ak), (decompose_spec b) as (Ba & Bm & Bw & Bk).
  unfold approx_difference. cbn zeta. set (p := _decompose_into_four_parts a) in *.
  set (q := _decompose_into_four_parts b) in *. rewrite Aa, Ba.
  apply eq_true_iff_eq. unfold selection.
  specialize (Am t). specialize (Aw t). specialize (Ak t s).
  specialize (Bm t). specialize (Bw t). specialize (Bk t s).
  destruct (include_others b) eqn:Ob; rewrite recompose_spec; cbn [all_part minus_wildcards plus_wildcards plus_state_keys];
    rewrite orb_true_iff, bool_decide_eq_true; cbn [andb].
  - rewrite bool_decide_eq_true, elem_of_intersection, elem_of_filter, elem_of_difference, elem_of_filter.
    cbn [fst]. destruct (include_others a) eqn:Oa.
    + rewrite elem_of_union, !elem_of_difference, Am, Aw, Ak, Bm, Bw, Bk.
      destruct (types a !! t) as [[ka|]|], (types b !! t) as [[kb|]|]; simplify_eq;
        rewrite ?andb_true_iff, ?negb_true_iff, ?bool_decide_eq_true, ?bool_decide_eq_false; naive_solver.
    + rewrite !elem_of_difference, Aw, Ak, Bm, Bw, Bk.
      destruct (types a !! t) as [[ka|]|], (types b !! t) as [[kb|]|]; simplify_eq;
        rewrite ?andb_true_iff, ?negb_true_iff, ?bool_decide_eq_true, ?bool_decide_eq_false; set_solver.
  - rewrite elem_of_difference, Aw, Bw.
    destruct (include_others a) eqn:Oa; cbn [andb].
    + destruct (bool_decide (t ∈ minus_wildcards p ∪ plus_wildcards q)) eqn:Hm; cbn [negb].
      * apply bool_decide_eq_true in Hm. rewrite elem_of_union, Am, Bw in Hm.
        rewrite bool_decide_eq_true, elem_of_difference, elem_of_filter, Ak, Bk. cbn [fst]. rewrite Bw.
        destruct (types a !! t) as [[ka|]|], (types b !! t) as [[kb|]|]; simplify_eq;
          rewrite ?andb_true_iff, ?negb_true_iff, ?bool_decide_eq_true, ?bool_decide_eq_false; set_solver.
      * apply bool_decide_eq_false in Hm. rewrite elem_of_union, Am, Bw in Hm.
        destruct (types a !! t) as [[ka|]|], (types b !! t) as [[kb|]|]; simplify_eq; naive_solver.
    + rewrite bool_decide_eq_true, elem_of_difference, elem_of_filter, Ak, Bk. cbn [fst]. rewrite Bw.
      destruct (types a !! t) as [[ka|]|], (types b !! t) as [[kb|]|]; simplify_eq;
        rewrite ?andb_true_iff, ?negb_true_iff, ?bool_decide_eq_true, ?bool_decide_eq_false; set_solver.
Qed.
End iteration.

Lemma recompose_canonical `{SetOrder} p : canonical (_recompose_from_four_parts p).
Proof. apply mk_canonical. Qed.

(** C22: the difference of two filters is the narrowest filter that is right: it matches
    everything the first matches and the second does not, and every filter that does so
    matches all it matches.  In particular it matches nothing the first does not. *)
Theorem approx_difference_narrowest `{SetOrder} a b :
  canonical a -> canonical b ->
  (forall k, contains a k = true -> contains b k = false -> contains (approx_difference a b) k = true) /\
  forall f, (forall k, contains a k = true -> contains b k = false -> contains f k = true) ->
    forall k, contains (approx_difference a b) k = true -> contains f k = true.
Proof.
  intros Ha Hb. split.
  - intros [t s]. rewrite approx_difference_at, !contains_selection by done. cbn [fst snd].
    destruct (selection a t), (selection b t); simpl; try done. by intros -> ->.
  - intros f Hf [t s]. rewrite approx_difference_at by done.
    destruct (selection a t) as [ka|] eqn:Hat, (selection b t) as [kb|] eqn:Hbt; try done.
    + intros [Hka Hkb]%andb_true_iff. apply Hf; rewrite contains_selection; cbn [fst snd];
        rewrite ?Hat, ?Hbt; cbn [selects]; [done|by apply negb_true_iff].
    + intros _. rewrite contains_selection. cbn [fst snd].
      destruct (selection f t) as [kf|] eqn:Hft; [|done]. exfalso.
      set (s' := fresh (kb ∪ kf)). assert (Hs : s' ∉ kb ∪ kf) by apply is_fresh.
      specialize (Hf (t, s')). rewrite !contains_selection in Hf. cbn [fst snd] in Hf.
      rewrite Hat, Hbt, Hft in Hf. cbn [selects] in Hf.
      rewrite bool_decide_false in Hf by set_solver. specialize (Hf eq_refl).
      rewrite bool_decide_eq_true in Hf. specialize (Hf eq_refl). set_solver.
Qed.

(** ** The other operations *)

Section operations.
Context `{SetOrder}.

Lemma add_type_selection l (d : Types) t s :
  selects (selection {| types := fold_left add_type l d; include_others := false |} t) s =
  selects (selection {| types := d; include_others := false |} t) s ||
  bool_decide ((t, None) ∈ l) || bool_decide ((t, Some s) ∈ l).
Proof.
  revert d. induction l as [|[t' o] l IH]; intros d; cbn [fold_left].
  - by rewrite !bool_decide_false, !orb_false_r by set_solver.
  - rewrite IH. clear IH.
    assert (Hn : bool_decide ((t, None) ∈ (t', o) :: l) =
                 bool_decide (t = t' /\ o = None) || bool_decide ((t, None) ∈ l)).
    { apply eq_true_iff_eq. rewrite orb_true_iff, !bool_decide_eq_true, elem_of_cons. naive_solver. }
    assert (Hs : bool_decide ((t, Some s) ∈ (t', o) :: l) =
                 bool_decide (t = t' /\ o = Some s) || bool_decide ((t, Some s) ∈ l)).
    { apply eq_true_iff_eq. rewrite orb_true_iff, !bool_decide_eq_true, elem_of_cons. naive_solver. }
    rewrite Hn, Hs. clear Hn Hs.
    assert (Hadd : selects (selection {| types := add_type d (t', o); include_others := false |} t) s =
      selects (selection {| types := d; include_others := false |} t) s ||
      bool_decide (t = t' /\ o = None) || bool_decide (t = t' /\ o = Some s)).
    { unfold selection. cbn [types include_others]. destruct (decide (t = t')) as [<-|Hne].
      - unfold add_type. destruct o as [s'|], (d !! t) as [[keys|]|] eqn:Hd;
          rewrite ?lookup_insert_eq, ?Hd; cbn [selects]; apply eq_true_iff_eq;
          rewrite ?orb_true_iff, ?bool_decide_eq_true; set_solver.
      - rewrite !(bool_decide_false (t = t' /\ _)) by naive_solver. rewrite !orb_false_r.
        unfold add_type. destruct (d !! t') as [[?|]|], o; rewrite ?lookup_insert_ne by congruence; done. }
    rewrite Hadd. apply eq_true_iff_eq. rewrite !orb_true_iff. tauto.
Qed.

Lemma from_types_contains l t s :
  contains (from_types l) (t, s) = bool_decide ((t, None) ∈ l) || bool_decide ((t, Some s) ∈ l).
Proof.
  rewrite contains_selection. unfold from_types. rewrite mk_selection, add_type_selection. cbn [fst snd].
  unfold selection. cbn [types include_others]. rewrite lookup_empty. cbn [selects].
  by rewrite bool_decide_false by set_solver.
Qed.

Lemma in_to_types f t o :
  (t, o) ∈ to_types f <->
  match o with
  | None => types f !! t = Some None
  | Some s => exists keys, types f !! t = Some (Some keys) /\ s ∈ keys
  end.
Proof.
  unfold to_types. rewrite in_flat_map_b. split.
  - intros ([t' keys] & Hin%in_items & Ho). cbn in Ho. destruct keys as [keys|].
    + apply in_map_b in Ho as (s & [= -> ->] & Hs%in_iter). eauto.
    + by apply list_elem_of_singleton in Ho as [= -> ->].
  - destruct o as [s|].
    + intros (keys & Ht & Hs). exists (t, Some keys). split; [by apply in_items|]. cbn.
      apply in_map_b. exists s. split; [done|by apply in_iter].
    + intros Ht. exists (t, None). split; [by apply in_items|]. by left.
Qed.

(** [to_types] and [from_types] are inverse: a filter that names its types is rebuilt from
    the list of its types and keys, in whatever order they come. *)
Theorem types_roundtrip f l :
  canonical f -> include_others f = false -> l ≡ₚ to_types f -> from_types l = f.
Proof.
  intros Hf Ho Hl. apply canonical_ext; [apply mk_canonical|done|]. intros [t s].
  rewrite from_types_contains. unfold contains. cbn [fst snd]. apply eq_true_iff_eq.
  rewrite orb_true_iff, !bool_decide_eq_true, Hl, !in_to_types, Ho.
  destruct (types f !! t) as [[keys|]|]; rewrite ?bool_decide_eq_true; naive_solver.
Qed.

(** Filters are kept in a canonical form: every operation gives a canonical filter, and
    two canonical filters that match the same state are equal. *)
Theorem filters_canonical :
  (forall ts others, canonical (mkStateFilter ts others)) /\
  (forall l, canonical (from_types l)) /\ (forall l, canonical (from_lazy_load_member_list l)) /\
  (forall a b, canonical (approx_difference a b)) /\
  (forall f, canonical f -> canonical (return_expanded f)) /\
  (forall f, canonical (get_member_split f).1 /\ canonical (get_member_split f).2) /\
  (forall f g, canonical f -> canonical g -> (forall k, contains f k = contains g k) -> f = g).
Proof.
  split; [exact mk_canonical|]. split; [intros l; unfold from_types; apply mk_canonical|].
  split; [intros l; unfold from_lazy_load_member_list; apply mk_canonical|]. split_and!.
  - intros a b. unfold approx_difference. cbn zeta.
    destruct (all_part (_decompose_into_four_parts b)); apply recompose_canonical.
  - intros f Hf. unfold return_expanded. destruct (is_full f); [exact Hf|].
    destruct (negb (has_wildcards f)); [exact Hf|]. destruct (negb (include_others f || _)); [exact Hf|].
    destruct (types f !! EventTypes.Member) as [keys|]; [|destruct (include_others f)]; cbn zeta;
      [destruct (negb (is_Some_b keys))| |]; apply mk_canonical.
  - intros f. split; [|apply mk_canonical]. unfold get_member_split. cbn [fst].
    destruct (types f !! EventTypes.Member) as [[keys|]|]; [| |destruct (include_others f)]; apply mk_canonical.
  - apply canonical_ext.
Qed.

Lemma filter_state_spec {V} f (st : StateMap V) :
  filter_state f st = List.filter (fun kv => contains f kv.1) st.
Proof.
  unfold filter_state, is_full. destruct (include_others f && bool_decide (types f = ∅)) eqn:Hfull.
  - apply andb_true_iff in Hfull as [Ho Ht%bool_decide_eq_true].
    induction st as [|kv st IH]; [done|]. simpl. unfold contains at 1. rewrite Ht, lookup_empty, Ho. by f_equal.
  - apply List.filter_ext. intros [k v]. unfold contains. cbn. by destruct (types f !! k.1) as [[?|]|].
Qed.

(** A filter without wildcards knows how much it can match: the state it leaves of any
    state map has at most [max_entries_returned] entries. *)
Theorem max_entries_bound {V} f n (st : StateMap V) :
  dict_wf st -> max_entries_returned f = Some n -> (List.length (filter_state f st) <= n)%nat.
Proof.
  intros Hst. unfold max_entries_returned. destruct (has_wildcards f) eqn:Hw; [done|]. intros [= <-].
  rewrite filter_state_spec. apply not_true_iff_false in Hw. rewrite has_wildcards_spec in Hw.
  rewrite <- (length_map fst). apply submseteq_length, NoDup_submseteq.
  - unfold dict_wf in Hst. clear -Hst. induction st as [|[k v] st IH]; [apply NoDup_nil_2|].
    simpl in Hst |- *. apply NoDup_cons in Hst as [Hn Hd]. destruct (contains f k); [|auto].
    simpl. apply NoDup_cons. split; [|auto]. intros Hin. apply Hn.
    apply in_map_b in Hin as (kv & -> & [Hin _]%in_filter_b). apply in_map_b. eauto.
  - intros k (kv & -> & [_ Hc]%in_filter_b)%in_map_b. apply in_concrete_types. unfold contains in Hc.
    destruct (types f !! kv.1.1) as [[keys|]|] eqn:Ht.
    + exists keys. split; [done|]. by apply bool_decide_eq_true in Hc.
    + exfalso. apply Hw. right. eauto.
    + exfalso. apply Hw. by left.
Qed.

Lemma all_contains k : contains _ALL_STATE_FILTER k = true.
Proof. unfold contains, _ALL_STATE_FILTER. by rewrite mk_lookup, lookup_empty. Qed.

Lemma none_contains k : contains _NONE_STATE_FILTER k = false.
Proof. unfold contains, _NONE_STATE_FILTER. by rewrite mk_lookup, lookup_empty. Qed.

(** The member filter is right on member events, the other one on the rest. *)
Lemma member_split_spec f k :
  contains f k = contains (if decide (k.1 = EventTypes.Member) then (get_member_split f).1
                           else (get_member_split f).2) k.
Proof.
  destruct k as [t s]. cbn [fst]. destruct (decide (t = EventTypes.Member)) as [->|Hne]; unfold get_member_split; cbn [fst snd].
  - rewrite contains_selection at 1. unfold selection. cbn [fst snd].
    destruct (types f !! EventTypes.Member) as [[keys|]|] eqn:Ht.
    + rewrite contains_selection, mk_selection. unfold selection. cbn [fst snd types]. by rewrite lookup_singleton_eq.
    + by rewrite all_contains.
    + destruct (include_others f); [by rewrite all_contains|]. rewrite none_contains. simpl.
      by rewrite bool_decide_false by set_solver.
  - rewrite !contains_selection, mk_selection. unfold selection. cbn [fst snd types include_others].
    by rewrite lookup_delete_ne by congruence.
Qed.

(** Expanding a filter keeps what it matches, and its membership events exactly; when it has
    other wildcards, all other events are added. *)
Lemma return_expanded_spec f k :
  canonical f ->
  (contains f k = true -> contains (return_expanded f) k = true) /\
  (k.1 = EventTypes.Member -> contains (return_expanded f) k = contains f k) /\
  (contains (return_expanded f) k <> contains f k ->
   forall k', k'.1 <> EventTypes.Member -> contains (return_expanded f) k' = true).
Proof.
  intros Hf. unfold return_expanded. destruct (is_full f); [done|].
  destruct (negb (has_wildcards f)); [done|].
  set (wild := include_others f || _). destruct (negb wild) eqn:Hwild; [done|].
  specialize (Hf EventTypes.Member). destruct k as [t s].
  destruct (types f !! EventTypes.Member) as [[keys|]|] eqn:Hm; cbn [is_Some_b negb].
  - assert (Hc : forall t s, contains (mkStateFilter {[EventTypes.Member := Some keys]} true) (t, s) =
      if decide (t = EventTypes.Member) then bool_decide (s ∈ keys) else true).
    { intros t' s'. rewrite contains_selection, mk_selection. unfold selection. cbn [fst snd types include_others].
      case_decide as Ht; [subst; by rewrite lookup_singleton_eq|by rewrite lookup_singleton_ne]. }
    rewrite Hc. split_and!.
    + unfold contains. cbn. case_decide; [subst; by rewrite Hm|done].
    + cbn. intros ->. rewrite decide_True by done. unfold contains. cbn. by rewrite Hm.
    + intros _ [t' s'] Ht'. rewrite Hc. by rewrite decide_False.
  - rewrite all_contains. split_and!; [done| |].
    + cbn. intros ->. unfold contains. cbn. by rewrite Hm.
    + intros _ k' _. apply all_contains.
  - destruct (include_others f) eqn:Ho.
    + rewrite all_contains. split_and!; [done| |].
      * cbn. intros ->. unfold contains. cbn. by rewrite Hm.
      * intros _ k' _. apply all_contains.
    + assert (Hc : forall t s, contains _ALL_NON_MEMBER_STATE_FILTER (t, s) =
        negb (bool_decide (t = EventTypes.Member))).
      { intros t' s'. unfold _ALL_NON_MEMBER_STATE_FILTER. rewrite contains_selection, mk_selection.
        unfold selection. cbn [fst snd types include_others]. destruct (decide (t' = EventTypes.Member)) as [->|Hne].
        - rewrite lookup_singleton_eq, bool_decide_true by done. simpl. by rewrite bool_decide_false by set_solver.
        - rewrite lookup_singleton_ne, bool_decide_false by done. done. }
      rewrite Hc. split_and!.
      * unfold contains. cbn. destruct (decide (t = EventTypes.Member)) as [->|];
          [by rewrite Hm, Ho|by rewrite bool_decide_false].
      * cbn. intros ->. unfold contains. cbn. rewrite Hm, Ho. by rewrite bool_decide_true.
      * intros _ [t' s'] Ht'. rewrite Hc. by rewrite bool_decide_false.
Qed.

(** Partial state is enough when every member event asked for is a local user's. *)
Lemma partial_state_enough f is_mine k :
  must_await_full_state f is_mine = false -> contains f k = true -> k.1 = EventTypes.Member ->
  is_mine k.2 = true.
Proof.
  destruct k as [t s]. cbn. unfold must_await_full_state, contains. cbn. intros Hm Hc ->.
  destruct (types f !! EventTypes.Member) as [[keys|]|]; [|done|congruence].
  apply bool_decide_eq_true in Hc. destruct (is_mine s) eqn:Hs; [done|]. exfalso.
  apply not_true_iff_false in Hm. apply Hm, existsb_exists. exists s. split; [|by rewrite Hs].
  apply list_elem_of_In. by apply in_iter.
Qed.
(** ** The SQL clause *)

Fixpoint placeholders (s : string) : nat :=
  match s with
  | EmptyString => 0
  | String c s => (if Ascii.eqb c "?"%char then 1 else 0) + placeholders s
  end.

Lemma placeholders_app s t : placeholders (s ++ t)%string = (placeholders s + placeholders t)%nat.
Proof. induction s as [|c s IH]; [done|]. simpl. rewrite IH. lia. Qed.

Lemma placeholders_join sep l :
  placeholders sep = 0%nat -> placeholders (str_join sep l) = list_sum (map placeholders l).
Proof.
  intros Hsep. induction l as [|s l IH]; [done|]. destruct l as [|s' l]; [simpl; lia|].
  change (str_join sep (s :: s' :: l)) with (s ++ sep ++ str_join sep (s' :: l))%string.
  rewrite !placeholders_app, Hsep, IH. done.
Qed.

Lemma clause_placeholders l :
  list_sum (map placeholders (map fst (flat_map type_clauses l))) =
  List.length (flat_map snd (flat_map type_clauses l)).
Proof.
  induction l as [|[t [keys|]] l IH]; [done| |]; cbn [flat_map].
  - rewrite map_app, map_app, flat_map_app, length_app, list_sum_app, IH. f_equal.
    unfold type_clauses. cbn [snd fst]. induction (iter keys) as [|k ks IHk]; [done|].
    cbn [map flat_map list_sum snd fst]. rewrite length_app. simpl in IHk |- *. lia.
  - simpl. simpl in IH. lia.
Qed.

(** Every placeholder of the clause has its argument. *)
Lemma sql_placeholders f :
  let '(clause, args) := make_sql_filter_clause f in placeholders clause = List.length args.
Proof.
  unfold make_sql_filter_clause. destruct (is_full f); [done|]. destruct (negb _ && _); [done|]. cbn zeta.
  set (w := str_join " OR " _).
  assert (Hw : placeholders w = List.length (flat_map snd (flat_map type_clauses (items f)))).
  { unfold w. rewrite placeholders_join by done. apply clause_placeholders. }
  destruct (include_others f); [|exact Hw].
  assert (Hq : forall l : list (string * option (gset string)),
    placeholders (str_join "," (map (fun _ => "?") l)) = List.length l).
  { intros l. rewrite placeholders_join by done. induction l; [done|]. simpl. lia. }
  rewrite !placeholders_app, Hq, length_app, length_map, <- Hw. simpl.
  destruct (String.eqb_spec w "") as [->|_]; [simpl; lia|]. rewrite placeholders_app. simpl. lia.
Qed.
End operations.

(** ** Witnesses *)

Definition name_or_bob : StateFilter :=
  mkStateFilter {[EventTypes.Member := Some {["@bob:a"]}; "m.room.name" := None]} false.
Definition all_but_alice : StateFilter := mkStateFilter {[EventTypes.Member := Some {["@bob:a"]}]} true.

Definition in_order : SetOrder.
Proof. by refine {| set_iter := fun A l => l |}. Defined.
#[local] Existing Instance in_order.

(** All but memberships, and bob's, without bob and without the name: nothing is left of the
    memberships, and the rest has to be kept whole. *)
Example difference_example :
  approx_difference all_but_alice name_or_bob =
  mkStateFilter {[EventTypes.Member := Some ∅; "m.room.name" := Some ∅]} true.
Proof. apply (bool_decide_eq_true_1 (_ = _)). vm_compute. reflexivity. Qed.

Lemma approx_difference_narrowest_witness :
  contains (approx_difference all_but_alice name_or_bob) ("m.room.topic", "") = true.
Proof.
  apply (proj1 (approx_difference_narrowest all_but_alice name_or_bob (mk_canonical _ _) (mk_canonical _ _)));
    reflexivity.
Defined.

Lemma types_roundtrip_witness :
  from_types [("m.room.name", None); (EventTypes.Member, Some "@bob:a")] = name_or_bob.
Proof.
  apply (types_roundtrip name_or_bob); [apply mk_canonical|reflexivity|].
  apply (bool_decide_eq_true_1 (_ ≡ₚ _)). vm_compute. reflexivity.
Defined.

Lemma filters_canonical_witness : canonical (return_expanded name_or_bob).
Proof.
  destruct filters_canonical as (_ & _ & _ & _ & Hexp & _). apply Hexp, mk_canonical.
Defined.

Lemma max_entries_bound_witness :
  (List.length (filter_state (from_types [("m.room.name", Some ""); (EventTypes.Member, Some "@bob:a")])
     [(("m.room.name", ""), 1%Z); (("m.room.topic", ""), 2%Z); ((EventTypes.Member, "@eve:a"), 3%Z)]) <= 2)%nat.
Proof.
  apply max_entries_bound; [|reflexivity].
  apply (bool_decide_eq_true_1 (NoDup _)). vm_compute. reflexivity.
Defined.
