(* ===== verification/Visibility.v ===== *)
(** * Visibility: who may see which event (visibility.py)

    Whether a user or a server may see an event depends on the room's history visibility and
    the memberships at the event, on whom the user ignores, on the room's retention policy and
    on erased senders.  What the server has stored is the class [VisibilityEnv].  The metadata
    of an event object and the check for servers are code of an extension module: the class
    [EventMetadata] and the field [event_visible_to_server].  Logging is left out. *)
From S2P Require Import Prelude PyVal PySort Identifiers Events Redaction StateFilter.
From Stdlib Require Import Ascii String.
Open Scope string_scope.
Open Scope list_scope.
Open Scope Z_scope.
Open Scope py_scope.

Module HistoryVisibility.
Definition INVITED := "invited".
Definition JOINED := "joined".
Definition SHARED := "shared".
Definition WORLD_READABLE := "world_readable".
End HistoryVisibility.

Definition CallInvite := "m.call.invite".
Definition Dummy := "org.matrix.dummy_event".

Definition VISIBILITY_PRIORITY : list string :=
  [HistoryVisibility.WORLD_READABLE; HistoryVisibility.SHARED; HistoryVisibility.INVITED;
   HistoryVisibility.JOINED].
Definition MEMBERSHIP_PRIORITY : list string :=
  [Membership.JOIN; Membership.INVITE; Membership.KNOCK; Membership.LEAVE; Membership.BAN].
Definition _HISTORY_VIS_KEY : StateKey := (EventTypes.RoomHistoryVisibility, "").

(** [l.index(s)] for an [s] in [l] *)
Fixpoint index_of (s : string) (l : list string) : nat :=
  match l with
  | [] => 0
  | x :: l => if bool_decide (x = s) then 0 else S (index_of s l)
  end.

(** A value, or [d] where it is not one of [l]. *)
Definition one_of (l : list string) (d : string) (j : json) : string :=
  match j with JStr s => if bool_decide (s ∈ l) then s else d | _ => d end.

(** ** Event objects *)

(** [copied] is what an event object gets that is made from another's dictionary. *)
Class EventMetadata := {
  metadata : Type;
  is_soft_failed : metadata -> bool;
  outlier : metadata -> bool;
  policy_server_spammy : metadata -> bool;
  copied : metadata -> metadata;
  redacted : metadata -> metadata
}.

Record event_object `{EventMetadata} := {
  pdu : event;
  unsigned : obj;
  internal_metadata : metadata
}.

Section objects.
Context `{EventMetadata}.

Definition prune_object (e : event_object) : result event_object :=
  let* p := prune_event (pdu e) in
  let* u := prune_unsigned (JObj (unsigned e)) in
  Ok {| pdu := p; unsigned := u; internal_metadata := redacted (copied (internal_metadata e)) |}.

Definition clone_event (e : event_object) : event_object :=
  {| pdu := pdu e; unsigned := unsigned e; internal_metadata := copied (internal_metadata e) |}.

Definition set_unsigned (k : string) (v : json) (e : event_object) : event_object :=
  {| pdu := pdu e; unsigned := dset k v (unsigned e); internal_metadata := internal_metadata e |}.

(** [event.type == EventTypes.Member and event.state_key == user_id] *)
Definition own_membership (e : event) (user_id : string) : result bool :=
  if bool_decide (type e = EventTypes.Member)
  then let* k := state_key e in Ok (bool_decide (k = user_id))
  else Ok false.

(** ** The rules *)

Definition get_effective_room_visibility_from_state (state : StateMap event) : string :=
  match dget _HISTORY_VIS_KEY state with
  | None => HistoryVisibility.SHARED
  | Some e =>
      one_of VISIBILITY_PRIORITY HistoryVisibility.SHARED
        (oget (content e) "history_visibility" (JStr HistoryVisibility.SHARED))
  end.

(** The more permissive of two values. *)
Definition least (priority : list string) (new old : string) : string :=
  if (index_of old priority <? index_of new priority)%nat then old else new.

(** [true] for [_CheckVisibility.ALLOWED] *)
Definition _check_history_visibility (e : event_object) (visibility : string) (is_peeking : bool)
    : result bool :=
  let* visibility :=
    if bool_decide (type (pdu e) = EventTypes.RoomHistoryVisibility) then
      let* prev := jget (oget (unsigned e) "prev_content" (JObj [])) "history_visibility" JNull in
      Ok (least VISIBILITY_PRIORITY visibility
            (one_of VISIBILITY_PRIORITY HistoryVisibility.SHARED prev))
    else Ok visibility in
  Ok ((bool_decide (visibility = HistoryVisibility.SHARED) && negb is_peeking)
      || bool_decide (visibility = HistoryVisibility.WORLD_READABLE)).

Record check_membership_return := { allowed : bool; joined : bool }.

(** Whether the user's membership, if any, lets him see an event. *)
Definition membership_allows (visibility : string) (is_peeking : bool) (membership : json)
    : check_membership_return :=
  if jeqs membership Membership.JOIN then {| allowed := true; joined := true |}
  else if bool_decide (visibility = HistoryVisibility.JOINED) then {| allowed := false; joined := false |}
  else if bool_decide (visibility = HistoryVisibility.INVITED)
  then {| allowed := jeqs membership Membership.INVITE; joined := false |}
  else if bool_decide (visibility = HistoryVisibility.SHARED) && is_peeking
  then {| allowed := false; joined := false |}
  else {| allowed := true; joined := false |}.

Definition _check_membership (user_id : string) (e : event_object) (visibility : string)
    (state : StateMap event) (is_peeking : bool) : result check_membership_return :=
  let* own := own_membership (pdu e) user_id in
  if own : bool then
    let membership := one_of MEMBERSHIP_PRIORITY "leave" (oget (content (pdu e)) "membership" JNull) in
    let* prev := jget (oget (unsigned e) "prev_content" (JObj [])) "membership" JNull in
    let prev_membership := one_of MEMBERSHIP_PRIORITY "leave" prev in
    if bool_decide (membership = "leave")
       && (bool_decide (prev_membership = "join") || bool_decide (prev_membership = "invite"))
    then Ok {| allowed := true; joined := false |}
    else Ok (membership_allows visibility is_peeking
               (JStr (least MEMBERSHIP_PRIORITY membership prev_membership)))
  else
    match dget (EventTypes.Member, user_id) state with
    | Some m => let* m := membership m in Ok (membership_allows visibility is_peeking m)
    | None => Ok (membership_allows visibility is_peeking JNull)
    end.

(** [true] for [_CheckFilter.MAYBE_ALLOWED] *)
Definition _check_filter_send_to_client (e : event) (now : Z) (max_lifetime : option Z)
    (sender_ignored : bool) : bool :=
  if bool_decide (type e = Dummy) then false
  else if negb (is_state e) && sender_ignored then false
  else if bool_decide (type e = EventTypes.Aliases) then false
  else if negb (is_state e) then
    match max_lifetime with
    | Some max_lifetime => negb (origin_server_ts e <? now - max_lifetime)
    | None => true
    end
  else true.

Definition _check_client_allowed_to_see_event (user_id : string) (e : event_object) (now : Z)
    (filter_send_to_client is_peeking : bool) (always_include_ids : gset string)
    (sender_ignored : bool) (max_lifetime : option Z) (state : option (StateMap event))
    (sender_erased : bool) : result (option event_object) :=
  if filter_send_to_client && negb (_check_filter_send_to_client (pdu e) now max_lifetime sender_ignored)
  then Ok None
  else if bool_decide (event_id (pdu e) ∈ always_include_ids) then Ok (Some e)
  else if outlier (internal_metadata e) then
    let* own := own_membership (pdu e) user_id in Ok (if own : bool then Some e else None)
  else match state with
  | None => Err (PyException "Missing state for non-outlier event")
  | Some state =>
      let visibility := get_effective_room_visibility_from_state state in
      let* lax := if sender_erased then Ok false
                  else _check_history_visibility e visibility is_peeking in
      if lax : bool then Ok (Some e)
      else
        let* membership_result := _check_membership user_id e visibility state is_peeking in
        if negb (allowed membership_result) then Ok None
        else if sender_erased && negb (joined membership_result)
        then let* p := prune_object e in Ok (Some p)
        else Ok (Some e)
  end.
End objects.

(** ** The functions other modules call *)

Class VisibilityEnv `{EventMetadata} := {
  (** the IDs of the state after an event, [None] where it is not known *)
  state_ids_after : string -> option (StateMap string);
  stored_event : string -> option event_object;
  ignored_users : string -> gset string;
  users_erased : string -> bool;
  retention_policy : string -> option Z;
  is_server_admin : string -> bool;
  return_soft_failed_events : string -> bool;
  return_policy_server_spammy_events : string -> bool;
  is_partial_state_room : string -> bool;
  (** sender, target server, history visibility, whether the sender is erased, whether partial
      state hides the event, and the memberships of the server's users *)
  event_visible_to_server :
    string -> string -> string -> (string -> bool) -> bool -> list (string * json) -> result bool
}.

Section filters.
Context `{VisibilityEnv}.

(** The events of a state that are found. *)
Definition found_events (ids : StateMap string) : StateMap event :=
  omap (fun kv => (fun e => (kv.1, pdu e)) <$> stored_event kv.2) ids.

(** [get_state_ids_for_events] and [get_state_for_events] (storage/controllers/state.py) *)
Definition get_state_ids_for_events (event_ids : list string) (state_filter : StateFilter)
    : result (list (string * StateMap string)) :=
  rmap (fun i => match state_ids_after i with
                 | Some ids => Ok (i, filter_state state_filter ids)
                 | None => Err (RuntimeError "No state group for unknown or outlier event")
                 end) event_ids.

Definition get_state_for_events (event_ids : list string) (state_filter : StateFilter)
    : result (list (string * StateMap event)) :=
  let* states := get_state_ids_for_events event_ids state_filter in
  Ok (map (fun s => (s.1, found_events s.2)) states).

(** Soft-failed events are left out, but for server admins who ask for them. *)
Definition not_soft_failed (user_id : string) (filter_send_to_client : bool)
    (events : list event_object) : list event_object :=
  let soft e := is_soft_failed (internal_metadata e) in
  if filter_send_to_client && is_server_admin user_id then
    if return_soft_failed_events user_id then events
    else if return_policy_server_spammy_events user_id then
      List.filter (fun e => negb (soft e) || policy_server_spammy (internal_metadata e)) events
    else List.filter (fun e => negb (soft e)) events
  else List.filter (fun e => negb (soft e)) events.

Definition is_call_invite (e : event) : bool :=
  bool_decide (type e = CallInvite) && negb (is_state e).

(** The keys of the state that are read: the join rules only for call invites that are not
    soft-failed. *)
Definition state_types (user_id : string) (events : list event_object)
    : list (string * option string) :=
  [(EventTypes.RoomHistoryVisibility, Some ""); (EventTypes.Member, Some user_id)]
  ++ (if existsb (fun e => negb (is_soft_failed (internal_metadata e)) && is_call_invite (pdu e)) events
      then [(EventTypes.JoinRules, Some "")] else []).

(** The user's membership after the event. *)
Definition user_membership (user_id : string) (e : event) (state_after_event : option (StateMap event))
    : result json :=
  let* own := own_membership e user_id in
  if own : bool then membership e
  else match state_after_event with
  | Some state =>
      match dget (EventTypes.Member, user_id) state with
      | Some m => membership m
      | None => Ok (JStr Membership.LEAVE)
      end
  | None => Err (PyException "Missing state for event that is not user's own membership")
  end.

(** [allowed]; [retention_policies] has the rooms of all events, or is not bound at all. *)
Definition allowed_event (user_id : string) (now : Z) (is_peeking : bool)
    (always_include_ids : gset string) (filter_send_to_client : bool)
    (event_id_to_state : list (string * StateMap event)) (e : event_object)
    : result (option event_object) :=
  let state_after_event := dget (event_id (pdu e)) event_id_to_state in
  if negb filter_send_to_client then Err NameError
  else
    let* room_id := room_id (pdu e) in
    let* filtered :=
      _check_client_allowed_to_see_event user_id e now filter_send_to_client is_peeking
        always_include_ids (bool_decide (sender (pdu e) ∈ ignored_users user_id))
        (retention_policy room_id) state_after_event (users_erased (sender (pdu e))) in
    match filtered with
    | None => Ok None
    | Some filtered =>
        let* rings :=
          if is_call_invite (pdu e) then
            match state_after_event with
            | None => Err AssertionError
            | Some state =>
                Ok match dget (EventTypes.JoinRules, "") state with
                   | Some rules => jeqs (oget (content rules) "join_rule" JNull) JoinRules.PUBLIC
                   | None => false
                   end
            end
          else Ok false in
        if rings : bool then Ok None
        else
          let* m := user_membership user_id (pdu e) state_after_event in
          Ok (Some (set_unsigned "membership" m (clone_event filtered)))
    end.

Definition filter_and_transform_events_for_client (user_id : string) (now : Z)
    (events : list event_object) (is_peeking : bool) (always_include_ids : gset string)
    (filter_send_to_client : bool) : result (list event_object) :=
  let types := state_types user_id events in
  let events := not_soft_failed user_id filter_send_to_client events in
  let* event_id_to_state :=
    get_state_for_events
      (map (fun e => event_id (pdu e)) (List.filter (fun e => negb (outlier (internal_metadata e))) events))
      (from_types types) in
  let* _ := if filter_send_to_client then rmap (fun e => room_id (pdu e)) events else Ok [] in
  let* filtered_events :=
    rmap (allowed_event user_id now is_peeking always_include_ids filter_send_to_client
            event_id_to_state) events in
  Ok (omap id filtered_events).
End filters.

(** ** One event, many users *)

Section clients.
Context `{VisibilityEnv} (ignored_by : string -> gset string) (get_prev_state_ids : StateMap string).

(** [_get_state_map]: the state before the event with the event, if it is a state event, put in. *)
Definition _get_state_map (e : event_object) (state_filter : StateFilter) : StateMap event :=
  let state := found_events (filter_state state_filter get_prev_state_ids) in
  match get_state_key (pdu e) with
  | Some k => dset (type (pdu e), k) (pdu e) state
  | None => state
  end.

Definition filter_event_for_clients_with_state (user_ids : list string) (e : event_object) (now : Z)
    (is_peeking filter_send_to_client : bool) : result (gset string) :=
  if is_soft_failed (internal_metadata e) then Ok ∅
  else match user_ids with
  | [] => Ok ∅
  | _ =>
      let* allowed_user_ids :=
        if filter_send_to_client then
          let* room_id := room_id (pdu e) in
          Ok (list_to_set (List.filter (fun u =>
            _check_filter_send_to_client (pdu e) now (retention_policy room_id)
              (bool_decide (u ∈ ignored_by (sender (pdu e))))) user_ids))
        else Ok (list_to_set user_ids) in
      if outlier (internal_metadata e) then
        if bool_decide (type (pdu e) = EventTypes.Member) then
          let* k := state_key (pdu e) in
          Ok (if bool_decide (k ∈ allowed_user_ids) then {[k]} else ∅)
        else Ok ∅
      else
        let visibility_state_map := _get_state_map e (from_types [(EventTypes.RoomHistoryVisibility, Some "")]) in
        let visibility := get_effective_room_visibility_from_state visibility_state_map in
        let* lax := _check_history_visibility e visibility is_peeking in
        if lax : bool then Ok allowed_user_ids
        else
          let filter_list := map (fun u => (EventTypes.Member, Some u)) (elements allowed_user_ids)
                             ++ [(EventTypes.RoomHistoryVisibility, Some "")] in
          let state_map := _get_state_map e (from_types filter_list) in
          let* checked := rmap (fun u => let* m := _check_membership u e visibility state_map is_peeking in
                                         Ok (u, allowed m)) (elements allowed_user_ids) in
          Ok (list_to_set (map fst (List.filter snd checked)))
  end.
End clients.

(** ** Servers *)

Section servers.
Context `{VisibilityEnv}.

Definition _event_to_history_vis (events : list event_object) : result (list (string * string)) :=
  let* event_to_state_ids :=
    get_state_ids_for_events
      (map (fun e => event_id (pdu e)) (List.filter (fun e => negb (outlier (internal_metadata e))) events))
      (from_types [(EventTypes.RoomHistoryVisibility, Some "")]) in
  rfold (fun r e =>
    let* vis :=
      match dget (event_id (pdu e)) event_to_state_ids with
      | Some state_ids =>
          match dget _HISTORY_VIS_KEY state_ids with
          | Some "" | None => Ok HistoryVisibility.SHARED
          | Some visibility_id =>
              match stored_event visibility_id with
              | None => Err KeyError
              | Some vis_event =>
                  match oget (content (pdu vis_event)) "history_visibility" (JStr HistoryVisibility.SHARED) with
                  | JStr vis => Ok vis
                  | _ => Err AssertionError
                  end
              end
          end
      | None => Ok HistoryVisibility.SHARED
      end in
    Ok (dset (event_id (pdu e)) vis r)) [] events.

(** [include]: the part after the first colon is the server's name. *)
Definition include (server_name state_key : string) : bool :=
  match split_once ":"%char state_key with
  | Some (_, d) => bool_decide (d = server_name)
  | None => false
  end.

Definition _event_to_memberships (events : list event_object) (server_name : string)
    : result (list (string * StateMap (string * json))) :=
  match events with
  | [] => Ok []
  | _ =>
      let* event_to_state_ids :=
        get_state_ids_for_events (map (fun e => event_id (pdu e)) events)
          (from_types [(EventTypes.Member, None)]) in
      let event_id_to_state_key :=
        fold_left (fun d s => fold_left (fun d kv => dset kv.2 kv.1 d) s.2 d) event_to_state_ids [] in
      let wanted i := match dget i event_id_to_state_key with
                      | Some key => if include server_name key.2 then stored_event i else None
                      | None => None
                      end in
      rmap (fun s =>
        let* members := rmap (fun kv => match wanted kv.2 with
                                        | Some e =>
                                            let* k := state_key (pdu e) in
                                            let* m := membership (pdu e) in
                                            Ok (Some (kv.1, (k, m)))
                                        | None => Ok None
                                        end) s.2 in
        Ok (s.1, omap id members)) event_to_state_ids
  end.

Definition filter_events_for_server (target_server_name local_server_name : string)
    (events : list event_object)
    (redact filter_out_erased_senders filter_out_remote_partial_state_events : bool)
    : result (list event_object) :=
  let erased_senders u := filter_out_erased_senders && users_erased u in
  let* partial_state_invisible_event_ids :=
    if filter_out_remote_partial_state_events then
      rfold (fun (s : gset string) e =>
        let* sender_domain := get_domain_from_id (sender (pdu e)) in
        if bool_decide (sender_domain = local_server_name) then Ok s
        else
          let* room_id := room_id (pdu e) in
          Ok (if is_partial_state_room room_id then {[event_id (pdu e)]} ∪ s else s)) ∅ events
    else Ok ∅ in
  let* event_to_history_vis := _event_to_history_vis events in
  let vis e := default HistoryVisibility.SHARED (dget (event_id (pdu e)) event_to_history_vis) in
  let* event_to_memberships :=
    _event_to_memberships
      (List.filter (fun e => negb (bool_decide (vis e ∈ [HistoryVisibility.SHARED; HistoryVisibility.WORLD_READABLE])))
        events) target_server_name in
  let* to_return := rmap (fun e =>
    let* visible :=
      event_visible_to_server (sender (pdu e)) target_server_name (vis e) erased_senders
        (bool_decide (event_id (pdu e) ∈ partial_state_invisible_event_ids))
        (map snd (default [] (dget (event_id (pdu e)) event_to_memberships))) in
    if visible : bool then Ok (Some e)
    else if redact then let* p := prune_object e in Ok (Some p) else Ok None) events in
  Ok (omap id to_return).
End servers.
