(* ===== verification/VisibilityProps.v ===== *)
(** * VisibilityProps: the rules of history visibility, and who is shown what

    What the Matrix specification says of who may see an event, as propositions, and that the
    checks of visibility.py decide them. *)
From S2P Require Import Prelude PyVal PySort Identifiers Events Samples Redaction StateFilter.
From S2P Require Import Visibility.
From Stdlib Require Import String.
Open Scope string_scope.
Open Scope list_scope.
Open Scope Z_scope.
Open Scope py_scope.

Section rules.
Context `{EventMetadata}.

(** ** What was true around an event *)

(** The user's own membership event. *)
Definition own (user_id : string) (e : event) : Prop :=
  type e = EventTypes.Member /\ state_key_field e = Some user_id.

(** The content of the state event it replaces. *)
Definition prev_content (e : event_object) : obj :=
  match oget (unsigned e) "prev_content" (JObj []) with JObj o => o | _ => [] end.

Definition membership_of (content : obj) : string :=
  one_of MEMBERSHIP_PRIORITY "leave" (oget content "membership" JNull).
Definition visibility_of (content : obj) : string :=
  one_of VISIBILITY_PRIORITY HistoryVisibility.SHARED (oget content "history_visibility" JNull).

(** At the user's own membership event he has both memberships, the old and the new. *)
Definition membership_around (user_id : string) (e : event_object) (state : StateMap event)
    (m : string) : Prop :=
  (own user_id (pdu e) /\ (m = membership_of (content (pdu e)) \/ m = membership_of (prev_content e))) \/
  (~ own user_id (pdu e) /\
   exists ev, dget (EventTypes.Member, user_id) state = Some ev /\ membership ev = Ok (JStr m)).

(** A history visibility event is subject to both visibilities. *)
Definition visibility_around (e : event_object) (state : StateMap event) (v : string) : Prop :=
  v = get_effective_room_visibility_from_state state \/
  (type (pdu e) = EventTypes.RoomHistoryVisibility /\ v = visibility_of (prev_content e)).

Definition lax (v : string) (is_peeking : bool) : Prop :=
  v = HistoryVisibility.WORLD_READABLE \/ (v = HistoryVisibility.SHARED /\ is_peeking = false).

(** The user left, or declined an invite, by this event. *)
Definition leaves (user_id : string) (e : event_object) : Prop :=
  own user_id (pdu e) /\ membership_of (content (pdu e)) = "leave" /\
  (membership_of (prev_content e) = "join" \/ membership_of (prev_content e) = "invite").

Definition was_joined (user_id : string) (e : event_object) (state : StateMap event) : Prop :=
  membership_around user_id e state Membership.JOIN /\ ~ leaves user_id e.

(** The membership lets the user see the event, whatever the history visibility before it. *)
Definition member_may_see (user_id : string) (e : event_object) (state : StateMap event)
    (is_peeking : bool) : Prop :=
  membership_around user_id e state Membership.JOIN \/ leaves user_id e \/
  (get_effective_room_visibility_from_state state = HistoryVisibility.INVITED /\
   membership_around user_id e state Membership.INVITE) \/
  lax (get_effective_room_visibility_from_state state) is_peeking.

Definition may_see (user_id : string) (e : event_object) (state : StateMap event) (is_peeking : bool)
    : Prop :=
  (exists v, visibility_around e state v /\ lax v is_peeking) \/ member_may_see user_id e state is_peeking.

(** ** Orders of permissiveness *)

Lemma one_of_in l d j : d ∈ l -> one_of l d j ∈ l.
Proof. intros Hd. destruct j; simpl; try done. by case_bool_decide. Qed.

(** A property of an initial part of the order holds of the least of two iff of one. *)
Lemma least_or (l : list string) (n : nat) a b :
  a ∈ l -> b ∈ l ->
  (index_of (least l a b) l <= n <-> index_of a l <= n \/ index_of b l <= n)%nat.
Proof. intros _ _. unfold least. destruct (Nat.ltb_spec (index_of b l) (index_of a l)); lia. Qed.

Lemma least_in l a b : a ∈ l -> b ∈ l -> least l a b ∈ l.
Proof. unfold least. by destruct (_ <? _)%nat. Qed.

Ltac in_cases H :=
  repeat (apply elem_of_cons in H as [->|H]); [..|by apply elem_of_nil in H].

Lemma lax_index v is_peeking : v ∈ VISIBILITY_PRIORITY ->
  lax v is_peeking <-> (index_of v VISIBILITY_PRIORITY <= if is_peeking then 0 else 1)%nat.
Proof.
  intros Hv. unfold VISIBILITY_PRIORITY in Hv. in_cases Hv; unfold lax; destruct is_peeking;
    vm_compute; split; try lia; naive_solver.
Qed.

Lemma join_index m : m ∈ MEMBERSHIP_PRIORITY ->
  m = Membership.JOIN <-> (index_of m MEMBERSHIP_PRIORITY <= 0)%nat.
Proof. intros Hm. unfold MEMBERSHIP_PRIORITY in Hm. in_cases Hm; vm_compute; split; try lia; done. Qed.

Lemma invite_index m : m ∈ MEMBERSHIP_PRIORITY ->
  m = Membership.JOIN \/ m = Membership.INVITE <-> (index_of m MEMBERSHIP_PRIORITY <= 1)%nat.
Proof. intros Hm. unfold MEMBERSHIP_PRIORITY in Hm. in_cases Hm; vm_compute; split; try lia; naive_solver. Qed.

Lemma least_join a b : a ∈ MEMBERSHIP_PRIORITY -> b ∈ MEMBERSHIP_PRIORITY ->
  least MEMBERSHIP_PRIORITY a b = Membership.JOIN <-> a = Membership.JOIN \/ b = Membership.JOIN.
Proof. intros Ha Hb. rewrite !join_index by auto using least_in. by apply least_or. Qed.

Lemma least_invite a b : a ∈ MEMBERSHIP_PRIORITY -> b ∈ MEMBERSHIP_PRIORITY ->
  (least MEMBERSHIP_PRIORITY a b = Membership.JOIN \/ least MEMBERSHIP_PRIORITY a b = Membership.INVITE) <->
  (a = Membership.JOIN \/ a = Membership.INVITE) \/ (b = Membership.JOIN \/ b = Membership.INVITE).
Proof. intros Ha Hb. rewrite !invite_index by auto using least_in. by apply least_or. Qed.

Lemma least_lax a b is_peeking : a ∈ VISIBILITY_PRIORITY -> b ∈ VISIBILITY_PRIORITY ->
  lax (least VISIBILITY_PRIORITY a b) is_peeking <-> lax a is_peeking \/ lax b is_peeking.
Proof. intros Ha Hb. rewrite !lax_index by auto using least_in. by apply least_or. Qed.

Lemma effective_in state : get_effective_room_visibility_from_state state ∈ VISIBILITY_PRIORITY.
Proof.
  unfold get_effective_room_visibility_from_state. destruct (dget _ state); [apply one_of_in|];
    unfold VISIBILITY_PRIORITY; set_solver.
Qed.

Lemma visibility_of_in o : visibility_of o ∈ VISIBILITY_PRIORITY.
Proof. apply one_of_in. unfold VISIBILITY_PRIORITY. set_solver. Qed.

Lemma membership_of_in o : membership_of o ∈ MEMBERSHIP_PRIORITY.
Proof. apply one_of_in. unfold MEMBERSHIP_PRIORITY. set_solver. Qed.

(** ** The checks *)

Lemma own_membership_ok e user_id b : own_membership e user_id = Ok b -> (b = true <-> own user_id e).
Proof.
  unfold own_membership, own, state_key. case_bool_decide as Ht.
  - destruct (state_key_field e) as [k|]; simpl; [|done]. intros [= <-]. rewrite bool_decide_eq_true.
    naive_solver.
  - intros [= <-]. naive_solver.
Qed.

Lemma prev_content_get e k v :
  jget (oget (unsigned e) "prev_content" (JObj [])) k JNull = Ok v -> v = oget (prev_content e) k JNull.
Proof. unfold prev_content. by destruct (oget (unsigned e) "prev_content" (JObj [])); simpl; intros [= <-]. Qed.

Lemma check_history_visibility_ok e state is_peeking b :
  _check_history_visibility e (get_effective_room_visibility_from_state state) is_peeking = Ok b ->
  (b = true <-> exists v, visibility_around e state v /\ lax v is_peeking).
Proof.
  unfold _check_history_visibility.
  assert (Hb : forall v, (bool_decide (v = HistoryVisibility.SHARED) && negb is_peeking
      || bool_decide (v = HistoryVisibility.WORLD_READABLE)) = true <-> lax v is_peeking).
  { intros v. unfold lax. rewrite orb_true_iff, andb_true_iff, !bool_decide_eq_true, negb_true_iff. naive_solver. }
  unfold visibility_around. case_bool_decide as Ht; cbn [rbind].
  - destruct (jget _ _ _) as [prev|] eqn:E; [|done]. cbn [rbind]. intros [= <-]. apply prev_content_get in E.
    subst prev. fold (visibility_of (prev_content e)). rewrite Hb, least_lax by auto using effective_in, visibility_of_in.
    naive_solver.
  - intros [= <-]. rewrite Hb. naive_solver.
Qed.

(** [membership_allows] for a value of the order. *)
Lemma allows_ok v is_peeking j : v ∈ VISIBILITY_PRIORITY ->
  (joined (membership_allows v is_peeking j) = true <-> j = JStr Membership.JOIN) /\
  (allowed (membership_allows v is_peeking j) = true <->
     j = JStr Membership.JOIN \/ (v = HistoryVisibility.INVITED /\ j = JStr Membership.INVITE) \/ lax v is_peeking).
Proof.
  intros Hv. unfold membership_allows.
  assert (Hj : forall s, jeqs j s = true <-> j = JStr s).
  { intros s. unfold jeqs. destruct j; simpl; try done. rewrite bool_decide_eq_true. naive_solver. }
  destruct (jeqs j Membership.JOIN) eqn:E; simpl; [apply Hj in E; naive_solver|].
  assert (Hn : j <> JStr Membership.JOIN) by (rewrite <- Hj; congruence).
  unfold VISIBILITY_PRIORITY in Hv. in_cases Hv; vm_compute bool_decide; cbn [andb negb];
    destruct is_peeking; cbn [andb allowed joined]; rewrite ?Hj; unfold lax; split; split; try naive_solver.
Qed.

Lemma check_membership_ok user_id e state is_peeking r :
  _check_membership user_id e (get_effective_room_visibility_from_state state) state is_peeking = Ok r ->
  (joined r = true <-> was_joined user_id e state) /\
  (allowed r = true <-> member_may_see user_id e state is_peeking).
Proof.
  unfold _check_membership, was_joined, member_may_see.
  set (v := get_effective_room_visibility_from_state state). pose proof (effective_in state) as Hv. fold v in Hv.
  destruct (own_membership (pdu e) user_id) as [o|] eqn:Eo; [|done]. cbn [rbind].
  pose proof (own_membership_ok _ _ _ Eo) as Hown. destruct o.
  - assert (Ho : own user_id (pdu e)) by (by apply Hown). clear Hown Eo.
    destruct (jget _ _ _) as [prev|] eqn:E; [|done]. cbn [rbind]. apply prev_content_get in E. subst prev.
    fold (membership_of (content (pdu e))). fold (membership_of (prev_content e)).
    set (a := membership_of (content (pdu e))). set (b := membership_of (prev_content e)).
    assert (Ha : a ∈ MEMBERSHIP_PRIORITY) by apply membership_of_in.
    assert (Hb : b ∈ MEMBERSHIP_PRIORITY) by apply membership_of_in.
    assert (Har : forall m, membership_around user_id e state m <-> m = a \/ m = b).
    { intros m. unfold membership_around. fold a. fold b. naive_solver. }
    assert (Hl : leaves user_id e <-> a = "leave" /\ (b = "join" \/ b = "invite")).
    { unfold leaves. fold a. fold b. naive_solver. }
    destruct (bool_decide (a = "leave") && (bool_decide (b = "join") || bool_decide (b = "invite"))) eqn:El.
    + assert (Hleaves : leaves user_id e).
      { apply Hl. apply andb_true_iff in El as [El1 El2]. apply bool_decide_eq_true in El1.
        apply orb_true_iff in El2. rewrite !bool_decide_eq_true in El2. done. }
      intros [= <-]. simpl. naive_solver.
    + assert (Hn : ~ leaves user_id e).
      { rewrite Hl. intros [H1 H2]. rewrite bool_decide_eq_true_2 in El by done. simpl in El.
        apply orb_false_iff in El. rewrite !bool_decide_eq_false in El. naive_solver. }
      intros [= <-]. destruct (allows_ok v is_peeking (JStr (least MEMBERSHIP_PRIORITY a b)) Hv) as [H1 H2].
      assert (Hs : forall s, JStr (least MEMBERSHIP_PRIORITY a b) = JStr s <-> least MEMBERSHIP_PRIORITY a b = s) by naive_solver.
      rewrite Hs, least_join in H1 by done. rewrite !Hs in H2. rewrite H1, H2, !Har.
      pose proof (least_invite a b Ha Hb) as Hi. pose proof (least_join a b Ha Hb) as Hj.
      split; [naive_solver|]. split.
      * intros [?|[[Hvi Hli]|?]]; [left; naive_solver| |by right; right; right].
        destruct (proj1 Hi (or_intror Hli)) as [[?|?]|[?|?]];
          [left; by left|right; right; left; by split; [|left]|left; by right|right; right; left; by split; [|right]].
      * intros [?|[?|[[Hvi Hab]|?]]]; [left; naive_solver|done| |by right; right].
        destruct (proj2 Hi) as [?|?]; [naive_solver|by left|by right; left].
  - assert (Hn : ~ own user_id (pdu e)) by (rewrite <- Hown; done).
    assert (Hnl : ~ leaves user_id e) by (unfold leaves; naive_solver).
    assert (Har : forall m, membership_around user_id e state m <->
      exists ev, dget (EventTypes.Member, user_id) state = Some ev /\ membership ev = Ok (JStr m)).
    { intros m. unfold membership_around. split; [by intros [[? _]|[_ ?]]|by right]. }
    destruct (dget (EventTypes.Member, user_id) state) as [ev|].
    + destruct (membership ev) as [m|] eqn:Em; [|done]. cbn [rbind]. intros [= <-].
      assert (Hm : forall s, membership_around user_id e state s <-> m = JStr s).
      { intros s. rewrite Har. split; [|intros ->; by exists ev].
        intros (ev' & [= <-] & Em'). rewrite Em in Em'. by injection Em'. }
      destruct (allows_ok v is_peeking m Hv) as [H1 H2]. rewrite H1, H2, !Hm. tauto.
    + intros [= <-]. assert (Hm : forall s, ~ membership_around user_id e state s).
      { intros s. rewrite Har. by intros (ev & ? & _). }
      destruct (allows_ok v is_peeking JNull Hv) as [H1 H2]. rewrite H1, H2.
      split; [split; [done|intros [? _]; by destruct (Hm Membership.JOIN)]|].
      split; [intros [?|[[_ ?]|?]]; [done|done|by right; right; right]|].
      intros [?|[?|[[_ ?]|?]]]; [by destruct (Hm Membership.JOIN)|done|by destruct (Hm Membership.INVITE)|by right; right].
Qed.
End rules.

(** * Clients are shown what the rules allow

    The filter of events for one client decides the rules of history visibility, and the
    filter of one event for many clients agrees with it. *)

Section props.
Context `{VisibilityEnv}.

#[local] Instance own_dec user_id e : Decision (own user_id e).
Proof. unfold own. apply _. Defined.

(** ** States that agree on what the rules read *)

Lemma may_see_ext user_id e state state' is_peeking :
  dget _HISTORY_VIS_KEY state = dget _HISTORY_VIS_KEY state' ->
  dget (EventTypes.Member, user_id) state = dget (EventTypes.Member, user_id) state' ->
  (may_see user_id e state is_peeking <-> may_see user_id e state' is_peeking) /\
  (member_may_see user_id e state is_peeking <-> member_may_see user_id e state' is_peeking) /\
  (was_joined user_id e state <-> was_joined user_id e state').
Proof.
  intros Hv Hm. unfold may_see, was_joined, member_may_see, visibility_around, membership_around.
  unfold get_effective_room_visibility_from_state. by rewrite Hv, Hm.
Qed.

Lemma found_filtered f ids k :
  contains f k = true -> dget k (found_events (filter_state f ids)) = dget k (found_events ids).
Proof.
  intros Hk. rewrite filter_state_spec. unfold found_events. induction ids as [|[k' i] ids IH]; [done|].
  simpl. destruct (contains f k') eqn:E; simpl.
  - destruct (stored_event i); simpl; [|exact IH]. case_decide; [done|exact IH].
  - destruct (stored_event i); simpl; [|exact IH]. case_decide; [congruence|exact IH].
Qed.

Lemma states_ids_ok event_ids f m : get_state_ids_for_events event_ids f = Ok m ->
  (forall i ids, dget i m = Some ids ->
     exists full, state_ids_after i = Some full /\ ids = filter_state f full) /\
  (forall i, i ∈ event_ids -> is_Some (dget i m)).
Proof.
  unfold get_state_ids_for_events. rewrite rmap_ok. induction 1 as [|i [i' ids] l m Hi Hl [IH1 IH2]].
  { split; [done|]. by intros i ?%elem_of_nil. }
  destruct (state_ids_after i) as [full|] eqn:E; [|done]. injection Hi as <- <-. split.
  - intros j ids. simpl. case_decide as Hj; [|apply IH1]. intros [= <-]. subst. eauto.
  - intros j [->|Hj]%elem_of_cons; simpl; [by rewrite decide_True|]. case_decide; [by eexists|by apply IH2].
Qed.

Lemma states_ok event_ids f m : get_state_for_events event_ids f = Ok m ->
  (forall i st, dget i m = Some st ->
     exists full, state_ids_after i = Some full /\ st = found_events (filter_state f full)) /\
  (forall i, i ∈ event_ids -> is_Some (dget i m)).
Proof.
  unfold get_state_for_events. destruct (get_state_ids_for_events event_ids f) as [m0|] eqn:E; [|done].
  cbn [rbind]. intros [= <-]. destruct (states_ids_ok _ _ _ E) as [H1 H2].
  assert (Hd : forall i, dget i (map (fun s => (s.1, found_events s.2)) m0) = found_events <$> dget i m0).
  { intros i. clear. induction m0 as [|[j ids] m0 IH]; [done|]. simpl. by case_decide. }
  split; intros i.
  - rewrite Hd. intros st (ids & Hi & ->)%fmap_Some. destruct (H1 i ids Hi) as (full & ? & ->). eauto.
  - rewrite Hd. intros Hi. apply fmap_is_Some. by apply H2.
Qed.

(** ** One event, one client *)

(** Sent to clients at all: not a dummy event or room aliases, and a message only if its
    sender is not ignored and the room still keeps it. *)
Definition for_clients (now : Z) (max_lifetime : option Z) (sender_ignored : bool) (e : event) : Prop :=
  type e <> Dummy /\ type e <> EventTypes.Aliases /\
  (is_state e = true \/
   (sender_ignored = false /\ forall lifetime, max_lifetime = Some lifetime -> now - lifetime <= origin_server_ts e)).

Lemma check_filter_ok e now max_lifetime sender_ignored :
  _check_filter_send_to_client e now max_lifetime sender_ignored = true <->
  for_clients now max_lifetime sender_ignored e.
Proof.
  unfold _check_filter_send_to_client, for_clients.
  case_bool_decide; [naive_solver|]. destruct (is_state e); simpl.
  - case_bool_decide; naive_solver.
  - destruct sender_ignored; [naive_solver|]. case_bool_decide; [naive_solver|].
    destruct max_lifetime as [lifetime|].
    + rewrite negb_true_iff, Z.ltb_ge. split; [|naive_solver]. intros. split_and!; [done|done|right].
      split; [done|]. by intros ? [= <-].
    + split; [|done]. intros _. split_and!; [done|done|by right].
Qed.

(** A change of the visibility that the rules allow for the old visibility alone. *)
Definition boundary_only (user_id : string) (e : event_object) (state : StateMap event)
    (is_peeking : bool) : Prop :=
  type (pdu e) = EventTypes.RoomHistoryVisibility /\ lax (visibility_of (prev_content e)) is_peeking /\
  ~ member_may_see user_id e state is_peeking.

(** The code departs from the rules in one case: it does not send such a change when its sender
    is erased. *)
Definition sent (user_id : string) (e : event_object) (state : StateMap event) (is_peeking erased : bool)
    : Prop :=
  may_see user_id e state is_peeking /\ ~ (erased = true /\ boundary_only user_id e state is_peeking).

Lemma sent_erased user_id e state is_peeking b : (b = true <-> member_may_see user_id e state is_peeking) ->
  sent user_id e state is_peeking true <-> b = true.
Proof.
  intros Hb. unfold sent, boundary_only, may_see, visibility_around. rewrite <- Hb. destruct b; [naive_solver|].
  assert (Hn : ~ member_may_see user_id e state is_peeking) by (rewrite <- Hb; done).
  split; [|done]. intros [[(v & [->|[Ht ->]] & Hl)|?] Hbo]; [|by destruct Hbo|done].
  destruct Hn. by right; right; right.
Qed.

Lemma check_client_ok user_id e now is_peeking always ignored max_lifetime state erased r :
  _check_client_allowed_to_see_event user_id e now true is_peeking always ignored max_lifetime state erased = Ok r ->
  (is_Some r <-> for_clients now max_lifetime ignored (pdu e) /\
     (event_id (pdu e) ∈ always \/
      (outlier (internal_metadata e) = true /\ own user_id (pdu e)) \/
      (outlier (internal_metadata e) = false /\ exists st, state = Some st /\ sent user_id e st is_peeking erased))) /\
  (forall c, r = Some c ->
     if decide (erased = true /\ event_id (pdu e) ∉ always /\ outlier (internal_metadata e) = false)
     then exists st, state = Some st /\
       ((was_joined user_id e st /\ c = e) \/ (~ was_joined user_id e st /\ prune_object e = Ok c))
     else c = e).
Proof.
  unfold _check_client_allowed_to_see_event. cbn [andb].
  destruct (_check_filter_send_to_client _ _ _ _) eqn:Ef; cbn [negb].
  2: { intros [= <-]. split; [|done]. split; [by intros []|]. intros [Hf _]. apply check_filter_ok in Hf. congruence. }
  apply check_filter_ok in Ef. case_bool_decide as Ha.
  { intros [= <-]. split; [naive_solver|]. intros c [= <-]. by rewrite decide_False by naive_solver. }
  destruct (outlier (internal_metadata e)) eqn:Eo.
  { destruct (own_membership (pdu e) user_id) as [o|] eqn:E; [|done]. cbn [rbind]. intros [= <-].
    apply own_membership_ok in E. split; [|intros c Hc; destruct o; [injection Hc as <-|done]; by rewrite decide_False by naive_solver].
    destruct o; [split; [intros _; split; [done|right; left; split; [done|by apply E]]|by eexists]|].
    split; [by intros []|]. intros (_ & [?|[[_ Ho]|[? _]]]); [done| |done]. by apply E in Ho. }
  destruct state as [st|]; [|done].
  destruct (if erased then Ok false else _) as [b|] eqn:Eb; [|done]. cbn [rbind].
  assert (Hlax : b = true <-> erased = false /\ exists v, visibility_around e st v /\ lax v is_peeking).
  { destruct erased; [injection Eb as <-; naive_solver|]. apply check_history_visibility_ok in Eb. naive_solver. }
  destruct b.
  { intros [= <-]. destruct Hlax as [Hlax _]. destruct (Hlax eq_refl) as [-> Hv]. split.
    - split; [|by eexists]. intros _. split; [done|right; right]. split; [done|]. exists st. split; [done|].
      split; [by left|by intros [? _]].
    - intros c [= <-]. by rewrite decide_False by naive_solver. }
  assert (Hnl : erased = false -> ~ exists v, visibility_around e st v /\ lax v is_peeking).
  { intros He Hv. destruct Hlax as [_ Hlax]. by discriminate Hlax. }
  clear Hlax Eb. destruct (_check_membership _ _ _ _ _) as [mr|] eqn:Em; [|done]. cbn [rbind].
  destruct (check_membership_ok _ _ _ _ _ Em) as [Hj Hal].
  assert (Hrule : sent user_id e st is_peeking erased <-> allowed mr = true).
  { destruct erased; [by apply sent_erased|]. unfold sent, may_see. rewrite Hal. naive_solver. }
  assert (Hiff : forall r' : option event_object, (is_Some r' <-> allowed mr = true) ->
    is_Some r' <-> for_clients now max_lifetime ignored (pdu e) /\
     (event_id (pdu e) ∈ always \/ (false = true /\ own user_id (pdu e)) \/
      (false = false /\ exists st0, Some st = Some st0 /\ sent user_id e st0 is_peeking erased))).
  { intros r' ->. rewrite <- Hrule. split; [intros ?; split; [done|right; right; split; [done|by exists st]]|].
    intros (_ & [?|[[? _]|[_ (st0 & [= <-] & ?)]]]); done. }
  destruct (allowed mr) eqn:Eal; cbn [negb].
  2: { intros [= <-]. split; [apply Hiff; split; [by intros []|done]|done]. }
  destruct (erased && negb (joined mr)) eqn:Ee.
  - apply andb_true_iff in Ee as [-> Hn]. apply negb_true_iff in Hn.
    destruct (prune_object e) as [p|] eqn:Ep; [|done]. cbn [rbind]. intros [= <-].
    split; [apply Hiff; split; [done|by eexists]|]. intros c [= <-]. rewrite decide_True by done.
    exists st. split; [done|]. right. split; [|done]. rewrite <- Hj. congruence.
  - intros [= <-]. split; [apply Hiff; split; [done|by eexists]|]. intros c [= <-].
    case_decide as Hd; [|done]. destruct Hd as (-> & _). simpl in Ee. apply negb_false_iff in Ee.
    exists st. split; [done|]. left. split; [by apply Hj|done].
Qed.

(** ** Many events, one client *)

(** The state after an event, as far as its events are stored. *)
Definition state_after (e : event_object) (st : StateMap event) : Prop :=
  exists full, state_ids_after (event_id (pdu e)) = Some full /\ st = found_events full.

(** A call in a room that anyone can join. *)
Definition public_call (events : list event_object) (e : event_object) : Prop :=
  is_call_invite (pdu e) = true /\
  (exists e', e' ∈ events /\ is_soft_failed (internal_metadata e') = false /\ is_call_invite (pdu e') = true) /\
  exists st rules, state_after e st /\ dget (EventTypes.JoinRules, "") st = Some rules /\
  oget (content rules) "join_rule" JNull = JStr JoinRules.PUBLIC.

Definition room_lifetime (e : event) : option Z :=
  match room_id e with Ok room_id => retention_policy room_id | Err _ => None end.

Definition visible (user_id : string) (now : Z) (events : list event_object) (is_peeking : bool)
    (always : gset string) (e : event_object) : Prop :=
  for_clients now (room_lifetime (pdu e)) (bool_decide (sender (pdu e) ∈ ignored_users user_id)) (pdu e) /\
  ~ public_call events e /\
  (event_id (pdu e) ∈ always \/
   (outlier (internal_metadata e) = true /\ own user_id (pdu e)) \/
   (outlier (internal_metadata e) = false /\
    exists st, state_after e st /\ sent user_id e st is_peeking (users_erased (sender (pdu e))))).

(** The user's membership after the event. *)
Definition membership_after (user_id : string) (e : event_object) (m : json) : Prop :=
  if decide (own user_id (pdu e)) then membership (pdu e) = Ok m
  else exists st, state_after e st /\
    match dget (EventTypes.Member, user_id) st with
    | Some ev => membership ev = Ok m
    | None => m = JStr Membership.LEAVE
    end.

(** What is shown: the event with the user's membership, pruned where its sender has been
    erased and the user was not there. *)
Definition shown (user_id : string) (always : gset string) (e c : event_object) : Prop :=
  exists m p, c = set_unsigned "membership" m (clone_event p) /\ membership_after user_id e m /\
  if decide (users_erased (sender (pdu e)) = true /\ event_id (pdu e) ∉ always /\
             outlier (internal_metadata e) = false)
  then exists st, state_after e st /\
    ((was_joined user_id e st /\ p = e) \/ (~ was_joined user_id e st /\ prune_object e = Ok p))
  else p = e.

Lemma types_contain user_id events :
  contains (from_types (state_types user_id events)) _HISTORY_VIS_KEY = true /\
  contains (from_types (state_types user_id events)) (EventTypes.Member, user_id) = true /\
  (contains (from_types (state_types user_id events)) (EventTypes.JoinRules, "") = true <->
   exists e, e ∈ events /\ is_soft_failed (internal_metadata e) = false /\ is_call_invite (pdu e) = true).
Proof.
  unfold _HISTORY_VIS_KEY. rewrite !from_types_contains. unfold state_types. split_and!.
  - apply orb_true_iff. right. apply bool_decide_eq_true, elem_of_app. left. by left.
  - apply orb_true_iff. right. apply bool_decide_eq_true, elem_of_app. left. by right; left.
  - set (call := existsb _ events).
    assert (Hc : call = true <-> exists e, e ∈ events /\
      is_soft_failed (internal_metadata e) = false /\ is_call_invite (pdu e) = true).
    { unfold call. rewrite existsb_exists. split; intros (x & Hx & Hb); exists x; revert Hb;
        rewrite andb_true_iff, negb_true_iff; (split; [by apply list_elem_of_In|done]). }
    rewrite <- Hc. destruct call; [by split|]. split; [|done]. by vm_compute.
Qed.

(** What is fetched agrees with the whole state on the keys that are read. *)
Definition agrees (f : StateFilter) (st full : StateMap event) : Prop :=
  forall k, contains f k = true -> dget k st = dget k full.

Lemma fetched_ok user_id events event_ids m :
  get_state_for_events event_ids (from_types (state_types user_id events)) = Ok m ->
  (forall e st, dget (event_id (pdu e)) m = Some st ->
     exists full, state_after e full /\ agrees (from_types (state_types user_id events)) st full) /\
  (forall i, i ∈ event_ids -> is_Some (dget i m)) /\
  (forall e st, dget (event_id (pdu e)) m = Some st -> contains (from_types (state_types user_id events)) (EventTypes.JoinRules, "") = false ->
     dget (EventTypes.JoinRules, "") st = None).
Proof.
  intros [H1 H2]%states_ok. split_and!; [|done|]; intros e st Hst; destruct (H1 _ _ Hst) as (ids & Hids & ->).
  - exists (found_events ids). split; [by exists ids|]. intros k Hk. by apply found_filtered.
  - intros Hk. rewrite filter_state_spec. unfold found_events. clear -Hk. induction ids as [|[k i] ids IH]; [done|].
    simpl. destruct (contains _ k) eqn:E; simpl; [|exact IH].
    destruct (stored_event i); simpl; [|exact IH]. case_decide; [congruence|exact IH].
Qed.

Lemma state_after_fun e st st' : state_after e st -> state_after e st' -> st = st'.
Proof. intros (? & Hs & ->) (? & Hs' & ->). rewrite Hs in Hs'. by injection Hs' as ->. Qed.

Lemma rules_agree user_id events e st full is_peeking erased :
  agrees (from_types (state_types user_id events)) st full ->
  (sent user_id e st is_peeking erased <-> sent user_id e full is_peeking erased) /\
  (was_joined user_id e st <-> was_joined user_id e full).
Proof.
  intros Ha. destruct (types_contain user_id events) as (Hv & Hm & _).
  destruct (may_see_ext user_id e st full is_peeking (Ha _ Hv) (Ha _ Hm)) as (H1 & H2 & H3).
  split; [|done]. unfold sent, boundary_only. by rewrite H1, H2.
Qed.

(** The membership the event is annotated with. *)
Lemma user_membership_ok user_id events m e v :
  get_state_for_events m (from_types (state_types user_id events)) = Ok v ->
  forall r, user_membership user_id (pdu e) (dget (event_id (pdu e)) v) = Ok r -> membership_after user_id e r.
Proof.
  intros (Hf & _)%fetched_ok r. unfold user_membership, membership_after.
  destruct (own_membership (pdu e) user_id) as [o|] eqn:Eo; [|done]. cbn [rbind].
  apply own_membership_ok in Eo. destruct o; [by rewrite decide_True by (by apply Eo)|].
  rewrite decide_False by (rewrite <- Eo; done).
  destruct (dget _ v) as [st|] eqn:Est; [|done]. destruct (Hf e st Est) as (full & Hfull & Ha).
  intros Hr. exists full. split; [done|]. rewrite <- Ha by (by apply types_contain).
  destruct (dget _ st); [done|by injection Hr as <-].
Qed.

(** Whether a call rings. *)
Lemma rings_ok user_id events ids m e rings :
  get_state_for_events ids (from_types (state_types user_id events)) = Ok m ->
  (if is_call_invite (pdu e) then
     match dget (event_id (pdu e)) m with
     | None => Err AssertionError
     | Some state => Ok match dget (EventTypes.JoinRules, "") state with
                        | Some rules => jeqs (oget (content rules) "join_rule" JNull) JoinRules.PUBLIC
                        | None => false
                        end
     end
   else Ok false) = Ok rings ->
  (rings = true <-> public_call events e).
Proof.
  intros (Hf & _ & Hn)%fetched_ok. unfold public_call. destruct (is_call_invite (pdu e)).
  2: { intros [= <-]. split; [done|]. by intros (? & _). }
  destruct (dget _ m) as [st|] eqn:Est; [|done]. intros [= Hr].
  destruct (Hf e st Est) as (full & Hfull & Ha). destruct (types_contain user_id events) as (_ & _ & Hj).
  assert (Heqs : forall j, jeqs j JoinRules.PUBLIC = true <-> j = JStr JoinRules.PUBLIC).
  { intros j. unfold jeqs. destruct j; simpl; try done. rewrite bool_decide_eq_true. split; congruence. }
  destruct (contains _ (EventTypes.JoinRules, "")) eqn:Ec.
  - rewrite (Ha _ Ec) in Hr. split.
    + intros ->. split_and!; [done|by apply Hj|]. destruct (dget _ full) as [rules|] eqn:Er; [|done].
      exists full, rules. split_and!; [done..|by apply Heqs].
    + intros (_ & _ & st' & rules & Hs & Hd & Hp). rewrite (state_after_fun _ _ _ Hs Hfull) in Hd.
      rewrite Hd in Hr. rewrite <- Hr. by apply Heqs.
  - rewrite (Hn e st Est eq_refl) in Hr. split; [congruence|]. intros (_ & Hcall & _). by apply Hj in Hcall.
Qed.

Lemma allowed_event_ok user_id now is_peeking always events ids m e r :
  get_state_for_events ids (from_types (state_types user_id events)) = Ok m ->
  (outlier (internal_metadata e) = false -> event_id (pdu e) ∈ ids) ->
  allowed_event user_id now is_peeking always true m e = Ok r ->
  (is_Some r <-> visible user_id now events is_peeking always e) /\
  (forall c, r = Some c -> shown user_id always e c).
Proof.
  intros Hm Hin. destruct (fetched_ok _ _ _ _ Hm) as (Hf & Hfetch & _).
  unfold allowed_event. cbn [negb]. unfold visible, room_lifetime.
  destruct (room_id (pdu e)) as [room|]; [|done]. cbn [rbind].
  destruct (_check_client_allowed_to_see_event _ _ _ _ _ _ _ _ _ _) as [filtered|] eqn:Ec; [|done].
  cbn [rbind]. destruct (check_client_ok _ _ _ _ _ _ _ _ _ _ Ec) as [Hsome Hshape]. clear Ec.
  set (room_for := for_clients _ _ _ _) in *. set (erased := users_erased _) in *.
  assert (Hstate : outlier (internal_metadata e) = false ->
    exists st full, dget (event_id (pdu e)) m = Some st /\ state_after e full /\
      agrees (from_types (state_types user_id events)) st full).
  { intros Ho. destruct (Hfetch _ (Hin Ho)) as [st Hst]. destruct (Hf e st Hst) as (full & ? & ?). by exists st, full. }
  assert (Hvis : is_Some filtered <-> room_for /\
     (event_id (pdu e) ∈ always \/ (outlier (internal_metadata e) = true /\ own user_id (pdu e)) \/
      (outlier (internal_metadata e) = false /\
       exists st, state_after e st /\ sent user_id e st is_peeking erased))).
  { rewrite Hsome. apply and_iff_compat_l, or_iff_compat_l, or_iff_compat_l.
    split; intros [Ho (st & Hst & Hr)]; (split; [done|]);
      destruct (Hstate Ho) as (st0 & full & Hd & Hfull & Ha);
      destruct (rules_agree user_id events e st0 full is_peeking erased Ha) as [Hra _].
    - rewrite Hst in Hd. injection Hd as ->. exists full. split; [done|]. by apply Hra.
    - rewrite (state_after_fun _ _ _ Hst Hfull) in Hr. exists st0. split; [done|]. by apply Hra. }
  clear Hsome. destruct filtered as [p|].
  2: { intros [= <-]. split; [|done]. split; [by intros []|]. intros (Hr & _ & Hrest).
       destruct Hvis as [_ []]; by try split. }
  destruct (if is_call_invite (pdu e) then _ else _) as [rings|] eqn:Er; [|done]. cbn [rbind].
  pose proof (rings_ok _ _ _ _ _ _ Hm Er) as Hrings. clear Er. destruct rings.
  { intros [= <-]. split; [|done]. split; [by intros []|]. intros (_ & Hnr & _). by destruct Hnr; apply Hrings. }
  destruct (user_membership _ _ _) as [mem|] eqn:Emem; [|done]. cbn [rbind]. intros [= <-].
  destruct (proj1 Hvis (mk_is_Some _ _ eq_refl)) as [Hroom Hcases]. split.
  { split; [intros _|by eexists]. split_and!; [done| |done]. intros Hpub. by apply Hrings in Hpub. }
  intros c [= <-]. exists mem, p. split_and!; [done|by eapply user_membership_ok|].
  specialize (Hshape p eq_refl). fold erased. case_decide as Hd; [|done].
  destruct Hshape as (st & Hst & Hcase). destruct Hd as (_ & _ & Ho).
  destruct (Hstate Ho) as (st0 & full & Hd0 & Hfull & Ha). rewrite Hst in Hd0. injection Hd0 as ->.
  destruct (rules_agree user_id events e st0 full is_peeking erased Ha) as [_ Hj].
  exists full. split; [done|]. by rewrite <- Hj.
Qed.

End props.

(** ** One event, many clients *)

Section clients.
Context `{VisibilityEnv} (ignored_by : string -> gset string) (get_prev_state_ids : StateMap string).

(** The whole state after an event, given the state before it. *)
Definition with_event (e : event_object) : StateMap event :=
  match get_state_key (pdu e) with
  | Some k => dset (type (pdu e), k) (pdu e) (found_events get_prev_state_ids)
  | None => found_events get_prev_state_ids
  end.

Lemma state_map_ok e f k :
  contains f k = true -> dget k (_get_state_map get_prev_state_ids e f) = dget k (with_event e).
Proof.
  intros Hk. unfold _get_state_map, with_event.
  destruct (get_state_key (pdu e)) as [sk|]; rewrite ?dget_dset; [case_decide; [done|]|]; by apply found_filtered.
Qed.

Lemma check_membership_ext user_id e v state state' is_peeking :
  dget (EventTypes.Member, user_id) state = dget (EventTypes.Member, user_id) state' ->
  _check_membership user_id e v state is_peeking = _check_membership user_id e v state' is_peeking.
Proof. intros Hs. unfold _check_membership. by rewrite Hs. Qed.

Lemma checked_in (f : string -> result check_membership_return) l checked z :
  rmap (fun u => let* m := f u in Ok (u, allowed m)) l = Ok checked ->
  z ∈ map fst (List.filter snd checked) -> z ∈ l.
Proof.
  intros Hc%rmap_ok. induction Hc as [|x [y b] l checked Hx Hc IH]; [by intros ?%elem_of_nil|].
  destruct (f x) as [m|]; [|done]. injection Hx as <- <-. simpl. destruct (allowed m); simpl.
  - intros [->|Hz]%elem_of_cons; [by left|right; by apply IH].
  - intros Hz. right. by apply IH.
Qed.

Lemma checked_ok (f : string -> result check_membership_return) l checked u :
  rmap (fun u => let* m := f u in Ok (u, allowed m)) l = Ok checked -> u ∈ l -> NoDup l ->
  exists m, f u = Ok m /\ (allowed m = true <-> u ∈ map fst (List.filter snd checked)).
Proof.
  intros Hc%rmap_ok Hu Hnd. induction Hc as [|x [y b] l checked Hx Hc IH]; [by apply elem_of_nil in Hu|].
  destruct (f x) as [m|] eqn:Ef; [|done]. injection Hx as <- <-.
  apply NoDup_cons in Hnd as [Hn Hnd]. apply elem_of_cons in Hu as [->|Hu].
  - exists m. split; [done|]. simpl. destruct (allowed m) eqn:Em; simpl.
    + split; [by left|done].
    + split; [done|]. intros Hin. destruct Hn. eapply checked_in; [|exact Hin]. by apply rmap_ok.
  - destruct (IH Hu Hnd) as (m' & Hm' & Hiff). exists m'. split; [done|]. rewrite Hiff. simpl.
    destruct (allowed m); simpl; [|done]. split; [by right|]. by intros [->|?]%elem_of_cons.
Qed.

(** (equivalence) The two filters agree.  For an event that is not soft-failed, the filter
    of one event for many clients keeps exactly the users for whom the filter of events for one
    client, run on the state after that event, keeps it, when the sender is not erased and the
    event is not asked for anyway; and where the first returns, so does the second. *)
Theorem clients_paths_agree user_ids e now is_peeking s u :
  filter_event_for_clients_with_state ignored_by get_prev_state_ids user_ids e now is_peeking true = Ok s ->
  is_soft_failed (internal_metadata e) = false -> u ∈ user_ids ->
  _check_client_allowed_to_see_event u e now true is_peeking ∅
    (bool_decide (u ∈ ignored_by (sender (pdu e)))) (room_lifetime (pdu e))
    (if outlier (internal_metadata e) then None else Some (with_event e)) false
  = Ok (if bool_decide (u ∈ s) then Some e else None).
Proof.
  unfold filter_event_for_clients_with_state. intros Hs Hsoft Hu. rewrite Hsoft in Hs.
  destruct user_ids as [|u0 us]; [by apply elem_of_nil in Hu|]. set (user_ids := u0 :: us) in *. clearbody user_ids.
  unfold room_lifetime. destruct (room_id (pdu e)) as [room|]; [|done]. cbn [rbind] in Hs.
  set (send u := _check_filter_send_to_client (pdu e) now (retention_policy room) (bool_decide (u ∈ ignored_by (sender (pdu e))))).
  set (allowed_ids := list_to_set (List.filter _ user_ids)) in Hs.
  assert (Ha : u ∈ allowed_ids <-> send u = true).
  { unfold allowed_ids. rewrite elem_of_list_to_set, list_elem_of_In, filter_In, <- list_elem_of_In. tauto. }
  unfold _check_client_allowed_to_see_event. fold (send u). cbn [andb].
  rewrite (bool_decide_eq_false_2 (_ ∈ ∅)) by set_solver.
  assert (Hif : forall b : bool, (b = true <-> u ∈ s) ->
    Ok (if b then Some e else None) = Ok (if bool_decide (u ∈ s) then Some e else None)).
  { clear Hs. intros b Hb. case_bool_decide as Hin; destruct b; [done| | |done].
    - by discriminate (proj2 Hb Hin).
    - by destruct Hin; apply Hb. }
  destruct (send u) eqn:Eu; cbn [negb].
  2: { apply (Hif false). split; [done|]. intros Hin. apply Ha. revert Hs Hin. clear -Hu.
       destruct (outlier _).
       - case_bool_decide; [|by intros [= <-] ?%not_elem_of_empty].
         destruct (state_key _) as [k|]; [|done]. cbn [rbind]. intros [= <-]. case_bool_decide; set_solver.
       - destruct (_check_history_visibility _ _ _) as [[]|]; [by intros [= <-]| |done]. cbn [rbind].
         destruct (rmap _ _) as [checked|] eqn:Ec; [|done]. cbn [rbind]. intros [= <-].
         rewrite elem_of_list_to_set. intros Hin. by apply elem_of_elements, (checked_in _ _ _ _ Ec). }
  destruct (outlier (internal_metadata e)).
  - unfold own_membership. destruct (bool_decide (_ = EventTypes.Member)); [|injection Hs as <-; apply (Hif false); set_solver].
    destruct (state_key (pdu e)) as [k|]; [|done]. cbn [rbind] in Hs |- *. injection Hs as <-. apply Hif.
    rewrite bool_decide_eq_true. case_bool_decide as Hk; [set_solver|].
    split; [intros ->; by destruct Hk; apply Ha|by intros ?%not_elem_of_empty].
  - assert (Hv : get_effective_room_visibility_from_state
        (_get_state_map get_prev_state_ids e (from_types [(EventTypes.RoomHistoryVisibility, Some "")]))
        = get_effective_room_visibility_from_state (with_event e)).
    { unfold get_effective_room_visibility_from_state. by rewrite state_map_ok. }
    rewrite Hv in Hs. destruct (_check_history_visibility _ _ _) as [[]|]; [| |done]; cbn [rbind] in Hs |- *.
    { apply (Hif true). injection Hs as <-. by rewrite Ha. }
    destruct (rmap _ _) as [checked|] eqn:Ec; [|done]. cbn [rbind] in Hs. injection Hs as <-.
    destruct (checked_ok _ _ _ u Ec) as (m & Hm & Hiff); [by apply elem_of_elements, Ha|apply NoDup_elements|].
    rewrite (check_membership_ext _ _ _ _ (with_event e)) in Hm.
    2: { apply state_map_ok. rewrite from_types_contains. apply orb_true_iff. right.
         apply bool_decide_eq_true, elem_of_app. left. apply list_elem_of_In, in_map_iff. exists u.
         split; [done|]. by apply list_elem_of_In, elem_of_elements, Ha. }
    rewrite Hm. cbn [rbind andb]. rewrite <- (Hif (allowed m)); [by destruct (allowed m)|].
    by rewrite Hiff, elem_of_list_to_set.
Qed.
End clients.

(** ** Witnesses *)

(** A room that only members see: an admin, who has joined, ignores one of the senders, and
    the sender of the last event has been erased. *)
Definition vis_event : event :=
  mk_event rv11 "vis" EventTypes.RoomHistoryVisibility "@admin:a" (Some "")
    [("history_visibility", JStr HistoryVisibility.JOINED)] ["$x"] [].
Definition message_of (id snd : string) : event :=
  mk_event rv11 id "m.room.message" snd None [("body", JStr "hi")] ["$x"] [].

(** Whether an event object is soft-failed, and whether it is an outlier. *)
#[local] Instance sample_metadata : EventMetadata := {|
  metadata := bool * bool;
  is_soft_failed := fst;
  outlier := snd;
  policy_server_spammy := fun _ => false;
  copied := id;
  redacted := id |}.

Definition obj_of (e : event) : event_object :=
  {| pdu := e; unsigned := []; internal_metadata := (false, false) |}.

Definition vis_state : StateMap string :=
  [(_HISTORY_VIS_KEY, "$vis"); ((EventTypes.Member, "@admin:a"), "$m@admin:a")].

#[local] Instance sample_visibility : VisibilityEnv := {|
  state_ids_after := fun _ => Some vis_state;
  stored_event := fun i => if String.eqb i "$vis" then Some (obj_of vis_event)
                           else if String.eqb i "$m@admin:a" then Some (obj_of (ev_member "@admin:a" "join"))
                           else None;
  ignored_users := fun u => if String.eqb u "@admin:a" then {["@spam:a"]} else ∅;
  users_erased := String.eqb "@gone:a";
  retention_policy := fun _ => None;
  is_server_admin := fun _ => false;
  return_soft_failed_events := fun _ => false;
  return_policy_server_spammy_events := fun _ => false;
  is_partial_state_room := fun _ => false;
  event_visible_to_server := fun _ _ _ _ _ _ => Ok true |}.

Definition seen_messages : list event_object :=
  [obj_of (message_of "one" "@bob:a"); obj_of (message_of "two" "@spam:a"); obj_of (message_of "three" "@gone:a")].
Definition shown_messages : list event_object :=
  map (fun e => set_unsigned "membership" (JStr "join") (clone_event e))
    [obj_of (message_of "one" "@bob:a"); obj_of (message_of "three" "@gone:a")].


(** The change from shared to joined is sent to a stranger, but not when its sender is erased. *)
Example erased_boundary_hidden :
  let change := {| pdu := vis_event; internal_metadata := (false, false);
    unsigned := [("prev_content", JObj [("history_visibility", JStr HistoryVisibility.SHARED)])] |} in
  let answer erased := (fun r : option event_object => bool_decide (is_Some r)) <$>
    match _check_client_allowed_to_see_event "@eve:a" change 5 true false ∅ false None
            (Some (with_event vis_state change)) erased with Ok r => Some r | Err _ => None end in
  (answer false, answer true) = (Some true, Some false).
Proof. vm_compute. reflexivity. Qed.

(** His own ban is not sent to a user when only members may see the room, unless it is an outlier. *)
Example own_ban_not_sent :
  let ban out := {| pdu := ev_member "@eve:a" "ban"; internal_metadata := (false, out);
    unsigned := [] |} in
  let answer out := (fun r : option event_object => bool_decide (is_Some r)) <$>
    match _check_client_allowed_to_see_event "@eve:a" (ban out) 5 true false ∅ false None
            (Some (with_event vis_state (ban out))) false with Ok r => Some r | Err _ => None end in
  (answer false, answer true) = (Some false, Some true).
Proof. vm_compute. reflexivity. Qed.

Example strangers_see_nothing :
  filter_and_transform_events_for_client "@eve:a" 5 seen_messages false ∅ true = Ok [].
Proof. reflexivity. Qed.

Lemma clients_paths_agree_witness :
  filter_event_for_clients_with_state (fun _ => ∅) vis_state ["@admin:a"; "@eve:a"]
    (obj_of (message_of "one" "@bob:a")) 5 false true = Ok {["@admin:a"]} /\
  _check_client_allowed_to_see_event "@eve:a" (obj_of (message_of "one" "@bob:a")) 5 true false ∅
    false None (Some (with_event vis_state (obj_of (message_of "one" "@bob:a")))) false = Ok None.
Proof.
  assert (Hr : filter_event_for_clients_with_state (fun _ => ∅) vis_state ["@admin:a"; "@eve:a"]
    (obj_of (message_of "one" "@bob:a")) 5 false true = Ok {["@admin:a"]}) by reflexivity.
  split; [exact Hr|].
  apply (clients_paths_agree (fun _ => ∅) vis_state ["@admin:a"; "@eve:a"]
           (obj_of (message_of "one" "@bob:a")) 5 false {["@admin:a"]} "@eve:a" Hr eq_refl).
  by right; left.
Defined.
