(* ===== verification/LinkedList.v ===== *)
(** * LinkedList: circular doubly linked lists (util/linked_list.py)

    The nodes live in a store and point to each other.  [lists h R] says what the store [h]
    stands for: [R] gives for each root the nodes that follow it, and no node is in two
    places.  A method that finds its node where [R] says it is does to [R] what its name
    says, and leaves what the other nodes hold alone.  The lock around the pointers is left
    out: no method waits. *)
From S2P Require Import Prelude PyState.
Open Scope Z_scope.
Open Scope st_scope.

Abbreviation loc := positive.

(** A plain [ListNode], or a [_TimedListNode] of util/caches/lrucache.py once it was used. *)
Record ListNode {P : Type} := {
  cache_entry : option P;
  prev_node : option loc;
  next_node : option loc;
  last_access_ts_secs : option Z
}.
Arguments ListNode : clear implicits.

Section linked_list.
Context {P : Type}.
Abbreviation heap := (gmap loc (ListNode P)).
Abbreviation ListM := (St heap).
Implicit Types (h : heap).

(** ** The attributes of a node *)

Definition deref (n : loc) : ListM (ListNode P) :=
  fun h => match h !! n with Some x => (Ok x, h) | None => (Err AttributeError, h) end.

Definition set_prev (p : option loc) (x : ListNode P) : ListNode P :=
  {| cache_entry := cache_entry x; prev_node := p; next_node := next_node x;
     last_access_ts_secs := last_access_ts_secs x |}.
Definition set_next (q : option loc) (x : ListNode P) : ListNode P :=
  {| cache_entry := cache_entry x; prev_node := prev_node x; next_node := q;
     last_access_ts_secs := last_access_ts_secs x |}.
Definition set_entry (e : option P) (x : ListNode P) : ListNode P :=
  {| cache_entry := e; prev_node := prev_node x; next_node := next_node x;
     last_access_ts_secs := last_access_ts_secs x |}.
Definition set_access (t : option Z) (x : ListNode P) : ListNode P :=
  {| cache_entry := cache_entry x; prev_node := prev_node x; next_node := next_node x;
     last_access_ts_secs := t |}.

Definition assign (n : loc) (f : ListNode P -> ListNode P) : ListM unit := st_modify (alter f n).

(** ** The methods *)

Definition new_node (e : option P) : ListM loc := fun h =>
  let n := fresh (dom h) in
  (Ok n, <[n := {| cache_entry := e; prev_node := None; next_node := None; last_access_ts_secs := None |}]> h).

Definition create_root_node : ListM loc :=
  let! root := new_node None in
  assign root (set_prev (Some root)) ;;!
  assign root (set_next (Some root)) ;;!
  st_ret root.

Definition _refs_remove_node_from_list (self : loc) : ListM unit :=
  let! x := deref self in
  match prev_node x, next_node x with
  | Some prev, Some next =>
      assign prev (set_next (Some next)) ;;!
      assign next (set_prev (Some prev)) ;;!
      assign self (set_prev None) ;;!
      assign self (set_next None)
  | _, _ => st_ret tt
  end.

Definition _refs_insert_after (self node : loc) : ListM unit :=
  let! x := deref self in
  let! y := deref node in
  match prev_node x, next_node x, next_node y, prev_node y with
  | None, None, Some next, Some _ =>
      assign self (set_prev (Some node)) ;;!
      assign self (set_next (Some next)) ;;!
      assign node (set_next (Some self)) ;;!
      assign next (set_prev (Some self))
  | _, _, _, _ => st_raise AssertionError
  end.

Definition insert_after (e : P) (node : loc) : ListM loc :=
  let! n := new_node (Some e) in
  _refs_insert_after n node ;;! st_ret n.

Definition remove_from_list (self : loc) : ListM unit :=
  _refs_remove_node_from_list self ;;! assign self (set_entry None).

Definition move_after (self node : loc) : ListM unit :=
  let! x := deref self in
  let! y := deref node in
  match prev_node x, next_node x, prev_node y, next_node y with
  | Some _, Some _, Some _, Some _ =>
      if decide (self = node) then st_raise AssertionError
      else _refs_remove_node_from_list self ;;! _refs_insert_after self node
  | _, _, _, _ => st_raise AssertionError
  end.

Definition get_cache_entry (self : loc) : ListM (option P) :=
  let! x := deref self in st_ret (cache_entry x).

(** [_TimedListNode.update_last_access], at the time [now]. *)
Definition update_last_access (self : loc) (now : Z) : ListM unit := assign self (set_access (Some now)).

(** ** What a store stands for *)

Definition prv (h : heap) (n : loc) : option loc := h !! n ≫= prev_node.
Definition nxt (h : heap) (n : loc) : option loc := h !! n ≫= next_node.
Definition held (h : heap) (n : loc) : option P := h !! n ≫= cache_entry.
Definition accessed (h : heap) (n : loc) : option Z := h !! n ≫= last_access_ts_secs.

(** From [a] the nodes [xs] lead to [z], and back. *)
Fixpoint dseg (h : heap) (a : loc) (xs : list loc) (z : loc) : Prop :=
  match xs with
  | [] => nxt h a = Some z /\ prv h z = Some a
  | x :: xs => nxt h a = Some x /\ prv h x = Some a /\ dseg h x xs z
  end.

Record lists (h : heap) (R : gmap loc (list loc)) : Prop := {
  lists_seg r xs : R !! r = Some xs -> dseg h r xs r;
  lists_nodup r xs : R !! r = Some xs -> NoDup (r :: xs);
  lists_apart r xs r' xs' x : R !! r = Some xs -> R !! r' = Some xs' -> x ∈ r :: xs -> x ∈ r' :: xs' -> r = r'
}.

(** ** Segments *)

Lemma dseg_app h a xs y ys z : dseg h a (xs ++ y :: ys) z <-> dseg h a xs y /\ dseg h y ys z.
Proof. revert a. induction xs as [|x xs IH]; intros a; simpl; [tauto|]. rewrite IH. tauto. Qed.

Lemma dseg_first h a xs z : dseg h a xs z -> nxt h a = Some (hd z xs).
Proof. destruct xs; simpl; tauto. Qed.

Lemma last_default (a x : loc) xs : default a (last (x :: xs)) = default x (last xs).
Proof. rewrite last_cons. by destruct (last xs). Qed.

Lemma dseg_last h a xs z : dseg h a xs z -> prv h z = Some (default a (last xs)).
Proof.
  revert a. induction xs as [|x xs IH]; intros a; simpl; [tauto|]. intros (_ & _ & Hd).
  by rewrite (IH _ Hd), <- (last_default a).
Qed.

Lemma dseg_frame h h' a xs z : dseg h a xs z ->
  (forall x, x ∈ a :: xs -> nxt h' x = nxt h x) -> (forall x, x ∈ xs ++ [z] -> prv h' x = prv h x) -> dseg h' a xs z.
Proof.
  revert a. induction xs as [|x xs IH]; intros a; simpl.
  - intros [Hn Hp] Hnx Hpv. by rewrite Hnx, Hpv by left.
  - intros (Hn & Hp & Hd) Hnx Hpv. rewrite Hnx, Hpv by left. split; [done|]. split; [done|].
    apply IH; [done|..]; intros y Hy; [apply Hnx|apply Hpv]; by right.
Qed.

(** A node taken out from between its neighbours. *)
Lemma dseg_unlink h h' a xs n ys z : dseg h a (xs ++ n :: ys) z ->
  NoDup (a :: xs ++ n :: ys) -> z ∉ xs ++ n :: ys ->
  (forall x, x <> n -> nxt h' x = if decide (x = default a (last xs)) then Some (hd z ys) else nxt h x) ->
  (forall x, x <> n -> prv h' x = if decide (x = hd z ys) then Some (default a (last xs)) else prv h x) ->
  dseg h' a (xs ++ ys) z.
Proof.
  revert a. induction xs as [|x xs IH]; intros a Hd Hnd Hz Hnx Hpv.
  - simpl in *. destruct Hd as (_ & _ & Hd). rewrite NoDup_cons, not_elem_of_cons in Hnd. destruct Hnd as [[Han Hay] Hnd].
    rewrite not_elem_of_cons in Hz. destruct Hz as [Hzn Hzy].
    apply NoDup_cons in Hnd as [Hny Hnd].
    destruct ys as [|y ys]; simpl in *.
    { by rewrite Hnx, Hpv, !decide_True by done. }
    rewrite not_elem_of_cons in Hay, Hny, Hzy. destruct Hay as [Hay Hays], Hny as [Hny Hnys], Hzy as [Hzy Hzys].
    apply NoDup_cons in Hnd as [Hyy Hnd]. destruct Hd as (_ & _ & Hd).
    rewrite Hnx, Hpv, !decide_True by done. split; [done|]. split; [done|].
    eapply dseg_frame; [exact Hd|..]; intros x Hx.
    + rewrite Hnx, decide_False; [done|..]; set_solver.
    + rewrite Hpv, decide_False; [done|..]; set_solver.
  - simpl in Hd. destruct Hd as (Hn & Hp & Hd). simpl in Hnd. apply NoDup_cons in Hnd as [Ha Hnd].
    rewrite last_default in Hnx, Hpv.
    assert (Hlast : default x (last xs) ∈ x :: xs).
    { destruct (last xs) as [l|] eqn:E; [|left]. right. by apply last_Some_elem_of. }
    simpl. split_and!.
    + rewrite Hnx, decide_False; [done|..]; [|set_solver]. intros ->. set_solver.
    + rewrite Hpv; [|apply NoDup_cons in Hnd; set_solver]. rewrite decide_False; [done|].
      intros ->. apply NoDup_cons in Hnd as [Hx _]. destruct ys; set_solver.
    + apply IH; [done|done|set_solver|done|done].
Qed.

(** A node put in after [a]. *)
Lemma dseg_link h h' a xs n z : dseg h a xs z -> NoDup (a :: xs) -> z ∉ xs -> n ∉ a :: z :: xs ->
  nxt h' a = Some n -> nxt h' n = Some (hd z xs) -> prv h' n = Some a -> prv h' (hd z xs) = Some n ->
  (forall x, x <> n -> x <> a -> nxt h' x = nxt h x) ->
  (forall x, x <> n -> x <> hd z xs -> prv h' x = prv h x) ->
  dseg h' a (n :: xs) z.
Proof.
  intros Hd Hnd Hz Hn Han Hnn Hna Hhn Hnx Hpv. simpl. split_and!; [done|done|].
  destruct xs as [|x xs]; simpl in *; [done|]. destruct Hd as (_ & _ & Hd).
  split_and!; [done|done|]. rewrite !NoDup_cons in Hnd. destruct Hnd as (Ha & Hx & Hnd).
  eapply dseg_frame; [exact Hd|..]; intros y Hy; [apply Hnx|apply Hpv]; set_solver.
Qed.

(** ** Changes of the store *)

Definition ring (R : gmap loc (list loc)) (r : loc) : list loc :=
  match R !! r with Some xs => r :: xs | None => [] end.
Definition free (R : gmap loc (list loc)) (n : loc) : Prop := forall r, n ∉ ring R r.

(** The nodes there are, and what they hold. *)
Definition same_values (h h' : heap) : Prop := forall n,
  held h' n = held h n /\ accessed h' n = accessed h n /\ (is_Some (h' !! n) <-> is_Some (h !! n)).

Lemma elem_of_ring R r n : n ∈ ring R r <-> exists xs, R !! r = Some xs /\ n ∈ r :: xs.
Proof. unfold ring. destruct (R !! r) as [xs|]; [naive_solver|]. rewrite elem_of_nil. naive_solver. Qed.

Lemma lists_update h h' R r l : lists h R -> dseg h' r l r -> NoDup (r :: l) ->
  (forall n, n ∈ r :: l -> n ∈ ring R r \/ free R n) ->
  (forall n, n ∉ ring R r -> n ∉ r :: l -> nxt h' n = nxt h n /\ prv h' n = prv h n) ->
  lists h' (<[r := l]> R).
Proof.
  intros [Hs Hn Ha] Hd Hnd Hin Hout.
  assert (Hapart : forall r' xs n, r' <> r -> R !! r' = Some xs -> n ∈ r' :: xs -> (n ∉ ring R r) /\ (n ∉ r :: l)).
  { intros r' xs n Hr E Hx. assert (Hring : n ∉ ring R r).
    { rewrite elem_of_ring. intros (ys & E' & Hy). by destruct Hr, (Ha _ _ _ _ _ E E' Hx Hy). }
    split; [done|]. intros [?|Hf]%Hin; [done|]. apply (Hf r'), elem_of_ring. eauto. }
  split.
  - intros r' xs [[<- <-]|[Hr E]]%lookup_insert_Some; [done|].
    eapply dseg_frame; [by apply Hs|..]; intros n Hx; apply Hout; eapply Hapart; try done; set_solver.
  - intros r' xs [[<- <-]|[Hr E]]%lookup_insert_Some; [done|by apply Hn].
  - intros r1 xs1 r2 xs2 n [[<- <-]|[Hr1 E1]]%lookup_insert_Some [[<- <-]|[Hr2 E2]]%lookup_insert_Some H1 H2;
      [done| | |by eapply Ha].
    + by destruct (Hapart r2 xs2 n).
    + by destruct (Hapart r1 xs1 n).
Qed.

Lemma nxt_alive h n m : nxt h n = Some m -> is_Some (h !! n).
Proof. unfold nxt. intros (x & E & _)%bind_Some. eauto. Qed.
Lemma prv_alive h n m : prv h n = Some m -> is_Some (h !! n).
Proof. unfold prv. intros (x & E & _)%bind_Some. eauto. Qed.

Ltac alter_spec :=
  intros; unfold nxt, prv, held, accessed in *;
  match goal with |- context [alter _ ?n ?h !! ?m] =>
    destruct (decide (n = m)) as [->|]; [rewrite lookup_alter_eq; destruct (h !! m) eqn:?|rewrite lookup_alter_ne by done];
    simpl; repeat case_decide; try done; naive_solver
  end.

Lemma nxt_set_prev p n h m : nxt (alter (set_prev p) n h) m = nxt h m.
Proof. alter_spec. Qed.
Lemma prv_set_next q n h m : prv (alter (set_next q) n h) m = prv h m.
Proof. alter_spec. Qed.
Lemma nxt_set_next q n h m : is_Some (h !! n) -> nxt (alter (set_next q) n h) m = if decide (m = n) then q else nxt h m.
Proof. intros [x Hx]. alter_spec. Qed.
Lemma prv_set_prev p n h m : is_Some (h !! n) -> prv (alter (set_prev p) n h) m = if decide (m = n) then p else prv h m.
Proof. intros [x Hx]. alter_spec. Qed.
Lemma alter_alive (f : ListNode P -> ListNode P) n h m : is_Some (alter f n h !! m) <-> is_Some (h !! m).
Proof. rewrite lookup_alter_is_Some. done. Qed.
Lemma same_set_prev p n h : same_values h (alter (set_prev p) n h).
Proof. intros m. rewrite alter_alive. split_and!; [..|done]; alter_spec. Qed.
Lemma same_set_next p n h : same_values h (alter (set_next p) n h).
Proof. intros m. rewrite alter_alive. split_and!; [..|done]; alter_spec. Qed.
#[export] Instance same_values_refl : Reflexive same_values.
Proof. done. Qed.
#[export] Instance same_values_trans : Transitive same_values.
Proof. intros h1 h2 h3 H12 H23 n. destruct (H12 n) as (?&?&?), (H23 n) as (?&?&?). split_and!; congruence || tauto. Qed.

(** ** The methods do what their names say *)

Lemma deref_alive n x h : h !! n = Some x -> deref n h = (Ok x, h).
Proof. unfold deref. by intros ->. Qed.

Lemma node_fields h n : is_Some (h !! n) -> exists x, h !! n = Some x /\ prev_node x = prv h n /\ next_node x = nxt h n.
Proof. intros [x E]. exists x. unfold prv, nxt. by rewrite E. Qed.

Lemma in_between h R r xs n ys : lists h R -> R !! r = Some (xs ++ n :: ys) ->
  nxt h (default r (last xs)) = Some n /\ prv h n = Some (default r (last xs)) /\
  nxt h n = Some (hd r ys) /\ prv h (hd r ys) = Some n.
Proof.
  intros HR E. pose proof (lists_seg _ _ HR _ _ E) as [H1 H2]%dseg_app.
  split_and!; [|by eapply dseg_last|by eapply dseg_first|destruct ys; simpl in H2 |- *; tauto].
  clear H2. assert (Hd : dseg h (default r (last xs)) [] n); [|by destruct Hd].
  clear -H1. revert r H1. induction xs as [|x xs IH]; intros r H1; [done|].
  rewrite last_default. by apply IH, H1.
Qed.

Lemma NoDup_without (r n : loc) xs ys : NoDup (r :: xs ++ n :: ys) -> NoDup (r :: xs ++ ys) /\ n ∉ r :: xs ++ ys.
Proof.
  assert (Hp : r :: xs ++ n :: ys ≡ₚ n :: r :: xs ++ ys) by (rewrite <- Permutation_middle; apply perm_swap).
  rewrite Hp. intros [??]%NoDup_cons. done.
Qed.

Lemma refs_remove_spec h R r xs n ys : lists h R -> R !! r = Some (xs ++ n :: ys) ->
  exists h', _refs_remove_node_from_list n h = (Ok tt, h') /\ lists h' (<[r := xs ++ ys]> R) /\
    same_values h h' /\ prv h' n = None /\ nxt h' n = None.
Proof.
  intros HR E. destruct (in_between _ _ _ _ _ _ HR E) as (Hpn & Hnp & Hnq & Hqn).
  pose proof (lists_nodup _ _ HR _ _ E) as Hnd.
  set (p := default r (last xs)) in *. set (q := hd r ys) in *.
  destruct (node_fields h n (nxt_alive _ _ _ Hnq)) as (x & Ex & Hxp & Hxn).
  assert (Hp : p ∈ r :: xs).
  { unfold p. destruct (last xs) as [l|] eqn:El; [|left]. right. by apply last_Some_elem_of. }
  assert (Hq : q ∈ r :: ys) by (unfold q; destruct ys; simpl; set_solver).
  destruct (NoDup_without _ _ _ _ Hnd) as [Hnd' Hn].
  eexists. split.
  { unfold _refs_remove_node_from_list, st_bind. rewrite (deref_alive _ _ _ Ex), Hxp, Hxn, Hnp, Hnq. reflexivity. }
  assert (Hap : is_Some (h !! p)) by (by eapply nxt_alive). assert (Haq : is_Some (h !! q)) by (by eapply prv_alive).
  assert (Han : is_Some (h !! n)) by (by eapply prv_alive).
  set (h1 := alter _ p h). set (h2 := alter _ q h1). set (h3 := alter _ n h2). set (h4 := alter _ n h3).
  assert (Hnx : forall m, nxt h4 m = if decide (m = n) then None else if decide (m = p) then Some q else nxt h m).
  { intros m. unfold h4, h3, h2, h1. rewrite nxt_set_next by (by rewrite !alter_alive).
    rewrite !nxt_set_prev, nxt_set_next by done. done. }
  assert (Hpv : forall m, prv h4 m = if decide (m = n) then None else if decide (m = q) then Some p else prv h m).
  { intros m. unfold h4, h3, h2, h1. rewrite prv_set_next, prv_set_prev by (by rewrite !alter_alive).
    rewrite prv_set_prev by (by rewrite !alter_alive). by rewrite prv_set_next. }
  split_and!.
  - apply (lists_update h); [done| |done|..].
    + eapply dseg_unlink; [by apply (lists_seg _ _ HR)|done|..].
      * apply NoDup_cons in Hnd. tauto.
      * intros m Hm. by rewrite Hnx, decide_False by done.
      * intros m Hm. by rewrite Hpv, decide_False by done.
    + intros m Hm. left. apply elem_of_ring. exists (xs ++ n :: ys). split; [done|]. set_solver.
    + intros m Hm _. unfold ring in Hm. rewrite E in Hm. rewrite Hnx, Hpv, !decide_False; [done|..]; set_solver.
  - unfold h4, h3, h2, h1. rewrite <- same_set_next, <- same_set_prev, <- same_set_prev, <- same_set_next. done.
  - by rewrite Hpv, decide_True.
  - by rewrite Hnx, decide_True.
Qed.

Lemma refs_insert_spec h R r xs n : lists h R -> R !! r = Some xs -> free R n -> is_Some (h !! n) ->
  prv h n = None -> nxt h n = None ->
  exists h', _refs_insert_after n r h = (Ok tt, h') /\ lists h' (<[r := n :: xs]> R) /\ same_values h h'.
Proof.
  intros HR E Hf Han Hp Hn. pose proof (lists_seg _ _ HR _ _ E) as Hd.
  pose proof (lists_nodup _ _ HR _ _ E) as Hnd.
  pose proof (dseg_first _ _ _ _ Hd) as Hrq. pose proof (dseg_last _ _ _ _ Hd) as Hrp. set (q := hd r xs) in *.
  assert (Hnr : n ∉ r :: xs). { intros Hin. apply (Hf r), elem_of_ring. eauto. }
  assert (Hq : q ∈ r :: xs) by (unfold q; destruct xs; simpl; set_solver).
  assert (Har : is_Some (h !! r)) by (by eapply nxt_alive).
  assert (Haq : is_Some (h !! q)).
  { unfold q. destruct xs as [|y ys]; [done|]. destruct Hd as (_ & Hy & _). by eapply prv_alive. }
  destruct (node_fields h n Han) as (x & Ex & Hxp & Hxn).
  destruct (node_fields h r Har) as (y & Ey & Hyp & Hyn).
  eexists. split.
  { unfold _refs_insert_after, st_bind. rewrite (deref_alive _ _ _ Ex), (deref_alive _ _ _ Ey), Hxp, Hxn, Hyp, Hyn.
    rewrite Hp, Hn, Hrq, Hrp. reflexivity. }
  set (h1 := alter _ n h). set (h2 := alter _ n h1). set (h3 := alter _ r h2). set (h4 := alter _ q h3).
  assert (Hnx : forall m, nxt h4 m = if decide (m = r) then Some n else if decide (m = n) then Some q else nxt h m).
  { intros m. unfold h4, h3, h2, h1. rewrite nxt_set_prev, nxt_set_next by (by rewrite !alter_alive).
    rewrite nxt_set_next by (by rewrite !alter_alive). by rewrite nxt_set_prev. }
  assert (Hpv : forall m, prv h4 m = if decide (m = q) then Some n else if decide (m = n) then Some r else prv h m).
  { intros m. unfold h4, h3, h2, h1. rewrite prv_set_prev by (by rewrite !alter_alive).
    by rewrite !prv_set_next, prv_set_prev. }
  split.
  - apply (lists_update h); [done| |by rewrite perm_swap; apply NoDup_cons|..].
    + eapply (dseg_link h); [done|done|..].
      * apply NoDup_cons in Hnd. tauto.
      * set_solver.
      * by rewrite Hnx, decide_True.
      * rewrite Hnx, decide_False, decide_True by set_solver. done.
      * rewrite Hpv, decide_False, decide_True by set_solver. done.
      * by rewrite Hpv, decide_True.
      * intros m ??. by rewrite Hnx, !decide_False by done.
      * intros m ??. by rewrite Hpv, !decide_False by done.
    + intros m [->| [->|Hm]%elem_of_cons]%elem_of_cons; [left|by right|left];
        apply elem_of_ring; exists xs; set_solver.
    + intros m Hm Hl. rewrite Hnx, Hpv, !decide_False; [done|..]; set_solver.
  - unfold h4, h3, h2, h1. rewrite <- same_set_prev, <- same_set_next, <- same_set_next, <- same_set_prev. done.
Qed.

Lemma ring_alive h R r n : lists h R -> n ∈ ring R r -> is_Some (h !! n).
Proof.
  intros HR (xs & E & Hn)%elem_of_ring. pose proof (lists_seg _ _ HR _ _ E) as Ha%dseg_first%nxt_alive.
  apply elem_of_cons in Hn as [->|(ys & zs & ->)%list_elem_of_split]; [done|].
  destruct (in_between _ _ _ _ _ _ HR E) as (_ & Hp & _). by eapply prv_alive.
Qed.

Lemma fresh_free h R n : lists h R -> h !! n = None -> free R n.
Proof. intros HR E r Hr. destruct (ring_alive _ _ _ _ HR Hr). congruence. Qed.

Lemma new_node_spec e h : exists n h', new_node e h = (Ok n, h') /\ h !! n = None /\
  h' = <[n := {| cache_entry := e; prev_node := None; next_node := None; last_access_ts_secs := None |}]> h.
Proof. eexists _, _. split; [reflexivity|]. split; [|done]. apply not_elem_of_dom, is_fresh. Qed.

Lemma lists_insert_fresh h R n x : lists h R -> h !! n = None -> lists (<[n := x]> h) R.
Proof.
  intros HR Hn. pose proof (fresh_free _ _ _ HR Hn) as Hf. destruct HR as [Hs Hnd Ha]. split; [|done|done].
  intros r xs E. assert (Hne : forall m, m ∈ r :: xs -> m <> n).
  { intros m Hm ->. apply (Hf r), elem_of_ring. eauto. }
  eapply dseg_frame; [by apply Hs|..]; intros m Hm; unfold nxt, prv; rewrite lookup_insert_ne; try done;
    apply not_eq_sym, Hne; set_solver.
Qed.

Lemma create_root_spec h R : lists h R -> exists r h', create_root_node h = (Ok r, h') /\
  h !! r = None /\ lists h' (<[r := []]> R) /\ held h' r = None /\
  (forall m, m <> r -> held h' m = held h m /\ accessed h' m = accessed h m).
Proof.
  intros HR. destruct (new_node_spec None h) as (r & h1 & E & Hr & Eh1).
  pose proof (fresh_free _ _ _ HR Hr) as Hf.
  eexists r, _. split; [unfold create_root_node, st_bind; rewrite E; reflexivity|]. split; [done|].
  set (h3 := alter _ r _).
  assert (Hs : same_values h1 h3) by (unfold h3; rewrite <- same_set_next, <- same_set_prev; done).
  assert (Ha : is_Some (h1 !! r)) by (by rewrite Eh1, lookup_insert_eq).
  split.
  - apply (lists_update h1); [by rewrite Eh1; apply lists_insert_fresh| | |..].
    + unfold h3. simpl. rewrite nxt_set_next by (by rewrite alter_alive). rewrite prv_set_next, prv_set_prev by done.
      by rewrite !decide_True.
    + apply NoDup_singleton.
    + intros m [->|Hm]%elem_of_cons; [by right|]. set_solver.
    + intros m _ Hm. unfold h3. rewrite nxt_set_next by (by rewrite alter_alive).
      rewrite nxt_set_prev, prv_set_next, prv_set_prev by done. rewrite !decide_False; [done|..]; set_solver.
  - split; [|intros m Hm].
    + destruct (Hs r) as (-> & _). unfold held. by rewrite Eh1, lookup_insert_eq.
    + destruct (Hs m) as (-> & -> & _). rewrite Eh1. unfold held, accessed. by rewrite lookup_insert_ne.
Qed.

Lemma insert_after_spec e h R r xs : lists h R -> R !! r = Some xs -> exists n h',
  insert_after e r h = (Ok n, h') /\ h !! n = None /\ lists h' (<[r := n :: xs]> R) /\ held h' n = Some e /\
  (forall m, m <> n -> held h' m = held h m /\ accessed h' m = accessed h m).
Proof.
  intros HR E. destruct (new_node_spec (Some e) h) as (n & h1 & En & Hn & Eh1).
  pose proof (fresh_free _ _ _ HR Hn) as Hf.
  destruct (refs_insert_spec h1 R r xs n) as (h2 & E2 & HR2 & Hs); try done.
  - rewrite Eh1. by apply lists_insert_fresh.
  - by rewrite Eh1, lookup_insert_eq.
  - unfold prv. by rewrite Eh1, lookup_insert_eq.
  - unfold nxt. by rewrite Eh1, lookup_insert_eq.
  - exists n, h2. split; [unfold insert_after, st_bind; by rewrite En, E2|]. split_and!; [done|done|..].
    + destruct (Hs n) as (-> & _). unfold held. by rewrite Eh1, lookup_insert_eq.
    + intros m Hm. destruct (Hs m) as (-> & -> & _). unfold held, accessed. by rewrite Eh1, lookup_insert_ne.
Qed.

Lemma lists_same_pointers h h' R : lists h R -> (forall m, nxt h' m = nxt h m /\ prv h' m = prv h m) -> lists h' R.
Proof.
  intros [Hs Hn Ha] Hp. split; [|done|done]. intros r xs E. eapply dseg_frame; [by apply Hs|..]; intros m _; apply Hp.
Qed.

Lemma set_entry_spec h R n : lists h R -> exists h', assign n (set_entry None) h = (Ok tt, h') /\
  lists h' R /\ held h' n = None /\ (forall m, nxt h' m = nxt h m /\ prv h' m = prv h m) /\
  (forall m, m <> n -> held h' m = held h m /\ accessed h' m = accessed h m).
Proof.
  intros HR. eexists. split; [reflexivity|].
  assert (Hp : forall m, nxt (alter (set_entry None) n h) m = nxt h m /\ prv (alter (set_entry None) n h) m = prv h m).
  { intros m. split; alter_spec. }
  split_and!; [by eapply lists_same_pointers| |done|].
  - unfold held. rewrite lookup_alter_eq. by destruct (h !! n).
  - intros m Hm. unfold held, accessed. by rewrite lookup_alter_ne.
Qed.

Lemma remove_from_list_spec h R r xs n ys : lists h R -> R !! r = Some (xs ++ n :: ys) -> exists h',
  remove_from_list n h = (Ok tt, h') /\ lists h' (<[r := xs ++ ys]> R) /\ held h' n = None /\
  (forall m, m <> n -> held h' m = held h m /\ accessed h' m = accessed h m).
Proof.
  intros HR E. destruct (refs_remove_spec _ _ _ _ _ _ HR E) as (h1 & E1 & HR1 & Hs & _).
  destruct (set_entry_spec h1 _ n HR1) as (h2 & E2 & HR2 & Hn & _ & Hv).
  exists h2. split; [unfold remove_from_list, st_bind; by rewrite E1|]. split_and!; [done|done|].
  intros m Hm. destruct (Hv m Hm) as [-> ->], (Hs m) as (-> & -> & _). done.
Qed.

Lemma move_after_spec h R r xs n ys : lists h R -> R !! r = Some (xs ++ n :: ys) -> exists h',
  move_after n r h = (Ok tt, h') /\ lists h' (<[r := n :: xs ++ ys]> R) /\ same_values h h'.
Proof.
  intros HR E. destruct (in_between _ _ _ _ _ _ HR E) as (_ & Hnp & Hnq & _).
  pose proof (lists_seg _ _ HR _ _ E) as Hd.
  pose proof (dseg_first _ _ _ _ Hd) as Hrq. pose proof (dseg_last _ _ _ _ Hd) as Hrp.
  destruct (node_fields h n (nxt_alive _ _ _ Hnq)) as (x & Ex & Hxp & Hxn).
  destruct (node_fields h r (nxt_alive _ _ _ Hrq)) as (y & Ey & Hyp & Hyn).
  pose proof (lists_nodup _ _ HR _ _ E) as [Hnd Hn]%NoDup_without.
  destruct (refs_remove_spec _ _ _ _ _ _ HR E) as (h1 & E1 & HR1 & Hs1 & Hp1 & Hn1).
  destruct (refs_insert_spec h1 _ r (xs ++ ys) n HR1) as (h2 & E2 & HR2 & Hs2); [| | |done|done|].
  - by rewrite lookup_insert_eq.
  - intros r' (l & [[<- <-]|[Hr E']]%lookup_insert_Some & Hl)%elem_of_ring; [done|].
    apply Hr, (lists_apart _ _ HR _ _ _ _ n E E'); [|done]. set_solver.
  - apply Hs1. eauto.
  - exists h2. split.
    { unfold move_after, st_bind. rewrite (deref_alive _ _ _ Ex), (deref_alive _ _ _ Ey), Hxp, Hxn, Hyp, Hyn.
      rewrite Hnp, Hnq, Hrq, Hrp, decide_False by set_solver. by rewrite E1. }
    rewrite insert_insert_eq in HR2. split; [done|]. by rewrite <- Hs2.
Qed.

Lemma update_last_access_spec h R n t : lists h R -> is_Some (h !! n) -> exists h',
  update_last_access n t h = (Ok tt, h') /\ lists h' R /\ accessed h' n = Some t /\
  (forall m, held h' m = held h m) /\ (forall m, m <> n -> accessed h' m = accessed h m).
Proof.
  intros HR [y Hy]. eexists. split; [reflexivity|]. split_and!.
  - eapply lists_same_pointers; [exact HR|]. intros m. split; alter_spec.
  - unfold accessed. by rewrite lookup_alter_eq, Hy.
  - intros m. alter_spec.
  - intros m Hm. unfold accessed. by rewrite lookup_alter_ne.
Qed.
End linked_list.
