(* ===== verification/TreeCache.v ===== *)
(** * TreeCache: what the entries of a cache are kept in (util/caches/treecache.py)

    A cache keeps its entries in a dict, or in a tree of dicts from which all entries whose
    key begins with a given tuple can be taken at once.  The class [CacheType] is what
    [LruCache] asks of either, and [CacheTypeLaws] what it may rely on. *)
From S2P Require Import Prelude PyVal PySort.
Open Scope list_scope.
Open Scope Z_scope.
Open Scope py_scope.

(** A [TreeCacheNode], a subclass of dict, or anything else that is stored. *)
Inductive tree (A L : Type) :=
  | Leaf (value : L)
  | TreeCacheNode (children : list (A * tree A L)).
Arguments Leaf {A L} value.
Arguments TreeCacheNode {A L} children.

Section tree.
Context {A L : Type} `{EqDecision A}.
Abbreviation tree := (tree A L).
Abbreviation children := (list (A * tree)).

(** ** The generators *)

Fixpoint iterate_tree_cache_entry (d : tree) : list L :=
  match d with
  | TreeCacheNode d => flat_map (fun '(_, value_d) => iterate_tree_cache_entry value_d) d
  | Leaf d => [d]
  end.

Fixpoint iterate_tree_cache_items (key : list A) (value : tree) : list (list A * L) :=
  match value with
  | TreeCacheNode d => flat_map (fun '(sub_key, sub_value) => iterate_tree_cache_items (key ++ [sub_key]) sub_value) d
  | Leaf value => [(key, value)]
  end.

(** ** The class [TreeCache] *)

Record TreeCache := { tree_size : Z; root : children }.

Definition new_tree_cache : TreeCache := {| tree_size := 0; root := [] |}.

(** The way down the tree, and on the way back what the source's variables still point to.
    Only [_Node]s are stored, which have no method [get]. *)
Fixpoint set_at (node : children) (key : list A) (value : L) : result children :=
  match key with
  | [] => Err IndexError
  | [k] => Ok (dset k (Leaf value) node)
  | k :: key =>
      let* next_node := match dget k node with
                        | None => Ok []
                        | Some (TreeCacheNode next_node) => Ok next_node
                        | Some (Leaf _) => Err ValueError
                        end in
      let* next_node := set_at next_node key value in
      Ok (dset k (TreeCacheNode next_node) node)
  end.

Definition tree_set (key : list A) (value : L) (c : TreeCache) : result TreeCache :=
  let* node := set_at (root c) key value in
  Ok {| tree_size := tree_size c + 1; root := node |}.

Fixpoint get_at (node : children) (key : list A) : result (option tree) :=
  match key with
  | [] => Err IndexError
  | [k] => Ok (dget k node)
  | k :: key => match dget k node with
                | None => Ok None
                | Some (TreeCacheNode node) => get_at node key
                | Some (Leaf _) => Err AttributeError
                end
  end.

Definition tree_get (key : list A) (c : TreeCache) : result (option tree) := get_at (root c) key.

(** Nodes that became empty are cleared out on the way back. *)
Fixpoint pop_at (node : children) (key : list A) : result (option tree * children) :=
  match key with
  | [] => Err IndexError
  | [k] => match dget k node with
           | None => Ok (None, node)
           | Some popped => Ok (Some popped, ddel k node)
           end
  | k :: key =>
      match dget k node with
      | None => Ok (None, node)
      | Some (Leaf _) => Err ValueError
      | Some (TreeCacheNode n) =>
          let* (popped, n) := pop_at n key in
          match popped, n with
          | None, _ => Ok (None, node)
          | Some popped, [] => Ok (Some popped, ddel k node)
          | Some popped, n => Ok (Some popped, dset k (TreeCacheNode n) node)
          end
      end
  end.

Definition tree_pop (key : list A) (c : TreeCache) : result (option tree * TreeCache) :=
  let* (popped, node) := pop_at (root c) key in
  match popped with
  | None => Ok (None, c)
  | Some popped =>
      Ok (Some popped, {| tree_size := tree_size c - Z.of_nat (List.length (iterate_tree_cache_entry popped)); root := node |})
  end.

Definition tree_values (c : TreeCache) : list L := iterate_tree_cache_entry (TreeCacheNode (root c)).
Definition tree_items (c : TreeCache) : list (list A * L) := iterate_tree_cache_items [] (TreeCacheNode (root c)).
End tree.
Arguments TreeCache : clear implicits.

(** ** What [LruCache] asks of [cache_type] *)

(** A key that is not full may give a tree.  A dict gives a leaf. *)
Class CacheType (A L S : Type) := {
  ct_new : S;
  ct_get : list A -> S -> result (option (tree A L));
  ct_set : list A -> L -> S -> result S;
  ct_pop : list A -> S -> result (option (tree A L) * S);
  ct_values : S -> list L;
  ct_len : S -> Z;
  is_tree_cache : bool
}.

Instance tree_cache_type {A L} `{EqDecision A} : CacheType A L (TreeCache A L) := {|
  ct_new := new_tree_cache; ct_get := tree_get; ct_set := tree_set; ct_pop := tree_pop;
  ct_values := tree_values; ct_len := tree_size; is_tree_cache := true
|}.

(** A key of a dict need not be a tuple; one that is not is a list of one part here. *)
Instance dict_cache_type {A L} `{EqDecision A} : CacheType A L (list (list A * L)) := {|
  ct_new := []; ct_get k d := Ok (Leaf <$> dget k d); ct_set k v d := Ok (dset k v d);
  ct_pop k d := Ok (Leaf <$> dget k d, ddel k d); ct_values d := d.*2; ct_len d := Z.of_nat (List.length d);
  is_tree_cache := false
|}.

(** The client uses keys of one length, of [1 + n] parts: [ct_full n].  [ct_partial n] are
    the keys by which entries can be taken out, and [ct_covers k] the keys that then are. *)
Class CacheTypeLaws (A L S : Type) `{EqDecision A, CacheType A L S} := {
  ct_items : S -> list (list A * L);
  ct_wf : nat -> S -> Prop;
  ct_full : nat -> list A -> Prop;
  ct_partial : nat -> list A -> Prop;
  ct_covers : list A -> list A -> Prop;
  ct_full_partial n k : ct_full n k -> ct_partial n k;
  ct_covers_full n k k' : ct_full n k -> ct_full n k' -> ct_covers k k' <-> k = k';
  ct_new_spec n : ct_wf n ct_new /\ ct_items ct_new = [];
  ct_keys n s : ct_wf n s -> dict_wf (ct_items s) /\ forall k, k ∈ (ct_items s).*1 -> ct_full n k;
  ct_get_spec n s k : ct_wf n s -> ct_full n k -> ct_get k s = Ok (Leaf <$> dget k (ct_items s));
  ct_set_spec n s k e : ct_wf n s -> ct_full n k -> k ∉ (ct_items s).*1 ->
    exists s', ct_set k e s = Ok s' /\ ct_wf n s' /\ ct_items s' ≡ₚ (k, e) :: ct_items s;
  ct_pop_spec n s k : ct_wf n s -> ct_partial n k -> exists gone s', ct_wf n s' /\
    ct_items s ≡ₚ gone ++ ct_items s' /\
    (forall kv, kv ∈ gone -> ct_covers k kv.1) /\ (forall kv, kv ∈ ct_items s' -> ~ ct_covers k kv.1) /\
    (gone = [] /\ ct_pop k s = Ok (None, s) /\ s' = s \/
     exists t, ct_pop k s = Ok (Some t, s') /\ gone <> [] /\ iterate_tree_cache_entry t = gone.*2 /\
       (ct_full n k -> exists e, t = Leaf e /\ gone = [(k, e)]));
  ct_values_spec n s : ct_wf n s -> ct_values s = (ct_items s).*2;
  ct_len_spec n s : ct_wf n s -> ct_len s = Z.of_nat (List.length (ct_items s))
}.

(** ** Dicts, split at a key *)

Lemma filter_kept {T} (Q : T -> Prop) `{forall x, Decision (Q x)} (l : list T) :
  (forall x, x ∈ l -> Q x) -> filter Q l = l.
Proof.
  induction l as [|x l IH]; intros Hl; [done|]. rewrite filter_cons, decide_True by (apply Hl; left).
  f_equal. apply IH. intros y Hy. apply Hl. by right.
Qed.

Lemma dget_split {K V} `{EqDecision K} (k : K) (v : V) d : dict_wf d -> dget k d = Some v -> exists d1 d2,
  d = d1 ++ (k, v) :: d2 /\ (forall kv, kv ∈ d1 ++ d2 -> kv.1 <> k) /\ ddel k d = d1 ++ d2 /\
  forall v', dset k v' d = d1 ++ (k, v') :: d2.
Proof.
  induction d as [|[k' v'] d IH]; [done|]. intros [Hk Hd]%NoDup_cons. fold (map fst d) in Hk, Hd. simpl. intros E. unfold ddel. rewrite filter_cons. simpl.
  destruct (decide (k = k')) as [<-|Hne].
  - injection E as ->. exists [], d. simpl. rewrite decide_False by tauto.
    assert (Hd2 : forall kv, kv ∈ d -> kv.1 <> k). { intros kv Hkv <-. apply Hk, in_map_b. exists kv. done. }
    split_and!; [done|done| |done]. by apply filter_kept.
  - destruct (IH Hd E) as (d1 & d2 & -> & Hn & Hdel & Hset). exists ((k', v') :: d1), d2.
    rewrite decide_True by auto. unfold ddel in Hdel. rewrite Hdel. split_and!; [done| |done|].
    + intros kv [->|Hkv]%elem_of_cons; [simpl; congruence|by apply Hn].
    + intros v2. by rewrite Hset.
Qed.

(** ** Trees of one depth *)

Section depth.
Context {A L : Type} `{EqDecision A}.
Abbreviation tree := (tree A L).

(** [n] keys lead to a leaf, and no node but the root is empty. *)
Fixpoint wf (n : nat) (t : tree) : Prop :=
  match n, t with
  | O, Leaf _ => True
  | S n, TreeCacheNode d => d <> [] /\ dict_wf d /\ forall kv, kv ∈ d -> wf n kv.2
  | _, _ => False
  end.
Definition root_wf (n : nat) (d : list (A * tree)) : Prop := dict_wf d /\ forall kv, kv ∈ d -> wf n kv.2.

Abbreviation items := (iterate_tree_cache_items []).
Definition under (key : list A) (l : list (list A * L)) : list (list A * L) := prod_map (app key) id <$> l.

#[local] Instance under_proper key : Proper (Permutation ==> Permutation) (under key).
Proof. intros l1 l2 Hl. unfold under. by rewrite Hl. Qed.

Lemma under_app key l1 l2 : under key (l1 ++ l2) = under key l1 ++ under key l2.
Proof. apply fmap_app. Qed.
Lemma under_under k1 k2 l : under k1 (under k2 l) = under (k1 ++ k2) l.
Proof. unfold under. rewrite <- list_fmap_compose. apply list_fmap_ext. intros _ [k v] _. simpl. by rewrite app_assoc. Qed.
Lemma items_under n key t : wf n t -> iterate_tree_cache_items key t = under key (items t).
Proof.
  revert key t. induction n as [|n IH]; intros key [v|d]; simpl; try done.
  - intros _. unfold under. simpl. by rewrite app_nil_r.
  - intros (_ & _ & Hd). induction d as [|[k t] d IHd]; [done|]. simpl. rewrite under_app. f_equal.
    + rewrite IH by (apply (Hd (k, t)); left). rewrite (IH [k]) by (apply (Hd (k, t)); left). by rewrite under_under.
    + apply IHd. intros kv Hkv. apply Hd. by right.
Qed.

(** The items below a root. *)
Definition below (d : list (A * tree)) : list (list A * L) := items (TreeCacheNode d).

Lemma below_app d1 d2 : below (d1 ++ d2) = below d1 ++ below d2.
Proof. unfold below. simpl. apply flat_map_app. Qed.
Lemma below_cons n k t d : wf n t -> below ((k, t) :: d) = under [k] (items t) ++ below d.
Proof. intros Ht. unfold below. simpl. by rewrite (items_under n). Qed.

Lemma in_under key k v l : (k, v) ∈ under key l <-> exists k', k = key ++ k' /\ (k', v) ∈ l.
Proof.
  unfold under. rewrite list_elem_of_fmap. split.
  - intros ([k' v'] & [= -> ->] & Hin). eauto.
  - intros (k' & -> & Hin). exists (k', v). done.
Qed.

Lemma in_below n d k v : root_wf n d -> (k, v) ∈ below d <-> exists k0 k' t, k = k0 :: k' /\ (k0, t) ∈ d /\ (k', v) ∈ items t.
Proof.
  intros [_ Hd]. unfold below. simpl. rewrite list_elem_of_In, in_flat_map. split.
  - intros ([k0 t] & Hin%list_elem_of_In & Hi%list_elem_of_In). rewrite (items_under n) in Hi by (by apply (Hd (k0, t))).
    apply in_under in Hi as (k' & -> & Hi). eauto 6.
  - intros (k0 & k' & t & -> & Hin & Hi). exists (k0, t). split; [by apply list_elem_of_In|]. apply list_elem_of_In.
    rewrite (items_under n) by (by apply (Hd (k0, t))). apply in_under. eauto.
Qed.

Lemma items_length n t k v : wf n t -> (k, v) ∈ items t -> List.length k = n.
Proof.
  revert t k v. induction n as [|n IH]; intros [x|d] k v; simpl; try done.
  - intros _ [= -> _]%list_elem_of_singleton. done.
  - intros (_ & Hd) Hin. apply (in_below n) in Hin as (k0 & k' & t & -> & Ht & Hi); [|done].
    simpl. f_equal. eapply IH, Hi. by apply (proj2 Hd (k0, t)).
Qed.

Lemma items_values n t : wf n t -> iterate_tree_cache_entry t = (items t).*2.
Proof.
  revert t. induction n as [|n IH]; intros [x|d]; simpl; try done.
  intros (_ & _ & Hd). induction d as [|[k t] d IHd]; [done|]. simpl. rewrite fmap_app. f_equal.
  - rewrite IH by (apply (Hd (k, t)); left). rewrite (items_under n [k]) by (apply (Hd (k, t)); left).
    unfold under. rewrite <- list_fmap_compose. by apply list_fmap_ext.
  - apply IHd. intros kv Hkv. apply Hd. by right.
Qed.

Lemma under_values key l : (under key l).*2 = l.*2.
Proof. unfold under. rewrite <- list_fmap_compose. by apply list_fmap_ext. Qed.

Lemma under_keys key l : (under key l).*1 = app key <$> l.*1.
Proof. unfold under. rewrite <- !list_fmap_compose. by apply list_fmap_ext. Qed.

Lemma dict_wf_app {K V} (d1 d2 : list (K * V)) :
  dict_wf (d1 ++ d2) <-> dict_wf d1 /\ (forall k v, (k, v) ∈ d1 -> k ∉ map fst d2) /\ dict_wf d2.
Proof.
  unfold dict_wf. rewrite map_app, NoDup_app. split; intros (H1 & H2 & H3); split_and!; try done.
  - intros k v Hk. apply H2, in_map_b. by exists (k, v).
  - intros k ([k' v] & -> & Hk)%in_map_b. by eapply H2.
Qed.

Lemma items_wf n t : wf n t -> dict_wf (items t).
Proof.
  revert t. induction n as [|n IH]; intros [x|d]; simpl; try done; [intros _; apply NoDup_singleton|].
  intros (_ & Hk & Hd). fold (below d).
  assert (Hr : root_wf n d) by done. clear Hk Hd. induction d as [|[k t] d IHd]; [apply NoDup_nil_2|].
  destruct Hr as [[Hk Hn]%NoDup_cons Hd]. fold (map fst d) in Hk, Hn.
  assert (Ht : wf n t) by (apply (Hd (k, t)); left).
  assert (Hr : root_wf n d) by (split; [done|]; intros kv Hkv; apply Hd; by right).
  rewrite (below_cons n) by done. apply dict_wf_app. split_and!; [|..|by apply IHd].
  - unfold dict_wf. change (NoDup (under [k] (items t)).*1). rewrite under_keys.
    apply (NoDup_fmap_2 (app [k])). by apply IH.
  - intros key v (k' & -> & Hi)%in_under ([key2 v2] & E & Hi2)%in_map_b.
    apply (in_below n) in Hi2 as (k0 & k2 & t2 & -> & Ht2 & _); [|done]. injection E as <- _.
    apply Hk, in_map_b. by exists (k, t2).
Qed.

Lemma below_wf n d : root_wf n d -> dict_wf (below d).
Proof. intros [Hk Hd]. destruct d as [|kv d]; [apply NoDup_nil_2|]. by apply (items_wf (S n) (TreeCacheNode _)). Qed.

Lemma dget_below n d k key : root_wf n d -> dget (k :: key) (below d) = dget k d ≫= fun t => dget key (items t).
Proof.
  intros Hd. apply option_eq. intros v. rewrite dget_some_iff by (by eapply below_wf). rewrite (in_below n) by done.
  rewrite bind_Some. split.
  - intros (k0 & k' & t & [= -> ->] & Ht & Hi). exists t. destruct Hd as [Hk Hd].
    rewrite dget_some_iff by done. split; [done|]. apply dget_some_iff; [|done]. eapply items_wf, (Hd (k0, t)), Ht.
  - intros (t & Ht%dget_in & Hi%dget_in). eauto 6.
Qed.

Lemma get_at_spec n d key : root_wf n d -> List.length key = S n -> get_at d key = Ok (Leaf <$> dget key (below d)).
Proof.
  revert n d. induction key as [|k [|k2 key] IH]; intros n d Hd Hl; [done|..]; rewrite (dget_below n) by done; simpl.
  - destruct n; [|done]. destruct (dget k d) as [t|] eqn:E; [|done]. apply dget_in, (proj2 Hd) in E. by destruct t.
  - destruct n as [|n]; [done|]. destruct (dget k d) as [t|] eqn:E; [|done]. apply dget_in, (proj2 Hd) in E.
    destruct t as [v|d']; [done|]. simpl in E. by apply (IH n); [apply E|simpl in *; lia].
Qed.

Lemma root_wf_split n d1 k t d2 : root_wf n (d1 ++ (k, t) :: d2) -> forall t', wf n t' -> root_wf n (d1 ++ (k, t') :: d2).
Proof.
  intros [Hk Hd] t' Ht. split.
  - unfold dict_wf in *. by rewrite map_app in *.
  - intros kv [Hkv|[E|Hkv]%elem_of_cons]%elem_of_app; [| |]; try (apply Hd; set_solver). by rewrite E.
Qed.

Lemma below_split n d1 k t d2 : root_wf n (d1 ++ (k, t) :: d2) ->
  below (d1 ++ (k, t) :: d2) ≡ₚ under [k] (items t) ++ below (d1 ++ d2).
Proof.
  intros [_ Hd]. rewrite !below_app, (below_cons n) by (apply (Hd (k, t)); set_solver).
  rewrite !app_assoc. f_equiv. apply Permutation_app_comm.
Qed.

Lemma root_wf_without n d1 k t d2 : root_wf n (d1 ++ (k, t) :: d2) -> root_wf n (d1 ++ d2).
Proof.
  intros [Hk Hd]. split.
  - unfold dict_wf in *. rewrite map_app in *. rewrite map_cons in Hk.
    rewrite <- Permutation_middle in Hk. by apply NoDup_cons in Hk as [_ Hk].
  - intros kv Hkv. apply Hd. set_solver.
Qed.

Lemma root_wf_snoc n d k t : root_wf n d -> dget k d = None -> wf n t -> root_wf n (d ++ [(k, t)]).
Proof.
  intros [Hk Hd] E%dget_none Ht. split.
  - apply dict_wf_app. split_and!; [done| |apply NoDup_singleton].
    intros k' v Hin E'%list_elem_of_singleton. simpl in E'. subst k'. apply E, in_map_b. by exists (k, v).
  - intros kv [Hkv|E'%list_elem_of_singleton]%elem_of_app; [by apply Hd|by rewrite E'].
Qed.

Lemma root_wf_nil n : root_wf n [].
Proof. split; [apply NoDup_nil_2|]. by intros kv ?%elem_of_nil. Qed.

Lemma set_at_spec n d key v : root_wf n d -> List.length key = S n -> key ∉ (below d).*1 ->
  exists d', set_at d key v = Ok d' /\ root_wf n d' /\ below d' ≡ₚ (key, v) :: below d.
Proof.
  revert n d. induction key as [|k [|k2 key] IH]; intros n d Hd Hl Hf; [done|..].
  - destruct n; [|done]. apply dget_none in Hf. rewrite (dget_below 0) in Hf by done.
    assert (E : dget k d = None).
    { destruct (dget k d) as [t|] eqn:E; [|done]. pose proof (dget_in _ _ _ E) as Ht%(proj2 Hd). by destruct t. }
    simpl. rewrite dset_notin by (by apply dget_none). eexists. split; [done|]. split; [by apply root_wf_snoc|].
    rewrite below_app. change (below [(k, Leaf v)]) with [([k], v)]. by rewrite Permutation_app_comm.
  - destruct n as [|n]; [done|]. remember (k2 :: key) as key2 eqn:Ek. simpl.
    assert (Hl2 : List.length key2 = S n) by (simpl in Hl; lia).
    apply dget_none in Hf. rewrite (dget_below (S n)) in Hf by done.
    destruct (dget k d) as [t|] eqn:E; simpl in Hf.
    + pose proof (dget_in _ _ _ E) as Ht%(proj2 Hd). destruct t as [|d1]; [done|]. destruct Ht as (Hne & Hd1).
      apply dget_none in Hf. destruct (IH n d1 Hd1 Hl2 Hf) as (d2 & E2 & Hd2 & Hp2).
      destruct (dget_split k _ d (proj1 Hd) E) as (a & b & -> & _ & _ & Hset).
      assert (Hw2 : wf (S n) (TreeCacheNode d2)).
      { split; [|done]. intros ->. exact (Permutation_nil_cons Hp2). }
      exists (a ++ (k, TreeCacheNode d2) :: b). subst key2. cbn [rbind]. rewrite E2. cbn [rbind]. rewrite Hset.
      split; [done|]. split; [by eapply root_wf_split|].
      rewrite (below_split (S n)) by (by eapply root_wf_split).
      rewrite (below_split (S n) a k (TreeCacheNode d1)) by done. change (items (TreeCacheNode ?d)) with (below d).
      rewrite Hp2. done.
    + destruct (IH n [] (root_wf_nil n) Hl2 (not_elem_of_nil key2)) as (d2 & E2 & Hd2 & Hp2).
      assert (Hw2 : wf (S n) (TreeCacheNode d2)).
      { split; [|done]. intros ->. exact (Permutation_nil_cons Hp2). }
      exists (d ++ [(k, TreeCacheNode d2)]). subst key2. cbn [rbind]. rewrite E2. cbn [rbind].
      rewrite dset_notin by (by apply dget_none). split; [done|]. split; [by apply root_wf_snoc|].
      rewrite below_app, (below_cons (S n)) by done. rewrite Permutation_app_comm.
      change (items (TreeCacheNode d2)) with (below d2). by rewrite Hp2.
Qed.

Lemma items_nonempty n t : wf n t -> items t <> [].
Proof.
  revert t. induction n as [|n IH]; intros [v|[|[k t] d]]; simpl; try done; [by intros [? _]|].
  intros (_ & _ & Hd). assert (Ht : wf n t) by (apply (Hd (k, t)); left). rewrite (items_under n) by done.
  intros [E _]%app_eq_nil. apply fmap_nil_inv in E. by eapply IH.
Qed.

Lemma below_heads n d k key v : root_wf n d -> (forall kv, kv ∈ d -> kv.1 <> k) -> (key, v) ∈ below d ->
  exists k' key', key = k' :: key' /\ k' <> k.
Proof.
  intros Hd Hk (k0 & k' & t & -> & Ht & _)%(in_below n); [|done]. exists k0, k'. split; [done|]. exact (Hk _ Ht).
Qed.

Lemma dget_none_keys {V} (k : A) (d : list (A * V)) : dget k d = None -> forall kv, kv ∈ d -> kv.1 <> k.
Proof. intros Hn%dget_none kv Hkv <-. apply Hn, in_map_b. by exists kv. Qed.

(** What is popped, and what stays. *)
Definition pop_at_ok (n : nat) (d : list (A * tree)) (key : list A) gone (d' : list (A * tree)) : Prop :=
  root_wf n d' /\ below d ≡ₚ gone ++ below d' /\
  (forall kv, kv ∈ below d' -> ~ key `prefix_of` kv.1) /\
  (gone = [] /\ pop_at d key = Ok (None, d) /\ d' = d \/
   exists t, pop_at d key = Ok (Some t, d') /\ gone = under key (items t) /\ wf (S n - List.length key) t).

Lemma pop_at_missing n d k key : root_wf n d -> dget k d = None -> pop_at_ok n d (k :: key) [] d.
Proof.
  intros Hd E. unfold pop_at_ok. split_and!; [done|done|..].
  - intros [key3 v] Hin Hpre. destruct (below_heads _ _ _ _ _ Hd (dget_none_keys _ _ E) Hin) as (k' & key' & -> & Hn).
    by apply prefix_cons_inv_1 in Hpre.
  - left. destruct key; simpl; by rewrite E.
Qed.

Lemma pop_at_spec n d key : root_wf n d -> (1 <= List.length key <= S n)%nat -> exists gone d', pop_at_ok n d key gone d'.
Proof.
  revert n d. induction key as [|k [|k2 key] IH]; intros n d Hd Hl; [simpl in Hl; lia|..].
  - simpl. destruct (dget k d) as [t|] eqn:E.
    + pose proof (dget_in _ _ _ E) as Ht%(proj2 Hd). destruct (dget_split k _ d (proj1 Hd) E) as (a & b & -> & Hk & Hdel & _).
      pose proof (root_wf_without _ _ _ _ _ Hd) as Hd'.
      exists (under [k] (items t)), (a ++ b). unfold pop_at_ok. split_and!; [done|by apply (below_split n)|..].
      * intros [key v] Hin Hpre. destruct (below_heads _ _ _ _ _ Hd' Hk Hin) as (k' & key' & -> & Hne).
        by apply prefix_cons_inv_1 in Hpre.
      * right. exists t. simpl. rewrite E, Hdel. split_and!; [done|done|]. by rewrite Nat.sub_0_r.
    + exists [], d. by apply pop_at_missing.
  - destruct n as [|n]; [simpl in Hl; lia|]. remember (k2 :: key) as key2 eqn:Ek.
    assert (Hl2 : (1 <= List.length key2 <= S n)%nat) by (subst key2; simpl in *; lia).
    destruct (dget k d) as [t|] eqn:E.
    + pose proof (dget_in _ _ _ E) as Ht%(proj2 Hd). destruct t as [|d1]; [done|]. destruct Ht as (Hne & Hd1).
      destruct (IH n d1 Hd1 Hl2) as (gone & d2 & Hd2 & Hp & Hout & Hres).
      destruct (dget_split k _ d (proj1 Hd) E) as (a & b & -> & Hk & Hdel & Hset).
      pose proof (root_wf_without _ _ _ _ _ Hd) as Hd'.
      assert (Hrest : forall key3 v, (key3, v) ∈ below (a ++ b) -> ~ (k :: key2) `prefix_of` key3).
      { intros key3 v Hin Hpre. destruct (below_heads _ _ _ _ _ Hd' Hk Hin) as (k' & key' & -> & Hn).
        by apply prefix_cons_inv_1 in Hpre. }
      destruct Hres as [(-> & E1 & ->)|(t & E1 & -> & Ht)].
      * exists [], (a ++ (k, TreeCacheNode d1) :: b). unfold pop_at_ok. split_and!; [done|done|..].
        -- intros [key3 v] Hin Hpre. rewrite (below_split (S n)) in Hin by done.
           apply elem_of_app in Hin as [(key4 & -> & Hin)%in_under|Hin]; [|by eapply Hrest].
           apply (Hout _ Hin). by apply prefix_cons_inv_2 in Hpre.
        -- left. subst key2. cbn [pop_at]. rewrite E. cbn [pop_at] in E1. by rewrite E1.
      * set (d3 := match d2 with [] => a ++ b | _ => a ++ (k, TreeCacheNode d2) :: b end).
        assert (Hd3 : root_wf (S n) d3 /\ below d3 ≡ₚ under [k] (below d2) ++ below (a ++ b)).
        { unfold d3. destruct d2 as [|kv d2]; [done|]. set (d4 := kv :: d2) in *.
          assert (Hw : root_wf (S n) (a ++ (k, TreeCacheNode d4) :: b)) by (by eapply root_wf_split).
          split; [done|]. by rewrite (below_split (S n)). }
        destruct Hd3 as [Hd3 Hp3]. exists (under (k :: key2) (items t)), d3. unfold pop_at_ok. split_and!; [done|..].
        -- rewrite (below_split (S n)) by done. change (items (TreeCacheNode d1)) with (below d1).
           rewrite Hp, under_app, under_under, Hp3. by rewrite app_assoc.
        -- intros [key3 v] Hin Hpre. rewrite Hp3 in Hin.
           apply elem_of_app in Hin as [(key4 & -> & Hin)%in_under|Hin]; [|by eapply Hrest].
           apply (Hout _ Hin). by apply prefix_cons_inv_2 in Hpre.
        -- right. exists t. split_and!; [|done|done]. subst key2. cbn [pop_at]. rewrite E. cbn [pop_at] in E1. rewrite E1.
           cbn [rbind]. unfold d3. destruct d2; [by rewrite Hdel|by rewrite Hset].
    + exists [], d. by apply pop_at_missing.
Qed.
End depth.

(** ** The two kinds of store keep the laws *)

Section laws.
Context {A L : Type} `{EqDecision A}.

#[export] Program Instance tree_cache_laws : CacheTypeLaws A L (TreeCache A L) := {|
  ct_items := tree_items;
  ct_wf n c := root_wf n (root c) /\ tree_size c = Z.of_nat (List.length (tree_items c));
  ct_full n k := List.length k = S n;
  ct_partial n k := (1 <= List.length k <= S n)%nat;
  ct_covers := prefix
|}.
Next Obligation. intros n k Hk. simpl in *. lia. Qed.
Next Obligation.
  intros n k k' Hk Hk'. split; [intros [l ->]|by intros ->]. rewrite length_app in Hk'.
  destruct l; [by rewrite app_nil_r|simpl in *; lia].
Qed.
Next Obligation. intros n. split; [|done]. split; [apply root_wf_nil|done]. Qed.
Next Obligation.
  intros n c [Hd _]. split; [by eapply below_wf|]. intros k ([k' v] & -> & Hin)%list_elem_of_fmap.
  apply (in_below n) in Hin as (k0 & k2 & t & -> & Ht & Hi); [|done]. simpl. f_equal.
  eapply items_length, Hi. by apply (proj2 Hd (k0, t)).
Qed.
Next Obligation. intros n c k [Hd _] Hk. by apply get_at_spec with n. Qed.
Next Obligation.
  intros n c k e [Hd Hs] Hk Hf. destruct (set_at_spec n (root c) k e Hd Hk Hf) as (d' & E & Hd' & Hp).
  eexists. split; [simpl; unfold tree_set; rewrite E; reflexivity|]. split; [|done]. split; [done|].
  change (tree_items {| tree_size := tree_size c + 1; root := d' |}) with (below d'). rewrite Hp. simpl. rewrite Hs.
  unfold tree_items. fold (below (root c)). lia.
Qed.
Next Obligation.
  intros n c k [Hd Hs] Hk. destruct (pop_at_spec n (root c) k Hd Hk) as (gone & d' & Hd' & Hp & Hout & Hres).
  destruct Hres as [(-> & E & ->)|(t & E & -> & Ht)].
  - exists [], c. split_and!; [done|done|done|by intros kv ?%elem_of_nil|done|]. left. simpl. unfold tree_pop. by rewrite E.
  - set (c' := {| tree_size := tree_size c - Z.of_nat (List.length (iterate_tree_cache_entry t)); root := d' |}).
    exists (under k (iterate_tree_cache_items [] t)), c'. split; [split; [done|]|].
    { change (tree_items ?c) with (below (root c)) in *. unfold c'. simpl. rewrite Hs, Hp, length_app.
      rewrite (items_values _ _ Ht). unfold under. rewrite !length_fmap. lia. }
    split; [done|]. split; [|split; [done|]].
    { intros [key v] (key' & -> & _)%in_under. simpl. by exists key'. }
    right. exists t. split_and!.
    + simpl. unfold tree_pop. by rewrite E.
    + intros E'%fmap_nil_inv. by eapply items_nonempty.
    + rewrite under_values. by eapply items_values.
    + intros Hf. rewrite Hf, Nat.sub_diag in Ht. destruct t as [e|]; [|done]. exists e. split; [done|].
      unfold under. simpl. by rewrite app_nil_r.
Qed.
Next Obligation.
  intros n c [Hd _]. simpl. unfold tree_values, tree_items. destruct (root c) as [|kv d]; [done|].
  by apply (items_values (S n)).
Qed.
Next Obligation. by intros n c [_ Hs]. Qed.

#[export] Program Instance dict_cache_laws : CacheTypeLaws A L (list (list A * L)) := {|
  ct_items d := d;
  ct_wf n d := dict_wf d;
  ct_full n k := True;
  ct_partial n k := True;
  ct_covers := eq
|}.
Next Obligation. done. Qed.
Next Obligation. done. Qed.
Next Obligation. intros n. split; [apply NoDup_nil_2|done]. Qed.
Next Obligation. done. Qed.
Next Obligation. done. Qed.
Next Obligation.
  intros n d k e Hd _ Hk. eexists. split; [reflexivity|]. split; [by apply dset_wf|].
  rewrite dset_notin by done. by rewrite Permutation_app_comm.
Qed.
Next Obligation.
  intros n d k Hd _. destruct (dget k d) as [e|] eqn:E.
  - destruct (dget_split k e d Hd E) as (d1 & d2 & -> & Hk & Hdel & _). exists [(k, e)], (d1 ++ d2). split_and!.
    + unfold dict_wf in *. rewrite map_app in *. rewrite map_cons, <- Permutation_middle in Hd.
      by apply NoDup_cons in Hd as [_ Hd].
    + by rewrite <- Permutation_middle.
    + by intros kv ->%list_elem_of_singleton.
    + intros kv Hkv Hk2. by apply (Hk _ Hkv).
    + right. exists (Leaf e). simpl. rewrite E, Hdel. split_and!; eauto.
  - exists [], d. split_and!; [done|done|by intros kv ?%elem_of_nil|..].
    + intros kv Hkv Hk2. by apply (dget_none_keys _ _ E _ Hkv).
    + left. simpl. rewrite E. split_and!; [done| |done]. f_equal. f_equal. unfold ddel. apply filter_kept. by apply dget_none_keys.
Qed.
Next Obligation. done. Qed.
Next Obligation. done. Qed.
End laws.
