(* ===== verification/LruCache.v ===== *)
(** * LruCache: caches that forget what was used least recently (util/caches/lrucache.py)

    Every cache has a list of its entries, the most recently used first; the entries that
    may expire are also on one list for all caches.  The entries, the nodes of the lists and
    the caches are objects in the stores of one [Process] and refer to each other.  A
    callback is kept by its name, and running it is noted in [called]; a callback does not
    call back into the cache it is called from, whose lock is held.  Metrics and the tracking
    of memory are left out. *)
From S2P Require Import Prelude PyVal PySort PyState LinkedList TreeCache.
Open Scope list_scope.
Open Scope Z_scope.
Open Scope py_scope.
Open Scope st_scope.

(** What is outside: the clock, in whole seconds at its n-th reading, and the memory the
    process has allocated at the n-th time it is asked for, if jemalloc is there and answers. *)
Class LruEnv := {
  clock_secs : nat -> Z;
  has_jemalloc : bool;
  mem_usage : nat -> option Z
}.

(** A cache entry, [_Node]; [_cache] is a weak reference. *)
Record Node {A V CB : Type} := {
  _list_node : loc;
  _global_list_node : option loc;
  _cache : loc;
  key : list A;
  value : V;
  callbacks : option (list CB)
}.
Arguments Node : clear implicits.

Record LruCache {A V S : Type} := {
  cache : S;
  apply_cache_factor_from_config : bool;
  _original_max_size : Z;
  max_size : Z;
  list_root : loc;
  cached_cache_len : Z;
  extra_index : list (list A * list (list A));
  size_callback : option (V -> Z);
  extra_index_cb : option (list A -> V -> list A);
  prune_unread_entries : bool
}.
Arguments LruCache : clear implicits.

Record Process {A V CB S : Type} := {
  list_nodes : gmap loc (ListNode loc);
  nodes : gmap loc (Node A V CB);
  caches : gmap loc (LruCache A V S);
  GLOBAL_ROOT : loc;
  USE_GLOBAL_LIST : bool;
  called : list CB;
  readings : nat;
  mem_readings : nat
}.
Arguments Process : clear implicits.

Section lru.
Context {A V CB S : Type} `{EqDecision A, EqDecision V, EqDecision CB, !CacheType A loc S, SetOrder, LruEnv}.
Abbreviation Node := (Node A V CB).
Abbreviation LruCache := (LruCache A V S).
Abbreviation Process := (Process A V CB S).
Abbreviation LruM := (St Process).

(** ** The stores *)

Definition set_list_nodes (h : gmap loc (ListNode loc)) (s : Process) : Process :=
  {| list_nodes := h; nodes := nodes s; caches := caches s; GLOBAL_ROOT := GLOBAL_ROOT s;
     USE_GLOBAL_LIST := USE_GLOBAL_LIST s; called := called s; readings := readings s; mem_readings := mem_readings s |}.
Definition on_nodes (f : gmap loc Node -> gmap loc Node) (s : Process) : Process :=
  {| list_nodes := list_nodes s; nodes := f (nodes s); caches := caches s; GLOBAL_ROOT := GLOBAL_ROOT s;
     USE_GLOBAL_LIST := USE_GLOBAL_LIST s; called := called s; readings := readings s; mem_readings := mem_readings s |}.
Definition on_caches (f : gmap loc LruCache -> gmap loc LruCache) (s : Process) : Process :=
  {| list_nodes := list_nodes s; nodes := nodes s; caches := f (caches s); GLOBAL_ROOT := GLOBAL_ROOT s;
     USE_GLOBAL_LIST := USE_GLOBAL_LIST s; called := called s; readings := readings s; mem_readings := mem_readings s |}.
Definition set_globals (use : bool) (calls : list CB) (r m : nat) (s : Process) : Process :=
  {| list_nodes := list_nodes s; nodes := nodes s; caches := caches s; GLOBAL_ROOT := GLOBAL_ROOT s;
     USE_GLOBAL_LIST := use; called := calls; readings := r; mem_readings := m |}.

Definition in_lists {T} (c : St (gmap loc (ListNode loc)) T) : LruM T := st_zoom list_nodes set_list_nodes c.

Definition get_node (n : loc) : LruM Node :=
  fun s => match nodes s !! n with Some x => (Ok x, s) | None => (Err AttributeError, s) end.
Definition set_node (n : loc) (f : Node -> Node) : LruM unit := st_modify (on_nodes (alter f n)).
Definition self (c : loc) : LruM LruCache :=
  fun s => match caches s !! c with Some x => (Ok x, s) | None => (Err AttributeError, s) end.
Definition set_self (c : loc) (f : LruCache -> LruCache) : LruM unit := st_modify (on_caches (alter f c)).

Definition time_secs : LruM Z := fun s =>
  (Ok (clock_secs (readings s)), set_globals (USE_GLOBAL_LIST s) (called s) (1 + readings s) (mem_readings s) s).

(** [callback()] *)
Definition call (cb : CB) : LruM unit :=
  st_modify (fun s => set_globals (USE_GLOBAL_LIST s) (called s ++ [cb]) (readings s) (mem_readings s) s).

Definition set_callbacks (l : option (list CB)) (x : Node) : Node :=
  {| _list_node := _list_node x; _global_list_node := _global_list_node x; _cache := _cache x; key := key x;
     value := value x; callbacks := l |}.
Definition set_value (v : V) (x : Node) : Node :=
  {| _list_node := _list_node x; _global_list_node := _global_list_node x; _cache := _cache x; key := key x;
     value := v; callbacks := callbacks x |}.

Definition set_cache (d : S) (x : LruCache) : LruCache :=
  {| cache := d; apply_cache_factor_from_config := apply_cache_factor_from_config x;
     _original_max_size := _original_max_size x; max_size := max_size x; list_root := list_root x;
     cached_cache_len := cached_cache_len x; extra_index := extra_index x; size_callback := size_callback x;
     extra_index_cb := extra_index_cb x; prune_unread_entries := prune_unread_entries x |}.
Definition set_max_size (m : Z) (x : LruCache) : LruCache :=
  {| cache := cache x; apply_cache_factor_from_config := apply_cache_factor_from_config x;
     _original_max_size := _original_max_size x; max_size := m; list_root := list_root x;
     cached_cache_len := cached_cache_len x; extra_index := extra_index x; size_callback := size_callback x;
     extra_index_cb := extra_index_cb x; prune_unread_entries := prune_unread_entries x |}.
Definition set_cached_len (n : Z) (x : LruCache) : LruCache :=
  {| cache := cache x; apply_cache_factor_from_config := apply_cache_factor_from_config x;
     _original_max_size := _original_max_size x; max_size := max_size x; list_root := list_root x;
     cached_cache_len := n; extra_index := extra_index x; size_callback := size_callback x;
     extra_index_cb := extra_index_cb x; prune_unread_entries := prune_unread_entries x |}.
Definition set_index (i : list (list A * list (list A))) (x : LruCache) : LruCache :=
  {| cache := cache x; apply_cache_factor_from_config := apply_cache_factor_from_config x;
     _original_max_size := _original_max_size x; max_size := max_size x; list_root := list_root x;
     cached_cache_len := cached_cache_len x; extra_index := i; size_callback := size_callback x;
     extra_index_cb := extra_index_cb x; prune_unread_entries := prune_unread_entries x |}.

(** ** The class [_Node] *)

Definition add_callback (stored : list CB) (cb : CB) : list CB :=
  if decide (cb ∈ stored) then stored else stored ++ [cb].

Definition add_callbacks (n : loc) (cbs : list CB) : LruM unit :=
  match cbs with
  | [] => st_ret tt
  | _ => set_node n (fun x => set_callbacks (Some (fold_left add_callback cbs (default [] (callbacks x)))) x)
  end.

Definition run_and_clear_callbacks (n : loc) : LruM unit :=
  let! x := get_node n in
  match callbacks x with
  | None | Some [] => st_ret tt
  | Some cbs => st_for call cbs ;;! set_node n (set_callbacks None)
  end.

Definition new_lru_node (c root : loc) (k : list A) (v : V) (cbs : list CB) (prune : bool) : LruM loc :=
  let! n := st_read (fun s => fresh (dom (nodes s))) in
  let! l := in_lists (insert_after n root) in
  let! use := st_read USE_GLOBAL_LIST in
  let! g := (if use && prune
             then let! global_root := st_read GLOBAL_ROOT in
                  let! g := in_lists (insert_after n global_root) in
                  let! now := time_secs in
                  in_lists (update_last_access g now) ;;! st_ret (Some g)
             else st_ret None) in
  st_modify (on_nodes (insert n {| _list_node := l; _global_list_node := g; _cache := c; key := k; value := v;
                                   callbacks := None |})) ;;!
  add_callbacks n cbs ;;! st_ret n.

Definition drop_from_lists (n : loc) : LruM unit :=
  let! x := get_node n in
  in_lists (remove_from_list (_list_node x)) ;;!
  match _global_list_node x with
  | Some g => in_lists (remove_from_list g)
  | None => st_ret tt
  end.

Definition move_to_front (n cache_list_root : loc) : LruM unit :=
  let! x := get_node n in
  in_lists (move_after (_list_node x) cache_list_root) ;;!
  match _global_list_node x with
  | Some g =>
      let! global_root := st_read GLOBAL_ROOT in
      in_lists (move_after g global_root) ;;!
      let! now := time_secs in
      in_lists (update_last_access g now)
  | None => st_ret tt
  end.

(** ** The functions inside [LruCache.__init__] *)

Definition cache_len (x : LruCache) : Z :=
  match size_callback x with Some _ => cached_cache_len x | None => ct_len (cache x) end.

(** [cache.pop(key, None)] on what backs the cache. *)
Definition pop_raw (c : loc) (k : list A) : LruM (option (tree A loc)) :=
  let! x := self c in
  let! (popped, d) := st_lift (ct_pop k (cache x)) in
  set_self c (set_cache d) ;;! st_ret popped.

(** [mapped_keys.discard(node.key)], and the index without a set that became empty. *)
Definition unindex (ik k : list A) (i : list (list A * list (list A))) : list (list A * list (list A)) :=
  match dget ik i with
  | None => i
  | Some mapped_keys =>
      match filter (fun k' => k' <> k) mapped_keys with
      | [] => ddel ik i
      | mapped_keys => dset ik mapped_keys i
      end
  end.

Definition index_add (ik k : list A) (i : list (list A * list (list A))) : list (list A * list (list A)) :=
  let mapped_keys := default [] (dget ik i) in
  dset ik (if decide (k ∈ mapped_keys) then mapped_keys else mapped_keys ++ [k]) i.

Definition delete_node (c n : loc) : LruM Z :=
  drop_from_lists n ;;!
  let! node := get_node n in
  let! x := self c in
  let deleted_len := match size_callback x with Some f => f (value node) | None => 1 end in
  match size_callback x with
  | Some _ => set_self c (fun x => set_cached_len (cached_cache_len x - deleted_len) x)
  | None => st_ret tt
  end ;;!
  run_and_clear_callbacks n ;;!
  match extra_index_cb x with
  | Some f => set_self c (fun x => set_index (unindex (f (key node) (value node)) (key node) (extra_index x)) x)
  | None => st_ret tt
  end ;;!
  st_ret deleted_len.

Definition add_node (c : loc) (k : list A) (v : V) (cbs : list CB) : LruM unit :=
  let! x := self c in
  let! n := new_lru_node c (list_root x) k v cbs (prune_unread_entries x) in
  let! d := st_lift (ct_set k n (cache x)) in
  set_self c (set_cache d) ;;!
  match size_callback x with
  | Some f => set_self c (fun x => set_cached_len (cached_cache_len x + f v) x)
  | None => st_ret tt
  end ;;!
  match extra_index_cb x with
  | Some f => set_self c (fun x => set_index (index_add (f k v) k (extra_index x)) x)
  | None => st_ret tt
  end.

(** The last node in the list is the oldest. *)
Fixpoint evict_loop (fuel : nat) (c : loc) : LruM unit :=
  let! x := self c in
  if max_size x <? cache_len x then
    match fuel with
    | O => st_raise OutOfFuel
    | Datatypes.S fuel =>
        let! root := in_lists (deref (list_root x)) in
        match prev_node root with
        | None => st_raise AssertionError
        | Some todelete =>
            let! node := in_lists (get_cache_entry todelete) in
            match node with
            | None => st_raise AssertionError
            | Some n =>
                delete_node c n ;;!
                let! node := get_node n in
                pop_raw c (key node) ;;! evict_loop fuel c
            end
        end
    end
  else st_ret tt.

Definition evict (c : loc) : LruM unit :=
  let! x := self c in evict_loop (1 + List.length (ct_values (cache x))) c.

(** [cache.get(key, None)], where the code goes on to use an entry: a [TreeCacheNode] has
    none of its attributes. *)
Definition lookup_node (c : loc) (k : list A) : LruM (option loc) :=
  let! x := self c in
  let! found := st_lift (ct_get k (cache x)) in
  match found with
  | None => st_ret None
  | Some (Leaf n) => st_ret (Some n)
  | Some (TreeCacheNode _) => st_raise AttributeError
  end.

Definition cache_get (c : loc) (k : list A) (cbs : list CB) (update_last_access : bool) : LruM (option V) :=
  let! node := lookup_node c k in
  match node with
  | None => st_ret None
  | Some n =>
      let! x := self c in
      (if update_last_access then move_to_front n (list_root x) else st_ret tt) ;;!
      add_callbacks n cbs ;;!
      let! node := get_node n in st_ret (Some (value node))
  end.

(** The generator is read to its end at once. *)
Definition cache_get_multi (c : loc) (k : list A) : LruM (option (list (list A * V))) :=
  if negb is_tree_cache then st_raise AssertionError
  else
    let! x := self c in
    let! found := st_lift (ct_get k (cache x)) in
    match found with
    | None => st_ret None
    | Some t =>
        let! items := st_fold (fun acc '(full_key, n) => let! node := get_node n in st_ret (acc ++ [(full_key, value node)]))
                        [] (iterate_tree_cache_items k t) in
        st_ret (Some items)
    end.

Definition cache_set (c : loc) (k : list A) (v : V) (cbs : list CB) : LruM unit :=
  let! node := lookup_node c k in
  match node with
  | Some n =>
      let! node := get_node n in
      (if decide (v = value node) then st_ret tt else run_and_clear_callbacks n) ;;!
      let! x := self c in
      match size_callback x with
      | Some f => set_self c (fun x => set_cached_len (cached_cache_len x - f (value node)) x) ;;!
                  set_self c (fun x => set_cached_len (cached_cache_len x + f v) x)
      | None => st_ret tt
      end ;;!
      add_callbacks n cbs ;;!
      move_to_front n (list_root x) ;;!
      set_node n (set_value v)
  | None => add_node c k v (set_iter (remove_dups cbs))
  end ;;!
  evict c.

Definition cache_set_default (c : loc) (k : list A) (v : V) : LruM V :=
  let! node := lookup_node c k in
  match node with
  | Some n => let! node := get_node n in st_ret (value node)
  | None => add_node c k v [] ;;! evict c ;;! st_ret v
  end.

Definition cache_pop (c : loc) (k : list A) : LruM (option V) :=
  let! node := lookup_node c k in
  match node with
  | Some n =>
      delete_node c n ;;!
      let! node := get_node n in
      pop_raw c (key node) ;;! st_ret (Some (value node))
  | None => st_ret None
  end.

Definition cache_del_multi (c : loc) (k : list A) : LruM unit :=
  let! popped := pop_raw c k in
  match popped with
  | None => st_ret tt
  | Some t => st_for (fun n => delete_node c n ;;! st_ret tt) (iterate_tree_cache_entry t)
  end.

Definition cache_clear (c : loc) : LruM unit :=
  let! x := self c in
  st_for (fun n => run_and_clear_callbacks n ;;! drop_from_lists n) (ct_values (cache x)) ;;!
  let! root := in_lists (deref (list_root x)) in
  if decide (next_node root = Some (list_root x) /\ prev_node root = Some (list_root x))
  then set_self c (set_cache ct_new) ;;!
       match size_callback x with Some _ => set_self c (set_cached_len 0) | None => st_ret tt end ;;!
       set_self c (set_index [])
  else st_raise AssertionError.

Definition cache_contains (c : loc) (k : list A) : LruM bool :=
  let! x := self c in
  let! found := st_lift (ct_get k (cache x)) in
  st_ret (bool_decide (is_Some found)).

Definition invalidate_key (c : loc) (k : list A) : LruM unit :=
  let! popped := pop_raw c k in
  match popped with
  | None => st_ret tt
  | Some (Leaf n) => delete_node c n ;;! st_ret tt
  | Some (TreeCacheNode []) => st_ret tt
  | Some (TreeCacheNode _) => st_raise AttributeError
  end.

Definition cache_invalidate_on_extra_index (c : loc) (index_key : list A) : LruM unit :=
  let! x := self c in
  match extra_index_cb x with
  | None => st_raise AssertionError
  | Some _ =>
      set_self c (fun x => set_index (ddel index_key (extra_index x)) x) ;;!
      match dget index_key (extra_index x) with
      | None | Some [] => st_ret tt
      | Some keys => st_for (invalidate_key c) (set_iter keys)
      end
  end.

(** ** The class [LruCache] *)

(** [max_size] is [int(max_size * default_factor_size)], or [int(max_size)] where the factor
    is not applied. *)
Definition new_lru_cache (original max : Z) (apply : bool) (size_cb : option (V -> Z))
    (index_cb : option (list A -> V -> list A)) (prune : bool) : LruM loc :=
  let! root := in_lists create_root_node in
  let! c := st_read (fun s => fresh (dom (caches s))) in
  st_modify (on_caches (insert c
    {| cache := ct_new; apply_cache_factor_from_config := apply; _original_max_size := original; max_size := max;
       list_root := root; cached_cache_len := 0; extra_index := []; size_callback := size_cb;
       extra_index_cb := index_cb; prune_unread_entries := prune |})) ;;!
  st_ret c.

Definition len (c : loc) : LruM Z := let! x := self c in st_ret (cache_len x).

Definition __getitem__ (c : loc) (k : list A) : LruM V :=
  let! result := cache_get c k [] true in
  match result with Some v => st_ret v | None => st_raise KeyError end.

(** The method takes a value it does not use. *)
Definition __delitem__ (c : loc) (k : list A) (_ : V) : LruM unit :=
  let! result := cache_pop c k in
  match result with Some _ => st_ret tt | None => st_raise KeyError end.

(** [new_size] is [int(self._original_max_size * factor)]. *)
Definition set_cache_factor (c : loc) (new_size : Z) : LruM unit :=
  let! x := self c in
  if negb (apply_cache_factor_from_config x) then st_ret tt
  else if new_size =? max_size x then st_ret tt
  else set_self c (set_max_size new_size) ;;! evict c.

Definition __del__ (c : loc) : LruM unit := cache_clear c ;;! st_modify (on_caches (delete c)).

Definition drop_from_cache (n : loc) : LruM unit :=
  let! x := get_node n in
  let! alive := st_read (fun s => caches s !! _cache x) in
  match alive with
  | None => drop_from_lists n
  | Some _ =>
      let! popped := cache_pop (_cache x) (key x) in
      match popped with None => drop_from_lists n | Some _ => st_ret tt end
  end.

(** ** Expiry *)

(** [max_cache_memory_usage], [target_cache_memory_usage], and [min_cache_ttl] in
    milliseconds. *)
Record autotuning := { max_cache_memory_usage : Z; target_cache_memory_usage : Z; min_cache_ttl : Z }.

Definition memory_allocated : LruM (option Z) := fun s =>
  (Ok (mem_usage (mem_readings s)), set_globals (USE_GLOBAL_LIST s) (called s) (readings s) (1 + mem_readings s) s).

(** [node.last_access_ts_secs > now - expiry_seconds], with the expiry in milliseconds, or
    without end.  The float differs from the fraction by less than what is between a whole
    number and a fraction of thousandths that is none. *)
Definition still_fresh (expiry : option Z) (now t : Z) : bool :=
  match expiry with None => true | Some ms => now * 1000 - ms <? t * 1000 end.

(** What the other callers do while the loop sleeps is [sleep]. *)
Fixpoint expire_loop (fuel : nat) (sleep : Z -> LruM unit) (expiry : option Z) (autotune_config : option autotuning)
    (now : Z) (node : loc) (evicting_due_to_memory : bool) (i : Z) : LruM Z :=
  match fuel with
  | O => st_raise OutOfFuel
  | Datatypes.S fuel =>
      let! global_root := st_read GLOBAL_ROOT in
      if decide (node = global_root) then st_ret i
      else
        let! x := in_lists (deref node) in
        match last_access_ts_secs x with
        | None => st_raise AttributeError
        | Some t =>
            let ttl := match autotune_config with Some a => min_cache_ttl a | None => 0 end in
            if (still_fresh expiry now t && negb evicting_due_to_memory)
               || (evicting_due_to_memory && ((now - t) * 1000 <? ttl))
            then st_ret i
            else match prev_node x, cache_entry x with
            | Some next_node, Some n =>
                drop_from_cache n ;;!
                let! evicting_due_to_memory :=
                  (match autotune_config with
                   | Some a =>
                       if has_jemalloc && evicting_due_to_memory && ((i + 1) mod 100 =? 0)
                       then let! mem := memory_allocated in
                            st_ret (match mem with
                                    | Some m => negb (m <? target_cache_memory_usage a)
                                    | None => false
                                    end)
                       else st_ret evicting_due_to_memory
                   | None => st_ret evicting_due_to_memory
                   end) in
                (if (i + 1) mod 10000 =? 0 then sleep (i + 1) else st_ret tt) ;;!
                let! y := in_lists (deref next_node) in
                match prev_node y with
                | None => st_ret i
                | Some _ => expire_loop fuel sleep expiry autotune_config now next_node evicting_due_to_memory (i + 1)
                end
            | _, _ => st_raise AssertionError
            end
        end
  end.

Definition _expire_old_entries (fuel : nat) (sleep : Z -> LruM unit) (expiry : option Z)
    (autotune_config : option autotuning) : LruM Z :=
  let! now := time_secs in
  let! global_root := st_read GLOBAL_ROOT in
  let! root := in_lists (deref global_root) in
  match prev_node root with
  | None => st_raise AssertionError
  | Some node =>
      let! evicting_due_to_memory :=
        (match autotune_config with
         | Some a =>
             if has_jemalloc
             then let! mem := memory_allocated in
                  st_ret (match mem with Some m => max_cache_memory_usage a <? m | None => false end)
             else st_ret false
         | None => st_ret false
         end) in
      expire_loop fuel sleep expiry autotune_config now node evicting_due_to_memory 0
  end.

(** Whether the job runs, and the expiry it runs with. *)
Definition setup_expire_lru_cache_entries (expiry_time_msec : Z) (cache_autotuning : option autotuning)
    : LruM (option (option Z)) :=
  if (expiry_time_msec =? 0) && bool_decide (cache_autotuning = None) then st_ret None
  else st_modify (fun s => set_globals true (called s) (readings s) (mem_readings s) s) ;;!
       st_ret (Some (if expiry_time_msec =? 0 then None else Some expiry_time_msec)).

(** ** The class [AsyncLruCache] *)

(** The default is not used. *)
Definition async_get (c : loc) (k : list A) (_ : option V) : LruM (option V) := cache_get c k [] true.
Definition get_external (c : loc) (k : list A) : LruM (option V) := st_ret None.
Definition get_local (c : loc) (k : list A) (_ : option V) : LruM (option V) := cache_get c k [] true.
Definition set_external (c : loc) (k : list A) (v : V) : LruM unit := st_ret tt.
Definition set_local (c : loc) (k : list A) (v : V) : LruM unit := cache_set c k v [].
Definition async_set (c : loc) (k : list A) (v : V) : LruM unit := set_local c k v ;;! set_external c k v.
End lru.

(** The process when the module has been imported. *)
Definition initial_process {A V CB S : Type} : Process A V CB S :=
  let (root, h) := create_root_node ∅ in
  {| list_nodes := h; nodes := ∅; caches := ∅;
     GLOBAL_ROOT := match root with Ok r => r | Err _ => 1%positive end;
     USE_GLOBAL_LIST := false; called := []; readings := 0; mem_readings := 0 |}.
