(* ===== verification/LruEntries.v ===== *)
(** * LruEntries: how the entries of a cache come, move and go

    First the specification, [lru_step]: a cache is a list of items, the most recently used
    first.  Then what the stores of a process hold: in [core s R E G], [E] gives each cache its
    entries and [G] is the list of all entries that may expire, with their nodes.  Taking an
    entry off the lists, putting it in front, adding one and evicting are shown to do to [E]
    what they should; [becomes] sums up what a call does to one cache. *)
From S2P Require Import Prelude PyVal PySort PyState LinkedList TreeCache LruCache.
From stdpp Require Import sorting.
Open Scope list_scope.
Open Scope Z_scope.
Open Scope py_scope.
Open Scope st_scope.

(** ** The specification: a cache is a list of items *)

Section spec.
Context {A V CB : Type} `{EqDecision A, EqDecision V, EqDecision CB}.

Record Item := { item_key : list A; item_value : V; item_callbacks : list CB }.

(** The items, the most recently used first, and what the cache was made with. *)
Record Lru := {
  lru_items : list Item;
  lru_max : Z;
  lru_size : option (V -> Z);
  lru_index : option (list A -> V -> list A);
  lru_resizable : bool
}.

Definition with_items (l : list Item) (a : Lru) : Lru :=
  {| lru_items := l; lru_max := lru_max a; lru_size := lru_size a; lru_index := lru_index a; lru_resizable := lru_resizable a |}.
Definition with_max (m : Z) (a : Lru) : Lru :=
  {| lru_items := lru_items a; lru_max := m; lru_size := lru_size a; lru_index := lru_index a; lru_resizable := lru_resizable a |}.

Definition total_size (size_cb : option (V -> Z)) (vs : list V) : Z :=
  match size_cb with Some f => foldr (fun v acc => f v + acc) 0 vs | None => Z.of_nat (List.length vs) end.

Definition lru_total (a : Lru) (l : list Item) : Z := total_size (lru_size a) (item_value <$> l).

Definition calls_of (l : list Item) : list CB := flat_map item_callbacks l.

(** The items that stay are the longest beginning that fits; of the others, the oldest goes
    first. *)
Definition lru_evicts (a : Lru) (l : list Item) (calls : list CB) (kept : list Item) : Prop :=
  exists gone, l = kept ++ gone /\ calls = calls_of (reverse gone) /\ lru_total a kept <= lru_max a /\
  forall p q, l = p ++ q -> (List.length kept < List.length p)%nat -> lru_max a < lru_total a p.

(** [gone] are the items of [l] with a property, in some order, and [kept] the others. *)
Definition taken (Q : Item -> Prop) (l gone kept : list Item) : Prop :=
  l ≡ₚ gone ++ kept /\ kept `sublist_of` l /\ (forall i, i ∈ gone -> Q i) /\ (forall i, i ∈ kept -> ~ Q i).

Inductive op :=
  | Get (k : list A) (cbs : list CB) (update_last_access : bool)
  | Put (k : list A) (v : V) (cbs : list CB)
  | SetDefault (k : list A) (v : V)
  | Pop (k : list A)
  | DelMulti (k : list A)
  | Clear
  | Contains (k : list A)
  | InvalidateIndex (index_key : list A)
  | Len.

Inductive answer :=
  | AUnit
  | AValue (o : option V)
  | ABool (b : bool)
  | AInt (n : Z)
  | ACache (c : loc).

(** The callbacks an item has, and those it has not yet. *)
Definition more_callbacks (cbs stored : list CB) : list CB := fold_left add_callback cbs stored.

(** The property of a key by which [DelMulti] takes out others. *)
Context (covers : list A -> list A -> Prop).

Inductive lru_step (a : Lru) : op -> answer -> list CB -> Lru -> Prop :=
  | step_get_miss k cbs t : k ∉ item_key <$> lru_items a -> lru_step a (Get k cbs t) (AValue None) [] a
  | step_get_hit k cbs (t : bool) l1 i l2 i' : lru_items a = l1 ++ i :: l2 -> item_key i = k ->
      i' = {| item_key := k; item_value := item_value i; item_callbacks := more_callbacks cbs (item_callbacks i) |} ->
      lru_step a (Get k cbs t) (AValue (Some (item_value i))) []
        (with_items (if t then i' :: l1 ++ l2 else l1 ++ i' :: l2) a)
  | step_set_miss k v cbs cbs' calls l : k ∉ item_key <$> lru_items a -> cbs' ≡ₚ remove_dups cbs ->
      lru_evicts a ({| item_key := k; item_value := v; item_callbacks := cbs' |} :: lru_items a) calls l ->
      lru_step a (Put k v cbs) AUnit calls (with_items l a)
  | step_set_same k cbs l1 i l2 calls l : lru_items a = l1 ++ i :: l2 -> item_key i = k ->
      lru_evicts a ({| item_key := k; item_value := item_value i;
                       item_callbacks := more_callbacks cbs (item_callbacks i) |} :: l1 ++ l2) calls l ->
      lru_step a (Put k (item_value i) cbs) AUnit calls (with_items l a)
  | step_set_other k v cbs l1 i l2 calls l : lru_items a = l1 ++ i :: l2 -> item_key i = k -> v <> item_value i ->
      lru_evicts a ({| item_key := k; item_value := v; item_callbacks := more_callbacks cbs [] |} :: l1 ++ l2) calls l ->
      lru_step a (Put k v cbs) AUnit (item_callbacks i ++ calls) (with_items l a)
  | step_default_miss k v calls l : k ∉ item_key <$> lru_items a ->
      lru_evicts a ({| item_key := k; item_value := v; item_callbacks := [] |} :: lru_items a) calls l ->
      lru_step a (SetDefault k v) (AValue (Some v)) calls (with_items l a)
  | step_default_hit k v i : i ∈ lru_items a -> item_key i = k ->
      lru_step a (SetDefault k v) (AValue (Some (item_value i))) [] a
  | step_pop_miss k : k ∉ item_key <$> lru_items a -> lru_step a (Pop k) (AValue None) [] a
  | step_pop_hit k l1 i l2 : lru_items a = l1 ++ i :: l2 -> item_key i = k ->
      lru_step a (Pop k) (AValue (Some (item_value i))) (item_callbacks i) (with_items (l1 ++ l2) a)
  | step_del k gone l calls : taken (fun i => covers k (item_key i)) (lru_items a) gone l -> calls = calls_of gone ->
      lru_step a (DelMulti k) AUnit calls (with_items l a)
  | step_clear gone calls : gone ≡ₚ lru_items a -> calls = calls_of gone ->
      lru_step a Clear AUnit calls (with_items [] a)
  | step_contains k : lru_step a (Contains k) (ABool (bool_decide (k ∈ item_key <$> lru_items a))) [] a
  | step_invalidate ik f gone l calls : lru_index a = Some f ->
      taken (fun i => f (item_key i) (item_value i) = ik) (lru_items a) gone l -> calls = calls_of gone ->
      lru_step a (InvalidateIndex ik) AUnit calls (with_items l a)
  | step_len : lru_step a Len (AInt (lru_total a (lru_items a))) [] a.
End spec.
Arguments Item : clear implicits.
Arguments Lru : clear implicits.
Arguments op : clear implicits.
Arguments answer : clear implicits.

(** Readings of the clock do not go back. *)
Class LruClock `{LruEnv} : Prop := clock_mono m n : (m <= n)%nat -> clock_secs m <= clock_secs n.

Section lru.
Context {A V CB S : Type} `{EqDecision A, EqDecision V, EqDecision CB, !CacheType A loc S, SetOrder, !LruEnv, !LruClock}.
Abbreviation Node := (Node A V CB).
Abbreviation LruCache := (LruCache A V S).
Abbreviation Process := (Process A V CB S).
Abbreviation LruM := (St Process).
Abbreviation entries := (list (loc * Node)).
Implicit Types (s : Process) (x : LruCache) (e : Node) (es : entries).

(** ** The lists and the entries *)

Definition lnode (ne : loc * Node) : loc := _list_node ne.2.

(** Times on the list of all entries go back, from a time not after the present. *)
Definition later s (a b : loc * loc) : Prop := exists t t',
  accessed (list_nodes s) a.2 = Some t /\ accessed (list_nodes s) b.2 = Some t' /\ t' <= t.
Definition times_ok s (G : list (loc * loc)) : Prop :=
  (forall n g, (n, g) ∈ G -> exists t, accessed (list_nodes s) g = Some t /\ t <= clock_secs (readings s)) /\
  StronglySorted (later s) G.

Record core s (R : gmap loc (list loc)) (E : gmap loc entries) (G : list (loc * loc)) : Prop := {
  c_lists : lists (list_nodes s) R;
  c_global : R !! GLOBAL_ROOT s = Some G.*2;
  c_dom c : is_Some (caches s !! c) <-> is_Some (E !! c);
  c_ring c x es : caches s !! c = Some x -> E !! c = Some es -> R !! list_root x = Some (lnode <$> es);
  c_root c x : caches s !! c = Some x -> list_root x <> GLOBAL_ROOT s;
  c_roots c c' x x' : caches s !! c = Some x -> caches s !! c' = Some x' -> list_root x = list_root x' -> c = c';
  c_node c es n e : E !! c = Some es -> (n, e) ∈ es ->
    nodes s !! n = Some e /\ _cache e = c /\ held (list_nodes s) (_list_node e) = Some n;
  c_timed n g : (n, g) ∈ G <-> exists c es e, E !! c = Some es /\ (n, e) ∈ es /\ _global_list_node e = Some g;
  c_held n g : (n, g) ∈ G -> held (list_nodes s) g = Some n;
  c_times : times_ok s G
}.

(** What a cache holds besides, and what its counters say. *)
Definition stable (f : list A -> V -> list A) : Prop := forall k v v', f k v = f k v'.

Definition index_ok (f : list A -> V -> list A) (i : list (list A * list (list A))) es : Prop :=
  dict_wf i /\ (forall ik ks, dget ik i = Some ks -> ks <> [] /\ NoDup ks) /\
  forall ik k, (exists ks, dget ik i = Some ks /\ k ∈ ks) <-> exists n e, (n, e) ∈ es /\ key e = k /\ f k (value e) = ik.

Definition values es : list V := (fun ne => value ne.2) <$> es.

Definition keyed es : list (list A * loc) := (fun ne => (key ne.2, ne.1)) <$> es.

Definition counters_ok (kept : (list A -> V -> list A) -> Prop) x es : Prop :=
  (forall f, size_callback x = Some f -> cached_cache_len x = total_size (Some f) (values es)) /\
  (forall f, extra_index_cb x = Some f -> kept f -> index_ok f (extra_index x) es).

(** ** Changes of one cache *)

Lemma core_self s R E G c x f : core s R E G -> caches s !! c = Some x -> list_root (f x) = list_root x ->
  core (on_caches (alter f c) s) R E G.
Proof.
  intros [] Hc Hf.
  assert (Hl : forall c' x', alter f c (caches s) !! c' = Some x' -> exists x0, caches s !! c' = Some x0 /\ list_root x' = list_root x0).
  { intros c' x'. destruct (decide (c = c')) as [->|].
    - rewrite lookup_alter_eq, Hc. intros [= <-]. eauto.
    - rewrite lookup_alter_ne by done. eauto. }
  split; simpl; try done.
  - intros c'. by rewrite lookup_alter_is_Some.
  - intros c' x' es (x0 & Hx0 & ->)%Hl. by apply c_ring0.
  - intros c' x' (x0 & Hx0 & ->)%Hl. by eapply c_root0.
  - intros c1 c2 x1 x2 (x1' & Hx1 & ->)%Hl (x2' & Hx2 & ->)%Hl. by apply c_roots0.
Qed.

Lemma core_node_unused s R E G n f : core s R E G -> (forall c es e, E !! c = Some es -> (n, e) ∉ es) ->
  core (on_nodes (alter f n) s) R E G.
Proof.
  intros [] Hn. split; simpl; try done. intros c es n' e Hc Hin. rewrite lookup_alter_ne; [by eapply c_node0|].
  intros <-. by eapply Hn.
Qed.

Lemma core_called s R E G l : core s R E G -> core (set_globals (USE_GLOBAL_LIST s) l (readings s) (mem_readings s) s) R E G.
Proof. by intros []. Qed.

(** ** An entry in its lists *)

Lemma core_unique s R E G c es n e c' es' e' : core s R E G -> E !! c = Some es -> (n, e) ∈ es ->
  E !! c' = Some es' -> (n, e') ∈ es' -> c = c' /\ e = e'.
Proof.
  intros HC Hc Hn Hc' Hn'. destruct (c_node _ _ _ _ HC _ _ _ _ Hc Hn) as (Hx & Hr & _).
  destruct (c_node _ _ _ _ HC _ _ _ _ Hc' Hn') as (Hx' & Hr' & _). split; congruence.
Qed.

Lemma core_nodup s R E G c es : core s R E G -> E !! c = Some es -> NoDup es.*1.
Proof.
  intros HC Hc. destruct (proj2 (c_dom _ _ _ _ HC c)) as [x Hx]; [by eexists|].
  pose proof (c_ring _ _ _ _ HC _ _ _ Hx Hc) as HR. apply (lists_nodup _ _ (c_lists _ _ _ _ HC)) in HR.
  apply NoDup_cons in HR as [_ HR]. clear Hx.
  assert (Hu : forall n e, (n, e) ∈ es -> nodes s !! n = Some e) by (intros n e Hn; by eapply c_node).
  clear HC Hc. induction es as [|[n e] es IH]; [apply NoDup_nil_2|]. simpl in *. apply NoDup_cons in HR as [Hl HR].
  apply NoDup_cons. split; [|apply IH; [done|]; intros; apply Hu; by right].
  intros ([n' e'] & -> & Hn)%list_elem_of_fmap. apply Hl, list_elem_of_fmap. exists (n', e'). split; [|done].
  assert (Hee : Some e = Some e') by (rewrite <- (Hu n' e), <- (Hu n' e'); [done|by right|left]). by injection Hee as ->.
Qed.

Lemma core_global_nodup s R E G : core s R E G -> NoDup G.*1 /\ NoDup G.*2.
Proof.
  intros HC. assert (Hnd : NoDup G.*2).
  { pose proof (lists_nodup _ _ (c_lists _ _ _ _ HC) _ _ (c_global _ _ _ _ HC)) as Hn. by apply NoDup_cons in Hn as [_ Hn]. }
  split; [|done].
  assert (Hu : forall n g g', (n, g) ∈ G -> (n, g') ∈ G -> g = g').
  { intros n g g' (c & es & e & Hc & Hn & Hg)%(c_timed _ _ _ _ HC) (c' & es' & e' & Hc' & Hn' & Hg')%(c_timed _ _ _ _ HC).
    destruct (core_unique _ _ _ _ _ _ _ _ _ _ _ HC Hc Hn Hc' Hn') as [-> ->]. congruence. }
  clear HC. induction G as [|[n g] G IH]; [apply NoDup_nil_2|]. simpl in *. apply NoDup_cons in Hnd as [Hg Hnd].
  apply NoDup_cons. split; [|apply IH; [done|]; intros; eapply Hu; by right].
  intros ([n' g'] & -> & Hn)%list_elem_of_fmap. apply Hg, list_elem_of_fmap. exists (n', g'). split; [|done].
  eapply Hu; [left|by right].
Qed.

Lemma get_node_ok s n e : nodes s !! n = Some e -> get_node n s = (Ok e, s).
Proof. unfold get_node. by intros ->. Qed.
Lemma self_ok s c x : caches s !! c = Some x -> self c s = (Ok x, s).
Proof. unfold self. by intros ->. Qed.

(** A change of the lists that does not touch what an entry is. *)
Lemma in_lists_ok {T} (c : St (gmap loc (ListNode loc)) T) s r h' : c (list_nodes s) = (r, h') ->
  in_lists c s = (r, set_list_nodes h' s).
Proof. unfold in_lists, st_zoom. by intros ->. Qed.

Definition other_than (n : loc) (ng : loc * loc) : Prop := ng.1 <> n.

Lemma filter_other n (G : list (loc * loc)) : n ∉ G.*1 -> filter (other_than n) G = G.
Proof. intros Hn. apply filter_kept. intros ng Hng He. apply Hn, list_elem_of_fmap. exists ng. split; [by symmetry|done]. Qed.

Lemma filter_middle n g (G1 G2 : list (loc * loc)) : NoDup (G1 ++ (n, g) :: G2).*1 ->
  filter (other_than n) (G1 ++ (n, g) :: G2) = G1 ++ G2.
Proof.
  rewrite fmap_app, fmap_cons, NoDup_app, NoDup_cons. intros (_ & Hd & Hn & _).
  rewrite filter_app, filter_cons, decide_False by (intros Hf; by apply Hf).
  rewrite !filter_other; [done|done|]. intros Hin. apply (Hd n Hin). left.
Qed.

Lemma StronglySorted_filter {T} (Q : T -> T -> Prop) (P : T -> Prop) `{forall y, Decision (P y)} l :
  StronglySorted Q l -> StronglySorted Q (filter P l).
Proof.
  induction l as [|y l IH]; [done|]. rewrite StronglySorted_cons. intros [Hy Hl]. rewrite filter_cons.
  case_decide; [|by apply IH]. apply StronglySorted_cons. split; [|by apply IH].
  rewrite Forall_forall in *. intros z [_ Hz]%list_elem_of_filter. by apply Hy.
Qed.

Lemma StronglySorted_weaken {T} (Q Q' : T -> T -> Prop) l :
  (forall a b, a ∈ l -> b ∈ l -> Q a b -> Q' a b) -> StronglySorted Q l -> StronglySorted Q' l.
Proof.
  induction l as [|y l IH]; intros Hq; [intros _; constructor|]. rewrite !StronglySorted_cons, !Forall_forall. intros [Hy Hl].
  split; [|apply IH; [|done]].
  - intros z Hz. apply Hq; [left|by right|by apply Hy].
  - intros a b Ha Hb. apply Hq; by right.
Qed.

(** The entry [n] is no more on the lists. *)
Lemma core_forget s R E G c x es1 n e es2 h' R' :
  core s R E G -> caches s !! c = Some x -> E !! c = Some (es1 ++ (n, e) :: es2) -> lists h' R' ->
  R' !! GLOBAL_ROOT s = Some (filter (other_than n) G).*2 -> R' !! list_root x = Some (lnode <$> es1 ++ es2) ->
  (forall r, r <> list_root x -> r <> GLOBAL_ROOT s -> R' !! r = R !! r) ->
  (forall m, held (list_nodes s) m <> Some n -> held h' m = held (list_nodes s) m /\ accessed h' m = accessed (list_nodes s) m) ->
  core (set_list_nodes h' s) R' (<[c := es1 ++ es2]> E) (filter (other_than n) G).
Proof.
  intros HC Hc He HR' HG Hroot Hother Hsame. pose proof (core_nodup _ _ _ _ _ _ HC He) as Hnd.
  assert (Hn : forall c' es', <[c := es1 ++ es2]> E !! c' = Some es' -> forall n' e', (n', e') ∈ es' ->
            n' <> n /\ exists es, E !! c' = Some es /\ (n', e') ∈ es).
  { intros c' es' [[<- <-]|[Hne E']]%lookup_insert_Some n' e' Hin.
    - rewrite fmap_app, fmap_cons in Hnd. apply NoDup_app in Hnd as (_ & Hd & [Hn2 _]%NoDup_cons). split.
      + intros ->. apply elem_of_app in Hin as [Hin|Hin]; [|apply Hn2, list_elem_of_fmap; by exists (n, e')].
        apply (Hd n); [apply list_elem_of_fmap; by exists (n, e')|left].
      + exists (es1 ++ (n, e) :: es2). split; [done|]. rewrite elem_of_app, elem_of_cons in *. tauto.
    - split; [|by exists es']. intros ->. apply Hne.
      apply (core_unique _ _ _ _ _ _ _ _ _ _ _ HC He ltac:(apply elem_of_app; right; left) E' Hin). }
  assert (Htime : forall n' g, (n', g) ∈ filter (other_than n) G -> held (list_nodes s) g <> Some n /\ (n', g) ∈ G).
  { intros n' g [Hne Hin]%list_elem_of_filter. split; [|done]. rewrite (c_held _ _ _ _ HC _ _ Hin). by intros [= ->]. }
  split; simpl; [done|done|..].
  - intros c'. rewrite (c_dom _ _ _ _ HC). destruct (decide (c = c')) as [<-|].
    + rewrite He, lookup_insert_eq. split; eauto.
    + by rewrite lookup_insert_ne.
  - intros c' x' es' Hc' [[<- <-]|[Hne E']]%lookup_insert_Some; [congruence|]. rewrite Hother.
    + by eapply c_ring.
    + intros Hr. by apply Hne, (c_roots _ _ _ _ HC _ _ _ _ Hc Hc').
    + by eapply c_root.
  - by eapply c_root.
  - by eapply c_roots.
  - intros c' es' n' e' E' Hin. destruct (Hn _ _ E' _ _ Hin) as (Hne & es & Ees & Hin').
    destruct (c_node _ _ _ _ HC _ _ _ _ Ees Hin') as (Hx & Hr & Hh). split_and!; [done|done|].
    destruct (Hsame (_list_node e')) as [-> _]; [by rewrite Hh; intros [= ->]|done].
  - intros n' g. rewrite list_elem_of_filter, (c_timed _ _ _ _ HC). split.
    + intros (Hne & c' & es & e' & E' & Hin & Hg). destruct (decide (c = c')) as [<-|].
      * exists c, (es1 ++ es2), e'. rewrite lookup_insert_eq. split_and!; [done| |done].
        rewrite He in E'. injection E' as <-. rewrite elem_of_app, elem_of_cons in *. destruct Hin as [?|[[= -> ->]|?]]; [tauto|done|tauto].
      * exists c', es, e'. by rewrite lookup_insert_ne.
    + intros (c' & es' & e' & E' & Hin & Hg). destruct (Hn _ _ E' _ _ Hin) as (Hne & es & Ees & Hin'). split; [done|]. eauto 6.
  - intros n' g (Hh & Hin)%Htime. destruct (Hsame g Hh) as [-> _]. by eapply c_held.
  - destruct (c_times _ _ _ _ HC) as [Ht Hs]. split.
    + intros n' g (Hh & Hin)%Htime. simpl. destruct (Hsame g Hh) as [_ ->]. by eapply Ht.
    + apply (StronglySorted_filter _ (other_than n)) in Hs. eapply StronglySorted_weaken, Hs.
      intros [n1 g1] [n2 g2] (Hh1 & _)%Htime (Hh2 & _)%Htime (t & t' & Ha & Hb & Hle). exists t, t'. simpl in *.
      by destruct (Hsame g1 Hh1) as [_ ->], (Hsame g2 Hh2) as [_ ->].
Qed.

Lemma core_timed_in s R E G c es n e g : core s R E G -> E !! c = Some es -> (n, e) ∈ es ->
  _global_list_node e = Some g -> exists G1 G2, G = G1 ++ (n, g) :: G2 /\ filter (other_than n) G = G1 ++ G2.
Proof.
  intros HC He Hin Hg. assert (HG : (n, g) ∈ G) by (apply (c_timed _ _ _ _ HC); eauto 6).
  pose proof (core_global_nodup _ _ _ _ HC) as [Hnd _].
  apply list_elem_of_split in HG as (G1 & G2 & ->). exists G1, G2. split; [done|by apply filter_middle].
Qed.

Lemma core_timed_out s R E G c es n e : core s R E G -> E !! c = Some es -> (n, e) ∈ es ->
  _global_list_node e = None -> filter (other_than n) G = G.
Proof.
  intros HC He Hin Hg. apply filter_other. intros ([n' g] & -> & HG)%list_elem_of_fmap.
  apply (c_timed _ _ _ _ HC) in HG as (c' & es' & e' & He' & Hin' & Hg').
  destruct (core_unique _ _ _ _ _ _ _ _ _ _ _ HC He Hin He' Hin') as [-> ->]. congruence.
Qed.

(** [s'] differs from [s] in the lists. *)
Definition relinked s s' : Prop := exists h', s' = set_list_nodes h' s.

Lemma drop_from_lists_spec s R E G c x es1 n e es2 :
  core s R E G -> caches s !! c = Some x -> E !! c = Some (es1 ++ (n, e) :: es2) -> exists s' R',
  drop_from_lists n s = (Ok tt, s') /\ core s' R' (<[c := es1 ++ es2]> E) (filter (other_than n) G) /\ relinked s s' /\
  (forall m, held (list_nodes s) m <> Some n -> accessed (list_nodes s') m = accessed (list_nodes s) m).
Proof.
  intros HC Hc He. assert (Hin : (n, e) ∈ es1 ++ (n, e) :: es2) by (apply elem_of_app; right; left).
  destruct (c_node _ _ _ _ HC _ _ _ _ He Hin) as (Hx & _ & Hheld).
  pose proof (c_ring _ _ _ _ HC _ _ _ Hc He) as Hring. rewrite fmap_app, fmap_cons in Hring.
  change (lnode (n, e)) with (_list_node e) in Hring.
  pose proof (c_root _ _ _ _ HC _ _ Hc) as Hroot.
  destruct (remove_from_list_spec _ _ _ _ _ _ (c_lists _ _ _ _ HC) Hring) as (h1 & E1 & HR1 & _ & Hv1).
  assert (Hs1 : forall m, held (list_nodes s) m <> Some n -> held h1 m = held (list_nodes s) m /\ accessed h1 m = accessed (list_nodes s) m).
  { intros m Hm. apply Hv1. intros ->. by apply Hm. }
  destruct (_global_list_node e) as [g|] eqn:Eg.
  - destruct (core_timed_in _ _ _ _ _ _ _ _ _ HC He Hin Eg) as (G1 & G2 & -> & HG).
    pose proof (c_global _ _ _ _ HC) as Hglobal.
    assert (Hg : held (list_nodes s) g = Some n) by (eapply c_held; [done|]; apply elem_of_app; right; left).
    rewrite fmap_app, fmap_cons in Hglobal. simpl in Hglobal.
    destruct (remove_from_list_spec h1 _ (GLOBAL_ROOT s) G1.*2 g G2.*2 HR1) as (h2 & E2 & HR2 & _ & Hv2).
    { by rewrite lookup_insert_ne. }
    exists (set_list_nodes h2 s). eexists. split; [|split; [|split; [by exists h2|]]].
    + unfold drop_from_lists. run (get_node_ok _ _ _ Hx). run (in_lists_ok _ s _ _ E1). rewrite Eg.
      exact (in_lists_ok _ (set_list_nodes h1 s) _ _ E2).
    + eapply core_forget; [done..| | | |].
      * by rewrite HG, lookup_insert_eq, fmap_app.
      * rewrite lookup_insert_ne by done. by rewrite lookup_insert_eq, fmap_app.
      * intros r Hr1 Hr2. by rewrite !lookup_insert_ne.
      * intros m Hm. destruct (Hs1 m Hm) as [<- <-]. apply Hv2. intros ->. done.
    + intros m Hm. destruct (Hs1 m Hm) as [_ <-]. apply Hv2. intros ->. done.
  - exists (set_list_nodes h1 s). eexists. split; [|split; [|split; [by exists h1|]]].
    + unfold drop_from_lists. run (get_node_ok _ _ _ Hx). run (in_lists_ok _ s _ _ E1). by rewrite Eg.
    + eapply core_forget; [done..| | | |done].
      * rewrite lookup_insert_ne by done. rewrite (core_timed_out _ _ _ _ _ _ _ _ HC He Hin Eg). by eapply c_global.
      * by rewrite lookup_insert_eq, fmap_app.
      * intros r Hr1 Hr2. by rewrite lookup_insert_ne.
    + intros m Hm. by destruct (Hs1 m Hm).
Qed.

(** The clock is read for the list of all entries only. *)
Definition at_reading (rd : nat) (h' : gmap loc (ListNode loc)) s : Process :=
  set_globals (USE_GLOBAL_LIST s) (called s) rd (mem_readings s) (set_list_nodes h' s).

Lemma core_permute s R E G c x es es' G' h' R' rd :
  core s R E G -> caches s !! c = Some x -> E !! c = Some es -> es' ≡ₚ es -> G' ≡ₚ G -> lists h' R' ->
  R' !! GLOBAL_ROOT s = Some G'.*2 -> R' !! list_root x = Some (lnode <$> es') ->
  (forall r, r <> list_root x -> r <> GLOBAL_ROOT s -> R' !! r = R !! r) ->
  (forall m, held h' m = held (list_nodes s) m) -> times_ok (at_reading rd h' s) G' ->
  core (at_reading rd h' s) R' (<[c := es']> E) G'.
Proof.
  intros HC Hc He Hes HGG HR' HG Hroot Hother Hheld Htimes.
  assert (Hback : forall c' es2, <[c := es']> E !! c' = Some es2 -> exists es1, E !! c' = Some es1 /\ es2 ≡ₚ es1).
  { intros c' es2 [[<- <-]|[Hne E']]%lookup_insert_Some; eauto. }
  split; simpl; [done|done|..].
  - intros c'. rewrite (c_dom _ _ _ _ HC). destruct (decide (c = c')) as [<-|].
    + rewrite He, lookup_insert_eq. split; eauto.
    + by rewrite lookup_insert_ne.
  - intros c' x' es2 Hc' [[<- <-]|[Hne E']]%lookup_insert_Some; [congruence|]. rewrite Hother.
    + by eapply c_ring.
    + intros Hr. by apply Hne, (c_roots _ _ _ _ HC _ _ _ _ Hc Hc').
    + by eapply c_root.
  - by eapply c_root.
  - by eapply c_roots.
  - intros c' es2 n e (es1 & E1 & Hp)%Hback Hin. rewrite Hp in Hin. rewrite Hheld. by eapply c_node.
  - intros n g. rewrite HGG, (c_timed _ _ _ _ HC). split; intros (c' & es1 & e & E1 & Hin & Hg).
    + destruct (decide (c = c')) as [<-|]; [|exists c', es1, e; by rewrite lookup_insert_ne].
      exists c, es', e. rewrite lookup_insert_eq. split_and!; [done| |done]. rewrite Hes. congruence.
    + apply Hback in E1 as (es2 & E2 & Hp). rewrite Hp in Hin. eauto 6.
  - intros n g. rewrite HGG, Hheld. by eapply c_held.
  - done.
Qed.

(** A node that is used now comes before the others. *)
Lemma times_front s h' G' n g :
  (forall n' g', (n', g') ∈ G' -> exists t, accessed h' g' = Some t /\ t <= clock_secs (readings s)) ->
  StronglySorted (later (set_list_nodes h' s)) G' -> accessed h' g = Some (clock_secs (readings s)) ->
  times_ok (at_reading (1 + readings s) h' s) ((n, g) :: G').
Proof.
  intros Ht Hs Hg. pose proof (clock_mono (readings s) (1 + readings s)%nat (Nat.le_succ_diag_r _)) as Hm. split.
  - intros n' g' [[= -> ->]|Hin]%elem_of_cons; simpl; [eauto|]. destruct (Ht _ _ Hin) as (t & ? & Hle). exists t. split; [done|].
    exact (Z.le_trans _ _ _ Hle Hm).
  - apply StronglySorted_cons. split; [|exact Hs]. apply Forall_forall. intros [n' g'] Hin.
    destruct (Ht _ _ Hin) as (t & Et & Hle). by exists (clock_secs (readings s)), t.
Qed.

Lemma times_frame s h' G (Q : loc * loc -> Prop) `{forall a, Decision (Q a)} : times_ok s G ->
  (forall n g, (n, g) ∈ filter Q G -> accessed h' g = accessed (list_nodes s) g) ->
  (forall n g, (n, g) ∈ filter Q G -> exists t, accessed h' g = Some t /\ t <= clock_secs (readings s)) /\
  StronglySorted (later (set_list_nodes h' s)) (filter Q G).
Proof.
  intros [Ht Hs] Hsame. split.
  - intros n g Hin. rewrite (Hsame _ _ Hin). apply list_elem_of_filter in Hin as [_ Hin]. by eapply Ht.
  - apply (StronglySorted_filter _ Q) in Hs. eapply StronglySorted_weaken, Hs.
    intros [n1 g1] [n2 g2] H1' H2' (t & t' & Ha & Hb & Hle). exists t, t'. simpl in *.
    by rewrite (Hsame _ _ H1'), (Hsame _ _ H2').
Qed.

Lemma same_held_all h h' : @same_values loc h h' -> forall m, held h' m = held h m.
Proof. intros Hs m. by destruct (Hs m). Qed.
Lemma same_accessed_all h h' : @same_values loc h h' -> forall m, accessed h' m = accessed h m.
Proof. intros Hs m. by destruct (Hs m) as (_ & ? & _). Qed.

Lemma times_same s G h' : times_ok s G -> (forall m, accessed h' m = accessed (list_nodes s) m) ->
  times_ok (at_reading (readings s) h' s) G.
Proof.
  intros [Ht Hs] Hsame. split.
  - intros n g Hin. simpl. rewrite Hsame. by eapply Ht.
  - eapply StronglySorted_weaken, Hs. intros a b _ _ (t & t' & Ha & Hb & Hle). exists t, t'. simpl. by rewrite !Hsame.
Qed.

Lemma move_to_front_spec s R E G c x es1 n e es2 :
  core s R E G -> caches s !! c = Some x -> E !! c = Some (es1 ++ (n, e) :: es2) -> exists rd h' R' G',
  move_to_front n (list_root x) s = (Ok tt, at_reading rd h' s) /\
  core (at_reading rd h' s) R' (<[c := (n, e) :: es1 ++ es2]> E) G'.
Proof.
  intros HC Hc He. assert (Hin : (n, e) ∈ es1 ++ (n, e) :: es2) by (apply elem_of_app; right; left).
  destruct (c_node _ _ _ _ HC _ _ _ _ He Hin) as (Hx & _ & _).
  pose proof (c_ring _ _ _ _ HC _ _ _ Hc He) as Hring. rewrite fmap_app, fmap_cons in Hring.
  change (lnode (n, e)) with (_list_node e) in Hring.
  pose proof (c_root _ _ _ _ HC _ _ Hc) as Hroot. pose proof (c_global _ _ _ _ HC) as Hglobal.
  destruct (move_after_spec _ _ _ _ _ _ (c_lists _ _ _ _ HC) Hring) as (h1 & E1 & HR1 & Hs1).
  assert (Hperm : (n, e) :: es1 ++ es2 ≡ₚ es1 ++ (n, e) :: es2) by apply Permutation_middle.
  destruct (_global_list_node e) as [g|] eqn:Eg.
  - destruct (core_timed_in _ _ _ _ _ _ _ _ _ HC He Hin Eg) as (G1 & G2 & -> & HG).
    rewrite fmap_app, fmap_cons in Hglobal. simpl in Hglobal.
    destruct (move_after_spec h1 _ (GLOBAL_ROOT s) G1.*2 g G2.*2 HR1) as (h2 & E2 & HR2 & Hs2).
    { by rewrite lookup_insert_ne. }
    destruct (update_last_access_spec h2 _ g (clock_secs (readings s)) HR2) as (h3 & E3 & HR3 & Hg3 & Hh3 & Ha3).
    { eapply ring_alive; [exact HR2|]. apply elem_of_ring. eexists. rewrite lookup_insert_eq. split; [done|]. right. left. }
    exists (1 + readings s)%nat, h3. eexists _, ((n, g) :: G1 ++ G2). split.
    + unfold move_to_front. run (get_node_ok _ _ _ Hx). run (in_lists_ok _ s _ _ E1). rewrite Eg.
      run (eq_refl (st_read GLOBAL_ROOT (set_list_nodes h1 s))). run (in_lists_ok _ (set_list_nodes h1 s) _ _ E2).
      run (eq_refl (time_secs (set_list_nodes h2 s))). etrans; [eapply in_lists_ok; exact E3|reflexivity].
    + eapply core_permute; [done..|apply Permutation_middle|done| | | | |].
      * by rewrite lookup_insert_eq, fmap_cons, fmap_app.
      * rewrite lookup_insert_ne by done. by rewrite lookup_insert_eq, fmap_cons, fmap_app.
      * intros r Hr1 Hr2. by rewrite !lookup_insert_ne.
      * intros m. by rewrite Hh3, (same_held_all _ _ Hs2), (same_held_all _ _ Hs1).
      * rewrite <- HG. assert (Hf : forall n' g', (n', g') ∈ filter (other_than n) (G1 ++ (n, g) :: G2) -> accessed h3 g' = accessed (list_nodes s) g').
        { intros n' g' [Hne Hin']%list_elem_of_filter. rewrite Ha3, (same_accessed_all _ _ Hs2), (same_accessed_all _ _ Hs1); [done|].
          intros ->. apply Hne. pose proof (c_held _ _ _ _ HC _ _ Hin') as H1'.
          rewrite (c_held _ _ _ _ HC n g) in H1' by (apply elem_of_app; right; left). by injection H1'. }
        destruct (times_frame _ h3 _ (other_than n) (c_times _ _ _ _ HC) Hf) as [Ht Hs]. by apply times_front.
  - exists (readings s), h1. eexists _, G. split.
    + unfold move_to_front. run (get_node_ok _ _ _ Hx). run (in_lists_ok _ s _ _ E1). by rewrite Eg.
    + eapply core_permute; [done..| | | | |].
      * by rewrite lookup_insert_ne.
      * by rewrite lookup_insert_eq, fmap_cons, fmap_app.
      * intros r Hr1 Hr2. by rewrite lookup_insert_ne.
      * by apply same_held_all.
      * apply times_same; [by eapply c_times|]. by apply same_accessed_all.
Qed.

Lemma core_added s R E G c x es n e G' h' R' rd :
  core s R E G -> caches s !! c = Some x -> E !! c = Some es -> nodes s !! n = None -> _cache e = c ->
  G' = match _global_list_node e with Some g => (n, g) :: G | None => G end -> lists h' R' ->
  R' !! GLOBAL_ROOT s = Some G'.*2 -> R' !! list_root x = Some (_list_node e :: (lnode <$> es)) ->
  (forall r, r <> list_root x -> r <> GLOBAL_ROOT s -> R' !! r = R !! r) ->
  (forall m p, held (list_nodes s) m = Some p -> held h' m = Some p) -> held h' (_list_node e) = Some n ->
  (forall g, _global_list_node e = Some g -> held h' g = Some n) -> times_ok (at_reading rd h' s) G' ->
  core (on_nodes (insert n e) (at_reading rd h' s)) R' (<[c := (n, e) :: es]> E) G'.
Proof.
  intros HC Hc He Hn Hec HGG HR' HG Hroot Hother Hheld Hl Hg Htimes.
  assert (Hold : forall c' es' n' e', E !! c' = Some es' -> (n', e') ∈ es' -> n' <> n).
  { intros c' es' n' e' Hes' Hin ->. destruct (c_node _ _ _ _ HC _ _ _ _ Hes' Hin) as [Hx _]. congruence. }
  split; simpl; [done|done|..].
  - intros c'. rewrite (c_dom _ _ _ _ HC). destruct (decide (c = c')) as [<-|].
    + rewrite He, lookup_insert_eq. split; eauto.
    + by rewrite lookup_insert_ne.
  - intros c' x' es' Hc' [[<- <-]|[Hne E']]%lookup_insert_Some; [replace x' with x by congruence; exact Hroot|]. rewrite Hother.
    + by eapply c_ring.
    + intros Hr. by apply Hne, (c_roots _ _ _ _ HC _ _ _ _ Hc Hc').
    + by eapply c_root.
  - by eapply c_root.
  - by eapply c_roots.
  - assert (Hkeep : forall c' es' n' e', E !! c' = Some es' -> (n', e') ∈ es' ->
              <[n := e]> (nodes s) !! n' = Some e' /\ _cache e' = c' /\ held h' (_list_node e') = Some n').
    { intros c' es' n' e' Hes' Hin. destruct (c_node _ _ _ _ HC _ _ _ _ Hes' Hin) as (Hx & Hr & Hh).
      rewrite lookup_insert_ne by (intros <-; by eapply Hold). auto. }
    intros c' es' n' e' [[<- <-]|[Hne E']]%lookup_insert_Some; [|by apply Hkeep].
    intros [[= -> ->]|Hin]%elem_of_cons; [|by eapply Hkeep]. by rewrite lookup_insert_eq.
  - intros n' g. assert (HG2 : (n', g) ∈ G' <-> (n' = n /\ _global_list_node e = Some g) \/ (n', g) ∈ G).
    { rewrite HGG. destruct (_global_list_node e); [rewrite elem_of_cons|]; naive_solver. }
    rewrite HG2, (c_timed _ _ _ _ HC). split.
    + intros [[-> Hge]|(c' & es' & e' & Hes' & Hin & Hge)].
      * exists c, ((n, e) :: es), e. rewrite lookup_insert_eq. split_and!; [done|left|done].
      * destruct (decide (c = c')) as [<-|]; [|exists c', es', e'; by rewrite lookup_insert_ne].
        exists c, ((n, e) :: es), e'. rewrite lookup_insert_eq. split_and!; [done| |done]. right.
        rewrite He in Hes'. by injection Hes' as <-.
    + intros (c' & es' & e' & [[<- <-]|[Hne E']]%lookup_insert_Some & Hin & Hge); [|right; eauto 6].
      apply elem_of_cons in Hin as [[= -> ->]|Hin]; [by left|right; eauto 6].
  - intros n' g. rewrite HGG. destruct (_global_list_node e) as [g'|] eqn:Eg.
    + intros [[= -> ->]|Hin]%elem_of_cons; [by apply Hg|]. by apply Hheld, (c_held _ _ _ _ HC).
    + intros Hin. by apply Hheld, (c_held _ _ _ _ HC).
  - exact Htimes.
Qed.

Definition stored (cbs : list CB) : option (list CB) := match cbs with [] => None | _ => Some (fold_left add_callback cbs []) end.

Definition new_entry (l : loc) (g : option loc) (c : loc) (k : list A) (v : V) (cbs : option (list CB)) : Node :=
  {| _list_node := l; _global_list_node := g; _cache := c; key := k; value := v; callbacks := cbs |}.

Lemma held_kept h h' n : (forall m, m <> n -> held h' m = held h m /\ accessed h' m = accessed h m) -> h !! n = None ->
  forall m p, @held loc h m = Some p -> held h' m = Some p.
Proof. intros Hs Hn m p Hm. destruct (Hs m) as [-> _]; [|done]. intros ->. unfold held in Hm. by rewrite Hn in Hm. Qed.

Lemma add_callbacks_new s n l g c k v cbs :
  add_callbacks n cbs (on_nodes (insert n (new_entry l g c k v None)) s) =
  (Ok tt, on_nodes (insert n (new_entry l g c k v (stored cbs))) s).
Proof.
  destruct cbs as [|cb cbs]; [done|]. unfold add_callbacks, set_node, st_modify, on_nodes. simpl.
  by rewrite alter_insert_eq.
Qed.

Lemma new_lru_node_spec s R E G c x es k v cbs p : core s R E G -> caches s !! c = Some x -> E !! c = Some es ->
  exists n l g rd h' R' G', let e := new_entry l g c k v (stored cbs) in
  new_lru_node c (list_root x) k v cbs p s = (Ok n, on_nodes (insert n e) (at_reading rd h' s)) /\
  core (on_nodes (insert n e) (at_reading rd h' s)) R' (<[c := (n, e) :: es]> E) G' /\ nodes s !! n = None.
Proof.
  intros HC Hc He. set (n := fresh (dom (nodes s))).
  assert (Hn : nodes s !! n = None) by apply not_elem_of_dom, is_fresh.
  pose proof (c_ring _ _ _ _ HC _ _ _ Hc He) as Hring. pose proof (c_root _ _ _ _ HC _ _ Hc) as Hroot.
  pose proof (c_global _ _ _ _ HC) as Hglobal. destruct (c_times _ _ _ _ HC) as [Ht Hs].
  destruct (insert_after_spec n _ _ _ _ (c_lists _ _ _ _ HC) Hring) as (l & h1 & E1 & Hl & HR1 & Hhl & Hs1).
  pose proof (held_kept _ _ _ Hs1 Hl) as Hk1.
  assert (Ha1 : forall n' g, (n', g) ∈ G -> g <> l /\ accessed h1 g = accessed (list_nodes s) g).
  { intros n' g Hin. assert (Hne : g <> l).
    { intros ->. apply (c_held _ _ _ _ HC) in Hin. unfold held in Hin. by rewrite Hl in Hin. }
    split; [done|]. by apply Hs1. }
  destruct (USE_GLOBAL_LIST s && p) eqn:Eu.
  - destruct (insert_after_spec n h1 _ (GLOBAL_ROOT s) G.*2 HR1) as (g & h2 & E2 & Hg & HR2 & Hhg & Hs2).
    { by rewrite lookup_insert_ne. }
    pose proof (held_kept _ _ _ Hs2 Hg) as Hk2.
    destruct (update_last_access_spec h2 _ g (clock_secs (readings s)) HR2) as (h3 & E3 & HR3 & Hg3 & Hh3 & Ha3).
    { unfold held in Hhg. destruct (h2 !! g); [eauto|done]. }
    exists n, l, (Some g), (1 + readings s)%nat, h3. eexists _, ((n, g) :: G). split; [|split; [|done]].
    + unfold new_lru_node. run (eq_refl (st_read (fun s => fresh (dom (nodes s))) s)). fold n. run (in_lists_ok _ s _ _ E1).
      run (eq_refl (st_read USE_GLOBAL_LIST (set_list_nodes h1 s))). change (USE_GLOBAL_LIST (set_list_nodes h1 s)) with (USE_GLOBAL_LIST s).
      rewrite Eu. rewrite (st_bind_run _ _ _ (Some g) (at_reading (1 + readings s) h3 s)).
      2: { run (eq_refl (st_read GLOBAL_ROOT (set_list_nodes h1 s))). run (in_lists_ok _ (set_list_nodes h1 s) _ _ E2).
           run (eq_refl (time_secs (set_list_nodes h2 s))). erewrite st_bind_run; [|eapply in_lists_ok; exact E3]. reflexivity. }
      rewrite st_modify_run. by run (add_callbacks_new (at_reading (1 + readings s) h3 s) n l (Some g) c k v cbs).
    + eapply core_added; [done|done|done|done|done|done|exact HR3|..]; simpl.
      * by rewrite lookup_insert_eq.
      * rewrite lookup_insert_ne by done. by rewrite lookup_insert_eq.
      * intros r Hr1 Hr2. by rewrite !lookup_insert_ne.
      * intros m q Hm. rewrite Hh3. by apply Hk2, Hk1.
      * rewrite Hh3. by apply Hk2.
      * intros g' [= <-]. by rewrite Hh3.
      * assert (Hf : forall n' g', (n', g') ∈ G -> accessed h3 g' = accessed (list_nodes s) g').
        { intros n' g' Hin. destruct (Ha1 _ _ Hin) as [_ <-]. assert (Hne : g' <> g).
          { intros ->. apply (c_held _ _ _ _ HC) in Hin. apply Hk1 in Hin. unfold held in Hin. by rewrite Hg in Hin. }
          rewrite Ha3 by done. by apply Hs2. }
        apply times_front; [| |done].
        -- intros n' g' Hin. rewrite (Hf _ _ Hin). by eapply Ht.
        -- eapply StronglySorted_weaken, Hs. intros [n1 g1] [n2 g2] Hi1 Hi2 (t & t' & Ha & Hb & Hle). exists t, t'. simpl in *.
           by rewrite (Hf _ _ Hi1), (Hf _ _ Hi2).
  - exists n, l, None, (readings s), h1. eexists _, G. split; [|split; [|done]].
    + unfold new_lru_node. run (eq_refl (st_read (fun s => fresh (dom (nodes s))) s)). fold n. run (in_lists_ok _ s _ _ E1).
      run (eq_refl (st_read USE_GLOBAL_LIST (set_list_nodes h1 s))). change (USE_GLOBAL_LIST (set_list_nodes h1 s)) with (USE_GLOBAL_LIST s).
      rewrite Eu. rewrite (st_bind_run _ _ _ None (at_reading (readings s) h1 s)) by reflexivity.
      rewrite st_modify_run. by run (add_callbacks_new (at_reading (readings s) h1 s) n l None c k v cbs).
    + eapply core_added; [done|done|done|done|done|done|exact HR1|..]; simpl; [..|done| |].
      * by rewrite lookup_insert_ne.
      * by rewrite lookup_insert_eq.
      * intros r Hr1 Hr2. by rewrite lookup_insert_ne.
      * exact Hk1.
      * done.
      * split; [intros n' g Hin; simpl; destruct (Ha1 _ _ Hin) as [_ ->]; by eapply Ht|].
        eapply StronglySorted_weaken, Hs. intros [n1 g1] [n2 g2] Hi1 Hi2 (t & t' & Ha & Hb & Hle). exists t, t'. simpl in *.
        by destruct (Ha1 _ _ Hi1) as [_ ->], (Ha1 _ _ Hi2) as [_ ->].
Qed.

(** ** Callbacks *)

Definition log (cbs : list CB) s : Process :=
  set_globals (USE_GLOBAL_LIST s) (called s ++ cbs) (readings s) (mem_readings s) s.

Lemma call_all cbs s : st_for call cbs s = (Ok tt, log cbs s).
Proof.
  revert s. induction cbs as [|cb cbs IH]; intros s; simpl.
  - unfold st_ret, log. rewrite app_nil_r. by destruct s.
  - unfold call. rewrite st_modify_run, IH. unfold log. simpl. by rewrite <- app_assoc.
Qed.

Definition kept_callbacks e : list CB := default [] (callbacks e).

(** The entry without its callbacks. *)
Definition cleared e : Node := match kept_callbacks e with [] => e | _ => set_callbacks None e end.

Lemma run_and_clear_spec s n e : nodes s !! n = Some e ->
  run_and_clear_callbacks n s = (Ok tt, on_nodes (alter (fun _ => cleared e) n) (log (kept_callbacks e) s)).
Proof.
  intros Hn. unfold run_and_clear_callbacks. run (get_node_ok _ _ _ Hn). unfold cleared, kept_callbacks.
  assert (Hid : forall s', nodes s' !! n = Some e -> on_nodes (alter (fun _ => e) n) s' = s').
  { intros s' Hn'. unfold on_nodes. rewrite alter_id; [by destruct s'|]. by intros ? [= <-]%(eq_trans (eq_sym Hn')). }
  assert (Hlog : log [] s = s) by (unfold log; rewrite app_nil_r; by destruct s).
  destruct (callbacks e) as [[|cb cbs]|] eqn:Ec; simpl; try by rewrite Hlog, Hid.
  run (call_all (cb :: cbs) s). unfold set_node, st_modify, on_nodes. simpl. do 2 f_equal.
  apply map_eq. intros m. destruct (decide (n = m)) as [<-|]; [by rewrite !lookup_alter_eq, Hn|by rewrite !lookup_alter_ne].
Qed.

Lemma core_node_used s R E G c es1 n e es2 e' : core s R E G -> E !! c = Some (es1 ++ (n, e) :: es2) ->
  _list_node e' = _list_node e -> _global_list_node e' = _global_list_node e -> _cache e' = _cache e ->
  core (on_nodes (alter (fun _ => e') n) s) R (<[c := es1 ++ (n, e') :: es2]> E) G.
Proof.
  intros HC He Hl Hg Hr. pose proof (core_nodup _ _ _ _ _ _ HC He) as Hnd.
  assert (Hback : forall c' es' n' e2, <[c := es1 ++ (n, e') :: es2]> E !! c' = Some es' -> (n', e2) ∈ es' ->
    exists es e1, E !! c' = Some es /\ (n', e1) ∈ es /\ _list_node e2 = _list_node e1 /\
      _global_list_node e2 = _global_list_node e1 /\ _cache e2 = _cache e1 /\ (n' = n /\ e2 = e' \/ n' <> n /\ e2 = e1)).
  { intros c' es' n' e2 [[<- <-]|[Hne E']]%lookup_insert_Some Hin.
    - exists (es1 ++ (n, e) :: es2). rewrite elem_of_app, elem_of_cons in Hin.
      assert (Hn' : (n', e2) ∈ es1 \/ (n', e2) ∈ es2 -> n' <> n).
      { intros Hin' ->. rewrite fmap_app, fmap_cons in Hnd. apply NoDup_app in Hnd as (_ & Hd & [Hn2 _]%NoDup_cons).
        destruct Hin' as [Hin'|Hin']; [|apply Hn2, list_elem_of_fmap; by exists (n, e2)].
        apply (Hd n); [apply list_elem_of_fmap; by exists (n, e2)|left]. }
      destruct Hin as [Hin|[[= -> ->]|Hin]].
      + exists e2. split_and!; try done; [set_solver|right; split; [apply Hn'; by left|done]].
      + exists e. split_and!; try done; [set_solver|by left].
      + exists e2. split_and!; try done; [set_solver|right; split; [apply Hn'; by right|done]].
    - exists es', e2. split_and!; try done. right. split; [|done]. intros ->. apply Hne.
      apply (core_unique _ _ _ _ _ _ _ _ _ _ _ HC He ltac:(apply elem_of_app; right; left) E' Hin). }
  assert (Hring : lnode <$> es1 ++ (n, e') :: es2 = lnode <$> es1 ++ (n, e) :: es2).
  { rewrite !fmap_app, !fmap_cons. unfold lnode at 2 5. simpl. by rewrite Hl. }
  assert (Hin0 : (n, e) ∈ es1 ++ (n, e) :: es2) by set_solver.
  split; simpl; try by apply HC.
  - intros c'. rewrite (c_dom _ _ _ _ HC). destruct (decide (c = c')) as [<-|].
    + rewrite He, lookup_insert_eq. split; eauto.
    + by rewrite lookup_insert_ne.
  - intros c' x' es' Hc' [[<- <-]|[Hne E']]%lookup_insert_Some; [rewrite Hring|]; by eapply c_ring.
  - intros c' es' n' e2 Hc' Hin. destruct (Hback _ _ _ _ Hc' Hin) as (es & e1 & Hes & Hin1 & -> & _ & -> & Hcase).
    destruct (c_node _ _ _ _ HC _ _ _ _ Hes Hin1) as (Hx & Hr' & Hh). split; [|done].
    destruct Hcase as [[-> ->]|[Hne ->]]; [by rewrite lookup_alter_eq, Hx|by rewrite lookup_alter_ne].
  - intros n' g. rewrite (c_timed _ _ _ _ HC). split.
    + intros (c' & es & e1 & Hes & Hin1 & Hg1). destruct (decide (c = c')) as [<-|]; [|exists c', es, e1; by rewrite lookup_insert_ne].
      rewrite He in Hes. injection Hes as <-. rewrite elem_of_app, elem_of_cons in Hin1.
      destruct Hin1 as [Hin1|[[= -> ->]|Hin1]];
        [exists c, (es1 ++ (n, e') :: es2), e1|exists c, (es1 ++ (n, e') :: es2), e'|exists c, (es1 ++ (n, e') :: es2), e1];
        rewrite lookup_insert_eq; (split_and!; [done|set_solver|congruence]).
    + intros (c' & es' & e2 & Hc' & Hin & Hg2). destruct (Hback _ _ _ _ Hc' Hin) as (es & e1 & Hes & Hin1 & _ & Hgg & _).
      exists c', es, e1. split_and!; [done|done|congruence].
Qed.

(** ** The counters *)

Definition keys es : list (list A) := (fun ne => key ne.2) <$> es.

Lemma keyed_keys es : (keyed es).*1 = keys es.
Proof. unfold keyed, keys. by rewrite <- list_fmap_compose. Qed.

Lemma in_keys k es : k ∈ keys es <-> exists n e, (n, e) ∈ es /\ key e = k.
Proof.
  unfold keys. rewrite list_elem_of_fmap. split; [intros ([n e] & -> & Hin); eauto|].
  intros (n & e & Hin & <-). by exists (n, e).
Qed.

Lemma keys_middle es1 n e es2 : NoDup (keys (es1 ++ (n, e) :: es2)) ->
  NoDup (keys (es1 ++ es2)) /\ key e ∉ keys (es1 ++ es2).
Proof.
  intros Hnd. assert (Hp : es1 ++ (n, e) :: es2 ≡ₚ (n, e) :: es1 ++ es2) by (by rewrite Permutation_middle).
  unfold keys in *. rewrite Hp, fmap_cons in Hnd. by apply NoDup_cons in Hnd as [??].
Qed.

Lemma total_app (o : option (V -> Z)) vs1 v vs2 : total_size o (vs1 ++ v :: vs2) = total_size o [v] + total_size o (vs1 ++ vs2).
Proof.
  destruct o as [f|]; simpl; [|rewrite !length_app; simpl; lia].
  induction vs1 as [|v' vs1 IH]; simpl in *; lia.
Qed.

Lemma values_app es1 n e es2 : values (es1 ++ (n, e) :: es2) = values es1 ++ value e :: values es2.
Proof. unfold values. by rewrite fmap_app, fmap_cons. Qed.

Lemma values_app2 es1 es2 : values (es1 ++ es2) = values es1 ++ values es2.
Proof. apply fmap_app. Qed.

(** Only what the index says of [k] changes. *)
Lemma index_remove f i es1 n e es2 : index_ok f i (es1 ++ (n, e) :: es2) -> NoDup (keys (es1 ++ (n, e) :: es2)) ->
  index_ok f (unindex (f (key e) (value e)) (key e) i) (es1 ++ es2).
Proof.
  intros (Hd & Hks & Hi) [_ Hk]%keys_middle. set (ik := f (key e) (value e)). set (k := key e) in *.
  assert (Hin : exists ks, dget ik i = Some ks /\ k ∈ ks).
  { apply Hi. exists n, e. split_and!; [set_solver|done|done]. }
  destruct Hin as (ks & Hget & Hkin). destruct (Hks _ _ Hget) as [_ Hnd].
  set (ks' := filter (fun k' => k' <> k) ks).
  assert (Hu : forall ik' ks2, dget ik' (unindex ik k i) = Some ks2 <-> (ik' = ik /\ ks2 = ks' /\ ks' <> []) \/ (ik' <> ik /\ dget ik' i = Some ks2)).
  { intros ik' ks2. unfold unindex. rewrite Hget. fold ks'. destruct ks' as [|k1 ks1] eqn:Ek.
    - rewrite dget_ddel. case_decide; naive_solver.
    - rewrite dget_dset. case_decide; naive_solver. }
  split_and!.
  - unfold unindex. rewrite Hget. destruct (filter _ ks); [by apply ddel_wf|by apply dset_wf].
  - intros ik' ks2 [(-> & -> & Hne)|(Hne & Hg)]%Hu; [|by eapply Hks]. split; [done|]. by apply NoDup_filter.
  - intros ik' k'. assert (Hes : (exists n' e', (n', e') ∈ es1 ++ es2 /\ key e' = k' /\ f k' (value e') = ik') <->
      k' <> k /\ exists n' e', (n', e') ∈ es1 ++ (n, e) :: es2 /\ key e' = k' /\ f k' (value e') = ik').
    { split.
      - intros (n' & e' & Hin & <- & <-). split; [|exists n', e'; set_solver]. intros He. apply Hk, in_keys. eauto.
      - intros (Hne & n' & e' & Hin & <- & <-). exists n', e'. split; [|done]. rewrite elem_of_app, elem_of_cons in *.
        destruct Hin as [?|[[= -> ->]|?]]; tauto. }
    rewrite Hes, <- Hi. setoid_rewrite Hu. unfold ks'. clear Hes. split.
    + intros (ks2 & [(-> & -> & _)|(Hne & Hg)] & Hin).
      * apply list_elem_of_filter in Hin as [Hne Hin]. eauto.
      * split; [|eauto]. intros ->. destruct (proj1 (Hi ik' k)) as (n' & e' & Hin' & Hke & Hf); [eauto|].
        rewrite elem_of_app, elem_of_cons in Hin'. destruct Hin' as [Hin'|[[= -> ->]|Hin']]; [..|].
        -- apply Hk, in_keys. exists n', e'. set_solver.
        -- by apply Hne.
        -- apply Hk, in_keys. exists n', e'. set_solver.
    + intros (Hne & ks2 & Hg & Hin). destruct (decide (ik' = ik)) as [->|]; [|eauto 6].
      rewrite Hget in Hg. injection Hg as <-. assert (Hf : k' ∈ filter (fun k' => k' <> k) ks) by (by apply list_elem_of_filter).
      exists (filter (fun k' => k' <> k) ks). split; [|done]. left. split_and!; [done|done|]. intros E0. rewrite E0 in Hf. by apply elem_of_nil in Hf.
Qed.

Lemma index_insert f i es n e : index_ok f i es -> key e ∉ keys es ->
  index_ok f (index_add (f (key e) (value e)) (key e) i) ((n, e) :: es).
Proof.
  intros (Hd & Hks & Hi) Hk. set (ik := f (key e) (value e)). set (k := key e) in *. unfold index_add.
  assert (Hnin : forall ik' ks, dget ik' i = Some ks -> k ∉ ks).
  { intros ik' ks Hg Hin. destruct (proj1 (Hi ik' k)) as (n' & e' & Hin' & Hke & _); [eauto|]. apply Hk, in_keys. eauto. }
  assert (Hn : k ∉ default [] (dget ik i)).
  { destruct (dget ik i) eqn:Eg; [by eapply Hnin|]. simpl. by intros ?%elem_of_nil. }
  rewrite decide_False by done. split_and!.
  - by apply dset_wf.
  - intros ik' ks. rewrite dget_dset. case_decide; [intros [= <-]|by apply Hks]. split; [by intros [_ [=]]%app_eq_nil|].
    apply NoDup_app. split_and!; [|intros k1 Hk1 ->%list_elem_of_singleton; done|apply NoDup_singleton].
    destruct (dget ik i) eqn:Eg; [by eapply Hks|apply NoDup_nil_2].
  - intros ik' k'. setoid_rewrite elem_of_cons. setoid_rewrite dget_dset. split.
    + intros (ks & Hg & Hin). case_decide as Hik.
      * injection Hg as <-. subst ik'. apply elem_of_app in Hin as [Hin|Hin%list_elem_of_singleton]; [|exists n, e; subst k'; auto].
        destruct (dget ik i) as [ks|] eqn:Eg; [|by apply elem_of_nil in Hin]. destruct (proj1 (Hi ik k')) as (n' & e' & ? & ? & ?); eauto 8.
      * destruct (proj1 (Hi ik' k')) as (n' & e' & ? & ? & ?); eauto 8.
    + intros (n' & e' & [[= -> ->]|Hin] & <- & <-).
      * fold k ik. rewrite decide_True by done. eexists. split; [done|]. set_solver.
      * destruct (proj2 (Hi (f (key e') (value e')) (key e'))) as (ks & Hg & Hin'); [eauto|].
        case_decide as Hik; [|eauto]. rewrite <- Hik, Hg. simpl. eexists. split; [done|]. set_solver.
Qed.

(** ** An entry goes *)

Lemma alter_caches s c x f : caches s !! c = Some x -> on_caches (alter f c) s = on_caches (insert c (f x)) s.
Proof.
  intros Hc. unfold on_caches. f_equal. apply map_eq. intros c'.
  destruct (decide (c = c')) as [<-|]; [by rewrite lookup_alter_eq, lookup_insert_eq, Hc|by rewrite lookup_alter_ne, lookup_insert_ne].
Qed.

Lemma set_self_ok s c x f : caches s !! c = Some x -> set_self c f s = (Ok tt, on_caches (insert c (f x)) s).
Proof. intros Hc. unfold set_self, st_modify. by rewrite (alter_caches s c x). Qed.

Lemma on_caches_same s c x : caches s !! c = Some x -> on_caches (insert c x) s = s.
Proof. intros Hc. unfold on_caches. rewrite insert_id by done. by destruct s. Qed.

Lemma on_caches_twice s c x x' : on_caches (insert c x') (on_caches (insert c x) s) = on_caches (insert c x') s.
Proof. unfold on_caches. simpl. by rewrite insert_insert_eq. Qed.

Lemma core_set s R E G c x x' : core s R E G -> caches s !! c = Some x -> list_root x' = list_root x ->
  core (on_caches (insert c x') s) R E G.
Proof.
  intros HC Hc Hx. pose proof (core_self s R E G c x (fun _ => x') HC Hc Hx) as HC'.
  by rewrite (alter_caches s c x) in HC'.
Qed.

(** [x'] is [x] with other counters. *)
Definition recounted x x' : Prop := x' = set_index (extra_index x') (set_cached_len (cached_cache_len x') x).

Definition same_globals s s' : Prop :=
  GLOBAL_ROOT s' = GLOBAL_ROOT s /\ USE_GLOBAL_LIST s' = USE_GLOBAL_LIST s.

(** What [delete_node] leaves of the counters. *)
Definition counted_out x e : LruCache :=
  let x1 := match size_callback x with Some f => set_cached_len (cached_cache_len x - f (value e)) x | None => x end in
  match extra_index_cb x with
  | Some f => set_index (unindex (f (key e) (value e)) (key e) (extra_index x)) x1
  | None => x1
  end.

Lemma counted_out_recounted x e : recounted x (counted_out x e).
Proof. unfold recounted, counted_out. by destruct x as [? ? ? ? ? ? ? [] []]. Qed.

Lemma counted_out_ok kept x es1 n e es2 : counters_ok kept x (es1 ++ (n, e) :: es2) -> NoDup (keys (es1 ++ (n, e) :: es2)) ->
  counters_ok kept (counted_out x e) (es1 ++ es2).
Proof.
  intros [Hs Hi] Hnd. split.
  - intros f Hf. assert (Hfx : size_callback x = Some f) by (unfold counted_out in Hf; by destruct x as [? ? ? ? ? ? ? [] []]).
    specialize (Hs f Hfx). rewrite values_app, total_app, <- values_app2 in Hs.
    assert (Hc : cached_cache_len (counted_out x e) = cached_cache_len x - f (value e)).
    { unfold counted_out. rewrite Hfx. by destruct (extra_index_cb x). }
    rewrite Hc, Hs. simpl. lia.
  - intros f Hf Hst. assert (Hfx : extra_index_cb x = Some f) by (unfold counted_out in Hf; by destruct x as [? ? ? ? ? ? ? [] []]).
    assert (Hc : extra_index (counted_out x e) = unindex (f (key e) (value e)) (key e) (extra_index x)).
    { unfold counted_out. by rewrite Hfx. }
    rewrite Hc. eapply index_remove; [by apply Hi|done].
Qed.

Lemma delete_node_spec s R E G c x es1 n e es2 :
  core s R E G -> caches s !! c = Some x -> E !! c = Some (es1 ++ (n, e) :: es2) -> exists d s' R',
  delete_node c n s = (Ok d, s') /\ core s' R' (<[c := es1 ++ es2]> E) (filter (other_than n) G) /\
  caches s' = <[c := counted_out x e]> (caches s) /\ called s' = called s ++ kept_callbacks e /\
  nodes s' = alter (fun _ => cleared e) n (nodes s) /\ same_globals s s' /\
  (forall m, held (list_nodes s) m <> Some n -> accessed (list_nodes s') m = accessed (list_nodes s) m).
Proof.
  intros HC Hc He. assert (Hin : (n, e) ∈ es1 ++ (n, e) :: es2) by (apply elem_of_app; right; left).
  destruct (c_node _ _ _ _ HC _ _ _ _ He Hin) as (Hx & _ & _).
  pose proof (core_nodup _ _ _ _ _ _ HC He) as Hnd.
  assert (Hfree : forall c' es' e', <[c := es1 ++ es2]> E !! c' = Some es' -> (n, e') ∉ es').
  { intros c' es' e' [[<- <-]|[Hne E']]%lookup_insert_Some Hin'.
    - rewrite fmap_app, fmap_cons in Hnd. apply NoDup_app in Hnd as (_ & Hd & [Hn2 _]%NoDup_cons).
      apply elem_of_app in Hin' as [Hin'|Hin']; [|apply Hn2, list_elem_of_fmap; by exists (n, e')].
      apply (Hd n); [apply list_elem_of_fmap; by exists (n, e')|left].
    - apply Hne. apply (core_unique _ _ _ _ _ _ _ _ _ _ _ HC He Hin E' Hin'). }
  destruct (drop_from_lists_spec _ _ _ _ _ _ _ _ _ _ HC Hc He) as (s1 & R1 & E1 & HC1 & (h1 & ->) & Ha1).
  set (s1 := set_list_nodes h1 s) in *.
  set (x1 := match size_callback x with Some f => set_cached_len (cached_cache_len x - f (value e)) x | None => x end).
  assert (Hr1 : list_root x1 = list_root x) by (unfold x1; by destruct (size_callback x)).
  pose proof (core_set _ _ _ _ c x x1 HC1 Hc Hr1) as HC2. set (s2 := on_caches (insert c x1) s1) in *.
  pose proof (core_called _ _ _ _ (called s2 ++ kept_callbacks e) HC2) as HC3. fold (log (kept_callbacks e) s2) in HC3.
  pose proof (core_node_unused _ _ _ _ n (fun _ => cleared e) HC3 Hfree) as HC4. set (s4 := on_nodes _ _) in HC4.
  assert (Hc4 : caches s4 !! c = Some x1) by (simpl; by rewrite lookup_insert_eq).
  assert (Hr5 : list_root (counted_out x e) = list_root x1) by (unfold counted_out; fold x1; by destruct (extra_index_cb x)).
  pose proof (core_set _ _ _ _ c x1 (counted_out x e) HC4 Hc4 Hr5) as HC5.
  exists (match size_callback x with Some f => f (value e) | None => 1 end), (on_caches (insert c (counted_out x e)) s4), R1.
  split; [|split_and!; [done| |done|done|done|exact Ha1]].
  - unfold delete_node. run E1. run (get_node_ok s1 n e Hx). run (self_ok s1 c x Hc).
    rewrite (st_bind_run _ _ _ tt s2).
    2: { unfold s2, x1. destruct (size_callback x); [by rewrite (set_self_ok s1 c x _ Hc)|by rewrite on_caches_same]. }
    run (run_and_clear_spec s2 n e Hx). fold s4.
    rewrite (st_bind_run _ _ _ tt (on_caches (insert c (counted_out x e)) s4)); [done|].
    unfold counted_out. fold x1. destruct (extra_index_cb x) as [f|] eqn:Ef; [|by rewrite (on_caches_same s4 c x1 Hc4)].
    rewrite (set_self_ok s4 c x1 _ Hc4). do 3 f_equal. unfold x1. by destruct (size_callback x).
  - simpl. by rewrite insert_insert_eq.
Qed.

(** ** What backs the cache *)

Context `{!CacheTypeLaws A loc S} (arity : loc -> nat) (steady : loc -> Prop).

(** The index of a cache is in step with its entries, where its clients keep to [steady]: a value
    that replaces another has its index key.  It always is, when the index key does not depend
    on the value. *)
Definition index_kept (c : loc) (f : list A -> V -> list A) : Prop := steady c \/ stable f.

Definition store_ok (c : loc) x es : Prop :=
  ct_wf (arity c) (cache x) /\ ct_items (cache x) ≡ₚ keyed es /\ counters_ok (index_kept c) x es.

Lemma store_keys c x es : store_ok c x es -> NoDup (keys es) /\ forall k, k ∈ keys es -> ct_full (arity c) k.
Proof.
  intros (Hw & Hp & _). destruct (ct_keys _ _ Hw) as [Hd Hf]. unfold dict_wf in Hd. change (NoDup (ct_items (cache x)).*1) in Hd.
  rewrite <- keyed_keys, <- Hp. split; [done|]. intros k. rewrite <- Hp. apply Hf.
Qed.

Lemma keyed_app es1 es2 : keyed (es1 ++ es2) = keyed es1 ++ keyed es2.
Proof. apply fmap_app. Qed.

Lemma in_keyed k n es : (k, n) ∈ keyed es <-> exists e, (n, e) ∈ es /\ key e = k.
Proof.
  unfold keyed. rewrite list_elem_of_fmap. split; [intros ([n' e] & [= -> ->] & Hin); eauto|].
  intros (e & Hin & <-). by exists (n, e).
Qed.

Lemma pop_full (a : nat) (d : S) es1 n e es2 : ct_wf a d -> ct_items d ≡ₚ keyed (es1 ++ (n, e) :: es2) ->
  exists d', ct_pop (key e) d = Ok (Some (Leaf n), d') /\ ct_wf a d' /\ ct_items d' ≡ₚ keyed (es1 ++ es2).
Proof.
  intros Hw Hp. destruct (ct_keys _ _ Hw) as [Hd Hf].
  assert (Hin : (key e, n) ∈ ct_items d) by (rewrite Hp; apply in_keyed; exists e; split; [set_solver|done]).
  assert (Hk : ct_full a (key e)) by (apply Hf, list_elem_of_fmap; by exists (key e, n)).
  destruct (ct_pop_spec a d (key e) Hw (ct_full_partial _ _ Hk)) as (gone & d' & Hw' & Hsplit & Hg & Ho & Hres).
  assert (Hgone : (key e, n) ∈ gone).
  { rewrite Hsplit in Hin. apply elem_of_app in Hin as [?|Hin]; [done|]. destruct (Ho _ Hin). by apply (ct_covers_full a). }
  destruct Hres as [(-> & _)|(t & E & _ & _ & Hfull)]; [by apply elem_of_nil in Hgone|].
  destruct (Hfull Hk) as (n' & -> & ->). apply list_elem_of_singleton in Hgone. injection Hgone as <-.
  exists d'. split_and!; [done|done|]. apply (Permutation_cons_inv (a := (key e, n))).
  change ((key e, n) :: ct_items d') with ([(key e, n)] ++ ct_items d'). rewrite <- Hsplit, Hp, !keyed_app.
  by rewrite (Permutation_middle (keyed es1) (keyed es2)).
Qed.

Lemma pop_raw_ok s c x k r d' : caches s !! c = Some x -> ct_pop k (cache x) = Ok (r, d') ->
  pop_raw c k s = (Ok r, on_caches (insert c (set_cache d' x)) s).
Proof.
  intros Hc E. unfold pop_raw. run (self_ok s c x Hc). unfold st_lift, st_bind at 1. rewrite E.
  by run (set_self_ok s c x (set_cache d') Hc).
Qed.

(** An entry that may be there. *)
Inductive lookup_spec es k : option loc -> Prop :=
  | lookup_miss : k ∉ keys es -> lookup_spec es k None
  | lookup_hit es1 n e es2 : es = es1 ++ (n, e) :: es2 -> key e = k -> lookup_spec es k (Some n).

Lemma lookup_node_spec s c x es k : caches s !! c = Some x -> store_ok c x es -> ct_full (arity c) k ->
  exists r, lookup_node c k s = (Ok r, s) /\ lookup_spec es k r /\ ct_get k (cache x) = Ok (Leaf <$> r).
Proof.
  intros Hc Hs Hk. pose proof (store_keys _ _ _ Hs) as [Hnd _]. destruct Hs as (Hw & Hp & _).
  pose proof (ct_get_spec _ _ _ Hw Hk) as Eg. destruct (ct_keys _ _ Hw) as [Hd _].
  exists (dget k (ct_items (cache x))). split_and!; [|..|done].
  - unfold lookup_node. run (self_ok s c x Hc). unfold st_lift, st_bind at 1. rewrite Eg. by destruct (dget _ _).
  - destruct (dget k (ct_items (cache x))) as [n|] eqn:E.
    + apply dget_some_iff in E; [|done]. rewrite Hp in E. apply in_keyed in E as (e & Hin & Hke).
      apply list_elem_of_split in Hin as (es1 & es2 & ->). by eapply lookup_hit.
    + apply dget_none in E. change (k ∉ (ct_items (cache x)).*1) in E. rewrite Hp, keyed_keys in E. by constructor.
Qed.

(** ** Calls of one cache *)

Definition same_config x x' : Prop := exists d i n, x' = set_index i (set_cached_len n (set_cache d x)).

(** The cache [c] has the entries [es'] now, and [calls] were run. *)
Definition becomes s (E : gmap loc entries) (c : loc) x es' (calls : list CB) s' : Prop := exists R' G' x',
  core s' R' (<[c := es']> E) G' /\ caches s' = <[c := x']> (caches s) /\ same_config x x' /\
  store_ok c x' es' /\ called s' = called s ++ calls /\ same_globals s s'.

Lemma same_config_refl x : same_config x x.
Proof. exists (cache x), (extra_index x), (cached_cache_len x). by destruct x. Qed.
Lemma same_config_trans x y z : same_config x y -> same_config y z -> same_config x z.
Proof. intros (d1 & i1 & n1 & ->) (d2 & i2 & n2 & ->). by exists d2, i2, n2. Qed.

Lemma becomes_trans s E c x es1 calls1 s1 es2 calls2 s2 :
  becomes s E c x es1 calls1 s1 ->
  (forall R G x1, core s1 R (<[c := es1]> E) G -> caches s1 !! c = Some x1 -> same_config x x1 -> store_ok c x1 es1 ->
     becomes s1 (<[c := es1]> E) c x1 es2 calls2 s2) ->
  becomes s E c x es2 (calls1 ++ calls2) s2.
Proof.
  intros (R1 & G1 & x1 & HC1 & Hc1 & Hx1 & Hs1 & Hcall1 & Hg1 & Hu1) Hnext.
  destruct (Hnext R1 G1 x1) as (R2 & G2 & x2 & HC2 & Hc2 & Hx2 & Hs2 & Hcall2 & Hg2 & Hu2); [done|by rewrite Hc1, lookup_insert_eq|done|done|].
  exists R2, G2, x2. rewrite insert_insert_eq in HC2. split_and!; [done| | |done| |split; congruence].
  - by rewrite Hc2, Hc1, insert_insert_eq.
  - by eapply same_config_trans.
  - by rewrite Hcall2, Hcall1, app_assoc.
Qed.

Lemma counted_out_config x e : list_root (counted_out x e) = list_root x /\ cache (counted_out x e) = cache x /\
  exists i n, counted_out x e = set_index i (set_cached_len n x).
Proof.
  split; [unfold counted_out; by destruct (extra_index_cb x), (size_callback x)|].
  split; [unfold counted_out; by destruct (extra_index_cb x), (size_callback x)|].
  exists (extra_index (counted_out x e)), (cached_cache_len (counted_out x e)). apply counted_out_recounted.
Qed.

(** [delete_node] and then [cache.pop(node.key, None)]. *)
Lemma delete_pop_spec s R E G c x es1 n e es2 :
  core s R E G -> caches s !! c = Some x -> E !! c = Some (es1 ++ (n, e) :: es2) -> store_ok c x (es1 ++ (n, e) :: es2) ->
  exists d s1 p s' R' x',
  delete_node c n s = (Ok d, s1) /\ get_node n s1 = (Ok (cleared e), s1) /\ pop_raw c (key (cleared e)) s1 = (Ok p, s') /\
  core s' R' (<[c := es1 ++ es2]> E) (filter (other_than n) G) /\ caches s' = <[c := x']> (caches s) /\ same_config x x' /\
  store_ok c x' (es1 ++ es2) /\ called s' = called s ++ kept_callbacks e /\ same_globals s s' /\
  nodes s' = alter (fun _ => cleared e) n (nodes s) /\
  (forall m, held (list_nodes s) m <> Some n -> accessed (list_nodes s') m = accessed (list_nodes s) m).
Proof.
  intros HC Hc He Hs. pose proof (store_keys _ _ _ Hs) as [Hnd _]. destruct Hs as (Hw & Hp & Hcount).
  destruct (delete_node_spec _ _ _ _ _ _ _ _ _ _ HC Hc He) as (d & s1 & R1 & E1 & HC1 & Hc1 & Hcall & Hn1 & Hg & Ha).
  pose proof (counted_out_ok _ _ _ _ _ _ Hcount Hnd) as Hcount1.
  destruct (counted_out_config x e) as (Hroot & Hcache & i & m & Hconf).
  destruct (pop_full _ _ _ _ _ _ Hw Hp) as (d' & Ep & Hw' & Hp').
  assert (Hin : (n, e) ∈ es1 ++ (n, e) :: es2) by (apply elem_of_app; right; left).
  destruct (c_node _ _ _ _ HC _ _ _ _ He Hin) as (Hx & _ & _).
  assert (Hc1' : caches s1 !! c = Some (counted_out x e)) by (by rewrite Hc1, lookup_insert_eq).
  exists d, s1, (Some (Leaf n)), (on_caches (insert c (set_cache d' (counted_out x e))) s1), R1, (set_cache d' (counted_out x e)).
  split; [done|]. split; [apply get_node_ok; by rewrite Hn1, lookup_alter_eq, Hx|].
  split; [apply pop_raw_ok; [done|]; rewrite Hcache; unfold cleared; by destruct (kept_callbacks e)|].
  split; [by eapply core_set|]. split; [simpl; by rewrite Hc1, insert_insert_eq|].
  split; [rewrite Hconf; by exists d', i, m|]. split; [|done].
  split; [done|]. split; [done|]. exact Hcount1.
Qed.

(** ** Eviction *)

Definition callbacks_of es : list CB := flat_map (fun ne => kept_callbacks ne.2) es.

(** The longest beginning of the entries that fits. *)
Definition fits x es (kept gone : entries) : Prop :=
  es = kept ++ gone /\ total_size (size_callback x) (values kept) <= max_size x /\
  forall p q, es = p ++ q -> (List.length kept < List.length p)%nat -> max_size x < total_size (size_callback x) (values p).

Lemma cache_len_spec c x es : store_ok c x es -> cache_len x = total_size (size_callback x) (values es).
Proof.
  intros (Hw & Hp & Hs & _). unfold cache_len. destruct (size_callback x) as [f|] eqn:Ef; [by apply Hs|].
  rewrite (ct_len_spec _ _ Hw), Hp. unfold keyed, values. simpl. by rewrite !length_fmap.
Qed.

Lemma total_nil (o : option (V -> Z)) : total_size o [] = 0.
Proof. by destruct o. Qed.

Lemma becomes_now s R E G c x es : core s R E G -> caches s !! c = Some x -> E !! c = Some es -> store_ok c x es ->
  becomes s E c x es [] s.
Proof.
  intros HC Hc He Hs. exists R, G, x. rewrite insert_id by done.
  split_and!; [done|by rewrite insert_id|apply same_config_refl|done|by rewrite app_nil_r|done].
Qed.

(** The oldest entry is the one before the root. *)
Lemma oldest s R E G c x es1 n e : core s R E G -> caches s !! c = Some x -> E !! c = Some (es1 ++ [(n, e)]) ->
  exists root last, in_lists (deref (list_root x)) s = (Ok root, s) /\ prev_node root = Some last /\
    in_lists (get_cache_entry last) s = (Ok (Some n), s).
Proof.
  intros HC Hc He. pose proof (c_ring _ _ _ _ HC _ _ _ Hc He) as Hring.
  pose proof (lists_seg _ _ (c_lists _ _ _ _ HC) _ _ Hring) as Hd.
  pose proof (dseg_last _ _ _ _ Hd) as Hprv. rewrite fmap_app, last_app in Hprv. simpl in Hprv.
  destruct (node_fields (list_nodes s) (list_root x) (prv_alive _ _ _ Hprv)) as (root & Er & Hp & _).
  destruct (c_node _ _ _ _ HC c _ n e He ltac:(set_solver)) as (_ & _ & Hh).
  assert (Hid : set_list_nodes (list_nodes s) s = s) by (by destruct s).
  exists root, (_list_node e). split; [|split; [by rewrite Hp|]].
  - rewrite (in_lists_ok _ s _ _ (deref_alive _ _ _ Er)). by rewrite Hid.
  - unfold held in Hh. apply bind_Some in Hh as (y & Ey & Hy). rewrite (in_lists_ok _ s (Ok (Some n)) (list_nodes s)); [by rewrite Hid|].
    unfold get_cache_entry. run (deref_alive _ _ _ Ey). by rewrite Hy.
Qed.

Lemma fits_all x es : total_size (size_callback x) (values es) <= max_size x -> fits x es es [].
Proof.
  intros Ht. split; [by rewrite app_nil_r|]. split; [done|]. intros p q -> Hl. rewrite length_app in Hl. lia.
Qed.

Lemma fits_snoc x x' es1 y kept gone : same_config x x' -> fits x' es1 kept gone ->
  max_size x < total_size (size_callback x) (values (es1 ++ [y])) -> fits x (es1 ++ [y]) kept (gone ++ [y]).
Proof.
  intros (d & i & n & ->) (-> & Ht & Hlong) Hbig. simpl in *. split; [by rewrite app_assoc|]. split; [done|].
  intros p q E Hl. destruct q as [|z q] using rev_ind; [by rewrite app_nil_r in E; rewrite <- E|].
  rewrite app_assoc in E. apply app_inj_tail in E as [E _]. by eapply Hlong.
Qed.

Lemma lru_evict_loop_spec fuel s R E G c x es :
  core s R E G -> caches s !! c = Some x -> E !! c = Some es -> store_ok c x es -> 0 <= max_size x ->
  (List.length es <= fuel)%nat -> exists s' kept gone,
  evict_loop fuel c s = (Ok tt, s') /\ fits x es kept gone /\ becomes s E c x kept (callbacks_of (reverse gone)) s'.
Proof.
  revert s R E G x es. induction fuel as [|fuel IH]; intros s R E G x es HC Hc He Hs Hmax Hfuel.
  all: pose proof (cache_len_spec _ _ _ Hs) as Hlen; cbn [evict_loop]; run (self_ok s c x Hc); rewrite Hlen.
  all: destruct (Z.ltb_spec (max_size x) (total_size (size_callback x) (values es))) as [Hbig|Hfits];
    [|exists s, es, []; split; [done|]; split; [by apply fits_all|by eapply becomes_now]].
  - destruct es; [|simpl in Hfuel; lia]. rewrite total_nil in Hbig. lia.
  - destruct es as [|[n e] es1 _] using rev_ind; [rewrite total_nil in Hbig; lia|].
    destruct (oldest _ _ _ _ _ _ _ _ _ HC Hc He) as (root & last & E1 & Elast & E2).
    destruct (delete_pop_spec _ _ _ _ _ _ _ _ _ _ HC Hc He Hs)
      as (d & s1 & p & s2 & R2 & x2 & E3 & E4 & E5 & HC2 & Hc2 & Hx2 & Hs2 & Hcall & Hg & _).
    rewrite app_nil_r in HC2, Hs2. pose proof Hx2 as (d2 & i2 & n2 & Ex2).
    destruct (IH s2 R2 _ _ x2 es1 HC2) as (s3 & kept & gone & E6 & Hfit & Hb);
      [by rewrite Hc2, lookup_insert_eq|by rewrite lookup_insert_eq|done|by rewrite Ex2|rewrite length_app in Hfuel; simpl in Hfuel; lia|].
    exists s3, kept, (gone ++ [(n, e)]). split; [|split; [by eapply fits_snoc|]].
    + run E1. rewrite Elast. run E2. run E3. run E4. run E5. exact E6.
    + rewrite reverse_app. change (callbacks_of (reverse [(n, e)] ++ reverse gone)) with (kept_callbacks e ++ callbacks_of (reverse gone)).
      eapply becomes_trans; [|intros R' G' x' HC' Hc' Hx' Hs'].
      * exists R2, (filter (other_than n) G), x2. split_and!; done.
      * rewrite Hc2, lookup_insert_eq in Hc'. injection Hc' as <-. exact Hb.
Qed.

Lemma length_values c x es : store_ok c x es -> List.length (ct_values (cache x)) = List.length es.
Proof.
  intros (Hw & Hp & _). rewrite (ct_values_spec _ _ Hw). rewrite length_fmap, (Permutation_length Hp). apply length_fmap.
Qed.

Lemma lru_evict_spec s R E G c x es : core s R E G -> caches s !! c = Some x -> E !! c = Some es -> store_ok c x es ->
  0 <= max_size x -> exists s' kept gone,
  evict c s = (Ok tt, s') /\ fits x es kept gone /\ becomes s E c x kept (callbacks_of (reverse gone)) s'.
Proof.
  intros HC Hc He Hs Hmax. unfold evict. run (self_ok s c x Hc). eapply lru_evict_loop_spec; [done..|].
  rewrite (length_values _ _ _ Hs). lia.
Qed.

(** ** An entry comes *)

(** What [add_node] makes of the counters. *)
Definition counted_in x (k : list A) (v : V) : LruCache :=
  let x1 := match size_callback x with Some f => set_cached_len (cached_cache_len x + f v) x | None => x end in
  match extra_index_cb x with
  | Some f => set_index (index_add (f k v) k (extra_index x)) x1
  | None => x1
  end.

Lemma counted_in_ok kept x es n e : counters_ok kept x es -> key e ∉ keys es -> counters_ok kept (counted_in x (key e) (value e)) ((n, e) :: es).
Proof.
  intros [Hs Hi] Hk. split.
  - intros f Hf. assert (Hfx : size_callback x = Some f) by (unfold counted_in in Hf; by destruct x as [? ? ? ? ? ? ? [] []]).
    assert (Hc : cached_cache_len (counted_in x (key e) (value e)) = cached_cache_len x + f (value e)).
    { unfold counted_in. rewrite Hfx. by destruct (extra_index_cb x). }
    rewrite Hc, (Hs f Hfx). simpl. lia.
  - intros f Hf Hst. assert (Hfx : extra_index_cb x = Some f) by (unfold counted_in in Hf; by destruct x as [? ? ? ? ? ? ? [] []]).
    assert (Hc : extra_index (counted_in x (key e) (value e)) = index_add (f (key e) (value e)) (key e) (extra_index x)).
    { unfold counted_in. by rewrite Hfx. }
    rewrite Hc. apply index_insert; [by apply Hi|done].
Qed.

Lemma counted_in_config x d k v : same_config x (set_cache d (counted_in x k v)) /\
  list_root (counted_in x k v) = list_root x /\ counted_in (set_cache d x) k v = set_cache d (counted_in x k v).
Proof.
  unfold counted_in. split; [|destruct x as [? ? ? ? ? ? ? [] []]; done].
  exists d, (extra_index (counted_in x k v)), (cached_cache_len (counted_in x k v)).
  unfold counted_in. destruct x as [? ? ? ? ? ? ? [] []]; done.
Qed.

Lemma add_node_spec s R E G c x es k v cbs : core s R E G -> caches s !! c = Some x -> E !! c = Some es ->
  store_ok c x es -> k ∉ keys es -> ct_full (arity c) k -> exists s' n e,
  add_node c k v cbs s = (Ok tt, s') /\ becomes s E c x ((n, e) :: es) [] s' /\
  key e = k /\ value e = v /\ kept_callbacks e = fold_left add_callback cbs [].
Proof.
  intros HC Hc He Hs Hk Hf. pose proof Hs as (Hw & Hp & Hcount).
  destruct (new_lru_node_spec _ _ _ _ _ _ _ k v cbs (prune_unread_entries x) HC Hc He)
    as (n & l & g & rd & h' & R' & G' & E1 & HC1 & Hn).
  set (e := new_entry l g c k v (stored cbs)) in *. set (s1 := on_nodes _ _) in *.
  destruct (ct_set_spec (arity c) (cache x) k n Hw Hf) as (d & E2 & Hw' & Hp').
  { change (k ∉ (ct_items (cache x)).*1). by rewrite Hp, keyed_keys. }
  assert (Hc1 : caches s1 !! c = Some x) by done.
  destruct (counted_in_config x d k v) as (Hconf & Hroot & Heq).
  exists (on_caches (insert c (set_cache d (counted_in x k v))) s1), n, e. split; [|split; [|split_and!; [done|done|by destruct cbs]]].
  - unfold add_node. run (self_ok s c x Hc). run E1. unfold st_lift, st_bind at 1. rewrite E2.
    run (set_self_ok s1 c x (set_cache d) Hc1). set (s2 := on_caches _ s1). set (x2 := set_cache d x) in *.
    assert (Hc2 : caches s2 !! c = Some x2) by (simpl; by rewrite lookup_insert_eq).
    set (x3 := match size_callback x with Some f => set_cached_len (cached_cache_len x2 + f v) x2 | None => x2 end).
    rewrite (st_bind_run _ _ _ tt (on_caches (insert c x3) s2)).
    2: { unfold x3. destruct (size_callback x); [by rewrite (set_self_ok s2 c x2 _ Hc2)|by rewrite on_caches_same]. }
    assert (Hfinal : forall y, on_caches (insert c y) s2 = on_caches (insert c y) s1) by (intros y; apply on_caches_twice).
    rewrite <- Heq. unfold counted_in. fold x2. change (size_callback x2) with (size_callback x).
    change (extra_index_cb x2) with (extra_index_cb x). fold x3.
    destruct (extra_index_cb x) as [f|]; [|by rewrite Hfinal].
    rewrite Hfinal. rewrite (set_self_ok _ c x3) by (simpl; by rewrite lookup_insert_eq).
    rewrite on_caches_twice. unfold x3. by destruct (size_callback x).
  - exists R', G', (set_cache d (counted_in x k v)). split_and!; [by eapply core_set|done|done| |by rewrite app_nil_r|done].
    split; [done|]. split; [simpl; by rewrite Hp', Hp|]. exact (counted_in_ok _ x es n e Hcount Hk).
Qed.
End lru.
