(* ===== verification/LruCacheProps.v ===== *)
(** * LruCacheProps: caches forget what was used least recently

    Every call of a cache does what the specification [lru_step] says to the list of its
    items, and nothing to the other caches. *)
From S2P Require Import Prelude PyVal PySort PyState LinkedList TreeCache LruCache LruEntries.
From stdpp Require Import sorting.
Open Scope list_scope.
Open Scope Z_scope.
Open Scope py_scope.
Open Scope st_scope.

Section lru.
Context {A V CB S : Type} `{EqDecision A, EqDecision V, EqDecision CB, !CacheType A loc S, SetOrder, !LruEnv, !LruClock}.
Context `{!CacheTypeLaws A loc S} (arity : loc -> nat) (steady : loc -> Prop).
Abbreviation Node := (Node A V CB).
Abbreviation LruCache := (LruCache A V S).
Abbreviation Process := (Process A V CB S).
Abbreviation LruM := (St Process).
Abbreviation entries := (list (loc * Node)).
Abbreviation Item := (Item A V CB).
Abbreviation Lru := (Lru A V CB).
Abbreviation store_ok := (store_ok arity steady).
Abbreviation becomes := (becomes arity steady).
Abbreviation index_kept := (index_kept steady).
Implicit Types (s : Process) (x : LruCache) (e : Node) (es : entries).

(** ** What a cache shows *)

Definition shown e : Item := {| item_key := key e; item_value := value e; item_callbacks := kept_callbacks e |}.
Definition view es : list Item := (fun ne => shown ne.2) <$> es.

Definition abs x es : Lru :=
  {| lru_items := view es; lru_max := max_size x; lru_size := size_callback x; lru_index := extra_index_cb x;
     lru_resizable := apply_cache_factor_from_config x |}.

Lemma abs_config x x' es : same_config x x' -> abs x' es = with_items (view es) (abs x es).
Proof. by intros (d & i & n & ->). Qed.

Lemma view_app es1 es2 : view (es1 ++ es2) = view es1 ++ view es2.
Proof. apply fmap_app. Qed.
Lemma view_keys es : item_key <$> view es = keys es.
Proof. unfold view, keys. rewrite <- list_fmap_compose. by apply list_fmap_ext. Qed.
Lemma view_values es : item_value <$> view es = values es.
Proof. unfold view, values. rewrite <- list_fmap_compose. by apply list_fmap_ext. Qed.
Lemma view_calls es : calls_of (view es) = callbacks_of es.
Proof. induction es as [|[n e] es IH]; [done|]. unfold calls_of, callbacks_of in *. simpl. by rewrite <- IH. Qed.
Lemma view_reverse es : view (reverse es) = reverse (view es).
Proof. apply fmap_reverse. Qed.

Lemma app_split {T U} (f : T -> U) (l : list T) p q : f <$> l = p ++ q -> exists p' q', l = p' ++ q' /\ p = f <$> p' /\ q = f <$> q'.
Proof.
  intros E. exists (take (List.length p) l), (drop (List.length p) l). split; [by rewrite take_drop|].
  rewrite fmap_take, fmap_drop, E. by rewrite take_app_length, drop_app_length.
Qed.

Lemma fits_evicts x es0 es kept gone : fits x es kept gone ->
  lru_evicts (abs x es0) (view es) (callbacks_of (reverse gone)) (view kept).
Proof.
  intros (-> & Ht & Hlong). exists (view gone). split; [apply view_app|]. split; [by rewrite <- view_reverse, view_calls|].
  unfold lru_total. simpl. rewrite view_values. split; [done|]. intros p q E Hl.
  apply app_split in E as (p' & q' & E & -> & ->). fold (view p') in *.
  rewrite view_values. apply (Hlong p' q' E). unfold view in Hl. by rewrite !length_fmap in Hl.
Qed.

(** ** Entries with the same data *)

Definition data es : list (loc * list A * V) := (fun ne => (ne.1, key ne.2, value ne.2)) <$> es.

Lemma data_keyed es : keyed es = (fun d => (d.1.2, d.1.1)) <$> data es.
Proof. unfold keyed, data. rewrite <- list_fmap_compose. by apply list_fmap_ext. Qed.
Lemma data_values es : values es = snd <$> data es.
Proof. unfold values, data. rewrite <- list_fmap_compose. by apply list_fmap_ext. Qed.
Lemma in_data n k v es : (n, k, v) ∈ data es <-> exists e, (n, e) ∈ es /\ key e = k /\ value e = v.
Proof.
  unfold data. rewrite list_elem_of_fmap. split; [intros ([n' e] & [= -> -> ->] & Hin); eauto|].
  intros (e & Hin & <- & <-). by exists (n, e).
Qed.

Lemma total_perm (o : option (V -> Z)) (vs vs' : list V) : vs ≡ₚ vs' -> total_size o vs = total_size o vs'.
Proof.
  intros Hp. destruct o as [f|]; simpl; [|by rewrite Hp].
  induction Hp as [|v vs vs' _ IH|v v' vs|vs vs' vs'' _ IH1 _ IH2]; simpl; lia.
Qed.

Lemma store_perm c x es es' : data es' ≡ₚ data es -> store_ok c x es -> store_ok c x es'.
Proof.
  intros Hd (Hw & Hp & Hs & Hi). split; [done|]. split; [by rewrite Hp, !data_keyed, Hd|]. split.
  - intros f Hf. rewrite (Hs f Hf). apply total_perm. by rewrite !data_values, Hd.
  - intros f Hf Hst. destruct (Hi f Hf Hst) as (Hwf & Hks & Hix). split; [done|]. split; [done|]. intros ik k. rewrite Hix.
    assert (Hin : forall es0, (exists n e, (n, e) ∈ es0 /\ key e = k /\ f k (value e) = ik) <->
              exists n v, (n, k, v) ∈ data es0 /\ f k v = ik).
    { intros es0. setoid_rewrite in_data. naive_solver. }
    rewrite !Hin. by setoid_rewrite Hd.
Qed.

Lemma data_move es1 n e e' es2 : key e' = key e -> value e' = value e -> data ((n, e') :: es1 ++ es2) ≡ₚ data (es1 ++ (n, e) :: es2).
Proof. intros Hk Hv. unfold data. rewrite <- Permutation_middle, !fmap_cons. simpl. by rewrite Hk, Hv. Qed.

Lemma data_place es1 n e e' es2 : key e' = key e -> value e' = value e -> data (es1 ++ (n, e') :: es2) = data (es1 ++ (n, e) :: es2).
Proof. intros Hk Hv. unfold data. rewrite !fmap_app, !fmap_cons. simpl. by rewrite Hk, Hv. Qed.

(** ** More callbacks *)

Definition with_callbacks (cbs : list CB) e : Node :=
  match cbs with [] => e | _ => set_callbacks (Some (fold_left add_callback cbs (default [] (callbacks e)))) e end.

Lemma with_callbacks_kept cbs e : kept_callbacks (with_callbacks cbs e) = more_callbacks cbs (kept_callbacks e) /\
  key (with_callbacks cbs e) = key e /\ value (with_callbacks cbs e) = value e /\
  _list_node (with_callbacks cbs e) = _list_node e /\ _global_list_node (with_callbacks cbs e) = _global_list_node e /\
  _cache (with_callbacks cbs e) = _cache e.
Proof. by destruct cbs. Qed.

Lemma add_callbacks_spec s n e cbs : nodes s !! n = Some e ->
  add_callbacks n cbs s = (Ok tt, on_nodes (alter (fun _ => with_callbacks cbs e) n) s).
Proof.
  intros Hn. unfold add_callbacks, with_callbacks. destruct cbs as [|cb cbs].
  - unfold st_ret, on_nodes. rewrite alter_id; [by destruct s|]. by intros y [= <-]%(eq_trans (eq_sym Hn)).
  - unfold set_node, st_modify, on_nodes. do 2 f_equal. apply map_eq. intros m.
    destruct (decide (n = m)) as [<-|]; [by rewrite !lookup_alter_eq, Hn|by rewrite !lookup_alter_ne].
Qed.

Lemma cleared_same e : key (cleared e) = key e /\ value (cleared e) = value e /\ _list_node (cleared e) = _list_node e /\
  _global_list_node (cleared e) = _global_list_node e /\ _cache (cleared e) = _cache e /\ kept_callbacks (cleared e) = [].
Proof. unfold cleared. destruct (kept_callbacks e) eqn:Ek; [by rewrite Ek|done]. Qed.

(** ** The calls *)

Definition run_op (c : loc) (o : op A V CB) : LruM (answer V) :=
  match o with
  | Get k cbs t => let! r := cache_get c k cbs t in st_ret (AValue r)
  | Put k v cbs => cache_set c k v cbs ;;! st_ret AUnit
  | SetDefault k v => let! r := cache_set_default c k v in st_ret (AValue (Some r))
  | Pop k => let! r := cache_pop c k in st_ret (AValue r)
  | DelMulti k => cache_del_multi c k ;;! st_ret AUnit
  | Clear => cache_clear c ;;! st_ret AUnit
  | Contains k => let! b := cache_contains c k in st_ret (ABool b)
  | InvalidateIndex ik => cache_invalidate_on_extra_index c ik ;;! st_ret AUnit
  | Len => let! n := len c in st_ret (AInt n)
  end.

(** The value under a key. *)
Definition value_at s x (k : list A) (v : V) : Prop :=
  exists n e, ct_get k (cache x) = Ok (Some (Leaf n)) /\ nodes s !! n = Some e /\ value e = v.

(** The keys have the length the client keeps to in the cache.  Where a client invalidates by
    the index, and the index key depends on the value, a value that replaces another must have
    its index key: the code does not move a key to another place of the index. *)
Definition legal s (c : loc) x (o : op A V CB) : Prop :=
  match o with
  | Get k _ _ | SetDefault k _ | Pop k | Contains k => ct_full (arity c) k
  | Put k v _ => ct_full (arity c) k /\
      (steady c -> forall f v0, extra_index_cb x = Some f -> value_at s x k v0 -> f k v = f k v0)
  | DelMulti k => ct_partial (arity c) k
  | InvalidateIndex _ => exists f, extra_index_cb x = Some f /\ (steady c \/ stable f)
  | Clear | Len => True
  end.

Definition op_ok s (E : gmap loc entries) (c : loc) x es (o : op A V CB) : Prop := exists ans s' es' calls,
  run_op c o s = (Ok ans, s') /\ becomes s E c x es' calls s' /\
  lru_step ct_covers (abs x es) o ans calls (with_items (view es') (abs x es)).

(** ** Many entries at once *)

Definition not_among (gone : entries) (ne : loc * Node) : Prop := ne.1 ∉ gone.*1.
Definition rest (gone es : entries) : entries := filter (not_among gone) es.

Lemma rest_nil es : rest [] es = es.
Proof. apply filter_kept. intros ne _. unfold not_among. apply not_elem_of_nil. Qed.

Lemma rest_middle es1 n e es2 gone : NoDup (es1 ++ (n, e) :: es2).*1 ->
  rest ((n, e) :: gone) (es1 ++ (n, e) :: es2) = rest gone (es1 ++ es2).
Proof.
  rewrite fmap_app, fmap_cons, NoDup_app, NoDup_cons. intros (_ & Hd & Hn & _).
  assert (Hout : forall l : entries, n ∉ l.*1 -> rest ((n, e) :: gone) l = rest gone l).
  { intros l Hl. unfold rest. induction l as [|ne l IH]; [done|]. rewrite fmap_cons, not_elem_of_cons in Hl.
    rewrite !filter_cons, IH by tauto. apply decide_ext. unfold not_among. rewrite fmap_cons, not_elem_of_cons. simpl. naive_solver. }
  unfold rest. rewrite !filter_app, filter_cons, decide_False; [|unfold not_among; simpl; set_solver].
  fold (rest ((n, e) :: gone) es1) (rest ((n, e) :: gone) es2). rewrite !Hout; [done|done|].
  intros Hin. apply (Hd n Hin). left.
Qed.

(** The loop over nodes that are in no store any more. *)
Lemma delete_all_spec kept c gone : forall s R E G x es,
  core s R E G -> caches s !! c = Some x -> E !! c = Some es -> counters_ok kept x es -> NoDup (keys es) ->
  NoDup gone.*1 -> (forall ne, ne ∈ gone -> ne ∈ es) -> exists s' R' G' x',
  st_for (fun n => delete_node c n ;;! st_ret tt) gone.*1 s = (Ok tt, s') /\
  core s' R' (<[c := rest gone es]> E) G' /\ caches s' = <[c := x']> (caches s) /\
  (exists i n, x' = set_index i (set_cached_len n x)) /\ counters_ok kept x' (rest gone es) /\
  called s' = called s ++ callbacks_of gone /\ same_globals s s'.
Proof.
  induction gone as [|[n e] gone IH]; intros s R E G x es HC Hc He Hcount Hkeys Hnd Hin.
  - exists s, R, G, x. rewrite rest_nil, !insert_id by done. split_and!; try done; [|by rewrite app_nil_r].
    exists (extra_index x), (cached_cache_len x). by destruct x.
  - simpl in Hnd. apply NoDup_cons in Hnd as [Hn Hnd].
    assert (Hne : (n, e) ∈ es) by (apply Hin; left). apply list_elem_of_split in Hne as (es1 & es2 & ->).
    pose proof (core_nodup _ _ _ _ _ _ HC He) as Hids.
    destruct (delete_node_spec _ _ _ _ _ _ _ _ _ _ HC Hc He) as (d & s1 & R1 & E1 & HC1 & Hc1 & Hcall & Hn1 & Hg & _).
    pose proof (counted_out_ok _ _ _ _ _ _ Hcount Hkeys) as Hcount1. apply keys_middle in Hkeys as [Hkeys _].
    destruct (counted_out_config x e) as (_ & _ & i1 & m1 & Hconf).
    destruct (IH s1 R1 _ _ (counted_out x e) (es1 ++ es2) HC1) as (s2 & R2 & G2 & x2 & E2 & HC2 & Hc2 & Hx2 & Hcount2 & Hcall2 & Hg2);
      [by rewrite Hc1, lookup_insert_eq|by rewrite lookup_insert_eq|done|done|done| |].
    { intros [n' e'] Hne. assert (Hne' : n' <> n).
      { intros ->. apply Hn, list_elem_of_fmap. by exists (n, e'). }
      specialize (Hin (n', e') ltac:(by right)). rewrite elem_of_app, elem_of_cons in Hin. set_solver. }
    exists s2, R2, G2, x2. rewrite rest_middle by done. rewrite insert_insert_eq in HC2.
    split; [simpl; rewrite (st_bind_run _ _ _ tt s1); [exact E2|by run E1]|].
    split; [done|]. split; [by rewrite Hc2, Hc1, insert_insert_eq|].
    split; [|split; [done|]; split; [rewrite Hcall2, Hcall; simpl; by rewrite <- app_assoc|]].
    + destruct Hx2 as (i2 & m2 & ->). exists i2, m2. by rewrite Hconf.
    + destruct Hg, Hg2. split; congruence.
Qed.

Lemma rest_perm gone es : NoDup es.*1 -> NoDup gone.*1 -> (forall ne, ne ∈ gone -> ne ∈ es) -> es ≡ₚ gone ++ rest gone es.
Proof.
  intros Hes Hg Hin. apply NoDup_Permutation; [by eapply NoDup_fmap_1| |].
  - apply NoDup_app. split_and!; [by eapply NoDup_fmap_1| |apply NoDup_filter; by eapply NoDup_fmap_1].
    intros ne Hne [Hn _]%list_elem_of_filter. apply Hn, list_elem_of_fmap. by exists ne.
  - intros [n e]. rewrite elem_of_app. unfold rest. rewrite list_elem_of_filter. unfold not_among. simpl. split.
    + intros He. destruct (decide (n ∈ gone.*1)) as [([n' e'] & -> & Hne)%list_elem_of_fmap|]; [|by right]. left.
      assert (Heq : e' = e); [|by rewrite <- Heq].
      apply Hin in Hne as He'. apply list_elem_of_lookup in He as (i & Hi), He' as (j & Hj).
      assert (Hij : i = j). { eapply (NoDup_lookup es.*1); [done| |]; rewrite list_lookup_fmap; [by rewrite Hi|by rewrite Hj]. }
      subst j. rewrite Hi in Hj. by injection Hj.
    + intros [?|[_ ?]]; [by apply Hin|done].
Qed.

Lemma view_perm es es' : es ≡ₚ es' -> view es ≡ₚ view es'.
Proof. intros Hp. unfold view. by rewrite Hp. Qed.

Lemma view_sublist es es' : es `sublist_of` es' -> view es `sublist_of` view es'.
Proof. induction 1; simpl; by constructor. Qed.

Lemma rest_sublist gone es : rest gone es `sublist_of` es.
Proof. apply sublist_filter. Qed.

Lemma taken_rest (Q : Item -> Prop) gone es : NoDup es.*1 -> NoDup gone.*1 -> (forall ne, ne ∈ gone -> ne ∈ es) ->
  (forall ne, ne ∈ gone -> Q (shown ne.2)) -> (forall ne, ne ∈ rest gone es -> ~ Q (shown ne.2)) ->
  taken Q (view es) (view gone) (view (rest gone es)).
Proof.
  intros Hes Hg Hin HQ HnQ. split; [rewrite <- view_app; by apply view_perm, rest_perm|].
  split; [apply view_sublist, rest_sublist|].
  split; intros i (ne & -> & Hne)%list_elem_of_fmap; auto.
Qed.

(** The loop of [cache_invalidate_on_extra_index], when the index has forgotten [ik]. *)
Definition sized x es : Prop := forall g, size_callback x = Some g -> cached_cache_len x = total_size (Some g) (values es).

Lemma counted_out_unindexed x f ik e : extra_index_cb x = Some f -> dget ik (extra_index x) = None ->
  f (key e) (value e) = ik -> exists n, counted_out x e = set_cached_len n x.
Proof.
  intros Hf Hi Hk. exists (cached_cache_len (counted_out x e)). etrans; [exact (counted_out_recounted x e)|].
  assert (He : extra_index (counted_out x e) = extra_index x).
  { unfold counted_out. rewrite Hf, Hk. unfold unindex. by rewrite Hi. }
  rewrite He. by destruct x.
Qed.

Lemma invalidate_all_spec c f ik gone : forall s R E G x es,
  core s R E G -> caches s !! c = Some x -> E !! c = Some es -> ct_wf (arity c) (cache x) ->
  ct_items (cache x) ≡ₚ keyed es -> sized x es -> extra_index_cb x = Some f -> dget ik (extra_index x) = None ->
  NoDup gone.*1 -> (forall ne, ne ∈ gone -> ne ∈ es /\ f (key ne.2) (value ne.2) = ik) -> exists s' R' G' x',
  st_for (invalidate_key c) (keys gone) s = (Ok tt, s') /\
  core s' R' (<[c := rest gone es]> E) G' /\ caches s' = <[c := x']> (caches s) /\
  (exists d n, x' = set_cached_len n (set_cache d x)) /\ ct_wf (arity c) (cache x') /\
  ct_items (cache x') ≡ₚ keyed (rest gone es) /\ sized x' (rest gone es) /\
  called s' = called s ++ callbacks_of gone /\ same_globals s s'.
Proof.
  induction gone as [|[n e] gone IH]; intros s R E G x es HC Hc He Hw Hp Hsz Hf Hi Hnd Hin.
  - exists s, R, G, x. rewrite rest_nil, !insert_id by done. split_and!; try done; [|by rewrite app_nil_r].
    exists (cache x), (cached_cache_len x). by destruct x.
  - simpl in Hnd. apply NoDup_cons in Hnd as [Hn Hnd].
    destruct (Hin (n, e) ltac:(left)) as [Hne Hik]. simpl in Hik. apply list_elem_of_split in Hne as (es1 & es2 & ->).
    pose proof (core_nodup _ _ _ _ _ _ HC He) as Hids.
    destruct (pop_full arity steady _ _ _ _ _ _ Hw Hp) as (d & Epop & Hw1 & Hp1).
    set (x1 := set_cache d x). set (s1 := on_caches (insert c x1) s).
    assert (Hc1 : caches s1 !! c = Some x1) by (simpl; by rewrite lookup_insert_eq).
    pose proof (core_set s _ _ _ c x x1 HC Hc eq_refl) as HC1.
    destruct (delete_node_spec _ _ _ _ _ _ _ _ _ _ HC1 Hc1 He) as (dl & s2 & R2 & E2 & HC2 & Hc2 & Hcall & _ & Hg & _).
    destruct (counted_out_unindexed x1 f ik e Hf Hi Hik) as (m & Hx2).
    assert (Hsz2 : sized (counted_out x1 e) (es1 ++ es2)).
    { intros g Hg'. assert (Hgx : size_callback x = Some g) by (by rewrite Hx2 in Hg').
      specialize (Hsz g Hgx). rewrite values_app, total_app, <- values_app2 in Hsz.
      unfold counted_out, x1. simpl. rewrite Hgx, Hf. simpl. rewrite Hsz. simpl. lia. }
    rewrite Hx2 in Hc2, Hsz2. set (x2 := set_cached_len m x1) in *.
    destruct (IH s2 R2 _ _ x2 (es1 ++ es2) HC2) as (s3 & R3 & G3 & x3 & E3 & HC3 & Hc3 & Hx3 & Hw3 & Hp3 & Hsz3 & Hcall3 & Hg3);
      [by rewrite Hc2, lookup_insert_eq|by rewrite lookup_insert_eq|done..| |].
    { intros [n' e'] Hne. assert (Hne' : n' <> n).
      { intros ->. apply Hn, list_elem_of_fmap. by exists (n, e'). }
      destruct (Hin (n', e') ltac:(by right)) as [Hin' ?]. split; [|done]. rewrite elem_of_app, elem_of_cons in Hin'. set_solver. }
    exists s3, R3, G3, x3. rewrite rest_middle by done. rewrite insert_insert_eq in HC3.
    split; [|split; [done|]; split; [|split; [|split_and!; try done]]].
    + simpl. rewrite (st_bind_run _ _ _ tt s2); [exact E3|]. unfold invalidate_key.
      run (pop_raw_ok s c x (key e) (Some (Leaf n)) d Hc Epop). by run E2.
    + rewrite Hc3, Hc2. simpl. by rewrite !insert_insert_eq.
    + destruct Hx3 as (d3 & m3 & ->). by exists d3, m3.
    + rewrite Hcall3, Hcall. simpl. by rewrite <- app_assoc.
    + change (same_globals s s2) in Hg. destruct Hg, Hg3. split; congruence.
Qed.

Lemma in_rest gone es n e : (n, e) ∈ rest gone es <-> (n ∉ gone.*1) /\ (n, e) ∈ es.
Proof. unfold rest. by rewrite list_elem_of_filter. Qed.

(** The loop of [cache_clear]. *)
Lemma clear_all_spec c gone : forall s R E G x es,
  core s R E G -> caches s !! c = Some x -> E !! c = Some es ->
  NoDup gone.*1 -> (forall ne, ne ∈ gone -> ne ∈ es) -> exists s' R' G',
  st_for (fun n => run_and_clear_callbacks n ;;! drop_from_lists n) gone.*1 s = (Ok tt, s') /\
  core s' R' (<[c := rest gone es]> E) G' /\ caches s' = caches s /\
  called s' = called s ++ callbacks_of gone /\ same_globals s s'.
Proof.
  induction gone as [|[n e] gone IH]; intros s R E G x es HC Hc He Hnd Hin.
  - exists s, R, G. rewrite rest_nil, !insert_id by done. split_and!; try done. by rewrite app_nil_r.
  - simpl in Hnd. apply NoDup_cons in Hnd as [Hn Hnd].
    assert (Hne : (n, e) ∈ es) by (apply Hin; left). apply list_elem_of_split in Hne as (es1 & es2 & ->).
    pose proof (core_nodup _ _ _ _ _ _ HC He) as Hids.
    destruct (c_node _ _ _ _ HC c _ n e He) as [Hx _]; [set_solver|].
    destruct (cleared_same e) as (_ & _ & Hl & Hg & Hr & _).
    pose proof (core_called _ _ _ _ (called s ++ kept_callbacks e) HC) as HC0. fold (log (kept_callbacks e) s) in HC0.
    pose proof (core_node_used _ _ _ _ _ _ _ _ _ (cleared e) HC0 He Hl Hg Hr) as HC1. set (s1 := on_nodes _ _) in HC1.
    destruct (drop_from_lists_spec s1 R _ G c x es1 n (cleared e) es2 HC1 Hc) as (s2 & R2 & E2 & HC2 & (h2 & ->) & _);
      [by rewrite lookup_insert_eq|]. set (s2 := set_list_nodes h2 s1) in *. rewrite insert_insert_eq in HC2.
    destruct (IH s2 R2 _ _ x (es1 ++ es2) HC2) as (s3 & R3 & G3 & E3 & HC3 & Hc3 & Hcall3 & Hg3);
      [done|by rewrite lookup_insert_eq|done| |].
    { intros [n' e'] Hne. assert (Hne' : n' <> n).
      { intros ->. apply Hn, list_elem_of_fmap. by exists (n, e'). }
      specialize (Hin (n', e') ltac:(by right)). rewrite elem_of_app, elem_of_cons in Hin. set_solver. }
    exists s3, R3, G3. rewrite rest_middle by done. rewrite insert_insert_eq in HC3.
    split; [|split_and!; [done|done| |done]].
    + simpl. rewrite (st_bind_run _ _ _ tt s2); [exact E3|]. run (run_and_clear_spec s n e Hx). exact E2.
    + rewrite Hcall3. simpl. by rewrite <- app_assoc.
Qed.

Section op.
Context (s : Process) (R : gmap loc (list loc)) (E : gmap loc entries) (G : list (loc * loc)) (c : loc) (x : LruCache) (es : entries).
Context (HC : core s R E G) (Hc : caches s !! c = Some x) (He : E !! c = Some es) (Hs : store_ok c x es) (Hmax : 0 <= max_size x).

Lemma unchanged o ans : run_op c o s = (Ok ans, s) -> lru_step ct_covers (abs x es) o ans [] (abs x es) -> op_ok s E c x es o.
Proof. intros Hr Hl. exists ans, s, es, []. split; [done|]. split; [by eapply becomes_now|exact Hl]. Qed.

Lemma miss_keys k : k ∉ keys es -> k ∉ item_key <$> lru_items (abs x es).
Proof. simpl. by rewrite view_keys. Qed.

Lemma node_of es1 n e es2 : es = es1 ++ (n, e) :: es2 -> nodes s !! n = Some e.
Proof. intros ->. destruct (c_node _ _ _ _ HC c _ n e He) as [Hn _]; [set_solver|done]. Qed.

Lemma view_split es1 n e es2 : view (es1 ++ (n, e) :: es2) = view es1 ++ shown e :: view es2.
Proof. by rewrite view_app. Qed.

Lemma get_ok k cbs t : ct_full (arity c) k -> op_ok s E c x es (Get k cbs t).
Proof.
  intros Hk. destruct (lookup_node_spec _ _ _ _ _ _ _ Hc Hs Hk) as (r & E1 & Hl & _).
  destruct Hl as [Hmiss|es1 n e es2 Hes Hke].
  { apply unchanged with (AValue None); [|by apply step_get_miss, miss_keys]. cbn [run_op]. rewrite (st_bind_run _ _ _ None s); [done|]. unfold cache_get. by run E1. }
  pose proof (node_of _ _ _ _ Hes) as Hn. destruct (with_callbacks_kept cbs e) as (Hcb & Hk' & Hv' & Hl' & Hg' & Hc').
  set (e' := with_callbacks cbs e) in *.
  assert (Hshown : shown e' = {| item_key := k; item_value := value e; item_callbacks := more_callbacks cbs (kept_callbacks e) |}).
  { unfold shown. by rewrite Hcb, Hk', Hv', Hke. }
  exists (AValue (Some (value e))). rewrite Hes in He, Hs.
  assert (Hstep : forall es', view es' = (if t then shown e' :: view es1 ++ view es2 else view es1 ++ shown e' :: view es2) ->
            lru_step ct_covers (abs x es) (Get k cbs t) (AValue (Some (value e))) [] (with_items (view es') (abs x es))).
  { intros es' ->. eapply (step_get_hit _ _ _ _ _ (view es1) (shown e) (view es2) (shown e')); [|done|done].
    simpl. by rewrite Hes, view_split. }
  destruct t.
  - destruct (move_to_front_spec _ _ _ _ _ _ _ _ _ _ HC Hc He) as (rd & h' & R' & G' & E2 & HC2).
    set (s2 := at_reading rd h' s) in *.
    assert (Hn2 : nodes s2 !! n = Some e) by done.
    pose proof (core_node_used s2 R' _ G' c [] n e (es1 ++ es2) e' HC2 (lookup_insert_eq _ _ _) Hl' Hg' Hc') as HC3.
    rewrite insert_insert_eq in HC3. exists (on_nodes (alter (fun _ => e') n) s2), ((n, e') :: es1 ++ es2), [].
    split; [|split; [|by apply Hstep; simpl; rewrite view_app]].
    + cbn [run_op]. rewrite (st_bind_run _ _ _ (Some (value e)) (on_nodes (alter (fun _ => e') n) s2)); [done|].
      unfold cache_get. run E1. run (self_ok s c x Hc). run E2.
      run (add_callbacks_spec s2 n e cbs Hn2). rewrite (st_bind_run _ _ _ e' (on_nodes (alter (fun _ => e') n) s2)).
      2: { apply get_node_ok. simpl. by rewrite lookup_alter_eq, Hn. }
      unfold st_ret. by rewrite Hv'.
    + exists R', G', x. split; [exact HC3|]. split; [by rewrite insert_id|]. split; [apply same_config_refl|].
      split; [|split; [by rewrite app_nil_r|done]]. eapply store_perm, Hs. by apply data_move.
  - pose proof (core_node_used s R _ G c es1 n e es2 e' HC He Hl' Hg' Hc') as HC3.
    exists (on_nodes (alter (fun _ => e') n) s), (es1 ++ (n, e') :: es2), [].
    split; [|split; [|by apply Hstep; rewrite view_split]].
    + cbn [run_op]. rewrite (st_bind_run _ _ _ (Some (value e)) (on_nodes (alter (fun _ => e') n) s)); [done|].
      unfold cache_get. run E1. run (self_ok s c x Hc).
      rewrite (st_bind_run _ _ _ tt s) by done.
      run (add_callbacks_spec s n e cbs Hn). rewrite (st_bind_run _ _ _ e' (on_nodes (alter (fun _ => e') n) s)).
      2: { apply get_node_ok. simpl. by rewrite lookup_alter_eq, Hn. }
      unfold st_ret. by rewrite Hv'.
    + exists R, G, x. split; [exact HC3|]. split; [by rewrite insert_id|]. split; [apply same_config_refl|].
      split; [|split; [by rewrite app_nil_r|done]]. eapply store_perm, Hs. by rewrite (data_place es1 n e e' es2).
Qed.

Lemma add_new (cbs : list CB) : forall stored, NoDup (stored ++ cbs) -> more_callbacks cbs stored = stored ++ cbs.
Proof.
  unfold more_callbacks. induction cbs as [|cb cbs IH]; intros stored Hnd; simpl; [by rewrite app_nil_r|].
  unfold add_callback at 2. rewrite decide_False.
  - rewrite IH; [by rewrite <- app_assoc|]. by rewrite <- app_assoc.
  - intros Hin. apply NoDup_app in Hnd as (_ & Hd & _). apply (Hd cb Hin). left.
Qed.

Lemma fits_config x' es' kept gone : same_config x x' -> fits x' es' kept gone -> fits x es' kept gone.
Proof. by intros (d & i & n & ->). Qed.

(** A call that makes the entries [es1], and evicts then. *)
Lemma then_evict (m : LruM unit) es1 calls s1 : m s = (Ok tt, s1) -> becomes s E c x es1 calls s1 ->
  exists s' kept gone, (m ;;! evict c) s = (Ok tt, s') /\ fits x es1 kept gone /\
    becomes s E c x kept (calls ++ callbacks_of (reverse gone)) s'.
Proof.
  intros Em Hb. pose proof Hb as (R1 & G1 & x1 & HC1 & Hc1 & Hx1 & Hs1 & _).
  assert (Hm1 : 0 <= max_size x1) by (by destruct Hx1 as (d & i & n & ->)).
  destruct (lru_evict_spec arity steady s1 R1 _ G1 c x1 es1 HC1) as (s2 & kept & gone & E2 & Hf & Hb2);
    [by rewrite Hc1, lookup_insert_eq|by rewrite lookup_insert_eq|done|done|].
  exists s2, kept, gone. split; [by run Em|]. split; [by eapply fits_config|].
  eapply becomes_trans; [exact Hb|]. intros R' G' x' _ Hc' _ _. rewrite Hc1, lookup_insert_eq in Hc'. by injection Hc' as <-.
Qed.

Lemma add_evict k (v : V) (cbs : list CB) : ct_full (arity c) k -> k ∉ keys es -> exists s' kept gone e n,
  (add_node c k v cbs ;;! evict c) s = (Ok tt, s') /\ fits x ((n, e) :: es) kept gone /\
  becomes s E c x kept (callbacks_of (reverse gone)) s' /\
  shown e = {| item_key := k; item_value := v; item_callbacks := more_callbacks cbs [] |}.
Proof.
  intros Hk Hmiss. destruct (add_node_spec arity steady _ _ _ _ _ _ _ k v cbs HC Hc He Hs Hmiss Hk) as (s1 & n & e & E1 & Hb & Hke & Hve & Hcb).
  destruct (then_evict _ _ _ _ E1 Hb) as (s2 & kept & gone & E2 & Hf & Hb2). exists s2, kept, gone, e, n.
  split_and!; [done|done|done|]. unfold shown. by rewrite Hke, Hve, Hcb.
Qed.

Lemma clear_if n e (v : V) : nodes s !! n = Some e -> let e1 := if decide (v = value e) then e else cleared e in
  let calls := if decide (v = value e) then [] else kept_callbacks e in
  (if decide (v = value e) then st_ret tt else run_and_clear_callbacks n) s = (Ok tt, on_nodes (alter (fun _ => e1) n) (log calls s)).
Proof.
  intros Hn. cbv zeta. case_decide; [|by apply run_and_clear_spec]. unfold st_ret, on_nodes, log. simpl.
  rewrite alter_id, app_nil_r; [by destruct s|]. by intros y [= <-]%(eq_trans (eq_sym Hn)).
Qed.

Definition counted_over (n0 n1 : V) : LruCache :=
  match size_callback x with Some f => set_cached_len (cached_cache_len x - f n0 + f n1) x | None => x end.

Lemma store_set es1 n e es2 e' : es = es1 ++ (n, e) :: es2 -> key e' = key e ->
  (forall f, extra_index_cb x = Some f -> index_kept c f -> f (key e) (value e') = f (key e) (value e)) ->
  store_ok c (counted_over (value e) (value e')) ((n, e') :: es1 ++ es2).
Proof.
  intros Hes Hk Hsame. destruct Hs as (Hw & Hp & Hsz & Hix). rewrite Hes in Hp, Hsz, Hix.
  assert (Hconf : cache (counted_over (value e) (value e')) = cache x /\ size_callback (counted_over (value e) (value e')) = size_callback x /\
    extra_index_cb (counted_over (value e) (value e')) = extra_index_cb x /\ extra_index (counted_over (value e) (value e')) = extra_index x).
  { unfold counted_over. destruct (size_callback x) eqn:Esc; simpl; by rewrite ?Esc. }
  destruct Hconf as (Hcache & Hsc & Hic & Hi). split; [by rewrite Hcache|]. split; [|split].
  - rewrite Hcache, Hp. unfold keyed. rewrite <- (Permutation_middle es1 es2), !fmap_cons. simpl. by rewrite Hk.
  - rewrite Hsc. intros f Hf. pose proof (Hsz f Hf) as Ht. unfold counted_over. rewrite Hf. simpl.
    rewrite values_app, total_app, <- values_app2 in Ht. rewrite Ht. simpl. lia.
  - rewrite Hic, Hi. intros f Hf Hst. specialize (Hsame f Hf Hst). destruct (Hix f Hf Hst) as (Hwf & Hks & Hiff). split; [done|]. split; [done|].
    intros ik k. rewrite Hiff. split.
    + intros (n' & e1 & Hin & Hke & Hfe). apply elem_of_app in Hin as [Hin|[[= -> ->]|Hin]%elem_of_cons].
      * exists n', e1. set_solver.
      * exists n, e'. split; [left|]. split; [congruence|]. subst k ik. exact Hsame.
      * exists n', e1. set_solver.
    + intros (n' & e1 & [[= -> ->]|Hin]%elem_of_cons & Hke & Hfe).
      * exists n, e. split; [set_solver|]. split; [congruence|]. subst k ik. rewrite Hk. by symmetry.
      * exists n', e1. set_solver.
Qed.

(** What [cache_set] does to an entry that is there, until [evict]. *)
Definition overwritten e (v : V) (cbs : list CB) : Node :=
  set_value v (with_callbacks cbs (if decide (v = value e) then e else cleared e)).

Lemma overwritten_same e v cbs : key (overwritten e v cbs) = key e /\ value (overwritten e v cbs) = v /\
  kept_callbacks (overwritten e v cbs) = more_callbacks cbs (if decide (v = value e) then kept_callbacks e else []).
Proof.
  unfold overwritten. set (e1 := if decide _ then _ else _).
  destruct (with_callbacks_kept cbs e1) as (Hcb & Hk & _). destruct (cleared_same e) as (Hk2 & _ & _ & _ & _ & Hcb2).
  change (kept_callbacks (set_value v (with_callbacks cbs e1))) with (kept_callbacks (with_callbacks cbs e1)).
  change (key (set_value v (with_callbacks cbs e1))) with (key (with_callbacks cbs e1)).
  rewrite Hcb, Hk. unfold e1. split_and!; [by case_decide|done|]. case_decide; [done|by rewrite Hcb2].
Qed.

Lemma overwrite es1 n e es2 v cbs : es = es1 ++ (n, e) :: es2 ->
  (forall f, extra_index_cb x = Some f -> index_kept c f -> f (key e) v = f (key e) (value e)) -> exists s',
  (let! node := get_node n in
   (if decide (v = value node) then st_ret tt else run_and_clear_callbacks n) ;;!
   let! x := self c in
   match size_callback x with
   | Some f => set_self c (fun x => set_cached_len (cached_cache_len x - f (value node)) x) ;;!
               set_self c (fun x => set_cached_len (cached_cache_len x + f v) x)
   | None => st_ret tt
   end ;;!
   add_callbacks n cbs ;;!
   move_to_front n (list_root x) ;;!
   set_node n (set_value v)) s = (Ok tt, s') /\
  becomes s E c x ((n, overwritten e v cbs) :: es1 ++ es2) (if decide (v = value e) then [] else kept_callbacks e) s'.
Proof.
  intros Hes Hsame. pose proof (node_of _ _ _ _ Hes) as Hn. pose proof He as He'. rewrite Hes in He'.
  destruct (cleared_same e) as (Hk1 & Hv1 & Hl1 & Hg1 & Hr1 & _).
  pose proof (clear_if n e v Hn) as E1. set (calls := if decide (v = value e) then [] else kept_callbacks e) in *.
  set (e1 := if decide (v = value e) then e else cleared e) in *.
  assert (He1 : key e1 = key e /\ value e1 = value e /\ _list_node e1 = _list_node e /\
    _global_list_node e1 = _global_list_node e /\ _cache e1 = _cache e) by (unfold e1; by case_decide).
  destruct He1 as (Hke1 & Hve1 & Hle1 & Hge1 & Hre1).
  pose proof (core_called s R E G (called s ++ calls) HC) as HC0. fold (log calls s) in HC0.
  pose proof (core_node_used _ _ _ _ _ _ _ _ _ e1 HC0 He' Hle1 Hge1 Hre1) as HC1.
  set (s1 := on_nodes (alter (fun _ => e1) n) (log calls s)) in *.
  set (x2 := counted_over (value e) v).
  assert (Hroot2 : list_root x2 = list_root x) by (unfold x2, counted_over; by destruct (size_callback x)).
  pose proof (core_set s1 _ _ _ c x x2 HC1 Hc Hroot2) as HC2. set (s2 := on_caches (insert c x2) s1) in *.
  assert (Hn2 : nodes s2 !! n = Some e1) by (simpl; by rewrite lookup_alter_eq, Hn).
  destruct (with_callbacks_kept cbs e1) as (_ & Hk3 & Hv3 & Hl3 & Hg3 & Hr3). set (e3 := with_callbacks cbs e1) in *.
  pose proof (core_node_used _ _ _ _ _ _ _ _ _ e3 HC2 (lookup_insert_eq _ _ _) Hl3 Hg3 Hr3) as HC3.
  rewrite insert_insert_eq in HC3. set (s3 := on_nodes (alter (fun _ => e3) n) s2) in *.
  assert (Hc3 : caches s3 !! c = Some x2) by (simpl; by rewrite lookup_insert_eq).
  destruct (move_to_front_spec _ _ _ _ _ _ _ _ _ _ HC3 Hc3 (lookup_insert_eq _ _ _)) as (rd & h' & R4 & G4 & E4 & HC4).
  rewrite insert_insert_eq in HC4. set (s4 := at_reading rd h' s3) in *.
  assert (Hn4 : nodes s4 !! n = Some e3) by (simpl; by rewrite !lookup_alter_eq, Hn).
  pose proof (core_node_used s4 R4 _ G4 c [] n e3 (es1 ++ es2) (set_value v e3) HC4 (lookup_insert_eq _ _ _) eq_refl eq_refl eq_refl) as HC5.
  rewrite insert_insert_eq in HC5. fold (overwritten e v cbs) in HC5. set (s5 := on_nodes _ s4) in HC5.
  exists s5. split.
  - run (get_node_ok s n e Hn). run E1. run (self_ok s1 c x Hc).
    rewrite (st_bind_run _ _ _ tt s2).
    2: { unfold s2, x2, counted_over. destruct (size_callback x) as [f|]; [|by rewrite on_caches_same].
         rewrite (st_bind_run _ _ _ tt _ (set_self_ok s1 c x (fun x => set_cached_len (cached_cache_len x - f (value e)) x) Hc)).
         rewrite (set_self_ok _ c (set_cached_len (cached_cache_len x - f (value e)) x)) by (simpl; by rewrite lookup_insert_eq).
         by rewrite on_caches_twice. }
    run (add_callbacks_spec s2 n e1 cbs Hn2). rewrite Hroot2 in E4. run E4. unfold set_node, st_modify, s5, on_nodes. do 2 f_equal.
    apply map_eq. intros m. destruct (decide (n = m)) as [<-|]; [by rewrite !lookup_alter_eq; simpl; rewrite !lookup_alter_eq, Hn|by rewrite !lookup_alter_ne].
  - destruct (overwritten_same e v cbs) as (Hk5 & Hv5 & _).
    exists R4, G4, x2. split; [exact HC5|]. split; [done|]. split; [|split; [|done]].
    + unfold x2, counted_over. destruct (size_callback x) as [f|]; [|apply same_config_refl].
      exists (cache x), (extra_index x), (cached_cache_len x - f (value e) + f v). by destruct x.
    + unfold x2. rewrite <- Hv5. apply store_set; [done|done|]. by rewrite Hv5.
Qed.

Lemma put_ok k v cbs : legal s c x (Put k v cbs) -> op_ok s E c x es (Put k v cbs).
Proof.
  intros [Hk Hkeep]. destruct (lookup_node_spec _ _ _ _ _ _ _ Hc Hs Hk) as (r & E1 & Hl & Eg). exists AUnit.
  destruct Hl as [Hmiss|es1 n e es2 Hes Hke].
  - destruct (add_evict k v (set_iter (remove_dups cbs)) Hk Hmiss) as (s' & kept & gone & e & n & E2 & Hf & Hb & Hsh).
    exists s', kept, (callbacks_of (reverse gone)). split; [|split; [done|]].
    + cbn [run_op]. rewrite (st_bind_run _ _ _ tt s'); [done|]. unfold cache_set. by run E1.
    + apply step_set_miss with (set_iter (remove_dups cbs)); [by apply miss_keys|apply set_iter_perm|].
      apply (fits_evicts x es) in Hf. simpl in Hf. rewrite Hsh in Hf. rewrite add_new in Hf; [done|].
      simpl. rewrite set_iter_perm. apply NoDup_remove_dups.
  - destruct (overwrite _ _ _ _ v cbs Hes) as (s1 & E2 & Hb1).
    { intros f Hf [Hst|Hst]; [|by apply Hst]. rewrite Hke. apply (Hkeep Hst f (value e) Hf).
      exists n, e. split_and!; [done|by eapply node_of|done]. }
    destruct (then_evict _ _ _ _ E2 Hb1) as (s2 & kept & gone & E3 & Hf & Hb2).
    eexists s2, kept, _. split; [|split; [exact Hb2|]].
    + cbn [run_op]. rewrite (st_bind_run _ _ _ tt s2); [done|]. unfold cache_set. run E1. exact E3.
    + apply (fits_evicts x es) in Hf. simpl in Hf. destruct (overwritten_same e v cbs) as (Hk5 & Hv5 & Hcb5).
      assert (Hsh : shown (overwritten e v cbs) = {| item_key := k; item_value := v;
                 item_callbacks := more_callbacks cbs (if decide (v = value e) then kept_callbacks e else []) |}).
      { unfold shown. by rewrite Hk5, Hv5, Hcb5, Hke. }
      assert (Hsplit : lru_items (abs x es) = view es1 ++ shown e :: view es2) by (simpl; by rewrite Hes, view_split).
      change (view ((n, ?e') :: es1 ++ es2)) with (shown e' :: view (es1 ++ es2)) in Hf. rewrite Hsh, view_app in Hf.
      case_decide as Hv.
      * subst v. by eapply (step_set_same _ _ _ _ (view es1) (shown e) (view es2)).
      * by eapply (step_set_other _ _ _ _ _ (view es1) (shown e) (view es2)).
Qed.

Lemma default_ok k v : ct_full (arity c) k -> op_ok s E c x es (SetDefault k v).
Proof.
  intros Hk. destruct (lookup_node_spec _ _ _ _ _ _ _ Hc Hs Hk) as (r & E1 & Hl & _).
  destruct Hl as [Hmiss|es1 n e es2 Hes Hke].
  - destruct (add_evict k v [] Hk Hmiss) as (s' & kept & gone & e & n & E2 & Hf & Hb & Hsh).
    exists (AValue (Some v)), s', kept, (callbacks_of (reverse gone)). split; [|split; [done|]].
    + cbn [run_op]. rewrite (st_bind_run _ _ _ v s'); [done|]. unfold cache_set_default. run E1.
      unfold st_bind in E2 |- *. destruct (add_node c k v [] s) as [[[]|] s1]; [|done]. by rewrite E2.
    + apply step_default_miss; [by apply miss_keys|]. apply (fits_evicts x es) in Hf. simpl in Hf. by rewrite Hsh in Hf.
  - apply unchanged with (AValue (Some (value e))).
    + cbn [run_op]. rewrite (st_bind_run _ _ _ (value e) s); [done|]. unfold cache_set_default. run E1.
      by run (get_node_ok s n e (node_of _ _ _ _ Hes)).
    + apply (step_default_hit ct_covers (abs x es) k v (shown e)); [|done]. simpl. rewrite Hes, view_split. set_solver.
Qed.

Lemma pop_ok k : ct_full (arity c) k -> op_ok s E c x es (Pop k).
Proof.
  intros Hk. destruct (lookup_node_spec _ _ _ _ _ _ _ Hc Hs Hk) as (r & E1 & Hl & _).
  destruct Hl as [Hmiss|es1 n e es2 Hes Hke].
  - apply unchanged with (AValue None); [|by apply step_pop_miss, miss_keys].
    cbn [run_op]. rewrite (st_bind_run _ _ _ None s); [done|]. unfold cache_pop. by run E1.
  - pose proof He as He'. pose proof Hs as Hs'. rewrite Hes in He', Hs'.
    destruct (delete_pop_spec arity steady _ _ _ _ _ _ _ _ _ _ HC Hc He' Hs')
      as (d & s1 & p & s2 & R2 & x2 & E3 & E4 & E5 & HC2 & Hc2 & Hx2 & Hs2 & Hcall & Hg & _).
    destruct (cleared_same e) as (_ & Hv & _).
    exists (AValue (Some (value e))), s2, (es1 ++ es2), (kept_callbacks e). split; [|split].
    + cbn [run_op]. rewrite (st_bind_run _ _ _ (Some (value e)) s2); [done|]. unfold cache_pop. run E1. run E3. run E4. run E5.
      unfold st_ret. by rewrite Hv.
    + by exists R2, (filter (other_than n) G), x2.
    + rewrite view_app. apply (step_pop_hit ct_covers (abs x es) k (view es1) (shown e) (view es2)); [|done].
      simpl. by rewrite Hes, view_split.
Qed.

Lemma contains_ok k : ct_full (arity c) k -> op_ok s E c x es (Contains k).
Proof.
  intros Hk. destruct (lookup_node_spec _ _ _ _ _ _ _ Hc Hs Hk) as (r & _ & Hl & Eg).
  apply unchanged with (ABool (bool_decide (k ∈ item_key <$> lru_items (abs x es)))); [|apply step_contains].
  cbn [run_op]. rewrite (st_bind_run _ _ _ (bool_decide (k ∈ item_key <$> lru_items (abs x es))) s); [done|].
  unfold cache_contains. run (self_ok s c x Hc). unfold st_lift, st_bind at 1. rewrite Eg. unfold st_ret. do 2 f_equal.
  apply bool_decide_ext. simpl. rewrite view_keys. destruct Hl as [Hmiss|es1 n e es2 -> <-]; simpl.
  - split; [by intros [? ?]|done].
  - split; [|eauto]. intros _. apply in_keys. exists n, e. set_solver.
Qed.

Lemma len_ok : op_ok s E c x es Len.
Proof.
  apply unchanged with (AInt (lru_total (abs x es) (lru_items (abs x es)))); [|apply step_len].
  cbn [run_op]. rewrite (st_bind_run _ _ _ (cache_len x) s); [|unfold len; by run (self_ok s c x Hc)].
  unfold st_ret, lru_total. simpl. by rewrite view_values, (cache_len_spec arity steady _ _ _ Hs).
Qed.

Lemma del_multi_ok k : ct_partial (arity c) k -> op_ok s E c x es (DelMulti k).
Proof.
  intros Hk. pose proof Hs as (Hw & Hp & Hcount). pose proof (store_keys arity steady _ _ _ Hs) as [Hkeys _].
  pose proof (core_nodup _ _ _ _ _ _ HC He) as Hids.
  destruct (ct_pop_spec _ _ _ Hw Hk) as (gone_items & d & Hw' & Hsplit & Hcov & Hncov & Hres).
  assert (Hperm : gone_items ++ ct_items d ≡ₚ keyed es) by (by rewrite <- Hsplit, Hp).
  apply Permutation_map_inv in Hperm as (es' & Eq & Hes').
  symmetry in Eq. apply app_split in Eq as (gone & kept & -> & Hg & Hkept).
  assert (Hgids : NoDup gone.*1). { rewrite Hes', fmap_app in Hids. apply NoDup_app in Hids. tauto. }
  assert (Hgin : forall ne, ne ∈ gone -> ne ∈ es) by (intros ne Hne; rewrite Hes'; set_solver).
  assert (Hrest : rest gone es ≡ₚ kept).
  { apply (Permutation_app_inv_l gone). by rewrite <- Hes', <- rest_perm. }
  assert (Htaken : taken (fun i => ct_covers k (item_key i)) (view es) (view gone) (view (rest gone es))).
  { apply taken_rest; [done..| |].
    - intros ne Hne. apply (Hcov (key ne.2, ne.1)). rewrite Hg. apply list_elem_of_fmap. by exists ne.
    - intros ne Hne. apply (Hncov (key ne.2, ne.1)). rewrite Hkept, <- Hrest. apply list_elem_of_fmap. by exists ne. }
  destruct Hres as [(Hnil & Epop & ->)|(t & Epop & _ & Hleaves & _)].
  - rewrite Hnil in Hg. symmetry in Hg. apply fmap_nil_inv in Hg as ->. rewrite rest_nil in Htaken.
    apply unchanged with AUnit; [|exact (step_del ct_covers (abs x es) k (view []) (view es) [] Htaken eq_refl)].
    cbn [run_op]. rewrite (st_bind_run _ _ _ tt s); [done|]. unfold cache_del_multi.
    rewrite (st_bind_run _ _ _ None s); [done|]. rewrite (pop_raw_ok s c x k None (cache x) Hc Epop).
    replace (set_cache (cache x) x) with x by (by destruct x). by rewrite on_caches_same.
  - set (x1 := set_cache d x). set (s1 := on_caches (insert c x1) s).
    pose proof (core_set s _ _ _ c x x1 HC Hc eq_refl) as HC1.
    destruct (delete_all_spec (index_kept c) c gone s1 R E G x1 es HC1) as (s2 & R2 & G2 & x2 & E2 & HC2 & Hc2 & Hx2 & Hcount2 & Hcall & Hg2);
      [simpl; by rewrite lookup_insert_eq|done..|].
    exists AUnit, s2, (rest gone es), (callbacks_of gone). split; [|split].
    + cbn [run_op]. rewrite (st_bind_run _ _ _ tt s2); [done|]. unfold cache_del_multi.
      run (pop_raw_ok s c x k (Some t) d Hc Epop). rewrite Hleaves, Hg.
      replace ((keyed gone).*2) with gone.*1; [exact E2|]. unfold keyed. rewrite <- list_fmap_compose. by apply list_fmap_ext.
    + exists R2, G2, x2. destruct Hx2 as (i & m & ->). split; [done|]. split; [rewrite Hc2; simpl; by rewrite insert_insert_eq|].
      split; [by exists d, i, m|]. split; [|done]. split; [done|]. split; [|exact Hcount2].
      simpl. rewrite Hkept. unfold keyed. by rewrite Hrest.
    + eapply step_del; [exact Htaken|]. by rewrite view_calls.
Qed.

Lemma rest_all gone es' : (forall ne, ne ∈ es' -> ne ∈ gone) -> rest gone es' = [].
Proof.
  intros Hin. unfold rest. induction es' as [|ne es' IH]; [done|]. rewrite filter_cons, decide_False; [apply IH; set_solver|].
  intros Hn. apply Hn, list_elem_of_fmap. exists ne. split; [done|]. apply Hin. left.
Qed.

Lemma clear_ok : op_ok s E c x es Clear.
Proof.
  pose proof Hs as (Hw & Hp & _ & _). pose proof (core_nodup _ _ _ _ _ _ HC He) as Hids.
  pose proof Hp as Hp'. apply Permutation_map_inv in Hp' as (gone & Hitems & Hgone).
  assert (Hgids : NoDup gone.*1) by (by rewrite <- Hgone).
  assert (Hvals : ct_values (cache x) = gone.*1).
  { rewrite (ct_values_spec _ _ Hw). change (ct_items (cache x) = keyed gone) in Hitems. rewrite Hitems. unfold keyed.
    rewrite <- list_fmap_compose. by apply list_fmap_ext. }
  destruct (clear_all_spec c gone s R E G x es HC Hc He Hgids) as (s1 & R1 & G1 & E1 & HC1 & Hc1 & Hcall & Hg);
    [intros ne Hne; by rewrite Hgone|].
  rewrite rest_all in HC1 by (intros ne Hne; by rewrite <- Hgone).
  assert (Hc1' : caches s1 !! c = Some x) by (by rewrite Hc1).
  pose proof (c_ring _ _ _ _ HC1 c x [] Hc1' (lookup_insert_eq _ _ _)) as Hring. simpl in Hring.
  destruct (lists_seg _ _ (c_lists _ _ _ _ HC1) _ _ Hring) as [Hnx Hpv].
  destruct (node_fields (list_nodes s1) (list_root x) (nxt_alive _ _ _ Hnx)) as (root & Er & Hrp & Hrn).
  set (x2 := match size_callback x with Some _ => set_cached_len 0 (set_cache ct_new x) | None => set_cache ct_new x end).
  assert (Hx2 : list_root x2 = list_root x /\ cache x2 = ct_new /\ size_callback x2 = size_callback x /\ extra_index_cb x2 = extra_index_cb x).
  { unfold x2. destruct (size_callback x) eqn:Esc; simpl; by rewrite ?Esc. }
  destruct Hx2 as (Hroot & Hcache & Hsc & Hic).
  set (s2 := on_caches (insert c (set_index [] x2)) s1).
  exists AUnit, s2, [], (callbacks_of gone). split; [|split].
  - cbn [run_op]. rewrite (st_bind_run _ _ _ tt s2); [done|]. unfold cache_clear. run (self_ok s c x Hc). rewrite Hvals. run E1.
    assert (Hid : set_list_nodes (list_nodes s1) s1 = s1) by (by destruct s1).
    rewrite (st_bind_run _ _ _ root s1); [|rewrite (in_lists_ok _ s1 _ _ (deref_alive _ _ _ Er)); by rewrite Hid].
    rewrite decide_True by (rewrite Hrn, Hrp; done).
    run (set_self_ok s1 c x (set_cache ct_new) Hc1'). set (sa := on_caches _ s1).
    assert (Hca : caches sa !! c = Some (set_cache ct_new x)) by (simpl; by rewrite lookup_insert_eq).
    rewrite (st_bind_run _ _ _ tt (on_caches (insert c x2) s1)).
    2: { unfold x2. destruct (size_callback x); [|done]. rewrite (set_self_ok sa c _ (set_cached_len 0) Hca). unfold sa. by rewrite on_caches_twice. }
    rewrite (set_self_ok _ c x2) by (simpl; by rewrite lookup_insert_eq). by rewrite on_caches_twice.
  - exists R1, G1, (set_index [] x2). split; [by eapply core_set|]. split; [simpl; by rewrite Hc1|].
    split; [|split; [|split; [done|exact Hg]]].
    + exists ct_new, [], (cached_cache_len x2). unfold x2. by destruct (size_callback x), x.
    + destruct (ct_new_spec (arity c)) as [Hnw Hni]. split; [simpl; by rewrite Hcache|]. split; [simpl; by rewrite Hcache, Hni|].
      split.
      * simpl. rewrite Hsc. intros f Hf. unfold x2. by rewrite Hf.
      * intros f _ _. simpl. split; [apply NoDup_nil_2|]. split; [done|]. intros ik k. split; [by intros (ks & [=] & _)|].
        by intros (n & e & ?%elem_of_nil & _).
  - apply step_clear with (view gone); [simpl; by apply view_perm; symmetry|by rewrite view_calls].
Qed.

Lemma NoDup_fmap_filter {T U} (g : T -> U) (Q : T -> Prop) `{forall y, Decision (Q y)} l :
  NoDup (g <$> l) -> NoDup (g <$> filter Q l).
Proof.
  induction l as [|y l IH]; [done|]. rewrite fmap_cons. intros [Hn Hl]%NoDup_cons. rewrite filter_cons.
  case_decide; [|by apply IH]. rewrite fmap_cons. apply NoDup_cons. split; [|by apply IH].
  intros (z & Hz & [_ Hin]%list_elem_of_filter)%list_elem_of_fmap. apply Hn, list_elem_of_fmap. eauto.
Qed.

(** The index names the entries that are to go. *)
Lemma index_names f ik : extra_index_cb x = Some f -> index_kept c f -> exists gone,
  set_iter (default [] (dget ik (extra_index x))) = keys gone /\ NoDup gone.*1 /\
  forall ne, ne ∈ gone <-> ne ∈ es /\ f (key ne.2) (value ne.2) = ik.
Proof.
  intros Hf Hst. pose proof Hs as (Hw & Hp & Hsz & Hix). pose proof (core_nodup _ _ _ _ _ _ HC He) as Hids.
  pose proof (store_keys arity steady _ _ _ Hs) as [Hkeys _]. destruct (Hix f Hf Hst) as (Hwf & Hks & Hiff).
  set (mine := fun ne : loc * Node => f (key ne.2) (value ne.2) = ik).
  set (ks := default [] (dget ik (extra_index x))).
  assert (Hksnd : NoDup ks). { unfold ks. destruct (dget ik _) eqn:Eg; [by eapply Hks|apply NoDup_nil_2]. }
  assert (Hkin : forall k, k ∈ ks <-> exists n e, (n, e) ∈ es /\ key e = k /\ f k (value e) = ik).
  { intros k. rewrite <- Hiff. unfold ks. destruct (dget ik (extra_index x)) as [l|]; simpl.
    - split; [eauto|]. by intros (? & [= <-] & ?).
    - split; [by intros ?%elem_of_nil|by intros (? & [=] & _)]. }
  assert (Hperm : set_iter ks ≡ₚ keys (filter mine es)).
  { rewrite set_iter_perm. apply NoDup_Permutation; [done|by apply NoDup_fmap_filter|].
    intros k. rewrite Hkin, in_keys. setoid_rewrite list_elem_of_filter. unfold mine. simpl. naive_solver. }
  apply Permutation_map_inv in Hperm as (gone & Hsi & Hgone). exists gone. split; [exact Hsi|].
  split; [rewrite <- Hgone; by apply NoDup_fmap_filter|].
  intros ne. rewrite <- Hgone, list_elem_of_filter. unfold mine. tauto.
Qed.

Lemma index_forgets f ik gone : extra_index_cb x = Some f -> index_kept c f ->
  (forall ne, ne ∈ gone <-> ne ∈ es /\ f (key ne.2) (value ne.2) = ik) ->
  index_ok f (ddel ik (extra_index x)) (rest gone es) /\ forall n e, (n, e) ∈ rest gone es <-> (n, e) ∈ es /\ f (key e) (value e) <> ik.
Proof.
  intros Hf Hst Hgin. pose proof Hs as (_ & _ & _ & Hix). pose proof (core_nodup _ _ _ _ _ _ HC He) as Hids.
  destruct (Hix f Hf Hst) as (Hwf & Hks & Hiff).
  assert (Hrest : forall n e, (n, e) ∈ rest gone es <-> (n, e) ∈ es /\ f (key e) (value e) <> ik).
  { intros n e. rewrite in_rest. split.
    - intros [Hn Hin]. split; [done|]. intros Hk. apply Hn, list_elem_of_fmap. exists (n, e). split; [done|]. by apply Hgin.
    - intros [Hin Hk]. split; [|done]. intros ([n' e'] & -> & [Hin' Hk']%Hgin)%list_elem_of_fmap.
      destruct (core_unique _ _ _ _ _ _ _ _ _ _ _ HC He Hin He Hin') as [_ ->]. by apply Hk. }
  split; [|done]. split; [by apply ddel_wf|]. split.
  - intros ik' l. rewrite dget_ddel. case_decide; [done|]. by apply Hks.
  - intros ik' k. setoid_rewrite Hrest. setoid_rewrite dget_ddel. split.
    + intros (l & Hl & Hin). case_decide as Hne; [done|]. destruct (proj1 (Hiff ik' k)) as (n & e & ? & <- & <-); [eauto|]. eauto 8.
    + intros (n & e & [Hin Hne] & <- & <-). destruct (proj2 (Hiff (f (key e) (value e)) (key e))) as (l & Hl & Hk); [eauto|].
      exists l. by rewrite decide_False.
Qed.

Lemma invalidate_ok ik : (exists f, extra_index_cb x = Some f /\ index_kept c f) -> op_ok s E c x es (InvalidateIndex ik).
Proof.
  intros (f & Hf & Hst). pose proof Hs as (Hw & Hp & Hsz & _). pose proof (core_nodup _ _ _ _ _ _ HC He) as Hids.
  destruct (index_names f ik Hf Hst) as (gone & Hsi & Hgids & Hgin).
  destruct (index_forgets f ik gone Hf Hst Hgin) as [Hix Hrest].
  set (x1 := set_index (ddel ik (extra_index x)) x). set (s1 := on_caches (insert c x1) s).
  pose proof (core_set s _ _ _ c x x1 HC Hc eq_refl) as HC1.
  destruct (invalidate_all_spec c f ik gone s1 R E G x1 es HC1) as (s2 & R2 & G2 & x2 & E2 & HC2 & Hc2 & Hx2 & Hw2 & Hp2 & Hsz2 & Hcall & Hg);
    [simpl; by rewrite lookup_insert_eq|done..|simpl; rewrite dget_ddel; by rewrite decide_True|done|intros ne; by rewrite Hgin|].
  exists AUnit, s2, (rest gone es), (callbacks_of gone). split; [|split].
  - cbn [run_op]. rewrite (st_bind_run _ _ _ tt s2); [done|]. unfold cache_invalidate_on_extra_index. run (self_ok s c x Hc).
    rewrite Hf. run (set_self_ok s c x (fun x => set_index (ddel ik (extra_index x)) x) Hc). fold x1 s1.
    assert (Hnil : default [] (dget ik (extra_index x)) = [] -> gone = []).
    { intros E0. rewrite E0 in Hsi. assert (Hk : keys gone ≡ₚ []) by (rewrite <- Hsi; apply set_iter_perm).
      apply Permutation_nil_r, fmap_nil_inv in Hk. done. }
    destruct (dget ik (extra_index x)) as [[|k ks]|]; simpl in Hnil, Hsi; [rewrite (Hnil eq_refl) in E2; exact E2| |rewrite (Hnil eq_refl) in E2; exact E2].
    rewrite Hsi. exact E2.
  - exists R2, G2, x2. split; [done|]. split; [rewrite Hc2; simpl; by rewrite insert_insert_eq|].
    destruct Hx2 as (d & m & ->). split; [by exists d, (ddel ik (extra_index x)), m|]. split; [|done].
    split; [done|]. split; [done|]. split; [exact Hsz2|]. intros g Hg' _. simpl in Hg' |- *. rewrite Hf in Hg'. by injection Hg' as <-.
  - eapply step_invalidate; [exact Hf| |by rewrite view_calls]. apply taken_rest; [done|done|intros ne Hne; by apply Hgin in Hne as [? _]|..].
    + intros ne Hne. apply Hgin in Hne. tauto.
    + intros [n e] Hne. apply Hrest in Hne. tauto.
Qed.

Lemma op_refines o : legal s c x o -> op_ok s E c x es o.
Proof.
  destruct o; simpl; intros Hl;
    [by apply get_ok|by apply put_ok|by apply default_ok|by apply pop_ok|by apply del_multi_ok|by apply clear_ok
    |by apply contains_ok|by apply invalidate_ok|by apply len_ok].
Qed.
End op.

(** ** A process with many caches *)

Definition shows s (E : gmap loc entries) (sys : gmap loc Lru) : Prop :=
  forall c, sys !! c = (caches s !! c ≫= fun x => E !! c ≫= fun es => Some (abs x es)).

Definition stores_ok s (E : gmap loc entries) : Prop :=
  forall c x es, caches s !! c = Some x -> E !! c = Some es -> store_ok c x es /\ 0 <= max_size x.

(** What the stores hold is what the caches of [sys] hold. *)
Definition valid s (sys : gmap loc Lru) : Prop := exists R E G, core s R E G /\ stores_ok s E /\ shows s E sys.

Lemma stores_after s (E : gmap loc entries) c x es es' s' x' : stores_ok s E -> caches s !! c = Some x -> E !! c = Some es ->
  caches s' = <[c := x']> (caches s) -> same_config x x' -> store_ok c x' es' -> stores_ok s' (<[c := es']> E).
Proof.
  intros Hok Hc He Hc' (d & i & m & ->) Hs' c2 x2 es2. rewrite Hc'.
  intros [[<- <-]|[Hne Hx2]]%lookup_insert_Some [[? <-]|[? He2]]%lookup_insert_Some; try done; [|by eapply Hok].
  split; [done|]. exact (proj2 (Hok c x es Hc He)).
Qed.

Lemma becomes_valid s R E G c x es es' calls s' sys : core s R E G -> stores_ok s E -> shows s E sys ->
  caches s !! c = Some x -> E !! c = Some es -> becomes s E c x es' calls s' ->
  valid s' (<[c := with_items (view es') (abs x es)]> sys) /\ called s' = called s ++ calls.
Proof.
  intros HC Hok Hsys Hc He (R' & G' & x' & HC' & Hc' & Hx' & Hs' & Hcall & _). split; [|done].
  exists R', (<[c := es']> E), G'. split; [done|]. split; [by eapply stores_after|].
  intros c2. rewrite Hc'. destruct (decide (c = c2)) as [<-|Hne].
  - rewrite !lookup_insert_eq. simpl. f_equal. symmetry. exact (abs_config x x' es' Hx').
  - rewrite !lookup_insert_ne by done. apply Hsys.
Qed.

(** What can be asked of the process. *)
Inductive request :=
  | On (c : loc) (o : op A V CB)
  | New (original max : Z) (apply : bool) (size_cb : option (V -> Z)) (index_cb : option (list A -> V -> list A)) (prune : bool)
  | SetFactor (c : loc) (new_size : Z)
  | Del (c : loc)
  | Setup (expiry_time_msec : Z) (autotune : option autotuning)
  | Expire (expiry : option Z).

(** No request comes while the job sleeps, and memory is not looked at. *)
Definition run_expiry (expiry : option Z) : LruM Z := fun s =>
  _expire_old_entries (Datatypes.S (size (list_nodes s))) (fun _ => st_ret tt) expiry None s.

Definition run_request (r : request) : LruM (answer V) :=
  match r with
  | On c o => run_op c o
  | New original max apply size_cb index_cb prune =>
      let! c := new_lru_cache original max apply size_cb index_cb prune in st_ret (ACache c)
  | SetFactor c new_size => set_cache_factor c new_size ;;! st_ret AUnit
  | Del c => __del__ c ;;! st_ret AUnit
  | Setup ms t => setup_expire_lru_cache_entries ms t ;;! st_ret AUnit
  | Expire expiry => let! n := run_expiry expiry in st_ret (AInt n)
  end.

Definition legal_request s (r : request) : Prop :=
  match r with
  | On c o => exists x, caches s !! c = Some x /\ legal s c x o
  | New _ max _ _ _ _ => 0 <= max
  | SetFactor c new_size => is_Some (caches s !! c) /\ 0 <= new_size
  | Del c => is_Some (caches s !! c)
  | Setup _ _ | Expire _ => True
  end.

(** Some of the items, which are to expire, go. *)
Definition shrinks (a a' : Lru) : Prop := exists l, l `sublist_of` lru_items a /\ a' = with_items l a.

(** What a request does to the caches: only one changes, comes or goes, but for expiry. *)
Inductive sys_step (sys : gmap loc Lru) : request -> answer V -> list CB -> gmap loc Lru -> Prop :=
  | sys_on c a o ans calls a' : sys !! c = Some a -> lru_step ct_covers a o ans calls a' ->
      sys_step sys (On c o) ans calls (<[c := a']> sys)
  | sys_new original max apply size_cb index_cb prune c : sys !! c = None ->
      sys_step sys (New original max apply size_cb index_cb prune) (ACache c) []
        (<[c := {| lru_items := []; lru_max := max; lru_size := size_cb; lru_index := index_cb; lru_resizable := apply |}]> sys)
  | sys_factor_same c a m : sys !! c = Some a -> lru_resizable a = false \/ m = lru_max a ->
      sys_step sys (SetFactor c m) AUnit [] sys
  | sys_factor c a m calls l : sys !! c = Some a -> lru_resizable a = true -> m <> lru_max a ->
      lru_evicts (with_max m a) (lru_items a) calls l ->
      sys_step sys (SetFactor c m) AUnit calls (<[c := with_items l (with_max m a)]> sys)
  | sys_del c a gone calls : sys !! c = Some a -> gone ≡ₚ lru_items a -> calls = calls_of gone ->
      sys_step sys (Del c) AUnit calls (delete c sys)
  | sys_setup ms t : sys_step sys (Setup ms t) AUnit [] sys
  | sys_expire expiry n calls sys' : (forall c, option_relation shrinks (fun _ => False) (fun _ => False) (sys !! c) (sys' !! c)) ->
      (forall cb, cb ∈ calls -> exists c a i, sys !! c = Some a /\ i ∈ lru_items a /\ cb ∈ item_callbacks i) ->
      sys_step sys (Expire expiry) (AInt n) calls sys'.

Definition request_ok s sys (r : request) : Prop := exists ans s' calls sys',
  run_request r s = (Ok ans, s') /\ valid s' sys' /\ sys_step sys r ans calls sys' /\ called s' = called s ++ calls.

Lemma core_entries s R E G c x : core s R E G -> caches s !! c = Some x -> exists es, E !! c = Some es.
Proof. intros HC Hc. apply (proj1 (c_dom _ _ _ _ HC c)). eauto. Qed.

Lemma shows_at s (E : gmap loc entries) sys c x es : shows s E sys -> caches s !! c = Some x -> E !! c = Some es ->
  sys !! c = Some (abs x es).
Proof. intros Hsys Hc He. rewrite Hsys, Hc. simpl. by rewrite He. Qed.

Lemma on_request_ok s sys c o x : valid s sys -> caches s !! c = Some x -> legal s c x o -> request_ok s sys (On c o).
Proof.
  intros (R & E & G & HC & Hok & Hsys) Hc Hl. destruct (core_entries _ _ _ _ _ _ HC Hc) as [es He].
  pose proof (shows_at _ _ _ _ _ _ Hsys Hc He) as Ha.
  destruct (Hok _ _ _ Hc He) as [Hs Hm].
  destruct (op_refines s R E G c x es HC Hc He Hs Hm o Hl) as (ans & s' & es' & calls & Er & Hb & Hstep).
  destruct (becomes_valid _ _ _ _ _ _ _ _ _ _ _ HC Hok Hsys Hc He Hb) as [Hv Hcall].
  exists ans, s', calls, (<[c := with_items (view es') (abs x es)]> sys). split_and!; [done|done| |done].
  by eapply sys_on.
Qed.

Lemma factor_request_ok s sys c m : valid s sys -> is_Some (caches s !! c) -> 0 <= m -> request_ok s sys (SetFactor c m).
Proof.
  intros Hv [x Hc] Hm. pose proof Hv as (R & E & G & HC & Hok & Hsys). destruct (core_entries _ _ _ _ _ _ HC Hc) as [es He].
  pose proof (shows_at _ _ _ _ _ _ Hsys Hc He) as Ha. destruct (Hok _ _ _ Hc He) as [Hs Hmax].
  assert (Hrun : run_request (SetFactor c m) s = (set_cache_factor c m ;;! st_ret AUnit) s) by done.
  unfold set_cache_factor in Hrun. unfold request_ok.
  destruct (apply_cache_factor_from_config x && negb (m =? max_size x)) eqn:Eb.
  - apply andb_true_iff in Eb as [Hap Hne]. apply negb_true_iff in Hne.
    set (x1 := set_max_size m x). set (s1 := on_caches (insert c x1) s).
    pose proof (core_set s _ _ _ c x x1 HC Hc eq_refl) as HC1. fold s1 in HC1.
    assert (Hc1 : caches s1 !! c = Some x1) by (simpl; by rewrite lookup_insert_eq).
    assert (Hs1 : store_ok c x1 es) by exact Hs.
    destruct (lru_evict_spec arity steady s1 R E G c x1 es HC1 Hc1 He Hs1 Hm) as (s2 & kept & gone & E2 & Hf & Hb).
    assert (Hok1 : stores_ok s1 E).
    { intros c2 x2 es2. simpl. intros [[<- <-]|[? ?]]%lookup_insert_Some He2; [|by apply Hok].
      split; [|done]. by rewrite He in He2; injection He2 as <-. }
    assert (Hsys1 : shows s1 E (<[c := abs x1 es]> sys)).
    { intros c2. simpl. destruct (decide (c = c2)) as [<-|]; [by rewrite !lookup_insert_eq, He|by rewrite !lookup_insert_ne]. }
    destruct (becomes_valid _ _ _ _ _ _ _ _ _ _ _ HC1 Hok1 Hsys1 Hc1 He Hb) as [Hv2 Hcall]. rewrite insert_insert_eq in Hv2.
    exists AUnit, s2, (callbacks_of (reverse gone)), (<[c := with_items (view kept) (abs x1 es)]> sys). split; [|split_and!; [done| |done]].
    + rewrite Hrun. rewrite (st_bind_run _ _ _ tt s2); [done|]. run (self_ok s c x Hc). rewrite Hap, Hne. simpl.
      by run (set_self_ok s c x (set_max_size m) Hc).
    + eapply (sys_factor _ _ (abs x es)); [done|done|simpl; lia|]. exact (fits_evicts x1 es es kept gone Hf).
  - exists AUnit, s, [], sys. split; [|split_and!; [done| |by rewrite app_nil_r]].
    + rewrite Hrun. rewrite (st_bind_run _ _ _ tt s); [done|]. run (self_ok s c x Hc).
      apply andb_false_iff in Eb as [->|Hne%negb_false_iff]; [done|]. rewrite Hne. by destruct (negb _).
    + eapply sys_factor_same; [done|]. simpl. apply andb_false_iff in Eb as [->|Hne%negb_false_iff]; [by left|right; lia].
Qed.

Lemma core_flags s R E G use mem : core s R E G -> core (set_globals use (called s) (readings s) mem s) R E G.
Proof. by intros []. Qed.

Lemma setup_request_ok s sys ms t : valid s sys -> request_ok s sys (Setup ms t).
Proof.
  intros Hv. pose proof Hv as (R & E & G & HC & Hok & Hsys). unfold request_ok. cbn [run_request].
  unfold setup_expire_lru_cache_entries. destruct (_ && _).
  - exists AUnit, s, [], sys. split; [done|]. split_and!; [done|constructor|by rewrite app_nil_r].
  - exists AUnit. eexists _, [], sys. split; [reflexivity|]. split_and!; [|constructor|simpl; by rewrite app_nil_r].
    exists R, E, G. split; [by apply core_flags|]. split; [exact Hok|exact Hsys].
Qed.

Lemma core_delete s R E G c : core s R E G -> E !! c = Some [] -> core (on_caches (delete c) s) R (delete c E) G.
Proof.
  intros HC He. split; simpl; try by apply HC.
  - intros c'. destruct (decide (c = c')) as [<-|]; [rewrite !lookup_delete_eq; split; by intros []|].
    rewrite !lookup_delete_ne by done. apply HC.
  - intros c' x es [_ Hc]%lookup_delete_Some [_ Hes]%lookup_delete_Some. by eapply c_ring.
  - intros c' x [_ Hc]%lookup_delete_Some. by eapply c_root.
  - intros c1 c2 x1 x2 [_ Hc1]%lookup_delete_Some [_ Hc2]%lookup_delete_Some. by eapply c_roots.
  - intros c' es n e [_ Hes]%lookup_delete_Some. by eapply c_node.
  - intros n g. rewrite (c_timed _ _ _ _ HC). split; intros (c' & es & e & Hes & Hin & Hg).
    + exists c', es, e. rewrite lookup_delete_ne; [done|]. intros <-. rewrite He in Hes. injection Hes as <-. by apply elem_of_nil in Hin.
    + apply lookup_delete_Some in Hes as [_ Hes]. eauto 6.
Qed.

Lemma clear_step (a a' : Lru) ans calls : lru_step ct_covers a Clear ans calls a' ->
  exists gone, gone ≡ₚ lru_items a /\ calls = calls_of gone /\ ans = AUnit /\ a' = with_items [] a.
Proof. inversion 1; subst; eauto 6. Qed.

Lemma del_request_ok s sys c : valid s sys -> is_Some (caches s !! c) -> request_ok s sys (Del c).
Proof.
  intros (R & E & G & HC & Hok & Hsys) [x Hc]. destruct (core_entries _ _ _ _ _ _ HC Hc) as [es He].
  pose proof (shows_at _ _ _ _ _ _ Hsys Hc He) as Ha. destruct (Hok _ _ _ Hc He) as [Hs Hmax].
  destruct (clear_ok s R E G c x es HC Hc He Hs Hmax) as (ans & s1 & es1 & calls & Er & Hb & Hstep).
  apply clear_step in Hstep as (gone & Hgone & -> & -> & Hitems). apply (f_equal lru_items), fmap_nil_inv in Hitems as ->.
  destruct Hb as (R1 & G1 & x1 & HC1 & Hc1 & Hx1 & Hs1 & Hcall & Hg).
  exists AUnit, (on_caches (delete c) s1), (calls_of gone), (delete c sys). split; [|split_and!; [|by eapply sys_del|exact Hcall]].
  - cbn [run_request run_op] in *. unfold __del__. unfold st_bind in *. destruct (cache_clear c s) as [[[]|ex] s2]; [|done].
    by injection Er as ->.
  - pose proof (core_delete _ _ _ _ c HC1 (lookup_insert_eq _ _ _)) as HC2. rewrite delete_insert_eq in HC2.
    exists R1, (delete c E), G1. split; [done|]. split.
    + intros c2 x2 es2. simpl. rewrite Hc1, delete_insert_eq. intros [_ Hx2]%lookup_delete_Some [_ He2]%lookup_delete_Some. by apply Hok.
    + intros c2. simpl. rewrite Hc1, delete_insert_eq. destruct (decide (c = c2)) as [<-|]; [by rewrite !lookup_delete_eq|].
      rewrite !lookup_delete_ne by done. apply Hsys.
Qed.

Lemma core_new s R E G h' c r x : core s R E G -> caches s !! c = None -> list_nodes s !! r = None ->
  lists h' (<[r := []]> R) -> (forall m, m <> r -> held h' m = held (list_nodes s) m /\ accessed h' m = accessed (list_nodes s) m) ->
  list_root x = r -> core (on_caches (insert c x) (set_list_nodes h' s)) (<[r := []]> R) (<[c := []]> E) G.
Proof.
  intros HC Hc Hr HR' Hsame Hx. pose proof (c_lists _ _ _ _ HC) as HR.
  assert (Hne : forall r', is_Some (R !! r') -> r' <> r).
  { intros r' [l Hl] ->. destruct (ring_alive (list_nodes s) R r r HR) as [y Hy]; [|congruence].
    apply elem_of_ring. exists l. split; [done|left]. }
  assert (HEc : E !! c = None). { apply eq_None_not_Some. rewrite <- (c_dom _ _ _ _ HC), Hc. by intros []. }
  assert (Hheld : forall m p, held (list_nodes s) m = Some p -> m <> r).
  { intros m p Hm ->. unfold held in Hm. by rewrite Hr in Hm. }
  assert (HrG : GLOBAL_ROOT s <> r) by (apply Hne; rewrite (c_global _ _ _ _ HC); eauto).
  assert (Hroots : forall c' x', caches s !! c' = Some x' -> list_root x' <> r).
  { intros c' x' Hc'. apply Hne. destruct (proj1 (c_dom _ _ _ _ HC c')) as [es Hes]; [eauto|]. rewrite (c_ring _ _ _ _ HC _ _ _ Hc' Hes). eauto. }
  assert (Hold : forall c' es n e, <[c := []]> E !! c' = Some es -> (n, e) ∈ es -> E !! c' = Some es).
  { intros c' es n e [[<- <-]|[_ Hes]]%lookup_insert_Some Hin; [by apply elem_of_nil in Hin|done]. }
  split; simpl; [done|..].
  - rewrite lookup_insert_ne by done. by apply HC.
  - intros c'. destruct (decide (c = c')) as [<-|]; [rewrite !lookup_insert_eq; split; eauto|].
    rewrite !lookup_insert_ne by done. apply HC.
  - intros c' x' es [[<- <-]|[Hn Hx']]%lookup_insert_Some [[Hq <-]|[Hq Hes]]%lookup_insert_Some; try done.
    + by rewrite Hx, lookup_insert_eq.
    + rewrite lookup_insert_ne by (symmetry; by eapply Hroots). by eapply c_ring.
  - intros c' x' [[<- <-]|[Hn Hx']]%lookup_insert_Some; [congruence|by eapply c_root].
  - intros c1 c2 x1 x2 [[<- <-]|[Hn1 Hx1]]%lookup_insert_Some [[<- <-]|[Hn2 Hx2]]%lookup_insert_Some; [done|..].
    + intros E1. rewrite Hx in E1. by destruct (Hroots _ _ Hx2).
    + intros E1. rewrite Hx in E1. by destruct (Hroots _ _ Hx1).
    + by eapply c_roots.
  - intros c' es n e Hes Hin. destruct (c_node _ _ _ _ HC _ _ _ _ (Hold _ _ _ _ Hes Hin) Hin) as (Hn & Hcc & Hh).
    split_and!; [done|done|]. by rewrite (proj1 (Hsame _ (Hheld _ _ Hh))).
  - intros n g. rewrite (c_timed _ _ _ _ HC). split; intros (c' & es & e & Hes & Hin & Hg).
    + exists c', es, e. rewrite lookup_insert_ne; [done|]. intros <-. congruence.
    + apply (Hold _ _ _ _ Hes) in Hin as Hes'. eauto 6.
  - intros n g Hin. pose proof (c_held _ _ _ _ HC _ _ Hin) as Hh. by rewrite (proj1 (Hsame _ (Hheld _ _ Hh))).
  - destruct (c_times _ _ _ _ HC) as [Ht Hs].
    assert (Ha : forall n g, (n, g) ∈ G -> accessed h' g = accessed (list_nodes s) g).
    { intros n g Hin. apply Hsame. eapply Hheld, c_held, Hin. exact HC. }
    split.
    + intros n g Hin. simpl. rewrite (Ha _ _ Hin). by eapply Ht.
    + eapply StronglySorted_weaken, Hs. intros [n1 g1] [n2 g2] Hi1 Hi2 (t & t' & Ha1 & Ha2 & Hle). exists t, t'. simpl in *.
      by rewrite (Ha _ _ Hi1), (Ha _ _ Hi2).
Qed.

Lemma new_request_ok s sys original max apply size_cb index_cb prune : valid s sys -> 0 <= max ->
  request_ok s sys (New original max apply size_cb index_cb prune).
Proof.
  intros (R & E & G & HC & Hok & Hsys) Hm.
  destruct (create_root_spec _ _ (c_lists _ _ _ _ HC)) as (r & h1 & E1 & Hr & HR1 & _ & Hsame).
  set (c := fresh (dom (caches s))). assert (Hc : caches s !! c = None) by apply not_elem_of_dom, is_fresh.
  set (x := {| cache := ct_new; apply_cache_factor_from_config := apply; _original_max_size := original; max_size := max;
               list_root := r; cached_cache_len := 0; extra_index := []; size_callback := size_cb;
               extra_index_cb := index_cb; prune_unread_entries := prune |}).
  pose proof (core_new s R E G h1 c r x HC Hc Hr HR1 Hsame eq_refl) as HC2.
  assert (HEc : E !! c = None). { apply eq_None_not_Some. rewrite <- (c_dom _ _ _ _ HC), Hc. by intros []. }
  exists (ACache c), (on_caches (insert c x) (set_list_nodes h1 s)), [].
  exists (<[c := {| lru_items := []; lru_max := max; lru_size := size_cb; lru_index := index_cb; lru_resizable := apply |}]> sys).
  split; [|split_and!; [|apply sys_new; by rewrite Hsys, Hc|simpl; by rewrite app_nil_r]].
  - cbn [run_request]. unfold new_lru_cache. rewrite (st_bind_run _ _ _ c (on_caches (insert c x) (set_list_nodes h1 s))); [done|].
    run (in_lists_ok _ s _ _ E1). done.
  - exists (<[r := []]> R), (<[c := []]> E), G. split; [done|]. split.
    + intros c2 x2 es2. simpl. intros [[<- <-]|[Hn Hx2]]%lookup_insert_Some [[Hq <-]|[Hq He2]]%lookup_insert_Some; try done; [|by apply Hok].
      split; [|done]. destruct (ct_new_spec (arity c)) as [Hw Hi]. split; [done|]. split; [simpl; by rewrite Hi|]. split.
      * by intros f Hf.
      * intros f _ _. split; [apply NoDup_nil_2|]. split; [done|]. intros ik k. split; [by intros (ks & [=] & _)|].
        by intros (n & e & ?%elem_of_nil & _).
    + intros c2. simpl. destruct (decide (c = c2)) as [<-|]; [by rewrite !lookup_insert_eq|]. rewrite !lookup_insert_ne by done. apply Hsys.
Qed.

(** ** Expiry *)

(** Less than [expiry] milliseconds ago. *)
Definition used_since (expiry : option Z) (now t : Z) : Prop :=
  match expiry with None => True | Some ms => (now - t) * 1000 < ms end.
#[export] Instance used_since_dec expiry now t : Decision (used_since expiry now t).
Proof. destruct expiry; simpl; apply _. Defined.

Lemma still_fresh_spec expiry now t : still_fresh expiry now t = true <-> used_since expiry now t.
Proof. unfold still_fresh, used_since. destruct expiry as [ms|]; [|done]. rewrite Z.ltb_lt. lia. Qed.

(** The entry is on no list of all entries, or was used lately enough. *)
Definition lately s (expiry : option Z) (now : Z) (ne : loc * Node) : Prop :=
  match _global_list_node ne.2 with
  | None => True
  | Some g => match accessed (list_nodes s) g with Some t => used_since expiry now t | None => True end
  end.
#[export] Instance lately_dec s expiry now ne : Decision (lately s expiry now ne).
Proof. unfold lately. destruct (_global_list_node _); [|apply _]. destruct (accessed _ _); apply _. Defined.

Lemma used_mono expiry now t t' : t <= t' -> used_since expiry now t -> used_since expiry now t'.
Proof. unfold used_since. destruct expiry as [ms|]; [lia|done]. Qed.

(** [cache_pop], for the entry that holds the key. *)
Lemma drop_from_cache_spec s R E G c x es1 n e es2 :
  core s R E G -> caches s !! c = Some x -> E !! c = Some (es1 ++ (n, e) :: es2) -> store_ok c x (es1 ++ (n, e) :: es2) ->
  exists s' R' x', drop_from_cache n s = (Ok tt, s') /\
  core s' R' (<[c := es1 ++ es2]> E) (filter (other_than n) G) /\ caches s' = <[c := x']> (caches s) /\ same_config x x' /\
  store_ok c x' (es1 ++ es2) /\ called s' = called s ++ kept_callbacks e /\ same_globals s s' /\
  (forall m, held (list_nodes s) m <> Some n -> accessed (list_nodes s') m = accessed (list_nodes s) m).
Proof.
  intros HC Hc He Hs. assert (Hin : (n, e) ∈ es1 ++ (n, e) :: es2) by set_solver.
  destruct (c_node _ _ _ _ HC _ _ _ _ He Hin) as (Hn & Hec & _).
  destruct (store_keys arity steady _ _ _ Hs) as [Hnd Hfull].
  assert (Hk : key e ∈ keys (es1 ++ (n, e) :: es2)) by (apply in_keys; eauto).
  destruct (lookup_node_spec arity steady _ _ _ _ _ Hc Hs (Hfull _ Hk)) as (r & E1 & Hl & _).
  destruct (delete_pop_spec arity steady _ _ _ _ _ _ _ _ _ _ HC Hc He Hs)
    as (d & s1 & p & s2 & R2 & x2 & E3 & E4 & E5 & HC2 & Hc2 & Hx2 & Hs2 & Hcall & Hg & _ & Ha).
  exists s2, R2, x2. split_and!; try done. unfold drop_from_cache. run (get_node_ok s n e Hn). rewrite st_read_run, Hec, Hc.
  rewrite (st_bind_run _ _ _ (Some (value e)) s2); [done|]. unfold cache_pop. run E1.
  destruct Hl as [Hmiss|es3 n' e' es4 Heq Hke]; [done|].
  assert (Hnn : n' = n).
  { assert (Hin' : (n', e') ∈ es1 ++ (n, e) :: es2) by (rewrite Heq; set_solver).
    apply list_elem_of_lookup in Hin as (i & Hi), Hin' as (j & Hj).
    assert (i = j) as ->; [|congruence]. eapply (NoDup_lookup (keys (es1 ++ (n, e) :: es2))); [done| |];
      unfold keys; rewrite list_lookup_fmap; [by rewrite Hi|rewrite Hj; simpl; by rewrite Hke]. }
  subst n'. run E3. run E4. run E5. unfold st_ret. destruct (cleared_same e) as (_ & Hv & _). by rewrite Hv.
Qed.

(** The stores hold the entries [E], whatever the lists are. *)
Definition holds s (E : gmap loc entries) : Prop := exists R G, core s R E G /\ stores_ok s E.

(** What has happened to [s] and its entries [E] when those not used lately are gone. *)
Record dropped s (E : gmap loc entries) s' (E' : gmap loc entries) (expiry : option Z) (now : Z) : Prop := {
  d_entries c : E' !! c = filter (lately s expiry now) <$> E !! c;
  d_config c : option_relation same_config (fun _ => False) (fun _ => False) (caches s !! c) (caches s' !! c);
  d_globals : same_globals s s';
  d_calls : exists calls, called s' = called s ++ calls /\ forall cb, cb ∈ calls <-> exists c es n e,
    E !! c = Some es /\ (n, e) ∈ es /\ ~ lately s expiry now (n, e) /\ cb ∈ kept_callbacks e
}.

Lemma dropped_none s E expiry now : (forall c es ne, E !! c = Some es -> ne ∈ es -> lately s expiry now ne) ->
  dropped s E s E expiry now.
Proof.
  intros Hl. split; [| |done|].
  - intros c. destruct (E !! c) as [es|] eqn:Ec; simpl; [|done]. f_equal. symmetry. apply filter_kept. intros ne. by apply (Hl c).
  - intros c. destruct (caches s !! c); simpl; [apply same_config_refl|done].
  - exists []. split; [by rewrite app_nil_r|]. intros cb. split; [by intros ?%elem_of_nil|].
    intros (c & es & n & e & He & Hin & Hn & _). exfalso. by apply Hn, (Hl c es (n, e)).
Qed.

Lemma filter_iff_in {T} (P Q : T -> Prop) `{forall y, Decision (P y)} `{forall y, Decision (Q y)} (l : list T) :
  (forall y, y ∈ l -> P y <-> Q y) -> filter P l = filter Q l.
Proof.
  induction l as [|y l IH]; intros Hl; [done|]. rewrite !filter_cons, IH by (intros; apply Hl; by right).
  apply decide_ext, Hl. left.
Qed.

(** The last of all entries goes, and then the others that are to go. *)
Lemma dropped_trans s E G c x es1 n e es2 R s1 R1 x1 s2 E2 expiry now :
  core s R E G -> caches s !! c = Some x -> E !! c = Some (es1 ++ (n, e) :: es2) -> ~ lately s expiry now (n, e) ->
  core s1 R1 (<[c := es1 ++ es2]> E) (filter (other_than n) G) -> caches s1 = <[c := x1]> (caches s) -> same_config x x1 ->
  called s1 = called s ++ kept_callbacks e -> same_globals s s1 ->
  (forall m, held (list_nodes s) m <> Some n -> accessed (list_nodes s1) m = accessed (list_nodes s) m) ->
  dropped s1 (<[c := es1 ++ es2]> E) s2 E2 expiry now -> dropped s E s2 E2 expiry now.
Proof.
  intros HC Hc He Hold HC1 Hc1 Hx1 Hcall Hg Ha HD. destruct HD as [De Dc Dg (calls & Dcall & Dcb)].
  assert (Hkeep : forall c' es n' e', <[c := es1 ++ es2]> E !! c' = Some es -> (n', e') ∈ es ->
            lately s1 expiry now (n', e') <-> lately s expiry now (n', e')).
  { intros c' es n' e' Hes Hin. unfold lately. simpl. destruct (_global_list_node e') as [g|] eqn:Eg; [|done].
    assert (HG : (n', g) ∈ filter (other_than n) G) by (apply (c_timed _ _ _ _ HC1); eauto 6).
    apply list_elem_of_filter in HG as [Hne HG]. rewrite Ha; [done|].
    rewrite (c_held _ _ _ _ HC _ _ HG). by intros [= ->]. }
  split.
  - intros c'. rewrite De. destruct (decide (c = c')) as [<-|Hne].
    + rewrite lookup_insert_eq, He. simpl. f_equal. rewrite !filter_app, filter_cons, decide_False by done. rewrite <- !filter_app.
      apply filter_iff_in. intros [n' e']. eapply Hkeep, lookup_insert_eq.
    + rewrite lookup_insert_ne by done. destruct (E !! c') as [es|] eqn:Ec; simpl; [|done]. f_equal.
      apply filter_iff_in. intros [n' e']. apply (Hkeep c'). by rewrite lookup_insert_ne.
  - intros c'. specialize (Dc c'). rewrite Hc1 in Dc. destruct (decide (c = c')) as [<-|Hne].
    + rewrite lookup_insert_eq in Dc. rewrite Hc. destruct (caches s2 !! c); [|done]. by eapply same_config_trans.
    + by rewrite lookup_insert_ne in Dc.
  - destruct Hg, Dg. split; congruence.
  - exists (kept_callbacks e ++ calls). split; [by rewrite Dcall, Hcall, app_assoc|]. intros cb. rewrite elem_of_app, Dcb.
    assert (Hin : forall ne, ne ∈ es1 ++ (n, e) :: es2 <-> ne = (n, e) \/ ne ∈ es1 ++ es2).
    { intros ne. rewrite !elem_of_app, elem_of_cons. tauto. }
    split.
    + intros [Hcb|(c' & es & n' & e' & Hes & Hin' & Hn & Hcb)].
      { exists c, (es1 ++ (n, e) :: es2), n, e. split_and!; [done|apply Hin; by left|done|done]. }
      rewrite (Hkeep c' es) in Hn by done. apply lookup_insert_Some in Hes as [[<- <-]|[_ Hes]]; [|eauto 8].
      exists c, (es1 ++ (n, e) :: es2), n', e'. split_and!; [done|apply Hin; by right|done|done].
    + intros (c' & es & n' & e' & Hes & Hin' & Hn & Hcb). destruct (decide (c = c')) as [<-|Hne].
      * rewrite He in Hes. injection Hes as <-. apply Hin in Hin' as [[= -> ->]|Hin']; [by left|]. right.
        exists c, (es1 ++ es2), n', e'. pose proof (lookup_insert_eq E c (es1 ++ es2)) as Hi. rewrite (Hkeep c _ n' e' Hi Hin'). done.
      * right. assert (Hi : <[c := es1 ++ es2]> E !! c' = Some es) by (by rewrite lookup_insert_ne).
        exists c', es, n', e'. rewrite (Hkeep c' es n' e' Hi Hin'). done.
Qed.

(** The last on the list of all entries, the job's next one. *)
Lemma last_timed s R E G n g : core s R E (G ++ [(n, g)]) -> exists y t, in_lists (deref g) s = (Ok y, s) /\
  last_access_ts_secs y = Some t /\ accessed (list_nodes s) g = Some t /\ cache_entry y = Some n /\
  prev_node y = Some (default (GLOBAL_ROOT s) (last G.*2)) /\ g <> GLOBAL_ROOT s.
Proof.
  intros HC. assert (Hin : (n, g) ∈ G ++ [(n, g)]) by set_solver.
  pose proof (c_global _ _ _ _ HC) as HG. rewrite fmap_app in HG. simpl in HG.
  destruct (in_between _ _ _ _ _ _ (c_lists _ _ _ _ HC) HG) as (_ & Hp & _).
  pose proof (lists_nodup _ _ (c_lists _ _ _ _ HC) _ _ HG) as [Hnd _]%NoDup_cons.
  destruct (proj1 (c_times _ _ _ _ HC) _ _ Hin) as (t & Ht & _). pose proof (c_held _ _ _ _ HC _ _ Hin) as Hh.
  unfold prv, accessed, held in Hp, Ht, Hh. apply bind_Some in Hp as (y & Ey & Hy). rewrite Ey in Hh. pose proof Ht as Ht'. rewrite Ey in Ht'.
  exists y, t. rewrite (in_lists_ok _ s _ _ (deref_alive _ _ _ Ey)). split_and!; try done; [by destruct s|]. intros ->. set_solver.
Qed.

(** There is a node before the root, and before each of its list. *)
Lemma global_prev s R E G : core s R E G -> exists y p, in_lists (deref (default (GLOBAL_ROOT s) (last G.*2))) s = (Ok y, s) /\
  prev_node y = Some p.
Proof.
  intros HC. assert (Hid : set_list_nodes (list_nodes s) s = s) by (by destruct s).
  destruct G as [|[n g] G _] using rev_ind.
  - pose proof (lists_seg _ _ (c_lists _ _ _ _ HC) _ _ (c_global _ _ _ _ HC)) as [Hn Hp].
    destruct (node_fields _ _ (nxt_alive _ _ _ Hn)) as (y & Ey & Hy & _). exists y, (GLOBAL_ROOT s).
    simpl. rewrite (in_lists_ok _ s _ _ (deref_alive _ _ _ Ey)), Hid, Hy. done.
  - destruct (last_timed _ _ _ _ _ _ HC) as (y & t & Ey & _ & _ & _ & Hy & _). rewrite fmap_app, last_app. eauto.
Qed.

(** Nothing that was used after the last one is to go. *)
Lemma all_lately s R E G n g t expiry now : core s R E (G ++ [(n, g)]) -> accessed (list_nodes s) g = Some t ->
  used_since expiry now t -> forall c es ne, E !! c = Some es -> ne ∈ es -> lately s expiry now ne.
Proof.
  intros HC Ht Hf c es [n' e] He Hin. unfold lately. simpl. destruct (_global_list_node e) as [g'|] eqn:Eg; [|done].
  assert (HG : (n', g') ∈ G ++ [(n, g)]) by (apply (c_timed _ _ _ _ HC); eauto 6).
  destruct (accessed (list_nodes s) g') as [t'|] eqn:Et; [|done].
  apply elem_of_app in HG as [HG|[= -> ->]%list_elem_of_singleton]; [|congruence].
  destruct (c_times _ _ _ _ HC) as [_ [Hlast _]%StronglySorted_app]. destruct (Hlast (n', g') (n, g) HG) as (t1 & t2 & Ht1 & Ht2 & Hle); [left|].
  simpl in *. apply (used_mono _ _ t); [congruence|done].
Qed.

Lemma expire_loop_spec expiry now G : forall fuel s R E i, core s R E G -> stores_ok s E -> (List.length G < fuel)%nat ->
  exists n s' E', expire_loop fuel (fun _ => st_ret tt) expiry None now (default (GLOBAL_ROOT s) (last G.*2)) false i s = (Ok n, s') /\
    holds s' E' /\ dropped s E s' E' expiry now.
Proof.
  induction G as [|[n g] G IH] using rev_ind; intros fuel s R E i HC Hok Hfuel; (destruct fuel as [|fuel]; [lia|]); cbn [expire_loop].
  - exists i, s, E. rewrite st_read_run, decide_True by done. split; [done|]. split; [by exists R, []|].
    apply dropped_none. intros c es [n e] He Hin. unfold lately. simpl. destruct (_global_list_node e) as [g|] eqn:Eg; [|done].
    assert (Hnil : (n, g) ∈ @nil (loc * loc)) by (apply (c_timed _ _ _ _ HC); eauto 6). by apply elem_of_nil in Hnil.
  - destruct (last_timed _ _ _ _ _ _ HC) as (y & t & Ey & Et & Hacc & Hn & Hprev & Hg).
    rewrite fmap_app, last_app. simpl. rewrite st_read_run, decide_False by done. run Ey. rewrite Et, andb_true_r. simpl.
    destruct (still_fresh expiry now t) eqn:Ef; simpl.
    { exists i, s, E. split; [done|]. split; [by exists R, (G ++ [(n, g)])|]. apply dropped_none. apply still_fresh_spec in Ef. by eapply all_lately. }
    rewrite Hprev, Hn. assert (Hin : (n, g) ∈ G ++ [(n, g)]) by set_solver.
    pose proof (proj1 (c_timed _ _ _ _ HC n g) Hin) as (c & es & e & He & Hes & Eg).
    destruct (proj2 (c_dom _ _ _ _ HC c)) as [x Hc]; [eauto|].
    apply list_elem_of_split in Hes as (es1 & es2 & ->). destruct (Hok _ _ _ Hc He) as [Hs _].
    destruct (drop_from_cache_spec _ _ _ _ _ _ _ _ _ _ HC Hc He Hs) as (s1 & R1 & x1 & E1 & HC1 & Hc1 & Hx1 & Hs1 & Hcall & Hgl & Ha).
    pose proof (stores_after _ _ _ _ _ _ _ _ Hok Hc He Hc1 Hx1 Hs1) as Hok1.
    pose proof (core_global_nodup _ _ _ _ HC) as [Hnd _].
    assert (HG1 : filter (other_than n) (G ++ [(n, g)]) = G) by (rewrite (filter_middle n g G []) by done; apply app_nil_r).
    assert (Hold : ~ lately s expiry now (n, e)). { unfold lately. simpl. by rewrite Eg, Hacc, <- still_fresh_spec, Ef. }
    pose proof HC1 as HC1'. rewrite HG1 in HC1'. destruct (global_prev _ _ _ _ HC1') as (z & p & Ez & Hz).
    destruct (IH fuel s1 _ _ (i + 1) HC1' Hok1) as (m & s2 & E2 & Eloop & Hh2 & HD);
      [rewrite length_app in Hfuel; simpl in Hfuel; lia|].
    exists m, s2, E2. split; [|split; [done|]].
    + run E1. rewrite (st_bind_run _ _ s1 false s1) by done. rewrite (st_bind_run _ _ s1 tt s1) by (by destruct (_ =? 0)).
      destruct Hgl as [Hroot _]. rewrite <- Hroot. run Ez. by rewrite Hz.
    + by eapply dropped_trans.
Qed.

Lemma core_tick s R E G : core s R E G ->
  core (set_globals (USE_GLOBAL_LIST s) (called s) (1 + readings s) (mem_readings s) s) R E G.
Proof.
  intros HC. destruct HC as [? ? ? ? ? ? ? ? ? [Ht Hs]]. split; simpl; try done. split; [|done]. intros n g Hin.
  destruct (Ht n g Hin) as (t & Ha & Hle). exists t. split; [done|]. pose proof (clock_mono (readings s) (1 + readings s)). simpl in *. lia.
Qed.

(** As many steps as there are nodes are enough. *)
Lemma global_size s R E G : core s R E G -> (List.length G < size (list_nodes s))%nat.
Proof.
  intros HC. pose proof (c_global _ _ _ _ HC) as HG. pose proof (lists_nodup _ _ (c_lists _ _ _ _ HC) _ _ HG) as Hnd.
  assert (Hsub : (list_to_set (GLOBAL_ROOT s :: G.*2) : gset loc) ⊆ dom (list_nodes s)).
  { intros n Hn%elem_of_list_to_set. apply elem_of_dom. eapply ring_alive; [apply HC|]. apply elem_of_ring. eauto. }
  apply subseteq_size in Hsub. rewrite size_list_to_set, size_dom in Hsub by done. simpl in Hsub. rewrite length_fmap in Hsub. lia.
Qed.

Lemma run_expiry_spec s E expiry : holds s E -> exists n s' E',
  run_expiry expiry s = (Ok n, s') /\ holds s' E' /\ dropped s E s' E' expiry (clock_secs (readings s)).
Proof.
  intros (R & G & HC & Hok). pose proof (core_tick _ _ _ _ HC) as HC1. set (s1 := set_globals _ _ _ _ s) in HC1.
  destruct (expire_loop_spec expiry (clock_secs (readings s)) G (Datatypes.S (size (list_nodes s))) s1 R E 0 HC1 Hok)
    as (n & s2 & E2 & Eloop & Hh & HD); [pose proof (global_size _ _ _ _ HC); lia|].
  exists n, s2, E2. split; [|split; [done|by destruct HD]].
  pose proof (lists_seg _ _ (c_lists _ _ _ _ HC) _ _ (c_global _ _ _ _ HC)) as Hp%dseg_last.
  destruct (node_fields _ _ (prv_alive _ _ _ Hp)) as (y & Ey & Hy & _).
  unfold run_expiry, _expire_old_entries. rewrite (st_bind_run _ _ s (clock_secs (readings s)) s1) by done. rewrite st_read_run.
  rewrite (st_bind_run _ _ s1 y s1). 2: { exact (in_lists_ok _ s1 _ _ (deref_alive _ _ _ Ey)). }
  rewrite Hy, Hp. exact Eloop.
Qed.

Lemma expire_request_ok s sys expiry : valid s sys -> request_ok s sys (Expire expiry).
Proof.
  intros (R & E & G & HC & Hok & Hsys).
  destruct (run_expiry_spec s E expiry) as (n & s' & E' & Er & (R' & G' & HC' & Hok') & [De Dc Dg (calls & Dcall & Dcb)]);
    [by exists R, G|]. set (now := clock_secs (readings s)) in *.
  set (sys' := map_imap (fun c x => abs x <$> E' !! c) (caches s')).
  exists (AInt n), s', calls, sys'. split; [cbn [run_request]; by run Er|]. split; [|split; [|done]].
  - exists R', E', G'. split; [done|]. split; [done|]. intros c. unfold sys'. rewrite map_lookup_imap.
    destruct (caches s' !! c); [|done]. simpl. by destruct (E' !! c).
  - constructor.
    + intros c. unfold sys'. rewrite map_lookup_imap, Hsys, De. specialize (Dc c).
      destruct (caches s !! c) as [x|] eqn:Ex, (caches s' !! c) as [x'|]; simpl in *; try done.
      destruct (E !! c) as [es|]; simpl; [|done]. exists (view (filter (lately s expiry now) es)).
      split; [apply view_sublist, sublist_filter|]. exact (abs_config x x' _ Dc).
    + intros cb (c & es & ne & e & He & Hin & _ & Hcb)%Dcb. destruct (proj2 (c_dom _ _ _ _ HC c)) as [x Hc]; [eauto|].
      exists c, (abs x es), (shown e). split_and!; [by eapply shows_at|apply list_elem_of_fmap; by exists (ne, e)|done].
Qed.

Lemma request_refines s sys r : valid s sys -> legal_request s r -> request_ok s sys r.
Proof.
  intros Hv Hl. destruct r; simpl in Hl.
  - destruct Hl as (x & Hc & Hl). by eapply on_request_ok.
  - by apply new_request_ok.
  - destruct Hl. by apply factor_request_ok.
  - by apply del_request_ok.
  - by apply setup_request_ok.
  - by apply expire_request_ok.
Qed.

Lemma valid_initial : valid initial_process ∅.
Proof.
  assert (H0' : lists (∅ : gmap loc (ListNode loc)) ∅) by by split.
  destruct (create_root_spec _ _ H0') as (r & h & Er & _ & HR & _).
  assert (Hi : initial_process = {| list_nodes := h; nodes := ∅; caches := ∅; GLOBAL_ROOT := r; USE_GLOBAL_LIST := false;
                                    called := []; readings := 0; mem_readings := 0 |} :> Process).
  { unfold initial_process. by rewrite Er. }
  rewrite Hi. exists {[r := []]}, ∅, []. split; [|split; [done|done]].
  split; simpl; try done.
  - by rewrite lookup_singleton_eq.
  - intros c. by rewrite !lookup_empty, !is_Some_alt.
  - intros n g. split; [by intros ?%elem_of_nil|by intros (c & es & e & Hc & _)].
  - by intros n g ?%elem_of_nil.
  - split; [by intros n g ?%elem_of_nil|constructor].
Qed.

(** What can be reached. *)
Inductive served : Process -> Prop :=
  | served_initial : served initial_process
  | served_request s r ans s' : served s -> legal_request s r -> run_request r s = (Ok ans, s') -> served s'.

(** No value has a negative size. *)
Definition sizes_ok (size_cb : option (V -> Z)) : Prop := forall f v, size_cb = Some f -> 0 <= f v.
Definition bounded (a : Lru) : Prop := sizes_ok (lru_size a) -> lru_total a (lru_items a) <= lru_max a.

Lemma total_sublist (o : option (V -> Z)) (l l' : list Item) : sizes_ok o -> l' `sublist_of` l ->
  total_size o (item_value <$> l') <= total_size o (item_value <$> l).
Proof.
  intros Ho Hl. destruct o as [f|]; simpl; [|rewrite !length_fmap; apply sublist_length in Hl; lia].
  induction Hl as [|i l' l _ IH|i l' l _ IH]; [done|..]; rewrite ?fmap_cons; cbn [foldr]; [lia|]. specialize (Ho f (item_value i) eq_refl). lia.
Qed.

Lemma evicts_bounded (a : Lru) l calls kept : lru_evicts a l calls kept -> bounded (with_items kept a).
Proof. intros (gone & _ & _ & Ht & _) _. exact Ht. Qed.

Lemma shrinks_bounded (a a' : Lru) : shrinks a a' -> bounded a -> bounded a'.
Proof. intros (l & Hl & ->) Hb Ho. etrans; [|exact (Hb Ho)]. exact (total_sublist _ _ _ Ho Hl). Qed.

Lemma lru_step_bounded (a : Lru) o ans calls a' : lru_step ct_covers a o ans calls a' -> bounded a -> bounded a'.
Proof.
  intros Hstep Hb. destruct Hstep as [|k cbs t l1 i l2 i' Hi Hk ->| | | | | | |k l1 i l2 Hi Hk|k gone l calls (_ & Hl & _) _| | |ik f gone l calls _ (_ & Hl & _) _|];
    try exact Hb; try (eapply evicts_bounded; eassumption).
  - intros Ho. specialize (Hb Ho). unfold lru_total in *. rewrite Hi in Hb. etrans; [|exact Hb]. apply Z.eq_le_incl, total_perm.
    destruct t; cbn [lru_items with_items]; rewrite ?fmap_app, ?fmap_cons, ?fmap_app; [by rewrite Permutation_middle|done].
  - apply (shrinks_bounded a); [|exact Hb]. exists (l1 ++ l2). rewrite Hi. split; [|done]. apply sublist_app; [done|]. by apply sublist_cons.
  - apply (shrinks_bounded a); [|exact Hb]. by exists l.
  - apply (shrinks_bounded a); [|exact Hb]. exists []. split; [apply sublist_nil_l|done].
  - apply (shrinks_bounded a); [|exact Hb]. by exists l.
Qed.

Lemma sys_step_bounded s sys r ans calls sys' : legal_request s r -> sys_step sys r ans calls sys' ->
  map_Forall (fun _ => bounded) sys -> map_Forall (fun _ => bounded) sys'.
Proof.
  intros Hl Hstep Hb. destruct Hstep as [c a o ans calls a' Ha Hstep|original max apply size_cb index_cb prune c _| |c a m calls l Ha _ _ Hev|c a gone calls Ha _ _| |expiry n calls sys' Hsys _];
    try exact Hb.
  - apply map_Forall_insert_2; [|done]. eapply lru_step_bounded; [exact Hstep|by apply (Hb c)].
  - apply map_Forall_insert_2; [|done]. intros _. unfold lru_total. simpl. by rewrite total_nil.
  - apply map_Forall_insert_2; [|done]. by eapply evicts_bounded.
  - by apply map_Forall_delete.
  - intros c a' Ha'. specialize (Hsys c). rewrite Ha' in Hsys. destruct (sys !! c) as [a|] eqn:Ha; [|done].
    eapply shrinks_bounded; [exact Hsys|by apply (Hb c)].
Qed.

Lemma served_valid s : served s -> exists sys, valid s sys /\ map_Forall (fun _ => bounded) sys.
Proof.
  induction 1 as [|s r ans s' _ (sys & Hv & Hb) Hl Er]; [exists ∅; split; [apply valid_initial|by apply map_Forall_empty]|].
  destruct (request_refines _ _ _ Hv Hl) as (ans2 & s2 & calls & sys' & E2 & Hv' & Hstep & _). rewrite Er in E2. injection E2 as _ <-.
  exists sys'. split; [done|]. by eapply sys_step_bounded.
Qed.

(** C25: whatever is asked of the process, from the import of the module on, every request is
    answered without an error, given that a client keeps to one length of keys in a cache, and,
    where it invalidates by an index whose keys depend on the values, replaces a value only by
    one of the same index key (an event's room does not change, in the only such cache of the
    repository); there is one state [sys] of the specification that the stores
    show before, and what is answered, what callbacks are run and what the stores show
    afterwards is a step of the specification [sys_step], that is of [lru_step] for the one
    cache that is asked: hits come first, the least recently used goes first, and only when
    the rest does not fit. *)
Theorem lru_refines s : served s -> exists sys, valid s sys /\ forall r, legal_request s r -> exists ans s' calls sys',
  run_request r s = (Ok ans, s') /\ valid s' sys' /\ sys_step sys r ans calls sys' /\ called s' = called s ++ calls.
Proof.
  intros (sys & Hv & _)%served_valid. exists sys. split; [done|]. intros r Hl. by apply request_refines.
Qed.

Lemma lists_one (h : gmap loc (ListNode loc)) R r xs : lists h R -> R !! r = Some xs -> lists h {[r := xs]}.
Proof.
  intros [Hs Hn Ha] Hr. split.
  - intros r' xs' [<- <-]%lookup_singleton_Some. by apply Hs.
  - intros r' xs' [<- <-]%lookup_singleton_Some. by apply Hn.
  - by intros r1 xs1 r2 xs2 y [<- <-]%lookup_singleton_Some [<- <-]%lookup_singleton_Some.
Qed.

Lemma total_nonneg (o : option (V -> Z)) (vs : list V) : sizes_ok o -> 0 <= total_size o vs.
Proof.
  intros Ho. destruct o as [f|]; simpl; [|lia]. induction vs as [|v vs IH]; cbn [foldr]; [done|]. specialize (Ho f v eq_refl). lia.
Qed.

(** C26: whatever was asked of the process, the doubly linked list of a cache has exactly the
    entries that its store has, each of them refers to the cache, and the size the cache
    counts is the number of the entries or the sum of their sizes.  If no value has a negative
    size, that is never more than [max_size]. *)
Theorem lru_bounded s c x : served s -> caches s !! c = Some x -> exists es,
  lists (list_nodes s) {[list_root x := lnode <$> es]} /\ ct_items (cache x) ≡ₚ keyed es /\
  (forall n e, (n, e) ∈ es -> nodes s !! n = Some e /\ _cache e = c) /\
  cache_len x = total_size (size_callback x) (values es) /\
  (sizes_ok (size_callback x) -> 0 <= cache_len x <= max_size x).
Proof.
  intros (sys & (R & E & G & HC & Hok & Hsys) & Hb)%served_valid Hc. destruct (core_entries _ _ _ _ _ _ HC Hc) as [es He].
  destruct (Hok _ _ _ Hc He) as [Hs Hm]. pose proof (cache_len_spec arity steady _ _ _ Hs) as Hlen. pose proof Hs as (_ & Hp & _).
  exists es. split; [by eapply lists_one; [apply HC|eapply c_ring]|]. split; [done|].
  split; [intros n e Hin; destruct (c_node _ _ _ _ HC _ _ _ _ He Hin) as (? & ? & _); done|]. split; [done|].
  intros Ho. pose proof (Hb c _ (shows_at _ _ _ _ _ _ Hsys Hc He) Ho) as Hle. unfold lru_total in Hle. simpl in Hle.
  rewrite view_values in Hle. rewrite Hlen. split; [by apply total_nonneg|done].
Qed.

(** C27: the job that expires entries comes to its end, within as many steps as there are list
    nodes, and then every cache has exactly those of its entries, in the order they were in,
    that do not expire at all or were used within the last [expiry] milliseconds; their
    callbacks are not run, those of all the others are; and the stores are in order again. *)
Theorem expire_exact s E expiry : holds s E -> exists n s' E', run_expiry expiry s = (Ok n, s') /\ holds s' E' /\
  (forall c, E' !! c = filter (lately s expiry (clock_secs (readings s))) <$> E !! c) /\
  exists calls, called s' = called s ++ calls /\ forall cb, cb ∈ calls <-> exists c es n e,
    E !! c = Some es /\ (n, e) ∈ es /\ ~ lately s expiry (clock_secs (readings s)) (n, e) /\ cb ∈ kept_callbacks e.
Proof.
  intros Hh. destruct (run_expiry_spec s E expiry Hh) as (n & s' & E' & Er & Hh' & [De _ _ Dcalls]).
  exists n, s', E'. by split_and!.
Qed.
End lru.

(** ** A process at work *)

Lemma served_on {A V CB S} `{EqDecision A, EqDecision V, EqDecision CB, !CacheType A loc S, SetOrder, !LruEnv, !LruClock, !CacheTypeLaws A loc S}
    (arity : loc -> nat) (steady : loc -> Prop) (s : Process A V CB S) (r : request) :
  served arity steady s -> legal_request arity steady s r -> served arity steady (snd (run_request r s)).
Proof.
  intros Hs Hl. destruct (served_valid _ _ _ Hs) as (sys & Hv & _).
  destruct (request_refines _ _ _ _ _ Hv Hl) as (ans & s' & calls & sys' & Er & _). rewrite Er. by eapply served_request.
Qed.

(** The clock goes on by a second at every reading; the caches are backed by trees. *)
#[local] Instance lru_order : SetOrder := {| set_iter := fun _ l => l; set_iter_perm := fun _ l => reflexivity l |}.
#[local] Instance ticking : LruEnv := {| clock_secs := Z.of_nat; has_jemalloc := false; mem_usage _ := None |}.
#[local] Instance ticks : LruClock.
Proof. intros m n Hmn. simpl. lia. Qed.

Abbreviation demo := (Process Z Z Z (TreeCache Z loc)).
Abbreviation demo_step := (sys_step (S := TreeCache Z loc)).
Definition pairs (_ : loc) : nat := 1.

(** The clients of the second cache invalidate by its index. *)
Definition by_index (c : loc) : Prop := c = 2%positive.

Fixpoint run_all (rs : list request) (s : demo) : demo :=
  match rs with [] => s | r :: rs => run_all rs (snd (run_request r s)) end.

Fixpoint all_legal (rs : list request) (s : demo) : Prop :=
  match rs with [] => True | r :: rs => legal_request pairs by_index s r /\ all_legal rs (snd (run_request r s)) end.

Lemma served_all rs : forall s : demo, served pairs by_index s -> all_legal rs s -> served pairs by_index (run_all rs s).
Proof. induction rs as [|r rs IH]; intros s Hs Hl; [done|]. destruct Hl as [Hr Hl]. apply IH; [exact (served_on pairs by_index s r Hs Hr)|exact Hl]. Qed.

Lemma legal_on (s : demo) c o : bool_decide (is_Some (caches s !! c)) = true ->
  (forall x : LruCache Z Z (TreeCache Z loc), caches s !! c = Some x -> legal pairs by_index s c x o) ->
  legal_request pairs by_index s (On c o).
Proof. intros [x Hx]%bool_decide_eq_true Hl. exists x. split; [exact Hx|by apply Hl]. Qed.

(** The index key of the value that is there, if any, is that of the new one. *)
Definition keeps_index (s : demo) c k v : bool :=
  match caches s !! c with
  | Some x =>
      match extra_index_cb x, ct_get k (cache x) with
      | Some f, Ok (Some (Leaf n)) =>
          match nodes s !! n with Some e => bool_decide (f k v = f k (value e)) | None => false end
      | _, _ => true
      end
  | None => false
  end.

Lemma legal_put (s : demo) c k v cbs : keeps_index s c k v = true -> ct_full (L := loc) (S := TreeCache Z loc) (pairs c) k ->
  legal_request pairs by_index s (On c (Put k v cbs)).
Proof.
  unfold keeps_index. intros Hk Hf. destruct (caches s !! c) as [x|] eqn:Ec; [|done]. exists x. split; [done|]. split; [done|].
  intros _ f v0 Ef (n & e & Eg & En & <-). rewrite Ef, Eg, En in Hk. by apply bool_decide_eq_true in Hk.
Qed.

(** Two caches of at most two entries, the second indexed by what the values leave modulo 2. *)
Definition demo_requests : list request :=
  [Setup 3000 None;
   New 2 2 true None None true;
   New 2 2 true (Some (fun v => v)) (Some (fun _ v => [v mod 2])) true;
   On 1%positive (Put [1; 1] 10 [7]);
   On 1%positive (Put [1; 2] 20 [8]);
   On 2%positive (Put [1; 1] 1 [5]);
   On 2%positive (Put [1; 2] 1 [6])].
Definition demo_process : demo := run_all demo_requests initial_process.

Lemma demo_served : served pairs by_index demo_process.
Proof.
  apply served_all; [constructor|]. cbn [all_legal demo_requests]. repeat split; try (simpl; lia).
  all: apply legal_put; [by vm_compute|done].
Qed.

Lemma lru_refines_witness : exists sys, valid pairs by_index demo_process sys /\
  forall r, r = On 1%positive (Put [2; 1] 30 [9]) \/ r = On 2%positive (Put [1; 1] 3 []) \/ r = On 2%positive (InvalidateIndex [1]) ->
  exists ans s' calls sys', run_request r demo_process = (Ok ans, s') /\ valid pairs by_index s' sys' /\
    demo_step sys r ans calls sys' /\ called s' = called demo_process ++ calls.
Proof.
  destruct (lru_refines pairs by_index demo_process demo_served) as (sys & Hv & Hr). exists sys. split; [exact Hv|].
  intros r [->|[->| ->]]; apply Hr; [apply legal_put; [by vm_compute|done]..|].
  apply legal_on; [by vm_compute|]. intros x Hx. exists (fun _ v => [v mod 2]). split; [|left; done].
  vm_compute in Hx. injection Hx as <-. done.
Defined.

(** The entry used least recently goes, with its callback; the second cache counts what its
    values say. *)
Example demo_evicts : called (run_all [On 1%positive (Put [2; 1] 30 [9])] demo_process) = [7].
Proof. by vm_compute. Qed.

Lemma lru_bounded_witness : exists c x es, caches demo_process !! c = Some x /\
  lists (list_nodes demo_process) {[list_root x := lnode <$> es]} /\ ct_items (cache x) ≡ₚ keyed es /\
  (forall n e, (n, e) ∈ es -> nodes demo_process !! n = Some e /\ _cache e = c) /\
  cache_len x = total_size (size_callback x) (values es) /\ (sizes_ok (size_callback x) -> 0 <= cache_len x <= max_size x).
Proof.
  destruct (caches demo_process !! 2%positive) as [x|] eqn:Ex; [|vm_compute in Ex; discriminate].
  destruct (lru_bounded pairs by_index demo_process 2%positive x demo_served Ex) as (es & Hes). exists 2%positive, x, es. split; [exact Ex|exact Hes].
Defined.

(** The entries of the caches that keep none for ever are used at seconds 1, 2 and on. *)
Lemma expire_exact_witness : exists E n s' E', holds pairs by_index demo_process E /\ run_expiry (Some 2500) demo_process = (Ok n, s') /\
  n = 2 /\ called s' = [7; 8] /\ holds pairs by_index s' E' /\
  forall c, E' !! c = filter (lately demo_process (Some 2500) (clock_secs (readings demo_process))) <$> E !! c.
Proof.
  destruct (served_valid pairs by_index demo_process demo_served) as (sys & (R & E & G & HC & Hok & _) & _).
  destruct (expire_exact pairs by_index demo_process E (Some 2500)) as (n & s' & E' & Er & Hh & HE & _); [exists R, G; split; [exact HC|exact Hok]|].
  exists E, n, s', E'. split; [exists R, G; split; [exact HC|exact Hok]|]. split; [exact Er|].
  assert (Hn : fst (run_expiry (Some 2500) demo_process) = Ok 2 /\ called (snd (run_expiry (Some 2500) demo_process)) = [7; 8]) by (split; vm_compute; reflexivity).
  rewrite Er in Hn. destruct Hn as [Hn Hcall]. split; [by injection Hn|]. split; [exact Hcall|]. split; [exact Hh|exact HE].
Defined.

(** Both entries of the second cache go by their index, also after one has another value. *)
Example demo_invalidates :
  let s := run_all [On 2%positive (Put [1; 1] (-1) []); On 2%positive (InvalidateIndex [1])] demo_process in
  (called s, fst (run_request (On 2%positive Len) s)) = ([5; 6], Ok (AInt 0)).
Proof. by vm_compute. Qed.

(** An entry whose value changed so that it has another key in the index is not found there. *)
Example index_misses_new_value :
  let s := run_all [New 2 2 true None (Some (fun _ v => [v])) true; On 1%positive (Put [1; 1] 10 []); On 1%positive (Put [1; 1] 20 []);
                    On 1%positive (InvalidateIndex [20])] initial_process in
  fst (run_request (On 1%positive (Contains [1; 1])) s) = Ok (ABool true).
Proof. by vm_compute. Qed.
