(* ===== verification/SetkaDb.v ===== *)
(** * SetkaDb: the tables of the Setka channels and of their feed

    The fork keeps its channel registry and feed in its own SQL tables.  A table is the list
    of its rows; a transaction is a function of the tables, run in a state monad whose
    computations may raise.  The operators of the database engine ([LOWER], [LIKE],
    [RANDOM()]) are parameters.  A field has the column's name after the prefix of its table. *)
From S2P Require Import Prelude PyVal PyState.
From Stdlib Require Import String.
Open Scope string_scope.
Open Scope list_scope.
Open Scope Z_scope.

(** ** Rows (handlers/setka_feed.py, [_ensure_tables]) *)

Record PublishedChannel := {
  c_room_id : string; c_published_at : Z; c_tag : option string; c_hidden : Z;
  c_category_id : option string; c_feed_enabled : Z
}.

Record Category := {
  cat_id : string; cat_label : string; cat_sort_order : Z; cat_is_active : Z
}.

Record FeedPost := {
  p_event_id : string; p_room_id : string; p_category_id : option string; p_sender : string;
  p_created_at : Z; p_msgtype : string; p_body : string; p_media_mxc : option string;
  p_comment_count : Z; p_view_count : Z; p_like_count : Z
}.

(** A row of the tables of subscriptions (user, room), likes and views (user, event), with
    its timestamp. *)
Abbreviation Mark := (string * string * Z)%type.

Record SetkaDb := {
  setka_published_channels : list PublishedChannel;
  setka_channel_categories : list Category;
  setka_channel_subscriptions : list Mark;
  setka_feed_posts : list FeedPost;
  setka_feed_likes : list Mark;
  setka_feed_views : list Mark;
  (** the column is_public of the server's table of rooms *)
  rooms_is_public : list (string * bool);
  tables_ready : bool
}.

(** ** SQL *)

Class SqlEngine := {
  sql_lower : string -> string;
  sql_like : string -> string -> bool;
  sql_random : forall {A}, list A -> list A;
  sql_random_perm : forall {A} (l : list A), sql_random l ≡ₚ l
}.

(** [UPDATE ... WHERE p] and [DELETE ... WHERE p] *)
Definition update_where {R} (p : R -> bool) (f : R -> R) (rows : list R) : list R :=
  map (fun r => if p r then f r else r) rows.
Definition delete_where {R} (p : R -> bool) (rows : list R) : list R :=
  List.filter (fun r => negb (p r)) rows.
(** [SELECT 1 ... WHERE p], and the first row. *)
Definition row_exists {R} (p : R -> bool) (rows : list R) : bool := existsb p rows.
Definition fetchone {R} (p : R -> bool) (rows : list R) : option R := List.find p rows.

(** A mark of the given user on the given room or event. *)
Definition is_mark (user key : string) (m : Mark) : bool :=
  String.eqb m.1.1 user && String.eqb m.1.2 key.

(** ** Transactions *)

Abbreviation DbM := (St SetkaDb).

(** Replacing one table. *)
Definition set_published (f : list PublishedChannel -> list PublishedChannel) (db : SetkaDb) : SetkaDb :=
  {| setka_published_channels := f (setka_published_channels db);
     setka_channel_categories := setka_channel_categories db;
     setka_channel_subscriptions := setka_channel_subscriptions db;
     setka_feed_posts := setka_feed_posts db; setka_feed_likes := setka_feed_likes db;
     setka_feed_views := setka_feed_views db;
     rooms_is_public := rooms_is_public db; tables_ready := tables_ready db |}.
Definition set_categories (f : list Category -> list Category) (db : SetkaDb) : SetkaDb :=
  {| setka_published_channels := setka_published_channels db;
     setka_channel_categories := f (setka_channel_categories db);
     setka_channel_subscriptions := setka_channel_subscriptions db;
     setka_feed_posts := setka_feed_posts db; setka_feed_likes := setka_feed_likes db;
     setka_feed_views := setka_feed_views db;
     rooms_is_public := rooms_is_public db; tables_ready := true |}.
Definition set_subscriptions (f : list Mark -> list Mark) (db : SetkaDb) : SetkaDb :=
  {| setka_published_channels := setka_published_channels db;
     setka_channel_categories := setka_channel_categories db;
     setka_channel_subscriptions := f (setka_channel_subscriptions db);
     setka_feed_posts := setka_feed_posts db; setka_feed_likes := setka_feed_likes db;
     setka_feed_views := setka_feed_views db;
     rooms_is_public := rooms_is_public db; tables_ready := tables_ready db |}.
Definition set_posts (f : list FeedPost -> list FeedPost) (db : SetkaDb) : SetkaDb :=
  {| setka_published_channels := setka_published_channels db;
     setka_channel_categories := setka_channel_categories db;
     setka_channel_subscriptions := setka_channel_subscriptions db;
     setka_feed_posts := f (setka_feed_posts db); setka_feed_likes := setka_feed_likes db;
     setka_feed_views := setka_feed_views db;
     rooms_is_public := rooms_is_public db; tables_ready := tables_ready db |}.
Definition set_likes (f : list Mark -> list Mark) (db : SetkaDb) : SetkaDb :=
  {| setka_published_channels := setka_published_channels db;
     setka_channel_categories := setka_channel_categories db;
     setka_channel_subscriptions := setka_channel_subscriptions db;
     setka_feed_posts := setka_feed_posts db; setka_feed_likes := f (setka_feed_likes db);
     setka_feed_views := setka_feed_views db;
     rooms_is_public := rooms_is_public db; tables_ready := tables_ready db |}.
Definition set_views (f : list Mark -> list Mark) (db : SetkaDb) : SetkaDb :=
  {| setka_published_channels := setka_published_channels db;
     setka_channel_categories := setka_channel_categories db;
     setka_channel_subscriptions := setka_channel_subscriptions db;
     setka_feed_posts := setka_feed_posts db; setka_feed_likes := setka_feed_likes db;
     setka_feed_views := f (setka_feed_views db);
     rooms_is_public := rooms_is_public db; tables_ready := tables_ready db |}.
Definition set_rooms (f : list (string * bool) -> list (string * bool)) (db : SetkaDb) : SetkaDb :=
  {| setka_published_channels := setka_published_channels db;
     setka_channel_categories := setka_channel_categories db;
     setka_channel_subscriptions := setka_channel_subscriptions db;
     setka_feed_posts := setka_feed_posts db; setka_feed_likes := setka_feed_likes db;
     setka_feed_views := setka_feed_views db;
     rooms_is_public := f (rooms_is_public db); tables_ready := tables_ready db |}.
