(* ===== verification/SetkaPlusPlans.v ===== *)
(** * SetkaPlusPlans: untrusted values and plans (handlers/setka_plus.py)

    The functions that make strings, numbers and booleans of whatever a request, a file or a
    stored document holds.  Python's Unicode tables are the class [PyUnicode]. *)
From S2P Require Import Prelude PyVal PySort PyFloat Identifiers.
From Stdlib Require Import Ascii String.
Open Scope string_scope.
Open Scope list_scope.
Open Scope Z_scope.
Open Scope py_scope.

(** [s\[:n\]], in codepoints *)
Definition utf8_take (n : nat) (s : string) : string := str_join "" (take n (utf8_chars s)).

Definition _clean_str (value : json) (max_len : nat) : option string :=
  match value with
  | JStr s => let normalized := strip s in
              if String.eqb normalized "" then None else Some (utf8_take max_len normalized)
  | _ => None
  end.

Definition _clean_int (value : json) : result (option Z) :=
  match value with
  | JInt n => Ok (Some n)
  | JFloat _ => let* n := py_int value in Ok (Some n)
  | JStr s =>
      let raw := strip s in
      if String.eqb raw "" then Ok None
      else match (let* f := float_of_str raw in py_int (JFloat f)) with
           | Ok n => Ok (Some n)
           | Err ValueError => Ok None
           | Err e => Err e
           end
  | _ => Ok None
  end.

(** Seconds become milliseconds. *)
Definition _clean_timestamp_ms (value : json) (allow_zero : bool) : result (option Z) :=
  let* timestamp := _clean_int value in
  Ok match timestamp with
     | None => None
     | Some t =>
         if t =? 0 then if allow_zero then Some 0 else None
         else if t <? 0 then None
         else if t <? 10000000000 then Some (t * 1000)
         else Some t
     end.

Definition _clean_float (value : json) : result (option pyfloat) :=
  let* amount := match value with
                 | JInt n => let* f := float_of_int n in Ok (Some f)
                 | JFloat f => Ok (Some f)
                 | JStr s => match float_of_str s with
                             | Ok f => Ok (Some f)
                             | Err ValueError => Ok None
                             | Err e => Err e
                             end
                 | _ => Ok None
                 end in
  Ok match amount with
     | Some f => if fpos f then Some f else None
     | None => None
     end.

Definition _clean_bool (value : json) (default : bool) : bool :=
  match value with
  | JBool b => b
  | JStr s =>
      let lowered := lower (strip s) in
      if bool_decide (lowered ∈ ["1"; "true"; "yes"; "on"]) then true
      else if bool_decide (lowered ∈ ["0"; "false"; "no"; "off"]) then false
      else default
  | JInt _ | JFloat _ => truthy value
  | _ => default
  end.

(** ** What is read *)

Example clean_ex :
  (_clean_str (JStr "  Plus ") 3, _clean_int (JStr " 12.9 "), _clean_timestamp_ms (JInt 1700000000) false,
   _clean_bool (JStr "Yes") false)
  = (Some "Plu", Ok (Some 12), Ok (Some 1700000000000), true).
Proof. vm_compute. reflexivity. Qed.

(** An infinite number is not read as a missing one. *)
Example clean_int_inf : _clean_int (JStr "inf") = Err OverflowError /\ _clean_int (JStr "nan") = Ok None.
Proof. vm_compute. done. Qed.

(** * The plans of a subscription (handlers/setka_plus.py)

    The plans an administrator sets, brought into shape, and the plan a purchase is for.  A
    plan's dictionary always has the same keys: it is the record [Plan]. *)

Record Plan := {
  plan_id : string;
  plan_name : string;
  plan_price_rub : pyfloat;
  plan_duration_days : Z;
  plan_features : list string;
  plan_active : bool;
  plan_is_default : bool;
  plan_sort_order : Z
}.

Definition set_active (b : bool) (p : Plan) : Plan :=
  {| plan_id := plan_id p; plan_name := plan_name p; plan_price_rub := plan_price_rub p;
     plan_duration_days := plan_duration_days p; plan_features := plan_features p;
     plan_active := b; plan_is_default := plan_is_default p; plan_sort_order := plan_sort_order p |}.
Definition set_is_default (b : bool) (p : Plan) : Plan :=
  {| plan_id := plan_id p; plan_name := plan_name p; plan_price_rub := plan_price_rub p;
     plan_duration_days := plan_duration_days p; plan_features := plan_features p;
     plan_active := plan_active p; plan_is_default := b; plan_sort_order := plan_sort_order p |}.

(** What [json.dump] writes of a plan. *)
Definition plan_json (p : Plan) : json :=
  JObj [("id", JStr (plan_id p)); ("name", JStr (plan_name p)); ("price_rub", JFloat (plan_price_rub p));
        ("duration_days", JInt (plan_duration_days p)); ("features", JList (map JStr (plan_features p)));
        ("active", JBool (plan_active p)); ("is_default", JBool (plan_is_default p));
        ("sort_order", JInt (plan_sort_order p))].

Definition monthly_plan (plus_price_rub : pyfloat) : Plan :=
  {| plan_id := "setka_plus_month"; plan_name := "Setka Plus 30 days";
     plan_price_rub := round2 plus_price_rub; plan_duration_days := 30;
     plan_features := ["Custom stickers and custom emoji packs"; "Status emoji near nickname";
                       "Priority media limits"];
     plan_active := true; plan_is_default := true; plan_sort_order := 10 |}.

Definition _default_plans (plus_price_rub : pyfloat) : list Plan :=
  let base := round2 plus_price_rub in
  [monthly_plan plus_price_rub;
   {| plan_id := "setka_plus_quarter"; plan_name := "Setka Plus 90 days";
      plan_price_rub := round2 (fmul base (float_of_frac 27 10)); plan_duration_days := 90;
      plan_features := ["All monthly features"; "Discounted quarterly billing";
                        "Early access to Plus UI updates"];
      plan_active := true; plan_is_default := false; plan_sort_order := 20 |};
   {| plan_id := "setka_plus_year"; plan_name := "Setka Plus 365 days";
      plan_price_rub := round2 (fmul base (float_of_frac 95 10)); plan_duration_days := 365;
      plan_features := ["All Plus features"; "Best yearly price"; "Priority support channel"];
      plan_active := true; plan_is_default := false; plan_sort_order := 30 |}].

(** ** [_normalize_plans] *)

Definition clean_features (raw : json) : list string :=
  match raw with
  | JList l => take 16 (omap (fun f => _clean_str f 160) l)
  | _ => []
  end.

(** The plan of an item, if it is complete; [index] is the item's place. *)
Definition clean_plan (index : nat) (item : obj) : result (option Plan) :=
  let get k := oget item k JNull in
  let* price_rub := _clean_float (get "price_rub") in
  let* duration_days := _clean_int (get "duration_days") in
  match _clean_str (get "id") 64, _clean_str (get "name") 120, price_rub, duration_days with
  | Some plan_id, Some name, Some price_rub, Some duration_days =>
      if duration_days <=? 0 then Ok None
      else
        let* sort_order := _clean_int (get "sort_order") in
        Ok (Some {| plan_id := plan_id; plan_name := name; plan_price_rub := round2 price_rub;
                    plan_duration_days := duration_days; plan_features := clean_features (get "features");
                    plan_active := _clean_bool (get "active") true;
                    plan_is_default := _clean_bool (get "is_default") false;
                    plan_sort_order := match sort_order with
                                       | Some 0 | None => (Z.of_nat index + 1) * 10
                                       | Some n => n
                                       end |})
  | _, _, _, _ => Ok None
  end.

(** An item with an ID that was seen is skipped before its other fields are read. *)
Definition add_plan (known : list Plan) (indexed : nat * json) : result (list Plan) :=
  match indexed.2 with
  | JObj item =>
      if bool_decide (_clean_str (oget item "id" JNull) 64 ∈ map (fun p => Some (plan_id p)) known)
      then (* the price and the duration are still read *)
        _clean_float (oget item "price_rub" JNull) ;;; _clean_int (oget item "duration_days" JNull) ;;; Ok known
      else
        let* plan := clean_plan indexed.1 item in
        Ok (match plan with Some p => known ++ [p] | None => known end)
  | _ => Ok known
  end.

(** [f] on the first plan that satisfies [p]. *)
Fixpoint update_first (p : Plan -> bool) (f : Plan -> Plan) (l : list Plan) : list Plan :=
  match l with
  | [] => []
  | x :: l => if p x then f x :: l else x :: update_first p f l
  end.

(** Some plan is active, and some active plan the default. *)
Definition ensure_default (plans : list Plan) : list Plan :=
  let plans := if existsb plan_active plans then plans
               else update_first (fun _ => true) (set_active true) plans in
  if existsb (fun p => plan_active p && plan_is_default p) plans then plans
  else update_first plan_active (set_is_default true) plans.

Section plans.
Context `{PyUnicode}.

Definition plan_key (p : Plan) : Z * string := (plan_sort_order p, py_lower (plan_name p)).

Definition _normalize_plans (plus_price_rub : pyfloat) (raw : json) : result (list Plan) :=
  let source := match raw with
                | JList l => l
                | _ => map plan_json (_default_plans plus_price_rub)
                end in
  let* normalized := rfold add_plan [] (zip (seq 0 (Datatypes.length source)) source) in
  let normalized := match normalized with [] => _default_plans plus_price_rub | _ => normalized end in
  Ok (take 32 (sorted_by plan_key (ensure_default normalized))).
End plans.

(** ** The plan of a purchase *)

Definition _find_plan_by_id (plans : list Plan) (id : json) : option Plan :=
  match _clean_str id 64 with
  | None => None
  | Some normalized_id => List.find (fun p => bool_decide (plan_id p = normalized_id)) plans
  end.

Definition _resolve_plan (plus_price_rub : pyfloat) (plans : list Plan) (id : json) : Plan :=
  match match _find_plan_by_id plans id with
        | Some p => if plan_active p then Some p else None
        | None => None
        end with
  | Some p => p
  | None =>
      match List.find (fun p => plan_active p && plan_is_default p) plans with
      | Some p => p
      | None =>
          match List.find plan_active plans with
          | Some p => p
          | None => match plans with
                    | p :: _ => p
                    | [] => monthly_plan plus_price_rub
                    end
          end
      end
  end.

(** ** The plans are in shape *)

(** Between one plan and 32, with IDs of their own and durations that are positive; some
    active plan is the default, unless that one was cut off. *)
Record plans_ok (plans : list Plan) : Prop := {
  po_some : plans <> [];
  po_bound : (Datatypes.length plans <= 32)%nat;
  po_ids : NoDup (map plan_id plans);
  po_durations : forall p, p ∈ plans -> 0 < plan_duration_days p;
  po_default : (Datatypes.length plans < 32)%nat ->
    exists p, p ∈ plans /\ plan_active p = true /\ plan_is_default p = true
}.

Definition partial_ok (plans : list Plan) : Prop :=
  NoDup (map plan_id plans) /\ forall p, p ∈ plans -> 0 < plan_duration_days p.

Lemma default_plans_ok price : partial_ok (_default_plans price).
Proof.
  split; [by apply (bool_decide_unpack _); vm_compute|].
  intros p. unfold _default_plans. rewrite !elem_of_cons, elem_of_nil. by intros [->|[->|[->|[]]]].
Qed.

Lemma clean_plan_ok i item p : clean_plan i item = Ok (Some p) ->
  0 < plan_duration_days p /\ _clean_str (oget item "id" JNull) 64 = Some (plan_id p).
Proof.
  unfold clean_plan. destruct (_clean_float _) as [price|]; [|done]. simpl.
  destruct (_clean_int _) as [days|]; [|done]. simpl.
  destruct (_clean_str (oget item "id" JNull) 64), (_clean_str (oget item "name" JNull) 120), price, days; try done.
  destruct (_ <=? 0) eqn:E; [done|]. destruct (_clean_int _) as [so|]; [|done]. simpl. intros [= <-]. simpl.
  apply Z.leb_gt in E. done.
Qed.

Lemma add_plan_ok known x known' : add_plan known x = Ok known' -> partial_ok known -> partial_ok known'.
Proof.
  unfold add_plan. destruct x.2 as [| | | | | |item]; try by intros [= <-].
  case_bool_decide as Hin.
  - destruct (_clean_float _); [|done]. simpl. destruct (_clean_int _); [|done]. by intros [= <-].
  - destruct (clean_plan x.1 item) as [[p|]|] eqn:E; simpl; [|by intros [= <-]|done].
    intros [= <-] [Hd Hp]. apply clean_plan_ok in E as [Hdays Hid]. split.
    + rewrite map_app. apply NoDup_app. split; [done|]. split; [|simpl; apply NoDup_singleton].
      intros i (q & -> & Hq)%in_map_b Heq%list_elem_of_singleton. apply Hin. rewrite Hid, <- Heq.
      apply in_map_b. by exists q.
    + intros q [Hq|Hq%list_elem_of_singleton]%elem_of_app; [by apply Hp|by subst].
Qed.

(** What decides the order and the shape of plans is not changed by the flags. *)
Lemma update_first_map {B} (g : Plan -> B) p f l : (forall x, g (f x) = g x) ->
  map g (update_first p f l) = map g l.
Proof. intros Hg. induction l as [|x l IH]; [done|]. simpl. destruct (p x); simpl; by rewrite ?Hg, ?IH. Qed.

Lemma ensure_default_map {B} (g : Plan -> B) l :
  (forall b x, g (set_active b x) = g x) -> (forall b x, g (set_is_default b x) = g x) ->
  map g (ensure_default l) = map g l.
Proof.
  intros Ha Hd. unfold ensure_default.
  destruct (existsb plan_active l); destruct (existsb _ _); rewrite ?update_first_map by auto; done.
Qed.

Lemma update_first_some p f l : existsb p l = true -> exists x, x ∈ l /\ p x = true /\ f x ∈ update_first p f l.
Proof.
  induction l as [|x l IH]; [done|]. simpl. destruct (p x) eqn:E.
  - intros _. exists x. split; [left|]. split; [done|left].
  - simpl. intros (y & Hy & Hp & Hf)%IH. exists y. split; [by right|]. split; [done|by right].
Qed.

Lemma ensure_default_some l : l <> [] ->
  exists p, p ∈ ensure_default l /\ plan_active p = true /\ plan_is_default p = true.
Proof.
  intros Hl. unfold ensure_default.
  set (l' := if existsb plan_active l then l else update_first (fun _ => true) (set_active true) l).
  assert (Hact : existsb plan_active l' = true).
  { unfold l'. destruct (existsb plan_active l) eqn:E; [done|]. destruct l as [|x l]; [done|]. done. }
  destruct (existsb (fun p => plan_active p && plan_is_default p) l') eqn:E.
  - apply existsb_exists in E as (p & Hp & [Ha Hd]%andb_true_iff). exists p.
    split; [by apply list_elem_of_In|]. done.
  - destruct (update_first_some _ (set_is_default true) _ Hact) as (x & _ & Ha & Hx).
    exists (set_is_default true x). done.
Qed.

Lemma partial_ok_ensure l : partial_ok l -> partial_ok (ensure_default l).
Proof.
  intros [Hi Hd]. pose proof (ensure_default_map plan_id l) as Em.
  pose proof (ensure_default_map plan_duration_days l) as Ed. split; [by rewrite Em|].
  intros p Hp. assert (Hin : plan_duration_days p ∈ map plan_duration_days (ensure_default l))
    by (apply in_map_b; by exists p).
  rewrite Ed in Hin by done. apply in_map_b in Hin as (q & -> & Hq). by apply Hd.
Qed.

(** Whatever an administrator sends or a file holds, reading it as plans gives between one
    and 32 plans, with IDs of their own and positive durations; some active plan is the
    default, unless plans beyond 32 were cut off. *)
Theorem normalize_plans_ok `{PyUnicode} price raw plans :
  _normalize_plans price raw = Ok plans -> plans_ok plans.
Proof.
  unfold _normalize_plans. destruct (rfold _ _ _) as [l|] eqn:E; [|done]. simpl. intros [= <-].
  apply (rfold_inv partial_ok) in E; [|by eauto using add_plan_ok|by split; [constructor|intros p ?%elem_of_nil]].
  set (l' := match l with [] => _ | _ => l end).
  assert (Hl : partial_ok l') by (unfold l'; destruct l; [apply default_plans_ok|done]).
  assert (Hn : l' <> []) by (unfold l'; by destruct l).
  apply partial_ok_ensure in Hl as [Hi Hd].
  pose proof (ensure_default_some l' Hn) as (p & Hp & Hf).
  pose proof (sorted_by_perm plan_key (ensure_default l')) as Hperm.
  set (s := sorted_by plan_key (ensure_default l')) in *. rewrite <- Hperm in Hp.
  assert (Hsub : forall q, q ∈ take 32 s -> q ∈ s) 
    by (intros q (i & Hi' & _)%elem_of_take; by eapply list_elem_of_lookup_2).
  split.
  - destruct s as [|q s']; [by apply elem_of_nil in Hp|done].
  - rewrite length_take. lia.
  - apply (sublist_NoDup _ (map plan_id s)); [by rewrite Hperm|]. apply (fmap_sublist plan_id), sublist_take.
  - intros q Hq. apply Hd. rewrite <- Hperm. by apply Hsub.
  - intros Hlen. rewrite length_take in Hlen. rewrite take_ge by lia. by exists p.
Qed.

Lemma normalize_plans_ok_witness : exists plans,
  _normalize_plans (H := ascii_unicode) (float_of_frac 299 1)
    (JList [JObj [("id", JStr "week"); ("name", JStr "Week"); ("price_rub", JInt 99); ("duration_days", JInt 7)];
            JObj [("id", JStr "week"); ("name", JStr "Week again"); ("price_rub", JInt 1); ("duration_days", JInt 7)];
            JObj [("id", JStr "never"); ("name", JStr "Never"); ("price_rub", JInt 1); ("duration_days", JInt 0)]])
  = Ok plans /\ map plan_id plans = ["week"] /\ plans_ok plans.
Proof.
  eexists. split; [vm_compute; reflexivity|]. split; [reflexivity|].
  apply (normalize_plans_ok (H := ascii_unicode) (float_of_frac 299 1)
    (JList [JObj [("id", JStr "week"); ("name", JStr "Week"); ("price_rub", JInt 99); ("duration_days", JInt 7)]])).
  vm_compute. reflexivity.
Defined.
