(* ===== verification/SetkaPlusState.v ===== *)
(** * SetkaPlusState: what the Setka Plus handler keeps (handlers/setka_plus.py)

    The attributes of [SetkaPlusHandler]; the two files it reads and writes; the account data
    of the users, where subscriptions, payments and sticker packs are stored; and the tables
    of vouchers.  The methods run one after another.  [plus_clock] gives the times, and
    [uuid4_hex] the random IDs, in the order in which they are asked for. *)
From S2P Require Import Prelude PyVal PySort PyState PyFloat SetkaPlusPlans.
From Stdlib Require Import Ascii String.
Open Scope string_scope.
Open Scope list_scope.
Open Scope Z_scope.
Open Scope py_scope.
Open Scope st_scope.

Module AccountDataTypes.
Definition SETKA_PLUS_SUBSCRIPTION := "io.setka.plus.subscription".
Definition SETKA_PLUS_STICKER_PACKS := "io.setka.plus.sticker_packs".
Definition SETKA_PLUS_PAYMENTS := "io.setka.plus.payments".
End AccountDataTypes.

Module PlusCodes.
Definition UNKNOWN := "M_UNKNOWN".
Definition BAD_JSON := "M_BAD_JSON".
Definition FORBIDDEN := "M_FORBIDDEN".
Definition NOT_FOUND := "M_NOT_FOUND".
Definition INVALID_PARAM := "M_INVALID_PARAM".
Definition MISSING_PARAM := "M_MISSING_PARAM".
End PlusCodes.

(** ** The attributes that are settings *)

Record PlusConfig := {
  plus_price_rub : pyfloat;
  plus_duration_days : Z;
  yoomoney_token : string;
  yoomoney_receiver : string;
  yoomoney_return_url : string;
  yoomoney_notification_secret : string;
  robokassa_merchant_login : string;
  robokassa_password1 : string;
  robokassa_password2 : string;
  robokassa_test_password1 : string;
  robokassa_test_password2 : string;
  robokassa_is_test : bool;
  robokassa_payment_url : string;
  robokassa_callback_base_url : string;
  payanyway_mnt_id : string;
  payanyway_integrity_code : string;
  payanyway_is_test : bool;
  payanyway_payment_url : string;
  payanyway_callback_base_url : string;
  payanyway_api_username : string;
  payanyway_api_password : string;
  payanyway_api_payer : string;
  payanyway_api_service_url : string;
  payanyway_simpla_self : bool;
  payanyway_override_urls : bool;
  share_link_prefix : string;
  share_secret : string;
  share_token_ttl_ms : Z;
  support_email : string;
  payment_mode : string;
  voucher_footer_text : string
}.

(** ** The tables *)

Record Voucher := {
  v_code : string;
  v_plan_id : option string;
  v_duration_days : option Z;
  v_expires_at : Z;
  v_max_redemptions : Z;
  v_redemption_count : Z;
  v_max_per_user : Z;
  v_note : option string;
  v_is_active : bool;
  v_created_at : Z
}.

Record Redemption := { r_code : string; r_user_id : string; r_redeemed_at : Z }.

(** ** The handler *)

Record SetkaPlusHandler := {
  config : PlusConfig;
  (** the files' content, where they can be read and hold JSON *)
  server_config_file : option json;
  plans_file : option json;
  plans_cache : option (list Plan);
  account_data : gmap (string * string) json;
  vouchers : list Voucher;
  redemptions : list Redemption;
  voucher_tables_ready : bool;
  payanyway_pending_users : list (string * string);
  ticks : nat;
  uuids : nat;
  randoms : nat
}.

Definition set_config (c : PlusConfig) (h : SetkaPlusHandler) : SetkaPlusHandler :=
  {| config := c; server_config_file := server_config_file h; plans_file := plans_file h;
     plans_cache := plans_cache h; account_data := account_data h; vouchers := vouchers h;
     redemptions := redemptions h; voucher_tables_ready := voucher_tables_ready h;
     payanyway_pending_users := payanyway_pending_users h; ticks := ticks h; uuids := uuids h;
     randoms := randoms h |}.
Definition set_files (c p : option json) (h : SetkaPlusHandler) : SetkaPlusHandler :=
  {| config := config h; server_config_file := c; plans_file := p;
     plans_cache := plans_cache h; account_data := account_data h; vouchers := vouchers h;
     redemptions := redemptions h; voucher_tables_ready := voucher_tables_ready h;
     payanyway_pending_users := payanyway_pending_users h; ticks := ticks h; uuids := uuids h;
     randoms := randoms h |}.
Definition set_plans_cache (c : option (list Plan)) (h : SetkaPlusHandler) : SetkaPlusHandler :=
  {| config := config h; server_config_file := server_config_file h; plans_file := plans_file h;
     plans_cache := c; account_data := account_data h; vouchers := vouchers h;
     redemptions := redemptions h; voucher_tables_ready := voucher_tables_ready h;
     payanyway_pending_users := payanyway_pending_users h; ticks := ticks h; uuids := uuids h;
     randoms := randoms h |}.
Definition set_account_data (f : gmap (string * string) json -> gmap (string * string) json)
    (h : SetkaPlusHandler) : SetkaPlusHandler :=
  {| config := config h; server_config_file := server_config_file h; plans_file := plans_file h;
     plans_cache := plans_cache h; account_data := f (account_data h); vouchers := vouchers h;
     redemptions := redemptions h; voucher_tables_ready := voucher_tables_ready h;
     payanyway_pending_users := payanyway_pending_users h; ticks := ticks h; uuids := uuids h;
     randoms := randoms h |}.
Definition set_vouchers (f : list Voucher -> list Voucher) (h : SetkaPlusHandler) : SetkaPlusHandler :=
  {| config := config h; server_config_file := server_config_file h; plans_file := plans_file h;
     plans_cache := plans_cache h; account_data := account_data h; vouchers := f (vouchers h);
     redemptions := redemptions h; voucher_tables_ready := voucher_tables_ready h;
     payanyway_pending_users := payanyway_pending_users h; ticks := ticks h; uuids := uuids h;
     randoms := randoms h |}.
Definition set_redemptions (f : list Redemption -> list Redemption) (h : SetkaPlusHandler)
    : SetkaPlusHandler :=
  {| config := config h; server_config_file := server_config_file h; plans_file := plans_file h;
     plans_cache := plans_cache h; account_data := account_data h; vouchers := vouchers h;
     redemptions := f (redemptions h); voucher_tables_ready := voucher_tables_ready h;
     payanyway_pending_users := payanyway_pending_users h; ticks := ticks h; uuids := uuids h;
     randoms := randoms h |}.
Definition set_tables_ready (h : SetkaPlusHandler) : SetkaPlusHandler :=
  {| config := config h; server_config_file := server_config_file h; plans_file := plans_file h;
     plans_cache := plans_cache h; account_data := account_data h; vouchers := vouchers h;
     redemptions := redemptions h; voucher_tables_ready := true;
     payanyway_pending_users := payanyway_pending_users h; ticks := ticks h; uuids := uuids h;
     randoms := randoms h |}.
Definition set_pending_users (f : list (string * string) -> list (string * string))
    (h : SetkaPlusHandler) : SetkaPlusHandler :=
  {| config := config h; server_config_file := server_config_file h; plans_file := plans_file h;
     plans_cache := plans_cache h; account_data := account_data h; vouchers := vouchers h;
     redemptions := redemptions h; voucher_tables_ready := voucher_tables_ready h;
     payanyway_pending_users := f (payanyway_pending_users h); ticks := ticks h; uuids := uuids h;
     randoms := randoms h |}.
(** The counters of what was asked of the clock and the random sources. *)
Definition set_counters (t u r : nat) (h : SetkaPlusHandler) : SetkaPlusHandler :=
  {| config := config h; server_config_file := server_config_file h; plans_file := plans_file h;
     plans_cache := plans_cache h; account_data := account_data h; vouchers := vouchers h;
     redemptions := redemptions h; voucher_tables_ready := voucher_tables_ready h;
     payanyway_pending_users := payanyway_pending_users h; ticks := t; uuids := u;
     randoms := r |}.

Abbreviation PlusM := (St SetkaPlusHandler).

(** ** What the handler is given *)

Class PlusEnv `{PyUnicode, PyRepr} := {
  plus_clock : nat -> Z;
  uuid4_hex : nat -> string;
  random_inv_id : nat -> Z;
  (** the files' directories can be written to *)
  config_writable : bool;
  plans_writable : bool;
  md5_hexdigest : string -> string;
  hmac_sha256 : string -> string -> string
}.

Section env.
Context `{PlusEnv}.

Definition _now_ms : PlusM Z :=
  fun h => (Ok (plus_clock (ticks h)), set_counters (S (ticks h)) (uuids h) (randoms h) h).
Definition new_uuid : PlusM string :=
  fun h => (Ok (uuid4_hex (uuids h)), set_counters (ticks h) (S (uuids h)) (randoms h) h).
Definition randint : PlusM Z :=
  fun h => (Ok (random_inv_id (randoms h)), set_counters (ticks h) (uuids h) (S (randoms h)) h).

(** ** Account data (handlers/account_data.py, storage/databases/main/account_data.py) *)

(** The encoder refuses infinities and NaN. *)
Fixpoint encodable (j : json) : bool :=
  match j with
  | JFloat f => finite f
  | JList l => forallb encodable l
  | JObj kvs => forallb (fun kv => encodable kv.2) kvs
  | _ => true
  end.

Definition get_global_account_data_by_type_for_user (user_id data_type : string) : PlusM json :=
  st_read (fun h => default JNull (account_data h !! (user_id, data_type))).

Definition add_account_data_for_user (user_id data_type : string) (content : json) : PlusM unit :=
  if encodable content then st_modify (set_account_data (<[(user_id, data_type) := content]>))
  else st_raise ValueError.

(** The content becomes an empty object, if there is any. *)
Definition remove_account_data_for_user (user_id data_type : string) : PlusM unit :=
  st_modify (set_account_data (alter (fun _ => JObj []) (user_id, data_type))).

(** ** The plans *)

Definition _persist_plans_file (plans : list Plan) : PlusM unit :=
  if plans_writable then
    st_modify (fun h => set_files (server_config_file h)
                          (Some (JObj [("plans", JList (map plan_json plans))])) h)
  else st_ret tt.

Definition _load_plans : PlusM (list Plan) :=
  let! cache := st_read plans_cache in
  match cache with
  | Some plans => st_ret plans
  | None =>
      let! parsed := st_read plans_file in
      let! c := st_read config in
      let raw := match parsed with
                 | Some (JObj o) => oget o "plans" JNull
                 | Some j => j
                 | None => JNull
                 end in
      let! plans := st_lift (_normalize_plans (plus_price_rub c) raw) in
      st_modify (set_plans_cache (Some plans)) ;;!
      _persist_plans_file plans ;;!
      st_ret plans
  end.

Definition get_plans : PlusM (list Plan) := _load_plans.

Definition set_plans (plans : json) : PlusM (list Plan) :=
  let! c := st_read config in
  let! normalized := st_lift (_normalize_plans (plus_price_rub c) plans) in
  st_modify (set_plans_cache (Some normalized)) ;;!
  _persist_plans_file normalized ;;!
  st_ret normalized.

Definition find_plan (id : json) : PlusM (option Plan) :=
  match _clean_str id 64 with
  | None => st_ret None
  | Some _ => let! plans := _load_plans in st_ret (_find_plan_by_id plans id)
  end.

Definition resolve_plan (id : json) : PlusM Plan :=
  let! plans := _load_plans in
  let! c := st_read config in
  st_ret (_resolve_plan (plus_price_rub c) plans id).

(** ** Analytics *)

(** The handler has no attribute [_hs], and the exception is swallowed: nothing is recorded. *)
Definition _safe_record_analytics : PlusM unit := st_ignore (@st_raise SetkaPlusHandler unit AttributeError).

(** A transaction that raises leaves the database as it was. *)
Definition runInteraction {A} (txn : PlusM A) : PlusM A :=
  fun h => match txn h with
           | (Ok a, h') => (Ok a, h')
           | (Err e, _) => (Err e, h)
           end.
End env.
