(* ===== verification/SetkaPlusSubscription.v ===== *)
(** * SetkaPlusSubscription: subscriptions and payments (handlers/setka_plus.py)

    A user's subscription and the list of his payments are documents in his account data.
    Every read brings them into shape, and every write goes through a read. *)
From S2P Require Import Prelude PyVal PySort PyState PyFloat SetkaPlusPlans SetkaPlusState.
From Stdlib Require Import Ascii String.
Open Scope string_scope.
Open Scope list_scope.
Open Scope Z_scope.
Open Scope py_scope.
Open Scope st_scope.

Definition _SUBSCRIPTION_STATUS : list string := ["inactive"; "pending"; "active"; "expired"; "canceled"].

Definition DAY_MS : Z := 24 * 60 * 60 * 1000.

(** [d\[k\] = v] if there is a value *)
Definition set_opt (k : string) (v : option json) (d : obj) : obj :=
  match v with Some v => dset k v d | None => d end.

Section subscription.
Context `{PlusEnv}.

(** ** [_normalize_subscription] *)

(** With the time, the plan that is the default and the plan of the tier, if there is one. *)
Definition normalize_status (raw : json) (is_active : bool) : string :=
  let status := py_lower (default "inactive" (_clean_str raw 32)) in
  let status := if bool_decide (status ∈ _SUBSCRIPTION_STATUS) then status else "inactive" in
  if bool_decide (status = "active") && negb is_active then "expired"
  else if bool_decide (status ∈ ["inactive"; "expired"; "canceled"]) && is_active then "active"
  else status.

Definition positive (n : option Z) (default : Z) : Z :=
  match n with Some n => if n <=? 0 then default else n | None => default end.

Definition normalize_raw (now : Z) (tier : string) (resolved_plan : Plan) (raw : obj) : result obj :=
  let get k := oget raw k JNull in
  let* started_at := _clean_timestamp_ms (get "started_at") true in
  let* expires_at := _clean_timestamp_ms (get "expires_at") true in
  let* updated_at := _clean_timestamp_ms (get "updated_at") false in
  let* amount := _clean_float (get "amount") in
  let* duration_days := _clean_int (get "duration_days") in
  let* price_rub := _clean_float (get "price_rub") in
  let expires_at := default 0 expires_at in
  let is_active := now <? expires_at in
  Ok (set_opt "currency" (Some (JStr (default "RUB" (_clean_str (get "currency") 16))))
       (set_opt "amount" ((fun a => JFloat (round2 a)) <$> amount)
       (set_opt "payment_provider" (JStr <$> _clean_str (get "payment_provider") 64)
       (set_opt "last_payment_id" (JStr <$> _clean_str (get "last_payment_id") 255)
       [("tier", JStr tier); ("status", JStr (normalize_status (get "status") is_active));
        ("started_at", JInt (default 0 started_at)); ("expires_at", JInt expires_at);
        ("updated_at", JInt (default now updated_at)); ("is_active", JBool is_active);
        ("price_rub", JFloat (round2 (default (plan_price_rub resolved_plan) price_rub)));
        ("duration_days", JInt (positive duration_days (plan_duration_days resolved_plan)));
        ("plan_name", JStr (default (plan_name resolved_plan) (_clean_str (get "plan_name") 120)))])))).

Definition _normalize_subscription (raw : json) : PlusM obj :=
  let! now := _now_ms in
  let! default_plan := resolve_plan JNull in
  match raw with
  | JObj raw =>
      let tier := default (plan_id default_plan) (_clean_str (oget raw "tier" JNull) 64) in
      let! matching_plan := find_plan (JStr tier) in
      st_lift (normalize_raw now tier (default default_plan matching_plan) raw)
  | _ =>
      st_ret [("tier", JStr (plan_id default_plan)); ("plan_name", JStr (plan_name default_plan));
              ("status", JStr "inactive"); ("expires_at", JInt 0); ("started_at", JInt 0);
              ("updated_at", JInt now); ("is_active", JBool false);
              ("price_rub", JFloat (plan_price_rub default_plan));
              ("duration_days", JInt (plan_duration_days default_plan))]
  end.

Definition get_subscription (user_id : string) : PlusM obj :=
  let! raw := get_global_account_data_by_type_for_user user_id
                AccountDataTypes.SETKA_PLUS_SUBSCRIPTION in
  _normalize_subscription raw.

(** [o.get("is_active") is True] *)
Definition active_flag (o : obj) : bool :=
  match oget o "is_active" JNull with JBool b => b | _ => false end.

(** ** [set_subscription] *)

Definition set_status (updates payload : obj) : result obj :=
  match _clean_str (oget updates "status" JNull) 32 with
  | None => Ok payload
  | Some status =>
      let lowered := py_lower status in
      if bool_decide (lowered ∈ _SUBSCRIPTION_STATUS) then Ok (dset "status" (JStr lowered) payload)
      else Err (SynapseError 400 "Unsupported status" PlusCodes.INVALID_PARAM)
  end.

Definition set_tier (updates payload : obj) : PlusM obj :=
  match _clean_str (oget updates "tier" JNull) 64 with
  | None => st_ret payload
  | Some tier =>
      let payload := dset "tier" (JStr tier) payload in
      let! plan := find_plan (JStr tier) in
      st_ret match plan with
             | Some p => dset "price_rub" (JFloat (plan_price_rub p))
                           (dset "duration_days" (JInt (plan_duration_days p))
                             (dset "plan_name" (JStr (plan_name p)) payload))
             | None => payload
             end
  end.

Definition set_fields (updates payload : obj) : result obj :=
  let get k := oget updates k JNull in
  let* started_at := _clean_timestamp_ms (get "started_at") true in
  let* expires_at := _clean_timestamp_ms (get "expires_at") true in
  let* amount := _clean_float (get "amount") in
  Ok (set_opt "currency" (JStr <$> _clean_str (get "currency") 16)
       (set_opt "amount" ((fun a => JFloat (round2 a)) <$> amount)
       (set_opt "payment_provider" (JStr <$> _clean_str (get "payment_provider") 64)
       (set_opt "last_payment_id" (JStr <$> _clean_str (get "last_payment_id") 255)
       (set_opt "expires_at" (JInt <$> expires_at)
       (set_opt "started_at" (JInt <$> started_at) payload)))))).

Definition set_subscription (user_id : string) (updates : obj) : PlusM obj :=
  let! existing := get_subscription user_id in
  let was_active := active_flag existing in
  let! payload := st_lift (set_status updates existing) in
  let! payload := set_tier updates payload in
  let! payload := st_lift (set_fields updates payload) in
  let! now := _now_ms in
  let! payload := _normalize_subscription (JObj (dset "updated_at" (JInt now) payload)) in
  add_account_data_for_user user_id AccountDataTypes.SETKA_PLUS_SUBSCRIPTION (JObj payload) ;;!
  (if active_flag payload && negb was_active then _safe_record_analytics else st_ret tt) ;;!
  st_ret payload.

Definition _assert_plus_active (user_id : string) : PlusM unit :=
  let! subscription := get_subscription user_id in
  if active_flag subscription then st_ret tt
  else st_raise (SynapseError 403 "Setka Plus subscription is required." PlusCodes.FORBIDDEN).

(** ** Payments *)

Definition _clean_assistant_fields (raw : obj) : obj :=
  fold_left (fun cleaned kv =>
    match _clean_str (JStr kv.1) 64, _clean_str kv.2 2048 with
    | Some field_name, Some field_value => dset field_name (JStr field_value) cleaned
    | _, _ => cleaned
    end) raw [].

(** The optional fields of a payment, in the order in which they are set. *)
Definition payment_fields (item entry : obj) : result obj :=
  let get k := oget item k JNull in
  let* amount := _clean_float (get "amount") in
  Ok (set_opt "message" (JStr <$> _clean_str (get "message") 255)
       (set_opt "plan_id" (JStr <$> _clean_str (get "plan_id") 64)
       (set_opt "label" (JStr <$> _clean_str (get "label") 255)
       (set_opt "request_id" (JStr <$> _clean_str (get "request_id") 255)
       (set_opt "currency" (JStr <$> _clean_str (get "currency") 16)
       (set_opt "amount" ((fun a => JFloat (round2 a)) <$> amount) entry)))))).

Definition clean_fields_of (item : obj) : option json :=
  match oget item "assistant_fields" JNull with
  | JObj fields => match _clean_assistant_fields fields with [] => None | fields => Some (JObj fields) end
  | _ => None
  end.

(** The time of a payment, or now. *)
Definition created_at_of (item : obj) : PlusM Z :=
  let! created_at := st_lift (_clean_timestamp_ms (oget item "created_at" JNull) false) in
  match created_at with Some t => st_ret t | None => _now_ms end.

Definition payment_head (payment_id status : string) (item : obj) (created_at : Z) : obj :=
  [("payment_id", JStr payment_id); ("status", JStr (py_lower status));
   ("provider", JStr (default "unknown" (_clean_str (oget item "provider" JNull) 64)));
   ("created_at", JInt created_at)].

Definition clean_payment (normalized : list obj) (item : json) : PlusM (list obj) :=
  match item with
  | JObj item =>
      match _clean_str (oget item "payment_id" JNull) 255, _clean_str (oget item "status" JNull) 32 with
      | Some payment_id, Some status =>
          let! created_at := created_at_of item in
          let! entry := st_lift (payment_fields item (payment_head payment_id status item created_at)) in
          st_ret (normalized ++ [set_opt "assistant_fields" (clean_fields_of item) entry])
      | _, _ => st_ret normalized
      end
  | _ => st_ret normalized
  end.

Definition payment_time (p : obj) : Z := match oget p "created_at" (JInt 0) with JInt n => n | _ => 0 end.

(** Newest first, those of the same time as they are. *)
Definition newest_first (l : list obj) : list obj := sorted_by (fun p => - payment_time p) l.

Definition get_payments (user_id : string) : PlusM (list obj) :=
  let! raw := get_global_account_data_by_type_for_user user_id AccountDataTypes.SETKA_PLUS_PAYMENTS in
  match raw with
  | JObj raw =>
      match oget raw "payments" JNull with
      | JList raw_payments =>
          let! normalized := st_fold clean_payment [] raw_payments in
          st_ret (take 100 (newest_first normalized))
      | _ => st_ret []
      end
  | _ => st_ret []
  end.

Definition has_payment_id (payment_id : string) (item : obj) : bool :=
  jeqs (oget item "payment_id" JNull) payment_id.

Definition get_payment_status (user_id payment_id : string) : PlusM (option obj) :=
  let! payments := get_payments user_id in
  match List.find (has_payment_id payment_id) payments with
  | None => st_ret None
  | Some item =>
      let status := py_lower (py_str (oget item "status" (JStr "pending"))) in
      let status := if bool_decide (status = "success") then "paid" else status in
      let! subscription := get_subscription user_id in
      st_ret (Some (set_opt "message" (JStr <$> _clean_str (oget item "message" JNull) 255)
                     (set_opt "plan_id" (match oget item "plan_id" JNull with
                                         | JStr "" => None
                                         | JStr p => Some (JStr p)
                                         | _ => None
                                         end)
                     [("payment_id", JStr payment_id); ("status", JStr status);
                      ("subscription_active", JBool (active_flag subscription))])))
  end.

Definition find_payment_by_inv_id (user_id inv_id : string) : PlusM (option obj) :=
  let! payments := get_payments user_id in
  st_ret (List.find (fun item => bool_decide (py_str (oget item "request_id" (JStr "")) = inv_id)) payments).

(** The fields a payment keeps when it is recorded again without new ones. *)
Definition carried_fields (payment : obj) (existing : option obj) : option json :=
  match oget payment "assistant_fields" JNull with
  | JObj _ => clean_fields_of payment
  | _ => match existing with
         | Some e => match oget e "assistant_fields" JNull with
                     | JObj [] => None
                     | JObj fields => Some (JObj fields)
                     | _ => None
                     end
         | None => None
         end
  end.

(** The payments that are pending at PayAnyWay. *)
Definition track_pending (user_id payment_id : string) (entry : obj) : PlusM unit :=
  if jeqs (oget entry "provider" JNull) "payanyway" then
    let status := py_lower (py_str (oget entry "status" (JStr ""))) in
    if bool_decide (status = "pending") then st_modify (set_pending_users (dset payment_id user_id))
    else if bool_decide (status ∈ ["paid"; "failed"; "canceled"])
    then st_modify (set_pending_users (ddel payment_id))
    else st_ret tt
  else st_ret tt.

Definition record_payment (user_id : string) (payment : obj) : PlusM unit :=
  let! current := get_payments user_id in
  match _clean_str (oget payment "payment_id" JNull) 255, _clean_str (oget payment "status" JNull) 32 with
  | Some payment_id, Some status =>
      let existing := List.find (has_payment_id payment_id) current in
      let! created_at := created_at_of payment in
      let! entry := st_lift (payment_fields payment (payment_head payment_id status payment created_at)) in
      let entry := set_opt "assistant_fields" (carried_fields payment existing) entry in
      let current := List.filter (fun item => negb (has_payment_id payment_id item)) current in
      add_account_data_for_user user_id AccountDataTypes.SETKA_PLUS_PAYMENTS
        (JObj [("payments", JList (map JObj (take 100 (entry :: current))))]) ;;!
      track_pending user_id payment_id entry ;;!
      _safe_record_analytics
  | _, _ =>
      st_raise (SynapseError 400 "payment_id and status are required" PlusCodes.INVALID_PARAM)
  end.

(** Only the first payment with the ID is changed. *)
Definition mark_payment_failed (user_id payment_id message : string) : PlusM unit :=
  let! payments := get_payments user_id in
  match List.find (has_payment_id payment_id) payments with
  | None => st_ret tt
  | Some item =>
      record_payment user_id
        (dset "message" (JStr (utf8_take 255 message))
          (dset "status" (JStr "failed") (dset "payment_id" (JStr payment_id) item)))
  end.

(** ** [activate_subscription] *)

(** [amount if amount is not None and amount > 0 else the plan's price], to two decimals. *)
Definition effective_amount (amount : option pyfloat) (plan : Plan) : pyfloat :=
  match amount with
  | Some a => if fpos a then round2 a else round2 (plan_price_rub plan)
  | None => round2 (plan_price_rub plan)
  end.

(** [existing.get("started_at") or now] *)
Definition started_or_now (existing : obj) (now : Z) : json := py_or (oget existing "started_at" JNull) (JInt now).

(** What is stored when a subscription is activated. *)
Definition activated (existing : obj) (plan : Plan) (now previous_expiry days : Z) (amount : pyfloat)
    (payment_id payment_provider currency : string) : obj :=
  let start := if now <? previous_expiry then previous_expiry else now in
  [("tier", JStr (plan_id plan)); ("plan_name", JStr (plan_name plan)); ("status", JStr "active");
   ("started_at", started_or_now existing now); ("expires_at", JInt (start + days * 24 * 60 * 60 * 1000));
   ("last_payment_id", JStr payment_id); ("payment_provider", JStr payment_provider);
   ("amount", JFloat amount); ("currency", JStr currency); ("duration_days", JInt days);
   ("price_rub", JFloat amount); ("updated_at", JInt now)].

Definition activate_subscription (user_id payment_id payment_provider : string)
    (amount : option pyfloat) (the_plan_id : json) (duration_days : option Z) (currency : string)
    : PlusM obj :=
  let! plan := resolve_plan the_plan_id in
  let days := match duration_days with
              | Some d => if 0 <? d then d else plan_duration_days plan
              | None => plan_duration_days plan
              end in
  let amount := effective_amount amount plan in
  let! now := _now_ms in
  let! existing := get_subscription user_id in
  let! previous := st_lift (_clean_timestamp_ms (oget existing "expires_at" JNull) true) in
  let payload := activated existing plan now (default 0 previous) days amount payment_id
                   payment_provider currency in
  add_account_data_for_user user_id AccountDataTypes.SETKA_PLUS_SUBSCRIPTION (JObj payload) ;;!
  record_payment user_id
    [("payment_id", JStr payment_id); ("provider", JStr payment_provider); ("status", JStr "success");
     ("amount", JFloat amount); ("currency", JStr currency); ("plan_id", JStr (plan_id plan));
     ("created_at", JInt now)] ;;!
  _safe_record_analytics ;;!
  _normalize_subscription (JObj payload).
End subscription.

(** ** The account data API (rest/client/account_data.py)

    Clients read and write their account data, where Setka Plus keeps what they bought. *)

Section account_data_api.
Context `{PlusEnv}.

Definition _check_can_set_account_data_type (account_data_type : string) : result unit :=
  if bool_decide (account_data_type = "m.fully_read")
  then Err (SynapseError 405 "Cannot set m.fully_read through this API. Use /rooms/!roomId:server.name/read_markers"
              PlusCodes.BAD_JSON)
  else if bool_decide (account_data_type = "m.push_rules")
  then Err (SynapseError 405 "Cannot set m.push_rules through this API. Use /pushrules" PlusCodes.BAD_JSON)
  else Ok tt.

(** [requester] is the user of the access token, [body] the JSON of the request. *)
Definition account_data_put (msc3391_enabled : bool) (requester user_id account_data_type : string)
    (body : result obj) : PlusM unit :=
  if negb (String.eqb user_id requester)
  then st_raise (AuthError 403 "Cannot add account data for other users.")
  else
    st_lift (_check_can_set_account_data_type account_data_type) ;;!
    let! body := st_lift body in
    match msc3391_enabled, body with
    | true, [] => remove_account_data_for_user user_id account_data_type
    | _, _ => add_account_data_for_user user_id account_data_type (JObj body)
    end.

Definition account_data_delete (requester user_id account_data_type : string) : PlusM unit :=
  if negb (String.eqb user_id requester)
  then st_raise (AuthError 403 "Cannot delete account data for other users.")
  else
    st_lift (_check_can_set_account_data_type account_data_type) ;;!
    remove_account_data_for_user user_id account_data_type.
End account_data_api.
