(* ===== verification/SetkaPlusVouchers.v ===== *)
(** * SetkaPlusVouchers: promo codes (handlers/setka_plus.py)

    A voucher can be redeemed for a subscription until it expires, so many times in all and
    so many times by a user.  Redeeming is a transaction over the two tables; what it buys is
    activated afterwards.  An integer of 64 bits or less fits a column. *)
From S2P Require Import Prelude PyVal PySort PyState PyFloat SetkaDb SetkaPlusPlans.
From S2P Require Import SetkaPlusState SetkaPlusSubscription.
From Stdlib Require Import Ascii String.
Open Scope string_scope.
Open Scope list_scope.
Open Scope Z_scope.
Open Scope py_scope.
Open Scope st_scope.

(** ** The engine's refusals *)

Definition unique_violation : exc := PyException "UNIQUE constraint failed".

(** [bind] a parameter of a statement. *)
Definition bind_int (n : Z) : result unit :=
  if (- 2 ^ 63 <=? n) && (n <? 2 ^ 63) then Ok tt else Err OverflowError.
Definition bind_opt (n : option Z) : result unit :=
  match n with Some n => bind_int n | None => Ok tt end.

(** The test of the text of an exception. *)
Definition is_duplicate (e : exc) : bool :=
  match e with
  | PyException msg => has_substring "UNIQUE" (upper msg) || has_substring "duplicate" (lower msg)
  | _ => false
  end.

Section vouchers.
Context `{PlusEnv}.

Definition _ensure_voucher_tables : PlusM unit := st_modify set_tables_ready.

Definition remove_spaces (s : string) : string := str_join "" (split_all " " s).

Definition _normalize_voucher_code (code : json) : option string :=
  match code with
  | JStr code =>
      let normalized := remove_spaces (py_upper (strip code)) in
      if String.eqb normalized "" || (64 <? utf8_len normalized) then None
      else if forallb (fun ch => py_isalnum ch || String.eqb ch "-") (utf8_chars normalized)
      then Some normalized
      else None
  | _ => None
  end.

Definition has_code (code : string) (v : Voucher) : bool := String.eqb (v_code v) code.

Definition list_vouchers : PlusM (list Voucher) :=
  _ensure_voucher_tables ;;! st_read (fun h => sorted_by (fun v => - v_created_at v) (vouchers h)).

Definition get_voucher (code : json) : PlusM Voucher :=
  _ensure_voucher_tables ;;!
  match _normalize_voucher_code code with
  | None => st_raise (SynapseError 400 "Invalid voucher code" PlusCodes.INVALID_PARAM)
  | Some normalized =>
      let! voucher := runInteraction (st_read (fun h => fetchone (has_code normalized) (vouchers h))) in
      match voucher with
      | None => st_raise (SynapseError 404 "Voucher not found" PlusCodes.NOT_FOUND)
      | Some v => st_ret v
      end
  end.

(** [_clean_int(value) or 1] *)
Definition limit_or_one (value : json) : result Z :=
  let* n := _clean_int value in Ok match n with Some 0 | None => 1 | Some n => n end.

Definition insert_voucher (v : Voucher) : PlusM unit :=
  st_lift (bind_opt (v_duration_days v) ;;; bind_int (v_expires_at v) ;;;
           bind_int (v_max_redemptions v) ;;; bind_int (v_max_per_user v) ;;; bind_int (v_created_at v)) ;;!
  let! exists_already := st_read (fun h => row_exists (has_code (v_code v)) (vouchers h)) in
  if exists_already : bool then st_raise unique_violation
  else st_modify (set_vouchers (fun rows => rows ++ [v])).

(** [try: ... except Exception as exc] *)
Definition refuse_duplicate {A} (c : PlusM A) : PlusM A :=
  fun h => match c h with
           | (Err e, h') =>
               (Err (if is_duplicate e
                     then SynapseError 409 "Voucher code already exists" PlusCodes.NOT_FOUND else e), h')
           | r => r
           end.

Definition new_voucher_code (code : json) : PlusM string :=
  match _normalize_voucher_code (py_or code (JStr "")) with
  | Some code => st_ret code
  | None =>
      let! a := new_uuid in
      let! b := new_uuid in
      st_ret ("SETKA-" ++ py_upper (utf8_take 4 a) ++ "-" ++ py_upper (utf8_take 4 b))%string
  end.

(** The plan of a voucher, or a duration of its own, has to be there. *)
Definition check_what_it_buys (plan_id : option string) (duration_days : option Z) : result unit :=
  match plan_id, duration_days with
  | Some _, _ => Ok tt
  | None, Some d =>
      if d <=? 0
      then Err (SynapseError 400 "plan_id or duration_days is required" PlusCodes.MISSING_PARAM)
      else Ok tt
  | None, None => Err (SynapseError 400 "plan_id or duration_days is required" PlusCodes.MISSING_PARAM)
  end.

Definition check_plan (plan_id : option string) : PlusM unit :=
  match plan_id with
  | None => st_ret tt
  | Some id =>
      let! plan := find_plan (JStr id) in
      match plan with
      | None => st_raise (SynapseError 400 "Unknown plan_id" PlusCodes.INVALID_PARAM)
      | Some _ => st_ret tt
      end
  end.

Definition create_voucher (body : json) : PlusM Voucher :=
  _ensure_voucher_tables ;;!
  match body with
  | JObj body =>
      let get k := oget body k JNull in
      let! code := new_voucher_code (get "code") in
      let plan_id := _clean_str (get "plan_id") 64 in
      let! duration_days := st_lift (_clean_int (get "duration_days")) in
      st_lift (check_what_it_buys plan_id duration_days) ;;!
      check_plan plan_id ;;!
      let! expires_at := st_lift (_clean_timestamp_ms (get "expires_at") false) in
      let! expires_at :=
        match expires_at with
        | None => st_raise (SynapseError 400 "expires_at must be in the future" PlusCodes.INVALID_PARAM)
        | Some t =>
            let! now := _now_ms in
            if t <=? now
            then st_raise (SynapseError 400 "expires_at must be in the future" PlusCodes.INVALID_PARAM)
            else st_ret t
        end in
      let! max_redemptions := st_lift (limit_or_one (get "max_redemptions")) in
      let! max_per_user := st_lift (limit_or_one (get "max_per_user")) in
      if (max_redemptions <=? 0) || (max_per_user <=? 0)
      then st_raise (SynapseError 400 "Invalid redemption limits" PlusCodes.INVALID_PARAM)
      else
        let! created_at := _now_ms in
        refuse_duplicate (runInteraction (insert_voucher
          {| v_code := code; v_plan_id := plan_id; v_duration_days := duration_days;
             v_expires_at := expires_at; v_max_redemptions := max_redemptions;
             v_redemption_count := 0; v_max_per_user := max_per_user;
             v_note := _clean_str (get "note") 512; v_is_active := _clean_bool (get "is_active") true;
             v_created_at := created_at |})) ;;!
        get_voucher (JStr code)
  | _ => st_raise (SynapseError 400 "Expected JSON object" PlusCodes.BAD_JSON)
  end.

(** ** Changing a voucher *)

(** A positive limit, where the request has one. *)
Definition update_limit (body : obj) (k : string) (error : string) (old : Z) : result Z :=
  match dget k body with
  | None => Ok old
  | Some value =>
      let* parsed := _clean_int value in
      match parsed with
      | Some n => if n <=? 0 then Err (SynapseError 400 error PlusCodes.INVALID_PARAM) else Ok n
      | None => Err (SynapseError 400 error PlusCodes.INVALID_PARAM)
      end
  end.

Definition update_expiry (body : obj) (old : Z) : result Z :=
  match dget "expires_at" body with
  | None => Ok old
  | Some value =>
      let* parsed := _clean_timestamp_ms value false in
      match parsed with
      | Some t => Ok t
      | None => Err (SynapseError 400 "Invalid expires_at" PlusCodes.INVALID_PARAM)
      end
  end.

Definition update_plan (body : obj) (old : option string) : PlusM (option string) :=
  match dget "plan_id" body with
  | None => st_ret old
  | Some value => let plan_id := _clean_str value 64 in check_plan plan_id ;;! st_ret plan_id
  end.

Definition changed_voucher (body : obj) (existing : Voucher) : PlusM Voucher :=
  let! plan_id := update_plan body (v_plan_id existing) in
  let! duration_days := st_lift (match dget "duration_days" body with
                                 | None => Ok (v_duration_days existing)
                                 | Some value => _clean_int value
                                 end) in
  let! expires_at := st_lift (update_expiry body (v_expires_at existing)) in
  let! max_redemptions :=
    st_lift (update_limit body "max_redemptions" "Invalid max_redemptions" (v_max_redemptions existing)) in
  let! max_per_user :=
    st_lift (update_limit body "max_per_user" "Invalid max_per_user" (v_max_per_user existing)) in
  st_lift (check_what_it_buys plan_id duration_days) ;;!
  st_ret {| v_code := v_code existing; v_plan_id := plan_id; v_duration_days := duration_days;
            v_expires_at := expires_at; v_max_redemptions := max_redemptions;
            v_redemption_count := v_redemption_count existing; v_max_per_user := max_per_user;
            v_note := match dget "note" body with
                      | None => v_note existing
                      | Some value => _clean_str value 512
                      end;
            v_is_active := match dget "is_active" body with
                           | None => v_is_active existing
                           | Some value => _clean_bool value true
                           end;
            v_created_at := v_created_at existing |}.

(** The statement does not write the count. *)
Definition write_voucher (new : Voucher) (row : Voucher) : Voucher :=
  {| v_code := v_code row; v_plan_id := v_plan_id new; v_duration_days := v_duration_days new;
     v_expires_at := v_expires_at new; v_max_redemptions := v_max_redemptions new;
     v_redemption_count := v_redemption_count row; v_max_per_user := v_max_per_user new;
     v_note := v_note new; v_is_active := v_is_active new; v_created_at := v_created_at row |}.

Definition update_voucher (code : json) (body : obj) : PlusM Voucher :=
  _ensure_voucher_tables ;;!
  let! existing := get_voucher code in
  let! new := changed_voucher body existing in
  runInteraction
    (st_lift (bind_opt (v_duration_days new) ;;; bind_int (v_expires_at new) ;;;
              bind_int (v_max_redemptions new) ;;; bind_int (v_max_per_user new)) ;;!
     st_modify (set_vouchers (update_where (has_code (v_code existing)) (write_voucher new)))) ;;!
  get_voucher (JStr (v_code existing)).

Definition deactivate (row : Voucher) : Voucher :=
  {| v_code := v_code row; v_plan_id := v_plan_id row; v_duration_days := v_duration_days row;
     v_expires_at := v_expires_at row; v_max_redemptions := v_max_redemptions row;
     v_redemption_count := v_redemption_count row; v_max_per_user := v_max_per_user row;
     v_note := v_note row; v_is_active := false; v_created_at := v_created_at row |}.

Definition delete_voucher (code : json) : PlusM string :=
  _ensure_voucher_tables ;;!
  let! existing := get_voucher code in
  runInteraction (st_modify (set_vouchers (update_where (has_code (v_code existing)) deactivate))) ;;!
  st_ret (v_code existing).

Definition is_redemption (code : string) (r : Redemption) : bool := String.eqb (r_code r) code.
Definition is_redemption_by (code user_id : string) (r : Redemption) : bool :=
  is_redemption code r && String.eqb (r_user_id r) user_id.

Definition get_voucher_redemptions (code : json) : PlusM (list Redemption) :=
  _ensure_voucher_tables ;;!
  let! voucher := get_voucher code in
  runInteraction (st_read (fun h =>
    sorted_by (fun r => - r_redeemed_at r) (List.filter (is_redemption (v_code voucher)) (redemptions h)))).

(** ** Redeeming *)

Definition count_redemption (row : Voucher) : Voucher :=
  {| v_code := v_code row; v_plan_id := v_plan_id row; v_duration_days := v_duration_days row;
     v_expires_at := v_expires_at row; v_max_redemptions := v_max_redemptions row;
     v_redemption_count := v_redemption_count row + 1; v_max_per_user := v_max_per_user row;
     v_note := v_note row; v_is_active := v_is_active row; v_created_at := v_created_at row |}.

(** The primary key of the table is the code with the user. *)
Definition insert_redemption (r : Redemption) : PlusM unit :=
  let! exists_already := st_read (fun h => row_exists (is_redemption_by (r_code r) (r_user_id r)) (redemptions h)) in
  if exists_already : bool then st_raise unique_violation
  else st_modify (set_redemptions (fun rows => rows ++ [r])).

(** The transaction [_reserve]. *)
Definition _reserve (normalized user_id : string) (now : Z) : PlusM Voucher :=
  let! row := st_read (fun h => fetchone (has_code normalized) (vouchers h)) in
  match row with
  | None => st_raise (SynapseError 404 "Промокод не найден" PlusCodes.NOT_FOUND)
  | Some voucher =>
      if negb (v_is_active voucher)
      then st_raise (SynapseError 403 "Промокод недействителен" PlusCodes.FORBIDDEN)
      else if v_expires_at voucher <=? now
      then st_raise (SynapseError 403 "Срок действия промокода истёк" PlusCodes.FORBIDDEN)
      else if v_max_redemptions voucher <=? v_redemption_count voucher
      then st_raise (SynapseError 403 "Промокод уже использован максимальное число раз" PlusCodes.FORBIDDEN)
      else
        let! user_count := st_read (fun h =>
          Z.of_nat (Datatypes.length (List.filter (is_redemption_by normalized user_id) (redemptions h)))) in
        if v_max_per_user voucher <=? user_count
        then st_raise (SynapseError 403 "Вы уже активировали этот промокод" PlusCodes.FORBIDDEN)
        else
          insert_redemption {| r_code := normalized; r_user_id := user_id; r_redeemed_at := now |} ;;!
          st_modify (set_vouchers (update_where (has_code normalized) count_redemption)) ;;!
          st_ret voucher
  end.

(** The days a voucher is for: its own, its plan's, or the server's. *)
Definition voucher_days (voucher : Voucher) : PlusM Z :=
  let own := match v_duration_days voucher with
             | Some d => if d <=? 0 then None else Some d
             | None => None
             end in
  match own with
  | Some d => st_ret d
  | None =>
      let! plan := match v_plan_id voucher with
                   | Some id => find_plan (JStr id)
                   | None => st_ret None
                   end in
      let! c := st_read config in
      st_ret (positive (plan_duration_days <$> plan) (plus_duration_days c))
  end.

Definition redeem_voucher (user_id : string) (code : json) : PlusM (string * obj) :=
  _ensure_voucher_tables ;;!
  match _normalize_voucher_code code with
  | None => st_raise (SynapseError 400 "Недействительный промокод" PlusCodes.INVALID_PARAM)
  | Some normalized =>
      let! now := _now_ms in
      let! voucher := runInteraction (_reserve normalized user_id now) in
      let! days := voucher_days voucher in
      let! subscription :=
        activate_subscription user_id ("voucher:" ++ normalized)%string "voucher" (Some (FFin 0 0))
          (match v_plan_id voucher with Some id => JStr id | None => JNull end) (Some days) "RUB" in
      _safe_record_analytics ;;!
      st_ret (normalized, subscription)
  end.
End vouchers.
