(* ===== verification/SetkaPlusCheckout.v ===== *)
(** * SetkaPlusCheckout: paying with YooMoney and Robokassa (handlers/setka_plus.py)

    A checkout records a pending payment and gives the client a URL; the payment service
    reports the payment to a URL anyone can call, with a signature made with a secret.  What
    a service answers to a request is an argument. *)
From S2P Require Import Prelude PyVal PySort PyState PyFloat PyEncoding SetkaPlusPlans.
From S2P Require Import SetkaPlusState SetkaPlusSubscription.
From Stdlib Require Import Ascii String.
Open Scope string_scope.
Open Scope list_scope.
Open Scope Z_scope.
Open Scope py_scope.
Open Scope st_scope.

(** Form parameters; [payload.get(k, "")] *)
Abbreviation params := (list (string * string))%type.
Definition pget (payload : params) (k : string) : string := default "" (dget k payload).

(** [s or t] *)
Definition str_or (s t : string) : string := if String.eqb s "" then t else s.

Section checkout.
Context `{PlusEnv}.

Definition _assert_acquiring_enabled : PlusM unit :=
  let! c := st_read config in
  if bool_decide (payment_mode c = "vouchers_only")
  then st_raise (SynapseError 403 "Online checkout is disabled; use a voucher code" PlusCodes.FORBIDDEN)
  else st_ret tt.

(** [round(amount if amount and amount > 0 else price, 2)] *)
Definition final_amount (amount : option pyfloat) (plan : Plan) : pyfloat := effective_amount amount plan.

Definition _record_checkout_started : PlusM unit := _safe_record_analytics.

(** The subscription that waits for the payment. *)
Definition mark_pending (user_id plan_id : string) (amount : pyfloat) : PlusM unit :=
  let! _ := set_subscription user_id
              [("status", JStr "pending"); ("tier", JStr plan_id); ("amount", JFloat amount)] in
  _record_checkout_started.

Definition pending_payment (payment_id request_id provider label plan_id : string) (amount : pyfloat)
    (now : Z) : obj :=
  [("payment_id", JStr payment_id); ("request_id", JStr request_id); ("provider", JStr provider);
   ("status", JStr "pending"); ("amount", JFloat amount); ("currency", JStr "RUB");
   ("label", JStr label); ("plan_id", JStr plan_id); ("created_at", JInt now)].

(** ** YooMoney *)

Definition _build_quickpay_url (c : PlusConfig) (amount : pyfloat) (label description : string) : string :=
  ("https://yoomoney.ru/quickpay/confirm.xml?" ++
   urlencode ([("receiver", yoomoney_receiver c); ("quickpay-form", "shop"); ("targets", description);
               ("paymentType", "AC"); ("sum", format2 amount); ("label", label)]
              ++ (if String.eqb (yoomoney_return_url c) "" then []
                  else [("successURL", yoomoney_return_url c)])))%string.

(** The request's ID and the status, if YooMoney is asked; [answer] is what it says. *)
Definition request_yoomoney (c : PlusConfig) (answer : result json) : option string * string :=
  if String.eqb (yoomoney_token c) "" || String.eqb (yoomoney_receiver c) "" then (None, "created")
  else match answer with
  | Ok (JObj response) =>
      (_clean_str (oget response "request_id" JNull) 255,
       match _clean_str (oget response "status" JNull) 32 with
       | Some s => py_lower s
       | None => "created"
       end)
  | Ok _ => (None, "created")
  | Err _ => (None, "pending_external")
  end.

Definition jopt (s : option string) : json := match s with Some s => JStr s | None => JNull end.

Definition create_yoomoney_payment_request (user_id : string) (amount : option pyfloat)
    (description : option string) (the_plan_id : json) (answer : result json) : PlusM obj :=
  _assert_acquiring_enabled ;;!
  let! plan := resolve_plan the_plan_id in
  let! c := st_read config in
  let amount := final_amount amount plan in
  let! label_id := new_uuid in
  let label := ("setka_plus|" ++ user_id ++ "|" ++ plan_id plan ++ "|" ++ label_id)%string in
  let comment := str_or (default "" description) (plan_name plan ++ " subscription") in
  let! payment_uuid := new_uuid in
  let payment_id := ("setka_plus_" ++ payment_uuid)%string in
  let! now := _now_ms in
  let checkout_url := _build_quickpay_url c amount label comment in
  let '(request_id, status) := request_yoomoney c answer in
  record_payment user_id
    (pending_payment payment_id (default payment_id request_id) "yoomoney" label (plan_id plan) amount now) ;;!
  mark_pending user_id (plan_id plan) amount ;;!
  st_ret [("payment_id", JStr payment_id); ("request_id", jopt request_id); ("provider", JStr "yoomoney");
          ("status", JStr status); ("amount", JFloat amount); ("currency", JStr "RUB");
          ("label", JStr label); ("plan_id", JStr (plan_id plan)); ("plan_name", JStr (plan_name plan));
          ("checkout_url", JStr checkout_url);
          ("return_url", if String.eqb (yoomoney_return_url c) "" then JNull else JStr (yoomoney_return_url c))].

(** The exception of a failed request is not caught. *)
Definition process_yoomoney_payment (user_id : string) (request_id : json) (the_plan_id : json)
    (answer : result json) : PlusM obj :=
  let! c := st_read config in
  if String.eqb (yoomoney_token c) ""
  then st_raise (SynapseError 500 "SETKA_PLUS_YOOMONEY_OAUTH_TOKEN is not configured" PlusCodes.UNKNOWN)
  else match _clean_str request_id 255 with
  | None => st_raise (SynapseError 400 "request_id is required" PlusCodes.MISSING_PARAM)
  | Some normalized_request_id =>
      let! response := st_lift answer in
      let response := match response with JObj o => o | _ => [] end in
      let status := match _clean_str (oget response "status" JNull) 32 with
                    | Some s => py_lower s
                    | None => "unknown"
                    end in
      let payment_id := default normalized_request_id (_clean_str (oget response "payment_id" JNull) 255) in
      let! plan := resolve_plan the_plan_id in
      let! subscription :=
        if bool_decide (status = "success") then
          activate_subscription user_id payment_id "yoomoney" (Some (plan_price_rub plan))
            (JStr (plan_id plan)) (Some (plan_duration_days plan)) "RUB"
        else
          let! now := _now_ms in
          record_payment user_id
            [("payment_id", JStr payment_id); ("request_id", JStr normalized_request_id);
             ("provider", JStr "yoomoney"); ("status", JStr status);
             ("amount", JFloat (plan_price_rub plan)); ("currency", JStr "RUB");
             ("plan_id", JStr (plan_id plan)); ("created_at", JInt now)] ;;!
          get_subscription user_id in
      st_ret [("status", JStr status); ("payment_id", JStr payment_id);
              ("request_id", JStr normalized_request_id); ("subscription", JObj subscription);
              ("raw", JObj response)]
  end.

Definition _calculate_yoomoney_webhook_hash (c : PlusConfig) (payload : params) : string :=
  sha1_hexdigest (str_join "&"
    [pget payload "notification_type"; pget payload "operation_id"; pget payload "amount";
     pget payload "currency"; pget payload "datetime"; pget payload "sender"; pget payload "codepro";
     yoomoney_notification_secret c; pget payload "label"]).

(** Without a secret every notification is taken. *)
Definition check_yoomoney_hash (c : PlusConfig) (payload : params) : result unit :=
  if String.eqb (yoomoney_notification_secret c) "" then Ok tt
  else
    let provided_hash := py_lower (strip (pget payload "sha1_hash")) in
    if String.eqb provided_hash ""
       || negb (String.eqb provided_hash (_calculate_yoomoney_webhook_hash c payload))
    then Err (SynapseError 403 "Invalid YooMoney webhook signature" PlusCodes.FORBIDDEN)
    else Ok tt.

(** The user and the plan of a label. *)
Definition parse_label (label : string) : result (string * option string) :=
  match split_all "|" label with
  | "setka_plus" :: user_id :: plan_id :: rest =>
      Ok (user_id, match rest with [] => None | _ => Some plan_id end)
  | _ => Err (SynapseError 400 "Unsupported payment label" PlusCodes.INVALID_PARAM)
  end.

(** [_clean_float(payload.get(k)) or self._plus_price_rub] *)
Definition amount_or_price (c : PlusConfig) (amount : json) : result pyfloat :=
  let* a := _clean_float amount in Ok (default (plus_price_rub c) a).

Definition jparam (payload : params) (k : string) : json :=
  match dget k payload with Some v => JStr v | None => JNull end.

Definition handle_yoomoney_webhook (payload : params) : PlusM (string * obj) :=
  let! c := st_read config in
  st_lift (check_yoomoney_hash c payload) ;;!
  let label := pget payload "label" in
  let! (user_id, the_plan) := st_lift (parse_label label) in
  let known_id := str_or (pget payload "operation_id") (pget payload "request_id") in
  let! payment_id := if String.eqb known_id "" then new_uuid else st_ret known_id in
  let! amount := st_lift (amount_or_price c (jparam payload "amount")) in
  let currency := str_or (pget payload "currency") "RUB" in
  let! subscription := activate_subscription user_id payment_id "yoomoney_webhook" (Some amount)
                         (jopt the_plan) None currency in
  let! now := _now_ms in
  record_payment user_id
    [("payment_id", JStr payment_id); ("provider", JStr "yoomoney_webhook"); ("status", JStr "success");
     ("amount", JFloat amount); ("currency", JStr currency); ("label", JStr label);
     ("plan_id", JStr (str_or (default "" the_plan) "setka_plus")); ("created_at", JInt now)] ;;!
  st_ret (user_id, subscription).

(** ** Robokassa *)

Definition _robokassa_passwords (c : PlusConfig) (is_test : bool) : string * string :=
  if is_test && negb (String.eqb (robokassa_test_password1 c) "")
             && negb (String.eqb (robokassa_test_password2 c) "")
  then (robokassa_test_password1 c, robokassa_test_password2 c)
  else (robokassa_password1 c, robokassa_password2 c).

(** The custom parameters, sorted by their names. *)
Definition shp_parts (shp : params) : list string :=
  map (fun k => ("Shp_" ++ k ++ "=" ++ pget shp k)%string) (sorted_by id (dkeys shp)).

Definition _robokassa_payment_signature (merchant_login out_sum : string) (inv_id : Z) (password1 : string)
    (shp : params) : string :=
  md5_hexdigest (str_join ":" ([merchant_login; out_sum; str_of_int inv_id; password1] ++ shp_parts shp)).

Definition _robokassa_result_signature (out_sum inv_id password2 : string) (shp : params) : string :=
  md5_hexdigest (str_join ":" ([out_sum; inv_id; password2] ++ shp_parts shp)).

Definition _extract_robokassa_shp (payload : params) : params :=
  fold_left (fun shp kv => if startswith "Shp_" kv.1 then dset (utf8_drop 4 kv.1) kv.2 shp else shp) payload [].

Definition _encode_robokassa_uid (user_id : string) : string := b64encode user_id.
Definition _decode_robokassa_uid (encoded : string) : result string :=
  let* s := b64decode encoded in utf8_decode s.

Definition robokassa_query (c : PlusConfig) (out_sum : string) (inv_id : Z) (comment signature : string)
    (shp : params) : params :=
  [("MerchantLogin", robokassa_merchant_login c); ("OutSum", out_sum); ("InvId", str_of_int inv_id);
   ("Description", utf8_take 100 comment); ("SignatureValue", signature); ("Culture", "ru");
   ("Encoding", "utf-8"); ("Shp_plan", pget shp "plan"); ("Shp_uid", pget shp "uid");
   ("Shp_pid", pget shp "pid"); ("ResultURL", (robokassa_callback_base_url c ++ "/result")%string);
   ("SuccessURL", (robokassa_callback_base_url c ++ "/return/success")%string);
   ("FailURL", (robokassa_callback_base_url c ++ "/return/fail")%string)]
  ++ (if robokassa_is_test c then [("IsTest", "1")] else []).

Definition create_robokassa_payment_request (user_id : string) (amount : option pyfloat)
    (description : option string) (the_plan_id : json) : PlusM obj :=
  _assert_acquiring_enabled ;;!
  let! c := st_read config in
  let password1 := (_robokassa_passwords c (robokassa_is_test c)).1 in
  if String.eqb (robokassa_merchant_login c) "" || String.eqb password1 ""
  then st_raise (SynapseError 500 "SETKA_PLUS_ROBOKASSA_PASSWORD1 is not configured" PlusCodes.UNKNOWN)
  else
    let! plan := resolve_plan the_plan_id in
    let amount := final_amount amount plan in
    let comment := str_or (default "" description) (plan_name plan ++ " subscription") in
    let! payment_uuid := new_uuid in
    let payment_id := ("setka_plus_" ++ payment_uuid)%string in
    let! inv_id := randint in
    let! now := _now_ms in
    let out_sum := format2 amount in
    let shp := [("plan", utf8_take 64 (plan_id plan)); ("uid", _encode_robokassa_uid user_id);
                ("pid", utf8_take 64 payment_id)] in
    let signature := _robokassa_payment_signature (robokassa_merchant_login c) out_sum inv_id password1 shp in
    let checkout_url := (robokassa_payment_url c ++ "?" ++
                         urlencode (robokassa_query c out_sum inv_id comment signature shp))%string in
    let label := ("robokassa:" ++ str_of_int inv_id)%string in
    record_payment user_id
      (pending_payment payment_id (str_of_int inv_id) "robokassa" label (plan_id plan) amount now) ;;!
    mark_pending user_id (plan_id plan) amount ;;!
    st_ret [("payment_id", JStr payment_id); ("request_id", JStr (str_of_int inv_id));
            ("provider", JStr "robokassa"); ("status", JStr "created"); ("amount", JFloat amount);
            ("currency", JStr "RUB"); ("label", JStr label); ("plan_id", JStr (plan_id plan));
            ("plan_name", JStr (plan_name plan)); ("checkout_url", JStr checkout_url);
            ("return_url", JStr "https://setka-matrix.ru/")].

(** The second password by which a result is signed. *)
Definition result_password (c : PlusConfig) (payload : params) : string :=
  let is_test := String.eqb (strip (default "0" (dget "IsTest" payload))) "1" in
  str_or (_robokassa_passwords c is_test).2 (_robokassa_passwords c false).2.

(** The payment's ID, or that of the user's payment with the invoice, or one made of it. *)
Definition robokassa_payment_id (user_id inv_id pid fallback : string) : PlusM string :=
  if negb (String.eqb pid "") then st_ret pid
  else
    let! pending := find_payment_by_inv_id user_id inv_id in
    let found := match pending with
                 | Some p => py_str (oget p "payment_id" (JStr ""))
                 | None => ""
                 end in
    st_ret (str_or found fallback).

Definition handle_robokassa_result (payload : params) : PlusM string :=
  let out_sum := strip (pget payload "OutSum") in
  let inv_id := strip (pget payload "InvId") in
  let signature := strip (pget payload "SignatureValue") in
  if String.eqb out_sum "" || String.eqb inv_id "" || String.eqb signature ""
  then st_raise (SynapseError 400 "Missing Robokassa parameters" PlusCodes.MISSING_PARAM)
  else
    let shp := _extract_robokassa_shp payload in
    let uid := pget shp "uid" in
    if String.eqb uid ""
    then st_raise (SynapseError 400 "Missing Robokassa user reference" PlusCodes.MISSING_PARAM)
    else
      let! c := st_read config in
      let password2 := result_password c payload in
      if String.eqb password2 ""
      then st_raise (SynapseError 500 "SETKA_PLUS_ROBOKASSA_PASSWORD2 is not configured" PlusCodes.UNKNOWN)
      else if negb (String.eqb (py_upper signature)
                      (py_upper (_robokassa_result_signature out_sum inv_id password2 shp)))
      then st_raise (SynapseError 403 "Invalid Robokassa signature" PlusCodes.FORBIDDEN)
      else
        let! user_id := st_lift (_decode_robokassa_uid uid) in
        let! amount := st_lift (amount_or_price c (JStr out_sum)) in
        let! payment_id := robokassa_payment_id user_id inv_id (strip (pget shp "pid"))
                             ("robokassa_" ++ inv_id) in
        let! _ := activate_subscription user_id payment_id "robokassa" (Some amount)
                    (jparam shp "plan") None "RUB" in
        let! now := _now_ms in
        record_payment user_id
          [("payment_id", JStr payment_id); ("request_id", JStr inv_id); ("provider", JStr "robokassa");
           ("status", JStr "paid"); ("amount", JFloat amount); ("currency", JStr "RUB");
           ("label", JStr ("robokassa:" ++ inv_id)%string);
           ("plan_id", JStr (str_or (pget shp "plan") "setka_plus")); ("created_at", JInt now)] ;;!
        st_ret inv_id.

(** Whether the browser that comes back is believed; a return without a signature is. *)
Definition return_succeeds (c : PlusConfig) (payload shp : params) (success : bool) : bool :=
  if success then
    let out_sum := strip (pget payload "OutSum") in
    let inv_id := strip (pget payload "InvId") in
    let signature := strip (pget payload "SignatureValue") in
    if negb (String.eqb out_sum "") && negb (String.eqb inv_id "") && negb (String.eqb signature "")
    then
      let is_test := String.eqb (strip (default "0" (dget "IsTest" payload))) "1" in
      let password1 := str_or (_robokassa_passwords c is_test).1 (_robokassa_passwords c false).1 in
      String.eqb (py_upper signature) (py_upper (_robokassa_result_signature out_sum inv_id password1 shp))
    else true
  else false.

Definition resolve_robokassa_browser_return (payload : params) (success : bool) : PlusM (string * string) :=
  let! c := st_read config in
  let inv_id := strip (pget payload "InvId") in
  let shp := _extract_robokassa_shp payload in
  let uid := strip (pget shp "uid") in
  let success := return_succeeds c payload shp success in
  let! user_id := if String.eqb uid "" then st_ret "" else st_lift (_decode_robokassa_uid uid) in
  let pid := strip (pget shp "pid") in
  let! payment_id := if String.eqb user_id "" || String.eqb inv_id "" then st_ret pid
                     else robokassa_payment_id user_id inv_id pid "" in
  (if negb success && negb (String.eqb user_id "") && negb (String.eqb payment_id "")
   then mark_payment_failed user_id payment_id "Оплата отменена" else st_ret tt) ;;!
  st_ret (user_id, str_or payment_id (if String.eqb inv_id "" then "" else "robokassa_" ++ inv_id))%string.

Definition build_robokassa_return_url (c : PlusConfig) (user_id payment_id : string) (success : bool) : string :=
  (robokassa_callback_base_url c ++ "/return/" ++ (if success then "success" else "fail") ++ "?" ++
   urlencode [("user_id", user_id); ("payment_id", payment_id)])%string.
End checkout.
