(* ===== verification/SetkaPlusPayanyway.v ===== *)
(** * SetkaPlusPayanyway: paying with PayAnyWay (handlers/setka_plus.py)

    PayAnyWay asks for the amount ([handle_payanyway_check_url]) and reports the payment
    ([handle_payanyway_pay_url]).  The user is found in the report's parameters or among the
    payments that are pending in memory.  The invoice is asked for over HTTP, and what the
    service answers is an argument. *)
From S2P Require Import Prelude PyVal PySort PyState PyFloat PyEncoding SetkaPlusPlans.
From S2P Require Import SetkaPlusState SetkaPlusSubscription SetkaPlusCheckout.
From Stdlib Require Import Ascii String.
Open Scope string_scope.
Open Scope list_scope.
Open Scope Z_scope.
Open Scope py_scope.
Open Scope st_scope.

(** The URL checkout forms are posted to, whatever was configured. *)
Definition rstrip_slash (s : string) : string :=
  let fix drop (s : string) := match s with String "/" s => drop s | _ => s end in
  str_rev (drop (str_rev s)).

Definition DEFAULT_ASSISTANT := "https://www.payanyway.ru/assistant.htm".

Definition _normalize_payanyway_assistant_url (raw : string) : string :=
  let trimmed := strip raw in
  if String.eqb trimmed "" then DEFAULT_ASSISTANT
  else
    let l := rstrip_slash (lower trimmed) in
    if bool_decide (l ∈ ["https://www.payanyway.ru"; "http://www.payanyway.ru"; "https://payanyway.ru";
                         "http://payanyway.ru"; "https://www.moneta.ru"; "http://www.moneta.ru";
                         "https://moneta.ru"; "http://moneta.ru"])
    then DEFAULT_ASSISTANT
    else if has_substring "moneta.ru/assistant" l && negb (has_substring "payanyway.ru" l)
    then DEFAULT_ASSISTANT
    else if has_substring "payanyway.ru" l && negb (has_substring "assistant" l)
    then (rstrip_slash trimmed ++ "/assistant.htm")%string
    else trimmed.

(** A telephone number loses its signs, and an 8 in front becomes a 7; only ASCII digits are
    known. *)
Definition digits_of (s : string) : string := replace_bytes (fun a => if is_digit a then String a "" else "") s.

Definition _payanyway_normalize_api_username (raw : string) : string :=
  let trimmed := strip raw in
  if String.eqb trimmed "" then trimmed
  else
    let digits := digits_of trimmed in
    if startswith "+" trimmed || startswith "7" digits || startswith "8" digits then
      let digits := if startswith "8" digits && (11 <=? str_len digits)
                    then ("7" ++ str_tail digits)%string else digits in
      if startswith "7" digits then digits else trimmed
    else trimmed.

Section payanyway.
Context `{PlusEnv}.

Definition _payanyway_md5 (value : string) : string := md5_hexdigest value.

(** ** Signatures *)

Definition _payanyway_form_signature (c : PlusConfig) (transaction_id amount test_mode : string) : string :=
  _payanyway_md5 (payanyway_mnt_id c ++ transaction_id ++ amount ++ "RUB" ++ "" ++ test_mode ++
                  payanyway_integrity_code c)%string.

Definition _payanyway_checkout_bridge_sig (c : PlusConfig) (user_id payment_id : string) : string :=
  _payanyway_md5 (user_id ++ payment_id ++ payanyway_integrity_code c)%string.

Definition _payanyway_pay_signature (c : PlusConfig) (payload : params) : result string :=
  let amount_raw := strip (pget payload "MNT_AMOUNT") in
  let* amount := if String.eqb amount_raw "" then Ok (FFin 0 0) else float_of_str amount_raw in
  Ok (_payanyway_md5 (str_join ""
        [pget payload "MNT_ID"; pget payload "MNT_TRANSACTION_ID"; pget payload "MNT_OPERATION_ID";
         format2 amount; pget payload "MNT_CURRENCY_CODE"; pget payload "MNT_SUBSCRIBER_ID";
         default "0" (dget "MNT_TEST_MODE" payload); payanyway_integrity_code c])).

Definition _payanyway_check_signature (c : PlusConfig) (payload : params) : result string :=
  let amount_raw := strip (pget payload "MNT_AMOUNT") in
  let* amount_part := if String.eqb amount_raw "" then Ok ""
                      else let* f := float_of_str amount_raw in Ok (format2 f) in
  Ok (_payanyway_md5 (str_join ""
        [pget payload "MNT_COMMAND"; pget payload "MNT_ID"; pget payload "MNT_TRANSACTION_ID";
         pget payload "MNT_OPERATION_ID"; amount_part; pget payload "MNT_CURRENCY_CODE";
         pget payload "MNT_SUBSCRIBER_ID"; default "0" (dget "MNT_TEST_MODE" payload);
         payanyway_integrity_code c])).

Definition _payanyway_check_xml (mnt_id tx_id result_code description amount integrity : string) : string :=
  let signature := _payanyway_md5 (result_code ++ mnt_id ++ tx_id ++ integrity)%string in
  ("<?xml version=" ++ dq ++ "1.0" ++ dq ++ " encoding=" ++ dq ++ "UTF-8" ++ dq ++ "?>" ++
   "<MNT_RESPONSE><MNT_ID>" ++ mnt_id ++ "</MNT_ID><MNT_TRANSACTION_ID>" ++ tx_id ++
   "</MNT_TRANSACTION_ID><MNT_RESULT_CODE>" ++ result_code ++ "</MNT_RESULT_CODE><MNT_DESCRIPTION>" ++
   description ++ "</MNT_DESCRIPTION><MNT_AMOUNT>" ++ amount ++ "</MNT_AMOUNT><MNT_SIGNATURE>" ++
   signature ++ "</MNT_SIGNATURE></MNT_RESPONSE>")%string.

(** The user of a report, where it names one. *)
Definition _payanyway_user_id_from_payload (payload : params) : result string :=
  let subscriber := strip (pget payload "MNT_SUBSCRIBER_ID") in
  if negb (String.eqb subscriber "") then _decode_robokassa_uid subscriber
  else
    let custom := strip (pget payload "MNT_CUSTOM3") in
    if negb (String.eqb custom "") then _decode_robokassa_uid custom else Ok "".

(** ** Checkout *)

Definition build_payanyway_return_url (c : PlusConfig) (user_id payment_id : string) (success : bool) : string :=
  (payanyway_callback_base_url c ++ "/return/" ++ (if success then "success" else "fail") ++ "?" ++
   urlencode [("user_id", user_id); ("payment_id", payment_id)])%string.

Definition build_payanyway_checkout_bridge_url (c : PlusConfig) (user_id payment_id : string) : string :=
  (payanyway_callback_base_url c ++ "/pay?" ++
   urlencode [("setka_checkout", "1"); ("user_id", user_id); ("payment_id", payment_id);
              ("sig", _payanyway_checkout_bridge_sig c user_id payment_id)])%string.

Definition _payanyway_assistant_fields (c : PlusConfig)
    (payment_id amount_str test_mode description the_plan_id encoded_user_id user_id : string) : params :=
  [("MNT_ID", payanyway_mnt_id c); ("MNT_TRANSACTION_ID", payment_id); ("MNT_AMOUNT", amount_str);
   ("MNT_CURRENCY_CODE", "RUB"); ("MNT_TEST_MODE", test_mode);
   ("MNT_DESCRIPTION", utf8_take 500 description);
   ("MNT_SIGNATURE", _payanyway_form_signature c payment_id amount_str test_mode)]
  ++ (if payanyway_simpla_self c then []
      else [("MNT_CUSTOM1", utf8_take 32 the_plan_id); ("MNT_CUSTOM2", utf8_take 32 payment_id);
            ("MNT_CUSTOM3", encoded_user_id)])
  ++ (if payanyway_override_urls c
      then [("MNT_SUCCESS_URL", build_payanyway_return_url c user_id payment_id true);
            ("MNT_FAIL_URL", build_payanyway_return_url c user_id payment_id false);
            ("MNT_RETURN_URL", build_payanyway_return_url c user_id payment_id false)]
      else []).

Definition _payanyway_assistant_get_url (c : PlusConfig) (fields : params) : string :=
  (payanyway_payment_url c ++ "?" ++ urlencode_with false fields)%string.

Definition attr (name value : string) : string := (name ++ "=" ++ dq ++ value ++ dq)%string.

Definition _payanyway_assistant_form_html (c : PlusConfig) (fields : params) : string :=
  let form_fields := if payanyway_simpla_self c
                     then List.filter (fun kv => negb (startswith "MNT_CUSTOM" kv.1)) fields else fields in
  ("<form " ++ attr "id" "payanyway" ++ " " ++ attr "method" "post" ++ " " ++
   attr "action" (html_escape (payanyway_payment_url c)) ++ ">" ++
   str_join "" (map (fun kv => "<input " ++ attr "type" "hidden" ++ " " ++ attr "name" (html_escape kv.1) ++
                               " " ++ attr "value" (html_escape kv.2) ++ ">") form_fields) ++
   "</form><script>document.getElementById(" ++ dq ++ "payanyway" ++ dq ++ ").submit();</script>")%string.

Definition _payanyway_operation_checkout_url (c : PlusConfig) (operation_id : Z) : string :=
  let url := payanyway_payment_url c in
  let base := match split_once "?" url with Some (b, _) => b | None => url end in
  (base ++ "?operationId=" ++ str_of_int operation_id)%string.

(** The fields of the request for an invoice, the service's URL first. *)
Definition invoice_request (c : PlusConfig) (username payment_id description : string) (amount : pyfloat)
    : params :=
  [("url", if payanyway_is_test c && negb (has_substring "demo.moneta.ru" (payanyway_api_service_url c))
           then "https://demo.moneta.ru/services" else payanyway_api_service_url c);
   ("username", xml_escape username); ("password", xml_escape (payanyway_api_password c));
   ("payer", xml_escape (payanyway_api_payer c)); ("payee", xml_escape (payanyway_mnt_id c));
   ("amount", format2 amount); ("clientTransaction", xml_escape (utf8_take 255 payment_id));
   ("description", xml_escape (utf8_take 500 description))].

(** [answer] is the HTTP status and the transaction in the body, or an exception. *)
Definition _payanyway_create_invoice_operation (c : PlusConfig) (payment_id : string) (amount : pyfloat)
    (description : string) (answer : params -> result (Z * option Z)) : option Z :=
  let username := _payanyway_normalize_api_username (payanyway_api_username c) in
  if String.eqb username "" || String.eqb (payanyway_api_password c) "" then None
  else match answer (invoice_request c username payment_id description amount) with
  | Ok (code, transaction) => if 400 <=? code then None else transaction
  | Err _ => None
  end.

Definition jfields (fields : params) : json := JObj (map (fun kv => (kv.1, JStr kv.2)) fields).

Definition check_payanyway_config (c : PlusConfig) : result unit :=
  if String.eqb (payanyway_mnt_id c) ""
  then Err (SynapseError 500 "SETKA_PLUS_PAYANYWAY_MNT_ID is not configured" PlusCodes.UNKNOWN)
  else
    let has_merchant_api := negb (String.eqb (payanyway_api_username c) "")
                            && negb (String.eqb (payanyway_api_password c) "") in
    if String.eqb (payanyway_integrity_code c) "" && negb has_merchant_api
    then Err (SynapseError 500 "SETKA_PLUS_PAYANYWAY integrity code or Merchant API credentials required"
                PlusCodes.UNKNOWN)
    else Ok tt.

Definition test_mode_of (c : PlusConfig) : string := if payanyway_is_test c then "1" else "0".

Definition create_payanyway_payment_request (user_id : string) (amount : option pyfloat)
    (description : option string) (the_plan_id : json) (answer : params -> result (Z * option Z))
    : PlusM obj :=
  _assert_acquiring_enabled ;;!
  let! c := st_read config in
  st_lift (check_payanyway_config c) ;;!
  let! plan := resolve_plan the_plan_id in
  let amount := final_amount amount plan in
  let comment := str_or (default "" description) (plan_name plan ++ " subscription") in
  let! payment_uuid := new_uuid in
  let payment_id := ("setka_plus_" ++ payment_uuid)%string in
  let operation_id := if payanyway_simpla_self c then None
                      else _payanyway_create_invoice_operation c payment_id amount comment answer in
  let fields := match operation_id with
                | Some _ => []
                | None => _payanyway_assistant_fields c payment_id (format2 amount) (test_mode_of c) comment
                            (plan_id plan) (utf8_take 255 (_encode_robokassa_uid user_id)) user_id
                end in
  let label := ("payanyway:" ++ payment_id)%string in
  let! now := _now_ms in
  record_payment user_id
    (pending_payment payment_id payment_id "payanyway" label (plan_id plan) amount now
     ++ (match fields with [] => [] | _ => [("assistant_fields", jfields fields)] end)) ;;!
  mark_pending user_id (plan_id plan) amount ;;!
  st_ret [("payment_id", JStr payment_id); ("request_id", JStr payment_id); ("provider", JStr "payanyway");
          ("status", JStr "created"); ("amount", JFloat amount); ("currency", JStr "RUB");
          ("label", JStr label); ("plan_id", JStr (plan_id plan)); ("plan_name", JStr (plan_name plan));
          ("checkout_url", JStr match operation_id with
                                | Some n => _payanyway_operation_checkout_url c n
                                | None => build_payanyway_checkout_bridge_url c user_id payment_id
                                end);
          ("checkout_form_html", match operation_id with
                                 | Some _ => JNull
                                 | None => JStr (_payanyway_assistant_form_html c fields)
                                 end);
          ("payment_method", JStr (match operation_id with
                                   | Some _ => "merchant_api" | None => "assistant_post" end));
          ("operation_id", match operation_id with Some n => JInt n | None => JNull end);
          ("return_url", JStr (build_payanyway_return_url c user_id payment_id true))].

Definition render_payanyway_checkout_page (user_id payment_id sig : string) : PlusM string :=
  let! c := st_read config in
  if negb (String.eqb (py_lower sig) (py_lower (_payanyway_checkout_bridge_sig c user_id payment_id)))
  then st_raise (SynapseError 403 "Invalid checkout signature" PlusCodes.FORBIDDEN)
  else
    let! payments := get_payments user_id in
    match List.find (has_payment_id payment_id) payments with
    | None => st_raise (SynapseError 404 "Payment not found" PlusCodes.NOT_FOUND)
    | Some payment =>
        let status := py_lower (py_str (oget payment "status" (JStr ""))) in
        if negb (bool_decide (status ∈ [""; "pending"; "created"]))
        then st_raise (SynapseError 409 "Payment is no longer pending" PlusCodes.UNKNOWN)
        else
          let! amount := st_lift (amount_or_price c (oget payment "amount" JNull)) in
          let the_plan_id := py_str (oget payment "plan_id" (JStr "setka_plus")) in
          let! plan := resolve_plan (JStr the_plan_id) in
          let fields := _payanyway_assistant_fields c payment_id (format2 amount) (test_mode_of c)
                          (plan_name plan ++ " subscription") the_plan_id
                          (utf8_take 255 (_encode_robokassa_uid user_id)) user_id in
          st_ret ("<!DOCTYPE html><html><head><meta " ++ attr "charset" "utf-8" ++
                  "><title>Setka Plus</title></head><body><p>Переход на оплату PayAnyWay…</p>" ++
                  _payanyway_assistant_form_html c fields ++ "</body></html>")%string
    end.

(** ** What PayAnyWay calls *)

Definition handle_payanyway_pay_url (payload : params) : PlusM string :=
  match payload with
  | [] => st_ret "SUCCESS"
  | _ =>
      let! c := st_read config in
      let! expected := st_lift (_payanyway_pay_signature c payload) in
      if negb (String.eqb (py_lower (pget payload "MNT_SIGNATURE")) (py_lower expected))
      then st_raise (SynapseError 403 "Invalid PayAnyWay signature" PlusCodes.FORBIDDEN)
      else
        let payment_id := strip (pget payload "MNT_TRANSACTION_ID") in
        let! named := st_lift (_payanyway_user_id_from_payload payload) in
        let! pending := st_read payanyway_pending_users in
        let user_id := if String.eqb named "" && negb (String.eqb payment_id "")
                       then default "" (dget payment_id pending) else named in
        let the_plan_id := str_or (strip (pget payload "MNT_CUSTOM1")) "setka_plus" in
        let! amount := st_lift (amount_or_price c (JStr (pget payload "MNT_AMOUNT"))) in
        if String.eqb payment_id "" || String.eqb user_id "" then st_ret "FAIL"
        else
          let! _ := activate_subscription user_id payment_id "payanyway" (Some amount) (JStr the_plan_id)
                      None "RUB" in
          let! now := _now_ms in
          record_payment user_id
            [("payment_id", JStr payment_id); ("request_id", JStr payment_id); ("provider", JStr "payanyway");
             ("status", JStr "paid"); ("amount", JFloat amount); ("currency", JStr "RUB");
             ("label", JStr ("payanyway:" ++ payment_id)%string); ("plan_id", JStr the_plan_id);
             ("created_at", JInt now)] ;;!
          st_ret "SUCCESS"
  end.

(** The amount of the payment, or the server's price. *)
Definition pending_amount (c : PlusConfig) (payments : list obj) (tx_id : string) : result pyfloat :=
  match List.find (fun item => bool_decide (py_str (oget item "payment_id" (JStr "")) = tx_id)) payments with
  | Some item =>
      match oget item "amount" (JFloat (plus_price_rub c)) with
      | JInt n => float_of_int n
      | JFloat f => Ok f
      | JStr s => float_of_str s
      | JBool b => Ok (float_of_frac (if b then 1 else 0) 1)
      | _ => Err TypeError
      end
  | None => Ok (plus_price_rub c)
  end.

(** The status never holds an amount, so a payment that was paid is reported with the server's
    price. *)
Definition handle_payanyway_check_url (payload : params) : PlusM string :=
  let! c := st_read config in
  let answer code text amount tx_id :=
    _payanyway_check_xml (payanyway_mnt_id c) tx_id code text amount (payanyway_integrity_code c) in
  let tx_id := strip (pget payload "MNT_TRANSACTION_ID") in
  if String.eqb tx_id "" then st_ret (answer "500" "Missing transaction id" "0.00" "")
  else if negb (String.eqb (py_upper (pget payload "MNT_COMMAND")) "CHECK")
  then st_ret (answer "500" "Unsupported command" "0.00" tx_id)
  else
    let! expected := st_lift (_payanyway_check_signature c payload) in
    if negb (String.eqb (py_lower (pget payload "MNT_SIGNATURE")) (py_lower expected))
    then st_ret (answer "500" "Invalid signature" "0.00" tx_id)
    else
      let! user_id := st_lift (_payanyway_user_id_from_payload payload) in
      if String.eqb user_id "" then st_ret (answer "500" "Unknown user" "0.00" tx_id)
      else
        let! status := get_payment_status user_id tx_id in
        if match status with Some s => jeqs (oget s "status" JNull) "paid" | None => false end
        then st_ret (answer "200" "Already paid" (format2 (plus_price_rub c)) tx_id)
        else
          let amount_raw := strip (pget payload "MNT_AMOUNT") in
          let! amount :=
            if negb (String.eqb amount_raw "") then st_lift (float_of_str amount_raw)
            else let! payments := get_payments user_id in st_lift (pending_amount c payments tx_id) in
          st_ret (answer "402" "Ready for payment" (format2 amount) tx_id).

Definition resolve_payanyway_browser_return (payload : params) (success : bool) : PlusM (string * string) :=
  let payment_id := str_or (strip (pget payload "MNT_TRANSACTION_ID")) (strip (pget payload "payment_id")) in
  let! user_id := st_lift (_payanyway_user_id_from_payload payload) in
  (if negb success && negb (String.eqb user_id "") && negb (String.eqb payment_id "")
   then mark_payment_failed user_id payment_id "Оплата отменена" else st_ret tt) ;;!
  st_ret (user_id, payment_id).
End payanyway.
