(* ===== verification/SetkaPlusStickers.v ===== *)
(** * SetkaPlusStickers: sticker packs and links to them (handlers/setka_plus.py)

    A user's sticker and emoji packs are a document in his account data.  A link to a pack is
    a signed token that names the user and the pack. *)
From S2P Require Import Prelude PyVal PySort PyState PyFloat ReplicationCommands PyEncoding.
From S2P Require Import SetkaPlusPlans SetkaPlusState SetkaPlusSubscription.
From Stdlib Require Import Ascii String.
Open Scope string_scope.
Open Scope list_scope.
Open Scope Z_scope.
Open Scope py_scope.
Open Scope st_scope.

Definition _PACK_KIND : list string := ["sticker"; "emoji"].

Section stickers.
Context `{PlusEnv, JsonCodec}.

(** ** [_normalize_stickers] and [_normalize_sticker_packs] *)

Definition sticker_url (item : obj) : option string :=
  match _clean_str (oget item "mxc_url" JNull) 2048 with
  | Some url => Some url
  | None => _clean_str (oget item "url" JNull) 2048
  end.

Definition set_positive (k : string) (n : option Z) (d : obj) : obj :=
  match n with Some n => if 0 <? n then dset k (JInt n) d else d | None => d end.

Definition clean_sticker (pack_kind : string) (normalized : list obj) (item : json) : PlusM (list obj) :=
  match item with
  | JObj item =>
      let! sticker_id := match _clean_str (oget item "id" JNull) 128 with
                         | Some i => st_ret i
                         | None => new_uuid
                         end in
      match sticker_url item with
      | None => st_ret normalized
      | Some mxc_url =>
          if negb (startswith "mxc://" mxc_url) then st_ret normalized
          else
            let! width := st_lift (_clean_int (oget item "width" JNull)) in
            let! height := st_lift (_clean_int (oget item "height" JNull)) in
            let! size := st_lift (_clean_int (oget item "size" JNull)) in
            let emoji := bool_decide (pack_kind = "emoji") in
            st_ret (normalized ++
              [set_positive "size" size
                (set_positive "height" (if emoji then Some 50 else height)
                (set_positive "width" (if emoji then Some 50 else width)
                (set_opt "mime_type" (JStr <$> _clean_str (oget item "mime_type" JNull) 128)
                [("id", JStr sticker_id);
                 ("name", JStr (default "Sticker" (_clean_str (oget item "name" JNull) 120)));
                 ("mxc_url", JStr mxc_url)])))])
      end
  | _ => st_ret normalized
  end.

Definition _normalize_stickers (raw : json) (pack_kind : string) : PlusM (list obj) :=
  match raw with
  | JList l => let! normalized := st_fold (clean_sticker pack_kind) [] l in st_ret (take 512 normalized)
  | _ => st_ret []
  end.

Definition clean_kind (raw : json) : option string :=
  match _clean_str raw 24 with
  | Some k => if bool_decide (py_lower k ∈ _PACK_KIND) then Some (py_lower k) else None
  | None => None
  end.

(** A time that is there, or now. *)
Definition time_or_now (value : json) : PlusM Z :=
  let! t := st_lift (_clean_timestamp_ms value false) in
  match t with Some t => st_ret t | None => _now_ms end.

Definition clean_pack (normalized : list obj) (item : json) : PlusM (list obj) :=
  match item with
  | JObj item =>
      match _clean_str (oget item "id" JNull) 128, _clean_str (oget item "name" JNull) 120 with
      | Some pack_id, Some name =>
          let pack_kind := default "sticker" (clean_kind (oget item "kind" JNull)) in
          let! stickers := _normalize_stickers (oget item "stickers" JNull) pack_kind in
          let! created_at := time_or_now (oget item "created_at" JNull) in
          let! updated_at := time_or_now (oget item "updated_at" JNull) in
          st_ret (normalized ++
            [[("id", JStr pack_id); ("name", JStr name); ("kind", JStr pack_kind);
              ("stickers", JList (map JObj stickers)); ("created_at", JInt created_at);
              ("updated_at", JInt updated_at)]])
      | _, _ => st_ret normalized
      end
  | _ => st_ret normalized
  end.

Definition by_name (packs : list obj) : list obj :=
  sorted_by (fun p => py_lower (py_str (oget p "name" (JStr "")))) packs.

Definition _normalize_sticker_packs (raw : json) : PlusM (list obj) :=
  match raw with
  | JList l => let! normalized := st_fold clean_pack [] l in st_ret (take 100 (by_name normalized))
  | _ => st_ret []
  end.

Definition get_sticker_packs (user_id : string) : PlusM (list obj) :=
  let! raw := get_global_account_data_by_type_for_user user_id
                AccountDataTypes.SETKA_PLUS_STICKER_PACKS in
  match raw with
  | JObj raw => _normalize_sticker_packs (oget raw "packs" JNull)
  | _ => st_ret []
  end.

Definition has_pack_id (pack_id : string) (p : obj) : bool := jeqs (oget p "id" JNull) pack_id.

(** ** Changing packs *)

(** The kind that is asked for, the one the pack has, or stickers. *)
Definition upsert_kind (content : obj) (existing : option obj) : string :=
  match clean_kind (oget content "kind" JNull) with
  | Some k => k
  | None => default "sticker" (match existing with
                               | Some e => clean_kind (oget e "kind" JNull)
                               | None => None
                               end)
  end.

Definition emoji_unavailable : exc :=
  SynapseError 403 "Emoji pack management is not available." PlusCodes.FORBIDDEN.

Definition write_packs (user_id : string) (packs : list obj) : PlusM unit :=
  add_account_data_for_user user_id AccountDataTypes.SETKA_PLUS_STICKER_PACKS
    (JObj [("packs", JList (map JObj packs))]).

Definition upsert_sticker_pack (user_id : string) (pack_id : json) (content : obj)
    (allow_emoji_import admin_override : bool) : PlusM obj :=
  match _clean_str pack_id 128 with
  | None => st_raise (SynapseError 400 "pack_id is required" PlusCodes.INVALID_PARAM)
  | Some pack_id =>
      let! packs := get_sticker_packs user_id in
      let existing := List.find (has_pack_id pack_id) packs in
      let pack_name := _clean_str (oget content "name" JNull) 120 in
      match pack_name, existing with
      | None, None => st_raise (SynapseError 400 "Sticker pack name is required" PlusCodes.MISSING_PARAM)
      | _, _ =>
          let pack_kind := upsert_kind content existing in
          (if bool_decide (pack_kind = "emoji") && negb admin_override then
             if negb allow_emoji_import then st_raise emoji_unavailable else _assert_plus_active user_id
           else st_ret tt) ;;!
          let! stickers :=
            match oget content "stickers" JNull with
            | JNull => st_ret (match existing with Some e => oget e "stickers" (JList []) | None => JList [] end)
            | stickers =>
                let! normalized := _normalize_stickers stickers pack_kind in
                st_ret (JList (map JObj normalized))
            end in
          let! now := _now_ms in
          let updated_pack :=
            [("id", JStr pack_id);
             ("name", match pack_name, existing with
                      | Some n, _ => JStr n
                      | None, Some e => oget e "name" JNull
                      | None, None => JNull
                      end);
             ("kind", JStr pack_kind); ("stickers", stickers);
             ("created_at", match existing with
                            | Some e => oget e "created_at" (JInt now)
                            | None => JInt now
                            end);
             ("updated_at", JInt now)] in
          write_packs user_id
            (by_name (List.filter (fun p => negb (has_pack_id pack_id p)) packs ++ [updated_pack])) ;;!
          st_ret updated_pack
      end
  end.

Definition is_emoji_pack (p : obj) : bool :=
  bool_decide (py_lower (py_str (oget p "kind" (JStr "sticker"))) = "emoji").

Definition delete_sticker_pack (user_id pack_id : string) (admin_override : bool) : PlusM unit :=
  let! packs := get_sticker_packs user_id in
  let existing := List.find (has_pack_id pack_id) packs in
  if negb admin_override && match existing with Some e => is_emoji_pack e | None => false end
  then st_raise emoji_unavailable
  else
    let next_packs := List.filter (fun p => negb (has_pack_id pack_id p)) packs in
    if (Datatypes.length next_packs =? Datatypes.length packs)%nat then st_ret tt
    else match next_packs with
         | [] => remove_account_data_for_user user_id AccountDataTypes.SETKA_PLUS_STICKER_PACKS
         | _ => write_packs user_id next_packs
         end.

(** ** Links *)

Definition build_share_url (c : PlusConfig) (token : string) : string := (share_link_prefix c ++ token)%string.

(** The URL of the first sticker. *)
Definition preview_url (pack : obj) : option string :=
  match oget pack "stickers" (JList []) with
  | JList (JObj first :: _) => _clean_str (py_or (oget first "mxc_url" JNull) (oget first "mxcUrl" JNull)) 1024
  | _ => None
  end.

Definition jstr_opt (s : option string) : json := match s with Some s => JStr s | None => JNull end.

(** [json.dumps(payload, sort_keys=True)] *)
Definition share_payload (user_id pack_id : string) (now : Z) (pack : obj) : json :=
  JObj [("i", jstr_opt (preview_url pack)); ("iat", JInt now);
        ("k", jstr_opt (_clean_str (oget pack "kind" JNull) 24));
        ("n", jstr_opt (_clean_str (oget pack "name" JNull) 120));
        ("p", JStr pack_id); ("u", JStr user_id); ("v", JInt 1)].

(** The token of a payload. *)
Definition sign_payload (secret : string) (payload : json) : string :=
  let payload_b64 := b64encode (json_encode payload) in
  ("v1." ++ payload_b64 ++ "." ++ b64encode (hmac_sha256 secret payload_b64))%string.

Definition create_share_token (user_id : string) (pack_id : json) (admin_override : bool) : PlusM string :=
  match _clean_str pack_id 128 with
  | None => st_raise (SynapseError 400 "pack_id is required" PlusCodes.INVALID_PARAM)
  | Some pack_id =>
      let! packs := get_sticker_packs user_id in
      match List.find (has_pack_id pack_id) packs with
      | None => st_raise (SynapseError 404 "Sticker pack not found" PlusCodes.NOT_FOUND)
      | Some pack =>
          if negb admin_override && is_emoji_pack pack
          then st_raise (SynapseError 403 "Emoji pack sharing is not available." PlusCodes.FORBIDDEN)
          else
            let! now := _now_ms in
            let! c := st_read config in
            st_ret (sign_payload (share_secret c) (share_payload user_id pack_id now pack))
      end
  end.

Definition invalid_token : exc := SynapseError 400 "Invalid shared pack token" PlusCodes.INVALID_PARAM.

Definition _decode_share_token (secret token : string) : result obj :=
  if String.eqb (strip token) "" then Err (SynapseError 400 "token is required" PlusCodes.MISSING_PARAM)
  else match split_all "." (strip token) with
  | [version; payload_b64; sig_b64] =>
      if negb (String.eqb version "v1") || String.eqb payload_b64 "" || String.eqb sig_b64 ""
      then Err invalid_token
      else if negb (Identifiers.is_ascii payload_b64) then Err ValueError
      else
        let* supplied_sig := b64decode sig_b64 in
        if negb (String.eqb (hmac_sha256 secret payload_b64) supplied_sig) then Err invalid_token
        else
          let* payload_raw := b64decode payload_b64 in
          match (let* text := utf8_decode payload_raw in json_decode text) with
          | Ok (JObj payload) => Ok payload
          | _ => Err invalid_token
          end
  | _ => Err invalid_token
  end.

(** A link without a time does not expire. *)
Definition link_expired (c : PlusConfig) (iat : Z) : PlusM bool :=
  if (iat =? 0) || (share_token_ttl_ms c <=? 0) then st_ret false
  else let! now := _now_ms in st_ret (share_token_ttl_ms c <? now - iat).

(** The pack with its owner. *)
Definition resolve_shared_pack (token : string) : PlusM obj :=
  let! c := st_read config in
  let! payload := st_lift (_decode_share_token (share_secret c) token) in
  let! iat := st_lift (_clean_timestamp_ms (oget payload "iat" JNull) false) in
  let! expired := link_expired c (default 0 iat) in
  if expired : bool
  then st_raise (SynapseError 404 "Shared pack link has expired" PlusCodes.NOT_FOUND)
  else match _clean_str (oget payload "u" JNull) 255, _clean_str (oget payload "p" JNull) 128 with
  | Some owner_user_id, Some pack_id =>
      let! packs := get_sticker_packs owner_user_id in
      match List.find (has_pack_id pack_id) packs with
      | None => st_raise (SynapseError 404 "Sticker pack not found" PlusCodes.NOT_FOUND)
      | Some pack => st_ret (dset "owner_user_id" (JStr owner_user_id) pack)
      end
  | _, _ => st_raise invalid_token
  end.

Definition import_shared_pack (user_id token : string) : PlusM obj :=
  let! shared_pack := resolve_shared_pack token in
  let allow_emoji_import := is_emoji_pack shared_pack in
  (if allow_emoji_import then _assert_plus_active user_id else st_ret tt) ;;!
  let! new_pack_id := new_uuid in
  upsert_sticker_pack user_id (JStr new_pack_id)
    [("name", oget shared_pack "name" JNull); ("kind", oget shared_pack "kind" JNull);
     ("stickers", oget shared_pack "stickers" (JList []))] allow_emoji_import false.
End stickers.
