(* ===== verification/SetkaPlusConfig.v ===== *)
(** * SetkaPlusConfig: the settings of Setka Plus (handlers/setka_plus.py)

    The settings come from the environment, then from a file that an administrator changes
    through the API.  The environment is an argument. *)
From S2P Require Import Prelude PyVal PySort PyState PyFloat SetkaPlusPlans SetkaPlusState.
From S2P Require Import SetkaPlusCheckout SetkaPlusPayanyway.
From Stdlib Require Import Ascii String.
Open Scope string_scope.
Open Scope list_scope.
Open Scope Z_scope.
Open Scope py_scope.
Open Scope st_scope.

Definition _PAYMENT_MODES : list string := ["acquiring_and_vouchers"; "vouchers_only"].

(** ** The environment *)

Definition _env_float (env : params) (name : string) (default : pyfloat) : pyfloat :=
  match dget name env with
  | None => default
  | Some raw => match float_of_str raw with
                | Ok value => if fpos value then value else default
                | Err _ => default
                end
  end.

Definition _env_int (env : params) (name : string) (default : Z) : Z :=
  match dget name env with
  | None => default
  | Some raw => match int_of_str raw with
                | Ok value => if 0 <? value then value else default
                | Err _ => default
                end
  end.

Definition env_str (env : params) (name def : string) : string := strip (default def (dget name env)).
Definition env_flag (env : params) (name def : string) : bool :=
  bool_decide (lower (env_str env name def) ∈ ["1"; "true"; "yes"; "on"]).

Definition DEFAULT_SHARE_PREFIX := "https://matrix.setka-matrix.ru/setka-pack/".

Definition initial_config (env : params) (macaroon_secret_key : string) : PlusConfig := {|
  plus_price_rub := _env_float env "SETKA_PLUS_PRICE_RUB" (float_of_frac 299 1);
  plus_duration_days := _env_int env "SETKA_PLUS_DURATION_DAYS" 30;
  yoomoney_token := env_str env "SETKA_PLUS_YOOMONEY_OAUTH_TOKEN" "";
  yoomoney_receiver := env_str env "SETKA_PLUS_YOOMONEY_RECEIVER" "4100117689566171";
  yoomoney_return_url := env_str env "SETKA_PLUS_YOOMONEY_RETURN_URL" "";
  yoomoney_notification_secret := env_str env "SETKA_PLUS_YOOMONEY_NOTIFICATION_SECRET" "";
  robokassa_merchant_login := env_str env "SETKA_PLUS_ROBOKASSA_MERCHANT_LOGIN" "setkamatrix";
  robokassa_password1 := env_str env "SETKA_PLUS_ROBOKASSA_PASSWORD1" "";
  robokassa_password2 := env_str env "SETKA_PLUS_ROBOKASSA_PASSWORD2" "";
  robokassa_test_password1 := env_str env "SETKA_PLUS_ROBOKASSA_TEST_PASSWORD1" "";
  robokassa_test_password2 := env_str env "SETKA_PLUS_ROBOKASSA_TEST_PASSWORD2" "";
  robokassa_is_test := env_flag env "SETKA_PLUS_ROBOKASSA_IS_TEST" "0";
  robokassa_payment_url :=
    env_str env "SETKA_PLUS_ROBOKASSA_PAYMENT_URL" "https://auth.robokassa.ru/Merchant/Index.aspx";
  robokassa_callback_base_url :=
    rstrip_slash (env_str env "SETKA_PLUS_ROBOKASSA_CALLBACK_BASE_URL"
                    "https://matrix.setka-matrix.ru/setka/robokassa");
  payanyway_mnt_id := env_str env "SETKA_PLUS_PAYANYWAY_MNT_ID" "";
  payanyway_integrity_code := env_str env "SETKA_PLUS_PAYANYWAY_INTEGRITY_CODE" "";
  payanyway_is_test := env_flag env "SETKA_PLUS_PAYANYWAY_IS_TEST" "0";
  payanyway_payment_url :=
    _normalize_payanyway_assistant_url
      (default DEFAULT_ASSISTANT (dget "SETKA_PLUS_PAYANYWAY_PAYMENT_URL" env));
  payanyway_callback_base_url :=
    rstrip_slash (env_str env "SETKA_PLUS_PAYANYWAY_CALLBACK_BASE_URL"
                    "https://matrix.setka-matrix.ru/setka/payanyway");
  payanyway_api_username := env_str env "SETKA_PLUS_PAYANYWAY_API_USERNAME" "";
  payanyway_api_password := env_str env "SETKA_PLUS_PAYANYWAY_API_PASSWORD" "";
  payanyway_api_payer := str_or (env_str env "SETKA_PLUS_PAYANYWAY_API_PAYER" "364") "364";
  payanyway_api_service_url :=
    env_str env "SETKA_PLUS_PAYANYWAY_API_SERVICE_URL" "https://service.moneta.ru/services";
  payanyway_simpla_self := env_flag env "SETKA_PLUS_PAYANYWAY_SIMPLA_SELF" "1";
  payanyway_override_urls := env_flag env "SETKA_PLUS_PAYANYWAY_OVERRIDE_URLS" "0";
  share_link_prefix :=
    str_or (env_str env "SETKA_PLUS_SHARE_LINK_PREFIX" DEFAULT_SHARE_PREFIX) DEFAULT_SHARE_PREFIX;
  share_secret := str_or (env_str env "SETKA_PLUS_SHARE_SECRET" "") macaroon_secret_key;
  share_token_ttl_ms := _env_int env "SETKA_PLUS_SHARE_TOKEN_TTL_DAYS" 90 * 24 * 60 * 60 * 1000;
  support_email :=
    str_or (env_str env "SETKA_PLUS_SUPPORT_EMAIL" "support@setka-matrix.ru") "support@setka-matrix.ru";
  payment_mode := "acquiring_and_vouchers";
  voucher_footer_text := ""
|}.

(** ** The file *)

(** [value = _clean_str(config.get(key)); if value: attribute = value] *)
Definition conf_str (config : obj) (key : string) (max_len : nat) (old : string) : string :=
  default old (_clean_str (oget config key JNull) max_len).
Definition conf_url (config : obj) (key : string) (old : string) : string :=
  match _clean_str (oget config key JNull) 512 with Some url => rstrip_slash url | None => old end.
Definition conf_flag (config : obj) (key : string) (old : bool) : bool :=
  match dget key config with Some value => _clean_bool value old | None => old end.
Definition conf_mode (config : obj) (old : string) : string :=
  match _clean_str (oget config "payment_mode" JNull) 64 with
  | Some mode => if bool_decide (mode ∈ _PAYMENT_MODES) then mode else old
  | None => old
  end.

(** The settings of a file with its price and duration; [rest] says whether those that are
    read after these are reached. *)
Definition apply_config (config : obj) (price : option pyfloat) (duration : option Z) (rest : bool)
    (c : PlusConfig) : PlusConfig :=
  let str k n old := conf_str config k n old in
  let late k n old := if rest then conf_str config k n old else old in
  {|
    plus_price_rub := match price with Some p => round2 p | None => plus_price_rub c end;
    plus_duration_days := match duration with
                          | Some d => if 0 <? d then d else plus_duration_days c
                          | None => plus_duration_days c
                          end;
    yoomoney_token := str "yoomoney_token" 512%nat (yoomoney_token c);
    yoomoney_receiver := late "yoomoney_receiver" 64%nat (yoomoney_receiver c);
    yoomoney_return_url := late "yoomoney_return_url" 512%nat (yoomoney_return_url c);
    yoomoney_notification_secret := str "yoomoney_notification_secret" 512%nat (yoomoney_notification_secret c);
    robokassa_merchant_login := str "robokassa_merchant_login" 128%nat (robokassa_merchant_login c);
    robokassa_password1 := str "robokassa_password1" 512%nat (robokassa_password1 c);
    robokassa_password2 := str "robokassa_password2" 512%nat (robokassa_password2 c);
    robokassa_test_password1 := str "robokassa_test_password1" 512%nat (robokassa_test_password1 c);
    robokassa_test_password2 := str "robokassa_test_password2" 512%nat (robokassa_test_password2 c);
    robokassa_is_test := conf_flag config "robokassa_is_test" (robokassa_is_test c);
    robokassa_payment_url := str "robokassa_payment_url" 512%nat (robokassa_payment_url c);
    robokassa_callback_base_url := conf_url config "robokassa_callback_base_url" (robokassa_callback_base_url c);
    payanyway_mnt_id := str "payanyway_mnt_id" 64%nat (payanyway_mnt_id c);
    payanyway_integrity_code := str "payanyway_integrity_code" 512%nat (payanyway_integrity_code c);
    payanyway_is_test := conf_flag config "payanyway_is_test" (payanyway_is_test c);
    payanyway_payment_url := match _clean_str (oget config "payanyway_payment_url" JNull) 512 with
                             | Some url => _normalize_payanyway_assistant_url url
                             | None => payanyway_payment_url c
                             end;
    payanyway_callback_base_url := conf_url config "payanyway_callback_base_url" (payanyway_callback_base_url c);
    payanyway_api_username := str "payanyway_api_username" 128%nat (payanyway_api_username c);
    payanyway_api_password := str "payanyway_api_password" 512%nat (payanyway_api_password c);
    payanyway_api_payer := str "payanyway_api_payer" 64%nat (payanyway_api_payer c);
    payanyway_api_service_url := str "payanyway_api_service_url" 512%nat (payanyway_api_service_url c);
    payanyway_simpla_self := payanyway_simpla_self c;
    payanyway_override_urls := payanyway_override_urls c;
    share_link_prefix := late "share_link_prefix" 512%nat (share_link_prefix c);
    share_secret := share_secret c;
    share_token_ttl_ms := share_token_ttl_ms c;
    support_email := late "support_email" 255%nat (support_email c);
    payment_mode := if rest then conf_mode config (payment_mode c) else payment_mode c;
    voucher_footer_text := if rest then
                             match oget config "voucher_footer_text" JNull with
                             | JStr footer => utf8_take 2000 (strip footer)
                             | _ => ""
                             end
                           else voucher_footer_text c
  |}.

Section config.
Context `{PlusEnv}.

Definition _read_server_config_file : PlusM obj :=
  st_read (fun h => match server_config_file h with Some (JObj o) => o | _ => [] end).

Definition _persist_server_config_file (config : obj) : PlusM unit :=
  if config_writable then st_modify (fun h => set_files (Some (JObj config)) (plans_file h) h) else st_ret tt.

Definition _load_and_apply_server_config : PlusM unit :=
  let! file := _read_server_config_file in
  match file with
  | [] => st_ret tt
  | _ =>
      let! c := st_read config in
      match _clean_float (oget file "plus_price_rub" JNull) with
      | Err e => st_modify (set_config (apply_config file None None false c)) ;;! st_raise e
      | Ok price =>
          match _clean_int (oget file "plus_duration_days" JNull) with
          | Err e => st_modify (set_config (apply_config file price None false c)) ;;! st_raise e
          | Ok duration => st_modify (set_config (apply_config file price duration true c))
          end
      end
  end.

(** A new process finds the files and the database as they were left. *)
Definition start_handler (env : params) (macaroon_secret_key : string) (h : SetkaPlusHandler)
    : result unit * SetkaPlusHandler :=
  _load_and_apply_server_config
    {| config := initial_config env macaroon_secret_key; server_config_file := server_config_file h;
       plans_file := plans_file h; plans_cache := None; account_data := account_data h;
       vouchers := vouchers h; redemptions := redemptions h; voucher_tables_ready := false;
       payanyway_pending_users := []; ticks := ticks h; uuids := uuids h; randoms := randoms h |}.

(** ** [set_server_config] *)

Definition string_fields : list string :=
  ["robokassa_merchant_login"; "robokassa_callback_base_url"; "robokassa_payment_url"; "payanyway_mnt_id";
   "payanyway_callback_base_url"; "payanyway_payment_url"; "share_link_prefix"; "support_email";
   "yoomoney_receiver"; "yoomoney_return_url"].
Definition secret_fields : list string :=
  ["robokassa_password1"; "robokassa_password2"; "robokassa_test_password1"; "robokassa_test_password2";
   "payanyway_integrity_code"; "yoomoney_token"; "yoomoney_notification_secret"].

(** The fields come in the order of a set, which only decides which error is raised first. *)
Definition merge_string (updates : obj) (merged : obj) (key : string) : result obj :=
  match oget updates key JNull with
  | JNull => Ok merged
  | JStr value => let cleaned := strip value in
                  Ok (if String.eqb cleaned "" then merged else dset key (JStr cleaned) merged)
  | _ => Err (SynapseError 400 (key ++ " must be a string") PlusCodes.INVALID_PARAM)
  end.

Definition merge_flag (updates : obj) (key : string) (merged : obj) : obj :=
  match dget key updates with
  | Some value => dset key (JBool (_clean_bool value false)) merged
  | None => merged
  end.

Definition merge_numbers (updates merged : obj) : result obj :=
  let* amount := _clean_float (oget updates "plus_price_rub" JNull) in
  let* days := _clean_int (oget updates "plus_duration_days" JNull) in
  let merged := match amount with
                | Some a => dset "plus_price_rub" (JFloat (round2 a)) merged
                | None => merged
                end in
  Ok match days with
     | Some d => if 0 <? d then dset "plus_duration_days" (JInt d) merged else merged
     | None => merged
     end.

Definition merge_mode (updates merged : obj) : obj :=
  match _clean_str (oget updates "payment_mode" JNull) 64 with
  | Some mode => if bool_decide (mode ∈ _PAYMENT_MODES) then dset "payment_mode" (JStr mode) merged else merged
  | None => merged
  end.

Definition merge_footer (updates merged : obj) : result obj :=
  match dget "voucher_footer_text" updates with
  | None => Ok merged
  | Some JNull => Ok (ddel "voucher_footer_text" merged)
  | Some (JStr value) =>
      let cleaned := utf8_take 2000 (strip value) in
      Ok (if String.eqb cleaned "" then ddel "voucher_footer_text" merged
          else dset "voucher_footer_text" (JStr cleaned) merged)
  | Some _ => Err (SynapseError 400 "voucher_footer_text must be a string" PlusCodes.INVALID_PARAM)
  end.

Definition merge_config (updates stored : obj) : result obj :=
  let* merged := rfold (merge_string updates) stored string_fields in
  let* merged := rfold (merge_string updates) merged secret_fields in
  let merged := merge_flag updates "payanyway_is_test" (merge_flag updates "robokassa_is_test" merged) in
  let* merged := merge_numbers updates merged in
  merge_footer updates (merge_mode updates merged).

Definition jset (s : string) : json := JBool (negb (String.eqb s "")).

(** No secret is shown, only whether it is set; the path of the file is left out. *)
Definition get_server_config (c : PlusConfig) : obj :=
  [("robokassa_merchant_login", JStr (robokassa_merchant_login c));
   ("robokassa_password1_set", jset (robokassa_password1 c));
   ("robokassa_password2_set", jset (robokassa_password2 c));
   ("robokassa_test_password1_set", jset (robokassa_test_password1 c));
   ("robokassa_test_password2_set", jset (robokassa_test_password2 c));
   ("robokassa_is_test", JBool (robokassa_is_test c));
   ("robokassa_callback_base_url", JStr (robokassa_callback_base_url c));
   ("robokassa_payment_url", JStr (robokassa_payment_url c));
   ("payanyway_mnt_id", JStr (payanyway_mnt_id c));
   ("payanyway_integrity_code_set", jset (payanyway_integrity_code c));
   ("payanyway_is_test", JBool (payanyway_is_test c));
   ("payanyway_callback_base_url", JStr (payanyway_callback_base_url c));
   ("payanyway_payment_url", JStr (payanyway_payment_url c));
   ("payanyway_api_username_set", jset (payanyway_api_username c));
   ("payanyway_api_password_set", jset (payanyway_api_password c));
   ("payanyway_api_payer", JStr (payanyway_api_payer c));
   ("plus_price_rub", JFloat (round2 (plus_price_rub c)));
   ("plus_duration_days", JInt (plus_duration_days c));
   ("share_link_prefix", JStr (share_link_prefix c)); ("support_email", JStr (support_email c));
   ("yoomoney_receiver", JStr (yoomoney_receiver c)); ("yoomoney_return_url", JStr (yoomoney_return_url c));
   ("yoomoney_token_set", jset (yoomoney_token c));
   ("yoomoney_notification_secret_set", jset (yoomoney_notification_secret c));
   ("payment_mode", JStr (payment_mode c)); ("voucher_footer_text", JStr (voucher_footer_text c))].

Definition get_client_checkout_config (c : PlusConfig) : obj :=
  [("payment_mode", JStr (payment_mode c));
   ("checkout_enabled", JBool (bool_decide (payment_mode c = "acquiring_and_vouchers")));
   ("vouchers_enabled", JBool true); ("voucher_footer_text", JStr (voucher_footer_text c))].

Definition set_server_config (updates : json) : PlusM obj :=
  match updates with
  | JObj updates =>
      let! stored := _read_server_config_file in
      let! merged := st_lift (merge_config updates stored) in
      _persist_server_config_file merged ;;!
      _load_and_apply_server_config ;;!
      st_read (fun h => get_server_config (config h))
  | _ => st_raise (SynapseError 400 "Expected JSON object" PlusCodes.BAD_JSON)
  end.
End config.
