(* ===== verification/SetkaPlusFrame.v ===== *)
(** * SetkaPlusFrame: what the methods of Setka Plus leave alone

    A statement about the handler that does not depend on what a method changes is kept by the method.
    Three classes say what a statement must not depend on, so that it is kept by the methods
    that only read, by those that also record payments, and by all but those of the vouchers.
    The voucher tables stay as they are, and the cached plans stay in shape. *)
From S2P Require Import Prelude PyVal PySort PyState PyFloat ReplicationCommands PyEncoding.
From S2P Require Import SetkaPlusPlans SetkaPlusState SetkaPlusSubscription SetkaPlusVouchers.
From S2P Require Import SetkaPlusCheckout SetkaPlusPayanyway SetkaPlusStickers SetkaPlusConfig.
From Stdlib Require Import Ascii String.
Open Scope string_scope.
Open Scope list_scope.
Open Scope Z_scope.
Open Scope py_scope.
Open Scope st_scope.

Definition tables (h : SetkaPlusHandler) : list Voucher * list Redemption := (vouchers h, redemptions h).

(** What methods that only read change: the counters, and the plans when they are first read. *)
Class FramedReads `{PyUnicode} (I : SetkaPlusHandler -> Prop) : Prop := {
  framed_counters t u r h : I h -> I (set_counters t u r h);
  framed_files c p h : I h -> I (set_files c p h);
  framed_plans price raw plans h :
    _normalize_plans price raw = Ok plans -> I h -> I (set_plans_cache (Some plans) h)
}.

(** And those that record payments. *)
Class FramedPayments `{PyUnicode} (I : SetkaPlusHandler -> Prop) : Prop := {
  framed_reads :: FramedReads I;
  framed_payments u c h :
    I h -> I (set_account_data (<[(u, AccountDataTypes.SETKA_PLUS_PAYMENTS) := c]>) h);
  framed_pending f h : I h -> I (set_pending_users f h)
}.

Class Framed `{PyUnicode} (I : SetkaPlusHandler -> Prop) : Prop := {
  framed_pays :: FramedPayments I;
  framed_account_data f h : I h -> I (set_account_data f h);
  framed_ready h : I h -> I (set_tables_ready h);
  framed_config c h : I h -> I (set_config c h)
}.
#[export] Hint Resolve framed_reads framed_pays : keeps.

(** The plans that were read are in shape. *)
Definition plans_inv (h : SetkaPlusHandler) : Prop := forall plans, plans_cache h = Some plans -> plans_ok plans.

#[export] Instance tables_framed `{PyUnicode} t : Framed (fun h => tables h = t).
Proof. by repeat split. Qed.
#[export] Instance plans_framed `{PyUnicode} : Framed plans_inv.
Proof.
  split; [split; [split|..]|..]; try done. intros price raw plans h Hp _ plans1 [= <-].
  by eapply normalize_plans_ok.
Qed.

Section frame.
Context `{PlusEnv, JsonCodec} (I : SetkaPlusHandler -> Prop) `{!FramedReads I}.

Abbreviation same := (preserves I).

Lemma keeps_lift_bind {A B} (r : result A) (k : A -> PlusM B) :
  (forall a, r = Ok a -> same (k a)) -> same (st_bind (st_lift r) k).
Proof. intros Hk h Hh. unfold st_bind, st_lift. destruct r as [a|e]; [by apply (Hk a)|done]. Qed.
Lemma same_modify f : (forall h, I h -> I (f h)) -> same (st_modify f).
Proof. intros Hf h Hh. by apply Hf. Qed.
Lemma same_now : same _now_ms. Proof. intros h Hh. by apply framed_counters. Qed.
Lemma same_uuid : same new_uuid. Proof. intros h Hh. by apply framed_counters. Qed.
Lemma same_randint : same randint. Proof. intros h Hh. by apply framed_counters. Qed.
Lemma same_get_data u ty : same (get_global_account_data_by_type_for_user u ty). Proof. by intros h. Qed.
Lemma same_persist_plans l : same (_persist_plans_file l).
Proof. unfold _persist_plans_file. destruct plans_writable; intros h Hh; [by apply framed_files|done]. Qed.
Lemma same_analytics : same _safe_record_analytics. Proof. by intros h. Qed.
Lemma same_load_plans : same _load_plans.
Proof.
  unfold _load_plans. apply keeps_bind; [apply keeps_read|intros [plans|]]; [apply keeps_ret|].
  apply keeps_bind; [apply keeps_read|intros parsed]. apply keeps_bind; [apply keeps_read|intros c].
  apply keeps_lift_bind. intros plans Hp.
  apply keeps_bind; [apply same_modify; intros h Hh; by eapply framed_plans|intros _].
  apply keeps_bind; [apply same_persist_plans|intros _]. apply keeps_ret.
Qed.
End frame.

#[export] Hint Resolve same_now same_uuid same_randint same_get_data same_persist_plans
  same_analytics same_load_plans : keeps.

(** A method is gone through call by call. *)
Ltac same_step :=
  match goal with
  | |- forall _, _ => intros ?
  | |- preserves _ (st_bind _ _) => apply keeps_bind; [|intros ?]
  | |- preserves _ (match ?x with _ => _ end) => destruct x
  | |- preserves _ (st_fold _ _ _) => apply keeps_fold
  | |- preserves _ _ => solve [eauto with keeps]
  end.
Ltac same_auto := repeat (cbn beta zeta; same_step).

(** ** Methods that read *)

Section frame.
Context `{PlusEnv, JsonCodec} (I : SetkaPlusHandler -> Prop) `{!FramedReads I}.

Abbreviation same := (preserves I).

Lemma same_find_plan id : same (find_plan id).
Proof. unfold find_plan. same_auto. Qed.
#[local] Hint Resolve same_find_plan : keeps.
Lemma same_resolve_plan id : same (resolve_plan id).
Proof. unfold resolve_plan. same_auto. Qed.
#[local] Hint Resolve same_resolve_plan : keeps.
Lemma same_set_plans p : same (set_plans p).
Proof.
  unfold set_plans. apply keeps_bind; [apply keeps_read|intros c]. apply keeps_lift_bind. intros plans Hp.
  apply keeps_bind; [apply same_modify; intros h Hh; by eapply framed_plans|intros _]. same_auto.
Qed.
#[local] Hint Resolve same_set_plans : keeps.
Lemma same_normalize raw : same (_normalize_subscription raw).
Proof. unfold _normalize_subscription. same_auto. Qed.
#[local] Hint Resolve same_normalize : keeps.
Lemma same_get_subscription u : same (get_subscription u). Proof. unfold get_subscription. same_auto. Qed.
#[local] Hint Resolve same_get_subscription : keeps.
Lemma same_set_tier u p : same (set_tier u p). Proof. unfold set_tier. same_auto. Qed.
#[local] Hint Resolve same_set_tier : keeps.
Lemma same_assert_plus u : same (_assert_plus_active u). Proof. unfold _assert_plus_active. same_auto. Qed.
#[local] Hint Resolve same_assert_plus : keeps.
Lemma same_created_at i : same (created_at_of i). Proof. unfold created_at_of. same_auto. Qed.
#[local] Hint Resolve same_created_at : keeps.
Lemma same_clean_payment l i : same (clean_payment l i). Proof. unfold clean_payment. same_auto. Qed.
#[local] Hint Resolve same_clean_payment : keeps.
Lemma same_get_payments u : same (get_payments u). Proof. unfold get_payments. same_auto. Qed.
#[local] Hint Resolve same_get_payments : keeps.
Lemma same_status u p : same (get_payment_status u p). Proof. unfold get_payment_status. same_auto. Qed.
#[local] Hint Resolve same_status : keeps.
Lemma same_by_inv u p : same (find_payment_by_inv_id u p). Proof. unfold find_payment_by_inv_id. same_auto. Qed.
#[local] Hint Resolve same_by_inv : keeps.
Lemma same_acquiring : same _assert_acquiring_enabled. Proof. unfold _assert_acquiring_enabled. same_auto. Qed.
#[local] Hint Resolve same_acquiring : keeps.
Lemma same_robokassa_id u i p f : same (robokassa_payment_id u i p f).
Proof. unfold robokassa_payment_id. same_auto. Qed.
#[local] Hint Resolve same_robokassa_id : keeps.
Lemma same_render u p s : same (render_payanyway_checkout_page u p s).
Proof. unfold render_payanyway_checkout_page. same_auto. Qed.
#[local] Hint Resolve same_render : keeps.
Lemma same_check_url p : same (handle_payanyway_check_url p).
Proof. unfold handle_payanyway_check_url. same_auto. Qed.
#[local] Hint Resolve same_check_url : keeps.
Lemma same_time_or_now v : same (time_or_now v). Proof. unfold time_or_now. same_auto. Qed.
#[local] Hint Resolve same_time_or_now : keeps.
Lemma same_clean_sticker k l i : same (clean_sticker k l i). Proof. unfold clean_sticker. same_auto. Qed.
#[local] Hint Resolve same_clean_sticker : keeps.
Lemma same_stickers r k : same (_normalize_stickers r k). Proof. unfold _normalize_stickers. same_auto. Qed.
#[local] Hint Resolve same_stickers : keeps.
Lemma same_clean_pack l i : same (clean_pack l i). Proof. unfold clean_pack. same_auto. Qed.
#[local] Hint Resolve same_clean_pack : keeps.
Lemma same_packs r : same (_normalize_sticker_packs r). Proof. unfold _normalize_sticker_packs. same_auto. Qed.
#[local] Hint Resolve same_packs : keeps.
Lemma same_get_packs u : same (get_sticker_packs u). Proof. unfold get_sticker_packs. same_auto. Qed.
#[local] Hint Resolve same_get_packs : keeps.
Lemma same_create_token u i a : same (create_share_token u i a).
Proof. unfold create_share_token. same_auto. Qed.
#[local] Hint Resolve same_create_token : keeps.
Lemma same_expired c i : same (link_expired c i). Proof. unfold link_expired. same_auto. Qed.
#[local] Hint Resolve same_expired : keeps.
Lemma same_resolve_pack tk : same (resolve_shared_pack tk). Proof. unfold resolve_shared_pack. same_auto. Qed.
#[local] Hint Resolve same_resolve_pack : keeps.
End frame.

#[export] Hint Resolve same_find_plan same_resolve_plan same_set_plans same_normalize
  same_get_subscription same_set_tier same_assert_plus same_created_at same_clean_payment
  same_get_payments same_status same_by_inv same_acquiring same_robokassa_id same_render
  same_check_url same_time_or_now same_clean_sticker same_stickers same_clean_pack same_packs
  same_get_packs same_create_token same_expired same_resolve_pack : keeps.

(** ** Methods that record payments *)

Section frame.
Context `{PlusEnv, JsonCodec} (I : SetkaPlusHandler -> Prop) `{!FramedPayments I}.

Abbreviation same := (preserves I).

Lemma same_add_payments u c : same (add_account_data_for_user u AccountDataTypes.SETKA_PLUS_PAYMENTS c).
Proof. unfold add_account_data_for_user. destruct (encodable c); intros h Hh; [by apply framed_payments|done]. Qed.
#[local] Hint Resolve same_add_payments : keeps.
Lemma same_pending f : same (st_modify (set_pending_users f)). Proof. apply same_modify, framed_pending. Qed.
#[local] Hint Resolve same_pending : keeps.
Lemma same_track u p e : same (track_pending u p e). Proof. unfold track_pending. same_auto. Qed.
#[local] Hint Resolve same_track : keeps.
Lemma same_record u p : same (record_payment u p). Proof. unfold record_payment. same_auto. Qed.
#[local] Hint Resolve same_record : keeps.
Lemma same_mark_failed u p m : same (mark_payment_failed u p m). Proof. unfold mark_payment_failed. same_auto. Qed.
#[local] Hint Resolve same_mark_failed : keeps.
Lemma same_robokassa_return p s : same (resolve_robokassa_browser_return p s).
Proof. unfold resolve_robokassa_browser_return. same_auto. Qed.
#[local] Hint Resolve same_robokassa_return : keeps.
Lemma same_payanyway_return p s : same (resolve_payanyway_browser_return p s).
Proof. unfold resolve_payanyway_browser_return. same_auto. Qed.
#[local] Hint Resolve same_payanyway_return : keeps.
End frame.

#[export] Hint Resolve same_add_payments same_pending same_track same_record same_mark_failed
  same_robokassa_return same_payanyway_return : keeps.

(** ** The others *)

Section frame.
Context `{PlusEnv, JsonCodec} (I : SetkaPlusHandler -> Prop) `{!Framed I}.

Abbreviation same := (preserves I).

Lemma same_add_data u ty c : same (add_account_data_for_user u ty c).
Proof. unfold add_account_data_for_user. destruct (encodable c); intros h Hh; [by apply framed_account_data|done]. Qed.
#[local] Hint Resolve same_add_data : keeps.
Lemma same_remove_data u ty : same (remove_account_data_for_user u ty).
Proof. apply same_modify, framed_account_data. Qed.
#[local] Hint Resolve same_remove_data : keeps.
Lemma same_ready : same (st_modify set_tables_ready). Proof. apply same_modify, framed_ready. Qed.
#[local] Hint Resolve same_ready : keeps.
Lemma same_set_config c : same (st_modify (set_config c)). Proof. apply same_modify, framed_config. Qed.
#[local] Hint Resolve same_set_config : keeps.
Lemma same_set_subscription u p : same (set_subscription u p). Proof. unfold set_subscription. same_auto. Qed.
#[local] Hint Resolve same_set_subscription : keeps.
Lemma same_activate u p pr a i d c : same (activate_subscription u p pr a i d c).
Proof. unfold activate_subscription. same_auto. Qed.
#[local] Hint Resolve same_activate : keeps.
Lemma same_put m r u ty b : same (account_data_put m r u ty b). Proof. unfold account_data_put. same_auto. Qed.
#[local] Hint Resolve same_put : keeps.
Lemma same_delete r u ty : same (account_data_delete r u ty). Proof. unfold account_data_delete. same_auto. Qed.
#[local] Hint Resolve same_delete : keeps.
Lemma same_pending_sub u p a : same (mark_pending u p a).
Proof. unfold mark_pending, _record_checkout_started. same_auto. Qed.
#[local] Hint Resolve same_pending_sub : keeps.
Lemma same_create_yoomoney u a d i r : same (create_yoomoney_payment_request u a d i r).
Proof. unfold create_yoomoney_payment_request. same_auto. Qed.
#[local] Hint Resolve same_create_yoomoney : keeps.
Lemma same_process_yoomoney u r i a : same (process_yoomoney_payment u r i a).
Proof. unfold process_yoomoney_payment. same_auto. Qed.
#[local] Hint Resolve same_process_yoomoney : keeps.
Lemma same_yoomoney_webhook p : same (handle_yoomoney_webhook p).
Proof. unfold handle_yoomoney_webhook. same_auto. Qed.
#[local] Hint Resolve same_yoomoney_webhook : keeps.
Lemma same_create_robokassa u a d i : same (create_robokassa_payment_request u a d i).
Proof. unfold create_robokassa_payment_request. same_auto. Qed.
#[local] Hint Resolve same_create_robokassa : keeps.
Lemma same_robokassa_result p : same (handle_robokassa_result p).
Proof. unfold handle_robokassa_result. same_auto. Qed.
#[local] Hint Resolve same_robokassa_result : keeps.
Lemma same_create_payanyway u a d i r : same (create_payanyway_payment_request u a d i r).
Proof. unfold create_payanyway_payment_request. same_auto. Qed.
#[local] Hint Resolve same_create_payanyway : keeps.
Lemma same_pay_url p : same (handle_payanyway_pay_url p).
Proof. unfold handle_payanyway_pay_url. same_auto. Qed.
#[local] Hint Resolve same_pay_url : keeps.
Lemma same_upsert_pack u i c a o : same (upsert_sticker_pack u i c a o).
Proof. unfold upsert_sticker_pack, write_packs. same_auto. Qed.
#[local] Hint Resolve same_upsert_pack : keeps.
Lemma same_delete_pack u i a : same (delete_sticker_pack u i a).
Proof. unfold delete_sticker_pack, write_packs. same_auto. Qed.
#[local] Hint Resolve same_delete_pack : keeps.
Lemma same_import_pack u tk : same (import_shared_pack u tk). Proof. unfold import_shared_pack. same_auto. Qed.
#[local] Hint Resolve same_import_pack : keeps.
Lemma same_persist_config c : same (_persist_server_config_file c).
Proof. unfold _persist_server_config_file. destruct config_writable; intros h Hh; [by apply framed_files|done]. Qed.
#[local] Hint Resolve same_persist_config : keeps.
Lemma same_load_config : same _load_and_apply_server_config.
Proof. unfold _load_and_apply_server_config, _read_server_config_file. same_auto. Qed.
#[local] Hint Resolve same_load_config : keeps.
Lemma same_set_server_config u : same (set_server_config u).
Proof. unfold set_server_config, _read_server_config_file. same_auto. Qed.
#[local] Hint Resolve same_set_server_config : keeps.
End frame.

#[export] Hint Resolve same_add_data same_remove_data same_ready same_set_config
  same_set_subscription same_activate same_put same_delete same_pending_sub same_create_yoomoney
  same_process_yoomoney same_yoomoney_webhook same_create_robokassa same_robokassa_result
  same_create_payanyway same_pay_url same_upsert_pack same_delete_pack same_import_pack
  same_persist_config same_load_config same_set_server_config : keeps.

(** ** What the methods of vouchers share *)

Section frame.
Context `{PlusEnv, JsonCodec} (I : SetkaPlusHandler -> Prop) `{!FramedReads I}.

Abbreviation same := (preserves I).

Lemma same_new_code code : same (new_voucher_code code). Proof. unfold new_voucher_code. same_auto. Qed.
Lemma same_check_plan plan : same (check_plan plan). Proof. unfold check_plan. same_auto. Qed.
#[local] Hint Resolve same_check_plan : keeps.
Lemma same_changed body v : same (changed_voucher body v).
Proof. unfold changed_voucher, update_plan. same_auto. Qed.
Lemma same_days v : same (voucher_days v). Proof. unfold voucher_days. same_auto. Qed.
End frame.

#[export] Hint Resolve same_new_code same_check_plan same_changed same_days : keeps.

Section frame.
Context `{PlusEnv, JsonCodec} (I : SetkaPlusHandler -> Prop) `{!Framed I}.

Abbreviation same := (preserves I).

Lemma same_ensure : same _ensure_voucher_tables. Proof. apply same_ready, _. Qed.
Lemma same_transaction {A} (c : PlusM A) : same c -> same (runInteraction c).
Proof. intros Hc h Hh. specialize (Hc h Hh). unfold runInteraction. by destruct (c h) as [[?|?] ?]. Qed.
Lemma same_refuse {A} (c : PlusM A) : same c -> same (refuse_duplicate c).
Proof. intros Hc h Hh. specialize (Hc h Hh). unfold refuse_duplicate. by destruct (c h) as [[?|?] ?]. Qed.
#[local] Hint Resolve same_ensure same_transaction : keeps.
Lemma same_get_voucher code : same (get_voucher code). Proof. unfold get_voucher. same_auto. Qed.
#[local] Hint Resolve same_get_voucher : keeps.
Lemma same_list_vouchers : same list_vouchers. Proof. unfold list_vouchers. same_auto. Qed.
Lemma same_redemptions code : same (get_voucher_redemptions code).
Proof. unfold get_voucher_redemptions. same_auto. Qed.
End frame.

#[export] Hint Resolve same_ensure same_get_voucher same_list_vouchers same_redemptions : keeps.

(** ** The methods that write the tables *)

Class TableFramed (I : SetkaPlusHandler -> Prop) : Prop := {
  framed_vouchers f h : I h -> I (set_vouchers f h);
  framed_redemptions f h : I h -> I (set_redemptions f h)
}.

#[export] Instance plans_table_framed : TableFramed plans_inv.
Proof. by split. Qed.

Section frame.
Context `{PlusEnv, JsonCodec} (I : SetkaPlusHandler -> Prop) `{!Framed I, !TableFramed I}.

Abbreviation same := (preserves I).

Lemma same_set_vouchers f : same (st_modify (set_vouchers f)). Proof. apply same_modify, framed_vouchers. Qed.
Lemma same_set_redemptions f : same (st_modify (set_redemptions f)).
Proof. apply same_modify, framed_redemptions. Qed.
#[local] Hint Resolve same_set_vouchers same_set_redemptions : keeps.
Lemma same_insert v : same (insert_voucher v). Proof. unfold insert_voucher. same_auto. Qed.
Lemma same_reserve c u n : same (_reserve c u n).
Proof. unfold _reserve, insert_redemption. same_auto. Qed.

Ltac voucher_auto :=
  repeat first [progress (cbn beta zeta; same_step) | apply same_refuse | apply same_transaction];
  eauto using same_insert, same_reserve with keeps.

Lemma same_create b : same (create_voucher b). Proof. unfold create_voucher. voucher_auto. Qed.
Lemma same_update c b : same (update_voucher c b). Proof. unfold update_voucher. voucher_auto. Qed.
Lemma same_delete_voucher c : same (delete_voucher c). Proof. unfold delete_voucher. voucher_auto. Qed.
Lemma same_redeem u c : same (redeem_voucher u c). Proof. unfold redeem_voucher. voucher_auto. Qed.
End frame.

#[export] Hint Resolve same_create same_update same_delete_voucher same_redeem : keeps.
#[export] Hint Resolve tables_framed plans_framed plans_table_framed : keeps.

(** ** Other statements that are kept *)

#[export] Instance data_framed `{PyUnicode} d : FramedReads (fun h => account_data h = d).
Proof. by split. Qed.

(** Everything but the payments. *)
#[export] Instance other_framed `{PyUnicode} k d : k.2 <> AccountDataTypes.SETKA_PLUS_PAYMENTS ->
  FramedPayments (fun h => account_data h !! k = d).
Proof.
  intros Hk. split; [by split| |done]. intros u c h Hh. cbn. rewrite lookup_insert_ne; [done|].
  by intros <-.
Qed.
#[export] Instance config_framed `{PyUnicode} c : FramedPayments (fun h => config h = c).
Proof. by split; [split|..]. Qed.

Lemma kept {A} I (c : PlusM A) h r h' : preserves I c -> c h = (r, h') -> I h -> I h'.
Proof. intros Hc E Hh. specialize (Hc h Hh). by rewrite E in Hc. Qed.

(** A method that only reads leaves the account data alone. *)
Lemma reads_data {A} (c : PlusM A) h r h' : (forall d, preserves (fun h => account_data h = d) c) ->
  c h = (r, h') -> account_data h' = account_data h.
Proof. intros Hc E. specialize (Hc _ h eq_refl). by rewrite E in Hc. Qed.
