(* ===== verification/SetkaPlusVoucherProps.v ===== *)
(** * SetkaPlusVoucherProps: vouchers are counted right

    The abstract object is a ledger: vouchers are issued, changed and redeemed.  Every call of
    the handler, whatever it raises, is a sequence of the ledger's steps; so the tables keep
    their invariant, and no user redeems a voucher twice. *)
From S2P Require Import Prelude PyVal PySort PyState PyFloat ReplicationCommands PyEncoding.
From S2P Require Import SetkaDb SetkaPlusPlans SetkaPlusState SetkaPlusSubscription.
From S2P Require Import SetkaPlusVouchers SetkaPlusCheckout SetkaPlusPayanyway.
From S2P Require Import SetkaPlusStickers SetkaPlusConfig SetkaPlusFrame.
From Stdlib Require Import Ascii String.
Open Scope string_scope.
Open Scope list_scope.
Open Scope Z_scope.
Open Scope py_scope.
Open Scope st_scope.

(** ** The tables *)

Definition redeemed (code : string) (rows : list Redemption) : Z :=
  Z.of_nat (Datatypes.length (List.filter (is_redemption code) rows)).

Definition redemption_key (r : Redemption) : string * string := (r_code r, r_user_id r).

(** Codes are unique, and so is a user's redemption of a code, which is of a code that exists;
    the limits are positive; and a voucher counts its redemptions. *)
Record tables_inv (t : list Voucher * list Redemption) : Prop := {
  ti_codes : NoDup (map v_code t.1);
  ti_redemptions : NoDup (map redemption_key t.2);
  ti_known : forall r, r ∈ t.2 -> r_code r ∈ map v_code t.1;
  ti_count : forall v, v ∈ t.1 -> v_redemption_count v = redeemed (v_code v) t.2;
  ti_limits : forall v, v ∈ t.1 -> 0 < v_max_redemptions v /\ 0 < v_max_per_user v
}.

Abbreviation voucher_inv h := (tables_inv (tables h)).

Lemma has_code_iff code v : has_code code v = true <-> v_code v = code.
Proof. apply String.eqb_eq. Qed.

Lemma in_update_where {R} (p : R -> bool) f (rows : list R) x :
  x ∈ update_where p f rows <-> exists y, y ∈ rows /\ x = if p y then f y else y.
Proof. unfold update_where. rewrite in_map_b. naive_solver. Qed.

Lemma update_where_codes p f rows : (forall v, v_code (f v) = v_code v) ->
  map v_code (update_where p f rows) = map v_code rows.
Proof. intros Hf. unfold update_where. rewrite map_map. apply map_ext. intros v. by destruct (p v). Qed.

Lemma redeemed_add code rows r :
  redeemed code (rows ++ [r]) = redeemed code rows + if is_redemption code r then 1 else 0.
Proof.
  unfold redeemed. rewrite List.filter_app, length_app. simpl. destruct (is_redemption code r); simpl; lia.
Qed.

Lemma redeemed_none code rows : (forall r, r ∈ rows -> r_code r <> code) -> redeemed code rows = 0.
Proof.
  intros Hn. unfold redeemed. destruct (List.filter _ rows) as [|r l] eqn:E; [done|].
  assert (Hr : r ∈ List.filter (is_redemption code) rows) by (rewrite E; left).
  apply in_filter_b in Hr as [Hr Hc]. apply String.eqb_eq in Hc. by destruct (Hn r Hr).
Qed.

(** ** The ledger *)

Definition codes (t : list Voucher * list Redemption) : list string := map v_code t.1.

(** A voucher is redeemed while it is active and not over, less often than its limit, and by a
    user who did not redeem it yet. *)
Inductive ledger_step : list Voucher * list Redemption -> list Voucher * list Redemption -> Prop :=
  | issue t v :
      v_code v ∉ codes t -> v_redemption_count v = 0 -> 0 < v_max_redemptions v -> 0 < v_max_per_user v ->
      ledger_step t (t.1 ++ [v], t.2)
  | change t code f :
      (forall v, v_code (f v) = v_code v /\ v_redemption_count (f v) = v_redemption_count v /\
         (0 < v_max_redemptions v /\ 0 < v_max_per_user v ->
          0 < v_max_redemptions (f v) /\ 0 < v_max_per_user (f v))) ->
      ledger_step t (update_where (has_code code) f t.1, t.2)
  | redeem t v user now :
      v ∈ t.1 -> v_is_active v = true -> now < v_expires_at v ->
      v_redemption_count v < v_max_redemptions v ->
      (v_code v, user) ∉ map redemption_key t.2 ->
      ledger_step t (update_where (has_code (v_code v)) count_redemption t.1,
                     t.2 ++ [{| r_code := v_code v; r_user_id := user; r_redeemed_at := now |}]).

Lemma insert_inv t v : tables_inv t -> v_code v ∉ map v_code t.1 -> v_redemption_count v = 0 ->
  0 < v_max_redemptions v /\ 0 < v_max_per_user v -> tables_inv (t.1 ++ [v], t.2).
Proof.
  intros [H1 H2 H3 H4 H5] Hnew Hc Hl. split; simpl.
  - rewrite map_app. apply NoDup_app. split; [done|]. split; [|simpl; apply NoDup_singleton].
    intros x Hx ->%list_elem_of_singleton. done.
  - done.
  - intros r Hr. rewrite map_app, elem_of_app. left. by apply H3.
  - intros w [Hw| ->%list_elem_of_singleton]%elem_of_app; [by apply H4|]. rewrite redeemed_none; [done|].
    intros r Hr Heq. apply Hnew. rewrite <- Heq. by apply H3.
  - intros w [Hw| ->%list_elem_of_singleton]%elem_of_app; [by apply H5|done].
Qed.

Lemma update_inv t code f : tables_inv t ->
  (forall v, v_code (f v) = v_code v /\ v_redemption_count (f v) = v_redemption_count v /\
     (0 < v_max_redemptions v /\ 0 < v_max_per_user v -> 0 < v_max_redemptions (f v) /\ 0 < v_max_per_user (f v))) ->
  tables_inv (update_where (has_code code) f t.1, t.2).
Proof.
  intros [H1 H2 H3 H4 H5] Hf. split; simpl; rewrite ?update_where_codes by (intros; apply Hf); try done.
  - intros v (y & Hy & ->)%in_update_where. destruct (Hf y) as (Hc & Hn & _).
    destruct (has_code code y); rewrite ?Hc, ?Hn; by apply H4.
  - intros v (y & Hy & ->)%in_update_where. destruct (has_code code y); [apply Hf|]; by apply H5.
Qed.

Lemma redeem_inv t code user now : tables_inv t -> code ∈ map v_code t.1 ->
  (forall r, r ∈ t.2 -> redemption_key r <> (code, user)) ->
  tables_inv (update_where (has_code code) count_redemption t.1,
              t.2 ++ [{| r_code := code; r_user_id := user; r_redeemed_at := now |}]).
Proof.
  intros [H1 H2 H3 H4 H5] Hcode Hnew. split; simpl; rewrite ?update_where_codes by done; try done.
  - rewrite map_app. apply NoDup_app. split; [done|]. split; [|simpl; apply NoDup_singleton].
    intros x (r & -> & Hr)%in_map_b Heq%list_elem_of_singleton. by destruct (Hnew r Hr).
  - intros r [Hr| ->%list_elem_of_singleton]%elem_of_app; [by apply H3|done].
  - intros v (y & Hy & ->)%in_update_where. rewrite redeemed_add. unfold is_redemption at 1. cbn [r_code].
    destruct (has_code code y) eqn:E.
    + apply has_code_iff in E. cbn [count_redemption v_redemption_count v_code]. rewrite (H4 y Hy), E.
      by rewrite String.eqb_refl.
    + rewrite (H4 y Hy). destruct (String.eqb_spec code (v_code y)) as [Heq|]; [|by rewrite Z.add_0_r].
      pose proof (proj2 (has_code_iff code y) (eq_sym Heq)). congruence.
  - intros v (y & Hy & ->)%in_update_where. destruct (has_code code y); exact (H5 y Hy).
Qed.

Lemma ledger_step_inv t t' : ledger_step t t' -> tables_inv t -> tables_inv t'.
Proof.
  intros [? v Hn Hc Hr Hu|? code f Hf|? v user now Hv _ _ _ Hn] Ht.
  - by apply insert_inv.
  - by apply update_inv.
  - apply redeem_inv; [done|by apply in_map_b; exists v|].
    intros r Hr Hk. apply Hn. apply in_map_b. by exists r.
Qed.

Lemma ledger_inv t t' : rtc ledger_step t t' -> tables_inv t -> tables_inv t'.
Proof. induction 1 as [|t t1 t' Hs _ IH]; intros Ht; [done|]. apply IH. by eapply ledger_step_inv. Qed.

(** Redemptions stay. *)
Lemma ledger_keeps_redemption k t t' : rtc ledger_step t t' ->
  k ∈ map redemption_key t.2 -> k ∈ map redemption_key t'.2.
Proof.
  induction 1 as [|t t1 t' Hs _ IH]; [done|]. intros Hk. apply IH.
  destruct Hs; simpl; [done..|]. rewrite map_app. apply elem_of_app. by left.
Qed.

(** ** The transaction of a redemption *)

(** A voucher that [user] can redeem. *)
Definition redeemable (h : SetkaPlusHandler) (code user : string) (now : Z) (v : Voucher) : Prop :=
  v ∈ vouchers h /\ v_code v = code /\ v_is_active v = true /\ now < v_expires_at v /\
  v_redemption_count v < v_max_redemptions v /\ (code, user) ∉ map redemption_key (redemptions h).

(** The rows after it. *)
Definition booked (code user : string) (now : Z) (h : SetkaPlusHandler) : SetkaPlusHandler :=
  set_vouchers (update_where (has_code code) count_redemption)
    (set_redemptions (fun rows => rows ++ [{| r_code := code; r_user_id := user; r_redeemed_at := now |}]) h).

Section reserve.
Context `{PlusEnv}.

Lemma redemption_by_iff code user rows :
  row_exists (is_redemption_by code user) rows = true <-> (code, user) ∈ map redemption_key rows.
Proof.
  unfold row_exists. rewrite existsb_exists, in_map_b. unfold is_redemption_by, is_redemption, redemption_key.
  split.
  - intros (r & Hr & [Hc Hu]%andb_true_iff).
    apply String.eqb_eq in Hc, Hu. exists r. rewrite Hc, Hu. by rewrite list_elem_of_In.
  - intros (r & [= -> ->] & Hr). exists r. rewrite <- list_elem_of_In. by rewrite !String.eqb_refl.
Qed.

Lemma reserve_ok code user now h v h' : _reserve code user now h = (Ok v, h') ->
  redeemable h code user now v /\ h' = booked code user now h.
Proof.
  unfold _reserve. intros E. apply st_bind_ok in E as (row & h1 & E1 & E). injection E1 as Erow <-.
  destruct row as [w|]; [|done].
  destruct (v_is_active w) eqn:Ea; [|done]. destruct (v_expires_at w <=? now) eqn:Ex; [done|].
  destruct (v_max_redemptions w <=? v_redemption_count w) eqn:Em; [done|]. cbn [negb] in E.
  apply st_bind_ok in E as (n & h2 & E2 & E). injection E2 as _ <-.
  destruct (v_max_per_user w <=? n); [done|].
  apply st_bind_ok in E as ([] & h2 & E3 & E). apply st_bind_ok in E as ([] & h3 & E4 & E).
  injection E4 as <-. injection E as <- <-.
  unfold insert_redemption in E3. apply st_bind_ok in E3 as (b & h4 & E5 & E3). injection E5 as Eb <-.
  destruct b; [done|]. injection E3 as <-. cbn [r_code r_user_id] in Eb.
  apply find_some in Erow as [Hw Hc]. apply has_code_iff in Hc. split; [|done].
  split; [by apply list_elem_of_In|]. split; [done|]. split; [done|]. split; [lia|]. split; [lia|].
  rewrite <- redemption_by_iff. congruence.
Qed.
Lemma find_unique (rows : list Voucher) v : NoDup (map v_code rows) -> v ∈ rows ->
  List.find (has_code (v_code v)) rows = Some v.
Proof.
  induction rows as [|w rows IH]; [by intros ? ?%elem_of_nil|]. simpl.
  intros [Hn Hd]%NoDup_cons [->|Hv]%elem_of_cons; unfold has_code at 1.
  - by rewrite String.eqb_refl.
  - destruct (String.eqb_spec (v_code w) (v_code v)) as [Heq|]; [|by apply IH].
    destruct Hn. rewrite Heq. apply in_map_b. by exists v.
Qed.

Lemma none_of_user code user rows : (code, user) ∉ map redemption_key rows ->
  List.filter (is_redemption_by code user) rows = [].
Proof.
  intros Hn. destruct (List.filter _ rows) as [|r l] eqn:E; [done|]. destruct Hn.
  assert (Hr : r ∈ List.filter (is_redemption_by code user) rows) by (rewrite E; left).
  apply in_filter_b in Hr as [Hr [Hc Hu]%andb_true_iff]. apply String.eqb_eq in Hc, Hu.
  apply in_map_b. exists r. by rewrite <- Hc, <- Hu.
Qed.

(** A voucher that can be redeemed is. *)
Lemma reserve_spec code user now h v : tables_inv (tables h) -> redeemable h code user now v ->
  _reserve code user now h = (Ok v, booked code user now h).
Proof.
  intros Ht (Hv & <- & Ha & Hx & Hm & Hn). unfold _reserve, st_bind, st_read. cbn [fst snd].
  unfold fetchone. rewrite (find_unique (vouchers h) v (ti_codes _ Ht) Hv), Ha. cbn [negb].
  rewrite (proj2 (Z.leb_gt _ _) Hx), (proj2 (Z.leb_gt _ _) Hm). rewrite none_of_user by done.
  pose proof (ti_limits _ Ht v Hv) as [_ Hl]. cbn [Datatypes.length].
  change (Z.of_nat 0) with 0.
  rewrite (proj2 (Z.leb_gt _ _) Hl). unfold insert_redemption, st_bind, st_read. cbn [r_code r_user_id].
  destruct (row_exists _ _) eqn:Eb; [by apply redemption_by_iff in Eb|]. done.
Qed.
End reserve.

(** ** The methods *)

Section methods.
Context `{PlusEnv, JsonCodec} (t : list Voucher * list Redemption).

(** What a method does to the tables are steps of the ledger. *)
Abbreviation books := (preserves (fun h => rtc ledger_step t (tables h))).

#[local] Instance ledger_framed : Framed (fun h => rtc ledger_step t (tables h)).
Proof. by split; [split; [split|..]|..]. Qed.
#[local] Hint Resolve ledger_framed : keeps.

Lemma transaction_books {A} (c : PlusM A) :
  (forall h a h', c h = (Ok a, h') -> rtc ledger_step (tables h) (tables h')) -> books (runInteraction c).
Proof.
  intros Hc h Hh. unfold runInteraction. destruct (c h) as [[a|e] h'] eqn:E; simpl; [|done].
  etrans; [done|]. by eapply Hc.
Qed.

Lemma insert_books v : v_redemption_count v = 0 -> 0 < v_max_redemptions v -> 0 < v_max_per_user v ->
  books (runInteraction (insert_voucher v)).
Proof.
  intros Hc Hr Hu. apply transaction_books. intros h [] h' E. unfold insert_voucher in E.
  apply st_bind_ok in E as ([] & h1 & E1 & E). injection E1 as _ ->.
  apply st_bind_ok in E as (b & h2 & E2 & E). injection E2 as <- <-.
  destruct (row_exists _ _) eqn:Ex; [done|]. injection E as <-. apply rtc_once, (issue (tables h1) v); [|done..].
  intros (w & Hw & Hin)%in_map_b. unfold row_exists in Ex.
  assert (Hex : existsb (has_code (v_code v)) (vouchers h1) = true).
  { apply existsb_exists. exists w. split; [by apply list_elem_of_In|]. by apply has_code_iff. }
  congruence.
Qed.

Lemma update_books code f :
  (forall v, v_code (f v) = v_code v /\ v_redemption_count (f v) = v_redemption_count v /\
     (0 < v_max_redemptions v /\ 0 < v_max_per_user v -> 0 < v_max_redemptions (f v) /\ 0 < v_max_per_user (f v))) ->
  books (st_modify (set_vouchers (update_where (has_code code) f))).
Proof.
  intros Hf h Hh. cbn. eapply rtc_r; [exact Hh|]. by apply (change (tables h) code f).
Qed.

Lemma reserve_books code user now : books (runInteraction (_reserve code user now)).
Proof.
  apply transaction_books. intros h v h' E. apply reserve_ok in E as ((Hv & <- & Ha & Hx & Hm & Hn) & ->).
  by apply rtc_once, (redeem (tables h) v user now).
Qed.

#[local] Hint Resolve reserve_books update_books : keeps.

Lemma books_create body : books (create_voucher body).
Proof.
  unfold create_voucher. cbn beta zeta.
  repeat first
    [ match goal with |- preserves _ (if (?a || ?b) then _ else _) => destruct (a || b) eqn:Hlim end | same_step ].
  apply orb_false_iff in Hlim as [Hr Hu]. apply (same_refuse (fun h => rtc ledger_step t (tables h))), insert_books; cbn; lia.
Qed.

(** The new limits of a voucher are positive where the old ones are. *)
Lemma changed_limits body v h new h' : changed_voucher body v h = (Ok new, h') ->
  0 < v_max_redemptions v /\ 0 < v_max_per_user v -> 0 < v_max_redemptions new /\ 0 < v_max_per_user new.
Proof.
  assert (Hl : forall k m old n, update_limit body k m old = Ok n -> 0 < old -> 0 < n).
  { intros k m old n. unfold update_limit. destruct (dget k body) as [x|]; [|by intros [= ->]].
    destruct (_clean_int x) as [[i|]|]; simpl; [|done..]. destruct (i <=? 0) eqn:E; [done|]. intros [= <-] _.
    by apply Z.leb_gt in E. }
  unfold changed_voucher. intros E [Hr Hu].
  apply st_bind_ok in E as (p & h1 & _ & E). apply st_bind_ok in E as (d & h2 & _ & E).
  apply st_bind_ok in E as (x & h3 & _ & E). apply st_bind_ok in E as (r & h4 & E1 & E).
  apply st_bind_ok in E as (u & h5 & E2 & E). apply st_bind_ok in E as ([] & h6 & _ & E).
  injection E as <- _. injection E1 as E1 _. injection E2 as E2 _. cbn. eauto.
Qed.

(** A computation whose later part relies on the result and the state of its first. *)
Lemma books_bind_ok {A B} (c : PlusM A) (k : A -> PlusM B) h :
  rtc ledger_step t (tables (c h).2) ->
  (forall a h', c h = (Ok a, h') -> rtc ledger_step t (tables (k a h').2)) ->
  rtc ledger_step t (tables (st_bind c k h).2).
Proof. unfold st_bind. destruct (c h) as [[a|e] h'] eqn:E; [|done]. intros _ Hk. by apply Hk. Qed.

Lemma get_voucher_ok code h v h' : get_voucher code h = (Ok v, h') -> v ∈ vouchers h'.
Proof.
  unfold get_voucher. intros E. apply st_bind_ok in E as ([] & h1 & E1 & E). injection E1 as <-.
  destruct (_normalize_voucher_code code); [|done].
  apply st_bind_ok in E as (r & h2 & E2 & E). unfold runInteraction, st_read in E2. injection E2 as E2 <-.
  destruct r as [w|]; [|done]. injection E as -> <-. apply find_some in E2 as [Hv _]. by apply list_elem_of_In.
Qed.

Lemma books_update code body : tables_inv t -> books (update_voucher code body).
Proof.
  intros Ht. unfold update_voucher. apply keeps_bind; [eauto with keeps|intros []]. intros h Hh.
  assert (Hg : books (get_voucher code)) by eauto with keeps.
  apply books_bind_ok; [by apply Hg|]. intros v h1 E1. specialize (Hg h Hh). rewrite E1 in Hg. cbn [snd] in Hg.
  pose proof (ti_limits _ (ledger_inv _ _ Hg Ht) v (get_voucher_ok _ _ _ _ E1)) as Hl.
  assert (Hc : books (changed_voucher body v)) by eauto with keeps.
  apply books_bind_ok; [by apply Hc|]. intros new h2 E2. specialize (Hc h1 Hg). rewrite E2 in Hc. cbn [snd] in Hc.
  pose proof (changed_limits _ _ _ _ _ E2 Hl) as Hn. clear E2. revert h2 Hc.
  apply (keeps_bind (fun h => rtc ledger_step t (tables h))); [|eauto with keeps].
  apply same_transaction, keeps_bind; [apply keeps_lift|intros ?]. by apply update_books.
Qed.

Lemma books_delete code : books (delete_voucher code).
Proof.
  unfold delete_voucher. same_auto. by apply (same_transaction (fun h => rtc ledger_step t (tables h))), update_books.
Qed.

Lemma books_redeem user code : books (redeem_voucher user code).
Proof. unfold redeem_voucher. same_auto. Qed.
End methods.

(** ** Every call *)

Section calls.
Context `{PlusEnv, JsonCodec}.

(** The methods other parts of the server call, and what clients do to their account data. *)
Inductive plus_method : forall {A}, PlusM A -> Prop :=
  | call_get_plans : plus_method get_plans
  | call_set_plans p : plus_method (set_plans p)
  | call_get_subscription u : plus_method (get_subscription u)
  | call_set_subscription u p : plus_method (set_subscription u p)
  | call_activate u p pr a i d c : plus_method (activate_subscription u p pr a i d c)
  | call_get_payments u : plus_method (get_payments u)
  | call_payment_status u p : plus_method (get_payment_status u p)
  | call_record_payment u p : plus_method (record_payment u p)
  | call_create_yoomoney u a d i r : plus_method (create_yoomoney_payment_request u a d i r)
  | call_process_yoomoney u r i a : plus_method (process_yoomoney_payment u r i a)
  | call_yoomoney_webhook p : plus_method (handle_yoomoney_webhook p)
  | call_create_robokassa u a d i : plus_method (create_robokassa_payment_request u a d i)
  | call_robokassa_result p : plus_method (handle_robokassa_result p)
  | call_robokassa_return p b : plus_method (resolve_robokassa_browser_return p b)
  | call_create_payanyway u a d i r : plus_method (create_payanyway_payment_request u a d i r)
  | call_checkout_page u p g : plus_method (render_payanyway_checkout_page u p g)
  | call_pay_url p : plus_method (handle_payanyway_pay_url p)
  | call_check_url p : plus_method (handle_payanyway_check_url p)
  | call_payanyway_return p b : plus_method (resolve_payanyway_browser_return p b)
  | call_get_packs u : plus_method (get_sticker_packs u)
  | call_upsert_pack u i c a o : plus_method (upsert_sticker_pack u i c a o)
  | call_delete_pack u i o : plus_method (delete_sticker_pack u i o)
  | call_create_token u i o : plus_method (create_share_token u i o)
  | call_resolve_pack k : plus_method (resolve_shared_pack k)
  | call_import_pack u k : plus_method (import_shared_pack u k)
  | call_set_config c : plus_method (set_server_config c)
  | call_list_vouchers : plus_method list_vouchers
  | call_get_voucher c : plus_method (get_voucher c)
  | call_create_voucher b : plus_method (create_voucher b)
  | call_update_voucher c b : plus_method (update_voucher c b)
  | call_delete_voucher c : plus_method (delete_voucher c)
  | call_redemptions c : plus_method (get_voucher_redemptions c)
  | call_redeem u c : plus_method (redeem_voucher u c)
  | call_put m r u ty b : plus_method (account_data_put m r u ty b)
  | call_delete r u ty : plus_method (account_data_delete r u ty).

(** A call, whether it raises or not, or a new process. *)
Inductive plus_step : SetkaPlusHandler -> SetkaPlusHandler -> Prop :=
  | step_call {A} (c : PlusM A) h : plus_method c -> plus_step h (c h).2
  | step_restart env key h : plus_step h (start_handler env key h).2.

Lemma method_framed {A} (c : PlusM A) I : Framed I -> TableFramed I -> plus_method c -> preserves I c.
Proof. intros HI HT Hc. destruct Hc; eauto with keeps. Qed.

Lemma method_books {A} (c : PlusM A) t : plus_method c -> tables_inv t ->
  preserves (fun h => rtc ledger_step t (tables h)) c.
Proof.
  intros Hc Ht. pose proof (ledger_framed t).
  destruct Hc; first [by apply books_create|by apply books_update|by apply books_delete|by apply books_redeem|idtac];
    eauto with keeps.
Qed.

Lemma step_books h h' : plus_step h h' -> tables_inv (tables h) -> rtc ledger_step (tables h) (tables h').
Proof.
  intros [A c h1 Hc|env key h1] Hh; [by apply (method_books c (tables h1) Hc Hh)|].
  unfold start_handler. match goal with |- context [_load_and_apply_server_config ?h0] => set (h2 := h0) end.
  pose proof (same_load_config _ h2 eq_refl : tables _ = tables h1) as ->. done.
Qed.

Lemma steps_books h h' : rtc plus_step h h' -> tables_inv (tables h) -> rtc ledger_step (tables h) (tables h').
Proof.
  induction 1 as [|h1 h2 h3 Hs _ IH]; intros Ht; [done|]. pose proof (step_books _ _ Hs Ht) as H12.
  etrans; [exact H12|]. apply IH. by eapply ledger_inv.
Qed.

Lemma step_plans h h' : plus_step h h' -> plans_inv h -> plans_inv h'.
Proof.
  intros [A c h1 Hc|env key h1] Hh; [by apply (method_framed c plans_inv _ _ Hc)|].
  by apply (same_load_config plans_inv).
Qed.

Lemma steps_plans h h' : rtc plus_step h h' -> plans_inv h -> plans_inv h'.
Proof. induction 1 as [|h1 h2 h3 Hs _ IH]; [done|]. intros Hp. by eapply IH, step_plans. Qed.
End calls.
