(* ===== verification/SetkaPlusProps.v ===== *)
(** * SetkaPlusProps: what Setka Plus promises (handlers/setka_plus.py)

    First, links to sticker packs come back; then subscriptions, payments and vouchers.
    What is encoded in base64 is decoded to itself, so the token of a link is read back as
    the payload it was made of, and a token that is read has the signature of its payload. *)
From S2P Require Import Prelude PyVal PySort PyState PyNumerals PyFloat ReplicationCommands.
From S2P Require Import Identifiers PyEncoding SetkaDb SetkaPlusPlans SetkaPlusState.
From S2P Require Import SetkaPlusSubscription SetkaPlusVouchers SetkaPlusCheckout.
From S2P Require Import SetkaPlusPayanyway SetkaPlusStickers SetkaPlusConfig SetkaPlusFrame.
From S2P Require Import SetkaPlusVoucherProps.
From Stdlib Require Import Ascii String.
Open Scope string_scope.
Open Scope list_scope.
Open Scope Z_scope.
Open Scope py_scope.
Open Scope st_scope.

(** ** Base64 *)

Definition sextets : list Z := map Z.of_nat (seq 0 64).

Lemma sextet_in n : 0 <= n < 64 -> n ∈ sextets.
Proof. intros Hn. apply in_map_b. exists (Z.to_nat n). split; [lia|]. apply elem_of_seq. lia. Qed.

Lemma sextet_all (p : Z -> bool) n : forallb p sextets = true -> 0 <= n < 64 -> p n = true.
Proof. intros Hp Hn. rewrite forallb_forall in Hp. apply Hp, list_elem_of_In, sextet_in, Hn. Qed.

Lemma b64_value_char n : 0 <= n < 64 -> b64_value (b64_char n) = Some n.
Proof.
  intros Hn. assert (Hall : forallb (fun n => bool_decide (b64_value (b64_char n) = Some n)) sextets = true)
    by (vm_compute; reflexivity).
  exact (bool_decide_eq_true_1 _ (sextet_all _ n Hall Hn)).
Qed.

Definition token_char (a : ascii) : bool :=
  is_plain a && negb (Ascii.eqb a ".") && negb (Ascii.eqb a "=").

Lemma b64_char_ok n : 0 <= n < 64 -> token_char (b64_char n) = true.
Proof. apply (sextet_all (fun n => token_char (b64_char n))). vm_compute. reflexivity. Qed.

Lemma chr_code_range a : 0 <= chr_code a < 256.
Proof. unfold chr_code. pose proof (N_ascii_bounded a). lia. Qed.

Lemma byte_chr_code a : byte (chr_code a) = a.
Proof. unfold byte, chr_code. by rewrite N2Z.id, ascii_N_embedding. Qed.

(** Strings, three characters at a time. *)
Lemma string_ind3 (P : string -> Prop) :
  P "" -> (forall a, P (String a "")) -> (forall a b, P (String a (String b ""))) ->
  (forall a b c s, P s -> P (String a (String b (String c s)))) -> forall s, P s.
Proof.
  intros H0 H1 H2 H3. fix IH 1. intros [|a [|b [|c s]]]; [done..|]. by apply H3.
Qed.

Lemma b64encode_chars s : str_all token_char (b64encode s) = true.
Proof.
  induction s as [|a|a b|a b c s IH] using string_ind3; cbn [b64encode str_all]; [done|..];
    pose proof (chr_code_range a) as Ha; try pose proof (chr_code_range b) as Hb;
    try pose proof (chr_code_range c) as Hc; rewrite ?andb_true_iff;
    repeat split; try apply b64_char_ok; try done; Z.to_euclidean_division_equations; lia.
Qed.

(** One character of the alphabet. *)
Lemma a2b_char quad left pads n s : 0 <= n < 64 -> a2b_base64 quad left pads (String (b64_char n) s) =
  match quad with
  | 0%nat => a2b_base64 1 n 0 s
  | 1%nat => String (byte (left * 4 + n / 16)) <$> a2b_base64 2 (n mod 16) 0 s
  | 2%nat => String (byte (left * 16 + n / 4)) <$> a2b_base64 3 (n mod 4) 0 s
  | _ => String (byte (left * 64 + n)) <$> a2b_base64 0 0 0 s
  end.
Proof.
  intros Hn. cbn [a2b_base64]. pose proof (b64_char_ok n Hn) as Hok. unfold token_char in Hok.
  destruct (Ascii.eqb (b64_char n) "="); [by rewrite andb_false_r in Hok|]. by rewrite b64_value_char.
Qed.

Definition pad (s : string) : string := str_repeat_eq (Z.to_nat ((- str_len s) mod 4)).

Ltac sextet := Z.to_euclidean_division_equations; lia.
Ltac byte_is a := transitivity (byte (chr_code a)); [f_equal; sextet|apply byte_chr_code].

Lemma pad4 a b c d s : pad (String a (String b (String c (String d s)))) = pad s.
Proof.
  unfold pad. do 2 f_equal. unfold str_len. cbn [String.length]. rewrite !Nat2Z.inj_succ. sextet.
Qed.

Lemma a2b_b64encode s : a2b_base64 0 0 0 (b64encode s ++ pad (b64encode s)) = Some s.
Proof.
  induction s as [|a|a b|a b c s IH] using string_ind3; [done|..];
    pose proof (chr_code_range a) as Ha; try pose proof (chr_code_range b) as Hb;
    try pose proof (chr_code_range c) as Hc; cbn [b64encode]; rewrite !app_cons_str.
  - change (pad _) with "==". rewrite !a2b_char by sextet. change ("" ++ "==")%string with "==".
    cbn. do 2 f_equal. byte_is a.
  - change (pad _) with "=". rewrite !a2b_char by sextet. change ("" ++ "=")%string with "=".
    cbn. do 2 f_equal; [byte_is a|]. f_equal. byte_is b.
  - rewrite pad4, !a2b_char by sextet.
    replace ((chr_code b mod 16 * 4 + chr_code c / 64) mod 4 * 64 + chr_code c mod 64) with (chr_code c) by sextet.
    rewrite IH. cbn. do 2 f_equal; [byte_is a|f_equal; [byte_is b|f_equal; apply byte_chr_code]].
Qed.

Lemma token_plain s : str_all token_char s = true -> str_all is_plain s = true.
Proof. apply str_all_impl. intros a [[Ha _]%andb_true_iff _]%andb_true_iff. done. Qed.

Lemma plain_ascii s : str_all is_plain s = true -> Identifiers.is_ascii s = true.
Proof. apply str_all_impl. by intros a [Ha _]%andb_true_iff. Qed.

Lemma b64_roundtrip s : b64decode (b64encode s) = Ok s.
Proof.
  unfold b64decode. rewrite plain_ascii by apply token_plain, b64encode_chars. cbn [negb].
  change (str_repeat_eq _) with (pad (b64encode s)). by rewrite a2b_b64encode.
Qed.

Lemma b64encode_empty s : b64encode s = "" -> s = "".
Proof. by destruct s as [|a [|b [|c s]]]. Qed.

(** ** Tokens *)

(** [json.dumps] escapes what is not ASCII, and no value has an empty text. *)
Class JsonText `{JsonCodec} : Prop := {
  json_ascii j : Identifiers.is_ascii (json_encode j) = true;
  json_some j : json_encode j <> ""
}.

(** A digest has 32 bytes. *)
Class HmacDigest `{PlusEnv} : Prop := hmac_some k m : hmac_sha256 k m <> "".

Lemma ascii_utf8 s : Identifiers.is_ascii s = true -> utf8_valid s = true.
Proof.
  induction s as [|a s IH]; [done|]. intros [Ha Hs]%andb_true_iff. cbn [utf8_valid]. rewrite Ha. by apply IH.
Qed.

Lemma signed_without c s : negb (token_char c) = true -> str_all token_char s = true -> without c s = true.
Proof.
  intros Hc. apply str_all_impl. intros a Ha. destruct (Ascii.eqb_spec a c) as [->|]; [|done].
  by rewrite Ha in Hc.
Qed.

Section tokens.
Context `{PlusEnv, JsonCodec}.

Lemma sign_payload_parts secret payload : let p := b64encode (json_encode payload) in
  sign_payload secret payload = str_join "." ["v1"; p; b64encode (hmac_sha256 secret p)].
Proof. done. Qed.

Lemma token_stripped secret payload : strip (sign_payload secret payload) = sign_payload secret payload.
Proof.
  apply strip_plain. unfold sign_payload. cbv zeta. rewrite !str_all_app, !andb_true_iff.
  repeat split; try done; apply token_plain, b64encode_chars.
Qed.

Lemma decode_signed `{!JsonCodecLaws, !JsonText, !HmacDigest} secret o :
  _decode_share_token secret (sign_payload secret (JObj o)) = Ok o.
Proof.
  unfold _decode_share_token. rewrite token_stripped. cbn [String.eqb]. set (p := b64encode (json_encode (JObj o))).
  assert (Hp : str_all token_char p = true) by apply b64encode_chars.
  rewrite sign_payload_parts. cbv zeta. fold p.
  change (String.eqb (str_join _ _) "") with false.
  rewrite split_all_join;
    [|done|by repeat apply Forall_cons_2;
      [|apply signed_without|apply signed_without; [|apply b64encode_chars]|apply Forall_nil_2]].
  cbn [negb]. destruct (String.eqb_spec p "") as [He|_]; [by apply b64encode_empty, json_some in He|].
  destruct (String.eqb_spec (b64encode (hmac_sha256 secret p)) "") as [He|_];
    [by apply b64encode_empty, hmac_some in He|].
  cbn [orb]. rewrite plain_ascii by (by apply token_plain). cbn [negb]. rewrite b64_roundtrip. cbn [rbind].
  rewrite String.eqb_refl. cbn [negb]. unfold p. rewrite b64_roundtrip. cbn [rbind]. unfold utf8_decode.
  rewrite ascii_utf8 by apply json_ascii. cbn [rbind].
  by rewrite json_decode_encode, String.eqb_refl.
Qed.

(** C19: The token of a link to a sticker pack is read back as what it was made of: the user, the
    pack and the time.  And whatever token is read holds the signature of its payload. *)
Theorem share_token_roundtrip `{!JsonCodecLaws, !JsonText, !HmacDigest} user pack_id admin h token h' :
  create_share_token user pack_id admin h = (Ok token, h') ->
  (exists o p n, _decode_share_token (share_secret (config h)) token = Ok o /\ _clean_str pack_id 128 = Some p /\
     oget o "u" JNull = JStr user /\ oget o "p" JNull = JStr p /\ oget o "iat" JNull = JInt (plus_clock n)) /\
  (forall secret token o, _decode_share_token secret token = Ok o ->
     exists payload sig, split_all "." (strip token) = ["v1"; payload; sig] /\
       b64decode sig = Ok (hmac_sha256 secret payload)).
Proof.
  intros E. split.
  - unfold create_share_token in E. destruct (_clean_str pack_id 128) as [p|]; [|done].
    apply st_bind_ok in E as (packs & h1 & E1 & E). destruct (List.find _ packs) as [pack|]; [|done].
    destruct (_ && _); [done|]. apply st_bind_ok in E as (now & h2 & E2 & E). injection E2 as <- <-.
    apply st_bind_ok in E as (c & h3 & E3 & E). injection E3 as <- _. injection E as <- _.
    assert (Hc : config h1 = config h)
      by (apply (kept (fun h' => config h' = config h) _ _ _ _ (same_get_packs _ _) E1); reflexivity).
    cbn [config set_counters]. rewrite Hc. unfold share_payload. rewrite decode_signed.
    eexists _, p, (ticks h1). repeat (split; [reflexivity|]). reflexivity.
  - clear E. intros secret t o. unfold _decode_share_token. destruct (String.eqb (strip t) ""); [done|].
    destruct (split_all "." (strip t)) as [|v [|payload [|sig [|]]]]; try done.
    destruct (_ || _) eqn:E; [done|]. apply orb_false_iff in E as [[E _]%orb_false_iff _].
    apply negb_false_iff, String.eqb_eq in E as ->. destruct (negb _); [done|].
    destruct (b64decode sig) as [s|] eqn:Es; [|done]. cbn [rbind].
    destruct (negb (String.eqb _ s)) eqn:Eh; [done|]. apply negb_false_iff, String.eqb_eq in Eh as <-. eauto.
Qed.
End tokens.

(** * What Setka Plus sells

    What a subscription looks like when it is read, what a payment adds to it, who can add to
    it without paying, and what redeeming a voucher does. *)
Open Scope string_scope.
Open Scope list_scope.
Open Scope Z_scope.
Open Scope py_scope.
Open Scope st_scope.

(** The clock, in milliseconds, is past the moment below which a time is taken for seconds. *)
Class PlusClock `{PlusEnv} : Prop := clock_ms n : 10000000000 <= plus_clock n.

(** ** Documents *)

Lemma oget_dset_eq k v o d : oget (dset k v o) k d = v.
Proof. unfold oget. by rewrite dget_dset_eq. Qed.
Lemma oget_dset_ne k k' v o d : k <> k' -> oget (dset k' v o) k d = oget o k d.
Proof. intros Hk. unfold oget. by rewrite dget_dset_ne. Qed.
Lemma oget_set_opt k k' v o d : k <> k' -> oget (set_opt k' v o) k d = oget o k d.
Proof. intros Hk. destruct v; [by apply oget_dset_ne|done]. Qed.

(** The field that was set. *)
Ltac look_up := repeat first [rewrite oget_set_opt by done|rewrite oget_dset_ne by done].

(** ** Plans *)

Section subscription.
Context `{PlusEnv}.

Lemma load_plans_ok h plans h' : plans_inv h -> _load_plans h = (Ok plans, h') ->
  plans_ok plans /\ plans_cache h' = Some plans.
Proof.
  intros Hh. unfold _load_plans. intros E. apply st_bind_ok in E as (cache & h1 & E1 & E). injection E1 as Ec <-.
  destruct cache as [l|]; [injection E as <- <-; auto|].
  apply st_bind_ok in E as (f & h2 & E1 & E). injection E1 as _ <-.
  apply st_bind_ok in E as (c & h2 & E1 & E). injection E1 as _ <-.
  apply st_bind_ok in E as (l & h2 & E1 & E). injection E1 as E1 <-. apply normalize_plans_ok in E1.
  apply st_bind_ok in E as ([] & h3 & E2 & E). injection E2 as <-.
  apply st_bind_ok in E as ([] & h4 & E2 & E). injection E as <- <-. split; [done|].
  unfold _persist_plans_file in E2. destruct plans_writable; by injection E2 as <-.
Qed.

Lemma find_in {A} (p : A -> bool) l x : List.find p l = Some x -> x ∈ l.
Proof. intros [Hx _]%find_some. by apply list_elem_of_In. Qed.

Lemma resolve_in price plans id : plans_ok plans -> _resolve_plan price plans id ∈ plans.
Proof.
  intros Hp. unfold _resolve_plan. pose proof (po_some _ Hp) as Hn.
  assert (Hf : forall i p, _find_plan_by_id plans i = Some p -> p ∈ plans)
    by (intros i p; unfold _find_plan_by_id; destruct (_clean_str i 64); [apply find_in|done]).
  assert (Hrest : match List.find (fun p => plan_active p && plan_is_default p) plans with
                  | Some p => p
                  | None => match List.find plan_active plans with
                            | Some p => p
                            | None => match plans with p :: _ => p | [] => monthly_plan price end
                            end
                  end ∈ plans).
  { destruct (List.find _ plans) eqn:E1; [by eapply find_in|].
    destruct (List.find plan_active plans) eqn:E2; [by eapply find_in|]. destruct plans; [done|left]. }
  destruct (_find_plan_by_id plans id) as [p|] eqn:E; [|done]. destruct (plan_active p); [by eapply Hf|done].
Qed.

Lemma resolve_plan_ok id h p h' : plans_inv h -> resolve_plan id h = (Ok p, h') ->
  plans_inv h' /\ exists plans, plans_cache h' = Some plans /\ p = _resolve_plan (plus_price_rub (config h')) plans id
    /\ p ∈ plans /\ 0 < plan_duration_days p.
Proof.
  intros Hh E. assert (Hi : plans_inv h')
    by (pose proof (same_resolve_plan plans_inv id h Hh) as Hp; by rewrite E in Hp).
  unfold resolve_plan in E. apply st_bind_ok in E as (plans & h1 & E1 & E).
  apply st_bind_ok in E as (c & h2 & E2 & E). injection E2 as <- <-. injection E as <- <-.
  split; [done|]. destruct (load_plans_ok _ _ _ Hh E1) as [Hp Hc]. exists plans. split; [done|]. split; [done|].
  pose proof (resolve_in (plus_price_rub (config h1)) plans id Hp) as Hr. split; [done|]. by apply (po_durations _ Hp).
Qed.

(** ** What a subscription looks like *)

(** [now] is the time at which it is read. *)
Record subscription_ok (now : Z) (o : obj) : Prop := {
  so_status : exists s, oget o "status" JNull = JStr s /\ s ∈ _SUBSCRIPTION_STATUS /\
    (active_flag o = true <-> s = "active" \/ (s = "pending" /\ active_flag o = true));
  so_expiry : exists e, oget o "expires_at" JNull = JInt e /\ 0 <= e /\ oget o "is_active" JNull = JBool (now <? e);
  so_days : exists d, oget o "duration_days" JNull = JInt d /\ 0 < d
}.

Lemma clean_time_nonneg v z t : _clean_timestamp_ms v z = Ok (Some t) -> 0 <= t.
Proof.
  unfold _clean_timestamp_ms. destruct (_clean_int v) as [[n|]|]; simpl; [|done..].
  destruct (n =? 0) eqn:E0; [destruct z; by intros [= <-]|].
  destruct (n <? 0) eqn:E1; [done|]. apply Z.ltb_ge in E1. destruct (n <? _); intros [= <-]; lia.
Qed.

Lemma normalize_status_ok raw b : exists s, normalize_status raw b = s /\ s ∈ _SUBSCRIPTION_STATUS /\
  (b = true <-> s = "active" \/ (s = "pending" /\ b = true)).
Proof.
  eexists. split; [done|]. unfold normalize_status, _SUBSCRIPTION_STATUS.
  set (s := if bool_decide _ then _ else "inactive").
  assert (Hs : s ∈ ["inactive"; "pending"; "active"; "expired"; "canceled"]).
  { unfold s. case_bool_decide; [done|]. by left. }
  clearbody s. rewrite !elem_of_cons, elem_of_nil in Hs.
  destruct Hs as [->|[->|[->|[->|[->|[]]]]]], b; cbn; (split; [by apply (bool_decide_unpack _)|]); naive_solver.
Qed.

Lemma normalize_raw_ok now tier plan raw o : 0 < plan_duration_days plan ->
  normalize_raw now tier plan raw = Ok o -> subscription_ok now o.
Proof.
  intros Hd. unfold normalize_raw.
  destruct (_clean_timestamp_ms (oget raw "started_at" JNull) true); [|done]. cbn [rbind].
  destruct (_clean_timestamp_ms (oget raw "expires_at" JNull) true) as [e|] eqn:Ee; [|done]. cbn [rbind].
  destruct (_clean_timestamp_ms (oget raw "updated_at" JNull) false); [|done]. cbn [rbind].
  destruct (_clean_float (oget raw "amount" JNull)); [|done]. cbn [rbind].
  destruct (_clean_int (oget raw "duration_days" JNull)) as [d|]; [|done]. cbn [rbind].
  destruct (_clean_float (oget raw "price_rub" JNull)); [|done]. cbn [rbind]. intros [= <-].
  assert (He : 0 <= default 0 e) by (destruct e; [by eapply clean_time_nonneg|done]).
  split; unfold active_flag; look_up.
  - destruct (normalize_status_ok (oget raw "status" JNull) (now <? default 0 e)) as (s & <- & Hs).
    eexists. split; [done|]. exact Hs.
  - eexists. split; [done|]. by split.
  - eexists. split; [done|]. unfold positive. destruct d as [d|]; [|done]. destruct (d <=? 0) eqn:E; [done|].
    by apply Z.leb_gt in E.
Qed.

(** The time to which a subscription is stored, in milliseconds; 0 when there is none. *)
Definition expiry (j : json) : option Z :=
  match j with
  | JNull => Some 0
  | JInt e => if (e =? 0) || (10000000000 <=? e) then Some e else None
  | _ => None
  end.
Definition doc_until (doc : json) : option Z :=
  match doc with
  | JObj o => expiry (oget o "expires_at" JNull)
  | JNull => Some 0
  | _ => None
  end.
Definition subscription_key (user_id : string) : string * string :=
  (user_id, AccountDataTypes.SETKA_PLUS_SUBSCRIPTION).
Definition paid_until (h : SetkaPlusHandler) (user_id : string) : option Z :=
  doc_until (default JNull (account_data h !! subscription_key user_id)).

Lemma clean_expiry j e : expiry j = Some e -> exists t, _clean_timestamp_ms j true = Ok t /\ default 0 t = e.
Proof.
  destruct j as [| |n| | | |]; try done; [intros [= <-]; by exists None|]. cbn [expiry].
  destruct ((n =? 0) || (10000000000 <=? n)) eqn:E; [|done]. intros [= <-]. exists (Some n). split; [|done].
  unfold _clean_timestamp_ms. cbn. destruct (n =? 0) eqn:E0; [by apply Z.eqb_eq in E0 as ->|].
  cbn [orb] in E. apply Z.leb_le in E. destruct (n <? 0) eqn:E1; [apply Z.ltb_lt in E1; lia|].
  destruct (n <? 10000000000) eqn:E2; [apply Z.ltb_lt in E2; lia|done].
Qed.

Lemma expiry_of e : e = 0 \/ 10000000000 <= e -> expiry (JInt e) = Some e.
Proof. intros [->|He]; [done|]. cbn. apply Z.leb_le in He. by rewrite He, orb_true_r. Qed.

Lemma normalize_raw_until now tier plan raw o e : normalize_raw now tier plan raw = Ok o ->
  expiry (oget raw "expires_at" JNull) = Some e -> oget o "expires_at" JNull = JInt e.
Proof.
  intros E (t & Et & <-)%clean_expiry. revert E. unfold normalize_raw.
  destruct (_clean_timestamp_ms (oget raw "started_at" JNull) true); [|done]. cbn [rbind].
  rewrite Et. cbn [rbind].
  destruct (_clean_timestamp_ms (oget raw "updated_at" JNull) false); [|done]. cbn [rbind].
  destruct (_clean_float (oget raw "amount" JNull)); [|done]. cbn [rbind].
  destruct (_clean_int (oget raw "duration_days" JNull)) as [d|]; [|done]. cbn [rbind].
  destruct (_clean_float (oget raw "price_rub" JNull)); [|done]. cbn [rbind]. intros [= <-]. by look_up.
Qed.

Lemma find_plan_ok id h p h' : plans_inv h -> find_plan id h = (Ok (Some p), h') -> 0 < plan_duration_days p.
Proof.
  intros Hh. unfold find_plan. destruct (_clean_str id 64); [|done]. intros E.
  apply st_bind_ok in E as (plans & h1 & E1 & E). injection E as E _.
  destruct (load_plans_ok _ _ _ Hh E1) as [Hp _]. apply (po_durations _ Hp). revert E. unfold _find_plan_by_id.
  destruct (_clean_str id 64); [apply find_in|done].
Qed.

Lemma normalize_subscription_ok `{!PlusClock} raw h o h' : plans_inv h ->
  _normalize_subscription raw h = (Ok o, h') ->
  subscription_ok (plus_clock (ticks h)) o /\ forall e, doc_until raw = Some e -> oget o "expires_at" JNull = JInt e.
Proof.
  intros Hh E. unfold _normalize_subscription in E.
  apply st_bind_ok in E as (now & h1 & E1 & E). injection E1 as <- E1.
  assert (H1' : plans_inv h1) by (by rewrite <- E1).
  apply st_bind_ok in E as (p & h2 & E2 & E). destruct (resolve_plan_ok _ _ _ _ H1' E2) as (H2' & _ & _ & _ & _ & Hd).
  destruct raw as [| | | | | |raw];
    try (injection E as <- _; split;
         [split; eexists; [|split; [reflexivity|split; [done|]]|split; [reflexivity|done]]|by intros e [= <-]]).
  all: try (split; [reflexivity|]; split; [by apply (bool_decide_unpack _)|]; split; [done|by intros [?|[? ?]]]).
  all: try (pose proof (clock_ms (ticks h)) as Hc; cbn; by destruct (Z.ltb_spec (plus_clock (ticks h)) 0); [lia|]).
  apply st_bind_ok in E as (m & h3 & E3 & E). injection E as E _.
  split; [|intros e He; by eapply normalize_raw_until]. eapply normalize_raw_ok, E.
  destruct m as [m|]; [by eapply find_plan_ok|done].
Qed.

Lemma get_subscription_ok `{!PlusClock} u h o h' : plans_inv h -> get_subscription u h = (Ok o, h') ->
  subscription_ok (plus_clock (ticks h)) o /\ forall e, paid_until h u = Some e -> oget o "expires_at" JNull = JInt e.
Proof.
  intros Hh E. unfold get_subscription in E. apply st_bind_ok in E as (raw & h1 & E1 & E).
  injection E1 as <- <-. by apply (normalize_subscription_ok _ _ _ _ Hh) in E.
Qed.

(** ** What a payment adds *)

(** The days that are asked for, or the plan's. *)
Definition bought_days (days : option Z) (plan : Plan) : Z := positive days (plan_duration_days plan).

Lemma activated_days days plan :
  match days with Some d => if 0 <? d then d else plan_duration_days plan | None => plan_duration_days plan end
  = bought_days days plan.
Proof.
  unfold bought_days, positive. destruct days as [d|]; [|done].
  destruct (Z.ltb_spec 0 d), (Z.leb_spec d 0); try lia; done.
Qed.

Lemma bought_days_pos days plan : 0 < plan_duration_days plan -> 0 < bought_days days plan.
Proof. unfold bought_days, positive. destruct days as [d|]; [|done]. destruct (Z.leb_spec d 0); lia. Qed.

Definition others_same (u : string) (h h' : SetkaPlusHandler) : Prop :=
  forall u', u' <> u -> account_data h' !! subscription_key u' = account_data h !! subscription_key u'.

Lemma add_data_ok u ty c h r h' : add_account_data_for_user u ty c h = (Ok r, h') ->
  account_data h' = <[(u, ty) := c]> (account_data h).
Proof. unfold add_account_data_for_user. destruct (encodable c); [|done]. by intros [= _ <-]. Qed.

Lemma keeps_sub {A} (c : PlusM A) k h r h' : (forall d, preserves (fun h => account_data h !! k = d) c) ->
  c h = (r, h') -> account_data h' !! k = account_data h !! k.
Proof. intros Hc E. specialize (Hc _ h eq_refl). by rewrite E in Hc. Qed.

Lemma record_keeps_sub u p u' h r h' : record_payment u p h = (r, h') ->
  account_data h' !! subscription_key u' = account_data h !! subscription_key u'.
Proof. apply keeps_sub. intros d. apply same_record. by apply other_framed. Qed.

Lemma activated_until ex plan now e days amount pid prov cur : 10000000000 <= now -> 0 < days ->
  doc_until (JObj (activated ex plan now e days amount pid prov cur)) = Some (Z.max now e + days * DAY_MS).
Proof.
  intros Hn Hd. unfold doc_until.
  replace (oget _ "expires_at" JNull) with (JInt (Z.max now e + days * DAY_MS)); [|]. 2: {
    unfold oget. cbn. f_equal. unfold DAY_MS. destruct (Z.ltb_spec now e); lia. }
  apply expiry_of. right. unfold DAY_MS. lia.
Qed.

(** What is stored after the previous expiry was read. *)
Lemma stored_ok `{!PlusClock} u payment payload h o h' until : plans_inv h -> doc_until (JObj payload) = Some until ->
  (add_account_data_for_user u AccountDataTypes.SETKA_PLUS_SUBSCRIPTION (JObj payload) ;;!
   record_payment u payment ;;! _safe_record_analytics ;;! _normalize_subscription (JObj payload)) h = (Ok o, h') ->
  paid_until h' u = Some until /\ oget o "expires_at" JNull = JInt until /\ others_same u h h' /\ plans_inv h'.
Proof.
  intros Hh Hdoc E. apply st_bind_ok in E as ([] & h1 & E1 & E). apply st_bind_ok in E as ([] & h2 & E2 & E).
  apply st_bind_ok in E as ([] & h3 & E3 & E). injection E3 as <-.
  assert (B1 := kept _ _ _ _ _ (same_add_data plans_inv _ _ _) E1 Hh). apply add_data_ok in E1.
  assert (B2 := kept _ _ _ _ _ (same_record plans_inv _ _) E2 B1).
  assert (D2 := fun u' => record_keeps_sub u _ u' _ _ _ E2).
  assert (D3 := reads_data _ _ _ _ (fun d => same_normalize _ _) E).
  split; [|split; [|split]].
  - unfold paid_until. rewrite D3, D2, E1, lookup_insert_eq. exact Hdoc.
  - by apply (normalize_subscription_ok _ _ _ _ B2 E).
  - intros u' Hu. rewrite D3, D2, E1, lookup_insert_ne; [done|]. by intros [= ->].
  - exact (kept _ _ _ _ _ (same_normalize plans_inv _) E B2).
Qed.

Lemma paid_until_expiry h u e : paid_until h u = Some e -> expiry (JInt e) = Some e.
Proof.
  intros He. apply expiry_of. revert He. unfold paid_until, doc_until, expiry.
  repeat case_match; intros; simplify_eq; auto.
  match goal with H : (_ || _) = true |- _ => apply orb_true_iff in H as [?|?] end; lia.
Qed.

Lemma activate_ok `{!PlusClock} u pid prov amount id days cur h o h' e : plans_inv h ->
  activate_subscription u pid prov amount id days cur h = (Ok o, h') -> paid_until h u = Some e ->
  exists plan n, (resolve_plan id h).1 = Ok plan /\ 0 < plan_duration_days plan /\
    paid_until h' u = Some (Z.max (plus_clock n) e + bought_days days plan * DAY_MS) /\
    oget o "expires_at" JNull = JInt (Z.max (plus_clock n) e + bought_days days plan * DAY_MS) /\
    others_same u h h' /\ plans_inv h'.
Proof.
  intros Hh E He. unfold activate_subscription in E. apply st_bind_ok in E as (plan & h1 & E1 & E). cbn zeta in E.
  rewrite activated_days in E.
  assert (D1 := reads_data _ _ _ _ (fun d => same_resolve_plan _ id) E1).
  destruct (resolve_plan_ok _ _ _ _ Hh E1) as (B1 & _ & _ & _ & _ & Hd).
  apply st_bind_ok in E as (now & h2 & E2 & E). injection E2 as <- E2.
  assert (B2 : plans_inv h2) by (by rewrite <- E2).
  assert (D2 : account_data h2 = account_data h) by (by rewrite <- E2, <- D1).
  apply st_bind_ok in E as (existing & h3 & E3 & E).
  assert (D3 := reads_data _ _ _ _ (fun d => same_get_subscription _ u) E3).
  destruct (get_subscription_ok _ _ _ _ B2 E3) as [_ Hex].
  assert (B3 := kept _ _ _ _ _ (same_get_subscription plans_inv u) E3 B2).
  rewrite (Hex e) in E by (unfold paid_until; by rewrite D2).
  destruct (clean_expiry _ _ (paid_until_expiry _ _ _ He)) as (t & Et & Ht). rewrite Et in E.
  apply st_bind_ok in E as (prev & h4 & E4 & E). injection E4 as <- <-. rewrite Ht in E.
  apply (stored_ok u _ _ h3 o h' (Z.max (plus_clock (ticks h1)) e + bought_days days plan * DAY_MS) B3) in E
    as (P1 & P2 & P3 & P4); [|apply activated_until; [apply clock_ms|by apply bought_days_pos]].
  exists plan, (ticks h1). rewrite E1. repeat (split; [done|]). split; [|done].
  intros u' Hu. by rewrite P3, D3, D2.
Qed.

(** ** Reports of payments *)

(** What a signature has to be. *)
Definition yoomoney_signed (payload : params) (c : PlusConfig) : Prop :=
  py_lower (strip (pget payload "sha1_hash")) = _calculate_yoomoney_webhook_hash c payload.

Definition robokassa_signed (payload : params) (c : PlusConfig) : Prop :=
  result_password c payload <> "" /\
  py_upper (strip (pget payload "SignatureValue")) =
    py_upper (_robokassa_result_signature (strip (pget payload "OutSum")) (strip (pget payload "InvId"))
                (result_password c payload) (_extract_robokassa_shp payload)).

Definition payanyway_signed (payload : params) (c : PlusConfig) : Prop :=
  exists expected, _payanyway_pay_signature c payload = Ok expected /\
    py_lower (pget payload "MNT_SIGNATURE") = py_lower expected.

(** YooMoney's is only asked for when the server has a notification secret, and by default it
    has none: see [unsigned_report_without_secret]. *)
Definition yoomoney_secret (c : PlusConfig) : Prop := yoomoney_notification_secret c <> "".

(** The calls that anybody can make, what has to be configured for a signature to be asked for,
    and when the call is signed. *)
Inductive outside_call : forall {A}, PlusM A -> (PlusConfig -> Prop) -> (PlusConfig -> Prop) -> Prop :=
  | out_webhook p : outside_call (handle_yoomoney_webhook p) yoomoney_secret (yoomoney_signed p)
  | out_result p : outside_call (handle_robokassa_result p) (fun _ => True) (robokassa_signed p)
  | out_pay p : outside_call (handle_payanyway_pay_url p) (fun _ => True) (payanyway_signed p)
  | out_check p : outside_call (handle_payanyway_check_url p) (fun _ => True) (fun _ => False)
  | out_page u p g : outside_call (render_payanyway_checkout_page u p g) (fun _ => True) (fun _ => False)
  | out_robokassa_return p b :
      outside_call (resolve_robokassa_browser_return p b) (fun _ => True) (fun _ => False)
  | out_payanyway_return p b :
      outside_call (resolve_payanyway_browser_return p b) (fun _ => True) (fun _ => False).

Lemma yoomoney_unsigned p h : yoomoney_secret (config h) -> ~ yoomoney_signed p (config h) ->
  (handle_yoomoney_webhook p h).2 = h.
Proof.
  intros Hn Hs. unfold handle_yoomoney_webhook, st_bind at 1, st_read at 1. unfold st_bind at 1, st_lift at 1.
  destruct (check_yoomoney_hash (config h) p) as [[]|e] eqn:E; [|done]. destruct Hs.
  unfold check_yoomoney_hash in E. destruct (String.eqb_spec (yoomoney_notification_secret (config h)) ""); [done|].
  destruct (_ || _) eqn:E1 in E; [done|]. apply orb_false_iff in E1 as [_ E1]. apply negb_false_iff in E1.
  by apply String.eqb_eq in E1.
Qed.

Lemma robokassa_unsigned p h : ~ robokassa_signed p (config h) -> (handle_robokassa_result p h).2 = h.
Proof.
  intros Hs. unfold handle_robokassa_result. destruct (_ || _); [done|]. cbn zeta.
  destruct (String.eqb (pget _ "uid") ""); [done|]. unfold st_bind at 1, st_read at 1.
  destruct (String.eqb_spec (result_password (config h) p) "") as [|Hp]; [done|].
  destruct (negb _) eqn:E; [done|]. destruct Hs. split; [done|]. apply negb_false_iff in E. by apply String.eqb_eq in E.
Qed.

Lemma payanyway_unsigned p h : ~ payanyway_signed p (config h) -> (handle_payanyway_pay_url p h).2 = h.
Proof.
  intros Hs. unfold handle_payanyway_pay_url. destruct p as [|kv p]; [done|].
  unfold st_bind at 1, st_read at 1. unfold st_bind at 1, st_lift at 1.
  destruct (_payanyway_pay_signature (config h) (kv :: p)) as [expected|] eqn:E; [|done].
  destruct (negb _) eqn:E1; [done|]. destruct Hs. exists expected. split; [done|].
  apply negb_false_iff in E1. by apply String.eqb_eq in E1.
Qed.

(** What a report by YooMoney does to the subscription of the label's user. *)
Lemma webhook_ok `{!PlusClock} payload h u o h' e : plans_inv h ->
  handle_yoomoney_webhook payload h = (Ok (u, o), h') -> paid_until h u = Some e ->
  plans_inv h' /\ exists plan n, 0 < plan_duration_days plan /\
    paid_until h' u = Some (Z.max (plus_clock n) e + plan_duration_days plan * DAY_MS).
Proof.
  intros Hh E He. unfold handle_yoomoney_webhook in E.
  apply st_bind_ok in E as (c & h1 & E1 & E). injection E1 as _ <-.
  apply st_bind_ok in E as ([] & h1 & E1 & E). injection E1 as _ <-. cbn zeta in E.
  apply st_bind_ok in E as ([user plan_id] & h1 & E1 & E). injection E1 as _ <-.
  apply st_bind_ok in E as (pid & h1 & E1 & E).
  assert (Hread : forall I, FramedReads I ->
    preserves I (if String.eqb (str_or (pget payload "operation_id") (pget payload "request_id")) "" then new_uuid
                 else st_ret (str_or (pget payload "operation_id") (pget payload "request_id"))))
    by (intros I HI; destruct (String.eqb _ _); eauto with keeps).
  assert (D1 := reads_data _ _ _ _ (fun d => Hread _ _) E1). assert (B1 := kept _ _ _ _ _ (Hread plans_inv _) E1 Hh).
  apply st_bind_ok in E as (amount & h2 & E2 & E). injection E2 as _ <-.
  apply st_bind_ok in E as (sub & h2 & E2 & E). apply st_bind_ok in E as (now & h3 & E3 & E). injection E3 as _ E3.
  apply st_bind_ok in E as ([] & h4 & E4 & E). injection E as -> -> <-.
  apply (activate_ok _ _ _ _ _ _ _ _ _ _ e B1) in E2 as (plan & n & _ & Hd & Hu & _ & _ & B2);
    [|unfold paid_until; by rewrite D1].
  assert (B3 : plans_inv h3) by (by rewrite <- E3). split; [exact (kept _ _ _ _ _ (same_record plans_inv _ _) E4 B3)|].
  exists plan, n. split; [done|]. unfold paid_until. rewrite (record_keeps_sub _ _ _ _ _ _ E4), <- E3. exact Hu.
Qed.
End subscription.

(** ** In every state the handler reaches *)

Section reachable.
Context `{PlusEnv, JsonCodec} `{!PlusClock}.

(** From empty tables, by calls and new processes. *)
Definition reachable (h : SetkaPlusHandler) : Prop :=
  exists h0, plans_cache h0 = None /\ tables h0 = ([], []) /\ rtc plus_step h0 h.

Lemma empty_tables_inv : tables_inv ([], []).
Proof. split; simpl; try (by constructor); by intros ? ?%elem_of_nil. Qed.

Lemma plus_reachable_inv h : reachable h -> plans_inv h /\ tables_inv (tables h).
Proof.
  intros (h0 & Hc & Ht & Hs). split.
  - eapply steps_plans; [done|]. intros plans. by rewrite Hc.
  - eapply ledger_inv; [eapply steps_books; [done|]|]; rewrite Ht; apply empty_tables_inv.
Qed.

(** C18: The subscription a user is shown always has one of the five statuses, a time it lasts
    to and a positive number of days; it counts as active exactly while that time is not over,
    and then its status is active, or pending while another payment is under way. *)
Theorem subscription_in_shape u h o h' :
  reachable h -> get_subscription u h = (Ok o, h') -> subscription_ok (plus_clock (ticks h)) o.
Proof. intros [Hh _]%plus_reachable_inv E. by apply (get_subscription_ok u h o h' Hh E). Qed.

(** C15: An activation adds the days that were asked for, or the plan's, to the time to which
    the subscription was paid or to the present, whichever is later, and leaves the other
    users' subscriptions alone; the amount that was paid does not matter. *)
Theorem activation_extends u pid prov amount id days cur h o h' e :
  reachable h -> activate_subscription u pid prov amount id days cur h = (Ok o, h') -> paid_until h u = Some e ->
  exists plan n, (resolve_plan id h).1 = Ok plan /\ 0 < bought_days days plan /\
    paid_until h' u = Some (Z.max (plus_clock n) e + bought_days days plan * DAY_MS) /\
    oget o "expires_at" JNull = JInt (Z.max (plus_clock n) e + bought_days days plan * DAY_MS) /\
    others_same u h h'.
Proof.
  intros [Hh _]%plus_reachable_inv E He.
  destruct (activate_ok _ _ _ _ _ _ _ _ _ _ _ Hh E He) as (plan & n & H1' & H2' & H3' & H4' & H5' & _).
  exists plan, n. split; [done|]. split; [by apply bought_days_pos|]. auto.
Qed.

(** C14: A call that anybody can make and that does not have the signature the server computes
    changes nobody's subscription, no voucher and no setting; for a report by YooMoney it is
    necessary that the server has a notification secret. *)
Theorem unsigned_reports_give_nothing {A} (c : PlusM A) asked signed h :
  outside_call c asked signed -> asked (config h) -> ~ signed (config h) ->
  (forall u, account_data (c h).2 !! subscription_key u = account_data h !! subscription_key u) /\
  tables (c h).2 = tables h /\ config (c h).2 = config h.
Proof.
  intros Hc Ha Hs.
  assert (Hkeep : (forall I, FramedPayments I -> preserves I c) ->
    (forall u, account_data (c h).2 !! subscription_key u = account_data h !! subscription_key u) /\
    tables (c h).2 = tables h /\ config (c h).2 = config h).
  { intros Hp. split; [intros u|split].
    - by apply (Hp (fun h' => account_data h' !! subscription_key u = account_data h !! subscription_key u));
        [apply other_framed|].
    - by apply (Hp (fun h' => tables h' = tables h)); [apply framed_pays|].
    - by apply (Hp (fun h' => config h' = config h)); [apply config_framed|]. }
  destruct Hc; first [by rewrite yoomoney_unsigned|by rewrite robokassa_unsigned|by rewrite payanyway_unsigned
    |apply Hkeep; intros I HI; eauto with keeps].
Qed.

(** ** Vouchers *)

(** What is left to do when a voucher is reserved. *)
Definition redeem_rest (user_id normalized : string) (voucher : Voucher) : PlusM (string * obj) :=
  let! days := voucher_days voucher in
  let! subscription :=
    activate_subscription user_id ("voucher:" ++ normalized)%string "voucher" (Some (FFin 0 0))
      (match v_plan_id voucher with Some id => JStr id | None => JNull end) (Some days) "RUB" in
  _safe_record_analytics ;;!
  st_ret (normalized, subscription).

Definition at_redemption (h : SetkaPlusHandler) : SetkaPlusHandler :=
  set_counters (S (ticks h)) (uuids h) (randoms h) (set_tables_ready h).

Lemma redeem_unfold user code c h : _normalize_voucher_code code = Some c ->
  redeem_voucher user code h =
  st_bind (runInteraction (_reserve c user (plus_clock (ticks h)))) (redeem_rest user c) (at_redemption h).
Proof. intros Hc. unfold redeem_voucher, st_bind at 1. cbn [_ensure_voucher_tables st_modify]. by rewrite Hc. Qed.

Lemma rest_tables user c v h : tables (redeem_rest user c v h).2 = tables h.
Proof.
  assert (Hp : preserves (fun h' => tables h' = tables h) (redeem_rest user c v)) by (unfold redeem_rest; same_auto).
  by apply Hp.
Qed.

(** A positive duration of the voucher's own is what it buys. *)
Lemma voucher_days_own v d h days h' : voucher_days v h = (Ok days, h') ->
  v_duration_days v = Some d -> 0 < d -> days = d.
Proof.
  unfold voucher_days. intros E Hv Hd. rewrite Hv in E. destruct (Z.leb_spec d 0); [lia|]. by injection E as <- _.
Qed.

Lemma rest_extends user c v h c' o h' e : plans_inv h -> paid_until h user = Some e ->
  redeem_rest user c v h = (Ok (c', o), h') ->
  c' = c /\ exists n days, 0 < days /\ paid_until h' user = Some (Z.max (plus_clock n) e + days * DAY_MS) /\
    forall d, v_duration_days v = Some d -> 0 < d -> days = d.
Proof.
  intros Hh He E. unfold redeem_rest in E. apply st_bind_ok in E as (days & h1 & E1 & E).
  assert (B1 := kept _ _ _ _ _ (same_days plans_inv v) E1 Hh).
  assert (D1 := reads_data _ _ _ _ (fun d => same_days _ v) E1).
  apply st_bind_ok in E as (sub & h2 & E2 & E). injection E as <- <- <-. split; [done|].
  apply (activate_ok _ _ _ _ _ _ _ _ _ _ e B1) in E2 as (plan & n & _ & Hd & Hu & _);
    [|unfold paid_until; by rewrite D1].
  exists n, (bought_days (Some days) plan). split; [by apply bought_days_pos|]. split; [done|].
  intros d Hv Hpos. rewrite (voucher_days_own _ _ _ _ _ E1 Hv Hpos). unfold bought_days, positive.
  destruct (Z.leb_spec d 0); [lia|done].
Qed.
Lemma redeem_fails user code c h e h1 : _normalize_voucher_code code = Some c ->
  _reserve c user (plus_clock (ticks h)) (at_redemption h) = (Err e, h1) ->
  redeem_voucher user code h = (Err e, at_redemption h).
Proof. intros Hc E. rewrite (redeem_unfold _ _ _ _ Hc). unfold st_bind, runInteraction. by rewrite E. Qed.

Lemma redeem_goes_on user code c h v : _normalize_voucher_code code = Some c ->
  let now := plus_clock (ticks h) in
  _reserve c user now (at_redemption h) = (Ok v, booked c user now (at_redemption h)) ->
  redeem_voucher user code h = redeem_rest user c v (booked c user now (at_redemption h)).
Proof. intros Hc now E. rewrite (redeem_unfold _ _ _ _ Hc). unfold st_bind, runInteraction. subst now. by rewrite E. Qed.

Lemma redeem_refused user code c h : _normalize_voucher_code code = Some c ->
  (forall v, ~ redeemable h c user (plus_clock (ticks h)) v) ->
  (exists e, (redeem_voucher user code h).1 = Err e) /\
  tables (redeem_voucher user code h).2 = tables h /\
  account_data (redeem_voucher user code h).2 = account_data h.
Proof.
  intros Hc Hn. destruct (_reserve c user (plus_clock (ticks h)) (at_redemption h)) as [[v|e] h1] eqn:E.
  - by apply reserve_ok in E as [Hv _]; destruct (Hn v).
  - rewrite (redeem_fails _ _ _ _ _ _ Hc E). eauto.
Qed.

(** A call that returns reserved the voucher. *)
Lemma redeem_ok user code c h r h' : _normalize_voucher_code code = Some c ->
  redeem_voucher user code h = (Ok r, h') -> exists v, redeemable h c user (plus_clock (ticks h)) v /\
    redeem_rest user c v (booked c user (plus_clock (ticks h)) (at_redemption h)) = (Ok r, h').
Proof.
  intros Hc Er. destruct (_reserve c user (plus_clock (ticks h)) (at_redemption h)) as [[v|e] h1] eqn:E.
  - destruct (reserve_ok _ _ _ _ _ _ E) as [Hv ->]. exists v. split; [done|].
    by rewrite (redeem_goes_on user code c h v Hc E) in Er.
  - by rewrite (redeem_fails _ _ _ _ _ _ Hc E) in Er.
Qed.

Lemma redeem_notes user code c h r h' : _normalize_voucher_code code = Some c ->
  redeem_voucher user code h = (Ok r, h') -> (c, user) ∈ map redemption_key (redemptions h').
Proof.
  intros Hc Er. destruct (redeem_ok _ _ _ _ _ _ Hc Er) as (v & _ & E).
  pose proof (rest_tables user c v (booked c user (plus_clock (ticks h)) (at_redemption h))) as Ht.
  rewrite E in Ht. injection Ht as _ ->. cbn. rewrite map_app. apply elem_of_app. right. by left.
Qed.

(** C12: A voucher is redeemed when it is active and not over, was redeemed less often than its
    limit, and not by this user: then it is counted and the redemption is noted, whatever
    happens to the subscription.  Otherwise the call raises and changes no table and no
    document.  When the call returns, the user's subscription lasts longer by the voucher's
    days. *)
Theorem redeem_voucher_spec user code c h :
  reachable h -> _normalize_voucher_code code = Some c ->
  let now := plus_clock (ticks h) in
  (forall v, redeemable h c user now v -> tables (redeem_voucher user code h).2 = tables (booked c user now h)) /\
  ((forall v, ~ redeemable h c user now v) ->
     (exists e, (redeem_voucher user code h).1 = Err e) /\
     tables (redeem_voucher user code h).2 = tables h /\
     account_data (redeem_voucher user code h).2 = account_data h) /\
  (forall c' o h' e, redeem_voucher user code h = (Ok (c', o), h') -> paid_until h user = Some e ->
     c' = c /\ exists v n days, redeemable h c user now v /\ 0 < days /\
       paid_until h' user = Some (Z.max (plus_clock n) e + days * DAY_MS) /\
       forall d, v_duration_days v = Some d -> 0 < d -> days = d).
Proof.
  intros [Hh Ht]%plus_reachable_inv Hc now. split; [|split].
  - intros v Hv. pose proof (reserve_spec c user now (at_redemption h) v Ht Hv) as E.
    rewrite (redeem_goes_on user code c h v Hc E).
    by rewrite rest_tables.
  - by apply redeem_refused.
  - intros c' o h' e Er He. destruct (redeem_ok _ _ _ _ _ _ Hc Er) as (v & Hv & E).
    apply (rest_extends _ _ _ _ _ _ _ e) in E as (-> & n & days & Hd & Hu & Hown); [|done..].
    split; [done|]. exists v, n, days. auto.
Qed.

(** C11: Every call of the handler, whether it returns or raises, and every new process, does to
    the tables of vouchers a sequence of the steps of a ledger: vouchers are issued with a new
    code, changed, or redeemed while they can be.  So in every state codes are unique, a
    redemption is of a voucher that exists, a user has one of a voucher at most, and a voucher
    counts its redemptions. *)
Theorem voucher_ledger h h' :
  reachable h -> rtc plus_step h h' -> rtc ledger_step (tables h) (tables h') /\ tables_inv (tables h').
Proof.
  intros [_ Ht]%plus_reachable_inv Hs. pose proof (steps_books _ _ Hs Ht) as Hl. split; [done|]. by eapply ledger_inv.
Qed.

(** C13: A user who redeemed a voucher never redeems it again, whatever calls are made between:
    the second call raises and changes no table and no document.  Not even a voucher that may
    be redeemed more than once by a user. *)
Theorem voucher_redeemed_once user code code' r h h1 h2 :
  reachable h -> redeem_voucher user code h = (Ok r, h1) -> rtc plus_step h1 h2 ->
  _normalize_voucher_code code' = _normalize_voucher_code code ->
  (exists e, (redeem_voucher user code' h2).1 = Err e) /\
  tables (redeem_voucher user code' h2).2 = tables h2 /\
  account_data (redeem_voucher user code' h2).2 = account_data h2.
Proof.
  intros [_ Ht]%plus_reachable_inv Er Hs Hcode.
  destruct (_normalize_voucher_code code) as [c|] eqn:Hc;
    [|unfold redeem_voucher, st_bind in Er; cbn in Er; by rewrite Hc in Er].
  assert (Hin := redeem_notes _ _ _ _ _ _ Hc Er).
  assert (Ht1 : tables_inv (tables h1)).
  { eapply ledger_inv; [|exact Ht]. eapply steps_books; [|exact Ht].
    replace h1 with (redeem_voucher user code h).2 by (by rewrite Er). by apply rtc_once, step_call; constructor. }
  pose proof (ledger_keeps_redemption _ _ _ (steps_books _ _ Hs Ht1) Hin) as Hkeep.
  apply (redeem_refused user code' c h2); [done|]. intros v (_ & _ & _ & _ & _ & Hn). by apply Hn.
Qed.

(** ** What goes wrong *)

(** The same report, accepted [k] times in a row. *)
Fixpoint accepted (k : nat) (payload : params) (u : string) (h h' : SetkaPlusHandler) : Prop :=
  match k with
  | O => h' = h
  | S k => exists o h1, handle_yoomoney_webhook payload h = (Ok (u, o), h1) /\ accepted k payload u h1 h'
  end.

Lemma accepted_adds k payload u h h' e : plans_inv h -> accepted k payload u h h' -> paid_until h u = Some e ->
  exists e', paid_until h' u = Some e' /\ e + Z.of_nat k * DAY_MS <= e'.
Proof.
  revert h e. induction k as [|k IH]; intros h e Hh.
  - intros -> He. exists e. split; [done|]. lia.
  - intros (o & h1 & E & Hr) He. destruct (webhook_ok _ _ _ _ _ _ Hh E He) as (B1 & plan & n & Hd & Hu).
    destruct (IH h1 _ B1 Hr Hu) as (e' & He' & Hle). exists e'. split; [done|]. unfold DAY_MS in *. nia.
Qed.

(** C16: A report of a payment that is sent again counts again: each time it is accepted the
    subscription lasts at least a day longer, without end. *)
Theorem replayed_reports_add_up k payload u h h' e :
  reachable h -> accepted k payload u h h' -> paid_until h u = Some e ->
  exists e', paid_until h' u = Some e' /\ e + Z.of_nat k * DAY_MS <= e'.
Proof. intros [Hh _]%plus_reachable_inv. by apply accepted_adds. Qed.

Lemma load_cached plans h : plans_cache h = Some plans -> _load_plans h = (Ok plans, h).
Proof. intros Hc. unfold _load_plans, st_bind, st_read. by rewrite Hc. Qed.

Lemma find_cached plans h id : plans_cache h = Some plans -> find_plan id h = (Ok (_find_plan_by_id plans id), h).
Proof.
  intros Hc. unfold find_plan, _find_plan_by_id. destruct (_clean_str id 64); [|done].
  unfold st_bind. by rewrite (load_cached _ _ Hc).
Qed.

Lemma resolve_cached plans h id : plans_cache h = Some plans ->
  resolve_plan id h = (Ok (_resolve_plan (plus_price_rub (config h)) plans id), h).
Proof. intros Hc. unfold resolve_plan, st_bind. by rewrite (load_cached _ _ Hc). Qed.

Lemma normalize_raw_active now tier plan t : 10000000000 <= t -> now < t ->
  exists o, normalize_raw now tier plan [("expires_at", JInt t)] = Ok o /\ active_flag o = true.
Proof.
  intros Hms Ht. destruct (clean_expiry (JInt t) t (expiry_of t (or_intror Hms))) as (t' & Et & Ht').
  unfold normalize_raw. change (oget _ "expires_at" JNull) with (JInt t). rewrite Et.
  eexists. split; [reflexivity|]. unfold active_flag. look_up. cbn. rewrite Ht'. by apply Z.ltb_lt.
Qed.

(** C17: Any user can give himself a subscription to any time, without paying: the account data
    API lets him write the document in which it is stored. *)
Theorem clients_write_subscriptions u plans t h :
  plans_cache h = Some plans -> plus_clock (ticks h) < t -> exists h',
    account_data_put false u u AccountDataTypes.SETKA_PLUS_SUBSCRIPTION (Ok [("expires_at", JInt t)]) h = (Ok tt, h')
    /\ (_assert_plus_active u h').1 = Ok tt.
Proof.
  intros Hc Ht. unfold account_data_put. rewrite String.eqb_refl. cbn [negb].
  unfold st_bind at 1 2, st_lift.
  eexists. split; [reflexivity|]. set (h1 := set_account_data _ h).
  assert (Hraw : default JNull (account_data h1 !! subscription_key u) = JObj [("expires_at", JInt t)])
    by (cbn; by rewrite lookup_insert_eq).
  set (h2 := set_counters (S (ticks h1)) (uuids h1) (randoms h1) h1).
  assert (Hc2 : plans_cache h2 = Some plans) by done.
  unfold _assert_plus_active, get_subscription, get_global_account_data_by_type_for_user, st_read.
  unfold st_bind at 1 2. change (account_data h1 !! (u, _)) with (account_data h1 !! subscription_key u).
  rewrite Hraw. unfold _normalize_subscription. unfold st_bind at 1, _now_ms. fold h2. unfold st_bind at 1.
  rewrite (resolve_cached _ _ _ Hc2). unfold st_bind at 1. cbn [oget dget]. rewrite (find_cached _ _ _ Hc2).
  unfold st_lift. set (tier := default _ _). set (plan := default _ _).
  destruct (normalize_raw_active (plus_clock (ticks h1)) tier plan t) as (o & -> & ->); [|done..].
  pose proof (clock_ms (ticks h)). lia.
Qed.
End reachable.

(** ** A server *)

Definition sample_repr : PyRepr := fun _ => "".
Definition sample_env : @PlusEnv ascii_unicode sample_repr := {|
  plus_clock n := 1700000000000 + Z.of_nat n;
  uuid4_hex n := "0123456789abcdef0123456789abcdef";
  random_inv_id n := 7;
  config_writable := true;
  plans_writable := true;
  md5_hexdigest s := ("md5:" ++ s)%string;
  hmac_sha256 k m := ("hmac:" ++ k ++ m)%string
|}.
#[local] Existing Instances ascii_unicode sample_repr sample_env numeral_codec numeral_codec_laws.

#[local] Instance sample_clock : PlusClock.
Proof. intros n. cbn. lia. Qed.

Definition sample_handler : SetkaPlusHandler :=
  {| config := initial_config [("SETKA_PLUS_ROBOKASSA_PASSWORD2", "secret")] "macaroon";
     server_config_file := None; plans_file := None; plans_cache := None; account_data := ∅; vouchers := [];
     redemptions := []; voucher_tables_ready := false; payanyway_pending_users := []; ticks := 0; uuids := 0;
     randoms := 0 |}.

Lemma sample_reachable : reachable sample_handler.
Proof. exists sample_handler. done. Defined.

(** One voucher, for a week. *)
Definition voucher_body : json :=
  JObj [("code", JStr "week"); ("duration_days", JInt 7); ("expires_at", JInt 1800000000); ("max_per_user", JInt 5);
        ("max_redemptions", JInt 3)].
Definition with_voucher : SetkaPlusHandler := (create_voucher voucher_body sample_handler).2.

Lemma with_voucher_step : plus_step sample_handler with_voucher.
Proof. apply (step_call (create_voucher voucher_body)). constructor. Defined.

Lemma with_voucher_reachable : reachable with_voucher.
Proof. exists sample_handler. split; [done|]. split; [done|]. apply rtc_once, with_voucher_step. Defined.

Lemma subscription_in_shape_witness : exists o h',
  get_subscription "@a:h" sample_handler = (Ok o, h') /\
  subscription_ok (plus_clock (ticks sample_handler)) o.
Proof.
  eexists _, _. split; [vm_compute; reflexivity|].
  eapply (subscription_in_shape "@a:h" sample_handler); [exact sample_reachable|vm_compute; reflexivity].
Defined.

Lemma activation_extends_witness : exists o h',
  activate_subscription "@a:h" "p" "robokassa" (Some (FFin 1 0)) (JStr "setka_plus_year") None "RUB" sample_handler
    = (Ok o, h') /\
  exists plan n, (resolve_plan (JStr "setka_plus_year") sample_handler).1 = Ok plan /\ 0 < bought_days None plan /\
    paid_until h' "@a:h" = Some (Z.max (plus_clock n) 0 + bought_days None plan * DAY_MS) /\
    oget o "expires_at" JNull = JInt (Z.max (plus_clock n) 0 + bought_days None plan * DAY_MS) /\
    others_same "@a:h" sample_handler h'.
Proof.
  eexists _, _. split; [vm_compute; reflexivity|].
  eapply (activation_extends "@a:h" "p" "robokassa" (Some (FFin 1 0)) (JStr "setka_plus_year") None "RUB"
            sample_handler); [exact sample_reachable|vm_compute; reflexivity|reflexivity].
Defined.

Definition forged : params :=
  [("OutSum", "1.00"); ("InvId", "7"); ("SignatureValue", "guess"); ("Shp_uid", "QGE6aA")].

Definition report : params :=
  [("label", "setka_plus|@a:h|setka_plus_month|1"); ("amount", "299.00"); ("operation_id", "op1")].
Definition after_report (h : SetkaPlusHandler) : SetkaPlusHandler := (handle_yoomoney_webhook report h).2.

(** A server that has a notification secret. *)
Definition guarded_handler : SetkaPlusHandler :=
  {| config := initial_config [("SETKA_PLUS_YOOMONEY_NOTIFICATION_SECRET", "hush")] "macaroon";
     server_config_file := None; plans_file := None; plans_cache := None; account_data := ∅; vouchers := [];
     redemptions := []; voucher_tables_ready := false; payanyway_pending_users := []; ticks := 0; uuids := 0;
     randoms := 0 |}.

Lemma unsigned_reports_give_nothing_witness :
  (~ robokassa_signed forged (config sample_handler) /\
   account_data (handle_robokassa_result forged sample_handler).2 !! subscription_key "@a:h" = None) /\
  (yoomoney_secret (config guarded_handler) /\ ~ yoomoney_signed report (config guarded_handler) /\
   account_data (after_report guarded_handler) !! subscription_key "@a:h" = None).
Proof.
  split.
  - assert (Hf : ~ robokassa_signed forged (config sample_handler)) by (intros [_ E]; vm_compute in E; discriminate).
    split; [exact Hf|].
    rewrite (proj1 (unsigned_reports_give_nothing _ _ _ sample_handler (out_result forged) I Hf) "@a:h"). reflexivity.
  - assert (Hn : yoomoney_secret (config guarded_handler)) by (vm_compute; discriminate).
    assert (Hf : ~ yoomoney_signed report (config guarded_handler)) by (intros E; vm_compute in E; discriminate).
    split; [exact Hn|]. split; [exact Hf|]. unfold after_report.
    rewrite (proj1 (unsigned_reports_give_nothing _ _ _ guarded_handler (out_webhook report) Hn Hf) "@a:h"). reflexivity.
Defined.

(** Without a secret, which is the default, an unsigned report by YooMoney gives the user it
    names the plan it names. *)
Example unsigned_report_without_secret :
  ~ yoomoney_secret (config sample_handler) /\
  paid_until sample_handler "@a:h" = Some 0 /\
  paid_until (after_report sample_handler) "@a:h" = Some (plus_clock 0 + 30 * DAY_MS).
Proof. split; [intros Hn; by apply Hn; vm_compute|]. split; vm_compute; reflexivity. Qed.

Lemma replayed_reports_add_up_witness :
  accepted 2 report "@a:h" sample_handler (after_report (after_report sample_handler)) /\
  exists e', paid_until (after_report (after_report sample_handler)) "@a:h" = Some e' /\ 0 + 2 * DAY_MS <= e'.
Proof.
  assert (Ha : accepted 2 report "@a:h" sample_handler (after_report (after_report sample_handler))).
  { eexists _, (after_report sample_handler). split; [vm_compute; reflexivity|].
    eexists _, (after_report (after_report sample_handler)). split; [vm_compute; reflexivity|]. reflexivity. }
  split; [exact Ha|]. exact (replayed_reports_add_up 2 report "@a:h" sample_handler _ 0 sample_reachable Ha eq_refl).
Defined.

Definition with_plans : SetkaPlusHandler := (get_plans sample_handler).2.

Lemma clients_write_subscriptions_witness : exists plans h',
  plans_cache with_plans = Some plans /\
  account_data_put false "@a:h" "@a:h" AccountDataTypes.SETKA_PLUS_SUBSCRIPTION
    (Ok [("expires_at", JInt 4102444800000)]) with_plans = (Ok tt, h') /\
  (_assert_plus_active "@a:h" h').1 = Ok tt.
Proof.
  destruct (plans_cache with_plans) as [plans|] eqn:E; [|vm_compute in E; discriminate].
  assert (Ht : plus_clock (ticks with_plans) < 4102444800000) by (vm_compute; reflexivity).
  destruct (clients_write_subscriptions "@a:h" plans 4102444800000 with_plans E Ht) as (h' & Hp & Ha).
  exists plans, h'. split; [reflexivity|]. split; [exact Hp|exact Ha].
Defined.

Definition week_voucher : Voucher :=
  {| v_code := "WEEK"; v_plan_id := None; v_duration_days := Some 7; v_expires_at := 1800000000000;
     v_max_redemptions := 3; v_redemption_count := 0; v_max_per_user := 5; v_note := None; v_is_active := true;
     v_created_at := 1700000000001 |}.

Lemma week_redeemable : redeemable with_voucher "WEEK" "@a:h" (plus_clock (ticks with_voucher)) week_voucher.
Proof.
  replace (redeemable _ _ _ _) with (redeemable (set_vouchers (fun _ => [week_voucher]) with_voucher) "WEEK" "@a:h" 1700000000002)
    by (vm_compute; reflexivity).
  split; [left|]. repeat (split; [reflexivity|]). vm_compute. intros Hn. inversion Hn.
Qed.

Lemma redeem_voucher_spec_witness :
  tables (redeem_voucher "@a:h" (JStr " week ") with_voucher).2
  = tables (booked "WEEK" "@a:h" (plus_clock (ticks with_voucher)) with_voucher).
Proof.
  apply (proj1 (redeem_voucher_spec "@a:h" (JStr " week ") "WEEK" with_voucher with_voucher_reachable eq_refl)
           week_voucher week_redeemable).
Defined.

Lemma voucher_ledger_witness :
  rtc ledger_step (tables sample_handler) (tables with_voucher) /\ tables_inv (tables with_voucher).
Proof. apply voucher_ledger; [exact sample_reachable|apply rtc_once, with_voucher_step]. Defined.

(** The voucher may be redeemed five times by a user. *)
Lemma voucher_redeemed_once_witness : exists r h1,
  redeem_voucher "@a:h" (JStr "week") with_voucher = (Ok r, h1) /\
  exists e, (redeem_voucher "@a:h" (JStr "WE EK") h1).1 = Err e.
Proof.
  eexists _, _. split; [vm_compute; reflexivity|].
  eapply (voucher_redeemed_once "@a:h" (JStr "week") (JStr "WE EK") _ with_voucher);
    [exact with_voucher_reachable|vm_compute; reflexivity|apply rtc_refl|vm_compute; reflexivity].
Defined.

(** It is the table's primary key that refuses, with an exception nobody catches. *)
Example second_redemption : (redeem_voucher "@a:h" (JStr "week")
    (redeem_voucher "@a:h" (JStr "week") with_voucher).2).1 = Err unique_violation.
Proof. vm_compute. reflexivity. Qed.

(** ** A link to a pack *)

#[local] Instance numeral_text : JsonText.
Proof.
  split; intros j; cbn [json_encode numeral_codec].
  - eapply str_all_impl, str_of_int_chars. by intros a [Ha _]%sign_plain%andb_true_iff.
  - intros Hn. apply (f_equal int_of_str) in Hn. by rewrite int_of_str_of_int in Hn.
Qed.
#[local] Instance sample_digest : HmacDigest.
Proof. done. Qed.

Definition with_pack : SetkaPlusHandler :=
  (upsert_sticker_pack "@a:h" (JStr "cats") [("name", JStr "Cats"); ("stickers", JList [])] false false
     sample_handler).2.

Definition cats : list obj :=
  [[("id", JStr "cats"); ("name", JStr "Cats"); ("kind", JStr "sticker"); ("stickers", JList []);
    ("created_at", JInt 1700000000000); ("updated_at", JInt 1700000000000)]].

Lemma share_token_roundtrip_witness : exists token h',
  create_share_token "@a:h" (JStr "cats") false with_pack = (Ok token, h') /\
  exists o p n, _decode_share_token (share_secret (config with_pack)) token = Ok o /\
    _clean_str (JStr "cats") 128 = Some p /\ oget o "u" JNull = JStr "@a:h" /\ oget o "p" JNull = JStr p /\
    oget o "iat" JNull = JInt (plus_clock n).
Proof.
  assert (Hp : (get_sticker_packs "@a:h" with_pack).1 = Ok cats) by (vm_compute; reflexivity).
  apply st_result in Hp.
  assert (E : exists token h', create_share_token "@a:h" (JStr "cats") false with_pack = (Ok token, h')).
  { unfold create_share_token. change (_clean_str (JStr "cats") 128) with (Some "cats").
    unfold st_bind at 1. rewrite Hp. eexists _, _. reflexivity. }
  destruct E as (token & h' & E). exists token, h'. split; [exact E|].
  exact (proj1 (share_token_roundtrip "@a:h" (JStr "cats") false with_pack _ _ E)).
Defined.
