(* ===== verification/SetkaFeed.v ===== *)
(** * SetkaFeed: the feed of channel posts (handlers/setka_feed.py)

    The handler's methods over the tables of [SetkaDb].  What it reads from the rest of the
    server (room statistics, memberships, redactions, events) is the class [Homeserver]. *)
From S2P Require Import Prelude PyVal PySort PyState RoomVersionTable Events SetkaDb.
From Stdlib Require Import String.
Open Scope string_scope.
Open Scope list_scope.
Open Scope Z_scope.
Open Scope py_scope.
Open Scope st_scope.

Record RoomStatsState := {
  rs_name : option string; rs_topic : option string; rs_canonical_alias : option string;
  rs_avatar : option string; rs_join_rules : option string
}.

Class Homeserver := {
  room_stats_state : string -> option RoomStatsState;
  room_stats_current : string -> option Z;
  (** the rooms a user has joined: local_current_membership *)
  local_joined_rooms : string -> result (list string);
  (** the IDs among the given ones that a redaction targets *)
  redactions_of : list string -> list string;
  (** get_events_as_list, with redacted events left out *)
  get_events_as_list : list string -> result (list event);
  get_current_state : string -> result (StateMap event)
}.

(** [random.shuffle] *)
Class PyRandom := {
  shuffle : forall {A}, list A -> list A;
  shuffle_perm : forall {A} (l : list A), shuffle l ≡ₚ l
}.

Definition HEART_EMOJI : string := "❤️".

Definition DEFAULT_CATEGORIES : list (string * string * Z) :=
  [("humor", "#Юмор", 1); ("creativity", "#Творчество", 2); ("news", "#Новости", 3);
   ("tech", "#IT", 4); ("music", "#Музыка", 5); ("education", "#Образование", 6);
   ("lifestyle", "#Lifestyle", 7); ("games", "#Игры", 8)].

(** ** Messages *)

Definition _message_fields_from_content `{PyRepr} (content : obj) : string * string * option string :=
  let msgtype := py_str (py_or (oget content "msgtype" JNull) (JStr "m.text")) in
  let body := py_str (py_or (oget content "body" JNull) (JStr "")) in
  let media_mxc :=
    if bool_decide (msgtype ∈ ["m.image"; "m.video"]) then oget content "url" JNull else JNull in
  let media_mxc :=
    match oget content "file" JNull with
    | JObj file_content => if truthy media_mxc then media_mxc else oget file_content "url" JNull
    | _ => media_mxc
    end in
  (msgtype, body, if is_none media_mxc then None else Some (py_str media_mxc)).

(** A post as the feed returns it. *)
Record PostView := {
  v_event_id : string; v_room_id : string; v_sender : string; v_created_at : Z;
  v_msgtype : string; v_body : string; v_media_mxc : option string;
  v_comment_count : Z; v_view_count : Z; v_like_count : Z; v_liked : bool; v_subscribed : bool;
  v_room_name : option string; v_room_avatar_url : option string;
  v_category_id : option string; v_category_label : option string
}.

Definition str_truthy (o : option string) : bool :=
  match o with Some s => negb (String.eqb s "") | None => false end.

Definition _post_is_visible (post : PostView) : bool :=
  if negb (String.eqb (strip (v_body post)) "") then true
  else str_truthy (v_media_mxc post) &&
       bool_decide (v_msgtype post ∈ ["m.image"; "m.video"; "m.audio"; "m.file"]).

(** ** Tables and categories *)

Definition upsert_category (rows : list Category) (c : string * string * Z) : list Category :=
  let '(id, label, sort_order) := c in
  if row_exists (fun r => String.eqb (cat_id r) id) rows then
    update_where (fun r => String.eqb (cat_id r) id)
      (fun r => {| cat_id := cat_id r; cat_label := label; cat_sort_order := sort_order;
                   cat_is_active := cat_is_active r |}) rows
  else rows ++ [{| cat_id := id; cat_label := label; cat_sort_order := sort_order;
                   cat_is_active := 1 |}].

(** The tables always exist here; what is left is the default categories. *)
Definition _ensure_tables : DbM unit :=
  st_modify (fun db => if tables_ready db then db
                       else set_categories (fun rows => fold_left upsert_category DEFAULT_CATEGORIES rows) db).

Definition category_order (c : Category) : Z * string := (cat_sort_order c, cat_label c).

Definition list_categories : DbM (list (string * string * Z)) :=
  _ensure_tables ;;!
  let! db := st_read (fun db => db) in
  let rows := sorted_by category_order
                (List.filter (fun c => cat_is_active c =? 1) (setka_channel_categories db)) in
  st_ret (match rows with
          | [] => DEFAULT_CATEGORIES
          | _ => map (fun c => (cat_id c, cat_label c, cat_sort_order c)) rows
          end).

Definition get_category_label (category_id : option string) : DbM (option string) :=
  match category_id with
  | Some id =>
      if String.eqb id "" then st_ret None
      else
        _ensure_tables ;;!
        st_read (fun db => cat_label <$>
          fetchone (fun c => String.eqb (cat_id c) id) (setka_channel_categories db))
  | None => st_ret None
  end.

Definition validate_category_id (category_id : option string) : DbM string :=
  let id := strip (default "" category_id) in
  if String.eqb id "" then st_raise (SynapseError 400 "category_id is required" "M_MISSING_PARAM")
  else
    _ensure_tables ;;!
    let! exists_ := st_read (fun db =>
      row_exists (fun c => String.eqb (cat_id c) id && (cat_is_active c =? 1))
        (setka_channel_categories db)) in
    if exists_ : bool then st_ret id
    else st_raise (SynapseError 400 "Unknown category_id" "M_INVALID_PARAM").

Definition set_channel_category (room : string) (category_id : option string)
    (feed_enabled : bool) : DbM unit :=
  let! id := validate_category_id category_id in
  _ensure_tables ;;!
  st_modify (set_published (update_where (fun r => String.eqb (c_room_id r) room)
    (fun r => {| c_room_id := c_room_id r; c_published_at := c_published_at r; c_tag := c_tag r;
                 c_hidden := c_hidden r; c_category_id := Some id;
                 c_feed_enabled := if feed_enabled then 1 else 0 |}))).

(** ** Subscriptions *)

Definition subscribe (user room : string) (now_ms : Z) : DbM unit :=
  _ensure_tables ;;!
  st_modify (set_subscriptions (fun rows =>
    if row_exists (is_mark user room) rows then rows else rows ++ [(user, room, now_ms)])).

Definition unsubscribe (user room : string) : DbM unit :=
  _ensure_tables ;;! st_modify (set_subscriptions (delete_where (is_mark user room))).

Definition get_subscription (user room : string) : DbM bool :=
  _ensure_tables ;;!
  st_read (fun db => row_exists (is_mark user room) (setka_channel_subscriptions db)).

Definition subscription_map (user : string) (room_ids : list string) : DbM (list (string * bool)) :=
  match room_ids with
  | [] => st_ret []
  | _ =>
      _ensure_tables ;;!
      st_read (fun db => fold_left (fun d room =>
        dset room (row_exists (is_mark user room) (setka_channel_subscriptions db)) d) room_ids [])
  end.

Definition _user_subscribed_rooms (user : string) : DbM (list string) :=
  _ensure_tables ;;!
  st_read (fun db => remove_dups (map (fun m : Mark => m.1.2)
    (List.filter (fun m : Mark => String.eqb m.1.1 user) (setka_channel_subscriptions db)))).

(** [GROUP BY category_id ORDER BY COUNT( * ) DESC LIMIT 5] *)
Definition top_groups (categories : list string) : list string :=
  let cnt c := Z.of_nat (List.length (List.filter (String.eqb c) categories)) in
  take 5 (sorted_by (fun c => - cnt c) (remove_dups categories)).

Definition _user_top_categories (user : string) : DbM (list string) :=
  let! subscribed := _user_subscribed_rooms user in
  match subscribed with
  | [] => st_ret []
  | _ =>
      st_read (fun db =>
        List.filter (fun c => negb (String.eqb c "")) (top_groups (omap c_category_id
          (List.filter (fun r => bool_decide (c_room_id r ∈ subscribed)) (setka_published_channels db)))))
  end.

(** ** Ingesting posts *)

(** [INSERT ... ON CONFLICT (event_id) DO UPDATE SET body, media_mxc, msgtype]; with
    [update_category] the category is updated too. *)
Definition upsert_post (update_category : bool) (p : FeedPost) (rows : list FeedPost) : list FeedPost :=
  if row_exists (fun r => String.eqb (p_event_id r) (p_event_id p)) rows then
    update_where (fun r => String.eqb (p_event_id r) (p_event_id p))
      (fun r => {| p_event_id := p_event_id r; p_room_id := p_room_id r;
                   p_category_id := if update_category then p_category_id p else p_category_id r;
                   p_sender := p_sender r; p_created_at := p_created_at r;
                   p_msgtype := p_msgtype p; p_body := p_body p; p_media_mxc := p_media_mxc p;
                   p_comment_count := p_comment_count r; p_view_count := p_view_count r;
                   p_like_count := p_like_count r |}) rows
  else rows ++ [p].

Definition post_of_event `{PyRepr} (e : event) (room : string) (category : option string) : FeedPost :=
  let '(msgtype, body, media_mxc) := _message_fields_from_content (content e) in
  {| p_event_id := event_id e; p_room_id := room; p_category_id := category;
     p_sender := sender e; p_created_at := origin_server_ts e; p_msgtype := msgtype;
     p_body := body; p_media_mxc := media_mxc; p_comment_count := 0; p_view_count := 0;
     p_like_count := 0 |}.

(** A message that is not a reply, a thread comment or an edit. *)
Definition is_feed_message (e : event) : bool :=
  String.eqb (type e) "m.room.message" && negb (truthy (oget (content e) "m.relates_to" JNull)).

Definition is_visible_channel (r : PublishedChannel) : bool := c_hidden r =? 0.

Definition maybe_ingest_event `{PyRepr} (e : event) : DbM unit :=
  if negb (is_feed_message e) then st_ret tt
  else
    let! room := st_lift (room_id e) in
    _ensure_tables ;;!
    let! row := st_read (fun db =>
      fetchone (fun r => String.eqb (c_room_id r) room && is_visible_channel r)
        (setka_published_channels db)) in
    match row with
    | Some r =>
        if c_feed_enabled r =? 0 then st_ret tt
        else st_modify (set_posts (upsert_post false (post_of_event e room (c_category_id r))))
    | None => st_ret tt
    end.

Definition is_feed_enabled (room : string) : DbM (bool * option string) :=
  _ensure_tables ;;!
  st_read (fun db =>
    match fetchone (fun r => String.eqb (c_room_id r) room) (setka_published_channels db) with
    | Some r => (negb (c_feed_enabled r =? 0),
                 if str_truthy (c_category_id r) then c_category_id r else None)
    | None => (false, None)
    end).

Definition ingest_post `{PyRepr} (e : event) (room category : string) : DbM unit :=
  if negb (is_feed_message e) then st_ret tt
  else
    _ensure_tables ;;!
    st_modify (set_posts (upsert_post true (post_of_event e room (Some category)))).

(** ** Reading posts *)

Section feed.
Context `{SqlEngine, Homeserver, PyRepr, PyUnicode, PyRandom}.

Definition _user_joined_published_channels (user : string) : DbM (list string) :=
  _ensure_tables ;;!
  st_read (fun db =>
    match local_joined_rooms user with
    | Ok rooms => List.filter (fun r => bool_decide (r ∈ rooms)) (map c_room_id (setka_published_channels db))
    | Err _ => []
    end).

Definition _subscription_feed_room_ids (user : string) : DbM (list string) :=
  let! subscribed := _user_subscribed_rooms user in
  let! joined := _user_joined_published_channels user in
  st_ret (remove_dups (subscribed ++ joined)).

Definition _redacted_event_ids (event_ids : list string) : list string :=
  match List.filter (fun i => negb (String.eqb i "")) event_ids with
  | [] => []
  | ids => redactions_of ids
  end.

Definition _purge_feed_posts (event_ids : list string) : DbM unit :=
  match event_ids with
  | [] => st_ret tt
  | _ => st_modify (set_posts (delete_where (fun p => bool_decide (p_event_id p ∈ event_ids))))
  end.

Definition refresh_post (post : PostView) (e : event) : PostView :=
  let '(msgtype, body, media_mxc) := _message_fields_from_content (content e) in
  {| v_event_id := v_event_id post; v_room_id := v_room_id post; v_sender := v_sender post;
     v_created_at := v_created_at post; v_msgtype := msgtype; v_body := body;
     v_media_mxc := if str_truthy media_mxc then media_mxc else v_media_mxc post;
     v_comment_count := v_comment_count post; v_view_count := v_view_count post;
     v_like_count := v_like_count post; v_liked := v_liked post; v_subscribed := v_subscribed post;
     v_room_name := v_room_name post; v_room_avatar_url := v_room_avatar_url post;
     v_category_id := v_category_id post; v_category_label := v_category_label post |}.

(** The body of the last loop of [_filter_posts_with_events]: the post to show, if any. *)
Definition filter_post (events_by_id : list (string * event)) (redacted_ids : list string)
    (post : PostView) : option PostView :=
  match dget (v_event_id post) events_by_id with
  | None =>
      if bool_decide (v_event_id post ∈ redacted_ids) then None
      else if _post_is_visible post then Some post else None
  | Some e =>
      if negb (is_feed_message e) then None
      else
        let refreshed := refresh_post post e in
        if _post_is_visible refreshed then Some refreshed else None
  end.

Definition _filter_posts_with_events (posts : list PostView) : DbM (list PostView) :=
  match posts with
  | [] => st_ret []
  | _ =>
      let event_ids := map v_event_id posts in
      match get_events_as_list event_ids with
      | Err _ => st_ret (List.filter _post_is_visible posts)
      | Ok events =>
          let events_by_id := fold_left (fun d e => dset (event_id e) e d) events [] in
          let missing_ids := List.filter (fun i => negb (dmem i events_by_id)) event_ids in
          let redacted_ids := _redacted_event_ids missing_ids in
          _purge_feed_posts redacted_ids ;;!
          st_ret (omap (filter_post events_by_id redacted_ids) posts)
      end
  end.

(** One row with what the joins add to it. *)
Definition hydrate_post (db : SetkaDb) (user : string) (row : FeedPost) : PostView :=
  let channel := fetchone (fun r => String.eqb (c_room_id r) (p_room_id row))
                   (setka_published_channels db) in
  let stats := _ ← channel; room_stats_state (p_room_id row) in
  let category := r ← channel; c_category_id r in
  {| v_event_id := p_event_id row; v_room_id := p_room_id row; v_sender := p_sender row;
     v_created_at := p_created_at row; v_msgtype := p_msgtype row; v_body := p_body row;
     v_media_mxc := p_media_mxc row; v_comment_count := p_comment_count row;
     v_view_count := p_view_count row; v_like_count := p_like_count row;
     v_liked := row_exists (is_mark user (p_event_id row)) (setka_feed_likes db);
     v_subscribed := row_exists (is_mark user (p_room_id row)) (setka_channel_subscriptions db);
     v_room_name := s ← stats; rs_name s; v_room_avatar_url := s ← stats; rs_avatar s;
     v_category_id := category;
     v_category_label := i ← category; cat_label <$>
       fetchone (fun c => String.eqb (cat_id c) i) (setka_channel_categories db) |}.

Definition _hydrate_posts (user : string) (rows : list FeedPost) : DbM (list PostView) :=
  match rows with
  | [] => st_ret []
  | _ =>
      let! posts := st_read (fun db => map (hydrate_post db user) rows) in
      _filter_posts_with_events posts
  end.

Definition _parse_since (since : option string) : option Z :=
  match since with
  | Some s => if String.eqb s "" then None
              else match int_of_str s with Ok n => Some n | Err _ => None end
  | None => None
  end.

(** The conditions of the query; a category list or search text that is empty asks for
    nothing. *)
Record FeedQuery := {
  since_ms : option Z; room_ids : option (list string); category_ids : list string;
  search_query : string; random_explore : bool
}.

Definition feed_where (q : FeedQuery) (p : FeedPost) (c : PublishedChannel) : bool :=
  (c_feed_enabled c =? 1) && is_visible_channel c
  && match since_ms q with Some n => p_created_at p <? n | None => true end
  && match room_ids q with Some rooms => bool_decide (p_room_id p ∈ rooms) | None => true end
  && match category_ids q with
     | [] => true
     | cats => match p_category_id p with Some c => bool_decide (c ∈ cats) | None => false end
     end
  && (String.eqb (search_query q) "" ||
      sql_like ("%" ++ py_lower (search_query q) ++ "%")%string (sql_lower (p_body p))).

(** The join of posts and channels that meet the conditions. *)
Definition feed_join (q : FeedQuery) (db : SetkaDb) : list FeedPost :=
  flat_map (fun p => flat_map (fun c =>
    if String.eqb (p_room_id p) (c_room_id c) && feed_where q p c then [p] else [])
    (setka_published_channels db)) (setka_feed_posts db).

Definition clamp_limit (limit : Z) : nat := Z.to_nat (Z.max 1 (Z.min limit 50)).

Definition feed_rows (q : FeedQuery) (limit : Z) (db : SetkaDb) : list FeedPost :=
  match room_ids q with
  | Some [] => []
  | _ =>
      let rows := feed_join q db in
      take (clamp_limit limit)
        (if random_explore q then sql_random rows else sorted_by (fun p => - p_created_at p) rows)
  end.

Definition _fetch_posts (user : string) (limit : Z) (q : FeedQuery) : DbM (list PostView) :=
  _ensure_tables ;;!
  let! rows := st_read (feed_rows q limit) in
  _hydrate_posts user rows.

Definition _page_response (posts : list PostView) : list PostView * option string :=
  (posts, (fun p => str_of_int (v_created_at p)) <$> last posts).

Definition merge_posts (posts batch : list PostView) : list PostView :=
  fold_left (fun acc p =>
    if bool_decide (v_event_id p ∈ map v_event_id acc) then acc else acc ++ [p]) batch posts.

(** A batch of the recommended mix, when it is asked for. *)
Definition merge_batch (user : string) (wanted : bool) (limit : Z) (q : FeedQuery)
    (posts : list PostView) : DbM (list PostView) :=
  if wanted then let! batch := _fetch_posts user limit q in st_ret (merge_posts posts batch)
  else st_ret posts.

Definition nonempty {A} (l : list A) : bool := match l with [] => false | _ => true end.

Definition get_feed (user mode : string) (limit : Z) (since search : option string)
    : DbM (list PostView * option string) :=
  let since_ms_ := _parse_since since in
  let query rooms cats s rnd := {| since_ms := since_ms_; room_ids := rooms; category_ids := cats;
                                   search_query := s; random_explore := rnd |} in
  if str_truthy search then
    let! posts := _fetch_posts user limit (query None [] (strip (default "" search)) false) in
    st_ret (_page_response posts)
  else if String.eqb mode "subscriptions" then
    let! subscribed := _subscription_feed_room_ids user in
    let! posts := _fetch_posts user limit (query (Some subscribed) [] "" false) in
    st_ret (_page_response posts)
  else
    let page_size := Z.max 1 (Z.min limit 50) in
    let sub_count := Z.max 1 (page_size * 6 / 10) in
    let cat_count := Z.max 0 (page_size / 4) in
    let explore_count := Z.max 0 (page_size - sub_count - cat_count) in
    let! subscribed := _user_subscribed_rooms user in
    let! top_categories := _user_top_categories user in
    let! posts := merge_batch user (nonempty subscribed) sub_count
                    (query (Some subscribed) [] "" false) [] in
    let! posts := merge_batch user (nonempty top_categories && (0 <? cat_count)) (cat_count * 2)
                    (query None top_categories "" false) posts in
    let! posts := merge_batch user (0 <? explore_count) (explore_count * 3)
                    (query None [] "" true) posts in
    let posts := take (Z.to_nat page_size) (sorted_by (fun p => - v_created_at p) posts) in
    let posts := if (Z.of_nat (List.length posts) <? page_size) then shuffle posts else posts in
    st_ret (_page_response posts).

Definition search_posts (user query : string) (limit : Z) (since : option string)
    : DbM (list PostView * option string) :=
  get_feed user "recommended" limit since (Some query).
End feed.

(** ** Likes and views *)

Definition set_like_count (event_id : string) (f : Z -> Z) : list FeedPost -> list FeedPost :=
  update_where (fun p => String.eqb (p_event_id p) event_id)
    (fun p => {| p_event_id := p_event_id p; p_room_id := p_room_id p;
                 p_category_id := p_category_id p; p_sender := p_sender p;
                 p_created_at := p_created_at p; p_msgtype := p_msgtype p; p_body := p_body p;
                 p_media_mxc := p_media_mxc p; p_comment_count := p_comment_count p;
                 p_view_count := p_view_count p; p_like_count := f (p_like_count p) |}).

Definition set_view_count (event_id : string) (f : Z -> Z) : list FeedPost -> list FeedPost :=
  update_where (fun p => String.eqb (p_event_id p) event_id)
    (fun p => {| p_event_id := p_event_id p; p_room_id := p_room_id p;
                 p_category_id := p_category_id p; p_sender := p_sender p;
                 p_created_at := p_created_at p; p_msgtype := p_msgtype p; p_body := p_body p;
                 p_media_mxc := p_media_mxc p; p_comment_count := p_comment_count p;
                 p_view_count := f (p_view_count p); p_like_count := p_like_count p |}).

Definition post_count (f : FeedPost -> Z) (event_id : string) (db : SetkaDb) : Z :=
  match fetchone (fun p => String.eqb (p_event_id p) event_id) (setka_feed_posts db) with
  | Some p => f p
  | None => 0
  end.

(** Whether the user likes the post now, and its like count. *)
Definition toggle_like (user event_id : string) (now_ms : Z) : DbM (bool * Z) :=
  _ensure_tables ;;!
  let! liked := st_read (fun db => row_exists (is_mark user event_id) (setka_feed_likes db)) in
  (if liked : bool then
     st_modify (set_likes (delete_where (is_mark user event_id))) ;;!
     st_modify (set_posts (set_like_count event_id (fun n => if 0 <? n then n - 1 else 0)))
   else
     st_modify (set_likes (fun rows => rows ++ [(user, event_id, now_ms)])) ;;!
     st_modify (set_posts (set_like_count event_id (fun n => n + 1)))) ;;!
  let! count := st_read (post_count p_like_count event_id) in
  st_ret (negb liked, count).

Definition record_view (user event_id : string) (now_ms : Z) : DbM Z :=
  _ensure_tables ;;!
  let! seen := st_read (fun db => row_exists (is_mark user event_id) (setka_feed_views db)) in
  (if seen : bool then st_ret tt
   else
     st_modify (set_views (fun rows => rows ++ [(user, event_id, now_ms)])) ;;!
     st_modify (set_posts (set_view_count event_id (fun n => n + 1)))) ;;!
  st_read (post_count p_view_count event_id).
