(* ===== verification/SetkaRegistry.v ===== *)
(** * SetkaRegistry: the registry of published channels (handlers/setka_channels.py)

    The methods of [SetkaChannelsHandler] over the tables of [SetkaDb]: publishing, hiding,
    rebuilding and listing channels, and the third-party rule with the registry and feed
    updates it makes.  The flag [is_public] of the server's table of rooms is a second piece
    of state, and the page token's encoding a parameter. *)
From S2P Require Import Prelude PyVal PySort PyState RoomVersionTable Events EventAuthLevels.
From S2P Require Import SetkaChannels SetkaDb SetkaFeed.
From Stdlib Require Import String.
Open Scope string_scope.
Open Scope list_scope.
Open Scope Z_scope.
Open Scope py_scope.
Open Scope st_scope.

Definition _PUBLIC_JOIN_RULES : list string :=
  [JoinRules.PUBLIC; JoinRules.KNOCK; JoinRules.KNOCK_RESTRICTED].

(** ** Upserting a channel *)

Definition in_room (room : string) (r : PublishedChannel) : bool := String.eqb (c_room_id r) room.

Definition upsert_channel (room : string) (ts : Z) (tag category_id : option string)
    (update_category : bool) (rows : list PublishedChannel) : list PublishedChannel :=
  if row_exists (in_room room) rows then
    update_where (in_room room)
      (fun r => {| c_room_id := c_room_id r; c_published_at := ts; c_tag := tag;
                   c_hidden := c_hidden r;
                   c_category_id := if update_category then category_id else c_category_id r;
                   c_feed_enabled := 1 |}) rows
  else rows ++ [{| c_room_id := room; c_published_at := ts; c_tag := tag; c_hidden := 0;
                   c_category_id := if update_category then category_id else None;
                   c_feed_enabled := 1 |}].

Definition _upsert_published_channel (room : string) (tag category_id : option string)
    (now_ms : Z) (update_category : bool) : DbM unit :=
  st_modify (set_published (upsert_channel room now_ms tag category_id update_category)).

Section registry.
Context `{SqlEngine, Homeserver, PyRepr, PyUnicode}.

Definition _ensure_feed_registry_for_channel (room : string) (state : StateMap event)
    (now_ms : Z) : DbM unit :=
  _upsert_published_channel room (_parse_channel_tag (_topic_from_state state)) None now_ms false.

(** The [try] of [check_event_allowed]: an exception ends it silently, what was written
    before stays. *)
Definition ingest_channel_post (e : event) (state : StateMap event) (now_ms : Z) : DbM unit :=
  fun db =>
    (Ok tt, snd ((let! room := st_lift (room_id e) in
                  _ensure_feed_registry_for_channel room state now_ms ;;!
                  maybe_ingest_event e) db)).

Definition check_event_allowed_db (e : event) (state : StateMap event) (now_ms : Z) : DbM bool :=
  if negb (is_feed_type (type e)) then st_ret true
  else if negb (_is_setka_channel_state state) then st_ret true
  else
    let! threaded := st_lift (_is_threaded_content (content e)) in
    if threaded : bool then st_ret true
    else
      let! level := st_lift (get_user_power_level (sender e) state) in
      if MODERATOR_POWER_LEVEL <=? level then
        ingest_channel_post e state now_ms ;;! st_ret true
      else st_ret false.

(** ** The registry query *)

(** A registry row joined with the room's statistics. *)
Record RegistryRow := {
  rr_channel : PublishedChannel; rr_stats : RoomStatsState; rr_members : Z
}.

Definition join_stats (r : PublishedChannel) : option RegistryRow :=
  match room_stats_state (c_room_id r), room_stats_current (c_room_id r) with
  | Some s, Some n => Some {| rr_channel := r; rr_stats := s; rr_members := n |}
  | _, _ => None
  end.

(** The pattern of the topic, with the prefix anywhere in it. *)
Definition topic_pattern : string := ("%" ++ lower CHANNEL_TOPIC_PREFIX ++ "%")%string.

Definition has_channel_stats (s : RoomStatsState) : bool :=
  match rs_topic s with Some t => sql_like topic_pattern (sql_lower t) | None => false end
  && match rs_join_rules s with Some j => bool_decide (j ∈ _PUBLIC_JOIN_RULES) | None => false end.

(** The order of the directory: by number of members, then by room ID. *)
Definition directory_key (r : RegistryRow) : Z * string := (rr_members r, c_room_id (rr_channel r)).

(** The rows after the bounds, in the direction of the query. *)
Definition after_bounds (bounds : option (Z * string)) (forwards : bool) (r : RegistryRow) : bool :=
  match bounds with
  | None => true
  | Some (n, room) =>
      let m := rr_members r in
      let i := c_room_id (rr_channel r) in
      if forwards then (m <=? n) && ((m <? n) || negb (py_leb room i))
      else (n <=? m) && ((n <? m) || negb (py_leb i room))
  end.

Definition registry_where (bounds : option (Z * string)) (forwards include_hidden : bool)
    (r : RegistryRow) : bool :=
  has_channel_stats (rr_stats r) && (include_hidden || is_visible_channel (rr_channel r))
  && after_bounds bounds forwards r.

Definition direct (forwards : bool) (rows : list RegistryRow) : list RegistryRow :=
  if forwards then rev (sorted_by directory_key rows) else sorted_by directory_key rows.

Definition _fetch_published_channels_from_registry (limit : nat) (bounds : option (Z * string))
    (forwards include_hidden : bool) : DbM (list RegistryRow) :=
  st_read (fun db =>
    take limit (direct forwards (List.filter (registry_where bounds forwards include_hidden)
      (omap join_stats (setka_published_channels db))))).

(** The dictionary the query builds from a row. *)
Definition jopt (o : option string) : json := match o with Some s => JStr s | None => JNull end.
Definition registry_dict (r : RegistryRow) : obj :=
  let c := rr_channel r in
  [("room_id", JStr (c_room_id c)); ("name", jopt (rs_name (rr_stats r)));
   ("topic", jopt (rs_topic (rr_stats r)));
   ("canonical_alias", jopt (rs_canonical_alias (rr_stats r)));
   ("num_joined_members", JInt (rr_members r)); ("avatar_url", jopt (rs_avatar (rr_stats r)));
   ("published_at", JInt (c_published_at c)); ("tag", jopt (c_tag c));
   ("hidden", JInt (c_hidden c)); ("category_id", jopt (c_category_id c));
   ("feed_enabled", JInt (c_feed_enabled c))].

(** ** The page token (handlers/room_list.py) *)

Record RoomListNextBatch := {
  last_joined_members : Z; last_room_id : string; direction_is_forward : bool
}.

(** ** [list_public_channels] *)

(** An entry of the public list: the directory entry, the category with its label, and
    whether the user is subscribed. *)
Record PublicChannel := {
  pc_entry : ChannelEntry; pc_category : option (string * option string);
  pc_subscribed : option bool
}.

(** The body of the loop over the rows, up to the search test. *)
Definition public_entry (user : option string) (subscriptions : list (string * bool))
    (r : RegistryRow) : DbM (option PublicChannel) :=
  match _room_entry_to_channel (registry_dict r) with
  | None => st_ret None
  | Some entry =>
      let! category :=
        (if str_truthy (c_category_id (rr_channel r)) then
           let! label := get_category_label (c_category_id (rr_channel r)) in
           st_ret ((fun i => (i, label)) <$> c_category_id (rr_channel r))
         else st_ret None) in
      st_ret (Some {| pc_entry := entry; pc_category := category;
                      pc_subscribed := if str_truthy user
                        then Some (default false (dget (c_room_id (rr_channel r)) subscriptions))
                        else None |})
  end.

(** The loop: the channels of the page and the last row looked at.  [room] is the row, when
    there is one, that was considered before. *)
Fixpoint page_loop (user : option string) (subscriptions : list (string * bool))
    (query : string) (page_size : nat) (rows : list RegistryRow) (considered : option RegistryRow)
    (channels : list PublicChannel) : DbM (list PublicChannel * option RegistryRow) :=
  match rows with
  | [] => st_ret (channels, considered)
  | r :: rows =>
      let! entry := public_entry user subscriptions r in
      match entry with
      | None => page_loop user subscriptions query page_size rows (Some r) channels
      | Some pc =>
          if negb (_matches_search (pc_entry pc) query) then
            page_loop user subscriptions query page_size rows (Some r) channels
          else
            let channels := channels ++ [pc] in
            if (page_size <=? List.length channels)%nat then st_ret (channels, Some r)
            else page_loop user subscriptions query page_size rows (Some r) channels
      end
  end.

(** [max(1, min(limit or 40, 100))] *)
Definition channel_page_size (limit : option Z) : nat :=
  let limit := match limit with Some n => if n =? 0 then 40 else n | None => 40 end in
  Z.to_nat (Z.max 1 (Z.min limit 100)).

Definition next_batch_of (r : RegistryRow) : RoomListNextBatch :=
  {| last_joined_members := rr_members r; last_room_id := c_room_id (rr_channel r);
     direction_is_forward := true |}.

Definition list_public_channels (limit : option Z) (since : option RoomListNextBatch)
    (search : option string) (user : option string)
    : DbM (list PublicChannel * option RoomListNextBatch) :=
  let page_size := channel_page_size limit in
  let bounds := (fun b => (last_joined_members b, last_room_id b)) <$> since in
  let forwards := match since with Some b => direction_is_forward b | None => true end in
  let probing_limit := (page_size + 10)%nat in
  let! rows := _fetch_published_channels_from_registry probing_limit bounds forwards false in
  let! subscriptions :=
    (if str_truthy user
     then subscription_map (default "" user) (map (fun r => c_room_id (rr_channel r)) rows)
     else st_ret []) in
  let! (channels, considered) :=
    page_loop user subscriptions (default "" search) page_size rows None [] in
  st_ret (channels,
          match considered with
          | Some r => if (probing_limit <=? List.length rows)%nat then Some (next_batch_of r) else None
          | None => None
          end).

Definition list_published_channels_admin (limit : Z) : DbM (list ChannelEntry) :=
  let! rows := _fetch_published_channels_from_registry (Z.to_nat (Z.max 1 (Z.min limit 500)))
                 None true true in
  st_ret (omap (fun r => _room_entry_to_channel (registry_dict r)) rows).

(** ** Publishing *)

(** [set_room_is_public] (storage/databases/main/room.py): StoreError for an unknown room. *)
Definition set_room_is_public (room : string) (is_public : bool) : DbM unit :=
  let! known := st_read (fun db => dmem room (rooms_is_public db)) in
  if known : bool then st_modify (set_rooms (dset room is_public))
  else st_raise (SynapseError 404 "No row found (%s)" "M_UNKNOWN").

Definition unpublish_channel (room : string) : DbM unit :=
  st_modify (set_published (delete_where (in_room room))) ;;!
  set_room_is_public room false.

(** [try: ... except StoreError: pass] around a call that raises nothing else. *)
Definition ignore_error (c : DbM unit) : DbM unit := fun db => (Ok tt, snd (c db)).

Definition existing_category (room : string) (db : SetkaDb) : option string :=
  match fetchone (in_room room) (setka_published_channels db) with
  | Some r => if str_truthy (c_category_id r) then c_category_id r else None
  | None => None
  end.

(** The category a public channel is filed under. *)
Definition resolve_category (room : string) (category_id : option string) : DbM (option string) :=
  _ensure_tables ;;!
  let! existing := st_read (existing_category room) in
  if str_truthy category_id then
    let! id := validate_category_id category_id in st_ret (Some id)
  else match existing with
       | Some id => st_ret (Some id)
       | None => st_raise (SynapseError 400 "category_id is required" "M_MISSING_PARAM")
       end.

Definition join_rule_of (state : StateMap event) : string :=
  match dget (EventTypes.JoinRules, "") state with
  | Some e => py_str (py_or (oget (content e) "join_rule" JNull) (JStr ""))
  | None => ""
  end.

(** The record made for analytics afterwards is left out: its errors are swallowed. *)
Definition ensure_channel_published (room : string) (category_id : option string) (now_ms : Z)
    : DbM bool :=
  match get_current_state room with
  | Err _ => st_ret false
  | Ok state =>
      if negb (_is_setka_channel_state state) then st_ret false
      else
        let join_rule := join_rule_of state in
        if negb (bool_decide (join_rule ∈ ["public"; "knock"; "knock_restricted"])) then
          unpublish_channel room ;;! st_ret false
        else
          let! resolved_category_id :=
            (if String.eqb join_rule "public" then resolve_category room category_id
             else st_ret None) in
          _upsert_published_channel room (_parse_channel_tag (_topic_from_state state))
            resolved_category_id now_ms (is_Some_b resolved_category_id) ;;!
          ignore_error (set_room_is_public room true) ;;!
          st_ret true
  end.

(** ** Hiding and rebuilding *)

Definition set_channel_hidden (room : string) (hide : bool) : DbM unit :=
  let! updated := st_read (fun db => row_exists (in_room room) (setka_published_channels db)) in
  st_modify (set_published (update_where (in_room room)
    (fun r => {| c_room_id := c_room_id r; c_published_at := c_published_at r; c_tag := c_tag r;
                 c_hidden := if hide then 1 else 0; c_category_id := c_category_id r;
                 c_feed_enabled := c_feed_enabled r |}))) ;;!
  if updated : bool then st_ret tt
  else st_raise (SynapseError 404 "Channel not in registry" "M_NOT_FOUND").

(** One valid room of the rebuild. *)
Definition rebuild_channel (now_ms : Z) (rows : list PublishedChannel) (room : string * string)
    : list PublishedChannel :=
  let tag := _parse_channel_tag room.2 in
  if row_exists (in_room room.1) rows then
    update_where (in_room room.1)
      (fun r => {| c_room_id := c_room_id r; c_published_at := c_published_at r; c_tag := tag;
                   c_hidden := c_hidden r; c_category_id := c_category_id r;
                   c_feed_enabled := c_feed_enabled r |}) rows
  else rows ++ [{| c_room_id := room.1; c_published_at := now_ms; c_tag := tag; c_hidden := 0;
                   c_category_id := None; c_feed_enabled := 1 |}].

(** The rooms of the server that are channels with a public join rule; [rooms] are the rooms
    of the statistics tables. *)
Definition scan_rooms (rooms : list string) : list (string * string) :=
  omap (fun room =>
    match room_stats_state room, room_stats_current room with
    | Some s, Some _ => if has_channel_stats s then Some (room, default "" (rs_topic s)) else None
    | _, _ => None
    end) rooms.

Definition rebuild_registry (rooms : list string) (now_ms : Z) : DbM (nat * nat * nat) :=
  let valid_rooms := scan_rooms rooms in
  let valid_ids := remove_dups (map fst valid_rooms) in
  st_modify (set_published (fun rows => fold_left (rebuild_channel now_ms) valid_rooms rows)) ;;!
  let stale := fun r => bool_decide (c_room_id r ∉ valid_ids) in
  let! removed := st_read (fun db => List.length (List.filter stale (setka_published_channels db))) in
  st_modify (set_published (delete_where stale)) ;;!
  st_ret (List.length valid_rooms, removed, List.length valid_ids).
End registry.
