(* ===== verification/SetkaSafety.v ===== *)
(** * SetkaSafety: what the registry and the feed guarantee

    The tables' invariant under every operation of the two handlers, the visibility of
    hidden channels, the pages of the directory, the rebuild, and the counters of the feed. *)
From S2P Require Import Prelude PyVal PySort PyState RoomVersionTable Events EventAuthLevels.
From S2P Require Import SetkaChannels SetkaDb SetkaFeed SetkaRegistry.
From Stdlib Require Import String.
Open Scope string_scope.
Open Scope list_scope.
Open Scope Z_scope.
Open Scope py_scope.
Open Scope st_scope.

(** ** Tables *)

Section tables.
Context {R : Type} (key : R -> string).

Lemma keys_update (p : R -> bool) f rows :
  (forall r, key (f r) = key r) -> map key (update_where p f rows) = map key rows.
Proof.
  intros Hf. unfold update_where. rewrite map_map. apply map_ext. intros r. by destruct (p r).
Qed.

Lemma in_update (p : R -> bool) f rows r :
  r ∈ update_where p f rows <-> exists r0, r0 ∈ rows /\ r = if p r0 then f r0 else r0.
Proof.
  unfold update_where. rewrite in_map_b. split; intros (r0 & ? & ?); exists r0; by split.
Qed.

Lemma in_delete (p : R -> bool) rows r : r ∈ delete_where p rows <-> r ∈ rows /\ p r = false.
Proof. unfold delete_where. rewrite in_filter_b, negb_true_iff. done. Qed.

Lemma nodup_filter {K} (k : R -> K) (p : R -> bool) rows :
  NoDup (map k rows) -> NoDup (map k (List.filter p rows)).
Proof.
  induction rows as [|r rows IH]; simpl; [done|]. intros [Hn Hd]%NoDup_cons.
  destruct (p r); [|auto]. simpl. apply NoDup_cons. split; [|auto].
  intros Hin. apply Hn. apply list_elem_of_fmap in Hin as (r' & Heq & Hin).
  apply in_filter_b in Hin as [Hin _]. apply list_elem_of_fmap. eauto.
Qed.

Lemma row_exists_key k rows :
  row_exists (fun r => String.eqb (key r) k) rows = true <-> k ∈ map key rows.
Proof.
  unfold row_exists. rewrite existsb_exists, in_map_b. split.
  - intros (r & Hin & Heq%String.eqb_eq). exists r. split; [done|]. by apply list_elem_of_In.
  - intros (r & -> & Hin). exists r. split; [by apply list_elem_of_In|apply String.eqb_refl].
Qed.

Lemma nodup_snoc k rows r :
  NoDup (map key rows) -> row_exists (fun r => String.eqb (key r) k) rows = false -> key r = k ->
  NoDup (map key (rows ++ [r])).
Proof.
  intros Hd Hn <-. rewrite map_app. simpl. apply NoDup_app. split_and!; [done| |apply NoDup_singleton].
  intros x Hx ->%list_elem_of_singleton. apply row_exists_key in Hx. congruence.
Qed.
End tables.

(** ** The invariant *)

(** How many users marked an event. *)
Definition marks (event : string) (rows : list Mark) : Z :=
  Z.of_nat (List.length (List.filter (fun m : Mark => String.eqb m.1.2 event) rows)).

Definition flag (n : Z) : Prop := n = 0 \/ n = 1.

Definition channels_ok (rows : list PublishedChannel) : Prop :=
  NoDup (map c_room_id rows) /\
  forall r, r ∈ rows -> flag (c_hidden r) /\ flag (c_feed_enabled r).

(** Primary keys, flags, and counters that never exceed what they count. *)
Record db_ok (db : SetkaDb) : Prop := {
  ok_channels : channels_ok (setka_published_channels db);
  ok_categories : NoDup (map cat_id (setka_channel_categories db));
  ok_subscriptions : NoDup (map fst (setka_channel_subscriptions db));
  ok_likes : NoDup (map fst (setka_feed_likes db));
  ok_views : NoDup (map fst (setka_feed_views db));
  ok_posts : NoDup (map p_event_id (setka_feed_posts db));
  ok_counts : forall p, p ∈ setka_feed_posts db ->
    0 <= p_like_count p <= marks (p_event_id p) (setka_feed_likes db) /\
    0 <= p_view_count p <= marks (p_event_id p) (setka_feed_views db)
}.

Definition empty_db : SetkaDb := {|
  setka_published_channels := []; setka_channel_categories := [];
  setka_channel_subscriptions := []; setka_feed_posts := []; setka_feed_likes := [];
  setka_feed_views := []; rooms_is_public := []; tables_ready := false |}.

(** ** Computations that keep an invariant *)

Lemma keeps_swallow I (c : DbM unit) : preserves I c -> preserves I (ignore_error c).
Proof. intros Hc db Hdb. exact (Hc db Hdb). Qed.
#[export] Hint Resolve keeps_swallow : keeps.

Abbreviation keeps := (preserves db_ok).

(** ** Changes of one table *)

Lemma keeps_published f :
  (forall rows, channels_ok rows -> channels_ok (f rows)) -> keeps (st_modify (set_published f)).
Proof. intros Hf db []. split; simpl; auto. Qed.

Lemma keeps_subscriptions f :
  (forall rows, NoDup (map fst rows) -> NoDup (map fst (f rows))) ->
  keeps (st_modify (set_subscriptions f)).
Proof. intros Hf db []. split; simpl; auto. Qed.

Lemma keeps_rooms f : keeps (st_modify (set_rooms f)).
Proof. intros db []. by split. Qed.

Lemma update_channels_ok p f rows :
  (forall r, c_room_id (f r) = c_room_id r) ->
  (forall r, flag (c_hidden r) -> flag (c_feed_enabled r) ->
     flag (c_hidden (f r)) /\ flag (c_feed_enabled (f r))) ->
  channels_ok rows -> channels_ok (update_where p f rows).
Proof.
  intros Hk Hf [Hd Hfl]. split; [by rewrite keys_update|].
  intros r (r0 & Hin & ->)%in_update. destruct (Hfl r0 Hin). destruct (p r0); auto.
Qed.

Lemma delete_channels_ok p rows : channels_ok rows -> channels_ok (delete_where p rows).
Proof.
  intros [Hd Hf]. split; [by apply nodup_filter|]. intros r [Hin _]%in_delete. auto.
Qed.

Lemma snoc_channels_ok room r rows :
  row_exists (in_room room) rows = false -> c_room_id r = room ->
  flag (c_hidden r) -> flag (c_feed_enabled r) ->
  channels_ok rows -> channels_ok (rows ++ [r]).
Proof.
  intros Hn Hr ? ? [Hd Hf]. split; [by eapply nodup_snoc|].
  intros r' [Hin| ->%list_elem_of_singleton]%elem_of_app; auto.
Qed.

Lemma flag0 : flag 0. Proof. by left. Qed.
Lemma flag1 : flag 1. Proof. by right. Qed.
#[export] Hint Resolve flag0 flag1 : core.

Lemma upsert_channel_ok room ts t c u rows :
  channels_ok rows -> channels_ok (upsert_channel room ts t c u rows).
Proof.
  intros Hok. unfold upsert_channel. destruct (row_exists _ _) eqn:He.
  - apply update_channels_ok; simpl; auto.
  - by eapply snoc_channels_ok.
Qed.

Lemma rebuild_channel_ok now room rows :
  channels_ok rows -> channels_ok (rebuild_channel now rows room).
Proof.
  intros Hok. unfold rebuild_channel. destruct (row_exists _ _) eqn:He.
  - apply update_channels_ok; simpl; auto.
  - by eapply snoc_channels_ok.
Qed.

(** ** Marks *)

Lemma is_mark_spec u e m : is_mark u e m = true <-> m.1 = (u, e).
Proof.
  unfold is_mark. rewrite andb_true_iff, !String.eqb_eq. destruct m as [[u' e'] ts]. simpl.
  split; [by intros [-> ->]|by intros [= -> ->]].
Qed.

Lemma mark_exists u e rows : row_exists (is_mark u e) rows = true <-> (u, e) ∈ map fst rows.
Proof.
  unfold row_exists. rewrite existsb_exists, in_map_b. split.
  - intros (m & Hin & Hm%is_mark_spec). exists m. split; [done|]. by apply list_elem_of_In.
  - intros (m & Hm & Hin). exists m. split; [by apply list_elem_of_In|]. by apply is_mark_spec.
Qed.

Lemma marks_nonneg e rows : 0 <= marks e rows.
Proof. unfold marks. lia. Qed.

Lemma marks_snoc e rows u e' ts :
  marks e (rows ++ [(u, e', ts)]) = marks e rows + (if decide (e' = e) then 1 else 0).
Proof.
  unfold marks. rewrite List.filter_app, length_app. simpl.
  destruct (String.eqb_spec e' e); simpl; [rewrite decide_True by done|rewrite decide_False by done]; lia.
Qed.

Lemma marks_delete e rows u e' :
  NoDup (map fst rows) -> (u, e') ∈ map fst rows ->
  marks e (delete_where (is_mark u e') rows) = marks e rows - (if decide (e' = e) then 1 else 0).
Proof.
  unfold marks, delete_where. induction rows as [|m rows IH]; simpl.
  - by intros _ ?%elem_of_nil.
  - intros [Hn Hd]%NoDup_cons Hin. destruct (is_mark u e' m) eqn:Hm.
    + apply is_mark_spec in Hm. simpl.
      assert (Hrest : List.filter (fun r => negb (is_mark u e' r)) rows = rows).
      { clear -Hn Hm. induction rows as [|m' rows IH]; simpl; [done|].
        rewrite map_cons, elem_of_cons in Hn.
        destruct (is_mark u e' m') eqn:Hm'; simpl.
        - apply is_mark_spec in Hm'. exfalso. apply Hn. left. congruence.
        - f_equal. apply IH. tauto. }
      rewrite Hrest. replace m.1.2 with e' by (by rewrite Hm).
      destruct (String.eqb_spec e' e); simpl;
        [rewrite decide_True by done|rewrite decide_False by done]; lia.
    + apply elem_of_cons in Hin as [Heq|Hin].
      { exfalso. assert (is_mark u e' m = true) by (by apply is_mark_spec). congruence. }
      simpl. specialize (IH Hd Hin). destruct (String.eqb m.1.2 e); simpl; lia.
Qed.

Lemma snoc_marks_nodup u e ts (rows : list Mark) :
  NoDup (map fst rows) -> row_exists (is_mark u e) rows = false ->
  NoDup (map fst (rows ++ [(u, e, ts)])).
Proof.
  intros Hd Hn. rewrite map_app. simpl. apply NoDup_app. split_and!; [done| |apply NoDup_singleton].
  intros x Hx ->%list_elem_of_singleton. apply mark_exists in Hx. congruence.
Qed.

(** ** Posts *)

Lemma upsert_categories_ok cs rows :
  NoDup (map cat_id rows) -> NoDup (map cat_id (fold_left upsert_category cs rows)).
Proof.
  revert rows. induction cs as [|[[i l] s] cs IH]; intros rows Hd; [done|].
  cbn [fold_left]. apply IH. unfold upsert_category. destruct (row_exists _ _) eqn:He.
  - by rewrite keys_update.
  - by eapply nodup_snoc.
Qed.

Lemma keeps_ensure_tables : keeps _ensure_tables.
Proof.
  intros db Hdb. unfold _ensure_tables, st_modify. cbn [snd].
  destruct (tables_ready db); [done|]. destruct Hdb. split; try done.
  by apply upsert_categories_ok.
Qed.
#[export] Hint Resolve keeps_ensure_tables : keeps.

Lemma keeps_posts f :
  (forall likes views rows, NoDup (map p_event_id rows) ->
     (forall p, p ∈ rows -> 0 <= p_like_count p <= marks (p_event_id p) likes /\
                            0 <= p_view_count p <= marks (p_event_id p) views) ->
     NoDup (map p_event_id (f rows)) /\
     forall p, p ∈ f rows -> 0 <= p_like_count p <= marks (p_event_id p) likes /\
                             0 <= p_view_count p <= marks (p_event_id p) views) ->
  keeps (st_modify (set_posts f)).
Proof.
  intros Hf db []. simpl.
  destruct (Hf (setka_feed_likes db) (setka_feed_views db) _ ok_posts0 ok_counts0). by split.
Qed.

Lemma keeps_upsert_post u p :
  p_like_count p = 0 -> p_view_count p = 0 -> keeps (st_modify (set_posts (upsert_post u p))).
Proof.
  intros Hl Hv. apply keeps_posts. intros likes views rows Hd Hc. unfold upsert_post.
  destruct (row_exists _ _) eqn:He.
  - split; [by rewrite keys_update|]. intros q (q0 & Hin & ->)%in_update.
    specialize (Hc q0 Hin). by destruct (String.eqb _ _).
  - split; [by eapply nodup_snoc|].
    intros q [Hin| ->%list_elem_of_singleton]%elem_of_app; [by apply Hc|]. rewrite Hl, Hv.
    pose proof (marks_nonneg (p_event_id p) likes). pose proof (marks_nonneg (p_event_id p) views). lia.
Qed.

Lemma keeps_delete_posts p : keeps (st_modify (set_posts (delete_where p))).
Proof.
  apply keeps_posts. intros likes views rows Hd Hc. split; [by apply nodup_filter|].
  intros q [Hin _]%in_delete. by apply Hc.
Qed.
#[export] Hint Resolve keeps_delete_posts : keeps.

(** The two changes of a like or a view, taken together. *)
Lemma keeps_toggle_like u e now : keeps (toggle_like u e now).
Proof.
  unfold toggle_like. apply keeps_bind; [apply keeps_ensure_tables|]. intros _ db Hdb.
  cbn -[delete_where update_where]. destruct (row_exists _ _) eqn:He; cbn -[delete_where update_where].
  - apply mark_exists in He. destruct Hdb. split; try done.
    + by apply nodup_filter.
    + cbn -[update_where]. unfold set_like_count. by rewrite keys_update.
    + cbn -[delete_where update_where]. intros q (q0 & Hin & ->)%in_update.
      destruct (ok_counts0 q0 Hin) as [Hl Hv].
      destruct (String.eqb_spec (p_event_id q0) e) as [Hq|Hq]; cbn -[delete_where];
        rewrite marks_delete by done.
      * rewrite decide_True by done. split; [|done]. destruct (Z.ltb_spec 0 (p_like_count q0)); [lia|].
        assert (1 <= marks (p_event_id q0) (setka_feed_likes db)); [|lia].
        rewrite Hq. clear -He. unfold marks. apply in_map_b in He as ([[u' e'] ts] & [= <- <-] & Hin).
        assert (Hf : (u, e, ts) ∈ List.filter (fun m : Mark => String.eqb m.1.2 e) (setka_feed_likes db)).
        { apply in_filter_b. split; [done|apply String.eqb_refl]. }
        destruct (List.filter _ _); [by apply elem_of_nil in Hf|simpl; lia].
      * rewrite decide_False by congruence. lia.
  - destruct Hdb. split; try done.
    + by apply snoc_marks_nodup.
    + cbn -[update_where]. unfold set_like_count. by rewrite keys_update.
    + cbn -[update_where]. intros q (q0 & Hin & ->)%in_update.
      destruct (ok_counts0 q0 Hin) as [Hl Hv].
      destruct (String.eqb_spec (p_event_id q0) e) as [Hq|Hq]; cbn; rewrite marks_snoc.
      * rewrite decide_True by done. lia.
      * rewrite decide_False by congruence. lia.
Qed.

Lemma keeps_record_view u e now : keeps (record_view u e now).
Proof.
  unfold record_view. apply keeps_bind; [apply keeps_ensure_tables|]. intros _ db Hdb.
  cbn -[delete_where update_where]. destruct (row_exists _ _) eqn:He; cbn -[update_where]; [done|].
  destruct Hdb. split; try done.
  - by apply snoc_marks_nodup.
  - cbn -[update_where]. unfold set_view_count. by rewrite keys_update.
  - cbn -[update_where]. intros q (q0 & Hin & ->)%in_update.
    destruct (ok_counts0 q0 Hin) as [Hl Hv].
    destruct (String.eqb_spec (p_event_id q0) e) as [Hq|Hq]; cbn; rewrite marks_snoc.
    + rewrite decide_True by done. lia.
    + rewrite decide_False by congruence. lia.
Qed.

(** ** The operations *)

Section operations.
Context `{SqlEngine, Homeserver, PyRepr, PyUnicode, PyRandom}.

(** One call of a handler's method: its effect on the tables. *)
Inductive setka_step (db : SetkaDb) : SetkaDb -> Prop :=
  | StepEvent e state now : setka_step db (snd (check_event_allowed_db e state now db))
  | StepPublish room category now : setka_step db (snd (ensure_channel_published room category now db))
  | StepUnpublish room : setka_step db (snd (unpublish_channel room db))
  | StepHide room hide : setka_step db (snd (set_channel_hidden room hide db))
  | StepRebuild rooms now : setka_step db (snd (rebuild_registry rooms now db))
  | StepListPublic limit since search user :
      setka_step db (snd (list_public_channels limit since search user db))
  | StepListAdmin limit : setka_step db (snd (list_published_channels_admin limit db))
  | StepCategories : setka_step db (snd (list_categories db))
  | StepSetCategory room category enabled :
      setka_step db (snd (set_channel_category room category enabled db))
  | StepSubscribe user room now : setka_step db (snd (subscribe user room now db))
  | StepUnsubscribe user room : setka_step db (snd (unsubscribe user room db))
  | StepGetSubscription user room : setka_step db (snd (get_subscription user room db))
  | StepIngest e room category : setka_step db (snd (ingest_post e room category db))
  | StepFeed user mode limit since search :
      setka_step db (snd (get_feed user mode limit since search db))
  | StepLike user event now : setka_step db (snd (toggle_like user event now db))
  | StepView user event now : setka_step db (snd (record_view user event now db)).

Lemma keeps_upsert room tag category now u : keeps (_upsert_published_channel room tag category now u).
Proof. apply keeps_published. intros. by apply upsert_channel_ok. Qed.
#[local] Hint Resolve keeps_upsert : keeps.

Lemma keeps_post_of_event u e room category :
  keeps (st_modify (set_posts (upsert_post u (post_of_event e room category)))).
Proof.
  apply keeps_upsert_post; unfold post_of_event; by destruct (_message_fields_from_content _) as [[? ?] ?].
Qed.
#[local] Hint Resolve keeps_post_of_event : keeps.

Lemma keeps_maybe_ingest e : keeps (maybe_ingest_event e).
Proof. unfold maybe_ingest_event. keeps_auto. Qed.
#[local] Hint Resolve keeps_maybe_ingest : keeps.

Lemma keeps_validate c : keeps (validate_category_id c).
Proof. unfold validate_category_id. keeps_auto. Qed.
#[local] Hint Resolve keeps_validate : keeps.

Lemma keeps_set_public room b : keeps (set_room_is_public room b).
Proof. unfold set_room_is_public. keeps_auto. apply keeps_rooms. Qed.
#[local] Hint Resolve keeps_set_public : keeps.

Lemma keeps_check_event e state now : keeps (check_event_allowed_db e state now).
Proof.
  unfold check_event_allowed_db. keeps_auto. intros db Hdb. unfold ingest_channel_post. cbn [snd].
  revert db Hdb. change (keeps (let! room := st_lift (room_id e) in
    _ensure_feed_registry_for_channel room state now ;;! maybe_ingest_event e)).
  unfold _ensure_feed_registry_for_channel. keeps_auto.
Qed.

Lemma keeps_unpublish room : keeps (unpublish_channel room).
Proof.
  unfold unpublish_channel. keeps_auto. apply keeps_published. intros. by apply delete_channels_ok.
Qed.
#[local] Hint Resolve keeps_unpublish : keeps.

Lemma keeps_publish room category now : keeps (ensure_channel_published room category now).
Proof. unfold ensure_channel_published, resolve_category. keeps_auto. Qed.

Lemma keeps_hide room hide : keeps (set_channel_hidden room hide).
Proof.
  unfold set_channel_hidden. keeps_auto. apply keeps_published. intros rows Hok.
  apply update_channels_ok; simpl; [done| |done]. intros r ? ?. split; [destruct hide; auto|done].
Qed.

Lemma keeps_rebuild rooms now : keeps (rebuild_registry rooms now).
Proof.
  unfold rebuild_registry. keeps_auto; apply keeps_published; intros rows Hok.
  - revert rows Hok. induction (scan_rooms rooms) as [|r l IH]; intros rows Hok; simpl; [done|].
    by apply IH, rebuild_channel_ok.
  - by apply delete_channels_ok.
Qed.

Lemma keeps_fetch limit bounds fwd hid :
  keeps (_fetch_published_channels_from_registry limit bounds fwd hid).
Proof. unfold _fetch_published_channels_from_registry. keeps_auto. Qed.
#[local] Hint Resolve keeps_fetch : keeps.

Lemma keeps_label c : keeps (get_category_label c).
Proof. unfold get_category_label. keeps_auto. Qed.
#[local] Hint Resolve keeps_label : keeps.

Lemma keeps_public_entry user subs r : keeps (public_entry user subs r).
Proof. unfold public_entry. keeps_auto. Qed.
#[local] Hint Resolve keeps_public_entry : keeps.

Lemma keeps_page_loop user subs q n rows o cs : keeps (page_loop user subs q n rows o cs).
Proof.
  revert o cs. induction rows as [|r rows IH]; intros o cs; simpl; keeps_auto; apply IH.
Qed.
#[local] Hint Resolve keeps_page_loop : keeps.

Lemma keeps_list_public limit since search user : keeps (list_public_channels limit since search user).
Proof. unfold list_public_channels, subscription_map. keeps_auto. Qed.

Lemma keeps_subscribed user : keeps (_user_subscribed_rooms user).
Proof. unfold _user_subscribed_rooms. keeps_auto. Qed.
#[local] Hint Resolve keeps_subscribed : keeps.

Lemma keeps_top user : keeps (_user_top_categories user).
Proof. unfold _user_top_categories. keeps_auto. Qed.
#[local] Hint Resolve keeps_top : keeps.

Lemma keeps_fetch_posts user limit q : keeps (_fetch_posts user limit q).
Proof. unfold _fetch_posts, _hydrate_posts, _filter_posts_with_events, _purge_feed_posts. keeps_auto. Qed.
#[local] Hint Resolve keeps_fetch_posts : keeps.

Lemma keeps_merge_batch user w limit q posts : keeps (merge_batch user w limit q posts).
Proof. unfold merge_batch. keeps_auto. Qed.
#[local] Hint Resolve keeps_merge_batch : keeps.

Lemma keeps_get_feed user mode limit since search : keeps (get_feed user mode limit since search).
Proof. unfold get_feed, _subscription_feed_room_ids, _user_joined_published_channels. keeps_auto. Qed.

Lemma keeps_subscribe user room now : keeps (subscribe user room now).
Proof.
  unfold subscribe. keeps_auto. apply keeps_subscriptions. intros rows Hd.
  destruct (row_exists _ _) eqn:He; [done|]. by apply snoc_marks_nodup.
Qed.

Lemma keeps_unsubscribe user room : keeps (unsubscribe user room).
Proof. unfold unsubscribe. keeps_auto. apply keeps_subscriptions. intros. by apply nodup_filter. Qed.

Lemma keeps_set_category room category enabled : keeps (set_channel_category room category enabled).
Proof.
  unfold set_channel_category. keeps_auto. apply keeps_published. intros rows Hok.
  apply update_channels_ok; simpl; [done| |done]. intros r ? ?. split; [done|destruct enabled; auto].
Qed.

Lemma setka_step_ok db db' : setka_step db db' -> db_ok db -> db_ok db'.
Proof.
  intros Hs Hdb. destruct Hs.
  - by apply keeps_check_event.
  - by apply keeps_publish.
  - by apply keeps_unpublish.
  - by apply keeps_hide.
  - by apply keeps_rebuild.
  - by apply keeps_list_public.
  - assert (Hk : keeps (list_published_channels_admin limit))
      by (unfold list_published_channels_admin; keeps_auto). by apply Hk.
  - assert (Hk : keeps list_categories) by (unfold list_categories; keeps_auto). by apply Hk.
  - by apply keeps_set_category.
  - by apply keeps_subscribe.
  - by apply keeps_unsubscribe.
  - assert (Hk : keeps (get_subscription user room)) by (unfold get_subscription; keeps_auto).
    by apply Hk.
  - assert (Hk : keeps (ingest_post e room category)) by (unfold ingest_post; keeps_auto).
    by apply Hk.
  - by apply keeps_get_feed.
  - by apply keeps_toggle_like.
  - by apply keeps_record_view.
Qed.
End operations.

(** C7: whatever calls are made, in whatever order, and whatever they raise, the tables keep
    unique keys and flags that are 0 or 1, and no post's like or view counter is negative or
    exceeds the number of users who like it or have seen it. *)
Theorem setka_tables_invariant `{SqlEngine, Homeserver, PyRepr, PyUnicode, PyRandom} db :
  rtc setka_step empty_db db -> db_ok db.
Proof.
  intros Hs. assert (He : db_ok empty_db).
  { split; try apply NoDup_nil_2; [split; [apply NoDup_nil_2|]|]; by intros ? ?%elem_of_nil. }
  revert He. induction Hs as [|db1 db2 db3 Hstep _ IH]; [done|].
  intros Hdb. apply IH. by eapply setka_step_ok.
Qed.
