(* ===== verification/SetkaListing.v ===== *)
(** * SetkaListing: which channels and posts are shown

    Hidden channels stay hidden, the rebuild of the registry, the pages of the public
    directory, and the rows of the feed. *)
From S2P Require Import Prelude PyVal PySort PyState RoomVersionTable Events EventAuthLevels.
From S2P Require Import SetkaChannels SetkaDb SetkaFeed SetkaRegistry SetkaSafety.
From Stdlib Require Import String.
Open Scope string_scope.
Open Scope list_scope.
Open Scope Z_scope.
Open Scope py_scope.
Open Scope st_scope.

(** ** Hidden channels *)

Definition is_registered (room : string) (db : SetkaDb) : Prop :=
  room ∈ map c_room_id (setka_published_channels db).

(** The registry has the room, and every row of it is hidden. *)
Definition hidden_in (room : string) (db : SetkaDb) : Prop :=
  is_registered room db /\
  forall r, r ∈ setka_published_channels db -> c_room_id r = room -> c_hidden r = 1.

Section frame.
Context `{SqlEngine, Homeserver, PyRepr, PyUnicode, PyRandom}.
Context (room : string).

(** Changes of the other tables. *)
Lemma hidden_same (f : SetkaDb -> SetkaDb) :
  (forall db, setka_published_channels (f db) = setka_published_channels db) ->
  preserves (hidden_in room) (st_modify f).
Proof. intros Hf db. unfold hidden_in, is_registered. simpl. by rewrite Hf. Qed.

Lemma hidden_posts f : preserves (hidden_in room) (st_modify (set_posts f)).
Proof. by apply hidden_same. Qed.
Lemma hidden_likes f : preserves (hidden_in room) (st_modify (set_likes f)).
Proof. by apply hidden_same. Qed.
Lemma hidden_views f : preserves (hidden_in room) (st_modify (set_views f)).
Proof. by apply hidden_same. Qed.
Lemma hidden_subscriptions f : preserves (hidden_in room) (st_modify (set_subscriptions f)).
Proof. by apply hidden_same. Qed.
Lemma hidden_rooms f : preserves (hidden_in room) (st_modify (set_rooms f)).
Proof. by apply hidden_same. Qed.
Lemma hidden_tables : preserves (hidden_in room) _ensure_tables.
Proof. apply hidden_same. intros db. by destruct (tables_ready db). Qed.
#[local] Hint Resolve hidden_posts hidden_likes hidden_views hidden_subscriptions hidden_rooms
  hidden_tables : keeps.

(** Changes of the registry that leave the flag alone. *)
Lemma hidden_update p f :
  (forall r, c_room_id (f r) = c_room_id r) -> (forall r, c_hidden (f r) = c_hidden r) ->
  preserves (hidden_in room) (st_modify (set_published (update_where p f))).
Proof.
  intros Hk Hh db [Hr Hall]. unfold hidden_in, is_registered. cbn -[update_where].
  split; [by rewrite keys_update|]. intros r (r0 & Hin & ->)%in_update.
  destruct (p r0); [rewrite Hh, Hk|]; intros Hroom; by apply Hall.
Qed.

Lemma hidden_upsert room' tag category now u :
  preserves (hidden_in room) (_upsert_published_channel room' tag category now u).
Proof.
  intros db [Hr Hall]. unfold _upsert_published_channel, upsert_channel.
  cbn -[update_where row_exists]. unfold hidden_in, is_registered.
  cbn -[update_where row_exists]. destruct (row_exists _ _) eqn:He.
  - split; [by rewrite keys_update|]. intros r (r0 & Hin & ->)%in_update.
    destruct (in_room room' r0); simpl; intros Hroom; by apply Hall.
  - split.
    + rewrite map_app. apply elem_of_app. by left.
    + intros r [Hin| ->%list_elem_of_singleton]%elem_of_app Hroom; [by apply Hall|].
      simpl in Hroom. subst room'. unfold in_room in He.
      exfalso. apply (row_exists_key c_room_id) in Hr. congruence.
Qed.
#[local] Hint Resolve hidden_upsert : keeps.

Lemma hidden_ingest e : preserves (hidden_in room) (maybe_ingest_event e).
Proof. unfold maybe_ingest_event. keeps_auto. Qed.
#[local] Hint Resolve hidden_ingest : keeps.

Lemma hidden_check_event e state now : preserves (hidden_in room) (check_event_allowed_db e state now).
Proof.
  unfold check_event_allowed_db. keeps_auto. intros db Hdb. unfold ingest_channel_post. cbn [snd].
  revert db Hdb. change (preserves (hidden_in room) (let! room := st_lift (room_id e) in
    _ensure_feed_registry_for_channel room state now ;;! maybe_ingest_event e)).
  unfold _ensure_feed_registry_for_channel. keeps_auto.
Qed.

Lemma hidden_validate c : preserves (hidden_in room) (validate_category_id c).
Proof. unfold validate_category_id. keeps_auto. Qed.
#[local] Hint Resolve hidden_validate : keeps.

Lemma hidden_set_public room' b : preserves (hidden_in room) (set_room_is_public room' b).
Proof. unfold set_room_is_public. keeps_auto. Qed.
#[local] Hint Resolve hidden_set_public : keeps.

Lemma hidden_set_category room' category enabled :
  preserves (hidden_in room) (set_channel_category room' category enabled).
Proof. unfold set_channel_category. keeps_auto. by apply hidden_update. Qed.

Lemma hidden_label c : preserves (hidden_in room) (get_category_label c).
Proof. unfold get_category_label. keeps_auto. Qed.
#[local] Hint Resolve hidden_label : keeps.

Lemma hidden_page_loop user subs q n rows o cs :
  preserves (hidden_in room) (page_loop user subs q n rows o cs).
Proof.
  revert o cs. induction rows as [|r rows IH]; intros o cs; simpl; [keeps_auto|].
  apply keeps_bind; [unfold public_entry; keeps_auto|]. keeps_auto; apply IH.
Qed.
#[local] Hint Resolve hidden_page_loop : keeps.

Lemma hidden_fetch_posts user limit q : preserves (hidden_in room) (_fetch_posts user limit q).
Proof. unfold _fetch_posts, _hydrate_posts, _filter_posts_with_events, _purge_feed_posts. keeps_auto. Qed.
#[local] Hint Resolve hidden_fetch_posts : keeps.

Lemma hidden_get_feed user mode limit since search :
  preserves (hidden_in room) (get_feed user mode limit since search).
Proof.
  unfold get_feed, _subscription_feed_room_ids, _user_joined_published_channels,
    _user_top_categories, _user_subscribed_rooms, merge_batch. keeps_auto.
Qed.

(** The rows of the room after the two operations that can delete it. *)
Definition hidden_or_gone (db : SetkaDb) : Prop := hidden_in room db \/ ~ is_registered room db.

Lemma delete_hidden p db : hidden_in room db -> hidden_or_gone (set_published (delete_where p) db).
Proof.
  intros [Hr Hall]. unfold hidden_or_gone, hidden_in, is_registered.
  destruct (decide (room ∈ map c_room_id (setka_published_channels (set_published (delete_where p) db))))
    as [Hin|Hin]; [left|by right].
  split; [done|]. cbn -[delete_where]. intros r [Hin' _]%in_delete. by apply Hall.
Qed.

Lemma unpublish_hidden room' db : hidden_in room db -> hidden_or_gone (snd (unpublish_channel room' db)).
Proof.
  intros Hh. unfold unpublish_channel, set_room_is_public, st_bind, st_modify, st_read, st_raise.
  cbn -[delete_where dmem]. destruct (delete_hidden (in_room room') db Hh) as [Hd|Hd];
    destruct (dmem _ _); [left|left|right|right]; exact Hd.
Qed.

Lemma rebuild_rows_hidden now l rows :
  room ∈ map c_room_id rows ->
  (forall r, r ∈ rows -> c_room_id r = room -> c_hidden r = 1) ->
  room ∈ map c_room_id (fold_left (rebuild_channel now) l rows) /\
  forall r, r ∈ fold_left (rebuild_channel now) l rows -> c_room_id r = room -> c_hidden r = 1.
Proof.
  revert rows. induction l as [|x l IH]; intros rows Hr Hall; [done|]. cbn [fold_left].
  apply IH; unfold rebuild_channel; destruct (row_exists _ _) eqn:He.
  - by rewrite keys_update.
  - rewrite map_app. apply elem_of_app. by left.
  - intros r (r0 & Hin & ->)%in_update. destruct (in_room x.1 r0); simpl; intros Hroom; by apply Hall.
  - intros r [Hin| ->%list_elem_of_singleton]%elem_of_app Hroom; [by apply Hall|]. simpl in Hroom.
    exfalso. apply (row_exists_key c_room_id) in Hr. unfold in_room in He. rewrite Hroom in He. congruence.
Qed.

Lemma rebuild_hidden rooms now db :
  hidden_in room db -> hidden_or_gone (snd (rebuild_registry rooms now db)).
Proof.
  intros [Hr Hall]. unfold rebuild_registry, st_bind, st_modify, st_read, st_ret.
  cbn -[delete_where scan_rooms]. apply delete_hidden.
  exact (rebuild_rows_hidden now (scan_rooms rooms) _ Hr Hall).
Qed.

Lemma step_hidden db db' :
  setka_step db db' -> hidden_in room db ->
  hidden_or_gone db' \/ db' = snd (set_channel_hidden room false db).
Proof.
  intros Hs Hh. destruct Hs.
  - left; left. by apply hidden_check_event.
  - left. unfold ensure_channel_published. destruct (get_current_state room0) as [state|]; [|by left].
    destruct (negb _); [by left|]. destruct (negb _).
    + unfold st_bind at 1. destruct (unpublish_hidden room0 db Hh) as [Hu|Hu];
        destruct (unpublish_channel room0 db) as [[[]|e] db1]; simpl in *; [by left|by left|by right|by right].
    + left. revert db Hh. change (preserves (hidden_in room)
        (let! resolved_category_id := (if String.eqb (join_rule_of state) "public"
           then resolve_category room0 category else st_ret None) in
         _upsert_published_channel room0 (_parse_channel_tag (_topic_from_state state))
            resolved_category_id now (is_Some_b resolved_category_id) ;;!
         ignore_error (set_room_is_public room0 true) ;;! st_ret true)).
      unfold resolve_category. keeps_auto.
  - left. by apply unpublish_hidden.
  - destruct (decide (room0 = room)) as [->|Hne]; [destruct hide; [left; left|by right]|left; left].
    + destruct Hh as [Hr Hall]. unfold set_channel_hidden, st_bind, st_modify, st_read, st_ret, st_raise.
      cbn -[update_where row_exists]. destruct (row_exists _ _);
        (split; [unfold is_registered; cbn -[update_where]; by rewrite keys_update|]);
        cbn -[update_where]; intros r (r0 & Hin & ->)%in_update;
        (destruct (in_room room r0); intros Hroom; [done|by apply Hall]).
    + destruct Hh as [Hr Hall]. unfold set_channel_hidden, st_bind, st_modify, st_read, st_ret, st_raise.
      cbn -[update_where row_exists]. destruct (row_exists _ _);
        (split; [unfold is_registered; cbn -[update_where]; by rewrite keys_update|]);
        cbn -[update_where]; intros r (r0 & Hin & ->)%in_update;
        unfold in_room in *; (destruct (String.eqb_spec (c_room_id r0) room0) as [He|He]; intros Hroom;
          [simpl in Hroom; congruence|by apply Hall]).
  - left. by apply rebuild_hidden.
  - left; left. revert db Hh. change (preserves (hidden_in room) (list_public_channels limit since search user)).
    unfold list_public_channels, subscription_map, _fetch_published_channels_from_registry. keeps_auto.
  - by left; left.
  - left; left. revert db Hh. change (preserves (hidden_in room) list_categories).
    unfold list_categories. keeps_auto.
  - left; left. by apply hidden_set_category.
  - left; left. revert db Hh. change (preserves (hidden_in room) (subscribe user room0 now)).
    unfold subscribe. keeps_auto.
  - left; left. revert db Hh. change (preserves (hidden_in room) (unsubscribe user room0)).
    unfold unsubscribe. keeps_auto.
  - left; left. revert db Hh. change (preserves (hidden_in room) (get_subscription user room0)).
    unfold get_subscription. keeps_auto.
  - left; left. revert db Hh. change (preserves (hidden_in room) (ingest_post e room0 category)).
    unfold ingest_post. keeps_auto.
  - left; left. by apply hidden_get_feed.
  - left; left. revert db Hh. change (preserves (hidden_in room) (toggle_like user event now)).
    unfold toggle_like. keeps_auto.
  - left; left. revert db Hh. change (preserves (hidden_in room) (record_view user event now)).
    unfold record_view. keeps_auto.
Qed.
End frame.

(** C8: a hidden channel stays hidden: whatever call is made, its room is still hidden
    afterwards, or no longer in the registry, or the call was the one that shows it. *)
Theorem hidden_until_shown `{SqlEngine, Homeserver, PyRepr, PyUnicode, PyRandom} room db db' :
  setka_step db db' -> hidden_in room db ->
  hidden_in room db' \/ ~ is_registered room db' \/ db' = snd (set_channel_hidden room false db).
Proof.
  intros Hs Hh. destruct (step_hidden room db db' Hs Hh) as [[?|?]|?]; auto.
Qed.

(** Hiding is lost when a channel leaves the registry: a hidden room that is unpublished
    and registered again, by a post or by publishing it, is visible. *)
Theorem republishing_unhides `{SqlEngine, Homeserver, PyRepr, PyUnicode} room tag category now u db :
  hidden_in room db ->
  let db1 := snd (unpublish_channel room db) in
  let db2 := snd (_upsert_published_channel room tag category now u db1) in
  exists r, r ∈ setka_published_channels db2 /\ c_room_id r = room /\ c_hidden r = 0.
Proof.
  intros _ db1 db2.
  assert (Hdb1 : setka_published_channels db1 =
                 delete_where (in_room room) (setka_published_channels db)).
  { subst db1. unfold unpublish_channel, set_room_is_public, st_bind, st_modify, st_read, st_raise.
    cbn -[delete_where dmem]. by destruct (dmem _ _). }
  assert (Hnone : row_exists (in_room room) (setka_published_channels db1) = false).
  { rewrite Hdb1. unfold row_exists. apply not_true_iff_false.
    intros (r & Hin & Hr)%existsb_exists. apply list_elem_of_In, in_delete in Hin as [_ Hf]. congruence. }
  subst db2. unfold _upsert_published_channel, upsert_channel, st_modify. cbn -[row_exists].
  rewrite Hnone. eexists. split; [apply elem_of_app; right; by left|]. by split.
Qed.

(** ** The order of the directory *)

Section order.
Context {A K : Type} `{PyOrd K} (key : A -> K).

Lemma sorted_filter_b (p : A -> bool) l :
  StronglySorted (le_by key) l -> StronglySorted (le_by key) (List.filter p l).
Proof.
  induction 1 as [|x l Hs IH Hf]; simpl; [constructor|]. destruct (p x); [|done].
  constructor; [done|]. rewrite Forall_forall in Hf |- *.
  intros y [Hy _]%in_filter_b. by apply Hf.
Qed.

Lemma filter_perm (p : A -> bool) l l' : l ≡ₚ l' -> List.filter p l ≡ₚ List.filter p l'.
Proof.
  induction 1 as [|x l l' _ IH|x y l|l1 l2 l3 _ IH1 _ IH2]; simpl; [done| | |by rewrite IH1].
  - destruct (p x); by rewrite IH.
  - destruct (p x), (p y); try done. apply Permutation_swap.
Qed.

Lemma sorted_by_filter (p : A -> bool) l :
  NoDup (map key l) -> sorted_by key (List.filter p l) = List.filter p (sorted_by key l).
Proof.
  intros Hd. apply (sorted_unique key).
  - rewrite sorted_by_perm. apply filter_perm. by rewrite sorted_by_perm.
  - rewrite sorted_by_perm. by apply nodup_filter.
  - apply sorted_by_sorted.
  - apply sorted_filter_b, sorted_by_sorted.
Qed.

(** In a list that descends in distinct keys, the elements below [x] are those after it. *)
Definition below (k : K) (x : A) : bool := negb (py_leb k (key x)).

Lemma below_trans k x y : below k x = true -> below (key x) y = true -> below k y = true.
Proof.
  unfold below. rewrite !negb_true_iff. intros Hkx Hxy.
  destruct (py_leb k (key y)) eqn:Hky; [|done].
  assert (py_leb (key y) (key x) = true) by (destruct (py_leb_total (key y) (key x)); congruence).
  assert (py_leb k (key x) = true) by (by eapply py_leb_trans). congruence.
Qed.

Lemma filter_below_split l1 x l2 :
  StronglySorted (le_by key) (rev (l1 ++ x :: l2)) -> NoDup (map key (l1 ++ x :: l2)) ->
  List.filter (below (key x)) (l1 ++ x :: l2) = l2.
Proof.
  intros Hs Hd. assert (Hle : forall a, a ∈ l1 -> below (key x) a = false).
  { intros a Ha. unfold below. apply negb_false_iff.
    rewrite rev_app_distr in Hs. simpl in Hs. rewrite <- app_assoc in Hs.
    apply list_elem_of_In, in_rev, list_elem_of_In in Ha.
    clear Hd. induction (rev l2) as [|b l IH]; simpl in Hs.
    - inversion Hs as [|? ? _ Hf]; subst. rewrite Forall_forall in Hf. by apply Hf.
    - inversion Hs; subst. by apply IH. }
  assert (Hgt : forall b, b ∈ l2 -> below (key x) b = true).
  { intros b Hb. unfold below. apply negb_true_iff.
    destruct (py_leb (key x) (key b)) eqn:Hxb; [|done]. exfalso.
    rewrite map_app in Hd. apply NoDup_app in Hd as (_ & _ & Hd). simpl in Hd.
    apply NoDup_cons in Hd as [Hn _]. apply Hn, in_map_b. exists b. split; [|done].
    apply py_leb_antisym; [done|]. rewrite rev_app_distr in Hs. simpl in Hs.
    rewrite <- app_assoc in Hs. simpl in Hs.
    apply list_elem_of_In, in_rev, list_elem_of_In in Hb.
    clear -Hs Hb. induction (rev l2) as [|c l IH]; simpl in Hs; [by apply elem_of_nil in Hb|].
    inversion Hs as [|? ? Hs' Hf]; subst. apply elem_of_cons in Hb as [->|Hb]; [|by apply IH].
    rewrite Forall_forall in Hf. apply (Hf x). apply elem_of_app. right. by left. }
  rewrite List.filter_app. simpl. unfold below at 2. rewrite py_leb_refl. simpl.
  assert (H1 : List.filter (below (key x)) l1 = []).
  { clear -Hle. induction l1 as [|a l IH]; simpl; [done|]. rewrite Hle by (by left).
    apply IH. intros b Hb. apply Hle. by right. }
  assert (H2 : List.filter (below (key x)) l2 = l2).
  { clear -Hgt. induction l2 as [|a l IH]; simpl; [done|]. rewrite Hgt by (by left).
    f_equal. apply IH. intros b Hb. apply Hgt. by right. }
  by rewrite H1, H2.
Qed.
End order.

(** ** Pages *)

Section pages.
Context `{SqlEngine, Homeserver, PyRepr, PyUnicode}.

(** The public directory: the visible channels, best first. *)
Definition directory (db : SetkaDb) : list RegistryRow :=
  direct true (List.filter (registry_where None true false)
    (omap join_stats (setka_published_channels db))).

(** The rows of the directory after a page token. *)
Definition remaining (since : option RoomListNextBatch) (db : SetkaDb) : list RegistryRow :=
  match since with
  | None => directory db
  | Some b => List.filter (below directory_key (last_joined_members b, last_room_id b)) (directory db)
  end.

(** What one row of the registry contributes to the list. *)
Definition page_entry (query : string) (r : RegistryRow) : option ChannelEntry :=
  match _room_entry_to_channel (registry_dict r) with
  | Some entry => if _matches_search entry query then Some entry else None
  | None => None
  end.

Lemma join_stats_channel c r : join_stats c = Some r -> rr_channel r = c.
Proof.
  unfold join_stats. destruct (room_stats_state (c_room_id c)), (room_stats_current (c_room_id c)); try done. by intros [= <-].
Qed.

Lemma directory_keys db :
  NoDup (map c_room_id (setka_published_channels db)) ->
  NoDup (map directory_key (omap join_stats (setka_published_channels db))).
Proof.
  induction (setka_published_channels db) as [|c cs IH]; simpl; [intros; apply NoDup_nil_2|].
  intros [Hn Hd]%NoDup_cons. destruct (join_stats c) as [r|] eqn:Hr; [|by apply IH].
  csimpl. apply NoDup_cons. split; [|by apply IH].
  intros Hin. apply Hn. apply in_map_b in Hin as (r' & Heq & Hin).
  apply list_elem_of_omap in Hin as (c' & Hin & Hr').
  apply in_map_b. exists c'. split; [|done].
  apply join_stats_channel in Hr as <-, Hr' as <-. unfold directory_key in Heq. congruence.
Qed.

Lemma directory_sorted db : StronglySorted (le_by directory_key) (rev (directory db)).
Proof. unfold directory, direct. rewrite rev_involutive. apply sorted_by_sorted. Qed.

Lemma directory_nodup db :
  NoDup (map c_room_id (setka_published_channels db)) -> NoDup (map directory_key (directory db)).
Proof.
  intros Hd. unfold directory, direct. rewrite map_rev, <- Permutation_rev.
  rewrite sorted_by_perm. by apply nodup_filter, directory_keys.
Qed.

Lemma after_below b r :
  after_bounds (Some b) true r = below directory_key b r.
Proof.
  destruct b as [n room]. unfold after_bounds, below, directory_key. simpl.
  unfold pair_leb. simpl. set (m := rr_members r).
  destruct (Z.leb_spec n m), (Z.leb_spec m n), (Z.ltb_spec m n); simpl; try lia; try done.
Qed.

Lemma filter_and {A} (w p q : A -> bool) l :
  (forall x, w x = p x && q x) -> List.filter w l = List.filter q (List.filter p l).
Proof.
  intros Hw. induction l as [|x l IH]; [done|]. cbn [List.filter]. rewrite Hw.
  destruct (p x); cbn [andb List.filter]; [|done]. by rewrite IH.
Qed.

(** The query for one page returns the beginning of what remains. *)
Lemma fetch_page limit since db :
  NoDup (map c_room_id (setka_published_channels db)) ->
  (forall b, since = Some b -> direction_is_forward b = true) ->
  _fetch_published_channels_from_registry limit
    ((fun b => (last_joined_members b, last_room_id b)) <$> since)
    (match since with Some b => direction_is_forward b | None => true end) false db =
  (Ok (take limit (remaining since db)), db).
Proof.
  intros Hd Hf. unfold _fetch_published_channels_from_registry, st_read. f_equal. f_equal. f_equal.
  destruct since as [b|]; [|done]. cbn [fmap option_fmap option_map]. rewrite (Hf b eq_refl).
  unfold remaining, directory, direct. set (rows := omap join_stats _).
  assert (Hw : List.filter (registry_where (Some (last_joined_members b, last_room_id b)) true false) rows =
    List.filter (below directory_key (last_joined_members b, last_room_id b))
      (List.filter (registry_where None true false) rows)).
  { apply filter_and. intros r. unfold registry_where. rewrite after_below. cbn [after_bounds].
    by rewrite andb_true_r. }
  rewrite Hw, sorted_by_filter by (by apply nodup_filter, directory_keys).
  by rewrite List.filter_rev.
Qed.

(** Below the last row of a page comes exactly what the page left. *)
Lemma remaining_next since db seen r rest :
  NoDup (map c_room_id (setka_published_channels db)) ->
  remaining since db = seen ++ r :: rest -> remaining (Some (next_batch_of r)) db = rest.
Proof.
  intros Hd Hrem. unfold remaining at 1. change (last_joined_members (next_batch_of r), last_room_id (next_batch_of r))
    with (directory_key r).
  assert (Hsub : List.filter (below directory_key (directory_key r)) (directory db) =
                 List.filter (below directory_key (directory_key r)) (remaining since db)).
  { destruct since as [b|]; [|done]. unfold remaining. unfold remaining in Hrem.
    set (k := (last_joined_members b, last_room_id b)) in *.
    assert (Hr : below directory_key k r = true).
    { assert (Hin : r ∈ List.filter (below directory_key k) (directory db)).
      { rewrite Hrem. apply elem_of_app. right. by left. }
      by apply in_filter_b in Hin as [_ ?]. }
    clear -Hr. induction (directory db) as [|x l IH]; [done|]. cbn [List.filter].
    destruct (below directory_key (directory_key r) x) eqn:Hx.
    - rewrite (below_trans _ _ _ _ Hr Hx). cbn [List.filter]. rewrite Hx. by f_equal.
    - destruct (below directory_key k x); [|done]. cbn [List.filter]. by rewrite Hx. }
  rewrite Hsub, Hrem. apply filter_below_split; rewrite <- Hrem; destruct since as [b|]; unfold remaining.
  - rewrite <- List.filter_rev. apply sorted_filter_b, directory_sorted.
  - apply directory_sorted.
  - by apply nodup_filter, directory_nodup.
  - by apply directory_nodup.
Qed.

Lemma public_entry_spec user subs r db res db' :
  public_entry user subs r db = (res, db') ->
  exists o, res = Ok o /\ pc_entry <$> o = _room_entry_to_channel (registry_dict r).
Proof.
  unfold public_entry. destruct (_room_entry_to_channel _) as [entry|];
    [|intros [= <- _]; by exists None].
  unfold st_bind. destruct (str_truthy _).
  - unfold get_category_label, _ensure_tables, st_modify, st_read, st_ret.
    destruct (c_category_id _) as [i|]; [|intros [= <- _]; by eexists].
    destruct (String.eqb i ""); intros He; apply (f_equal fst) in He; cbn [fst] in He;
      subst res; eexists; (split; [reflexivity|]); reflexivity.
  - intros [= <- _]. by eexists.
Qed.

(** The loop looks at a beginning of the rows, takes the matching entries, and stops early
    only with a full page. *)
Lemma page_loop_spec user subs q n rows o cs db cs' o' db' :
  (List.length cs < n)%nat ->
  page_loop user subs q n rows o cs db = (Ok (cs', o'), db') ->
  exists seen rest, rows = seen ++ rest /\
    map pc_entry cs' = map pc_entry cs ++ omap (page_entry q) seen /\
    o' = match last seen with Some r => Some r | None => o end /\
    (List.length cs' <= n)%nat /\ (rest = [] \/ List.length cs' = n).
Proof.
  revert o cs db. induction rows as [|r rows IH]; intros o cs db Hn Hl; simpl in Hl.
  - injection Hl as <- <- _. exists [], []. simpl. rewrite app_nil_r. split_and!; try done; [lia|by left].
  - unfold st_bind in Hl. destruct (public_entry user subs r db) as [res db1] eqn:Hp.
    apply public_entry_spec in Hp as (p & -> & Hp).
    assert (Hcont : forall cs1 db1, (List.length cs1 < n)%nat ->
      map pc_entry cs1 = map pc_entry cs ++ match page_entry q r with Some e => [e] | None => [] end ->
      page_loop user subs q n rows (Some r) cs1 db1 = (Ok (cs', o'), db') ->
      exists seen rest, r :: rows = seen ++ rest /\
        map pc_entry cs' = map pc_entry cs ++ omap (page_entry q) seen /\
        o' = match last seen with Some r => Some r | None => o end /\
        (List.length cs' <= n)%nat /\ (rest = [] \/ List.length cs' = n)).
    { intros cs1 db2 Hn1 Hcs1 Hl1. apply IH in Hl1 as (seen & rest & -> & Hm & -> & Hlen & Hr); [|done].
      exists (r :: seen), rest. split_and!; try done.
      - rewrite Hm, Hcs1, <- app_assoc. f_equal. csimpl. by destruct (page_entry q r).
      - rewrite last_cons. by destruct (last seen). }
    unfold page_entry at 1 in Hcont. destruct p as [pc|]; simpl in Hp; rewrite <- Hp in Hcont.
    + destruct (_matches_search (pc_entry pc) q) eqn:Hm; simpl in Hl.
      * destruct (Nat.leb_spec n (List.length (cs ++ [pc]))) as [Hfull|Hfull].
        -- injection Hl as <- <- _. rewrite length_app in Hfull |- *. simpl in Hfull |- *.
           exists [r], rows. split_and!; [done| |done|lia|right; lia].
           rewrite map_app. csimpl. unfold page_entry. rewrite <- Hp. simpl. by rewrite Hm.
        -- eapply Hcont; [exact Hfull| |exact Hl]. by rewrite map_app.
      * eapply Hcont; [exact Hn| |exact Hl]. by rewrite app_nil_r.
    + eapply Hcont; [exact Hn| |exact Hl]. by rewrite app_nil_r.
Qed.
End pages.

(** C10: one page of the public directory lists, in order, the matching entries of the rows
    it looked at, at most a page of them; its token makes the next page continue exactly
    after them.  Without a token nothing is left, or the page was full. *)
Theorem channel_page_spec `{SqlEngine, Homeserver, PyRepr, PyUnicode} limit since search user db cs next db' :
  db_ok db -> (forall b, since = Some b -> direction_is_forward b = true) ->
  list_public_channels limit since search user db = (Ok (cs, next), db') ->
  exists seen rest, remaining since db = seen ++ rest /\
    map pc_entry cs = omap (page_entry (default "" search)) seen /\
    (List.length cs <= channel_page_size limit)%nat /\
    match next with
    | Some b => remaining (Some b) db = rest
    | None => rest = [] \/ List.length cs = channel_page_size limit
    end.
Proof.
  intros Hdb Hf Hl. destruct (ok_channels db Hdb) as [Hd _].
  unfold list_public_channels in Hl. unfold st_bind at 1 in Hl.
  rewrite (fetch_page _ since db Hd Hf) in Hl. set (n := channel_page_size limit) in *.
  assert (Hn : (0 < n)%nat) by (unfold n, channel_page_size; lia).
  set (rows := take (n + 10) (remaining since db)) in Hl.
  unfold st_bind at 1 in Hl. destruct (_ db) as [[subs|] db1] in Hl; [|done].
  unfold st_bind at 1 in Hl.
  destruct (page_loop user subs (default "" search) n rows None [] db1) as [[[cs1 o]|e] db2] eqn:Hp; [|done].
  apply page_loop_spec in Hp as (seen & rest & Hrows & Hm & -> & Hlen & Hr); [|simpl; lia].
  injection Hl as <- <- _. simpl in Hm.
  exists seen, (rest ++ drop (n + 10) (remaining since db)).
  assert (Hrem : remaining since db = seen ++ rest ++ drop (n + 10) (remaining since db)).
  { rewrite app_assoc, <- Hrows. symmetry. apply take_drop. }
  split_and!; [exact Hrem|done|done|].
  destruct (last seen) as [r|] eqn:Hlast.
  - apply last_Some in Hlast as [seen' ->].
    destruct (Nat.leb_spec (n + 10) (List.length rows)) as [Hfull|Hshort].
    + apply (remaining_next since db seen' r); [done|]. rewrite Hrem at 1. by rewrite <- !app_assoc.
    + assert (Hdrop : drop (n + 10) (remaining since db) = []).
      { apply drop_ge. unfold rows in Hshort. rewrite length_take in Hshort. lia. }
      rewrite Hdrop, app_nil_r. exact Hr.
  - apply last_None in Hlast as ->. simpl in Hm. destruct Hr as [->|Hr].
    + left. simpl in Hrows. simpl. apply drop_ge.
      destruct (remaining since db) as [|x l]; [simpl; lia|]. unfold rows in Hrows.
      rewrite Nat.add_comm in Hrows. simpl in Hrows. done.
    + exfalso. rewrite <- (length_map pc_entry), Hm in Hr. simpl in Hr. lia.
Qed.

(** ** The rebuild *)

(** A row with a new tag, and the row of a room that was not registered. *)
Definition retag (r : PublishedChannel) (tag : option string) : PublishedChannel :=
  {| c_room_id := c_room_id r; c_published_at := c_published_at r; c_tag := tag;
     c_hidden := c_hidden r; c_category_id := c_category_id r; c_feed_enabled := c_feed_enabled r |}.
Definition fresh_row (room : string) (now : Z) (tag : option string) : PublishedChannel :=
  {| c_room_id := room; c_published_at := now; c_tag := tag; c_hidden := 0;
     c_category_id := None; c_feed_enabled := 1 |}.

Section rebuild.
Context `{SqlEngine, Homeserver, PyRepr, PyUnicode} (now : Z).

(** Where a row of the rebuilt registry comes from. *)
Definition rebuilt_from (l : list (string * string)) (rows : list PublishedChannel)
    (r : PublishedChannel) : Prop :=
  exists topic, (c_room_id r, topic) ∈ l /\
    ((exists r0, r0 ∈ rows /\ r = retag r0 (_parse_channel_tag topic)) \/
     ((c_room_id r ∉ map c_room_id rows) /\ r = fresh_row (c_room_id r) now (_parse_channel_tag topic))).

Lemma rebuild_channel_rows x rows r :
  r ∈ rebuild_channel now rows x ->
  (c_room_id r <> x.1 /\ r ∈ rows) \/ rebuilt_from [x] rows r.
Proof.
  destruct x as [room topic]. unfold rebuild_channel. simpl. destruct (row_exists _ _) eqn:He.
  - intros (r0 & Hin & ->)%in_update. unfold in_room.
    destruct (String.eqb_spec (c_room_id r0) room) as [<-|Hn]; [right|by left].
    exists topic. split; [by left|]. left. by exists r0.
  - intros [Hin| ->%list_elem_of_singleton]%elem_of_app.
    + left. split; [|done]. intros Hr. unfold in_room in He.
      assert (Hk : room ∈ map c_room_id rows) by (apply in_map_b; eauto).
      apply (row_exists_key c_room_id) in Hk. congruence.
    + right. exists topic. split; [by left|]. right. split; [|done]. simpl.
      intros Hk%(row_exists_key c_room_id). unfold in_room in He. congruence.
Qed.

Lemma rebuild_channel_keys x rows k :
  k ∈ map c_room_id (rebuild_channel now rows x) <-> k = x.1 \/ k ∈ map c_room_id rows.
Proof.
  unfold rebuild_channel. destruct (row_exists _ _) eqn:He.
  - rewrite keys_update by done. apply (row_exists_key c_room_id) in He.
    split; [by right|]. by intros [->|?].
  - rewrite map_app, elem_of_app. simpl. rewrite list_elem_of_singleton. tauto.
Qed.

Lemma rebuild_rows l rows :
  NoDup (map fst l) ->
  (forall k, k ∈ map c_room_id (fold_left (rebuild_channel now) l rows) <->
             k ∈ map fst l \/ k ∈ map c_room_id rows) /\
  forall r, r ∈ fold_left (rebuild_channel now) l rows ->
    ((c_room_id r ∉ map fst l) /\ r ∈ rows) \/ rebuilt_from l rows r.
Proof.
  revert rows. induction l as [|x l IH]; intros rows Hd; cbn [fold_left].
  - split; [intros k; simpl; rewrite elem_of_nil; tauto|]. intros r Hr. left.
    split; [apply not_elem_of_nil|done].
  - simpl in Hd. apply NoDup_cons in Hd as [Hx Hd].
    destruct (IH (rebuild_channel now rows x) Hd) as [Hk Hr]. split.
    + intros k. rewrite Hk, rebuild_channel_keys. simpl. rewrite elem_of_cons. tauto.
    + intros r Hin. simpl. rewrite elem_of_cons. destruct (Hr r Hin) as [[Hn Hrow]|(t & Ht & Hfrom)].
      * apply rebuild_channel_rows in Hrow as [[Hne Hrow]|(t & Ht & Hfrom)].
        -- left. tauto.
        -- right. exists t. split; [|done]. apply list_elem_of_singleton in Ht as ->. by left.
      * right. exists t. split; [by right|].
        assert (Hne : c_room_id r <> x.1).
        { intros He. apply Hx. rewrite <- He. apply in_map_b. by exists (c_room_id r, t). }
        destruct Hfrom as [(r0 & Hr0 & ->)|[Hnew Hr0]].
        -- left. apply rebuild_channel_rows in Hr0 as [[_ ?]|(t0 & Ht0 & _)]; [by exists r0|].
           apply list_elem_of_singleton in Ht0. rewrite <- Ht0 in Hne. by destruct Hne.
        -- right. split; [|done]. intros Hk0. apply Hnew, rebuild_channel_keys. by right.
Qed.

Lemma filter_update {R} (p q : R -> bool) f rows :
  (forall r, p r = true -> q r = false /\ q (f r) = false) ->
  List.filter q (update_where p f rows) = List.filter q rows.
Proof.
  intros Hf. induction rows as [|r rows IH]; [done|]. simpl. destruct (p r) eqn:Hp.
  - destruct (Hf r Hp) as [-> ->]. exact IH.
  - destruct (q r); [by f_equal|exact IH].
Qed.

Lemma rebuild_stale (stale : string -> bool) l rows :
  (forall k, k ∈ map fst l -> stale k = false) ->
  List.filter (fun r => stale (c_room_id r)) (fold_left (rebuild_channel now) l rows) =
  List.filter (fun r => stale (c_room_id r)) rows.
Proof.
  revert rows. induction l as [|x l IH]; intros rows Hs; cbn [fold_left]; [done|].
  rewrite IH by (intros k Hk; apply Hs; simpl; by right).
  assert (Hx : stale x.1 = false) by (apply Hs; simpl; by left).
  unfold rebuild_channel. destruct (row_exists _ _).
  - apply filter_update. intros r Hr. simpl. unfold in_room in Hr. apply String.eqb_eq in Hr.
    by rewrite Hr.
  - rewrite List.filter_app. simpl. by rewrite Hx, app_nil_r.
Qed.

Lemma scan_rooms_nodup rooms : NoDup rooms -> NoDup (map fst (scan_rooms rooms)).
Proof.
  unfold scan_rooms. induction rooms as [|room rooms IH]; [intros; apply NoDup_nil_2|].
  intros [Hn Hd]%NoDup_cons. csimpl.
  destruct (room_stats_state room) as [s|]; [|by apply IH].
  destruct (room_stats_current room); [|by apply IH].
  destruct (has_channel_stats s); [|by apply IH]. csimpl.
  apply NoDup_cons. split; [|by apply IH]. intros Hin. apply Hn.
  apply in_map_b in Hin as ([room' t] & -> & Hin). apply list_elem_of_omap in Hin as (y & Hy & He).
  destruct (room_stats_state y) as [s'|], (room_stats_current y); try done.
  destruct (has_channel_stats s'); by simplify_eq.
Qed.
End rebuild.

(** After a rebuild the registry holds exactly the rooms the statistics show as public
    channels; each row is the old one with its tag read anew, so that a hidden channel stays
    hidden, or a visible new one.  The result counts the rooms found and the rows removed. *)
Theorem rebuild_registry_spec `{SqlEngine, Homeserver, PyRepr, PyUnicode} rooms now db :
  NoDup rooms ->
  let valid := scan_rooms rooms in
  let '(res, db') := rebuild_registry rooms now db in
  (forall room, is_registered room db' <-> room ∈ map fst valid) /\
  (forall r, r ∈ setka_published_channels db' ->
     rebuilt_from now valid (setka_published_channels db) r) /\
  res = Ok (List.length valid,
            List.length (List.filter (fun r => bool_decide (c_room_id r ∉ map fst valid))
              (setka_published_channels db)),
            List.length valid).
Proof.
  intros Hd valid. unfold rebuild_registry, st_bind, st_modify, st_read, st_ret.
  fold valid. pose proof (scan_rooms_nodup rooms Hd) as Hv. fold valid in Hv.
  destruct (rebuild_rows now valid (setka_published_channels db) Hv) as [Hk Hr].
  assert (Hids : forall k, k ∈ remove_dups (map fst valid) <-> k ∈ map fst valid)
    by (intros k; apply elem_of_remove_dups).
  assert (Hstale : forall r, bool_decide (c_room_id r ∉ remove_dups (map fst valid)) =
                             bool_decide (c_room_id r ∉ map fst valid)).
  { intros r. apply bool_decide_ext. by rewrite Hids. }
  cbn -[delete_where]. split_and!.
  - intros room. unfold is_registered. cbn -[delete_where]. rewrite in_map_b. split.
    + intros (r & -> & [Hin Hs]%in_delete). rewrite Hstale in Hs.
      apply bool_decide_eq_false in Hs. by apply dec_stable in Hs.
    + intros Hin. assert (Hk' := proj2 (Hk room) (or_introl Hin)). apply in_map_b in Hk' as (r & -> & Hr').
      exists r. split; [done|]. apply in_delete. split; [done|]. rewrite Hstale.
      apply bool_decide_eq_false. by intros Hn.
  - intros r [Hin Hs]%in_delete. rewrite Hstale in Hs. apply bool_decide_eq_false, dec_stable in Hs.
    by destruct (Hr r Hin) as [[? _]|?].
  - f_equal. f_equal; [f_equal|].
    + assert (Hs := rebuild_stale now (fun k => bool_decide (k ∉ map fst valid)) valid
        (setka_published_channels db)). cbn beta in Hs. rewrite <- Hs.
      * f_equal. apply filter_ext. exact Hstale.
      * intros k Hin. apply bool_decide_eq_false. by intros Hn.
    + rewrite <- (length_map fst valid). apply Permutation_length, NoDup_Permutation; [|done|done].
      apply NoDup_remove_dups.
Qed.
