(* ===== verification/SetkaFeedSafety.v ===== *)
(** * SetkaFeedSafety: the posts of a feed page, likes and views; a sample server *)
From S2P Require Import Prelude PyVal PySort PyState RoomVersionTable Identifiers Events.
From S2P Require Import EventAuthLevels SetkaChannels EventAuthPower EventAuthMembership.
From S2P Require Import EventAuth Samples SetkaDb SetkaFeed SetkaRegistry SetkaSafety.
From S2P Require Import SetkaListing.
From Stdlib Require Import Ascii String.
Open Scope string_scope.
Open Scope list_scope.
Open Scope Z_scope.
Open Scope py_scope.
Open Scope st_scope.

(** ** Reading the feed leaves the registry alone *)

(** Reading may file the default categories and purge redacted posts, nothing else. *)
Definition shrinks (db db' : SetkaDb) : Prop :=
  setka_published_channels db' = setka_published_channels db /\
  (forall p, p ∈ setka_feed_posts db' -> p ∈ setka_feed_posts db) /\
  (db_ok db -> db_ok db').

#[export] Instance shrinks_preorder : PreOrder shrinks.
Proof.
  split; [by intros db|]. intros db1 db2 db3 (Hp1 & Hs1 & Ho1) (Hp2 & Hs2 & Ho2).
  split_and!; [congruence|auto|auto].
Qed.

(** What a computation that returns does to the tables. *)
Definition reads {A} (c : DbM A) : Prop := forall db a db', c db = (Ok a, db') -> shrinks db db'.

Lemma reads_bind {A B} (c : DbM A) (k : A -> DbM B) :
  reads c -> (forall a, reads (k a)) -> reads (st_bind c k).
Proof.
  intros Hc Hk db b db' Hb. unfold st_bind in Hb. destruct (c db) as [[a|e] db1] eqn:Hdb; [|done].
  etransitivity; [by eapply Hc|by eapply Hk].
Qed.

Lemma reads_read {A} (f : SetkaDb -> A) : reads (st_read f).
Proof. by intros db a db' [= _ <-]. Qed.
Lemma reads_ret {A} (a : A) : reads (st_ret a).
Proof. by intros db b db' [= _ <-]. Qed.

Lemma ensure_tables_frame db :
  setka_published_channels (snd (_ensure_tables db)) = setka_published_channels db /\
  setka_feed_posts (snd (_ensure_tables db)) = setka_feed_posts db /\
  setka_feed_likes (snd (_ensure_tables db)) = setka_feed_likes db /\
  setka_feed_views (snd (_ensure_tables db)) = setka_feed_views db.
Proof.
  unfold _ensure_tables, st_modify. cbn [snd].
  destruct (tables_ready db); split_and!; reflexivity.
Qed.

Lemma reads_ensure_tables : reads _ensure_tables.
Proof.
  intros db a db' Hd. pose proof (keeps_ensure_tables db) as Hk.
  destruct (ensure_tables_frame db) as (Hp & Hs & _). rewrite Hd in Hk, Hp, Hs. cbn [snd] in *.
  split_and!; [exact Hp|by rewrite Hs|exact Hk].
Qed.

Lemma reads_purge ids : reads (_purge_feed_posts ids).
Proof.
  unfold _purge_feed_posts. destruct ids as [|i ids]; [apply reads_ret|].
  intros db a db' Hd. pose proof (keeps_delete_posts (fun p => bool_decide (p_event_id p ∈ i :: ids)) db) as Hk.
  rewrite Hd in Hk. simpl in Hk. unfold st_modify in Hd. injection Hd as _ <-.
  split_and!; [done| |done]. cbn -[delete_where]. by intros p [Hp _]%in_delete.
Qed.

(** ** One query *)

Section fetch.
Context `{SqlEngine, Homeserver, PyRepr, PyUnicode, PyRandom}.

(** The post is in the index, of a channel that is visible and enabled, older than the
    token, and has something to show. *)
Definition shown (since : option Z) (db : SetkaDb) (v : PostView) : Prop :=
  _post_is_visible v = true /\
  exists p c, p ∈ setka_feed_posts db /\ c ∈ setka_published_channels db /\
    p_event_id p = v_event_id v /\ p_created_at p = v_created_at v /\
    p_room_id p = v_room_id v /\ c_room_id c = v_room_id v /\
    c_feed_enabled c = 1 /\ c_hidden c = 0 /\
    forall n, since = Some n -> v_created_at v < n.

Lemma shown_shrinks since db db' v : shrinks db db' -> shown since db' v -> shown since db v.
Proof.
  intros (Hp & Hs & _) (Hv & p & c & Hpin & Hcin & Hrest). split; [done|].
  exists p, c. split_and!; try tauto; [by apply Hs|by rewrite <- Hp].
Qed.

Lemma feed_join_in q db p :
  p ∈ feed_join q db ->
  p ∈ setka_feed_posts db /\ exists c, c ∈ setka_published_channels db /\
    c_room_id c = p_room_id p /\ feed_where q p c = true.
Proof.
  unfold feed_join. rewrite in_flat_map_b. intros (p' & Hp' & Hin).
  apply in_flat_map_b in Hin as (c & Hc & Hin).
  destruct (String.eqb_spec (p_room_id p') (c_room_id c)) as [Hr|]; [|by apply elem_of_nil in Hin].
  destruct (feed_where q p' c) eqn:Hw; simpl in Hin; [|by apply elem_of_nil in Hin].
  apply list_elem_of_singleton in Hin as ->. split; [done|]. by exists c.
Qed.

(** With unique rooms in the registry, a post is joined at most once. *)
Lemma feed_join_nodup q db :
  NoDup (map c_room_id (setka_published_channels db)) ->
  NoDup (map p_event_id (setka_feed_posts db)) -> NoDup (map p_event_id (feed_join q db)).
Proof.
  intros Hc. unfold feed_join. set (f := fun p => flat_map _ _).
  assert (Hf : forall p, f p = [] \/ f p = [p]).
  { intros p. unfold f. clear f. induction (setka_published_channels db) as [|c cs IH]; [by left|].
    simpl in Hc |- *. apply NoDup_cons in Hc as [Hn Hc]. specialize (IH Hc).
    destruct (String.eqb_spec (p_room_id p) (c_room_id c)) as [Hr|]; [|exact IH].
    destruct (feed_where q p c); [|exact IH]. right. simpl. f_equal.
    assert (Hnone : forall l, (c_room_id c ∉ map c_room_id l) -> flat_map (fun c0 =>
      if String.eqb (p_room_id p) (c_room_id c0) && feed_where q p c0 then [p] else []) l = []).
    { clear -Hr. induction l as [|c' l IH]; [done|]. simpl. rewrite elem_of_cons. intros Hn.
      destruct (String.eqb_spec (p_room_id p) (c_room_id c')) as [Hr'|]; [|apply IH; tauto].
      exfalso. apply Hn. left. congruence. }
    by apply Hnone. }
  induction (setka_feed_posts db) as [|p ps IH]; simpl; [done|]. intros [Hn Hd]%NoDup_cons.
  rewrite map_app. specialize (IH Hd). destruct (Hf p) as [Hfp|Hfp]; rewrite Hfp; [done|]. simpl.
  apply NoDup_cons. split; [|done]. intros Hin. apply Hn. apply in_map_b in Hin as (p' & Hp & Hin).
  rewrite Hp. apply in_map_b. exists p'. split; [done|].
  apply in_flat_map_b in Hin as (p2 & Hp2 & Hin). destruct (Hf p2) as [Hf2|Hf2]; rewrite Hf2 in Hin.
  - by apply elem_of_nil in Hin.
  - by apply list_elem_of_singleton in Hin as ->.
Qed.

Lemma feed_rows_ok q limit db :
  (forall p, p ∈ feed_rows q limit db -> p ∈ feed_join q db) /\
  (List.length (feed_rows q limit db) <= clamp_limit limit)%nat /\
  (db_ok db -> NoDup (map p_event_id (feed_rows q limit db))).
Proof.
  unfold feed_rows. destruct (match room_ids q with Some [] => true | _ => false end) eqn:Hb.
  - destruct (room_ids q) as [[|? ?]|]; try done. split_and!; [by intros p ?%elem_of_nil|simpl; lia|].
    intros. apply NoDup_nil_2.
  - set (rows := if random_explore q then _ else _).
    assert (Hperm : rows ≡ₚ feed_join q db).
    { subst rows. destruct (random_explore q); [apply sql_random_perm|apply sorted_by_perm]. }
    assert (Hgoal : (forall p, p ∈ take (clamp_limit limit) rows -> p ∈ feed_join q db) /\
      (List.length (take (clamp_limit limit) rows) <= clamp_limit limit)%nat /\
      (db_ok db -> NoDup (map p_event_id (take (clamp_limit limit) rows)))).
    { split_and!.
      - intros p Hp. rewrite <- Hperm. by apply elem_of_take in Hp as (i & Hi & _);
          apply list_elem_of_lookup_2 in Hi.
      - rewrite length_take. lia.
      - intros Hdb. rewrite <- firstn_map. change (firstn ?n ?l) with (take n l).
        apply (sublist_NoDup _ (map p_event_id rows)); [|apply sublist_take].
        rewrite Hperm. apply feed_join_nodup; [apply Hdb|by destruct Hdb]. }
    destruct (room_ids q) as [[|? ?]|]; try done; exact Hgoal.
Qed.

(** What the checks against the events keep of a post. *)
Lemma filter_post_ok evs red v v' :
  filter_post evs red v = Some v' ->
  _post_is_visible v' = true /\ v_event_id v' = v_event_id v /\ v_room_id v' = v_room_id v /\
  v_created_at v' = v_created_at v.
Proof.
  unfold filter_post. destruct (dget _ evs) as [e|].
  - destruct (negb (is_feed_message e)); [done|]. destruct (_post_is_visible _) eqn:Hv; [|done].
    intros [= <-]. split; [done|]. unfold refresh_post.
    by destruct (_message_fields_from_content _) as [[? ?] ?].
  - case_bool_decide; [done|]. destruct (_post_is_visible v) eqn:Hv; [|done]. by intros [= <-].
Qed.

Definition came_from (posts : list PostView) (v : PostView) : Prop :=
  _post_is_visible v = true /\ exists v0, v0 ∈ posts /\ v_event_id v = v_event_id v0 /\
    v_room_id v = v_room_id v0 /\ v_created_at v = v_created_at v0.

Lemma omap_ids (f : PostView -> option PostView) l :
  (forall v v', f v = Some v' -> v_event_id v' = v_event_id v) ->
  sublist (map v_event_id (omap f l)) (map v_event_id l).
Proof.
  intros Hf. induction l as [|v l IH]; [done|]. csimpl. destruct (f v) as [v'|] eqn:Hv.
  - csimpl. rewrite (Hf v v' Hv). by apply sublist_skip.
  - by apply sublist_cons.
Qed.

Lemma filter_posts_ok posts db res db' :
  _filter_posts_with_events posts db = (Ok res, db') ->
  shrinks db db' /\ (forall v, v ∈ res -> came_from posts v) /\
  sublist (map v_event_id res) (map v_event_id posts).
Proof.
  unfold _filter_posts_with_events. destruct posts as [|v0 posts0].
  { intros [= <- <-]. split_and!; [done| |done]. by intros v ?%elem_of_nil. }
  remember (v0 :: posts0) as posts eqn:Hposts. clear Hposts v0 posts0.
  destruct (get_events_as_list _) as [evs|].
  - unfold st_bind. set (red := _redacted_event_ids _). set (f := filter_post _ red).
    destruct (_purge_feed_posts red db) as [[[]|e] db1] eqn:Hp; [|done].
    intros [= <- <-]. split_and!.
    + by eapply reads_purge.
    + intros v Hv. apply list_elem_of_omap in Hv as (v1 & Hin & Hf).
      apply filter_post_ok in Hf as (? & ? & ? & ?). split; [done|]. by exists v1.
    + apply omap_ids. by intros v v' (_ & ? & _)%filter_post_ok.
  - intros [= <- <-]. split_and!; [done| |].
    + intros v [Hin Hv]%in_filter_b. split; [done|]. by exists v.
    + generalize posts as l. clear. induction l as [|v l IH]; [done|]. simpl.
      destruct (_post_is_visible v); simpl; [by apply sublist_skip|by apply sublist_cons].
Qed.

Lemma fetch_posts_ok user limit q db posts db' :
  _fetch_posts user limit q db = (Ok posts, db') ->
  shrinks db db' /\ (forall v, v ∈ posts -> shown (since_ms q) db v) /\
  (List.length posts <= clamp_limit limit)%nat /\
  (db_ok db -> NoDup (map v_event_id posts)).
Proof.
  unfold _fetch_posts. unfold st_bind at 1. destruct (_ensure_tables db) as [[[]|] db1] eqn:He; [|done].
  apply reads_ensure_tables in He. unfold st_bind at 1, st_read at 1.
  destruct (feed_rows_ok q limit db1) as (Hin & Hlen & Hnd). set (rows := feed_rows q limit db1) in *.
  intros Hh. assert (Hres : shrinks db1 db' /\
    (forall v, v ∈ posts -> came_from (map (hydrate_post db1 user) rows) v) /\
    sublist (map v_event_id posts) (map v_event_id (map (hydrate_post db1 user) rows))).
  { unfold _hydrate_posts in Hh. destruct rows as [|r rows0].
    - injection Hh as <- <-. split_and!; [done| |done]. by intros v ?%elem_of_nil.
    - unfold st_bind, st_read in Hh. by apply filter_posts_ok in Hh. }
  destruct Hres as (Hsh & Hv & Hsub). split_and!; [by etransitivity| | |].
  - intros v Hvin. apply (shown_shrinks _ _ _ _ He).
    destruct (Hv v Hvin) as (Hvis & v0 & Hv0 & Hi & Hro & Hcr). split; [done|].
    rewrite Hi, Hro, Hcr.
    apply in_map_b in Hv0 as (p & -> & Hp). apply Hin, feed_join_in in Hp as (Hp & c & Hc & Hroom & Hw).
    unfold feed_where in Hw. rewrite !andb_true_iff in Hw. destruct Hw as (((((Hen & Hhid) & Hs) & _) & _) & _).
    exists p, c. simpl. split_and!; try done; [by apply Z.eqb_eq|by apply Z.eqb_eq|].
    intros n Hn. rewrite Hn in Hs. lia.
  - apply sublist_length in Hsub. rewrite !length_map in Hsub. lia.
  - intros Hdb. eapply sublist_NoDup; [|exact Hsub]. rewrite map_map. apply Hnd. by apply He.
Qed.

(** ** A page *)

Lemma merge_posts_ok posts batch :
  (forall v, v ∈ merge_posts posts batch -> v ∈ posts \/ v ∈ batch) /\
  (NoDup (map v_event_id posts) -> NoDup (map v_event_id (merge_posts posts batch))).
Proof.
  unfold merge_posts. revert posts. induction batch as [|p batch IH]; intros posts; simpl.
  - split; [by left|done].
  - case_bool_decide as Hin; destruct (IH (if bool_decide (v_event_id p ∈ map v_event_id posts)
      then posts else posts ++ [p])) as [H1' H2']; rewrite ?bool_decide_true, ?bool_decide_false in H1', H2' by done.
    + split; [|done]. intros v Hv. destruct (H1' v Hv); [by left|right; by right].
    + split.
      * intros v Hv. destruct (H1' v Hv) as [Hv'|]; [|right; by right].
        apply elem_of_app in Hv' as [|Hv']; [by left|].
        apply list_elem_of_singleton in Hv' as ->. right. by left.
      * intros Hd. apply H2'. rewrite map_app. simpl. apply NoDup_app.
        split_and!; [done| |apply NoDup_singleton]. by intros x Hx ->%list_elem_of_singleton.
Qed.

Definition batch_ok (since : option Z) (db db' : SetkaDb) (posts : list PostView) : Prop :=
  shrinks db db' /\ (forall v, v ∈ posts -> shown since db v) /\
  (db_ok db -> NoDup (map v_event_id posts)).

Lemma merge_batch_ok user w limit q posts db0 db posts' db' :
  batch_ok (since_ms q) db0 db posts -> merge_batch user w limit q posts db = (Ok posts', db') ->
  batch_ok (since_ms q) db0 db' posts'.
Proof.
  intros (Hsh & Hv & Hd) Hm. unfold merge_batch in Hm. destruct w; [|by injection Hm as <- <-].
  unfold st_bind in Hm. destruct (_fetch_posts _ _ _ db) as [[batch|] db1] eqn:Hf; [|done].
  injection Hm as <- <-. apply fetch_posts_ok in Hf as (Hsh1 & Hv1 & _ & _).
  destruct (merge_posts_ok posts batch) as [Hin Hnd]. split_and!.
  - by etransitivity.
  - intros v Hvin. destruct (Hin v Hvin) as [|Hb]; [by apply Hv|].
    eapply shown_shrinks; [exact Hsh|by apply Hv1].
  - intros Hdb. by apply Hnd, Hd.
Qed.
Lemma reads_subscribed user : reads (_user_subscribed_rooms user).
Proof.
  unfold _user_subscribed_rooms. apply reads_bind; [apply reads_ensure_tables|]. intros _. apply reads_read.
Qed.

Lemma reads_top user : reads (_user_top_categories user).
Proof.
  unfold _user_top_categories. apply reads_bind; [apply reads_subscribed|].
  intros [|? ?]; [apply reads_ret|apply reads_read].
Qed.

Lemma reads_feed_rooms user : reads (_subscription_feed_room_ids user).
Proof.
  unfold _subscription_feed_room_ids. apply reads_bind; [apply reads_subscribed|]. intros subs.
  apply reads_bind; [|intros; apply reads_ret].
  unfold _user_joined_published_channels. apply reads_bind; [apply reads_ensure_tables|].
  intros _. apply reads_read.
Qed.

(** The page of the recommended mix, before it is cut and shuffled. *)
Lemma mix_ok user since b1 b2 b3 l1 l2 l3 q1 q2 q3 db0 db p1 p2 p3 db1 db2 db3 :
  shrinks db0 db -> since_ms q1 = since -> since_ms q2 = since -> since_ms q3 = since ->
  merge_batch user b1 l1 q1 [] db = (Ok p1, db1) ->
  merge_batch user b2 l2 q2 p1 db1 = (Ok p2, db2) ->
  merge_batch user b3 l3 q3 p2 db2 = (Ok p3, db3) -> batch_ok since db0 db3 p3.
Proof.
  intros Hs <- H2s H3s Hm1 Hm2 Hm3.
  assert (Hok : batch_ok (since_ms q1) db0 db []).
  { split_and!; [done|by intros v ?%elem_of_nil|intros; apply NoDup_nil_2]. }
  eapply merge_batch_ok in Hm1; [|exact Hok].
  rewrite <- H2s in Hm1 |- *. eapply merge_batch_ok in Hm2; [|exact Hm1].
  rewrite H2s, <- H3s in Hm2 |- *. by eapply merge_batch_ok in Hm3.
Qed.
End fetch.

(** C9: every post of a feed page is indexed, of a channel that is enabled and not hidden,
    older than the page token, and shows something; no post appears twice, a page has at most
    the posts asked for (and never more than 50), and its token is the timestamp of its last
    post. *)
Theorem feed_page_safe `{SqlEngine, Homeserver, PyRepr, PyUnicode, PyRandom}
    user mode limit since search db posts next db' :
  db_ok db -> get_feed user mode limit since search db = (Ok (posts, next), db') ->
  (forall v, v ∈ posts -> shown (_parse_since since) db v) /\
  NoDup (map v_event_id posts) /\ (List.length posts <= clamp_limit limit)%nat /\
  next = (fun v => str_of_int (v_created_at v)) <$> last posts.
Proof.
  intros Hdb Hg. unfold get_feed in Hg. destruct (str_truthy search).
  { apply st_bind_ok in Hg as (ps & db1 & Hf & [= <- <- <-]).
    apply fetch_posts_ok in Hf as (_ & Hv & Hlen & Hnd). split_and!; auto. }
  destruct (String.eqb mode "subscriptions").
  { apply st_bind_ok in Hg as (rooms & db1 & Hr & Hg). apply reads_feed_rooms in Hr.
    apply st_bind_ok in Hg as (ps & db2 & Hf & [= <- <- <-]).
    apply fetch_posts_ok in Hf as (_ & Hv & Hlen & Hnd). split_and!; [|by apply Hnd, Hr|done|done].
    intros v Hin. eapply shown_shrinks; [exact Hr|by apply Hv]. }
  apply st_bind_ok in Hg as (subs & db1 & Hs & Hg). apply reads_subscribed in Hs.
  apply st_bind_ok in Hg as (tops & db2 & Ht & Hg). apply reads_top in Ht.
  apply st_bind_ok in Hg as (p1 & db3 & Hm1 & Hg). apply st_bind_ok in Hg as (p2 & db4 & Hm2 & Hg).
  apply st_bind_ok in Hg as (p3 & db5 & Hm3 & [= <- <- <-]).
  assert (Hsh : shrinks db db2) by (by etransitivity).
  assert (Hmix : batch_ok (_parse_since since) db db5 p3).
  { eapply mix_ok; [exact Hsh| | | |exact Hm1|exact Hm2|exact Hm3]; reflexivity. }
  clear Hm1 Hm2 Hm3. destruct Hmix as (_ & Hv & Hnd). fold (clamp_limit limit). set (n := clamp_limit limit).
  set (cut := take n (sorted_by (fun p => - v_created_at p) p3)).
  set (page := if _ <? _ then shuffle cut else cut).
  assert (Hperm : page ≡ₚ cut) by (subst page; destruct (_ <? _); [apply shuffle_perm|done]).
  split_and!; [| | |done].
  - intros v. rewrite Hperm. intros Hin. apply Hv. rewrite <- (sorted_by_perm (fun p => - v_created_at p) p3).
    apply elem_of_take in Hin as (i & Hi & _). by apply list_elem_of_lookup_2 in Hi.
  - rewrite Hperm. unfold cut. rewrite <- firstn_map.
    apply (sublist_NoDup _ (map v_event_id (sorted_by (fun p => - v_created_at p) p3))); [|apply sublist_take].
    rewrite sorted_by_perm. by apply Hnd.
  - rewrite Hperm. unfold cut. rewrite length_take. lia.
Qed.

(** ** Likes and views *)

Lemma mark_exists_delete u e m rows :
  row_exists (is_mark u e) (delete_where (is_mark m.1 m.2) rows) =
  negb (bool_decide ((u, e) = m)) && row_exists (is_mark u e) rows.
Proof.
  apply eq_true_iff_eq. rewrite andb_true_iff, negb_true_iff, bool_decide_eq_false, !mark_exists.
  rewrite !in_map_b. split.
  - intros (x & Hx & [Hin Hn]%in_delete). split; [|by exists x]. intros <-.
    apply not_true_iff_false in Hn. apply Hn, is_mark_spec. by rewrite <- Hx.
  - intros (Hne & x & Hx & Hin). exists x. split; [done|]. apply in_delete. split; [done|].
    apply not_true_iff_false. intros Hm%is_mark_spec. apply Hne. rewrite Hx, Hm. by destruct m.
Qed.

Lemma mark_exists_snoc u e m ts rows :
  row_exists (is_mark u e) (rows ++ [(m, ts)]) =
  bool_decide ((u, e) = m) || row_exists (is_mark u e) rows.
Proof.
  apply eq_true_iff_eq. rewrite orb_true_iff, bool_decide_eq_true, !mark_exists.
  rewrite map_app, elem_of_app. simpl. rewrite list_elem_of_singleton. tauto.
Qed.

Definition count_of (f : FeedPost -> Z) (e : string) (posts : list FeedPost) : Z :=
  match fetchone (fun p => String.eqb (p_event_id p) e) posts with Some p => f p | None => 0 end.

Lemma post_count_of f e db : post_count f e db = count_of f e (setka_feed_posts db).
Proof. done. Qed.

(** A counter after an update of one post. *)
Lemma post_count_update f (g : FeedPost -> FeedPost) (h : Z -> Z) event e rows :
  (forall p, p_event_id (g p) = p_event_id p) -> (forall p, f (g p) = h (f p)) ->
  match fetchone (fun p => String.eqb (p_event_id p) e)
          (update_where (fun p => String.eqb (p_event_id p) event) g rows) with
  | Some p => f p | None => 0 end =
  match fetchone (fun p => String.eqb (p_event_id p) e) rows with
  | Some p => if String.eqb e event then h (f p) else f p
  | None => 0
  end.
Proof.
  intros Hk Hf. unfold fetchone. induction rows as [|p rows IH]; [done|]. simpl.
  destruct (String.eqb_spec (p_event_id p) event) as [He|He]; rewrite ?Hk;
    destruct (String.eqb_spec (p_event_id p) e) as [He'|He']; try exact IH.
  - rewrite Hf. by rewrite <- He, <- He', String.eqb_refl.
  - destruct (String.eqb_spec e event); congruence.
Qed.

Lemma fetchone_post e rows :
  (exists p, p ∈ rows /\ p_event_id p = e) ->
  exists p, fetchone (fun p => String.eqb (p_event_id p) e) rows = Some p.
Proof.
  intros (p & Hin & Hp). unfold fetchone. destruct (List.find _ rows) as [p'|] eqn:Hf; [eauto|].
  apply list_elem_of_In in Hin. apply (find_none _ _ Hf) in Hin. rewrite Hp, String.eqb_refl in Hin. done.
Qed.

Lemma marks_pos u e rows : row_exists (is_mark u e) rows = true -> 1 <= marks e rows.
Proof.
  intros He. apply mark_exists, in_map_b in He as ([[u' e'] ts] & [= <- <-] & Hin). unfold marks.
  assert (Hf : (u, e, ts) ∈ List.filter (fun m : Mark => String.eqb m.1.2 e) rows).
  { apply in_filter_b. split; [done|apply String.eqb_refl]. }
  destruct (List.filter _ _); [by apply elem_of_nil in Hf|simpl; lia].
Qed.

(** A counter kept right when a mark is added, or taken away, with its post updated. *)
Lemma count_added f g event m rows posts e :
  (forall p, p_event_id (g p) = p_event_id p) -> (forall p, f (g p) = f p + 1) ->
  m.1.2 = event ->
  (exists p, p ∈ posts /\ p_event_id p = e) ->
  count_of f e posts = marks e rows ->
  count_of f e (update_where (fun p => String.eqb (p_event_id p) event) g posts) = marks e (rows ++ [m]).
Proof.
  intros Hg Hf Hm Hex. unfold count_of. rewrite (post_count_update f g (fun n => n + 1)) by done.
  apply fetchone_post in Hex as [p ->]. destruct m as [[u e'] ts]. simpl in Hm. subst e'.
  rewrite marks_snoc. destruct (String.eqb_spec e event) as [->|Hne].
  - rewrite decide_True by done. lia.
  - rewrite decide_False by congruence. lia.
Qed.

Lemma count_removed f g user event rows posts e :
  (forall p, p_event_id (g p) = p_event_id p) ->
  (forall p, f (g p) = if 0 <? f p then f p - 1 else 0) ->
  NoDup (map fst rows) -> row_exists (is_mark user event) rows = true ->
  (exists p, p ∈ posts /\ p_event_id p = e) ->
  count_of f e posts = marks e rows ->
  count_of f e (update_where (fun p => String.eqb (p_event_id p) event) g posts) =
  marks e (delete_where (is_mark user event) rows).
Proof.
  intros Hg Hf Hd Hm Hex. unfold count_of.
  rewrite (post_count_update f g (fun n => if 0 <? n then n - 1 else 0)) by done.
  rewrite marks_delete by (try done; by apply mark_exists).
  apply fetchone_post in Hex as [p ->]. destruct (String.eqb_spec e event) as [->|Hne].
  - rewrite decide_True by done. pose proof (marks_pos user event _ Hm). intros ->.
    destruct (Z.ltb_spec 0 (marks event rows)); lia.
  - rewrite decide_False by congruence. lia.
Qed.

(** Toggling a like flips whether this user likes the event, leaves every other like as it
    was, and answers with the new state; a counter that was right stays right. *)
Theorem toggle_like_spec user event now db :
  db_ok db ->
  let '(res, db') := toggle_like user event now db in
  let liked := row_exists (is_mark user event) (setka_feed_likes db) in
  row_exists (is_mark user event) (setka_feed_likes db') = negb liked /\
  (forall u e, (u, e) <> (user, event) ->
     row_exists (is_mark u e) (setka_feed_likes db') = row_exists (is_mark u e) (setka_feed_likes db)) /\
  res = Ok (negb liked, post_count p_like_count event db') /\
  (forall e, post_count p_like_count e db = marks e (setka_feed_likes db) ->
     (exists p, p ∈ setka_feed_posts db /\ p_event_id p = e) ->
     post_count p_like_count e db' = marks e (setka_feed_likes db')).
Proof.
  intros Hdb. pose proof (ok_likes db Hdb) as Hd.
  unfold toggle_like, st_bind at 1.
  destruct (ensure_tables_frame db) as (_ & Hp & Hl & _).
  destruct (_ensure_tables db) as [[[]|e] db1] eqn:Hen; [|discriminate Hen]. cbn [snd] in Hp, Hl.
  unfold st_bind, st_read, st_modify, st_ret. rewrite Hl.
  destruct (row_exists (is_mark user event) (setka_feed_likes db)) eqn:Hm;
    cbn -[row_exists delete_where update_where marks post_count set_like_count]; rewrite Hl, ?Hp;
    (split_and!; [|intros u e Hne|done|intros e Hc Hex]).
  - by rewrite (mark_exists_delete user event (user, event)), bool_decide_true.
  - by rewrite (mark_exists_delete u e (user, event)), bool_decide_false.
  - rewrite post_count_of in Hc |- *. cbn [setka_feed_posts set_posts set_likes]. rewrite Hp.
    by apply count_removed.
  - by rewrite mark_exists_snoc, bool_decide_true.
  - by rewrite mark_exists_snoc, bool_decide_false.
  - rewrite post_count_of in Hc |- *. cbn [setka_feed_posts set_posts set_likes]. rewrite Hp.
    by apply count_added.
Qed.

Lemma ensure_tables_done db db1 : _ensure_tables db = (Ok tt, db1) -> tables_ready db1 = true.
Proof. unfold _ensure_tables, st_modify. destruct (tables_ready db) eqn:Ht; intros [= <-]; done. Qed.

Lemma ensure_tables_ready db : tables_ready db = true -> _ensure_tables db = (Ok tt, db).
Proof. intros Ht. unfold _ensure_tables, st_modify. by rewrite Ht. Qed.

(** Viewing what was already seen. *)
Lemma record_view_seen user event now db :
  tables_ready db = true -> row_exists (is_mark user event) (setka_feed_views db) = true ->
  record_view user event now db = (Ok (post_count p_view_count event db), db).
Proof.
  intros Ht Hs. unfold record_view, st_bind, st_read, st_ret. rewrite (ensure_tables_ready db Ht). by rewrite Hs.
Qed.

(** A user's first view of a post is recorded and counted; seeing it again changes
    nothing and gives the same count. *)
Theorem record_view_once user event now now' db :
  db_ok db ->
  let '(res, db') := record_view user event now db in
  row_exists (is_mark user event) (setka_feed_views db') = true /\
  (forall e, marks e (setka_feed_views db') = marks e (setka_feed_views db) +
     if bool_decide (e = event) && negb (row_exists (is_mark user event) (setka_feed_views db))
     then 1 else 0) /\
  (forall e, post_count p_view_count e db = marks e (setka_feed_views db) ->
     (exists p, p ∈ setka_feed_posts db /\ p_event_id p = e) ->
     post_count p_view_count e db' = marks e (setka_feed_views db')) /\
  record_view user event now' db' = (res, db').
Proof.
  intros Hdb. destruct (ensure_tables_frame db) as (_ & Hp & _ & Hv).
  destruct (_ensure_tables db) as [[[]|e] db1] eqn:Hen; [|discriminate Hen]. cbn [snd] in Hp, Hv.
  pose proof (ensure_tables_done _ _ Hen) as Hr.
  destruct (row_exists (is_mark user event) (setka_feed_views db)) eqn:Hm.
  - assert (Heq : forall t, record_view user event t db = (Ok (post_count p_view_count event db1), db1)).
    { intros t. unfold record_view, st_bind, st_read, st_ret. rewrite Hen, Hv. by rewrite Hm. }
    rewrite Heq, Hv. split_and!; [done|intros e; rewrite andb_false_r; lia| |].
    + intros e. by rewrite !post_count_of, Hp.
    + apply record_view_seen; [done|by rewrite Hv].
  - set (db2 := set_posts (set_view_count event (fun n => n + 1))
                  (set_views (fun rows => rows ++ [(user, event, now)]) db1)).
    assert (Heq : record_view user event now db = (Ok (post_count p_view_count event db2), db2)).
    { unfold record_view, st_bind, st_read, st_modify. rewrite Hen, Hv. by rewrite Hm. }
    assert (Hvs : setka_feed_views db2 = setka_feed_views db ++ [(user, event, now)]) by (by rewrite <- Hv).
    assert (Hseen : row_exists (is_mark user event) (setka_feed_views db2) = true)
      by (by rewrite Hvs, mark_exists_snoc, bool_decide_true).
    rewrite Heq. split_and!; [done| | |].
    + intros e. rewrite Hvs, marks_snoc, andb_true_r. do 2 case_match; case_bool_decide; try congruence; lia.
    + intros e Hc Hex. rewrite Hvs. rewrite post_count_of in Hc |- *.
      assert (Hps : setka_feed_posts db2 = set_view_count event (fun n => n + 1) (setka_feed_posts db))
        by (by rewrite <- Hp).
      rewrite Hps. by apply count_added.
    + by apply record_view_seen.
Qed.

(** * A small Setka server, and the properties of the registry on it

    Concrete values for what the server's other tables hold, on which the hypotheses of the
    theorems on the registry and the feed are shown to hold. *)
Open Scope string_scope.
Open Scope list_scope.
Open Scope Z_scope.
Open Scope py_scope.
Open Scope st_scope.

(** ** The server *)

(** LIKE with the wildcard of any length; random orders keep the order. *)
Fixpoint sample_like (pat s : string) : bool :=
  match pat with
  | EmptyString => String.eqb s ""
  | String "%"%char pat =>
      (fix suffixes s := sample_like pat s || match s with
                                              | String _ s => suffixes s
                                              | EmptyString => false
                                              end) s
  | String c pat => match s with
                    | String d s => Ascii.eqb c d && sample_like pat s
                    | EmptyString => false
                    end
  end.

#[refine, export] Instance sample_sql : SqlEngine :=
  {| sql_lower := lower; sql_like := sample_like; sql_random := fun A l => l |}.
Proof. done. Defined.

(** The capital letters of the Russian alphabet but Ё, in UTF-8, have small ones. *)
Fixpoint russian_lower (s : string) : string :=
  match s with
  | String "208" (String b s) =>
      if (144 <=? chr_code b) && (chr_code b <=? 159)
      then String "208" (String (ascii_of_N (N_of_ascii b + 32)) (russian_lower s))
      else if (160 <=? chr_code b) && (chr_code b <=? 175)
      then String "209" (String (ascii_of_N (N_of_ascii b - 32)) (russian_lower s))
      else String "208" (String b (russian_lower s))
  | String a s => String a (russian_lower s)
  | EmptyString => ""
  end.

Lemma russian_lower_ascii s : str_all (fun a => chr_code a <? 128) s = true -> russian_lower s = s.
Proof.
  induction s as [|a s IH]; intros Hs; [done|]. cbn [str_all] in Hs. apply andb_true_iff in Hs as [Ha Hs].
  specialize (IH Hs). destruct a as [[] [] [] [] [] [] [] []]; try discriminate Ha; cbn; by rewrite IH.
Qed.

Lemma lower_ascii s : str_all (fun a => chr_code a <? 128) s = true ->
  str_all (fun a => chr_code a <? 128) (lower s) = true.
Proof.
  induction s as [|a s IH]; intros Hs; [done|]. cbn [str_all] in Hs. apply andb_true_iff in Hs as [Ha Hs].
  specialize (IH Hs). destruct a as [[] [] [] [] [] [] [] []]; try discriminate Ha; cbn; by rewrite IH.
Qed.

#[refine, export] Instance sample_unicode : PyUnicode :=
  {| py_lower s := russian_lower (lower s); py_upper := upper;
     py_isalnum s := match s with String a "" => is_alnum a | _ => false end |}.
Proof.
  - intros s Hs. by rewrite russian_lower_ascii by by apply lower_ascii.
  - done.
  - done.
Defined.

(** A channel that is called "Новости" is found under "НОВОСТИ". *)
Example russian_search :
  let entry name := {|
    ce_room_id := JStr "!news:a"; ce_name := JStr name; ce_topic := "setka:channel"; ce_tag := JNull;
    ce_avatar_url := JNull; ce_num_joined_members := JInt 3; ce_canonical_alias := JNull;
    ce_aliases := JList []; ce_published_at := JInt 7; ce_hidden := false |} in
  (_matches_search (entry "Новости") " НОВОСТИ", _matches_search (entry "Новости") "Погода") = (true, false).
Proof. vm_compute. reflexivity. Qed.

#[refine, export] Instance sample_random : PyRandom := {| shuffle := fun A l => l |}.
Proof. done. Defined.

Definition channel_stats (name : string) : RoomStatsState :=
  {| rs_name := Some name; rs_topic := Some "setka:channel #news"; rs_canonical_alias := None;
     rs_avatar := None; rs_join_rules := Some "public" |}.

(** Two channels and a room that is none; no events at hand. *)
#[export] Instance sample_server : Homeserver := {|
  room_stats_state := fun room =>
    if String.eqb room "!big:a" then Some (channel_stats "big")
    else if String.eqb room "!small:a" then Some (channel_stats "small")
    else if String.eqb room "!chat:a" then
      Some {| rs_name := None; rs_topic := Some "chat"; rs_canonical_alias := None;
              rs_avatar := None; rs_join_rules := Some "public" |}
    else None;
  room_stats_current := fun room => Some (if String.eqb room "!big:a" then 10 else 3);
  local_joined_rooms := fun _ => Ok [];
  redactions_of := fun _ => [];
  get_events_as_list := fun _ => Err AttributeError;
  get_current_state := fun _ => Err AttributeError |}.

Definition channel_row (room : string) (hidden : Z) : PublishedChannel :=
  {| c_room_id := room; c_published_at := 7; c_tag := Some "#news"; c_hidden := hidden;
     c_category_id := Some "news"; c_feed_enabled := 1 |}.

Definition text_post (id room : string) (ts likes : Z) : FeedPost :=
  {| p_event_id := id; p_room_id := room; p_category_id := Some "news"; p_sender := "@mod:a";
     p_created_at := ts; p_msgtype := "m.text"; p_body := "text"; p_media_mxc := None;
     p_comment_count := 0; p_view_count := 0; p_like_count := likes |}.

Definition sample_db : SetkaDb := {|
  setka_published_channels := [channel_row "!big:a" 0; channel_row "!small:a" 0; channel_row "!old:a" 1];
  setka_channel_categories := []; setka_channel_subscriptions := [];
  setka_feed_posts := [text_post "$1" "!big:a" 100 1; text_post "$2" "!small:a" 200 0;
                       text_post "$3" "!old:a" 300 0];
  setka_feed_likes := [("@u:a", "$1", 1)]; setka_feed_views := [];
  rooms_is_public := [("!big:a", true); ("!small:a", true); ("!old:a", true)];
  tables_ready := true |}.

Ltac by_deciding :=
  match goal with |- ?P => refine (bool_decide_eq_true_1 P _); vm_compute; reflexivity end.

Lemma sample_db_ok : db_ok sample_db.
Proof.
  split; try by_deciding.
  - split; [by_deciding|]. intros r Hr.
    unfold sample_db in Hr. simpl in Hr. unfold flag.
    repeat (apply elem_of_cons in Hr as [->|Hr]; [simpl; auto|]). by apply elem_of_nil in Hr.
  - intros p Hp. unfold sample_db in Hp. simpl in Hp.
    repeat (apply elem_of_cons in Hp as [->|Hp]; [vm_compute; split; split; congruence|]).
    by apply elem_of_nil in Hp.
Qed.

(** ** Witnesses *)

(** A channel is published by a post, liked and hidden: three calls from the empty tables. *)
Definition run_like_hide : SetkaDb :=
  snd (set_channel_hidden "!big:a" true (snd (toggle_like "@u:a" "$1" 5
    (snd (rebuild_registry ["!big:a"; "!chat:a"] 3 empty_db))))).

Lemma setka_tables_invariant_witness : db_ok run_like_hide.
Proof.
  apply setka_tables_invariant. unfold run_like_hide.
  eapply rtc_l; [apply (StepRebuild empty_db ["!big:a"; "!chat:a"] 3)|].
  eapply rtc_l; [apply (StepLike _ "@u:a" "$1" 5)|].
  eapply rtc_l; [apply (StepHide _ "!big:a" true)|]. apply rtc_refl.
Defined.

Lemma old_hidden : hidden_in "!old:a" sample_db.
Proof.
  split; [unfold is_registered; by_deciding|]. intros r Hr.
  unfold sample_db in Hr. simpl in Hr.
  repeat (apply elem_of_cons in Hr as [->|Hr]; [simpl; intros; congruence|]). by apply elem_of_nil in Hr.
Qed.

(** A rebuild removes the hidden room, which has no statistics. *)
Lemma hidden_until_shown_witness :
  let db' := snd (rebuild_registry ["!big:a"] 3 sample_db) in
  hidden_in "!old:a" db' \/ ~ is_registered "!old:a" db' \/
  db' = snd (set_channel_hidden "!old:a" false sample_db).
Proof. apply hidden_until_shown; [apply StepRebuild|apply old_hidden]. Defined.

Lemma republishing_unhides_witness :
  let db1 := snd (unpublish_channel "!old:a" sample_db) in
  let db2 := snd (_upsert_published_channel "!old:a" None None 9 false db1) in
  exists r, r ∈ setka_published_channels db2 /\ c_room_id r = "!old:a" /\ c_hidden r = 0.
Proof. apply republishing_unhides. apply old_hidden. Defined.

Lemma rebuild_registry_spec_witness :
  let '(res, db') := rebuild_registry ["!big:a"; "!chat:a"] 3 sample_db in
  res = Ok (1%nat, 2%nat, 1%nat) /\
  forall room, is_registered room db' <-> room ∈ ["!big:a"].
Proof.
  assert (Hd : NoDup ["!big:a"; "!chat:a"]) by by_deciding.
  pose proof (rebuild_registry_spec ["!big:a"; "!chat:a"] 3 sample_db Hd) as Hr. cbv zeta in Hr.
  destruct (rebuild_registry _ _ _) as [res db'] eqn:He. destruct Hr as (Hk & _ & ->).
  split; [vm_compute; reflexivity|]. intros room. rewrite Hk.
  replace (map fst (scan_rooms ["!big:a"; "!chat:a"])) with ["!big:a"] by (vm_compute; reflexivity).
  reflexivity.
Defined.

(** The two visible channels, the larger first, and the posts of both. *)
Definition ok_or {A} (a : A) (r : result A) : A := match r with Ok a => a | Err _ => a end.
Definition page2 : list PublicChannel :=
  fst (ok_or ([], None) (fst (list_public_channels None None None None sample_db))).
Definition feed1 : list PostView :=
  fst (ok_or ([], None) (fst (get_feed "@u:a" "recommended" 10 None None sample_db))).

Lemma page2_listed : list_public_channels None None None None sample_db = (Ok (page2, None), sample_db).
Proof. vm_compute. reflexivity. Qed.
Lemma feed1_fetched :
  get_feed "@u:a" "recommended" 10 None None sample_db = (Ok (feed1, Some "100"), sample_db).
Proof. vm_compute. reflexivity. Qed.

Lemma channel_page_spec_witness :
  List.length page2 = 2%nat /\
  exists seen rest, remaining None sample_db = seen ++ rest /\
    map pc_entry page2 = omap (page_entry "") seen /\ (List.length page2 <= 40)%nat /\
    (rest = [] \/ List.length page2 = 40%nat).
Proof.
  split; [reflexivity|].
  exact (channel_page_spec None None None None sample_db page2 None sample_db sample_db_ok
           ltac:(done) page2_listed).
Defined.

Lemma feed_page_safe_witness :
  map v_event_id feed1 = ["$2"; "$1"] /\
  (forall v, v ∈ feed1 -> shown None sample_db v) /\
  NoDup (map v_event_id feed1) /\ (List.length feed1 <= 10)%nat /\
  Some "100" = (fun v => str_of_int (v_created_at v)) <$> last feed1.
Proof.
  split; [reflexivity|].
  exact (feed_page_safe "@u:a" "recommended" 10 None None sample_db feed1 (Some "100") sample_db
           sample_db_ok feed1_fetched).
Defined.

Lemma toggle_like_spec_witness :
  let '(res, db') := toggle_like "@u:a" "$1" 5 sample_db in
  res = Ok (false, 0) /\ row_exists (is_mark "@u:a" "$1") (setka_feed_likes db') = false.
Proof.
  pose proof (toggle_like_spec "@u:a" "$1" 5 sample_db sample_db_ok) as Ht.
  destruct (toggle_like _ _ _ _) as [res db'] eqn:He. destruct Ht as (Hm & _ & Hr & _).
  split; [|by rewrite Hm]. vm_compute in He. injection He as <- <-. reflexivity.
Defined.

Lemma record_view_once_witness :
  let '(res, db') := record_view "@u:a" "$1" 5 sample_db in
  res = Ok 1 /\ record_view "@u:a" "$1" 6 db' = (res, db').
Proof.
  pose proof (record_view_once "@u:a" "$1" 5 6 sample_db sample_db_ok) as Ht.
  destruct (record_view _ _ _ _) as [res db'] eqn:He. destruct Ht as (_ & _ & _ & Hr).
  split; [|exact Hr]. vm_compute in He. injection He as <- <-. reflexivity.
Defined.

(** ** A page that loses channels *)

(** When fewer rows match than the query probes for, a page that fills up carries no
    token, and the channels after it cannot be reached: of the two channels of the sample a
    page of one shows the first, and none follows. *)
Theorem channel_page_loses :
  exists c, list_public_channels (Some 1) None None None sample_db = (Ok ([c], None), sample_db) /\
    ce_room_id (pc_entry c) = JStr "!big:a" /\
    exists c1 c2, list_public_channels None None None None sample_db =
      (Ok ([c1; c2], None), sample_db) /\ ce_room_id (pc_entry c2) = JStr "!small:a".
Proof.
  eexists. split; [vm_compute; reflexivity|]. split; [reflexivity|].
  eexists _, _. split; [vm_compute; reflexivity|reflexivity].
Qed.
